(* ===== verification/_CoqProject ===== *)
-Q . S2P
Prelude.v
Triple.v
Def.v
Pbuf.v
Mem.v
MemInv.v
MemOps.v
MemTrim.v
MemAlloc.v
MemSys.v
MemProps.v
PbufFacts.v
PbufWrite.v
PbufAlloc.v
PbufPool.v
PbufChain.v
PbufRef.v
PbufOwn.v
PbufEdit.v
InetChksum.v
RpmsgLinux.v
RpmsgLinuxInv.v
RpmsgLinuxProps.v
Netif.v
NetifInv.v
Ip4Addr.v
Node.v
SysArch.v
Timeouts.v
TimeoutsFacts.v
TimeoutsProps.v
Tcpip.v
RpmsgFreeRTOS.v
Examples.v
PbufProps.v
InetChksumProps.v
NetProps.v
NetTypes.v
RpmsgFreeRTOSProps.v
Ethernet.v
EthernetFacts.v
Etharp.v
Ip4.v
Icmp.v
IpReass.v
IpReassSpec.v
IpReassFacts.v
IpReassRun.v
IpReassTimer.v
IpReassProps.v
Udp.v
UdpFacts.v
Ip4Input.v
EtharpFacts.v
EtharpFrame.v
EtharpInv.v
EtharpSend.v
Ip4Facts.v
UdpDemux.v
UdpHeader.v
Ip4Frame.v
UdpFrame.v
Ip4Header.v
UdpSend.v
EtharpLive.v
Ip4Live.v
IcmpLive.v
IcmpReply.v
Ip4InputLive.v
UdpLive.v
Stack.v
EtharpProps.v
Ip4Props.v
IcmpProps.v
UdpProps.v
EtharpCache.v
StackLive.v
StackProps.v
Ping.v
UdpEcho.v
