(* ===== verification/Prelude.v ===== *)
(** * Verification of rpmsg_netif

    rpmsg_netif is a network link between two processors over RPMsg: a Linux
    network driver (src/linux/rpmsg_eth.c) on one side; on the other, under
    FreeRTOS, a driver (src/freertos/rpmsg_eth.c, network.c) below the lwIP 2.1.1
    stack (src/lwip211_v1_8/src/lwip-2.1.1/src, "lwip/" below) with the port of
    src/lwip_arch_xilinx.  This library models both drivers and the part of lwIP
    a packet passes through between RPMsg and the users of UDP.

    ** The configuration

    That of src/lwip_arch_xilinx/include/lwipopts.h and, where it is silent, of
    lwip/include/lwip/opt.h: an operating system (NO_SYS 0), core locking, IPv4
    only, ARP with queueing; no DHCP, AutoIP, IGMP, DNS, VLAN, PPP or loopback.
    LWIP_PLATFORM_ASSERT is empty in this port: an LWIP_ASSERT does nothing.  The
    processor is little-endian with 32-bit words.

    ** How code becomes definitions

    A C integer is a [Z], wrapped ([u8], [u16], [u32]) where the code's type does.
    A function that works on state is a run [M S A] := S -> option (A * S); [None]
    is undefined behaviour (access to a freed or missing object, outside a block,
    through NULL) or a fuel that was too small, so a theorem that gives a result
    excludes both.  [zoom] and [part] (this file) run a component on its part of
    a larger state.  A pbuf, a netif or a memory block is named by a number that
    is never used again, so aliases share one object and a dangling pointer is
    found out.  Loops have fuel where they do not follow a list: [chain_fuel]
    (the number of pbufs alive, Pbuf), [max_checks] = 16 rounds of
    sys_check_timeouts (TimeoutsFacts), [port_fuel] = 16384 ports (Udp),
    [malloc_fuel] = 2048 sections of mem_malloc (Mem: each passes one of at most
    1024 structs, first in the search, then behind lfree), [helper_fuel] = one more
    than there are structs ip_reass_helper (IpReass: a queue has one for each of its
    pbufs, [hseg_size]); all are proved to be enough.

    ** The parts

    - Packet buffers, lwip/core/pbuf.c.  Pbuf: the heap and every operation.
      PbufFacts, PbufWrite, PbufAlloc, PbufPool, PbufChain: chains, and what the
      operations do with them.  PbufRef: reference counting as a discipline
      ([counted h H]: the counts are the references [H]).  PbufOwn: a heap of the
      stack's own pbufs ([sane]), where nothing goes wrong; PbufEdit: cutting,
      copying and moving the start of such pbufs.  PbufProps: the properties.
    - The heap, lwip/core/mem.c: Mem, over the bytes of the array ram_heap, with
      mem_malloc cut where it lets interrupts in.  MemInv: the heap as a list of
      blocks ([heap_ok]), and the stores that keep it; MemOps (mem_free), MemTrim,
      MemAlloc (the sections of mem_malloc, and first fit); MemSys: mem_free,
      mem_trim and writes between the sections, [sys_ok]; MemProps.
    - Checksums, lwip/core/inet_chksum.c and def.c: InetChksum, Def,
      InetChksumProps.
    - Interfaces, lwip/core/netif.c, ip4_addr.c: Netif, NetifInv (the invariant of
      the numbers and the list), Ip4Addr, NetProps.
    - Timeouts, lwip/core/timeouts.c: Timeouts; TimeoutsFacts with the abstract
      queue of alarms and the refinement, TimeoutsProps.  SysArch:
      lwip_arch_xilinx/sys_arch.c over FreeRTOS, a parameter with laws.
    - The tcpip thread, lwip/api/tcpip.c: Tcpip.
    - The FreeRTOS driver: RpmsgFreeRTOS, RpmsgFreeRTOSProps; OpenAMP is a
      parameter.
    - Ethernet and ARP, lwip/netif/ethernet.c, core/ipv4/etharp.c: Ethernet,
      EthernetFacts, Etharp; EtharpFacts (the search), EtharpInv (the invariant of
      the cache, [arp_ok]), EtharpFrame (what ARP leaves alone), EtharpSend (the
      frames sent), EtharpLive (no operation goes wrong), EtharpProps, EtharpCache.
    - IPv4, lwip/core/ipv4/ip4.c: Ip4 (routing and output), Ip4Input; Ip4Facts
      (their runs, and the decision about a packet, [ip4_fate_of]), Ip4Header (the
      header and its checksum), Ip4Frame (what input leaves alone), Ip4Live and
      Ip4InputLive (nothing goes wrong), Ip4Props.
    - ICMP, lwip/core/ipv4/icmp.c: Icmp, IcmpLive, IcmpReply (the answer to an
      echo, byte by byte), IcmpProps.
    - Reassembly, the first half of lwip/core/ipv4/ip4_frag.c: IpReass (the
      variables, the structs ip_reassdata and ip_reass_helper and every function);
      IpReassSpec, the machine it implements: a list of datagrams, each a list of
      fragments ([reass_step]), and what comes of a datagram's fragments in any
      order; IpReassFacts (the runs of the queue's functions), IpReassRun (the
      variables and pbufs hold the datagrams, [repr], and ip4_reass is a step),
      IpReassTimer, IpReassProps.
    - UDP, lwip/core/udp.c: Udp; UdpFacts (the invariant of the pcbs, [udp_ok] and
      [exclusive], and what each call does), UdpDemux (which pcb takes a datagram,
      [takes]), UdpHeader and UdpSend (the header, with or without room in front of
      the data, and its checksum), UdpFrame, UdpLive, UdpProps.
    - The stack put together: Stack (the store and the wiring), StackLive,
      StackProps; Ping and UdpEcho: systems in which a ping is answered and a
      user echoes datagrams.
    - The Linux driver: RpmsgLinux, a transition system of single accesses to
      shared memory by all its threads; RpmsgLinuxInv, RpmsgLinuxProps; the kernel
      is a parameter.
    - Triple (reasoning about runs through a view of the state), Node (the store
      of the stack's functions) and Examples (concrete environments) serve all.

    ** Interfaces

    What one part asks of another is a class: [PbufEnv] (the allocator), [OpenAmp]
    and [Channel] (RPMsg), [LinkLayer] (the driver below Ethernet), [IpLayer] (IP
    above Ethernet), [NetifDeps] (what netif.c calls), [TimerEnv] (clock and
    handlers), [FreeRTOS], [TcpipEnv], [IpFragments] and [Transport] (what IP calls:
    ip4_frag.c, UDP and TCP), [UdpUser] (the receive functions), [Addresses] (where
    a block is), [RamHeap] (where the linker put ram_heap), [Above] (what the whole
    stack asks for: fragments, TCP and the functions of users); and its laws: [QuietLink], [FrameLink], [LiveLink]
    and [LiveIp] (of the link and of IP, for Ethernet and ARP), [LiveFragments] and
    [LiveTransport] (for IP), [LiveUser] (for UDP), [Upper] and [Held] (the pbufs
    the layers above hold, and what they keep in order), [IpApart] and [UdpApart]
    (variables that are not theirs), [TimerLaws], [FreeRTOSLaws],
    [UptimeLaws], [AboveLaws].  A part's theorems are proved against the laws of
    its neighbours; Ip4InputLive proves those of IP, StackLive those of UDP, of the
    driver and of the timers.  The laws that stay are those of code that is not
    here: FreeRTOS, OpenAMP, fragments, TCP and users' functions.

    ** What the theorems show

    - The Linux driver (RpmsgLinuxProps), under every interleaving: the one access
      to freed memory it can make, that a stopped queue is always restarted, who
      owns a packet, the packet slot; the handlers on their own; the leak on
      reopening.
    - pbuf.c (PbufProps): a client that keeps to the rules of references never
      fails and leaks nothing; allocation from the pool is all or nothing; copying
      in and out, headers, concatenation, truncation, cloning, searching.
    - The heap (MemProps): mem_malloc, interrupted by frees and trims, stays inside
      ram_heap, hands out blocks that are apart, comes to its end, and loses
      nothing; the bytes refine a list of blocks with first fit; what mem_free
      refuses; mem_calloc's test for overflow has no effect.
    - Checksums (InetChksumProps): all versions compute the Internet checksum,
      over any split into pbufs; an inserted checksum verifies.
    - Interfaces and addresses (NetProps).
    - Timeouts (TimeoutsProps): the list refines a queue with unbounded times,
      what is due is called and the cyclic timers do not drift; but sys_now of the
      port jumps back after 2^32 / 1000 ticks.
    - ARP (EtharpProps, EtharpCache): no sequence of operations fails or loses a
      packet, entries expire, lookups recycle what costs least, addresses are
      learned, requests answered, packets sent to the right next hop.
    - IP (Ip4Props): which datagrams are delivered, to which protocol and with
      which data, and that all others are freed; the header of what is sent and its
      checksum; the route.  ICMP (IcmpProps): which echo requests are answered, and
      the bytes of the answer.
    - Reassembly (IpReassProps): ip4_reass is a step of the machine on lists of
      datagrams while there is room; the fragments of a datagram in any order give
      it back, with a header that verifies; the timer frees what is too old.  The
      datagram is taken to fit 65535 bytes with its header: for fragments behind the
      last one the code does not see to that ([beyond_the_last]).
    - UDP (UdpProps): what udp_bind refuses, that every call returns and the pcbs
      stay apart, which pcb gets a datagram, the bytes of what is sent.
    - The FreeRTOS driver (RpmsgFreeRTOSProps): frames arrive whole or are dropped
      without a trace, what is sent, what is set up.
    - The stack (StackProps): messages, sends, calls of udp.c, callbacks and the
      thread's turns in any order never fail, and every pbuf, message and pool
      element is accounted for.

    ** What is taken as atomic

    The tcpip thread holds the core lock while it works, and so does every other
    caller of the stack, so a turn of the thread and a call are single steps of
    StackProps; the driver's receive callback runs between them.  The Linux driver
    has no such lock: there a step is one access.  mem_malloc holds mem_mutex, so one
    runs at a time; what it does between two SYS_ARCH_UNPROTECT, and a mem_free or a
    mem_trim of a block by its owner, is one step of MemSys.

    ** Not modelled

    TCP and what is above it (parameters here); ip4_frag, whose custom pbufs are freed
    through a function that pbuf_free calls and that calls pbuf_free, a parameter of
    Pbuf; reassembly inside the whole stack, which has the interface [IpFragments]
    there (the laws [LiveFragments] ask for datagrams that fit); what ip4_reass does
    when it has to evict a datagram, and the ICMP message for one whose first fragment
    is there, are defined but nothing is proved about them; the statistics counters; the pools of memp.c (for pbuf.c whether memory is found,
    in a pool or on the heap, is a parameter); semaphores, mutexes and the creation
    of threads in sys_arch.c; what the configuration leaves out (IPv6, IGMP, DHCP,
    AutoIP, PPP, 6LoWPAN, SLIP); the applications shipped with lwIP; the Xilinx
    Ethernet drivers this link replaces. *)
From Stdlib Require Export ZArith Lia.
From stdpp Require Export prelude list_numbers gmap.
#[global] Open Scope Z_scope.

(** ** Machine integers

    Unsigned C integers of width [w] are values of type [Z]; an assignment to
    such a variable wraps modulo [2^w]. *)
Definition u8 (z : Z) : Z := z mod 256.
Definition u16 (z : Z) : Z := z mod 65536.
Definition u32 (z : Z) : Z := z mod 4294967296.
Arguments u8 : simpl never.
Arguments u16 : simpl never.
Arguments u32 : simpl never.

(** [ulia]: linear arithmetic through the wrap-arounds. *)
Ltac ulia :=
  unfold u8, u16, u32 in *; Z.to_euclidean_division_equations; lia.

Lemma u8_bound z : 0 <= u8 z < 256.
Proof. ulia. Qed.
Lemma u16_bound z : 0 <= u16 z < 65536.
Proof. ulia. Qed.
Lemma u32_bound z : 0 <= u32 z < 4294967296.
Proof. ulia. Qed.
Lemma u8_small z : 0 <= z < 256 -> u8 z = z.
Proof. apply Z.mod_small. Qed.
Lemma u16_small z : 0 <= z < 65536 -> u16 z = z.
Proof. apply Z.mod_small. Qed.
Lemma u32_small z : 0 <= z < 4294967296 -> u32 z = z.
Proof. apply Z.mod_small. Qed.

(** ** Bits *)

Lemma land_ones_mod a n : 0 <= n -> Z.land a (Z.ones n) = a mod 2 ^ n.
Proof. apply Z.land_ones. Qed.
Lemma land_0xff a : Z.land a 0xff = a mod 256.
Proof. exact (Z.land_ones a 8 ltac:(lia)). Qed.
Lemma land_0xffff a : Z.land a 0xffff = a mod 65536.
Proof. exact (Z.land_ones a 16 ltac:(lia)). Qed.

(** Disjoint bit fields: or is addition. *)
Lemma lor_shiftl_add a b n :
  0 <= n -> 0 <= b < 2 ^ n -> Z.lor (Z.shiftl a n) b = a * 2 ^ n + b.
Proof.
  intros Hn Hb. rewrite <- Z.shiftl_mul_pow2 by done.
  assert (Z.land (Z.shiftl a n) b = 0) as Hd.
  { apply Z.bits_inj'. intros k Hk. rewrite Z.land_spec, Z.bits_0.
    destruct (Z.lt_ge_cases k n).
    - by rewrite Z.shiftl_spec_low.
    - apply andb_false_iff. right. rewrite <- (Z.mod_small b (2 ^ n)) by done.
      by apply Z.mod_pow2_bits_high. }
  rewrite Z.add_nocarry_lxor by done. symmetry. by apply Z.lxor_lor.
Qed.

(** [bool_to_Z b] is C's 0/1 result of a comparison. *)
Definition bool_to_Z (b : bool) : Z := if b then 1 else 0.

(** Turn the boolean tests of the code into propositions, and split on the
    test the goal is stuck on. *)
Ltac b2p :=
  repeat match goal with
  | H : (_ && _) = true |- _ => apply andb_true_iff in H as [? ?]
  | H : (_ || _) = false |- _ => apply orb_false_iff in H as [? ?]
  | H : negb _ = true |- _ => apply negb_true_iff in H
  | H : negb _ = false |- _ => apply negb_false_iff in H
  | H : (_ =? _) = true |- _ => apply Z.eqb_eq in H
  | H : (_ =? _) = false |- _ => apply Z.eqb_neq in H
  | H : (_ <? _) = true |- _ => apply Z.ltb_lt in H
  | H : (_ <? _) = false |- _ => apply Z.ltb_ge in H
  | H : (_ <=? _) = true |- _ => apply Z.leb_le in H
  | H : (_ <=? _) = false |- _ => apply Z.leb_gt in H
  end.

Ltac case_if :=
  match goal with
  | |- context [if ?b then _ else _] =>
      lazymatch type of b with
      | bool => let E := fresh "E" in destruct b eqn:E; b2p
      end
  end.

Create HintDb lwip.
#[export] Hint Resolve u8_bound u16_bound u32_bound : lwip.

Lemma Forall_one {A} (P : A -> Prop) x : Forall P [x] -> P x.
Proof. by inversion 1. Qed.

(** ** Bytes and memory words

    Memory is a list of bytes, each a [Z] in [0, 256).  The target is
    little-endian (cpu.h, BYTE_ORDER). *)
Definition is_byte (b : Z) : Prop := 0 <= b < 256.
Definition bytes_ok (l : list Z) : Prop := Forall is_byte l.

(** [l[i]] of a byte list, 0 out of range; every use is guarded by a bounds
    check of the model's memory accesses. *)
Definition byte_at (l : list Z) (i : Z) : Z := nth (Z.to_nat i) l 0.

(** The u16_t and u32_t loaded from memory by the little-endian CPU. *)
Definition ld16 (l : list Z) (i : Z) : Z := byte_at l i + 256 * byte_at l (i + 1).
Definition ld32 (l : list Z) (i : Z) : Z := ld16 l i + 65536 * ld16 l (i + 2).
(** The bytes a store of a u16_t or u32_t writes. *)
Definition st16 (v : Z) : list Z := [v mod 256; (v / 256) mod 256].
Definition st32 (v : Z) : list Z := st16 (v mod 65536) ++ st16 (v / 65536).

(** A word is read back as it was written. *)
Lemma word_bytes v : 0 <= v < 4294967296 -> ld32 (st32 v) 0 = v.
Proof. intros Hv. unfold ld32, ld16, byte_at, st32, st16. simpl. ulia. Qed.

(** Overwrite [l] from index [i] with [bs] (memcpy into a buffer). *)
Definition overwrite (l : list Z) (i : Z) (bs : list Z) : list Z :=
  take (Z.to_nat i) l ++ bs ++ drop (Z.to_nat i + length bs) l.

(** The [n] bytes of [l] from index [i]. *)
Definition slice (l : list Z) (i n : Z) : list Z :=
  take (Z.to_nat n) (drop (Z.to_nat i) l).

Notation lenZ l := (Z.of_nat (length l)).

Lemma byte_at_lookup l i x : l !! Z.to_nat i = Some x -> byte_at l i = x.
Proof. apply nth_lookup_Some. Qed.

Lemma byte_at_ok l i : bytes_ok l -> is_byte (byte_at l i).
Proof.
  intros H. unfold byte_at.
  destruct (l !! Z.to_nat i) as [x|] eqn:E.
  - rewrite (nth_lookup_Some _ _ _ _ E). by eapply Forall_lookup_1 in H.
  - rewrite nth_overflow by by apply lookup_ge_None. done.
Qed.

Lemma ld16_bound l i : bytes_ok l -> 0 <= ld16 l i < 65536.
Proof.
  intros H. pose proof (byte_at_ok l i H). pose proof (byte_at_ok l (i + 1) H).
  unfold is_byte, ld16 in *. lia.
Qed.

Lemma bytes_ok_app l k : bytes_ok (l ++ k) <-> bytes_ok l /\ bytes_ok k.
Proof. apply Forall_app. Qed.
Lemma bytes_ok_take l n : bytes_ok l -> bytes_ok (take n l).
Proof. apply Forall_take. Qed.
Lemma bytes_ok_drop l n : bytes_ok l -> bytes_ok (drop n l).
Proof. apply Forall_drop. Qed.
Lemma bytes_ok_slice l i n : bytes_ok l -> bytes_ok (slice l i n).
Proof. intros. by apply bytes_ok_take, bytes_ok_drop. Qed.
Lemma bytes_ok_overwrite l i bs :
  bytes_ok l -> bytes_ok bs -> bytes_ok (overwrite l i bs).
Proof.
  intros. unfold overwrite. rewrite !bytes_ok_app.
  auto using bytes_ok_take, bytes_ok_drop.
Qed.
#[export] Hint Resolve bytes_ok_slice bytes_ok_overwrite bytes_ok_take
  bytes_ok_drop byte_at_ok ld16_bound : lwip.

Lemma length_slice l i n :
  0 <= i -> 0 <= n -> i + n <= lenZ l -> lenZ (slice l i n) = n.
Proof. intros. unfold slice. rewrite length_take, length_drop. lia. Qed.

Lemma length_overwrite l i bs :
  0 <= i -> i + lenZ bs <= lenZ l -> length (overwrite l i bs) = length l.
Proof.
  intros. unfold overwrite. rewrite !length_app, length_take, length_drop. lia.
Qed.

Lemma slice_0_0 l i : slice l i 0 = [].
Proof. done. Qed.

Lemma slice_overwrite l i bs :
  0 <= i -> i + lenZ bs <= lenZ l -> slice (overwrite l i bs) i (lenZ bs) = bs.
Proof.
  intros. unfold slice, overwrite.
  rewrite Nat2Z.id, drop_app_length', take_app_length; [done|].
  rewrite length_take. lia.
Qed.

Lemma slice_full l n : lenZ l = n -> slice l 0 n = l.
Proof. intros <-. unfold slice. by rewrite Nat2Z.id, drop_0, firstn_all. Qed.

(** A slice is the concatenation of two adjacent ones. *)
Lemma slice_app l i n m :
  0 <= i -> 0 <= n -> 0 <= m -> i + n + m <= lenZ l ->
  slice l i (n + m) = slice l i n ++ slice l (i + n) m.
Proof.
  intros. unfold slice.
  rewrite !Z2Nat.inj_add by lia. rewrite <- drop_drop.
  rewrite <- (take_drop (Z.to_nat n) (drop (Z.to_nat i) l)) at 1.
  rewrite take_app, take_take, length_take, length_drop.
  rewrite (Nat.min_r (Z.to_nat n + Z.to_nat m)) by lia.
  do 2 f_equal; lia.
Qed.

(** Writing outside a slice leaves it alone. *)
Lemma slice_overwrite_before l i bs j n :
  0 <= j -> 0 <= n -> j + n <= i -> i + lenZ bs <= lenZ l ->
  slice (overwrite l i bs) j n = slice l j n.
Proof.
  intros. unfold slice, overwrite.
  rewrite drop_app_le by (rewrite length_take; lia).
  rewrite take_app_le by (rewrite length_drop, length_take; lia).
  rewrite skipn_firstn_comm, take_take. f_equal. lia.
Qed.

Lemma slice_overwrite_after l i bs j n :
  0 <= i -> 0 <= n -> i + lenZ bs <= j -> j + n <= lenZ l ->
  slice (overwrite l i bs) j n = slice l j n.
Proof.
  intros. unfold slice, overwrite.
  rewrite drop_app_ge by (rewrite length_take; lia).
  rewrite drop_app_ge by (rewrite !length_take; lia).
  rewrite drop_drop. do 2 f_equal. rewrite length_take. lia.
Qed.

(** A slice of a slice. *)
Lemma slice_slice l i n j m :
  0 <= i -> 0 <= j -> 0 <= m -> j + m <= n ->
  slice (slice l i n) j m = slice l (i + j) m.
Proof.
  intros. unfold slice. rewrite skipn_firstn_comm, drop_drop, take_take.
  f_equal; [lia|]. f_equal. lia.
Qed.

(** Slices of a concatenation. *)
Lemma slice_app_r a b i n :
  lenZ a <= i -> slice (a ++ b) i n = slice b (i - lenZ a) n.
Proof.
  intros. unfold slice. rewrite drop_app_ge by lia. do 2 f_equal. lia.
Qed.

Lemma slice_app_split a b i n :
  0 <= i <= lenZ a -> 0 <= n ->
  slice (a ++ b) i n =
    slice a i (Z.min n (lenZ a - i)) ++ slice b 0 (n - Z.min n (lenZ a - i)).
Proof.
  intros. unfold slice. rewrite drop_app_le by lia. rewrite drop_0.
  destruct (Z.min_spec n (lenZ a - i)) as [[? ->]|[? ->]].
  - rewrite take_app_le by (rewrite length_drop; lia).
    rewrite Z.sub_diag, take_0. by rewrite app_nil_r.
  - rewrite take_app_ge by (rewrite length_drop; lia). f_equal.
    + rewrite take_ge; [done|]. rewrite length_drop. lia.
    + f_equal. rewrite length_drop. lia.
Qed.

Lemma slice_nil i n : slice [] i n = [].
Proof. unfold slice. by rewrite drop_nil, take_nil. Qed.

Lemma slice_ge l i n : lenZ l <= i -> slice l i n = [].
Proof. intros. unfold slice. rewrite drop_ge by lia. by rewrite take_nil. Qed.

Lemma slice_1 l i x : 0 <= i -> l !! Z.to_nat i = Some x -> slice l i 1 = [x].
Proof.
  intros ? H. unfold slice. erewrite drop_S by done. done.
Qed.

Lemma lookup_slice l i n k :
  0 <= i -> 0 <= k < n -> slice l i n !! Z.to_nat k = l !! Z.to_nat (i + k).
Proof.
  intros. unfold slice. rewrite lookup_take_lt by lia. rewrite lookup_drop.
  f_equal. lia.
Qed.

Lemma lookup_lenZ (l : list Z) i :
  0 <= i < lenZ l -> l !! Z.to_nat i = Some (byte_at l i).
Proof.
  intros. destruct (lookup_lt_is_Some_2 l (Z.to_nat i)) as [x Hx]; [lia|].
  by rewrite Hx, (byte_at_lookup _ _ _ Hx).
Qed.

(** Overwriting a concatenation. *)
Lemma overwrite_nil l i : overwrite l i [] = l.
Proof. unfold overwrite. rewrite Nat.add_0_r. apply take_drop. Qed.

Lemma overwrite_app_l a b i v :
  0 <= i -> i + lenZ v <= lenZ a -> overwrite (a ++ b) i v = overwrite a i v ++ b.
Proof.
  intros. unfold overwrite. rewrite take_app_le, drop_app_le by lia.
  by rewrite !app_assoc.
Qed.

Lemma overwrite_app_r a b i v :
  lenZ a <= i -> overwrite (a ++ b) i v = a ++ overwrite b (i - lenZ a) v.
Proof.
  intros. unfold overwrite. rewrite take_app_ge, drop_app_ge by lia.
  rewrite <- app_assoc. f_equal. f_equal; [f_equal; lia|]. f_equal. f_equal. lia.
Qed.

(** A write that runs over the first part continues at the start of the
    second. *)
Lemma overwrite_app_split a b i v w :
  0 <= i -> i + lenZ v = lenZ a ->
  overwrite (a ++ b) i (v ++ w) = overwrite a i v ++ overwrite b 0 w.
Proof.
  intros. unfold overwrite. rewrite take_app_le by lia. rewrite take_0. simpl.
  rewrite drop_app_ge by (rewrite length_app; lia).
  rewrite (drop_ge a) by lia. rewrite app_nil_r, <- !app_assoc.
  do 3 f_equal. f_equal. rewrite length_app. lia.
Qed.

Lemma overwrite_overwrite l i v w :
  0 <= i -> i + lenZ v + lenZ w <= lenZ l ->
  overwrite (overwrite l i v) (i + lenZ v) w = overwrite l i (v ++ w).
Proof.
  intros. unfold overwrite.
  assert (length (take (Z.to_nat i) l) = Z.to_nat i) as Ht by (rewrite length_take; lia).
  rewrite take_app_ge by lia. rewrite take_app_le by lia. rewrite (take_ge v) by lia.
  rewrite drop_app_ge by lia. rewrite drop_app_ge by lia.
  rewrite drop_drop, <- !app_assoc. do 3 f_equal. f_equal.
  rewrite length_app. lia.
Qed.

Lemma drop_slice l i n : 0 <= i -> 0 <= n -> drop (Z.to_nat i) l = slice l i n ++ drop (Z.to_nat (i + n)) l.
Proof.
  intros. unfold slice. rewrite Z2Nat.inj_add, <- drop_drop by lia.
  by rewrite take_drop.
Qed.

Lemma overwrite_single l i v :
  0 <= i < lenZ l -> overwrite l i [v] = <[Z.to_nat i := v]> l.
Proof.
  intros. unfold overwrite. simpl. rewrite insert_take_drop by lia.
  do 2 f_equal. f_equal. lia.
Qed.

(** ** Stateful C code

    A C function that reads and writes a store of type [S] and returns a value
    of type [A].  [None] is a run with no defined behaviour: a NULL or dangling
    pointer dereferenced, an access outside an object, or a loop that has not
    ended within the bound given for it. *)
Definition M (S A : Type) : Type := S -> option (A * S).

#[export] Instance M_ret S : MRet (M S) := fun A a s => Some (a, s).
#[export] Instance M_bind S : MBind (M S) := fun A B f m s =>
  match m s with Some (a, s') => f a s' | None => None end.

Definition stuck {S A} : M S A := fun _ => None.
Definition get {S} : M S S := fun s => Some (s, s).
Definition put {S} (s : S) : M S unit := fun _ => Some (tt, s).
Definition gets {S A} (f : S -> A) : M S A := fun s => Some (f s, s).
Definition modify {S} (f : S -> S) : M S unit := fun s => Some (tt, f s).
Definition lift {S A} (o : option A) : M S A := fun s =>
  match o with Some a => Some (a, s) | None => None end.

Lemma bind_run {S A B} (m : M S A) (f : A -> M S B) s a s' :
  m s = Some (a, s') -> (m ≫= f) s = f a s'.
Proof. intros H. unfold mbind, M_bind. by rewrite H. Qed.

Lemma bind_Some {S A B} (m : M S A) (f : A -> M S B) s b s2 :
  (m ≫= f) s = Some (b, s2) <->
  exists a s1, m s = Some (a, s1) /\ f a s1 = Some (b, s2).
Proof.
  unfold mbind, M_bind. split.
  - destruct (m s) as [[a s1]|]; [eauto|done].
  - intros (a & s1 & -> & H). done.
Qed.

Lemma bind_assoc {S A B C} (m : M S A) (f : A -> M S B) (g : B -> M S C) s :
  ((m ≫= f) ≫= g) s = (m ≫= (fun a => f a ≫= g)) s.
Proof. unfold mbind, M_bind. by destruct (m s) as [[a s1]|]. Qed.

Lemma bind_get {S A} (f : S -> M S A) s : (get ≫= f) s = f s s.
Proof. done. Qed.
Lemma bind_ret {S A B} (a : A) (f : A -> M S B) s : (mret a ≫= f) s = f a s.
Proof. done. Qed.

(** [part S P]: the store [S] has a component [P]; the component's functions
    run on the whole store through [zoom]. *)
Class part (S P : Type) := {
  get_part : S -> P;
  set_part : P -> S -> S;
  get_set_part p s : get_part (set_part p s) = p;
  set_get_part s : set_part (get_part s) s = s;
}.

Definition zoom {S P A} `{part S P} (m : M P A) : M S A := fun s =>
  match m (get_part s) with
  | Some (a, p) => Some (a, set_part p s)
  | None => None
  end.

Lemma zoom_run {S P A} `{part S P} (m : M P A) s a p :
  m (get_part s) = Some (a, p) -> zoom m s = Some (a, set_part p s).
Proof. intros E. unfold zoom. by rewrite E. Qed.

(** Evaluate the leading statement of a run in the goal with a known fact. *)
Ltac mrun H := rewrite (bind_run _ _ _ _ _ H); cbv beta iota.
Ltac minv H :=
  repeat match type of H with
  | (_ ≫= _) _ = Some _ =>
      let a := fresh "a" in let s := fresh "s" in let E := fresh "E" in
      apply bind_Some in H as (a & s & E & H)
  end.

(** ** Error codes (err.h) *)
Inductive err_t :=
  | ERR_OK | ERR_MEM | ERR_BUF | ERR_TIMEOUT | ERR_RTE | ERR_INPROGRESS | ERR_VAL
  | ERR_WOULDBLOCK | ERR_USE | ERR_ALREADY | ERR_ISCONN | ERR_CONN | ERR_IF
  | ERR_ABRT | ERR_RST | ERR_CLSD | ERR_ARG.
#[export] Instance err_t_eq_dec : EqDecision err_t.
Proof. solve_decision. Defined.
