(* ===== verification/Triple.v ===== *)
(** * Reasoning about runs through a view of the state

    [triple v P m Q]: from a state whose view satisfies [P], a run of [m] that
    ends with the result [r] ends in a state whose view satisfies [Q r].
    [quiet v m]: no run of [m] changes the view. *)
From S2P Require Import Prelude.

Section Triples.
Context {S V : Type} (v : S -> V).

Definition triple {A} (P : V -> Prop) (m : M S A) (Q : A -> V -> Prop) : Prop :=
  forall s r s', P (v s) -> m s = Some (r, s') -> Q r (v s').
Definition quiet {A} (m : M S A) : Prop := forall s r s', m s = Some (r, s') -> v s' = v s.

Lemma quiet_ret {A} (a : A) : quiet (mret a).
Proof. intros s r s' [= <- <-]. done. Qed.
Lemma quiet_stuck {A} : quiet (stuck : M S A).
Proof. done. Qed.
Lemma quiet_get : quiet get.
Proof. intros s r s' [= <- <-]. done. Qed.
Lemma quiet_lift {A} (o : option A) : quiet (lift o).
Proof. intros s r s'. destruct o; [|done]. by intros [= <- <-]. Qed.
Lemma quiet_bind {A B} (m : M S A) (f : A -> M S B) :
  quiet m -> (forall a, quiet (f a)) -> quiet (m ≫= f).
Proof. intros Hm Hf s r s' (a & s1 & H1 & H2)%bind_Some. rewrite (Hf _ _ _ _ H2). by eapply Hm. Qed.

Lemma triple_ret {A} (a : A) (Q : A -> V -> Prop) : triple (Q a) (mret a) Q.
Proof. intros s r s' HP [= <- <-]. done. Qed.
Lemma triple_ret_eq {A} (a : A) a0 (Q : A -> V -> Prop) : Q a a0 -> triple (eq a0) (mret a) Q.
Proof. intros HQ s r s' -> [= <- <-]. done. Qed.
Lemma triple_bind {A B} P R Q (m : M S A) (f : A -> M S B) :
  triple P m R -> (forall a, triple (R a) (f a) Q) -> triple P (m ≫= f) Q.
Proof. intros Hm Hf s r s' HP (a & s1 & H1 & H2)%bind_Some. eapply Hf; [|done]. by eapply Hm. Qed.
Lemma triple_conseq {A} (P P' : V -> Prop) (Q Q' : A -> V -> Prop) m :
  triple P' m Q' -> (forall a, P a -> P' a) -> (forall r a, Q' r a -> Q r a) -> triple P m Q.
Proof. intros Hm HP HQ s r s' Hs Hr. eapply HQ, Hm; [by apply HP|done]. Qed.
Lemma triple_pure {A} (P : V -> Prop) (Q : A -> V -> Prop) m :
  (forall a0, P a0 -> triple (eq a0) m Q) -> triple P m Q.
Proof. intros H s r s' Hs Hr. by eapply (H _ Hs). Qed.
Lemma triple_quiet {A} P (m : M S A) : quiet m -> triple P m (fun _ => P).
Proof. intros Hq s r s' HP Hr. by rewrite (Hq _ _ _ Hr). Qed.
Lemma triple_quiet_eq {A} (P : V -> Prop) a0 (m : M S A) :
  quiet m -> P a0 -> triple (eq a0) m (fun _ => P).
Proof. intros Hq HP s r s' -> Hr. by rewrite (Hq _ _ _ Hr). Qed.
Lemma triple_quiet_bind {A B} P Q (m : M S A) (f : A -> M S B) :
  quiet m -> (forall a, triple P (f a) Q) -> triple P (m ≫= f) Q.
Proof. intros Hq Hf. eapply triple_bind; [by apply triple_quiet|done]. Qed.
Lemma triple_quiet_fact {A B} (F : A -> Prop) P Q (m : M S A) (f : A -> M S B) :
  quiet m -> (forall s a s', m s = Some (a, s') -> F a) -> (forall a, F a -> triple P (f a) Q) ->
  triple P (m ≫= f) Q.
Proof.
  intros Hq HF Hf s r s' HP (a & s1 & H1 & H2)%bind_Some. eapply (Hf a); [by eapply HF| |exact H2].
  by rewrite (Hq _ _ _ H1).
Qed.

(** Total correctness: the run ends. *)
Definition total {A} (P : V -> Prop) (m : M S A) (Q : A -> V -> Prop) : Prop :=
  forall s, P (v s) -> exists r s', m s = Some (r, s') /\ Q r (v s').

Lemma total_ret {A} (a : A) (P : V -> Prop) (Q : A -> V -> Prop) :
  (forall x, P x -> Q a x) -> total P (mret a) Q.
Proof. intros HQ s HP. exists a, s. split; [done|by apply HQ]. Qed.
Lemma total_bind {A B} P R Q (m : M S A) (f : A -> M S B) :
  total P m R -> (forall a, total (R a) (f a) Q) -> total P (m ≫= f) Q.
Proof.
  intros Hm Hf s HP. destruct (Hm s HP) as (a & s1 & Hr1 & H1). destruct (Hf a s1 H1) as (r & s' & Hr & HQ).
  exists r, s'. split; [|done]. by rewrite (bind_run _ _ _ _ _ Hr1).
Qed.
Lemma total_conseq {A} (P P' : V -> Prop) (Q Q' : A -> V -> Prop) m :
  total P' m Q' -> (forall a, P a -> P' a) -> (forall r a, Q' r a -> Q r a) -> total P m Q.
Proof.
  intros Hm HP HQ s Hs. destruct (Hm s (HP _ Hs)) as (r & s' & Hr & H). exists r, s'. split; [done|by apply HQ].
Qed.
Lemma total_pure {A} (P : V -> Prop) (Q : A -> V -> Prop) m :
  (forall a0, P a0 -> total (eq a0) m Q) -> total P m Q.
Proof. intros H s Hs. by eapply (H _ Hs). Qed.
Lemma total_fact {A} (F : Prop) (P : V -> Prop) (Q : A -> V -> Prop) m :
  (F -> total P m Q) -> total (fun a => F /\ P a) m Q.
Proof. intros H s [HF HP]. by apply H. Qed.
(** A step with a known result. *)
Lemma total_step {A B} (F : A -> Prop) P R Q (m : M S A) (f : A -> M S B) :
  total P m (fun r a => F r /\ R a) -> (forall r, F r -> total R (f r) Q) -> total P (m ≫= f) Q.
Proof. intros Hm Hf. eapply total_bind; [exact Hm|]. intros r. apply total_fact, Hf. Qed.
Lemma total_skip {A B} P R Q (m : M S A) (f : A -> M S B) :
  total P m (fun _ => R) -> (forall r, total R (f r) Q) -> total P (m ≫= f) Q.
Proof. apply total_bind. Qed.
Lemma total_pre {A} (P P' : V -> Prop) (Q : A -> V -> Prop) m :
  total P' m Q -> (forall a, P a -> P' a) -> total P m Q.
Proof. intros Hm HP. by eapply total_conseq. Qed.
Lemma total_post {A} P (Q Q' : A -> V -> Prop) m :
  total P m Q' -> (forall r a, Q' r a -> Q r a) -> total P m Q.
Proof. intros Hm HQ. by eapply total_conseq. Qed.

End Triples.

Create HintDb quiet.
#[export] Hint Resolve quiet_ret quiet_stuck quiet_get quiet_lift : quiet.

(** Quiet runs, through their binds and tests. *)
Ltac quiet_tac :=
  repeat first
    [ solve [eauto with quiet]
    | apply quiet_bind; intros
    | match goal with |- quiet _ (match ?x with _ => _ end) => destruct x end ].

(** Runs on a part of the state, seen through that part. *)
Section Parts.
Context {S P : Type} `{part S P}.

Lemma zoom_inv {A} (m : M P A) s r s' :
  zoom m s = Some (r, s') -> exists p, m (get_part s) = Some (r, p) /\ s' = set_part p s.
Proof. unfold zoom. destruct (m _) as [[a p]|]; [|done]. intros [= <- <-]. by exists p. Qed.

Lemma triple_zoom {A} (m : M P A) (Pre : P -> Prop) Q :
  (forall p r p', Pre p -> m p = Some (r, p') -> Q r p') -> triple (get_part (S := S)) Pre (zoom m) Q.
Proof. intros Hm s r s' HP (p & Hr & ->)%zoom_inv. rewrite get_set_part. by eapply Hm. Qed.

Lemma total_zoom {A} (m : M P A) (Pre : P -> Prop) Q :
  (forall p, Pre p -> exists r p', m p = Some (r, p') /\ Q r p') -> total (get_part (S := S)) Pre (zoom m) Q.
Proof.
  intros Hm s HP. destruct (Hm _ HP) as (r & p' & Hr & HQ). exists r, (set_part p' s).
  split; [by apply zoom_run|by rewrite get_set_part].
Qed.

Lemma triple_zoom_get {B} p0 (f : P -> M S B) Q :
  triple get_part (eq p0) (f p0) Q -> triple get_part (eq p0) (zoom get ≫= f) Q.
Proof.
  intros Hf. eapply triple_bind with (R := fun r p => r = p0 /\ p = p0).
  - apply triple_zoom. intros p r p' <- [= <- <-]. done.
  - intros r s x s' [-> HP] Hr. by eapply Hf.
Qed.
End Parts.
