(* ===== verification/Def.v ===== *)
(** * Byte order and string helpers: core/def.c and the macros of def.h *)
From S2P Require Import Prelude.

(** ** Byte order (little-endian target) *)

Definition PP_HTONS (x : Z) : Z :=
  u16 (Z.lor (Z.shiftl (Z.land x 0x00ff) 8) (Z.shiftr (Z.land x 0xff00) 8)).
Definition PP_HTONL (x : Z) : Z :=
  u32 (Z.lor (Z.lor (Z.lor (Z.shiftl (Z.land x 0x000000ff) 24) (Z.shiftl (Z.land x 0x0000ff00) 8))
    (Z.shiftr (Z.land x 0x00ff0000) 8)) (Z.shiftr (Z.land x 0xff000000) 24)).

Definition lwip_htons (n : Z) : Z := PP_HTONS n.
Definition lwip_htonl (n : Z) : Z := PP_HTONL n.

(** A field of the bits [lo, hi) of [x]. *)
Lemma land_field x lo w :
  0 <= lo -> 0 <= w -> Z.land x (Z.shiftl (Z.ones w) lo) = ((x / 2 ^ lo) mod 2 ^ w) * 2 ^ lo.
Proof.
  intros Hlo Hw. rewrite <- Z.shiftl_mul_pow2, <- Z.land_ones, <- Z.shiftr_div_pow2 by done.
  apply Z.bits_inj'. intros k Hk. rewrite Z.land_spec.
  destruct (Z.lt_ge_cases k lo).
  - by rewrite !Z.shiftl_spec_low, andb_false_r.
  - rewrite !Z.shiftl_spec, Z.land_spec, Z.shiftr_spec by lia. do 2 f_equal. lia.
Qed.

Lemma lwip_htons_eq n : 0 <= n < 65536 -> lwip_htons n = (n mod 256) * 256 + n / 256.
Proof.
  intros Hn. unfold lwip_htons, PP_HTONS. rewrite land_0xff.
  change 0xff00 with (Z.shiftl (Z.ones 8) 8). rewrite land_field by lia.
  rewrite Z.shiftr_div_pow2, Z.div_mul by lia.
  change (2 ^ 8) with 256.
  pose proof (Z.mod_pos_bound (n / 256) 256 ltac:(lia)).
  rewrite lor_shiftl_add by (change (2 ^ 8) with 256; lia). change (2 ^ 8) with 256.
  rewrite (Z.mod_small (n / 256)) by ulia.
  rewrite u16_small; ulia.
Qed.

Lemma st16_htons ty : 0 <= ty < 65536 -> st16 (lwip_htons ty) = [ty / 256; ty mod 256].
Proof.
  intros. rewrite lwip_htons_eq by lia. unfold st16. f_equal; [|f_equal]; ulia.
Qed.

Lemma lwip_htons_bound n : 0 <= lwip_htons n < 65536.
Proof. apply u16_bound. Qed.

Lemma lwip_htons_involutive n : 0 <= n < 65536 -> lwip_htons (lwip_htons n) = n.
Proof.
  intros Hn. rewrite (lwip_htons_eq (lwip_htons n)) by apply lwip_htons_bound.
  rewrite lwip_htons_eq by done. ulia.
Qed.

Lemma lwip_htonl_eq n :
  0 <= n < 4294967296 ->
  lwip_htonl n = (n mod 256) * 16777216 + ((n / 256) mod 256) * 65536
               + ((n / 65536) mod 256) * 256 + n / 16777216.
Proof.
  intros Hn. unfold lwip_htonl, PP_HTONL.
  change 0x000000ff with (Z.shiftl (Z.ones 8) 0). change 0x0000ff00 with (Z.shiftl (Z.ones 8) 8).
  change 0x00ff0000 with (Z.shiftl (Z.ones 8) 16). change 0xff000000 with (Z.shiftl (Z.ones 8) 24).
  rewrite !land_field by lia.
  change (2 ^ 0) with 1. change (2 ^ 8) with 256. change (2 ^ 16) with 65536. change (2 ^ 24) with 16777216.
  rewrite Z.div_1_r, Z.mul_1_r.
  set (a := n mod 256). set (b := (n / 256) mod 256). set (c := (n / 65536) mod 256).
  assert ((n / 16777216) mod 256 = n / 16777216) as ->
    by (apply Z.mod_small; Z.to_euclidean_division_equations; lia).
  set (d := n / 16777216).
  assert (0 <= a < 256 /\ 0 <= b < 256 /\ 0 <= c < 256 /\ 0 <= d < 256) as (? & ? & ? & ?).
  { unfold a, b, c, d. Z.to_euclidean_division_equations; lia. }
  rewrite (Z.shiftr_div_pow2 (c * _)), (Z.shiftr_div_pow2 (d * _)) by lia.
  change (2 ^ 8) with 256. change (2 ^ 24) with 16777216.
  rewrite Z.div_mul by lia.
  replace (c * 65536 / 256) with (c * 256) by (Z.to_euclidean_division_equations; lia).
  rewrite (Z.shiftl_mul_pow2 (b * 256)) by lia. change (2 ^ 8) with 256.
  rewrite (lor_shiftl_add a (b * 256 * 256)) by (change (2 ^ 24) with 16777216; lia).
  change (2 ^ 24) with 16777216.
  replace (a * 16777216 + b * 256 * 256) with (Z.shiftl (a * 256 + b) 16)
    by (rewrite Z.shiftl_mul_pow2 by lia; change (2 ^ 16) with 65536; lia).
  rewrite (lor_shiftl_add _ (c * 256)) by (change (2 ^ 16) with 65536; lia).
  change (2 ^ 16) with 65536.
  replace ((a * 256 + b) * 65536 + c * 256) with (Z.shiftl ((a * 256 + b) * 256 + c) 8)
    by (rewrite Z.shiftl_mul_pow2 by lia; change (2 ^ 8) with 256; lia).
  rewrite lor_shiftl_add by (change (2 ^ 8) with 256; lia). change (2 ^ 8) with 256.
  rewrite u32_small; lia.
Qed.

Lemma lwip_htonl_bound n : 0 <= lwip_htonl n < 4294967296.
Proof. apply u32_bound. Qed.

(** A 32-bit value from its bytes, least significant first, and back. *)
Definition of_bytes4 (a b c d : Z) : Z := a + 256 * b + 65536 * c + 16777216 * d.

Lemma of_bytes4_digits a b c d :
  is_byte a -> is_byte b -> is_byte c -> is_byte d ->
  let n := of_bytes4 a b c d in
  0 <= n < 4294967296 /\ n mod 256 = a /\ (n / 256) mod 256 = b /\
  (n / 65536) mod 256 = c /\ n / 16777216 = d.
Proof.
  intros Ha Hb Hc Hd n. unfold is_byte in *. unfold of_bytes4 in n.
  assert (n / 256 = b + 256 * c + 65536 * d) as E1
    by (symmetry; apply (Z.div_unique_pos _ 256 _ a); subst n; lia).
  assert (n / 65536 = c + 256 * d) as E2
    by (symmetry; apply (Z.div_unique_pos _ 65536 _ (a + 256 * b)); subst n; lia).
  split_and!; try (subst n; lia).
  - symmetry. apply (Z.mod_unique_pos _ 256 (b + 256 * c + 65536 * d)); subst n; lia.
  - rewrite E1. symmetry. apply (Z.mod_unique_pos _ 256 (c + 256 * d)); lia.
  - rewrite E2. symmetry. apply (Z.mod_unique_pos _ 256 d); lia.
  - symmetry. apply (Z.div_unique_pos _ 16777216 _ (a + 256 * b + 65536 * c)); subst n; lia.
Qed.

Lemma of_bytes4_surj n :
  0 <= n < 4294967296 ->
  exists a b c d, is_byte a /\ is_byte b /\ is_byte c /\ is_byte d /\ n = of_bytes4 a b c d.
Proof.
  intros Hn. exists (n mod 256), ((n / 256) mod 256), ((n / 65536) mod 256), (n / 16777216).
  unfold is_byte, of_bytes4.
  pose proof (Z.mod_pos_bound n 256 ltac:(lia)). pose proof (Z.mod_pos_bound (n / 256) 256 ltac:(lia)).
  pose proof (Z.mod_pos_bound (n / 65536) 256 ltac:(lia)).
  assert (0 <= n / 16777216 < 256) by (split; [apply Z.div_pos|apply Z.div_lt_upper_bound]; lia).
  split_and!; try lia.
  pose proof (Z.div_mod n 256 ltac:(lia)). pose proof (Z.div_mod (n / 256) 256 ltac:(lia)).
  pose proof (Z.div_mod (n / 65536) 256 ltac:(lia)).
  rewrite (Z.div_div n 256 256) in * by lia. rewrite (Z.div_div n 65536 256) in * by lia.
  change (256 * 256) with 65536 in *. change (65536 * 256) with 16777216 in *. lia.
Qed.

Lemma lwip_htonl_bytes a b c d :
  is_byte a -> is_byte b -> is_byte c -> is_byte d ->
  lwip_htonl (of_bytes4 a b c d) = of_bytes4 d c b a.
Proof.
  intros Ha Hb Hc Hd. destruct (of_bytes4_digits a b c d) as (Hn & E1 & E2 & E3 & E4); try done.
  rewrite lwip_htonl_eq by done. rewrite E1, E2, E3, E4. unfold of_bytes4. lia.
Qed.

Lemma lwip_htonl_involutive n : 0 <= n < 4294967296 -> lwip_htonl (lwip_htonl n) = n.
Proof.
  intros Hn. destruct (of_bytes4_surj n Hn) as (a & b & c & d & ? & ? & ? & ? & ->).
  by rewrite !lwip_htonl_bytes.
Qed.

(** ** Strings: lists of character codes, the terminating NUL included in the
    memory the functions read *)

(** strlen: characters before the first NUL; [None] runs off the memory. *)
Fixpoint strlen (s : list Z) : option nat :=
  match s with
  | [] => None
  | c :: s => if c =? 0 then Some O else S <$> strlen s
  end.

(** strncmp(p, q, n) = 0. *)
Fixpoint strncmp_eq (p q : list Z) (n : nat) : option bool :=
  match n with
  | O => Some true
  | S n => match p, q with
           | a :: p, b :: q => if a =? b then if a =? 0 then Some true else strncmp_eq p q n
                               else Some false
           | _, _ => None
           end
  end.

(** The loop of lwip_strnstr: [p] at distance [k] from the start of the buffer. *)
Fixpoint lwip_strnstr_loop (p : list Z) (token : list Z) (tokenlen k n : nat) : option (option nat) :=
  match p with
  | [] => None
  | c :: p' =>
      if negb (c =? 0) && (k + tokenlen <=? n)%nat then
        r ← (if c =? hd 0 token then strncmp_eq p token tokenlen else Some false);
        if (r : bool) then Some (Some k) else lwip_strnstr_loop p' token tokenlen (S k) n
      else Some None
  end.

(** lwip_strnstr: the offset of the match in [buffer], if any. *)
Definition lwip_strnstr (buffer token : list Z) (n : nat) : option (option nat) :=
  tokenlen ← strlen token;
  if (tokenlen =? 0)%nat then Some (Some O)
  else lwip_strnstr_loop buffer token tokenlen 0 n.

(** The comparison of one pair of characters in lwip_stricmp: do they differ
    even ignoring case?  [char] is unsigned on the target. *)
Definition differ_nocase (c1 c2 : Z) : bool :=
  if c1 =? c2 then false
  else
    let c1_upc := Z.lor c1 0x20 in
    if (97 <=? c1_upc) && (c1_upc <=? 122) then
      let c2_upc := Z.lor c2 0x20 in negb (c1_upc =? c2_upc)
    else true.

Fixpoint lwip_stricmp (str1 str2 : list Z) : option Z :=
  match str1, str2 with
  | c1 :: s1, c2 :: s2 =>
      if differ_nocase c1 c2 then Some 1
      else if c1 =? 0 then Some 0 else lwip_stricmp s1 s2
  | _, _ => None
  end.

(** [len] is a size_t: with [len = 0] the decrement wraps and the comparison
    runs to the NUL. *)
Fixpoint lwip_strnicmp (str1 str2 : list Z) (len : Z) : option Z :=
  match str1, str2 with
  | c1 :: s1, c2 :: s2 =>
      if differ_nocase c1 c2 then Some 1
      else
        let len := u32 (len - 1) in
        if (len =? 0) || (c1 =? 0) then Some 0 else lwip_strnicmp s1 s2 len
  | _, _ => None
  end.
