(* ===== verification/Pbuf.v ===== *)
(** * Packet buffers: the data and operations of core/pbuf.c

    A [heap] holds the live [struct pbuf]s, the memory blocks their payloads
    live in, the free counts of the two pbuf memory pools and the state of the
    out-of-sequence reclaim flag.  Configuration (lwipopts.h): MEM_ALIGNMENT 64,
    PBUF_POOL_SIZE 256, PBUF_POOL_BUFSIZE 1700, MEMP_NUM_PBUF 16, PBUF_LINK_HLEN
    16, LWIP_IPV6 0, custom pbufs enabled (IP_FRAG without
    LWIP_NETIF_TX_SINGLE_PBUF), LWIP_PBUF_REF_T u8_t.  LWIP_PLATFORM_ASSERT is
    empty in this port, so LWIP_ASSERT does nothing and LWIP_ERROR only runs its
    handler. *)
From S2P Require Import Prelude.

(** ** Data *)

(** A pointer into a memory block: block and byte offset. *)
Record ptr := Ptr { p_blk : positive; p_off : Z }.
#[export] Instance ptr_eq_dec : EqDecision ptr.
Proof. solve_decision. Defined.

(** [struct pbuf], with the function pointer of [struct pbuf_custom].  The
    struct of a pbuf lies at the start of the block of the same number. *)
Record pbuf := Pbuf {
  next : option positive;
  payload : option ptr;
  tot_len : Z;
  len : Z;
  type_internal : Z;
  flags : Z;
  ref : Z;
  if_idx : Z;
  custom_free_function : option Z;
}.

Record heap := Heap {
  h_pbufs : gmap positive pbuf;
  h_mem : gmap positive (list Z);
  h_next : positive;
  h_pool : Z;
  h_ref : Z;
  h_ooseq_pending : bool;
  h_callbacks : Z;
}.

Definition set_next v b := Pbuf v (payload b) (tot_len b) (len b) (type_internal b) (flags b) (ref b) (if_idx b) (custom_free_function b).
Definition set_payload v b := Pbuf (next b) v (tot_len b) (len b) (type_internal b) (flags b) (ref b) (if_idx b) (custom_free_function b).
Definition set_tot_len v b := Pbuf (next b) (payload b) v (len b) (type_internal b) (flags b) (ref b) (if_idx b) (custom_free_function b).
Definition set_len v b := Pbuf (next b) (payload b) (tot_len b) v (type_internal b) (flags b) (ref b) (if_idx b) (custom_free_function b).
Definition set_flags v b := Pbuf (next b) (payload b) (tot_len b) (len b) (type_internal b) v (ref b) (if_idx b) (custom_free_function b).
Definition set_ref v b := Pbuf (next b) (payload b) (tot_len b) (len b) (type_internal b) (flags b) v (if_idx b) (custom_free_function b).
Definition set_if_idx v b := Pbuf (next b) (payload b) (tot_len b) (len b) (type_internal b) (flags b) (ref b) v (custom_free_function b).

Definition set_pbufs v h := Heap v (h_mem h) (h_next h) (h_pool h) (h_ref h) (h_ooseq_pending h) (h_callbacks h).
Definition set_mem v h := Heap (h_pbufs h) v (h_next h) (h_pool h) (h_ref h) (h_ooseq_pending h) (h_callbacks h).

(** Enumerations of pbuf.h. *)
Inductive pbuf_layer := PBUF_TRANSPORT | PBUF_IP | PBUF_LINK | PBUF_RAW_TX | PBUF_RAW.
Inductive pbuf_type := PBUF_RAM | PBUF_ROM | PBUF_REF | PBUF_POOL.

Definition PBUF_LINK_HLEN := 16.
Definition PBUF_IP_HLEN := 20.
Definition PBUF_TRANSPORT_HLEN := 20.

Definition layer_offset (l : pbuf_layer) : Z :=
  match l with
  | PBUF_TRANSPORT => PBUF_LINK_HLEN + PBUF_IP_HLEN + PBUF_TRANSPORT_HLEN
  | PBUF_IP => PBUF_LINK_HLEN + PBUF_IP_HLEN
  | PBUF_LINK => PBUF_LINK_HLEN
  | PBUF_RAW_TX | PBUF_RAW => 0
  end.

Definition PBUF_TYPE_FLAG_STRUCT_DATA_CONTIGUOUS := 0x80.
Definition PBUF_TYPE_FLAG_DATA_VOLATILE := 0x40.
Definition PBUF_TYPE_ALLOC_SRC_MASK := 0x0F.
Definition PBUF_TYPE_ALLOC_SRC_MASK_STD_HEAP := 0x00.
Definition PBUF_TYPE_ALLOC_SRC_MASK_STD_MEMP_PBUF := 0x01.
Definition PBUF_TYPE_ALLOC_SRC_MASK_STD_MEMP_PBUF_POOL := 0x02.

Definition type_code (t : pbuf_type) : Z :=
  match t with
  | PBUF_RAM => 0x280
  | PBUF_ROM => 0x01
  | PBUF_REF => 0x41
  | PBUF_POOL => 0x182
  end.

Definition PBUF_FLAG_PUSH := 0x01.
Definition PBUF_FLAG_IS_CUSTOM := 0x02.
Definition PBUF_FLAG_MCASTLOOP := 0x04.
Definition PBUF_FLAG_LLBCAST := 0x08.
Definition PBUF_FLAG_LLMCAST := 0x10.
Definition PBUF_FLAG_TCP_FIN := 0x20.

Definition MEM_ALIGNMENT := 64.
(** LWIP_MEM_ALIGN_SIZE; blocks start on aligned addresses, so LWIP_MEM_ALIGN of
    [block + n] is [block + LWIP_MEM_ALIGN_SIZE n]. *)
Definition LWIP_MEM_ALIGN_SIZE (size : Z) : Z :=
  Z.land (size + MEM_ALIGNMENT - 1) (Z.lnot (MEM_ALIGNMENT - 1)).
Definition SIZEOF_STRUCT_PBUF := 64.
Definition PBUF_POOL_BUFSIZE := 1700.
Definition PBUF_POOL_BUFSIZE_ALIGNED := LWIP_MEM_ALIGN_SIZE PBUF_POOL_BUFSIZE.

(** ** What pbuf.c relies on

    [junk b i]: the content of byte [i] of the freshly allocated block [b].
    [heap_admits]: whether [mem_malloc] finds room for a block of the given
    size (core/mem.c, specified by this interface only).
    [tcpip_try_callback_ok n]: whether the tcpip thread's mailbox accepts a
    callback when [n] of pbuf.c's are already queued.
    [custom_free f p]: the effect of the custom free function [f] on [p]. *)
Class PbufEnv := {
  junk : positive -> Z -> Z;
  junk_byte b i : is_byte (junk b i);
  heap_admits : gmap positive (list Z) -> Z -> bool;
  tcpip_try_callback_ok : Z -> bool;
  custom_free : Z -> positive -> M heap unit;
}.

(** ** Memory accesses *)

Definition get_pbuf (p : positive) : M heap pbuf := fun h =>
  match h_pbufs h !! p with Some b => Some (b, h) | None => None end.

(** [p->field] through a pointer that may be NULL. *)
Definition deref (p : option positive) : M heap (positive * pbuf) :=
  match p with
  | Some i => b ← get_pbuf i; mret (i, b)
  | None => stuck
  end.

Definition upd_pbuf (p : positive) (f : pbuf -> pbuf) : M heap unit := fun h =>
  match h_pbufs h !! p with
  | Some b => Some (tt, set_pbufs (<[p := f b]> (h_pbufs h)) h)
  | None => None
  end.

(** Read [n] bytes at offset [i] from a pointer. *)
Definition load (q : option ptr) (i n : Z) : M heap (list Z) := fun h =>
  if n =? 0 then Some ([], h) else
  match q with
  | Some (Ptr b o) =>
      match h_mem h !! b with
      | Some bs => if (0 <=? o + i) && (0 <=? n) && (o + i + n <=? lenZ bs)
                   then Some (slice bs (o + i) n, h) else None
      | None => None
      end
  | None => None
  end.

(** Write the bytes [v] at offset [i] from a pointer. *)
Definition store (q : option ptr) (i : Z) (v : list Z) : M heap unit := fun h =>
  if lenZ v =? 0 then Some (tt, h) else
  match q with
  | Some (Ptr b o) =>
      match h_mem h !! b with
      | Some bs => if (0 <=? o + i) && (o + i + lenZ v <=? lenZ bs)
                   then Some (tt, set_mem (<[b := overwrite bs (o + i) v]> (h_mem h)) h)
                   else None
      | None => None
      end
  | None => None
  end.

(** Read [n] bytes at offset [i] of a buffer of the caller. *)
Definition load_arg (data : list Z) (i n : Z) : M heap (list Z) :=
  if (0 <=? i) && (0 <=? n) && (i + n <=? lenZ data) then mret (slice data i n) else stuck.

(** The bound given to the loops that walk a chain. *)
Definition chain_fuel (h : heap) : nat := S (size (h_pbufs h)).
Arguments chain_fuel : simpl never.

Section Ops.
Context {E : PbufEnv}.

Definition junk_block (b : positive) (n : Z) : list Z :=
  (fun i => junk b (Z.of_nat i)) <$> seq 0 (Z.to_nat n).

(** A fresh block of [n] bytes. *)
Definition new_block (n : Z) : M heap positive := fun h =>
  let b := h_next h in
  Some (b, Heap (h_pbufs h) (<[b := junk_block b n]> (h_mem h)) (Pos.succ b)
                (h_pool h) (h_ref h) (h_ooseq_pending h) (h_callbacks h)).

(** memp_malloc(MEMP_PBUF_POOL), memp_malloc(MEMP_PBUF), mem_malloc. *)
Definition memp_malloc_pool : M heap (option positive) := fun h =>
  if h_pool h =? 0 then Some (None, h) else
  (b ← new_block (SIZEOF_STRUCT_PBUF + PBUF_POOL_BUFSIZE_ALIGNED); mret (Some b))
    (Heap (h_pbufs h) (h_mem h) (h_next h) (h_pool h - 1) (h_ref h) (h_ooseq_pending h) (h_callbacks h)).

Definition memp_malloc_ref : M heap (option positive) := fun h =>
  if h_ref h =? 0 then Some (None, h) else
  (b ← new_block SIZEOF_STRUCT_PBUF; mret (Some b))
    (Heap (h_pbufs h) (h_mem h) (h_next h) (h_pool h) (h_ref h - 1) (h_ooseq_pending h) (h_callbacks h)).

Definition mem_malloc (size : Z) : M heap (option positive) := fun h =>
  if heap_admits (h_mem h) size then (b ← new_block size; mret (Some b)) h
  else Some (None, h).

(** memp_free(MEMP_PBUF_POOL, p), memp_free(MEMP_PBUF, p), mem_free(p): the
    block and the struct in it are gone. *)
Definition drop_block (p : positive) (pool ref : Z) : M heap unit := fun h =>
  match h_mem h !! p with
  | Some _ => Some (tt, Heap (delete p (h_pbufs h)) (delete p (h_mem h)) (h_next h)
                      (h_pool h + pool) (h_ref h + ref) (h_ooseq_pending h) (h_callbacks h))
  | None => None
  end.
Definition memp_free_pool p := drop_block p 1 0.
Definition memp_free_ref p := drop_block p 0 1.
Definition mem_free p := drop_block p 0 0.

(** mem_trim: the block keeps its address and its first [size] bytes. *)
Definition mem_trim (p : positive) (size : Z) : M heap unit := fun h =>
  match h_mem h !! p with
  | Some bs => if size <=? lenZ bs
               then Some (tt, set_mem (<[p := slice bs 0 size]> (h_mem h)) h)
               else None
  | None => None
  end.

(** ** pbuf.c *)

(** pbuf_pool_is_empty and PBUF_POOL_FREE_OOSEQ_QUEUE_CALL. *)
Definition pbuf_pool_is_empty : M heap unit := fun h =>
  let queued := h_ooseq_pending h in
  let pend (v : bool) (c : Z) :=
    Heap (h_pbufs h) (h_mem h) (h_next h) (h_pool h) (h_ref h) v c in
  if negb queued then
    if tcpip_try_callback_ok (h_callbacks h)
    then Some (tt, pend true (h_callbacks h + 1))
    else Some (tt, pend false (h_callbacks h))
  else Some (tt, pend true (h_callbacks h)).

Definition pbuf_init_alloced_pbuf (p : positive) (pl : option ptr)
    (tl l : Z) (type flg : Z) : M heap unit := fun h =>
  Some (tt, set_pbufs (<[p := Pbuf None pl tl l (u8 type) flg 1 0 None]> (h_pbufs h)) h).

Definition pbuf_get_allocsrc (b : pbuf) : Z :=
  Z.land (type_internal b) PBUF_TYPE_ALLOC_SRC_MASK.
Definition pbuf_match_allocsrc (b : pbuf) (type : Z) : bool :=
  pbuf_get_allocsrc b =? Z.land type PBUF_TYPE_ALLOC_SRC_MASK.

(** The while loop of pbuf_free; [count] is its u8_t counter. *)
Fixpoint pbuf_free_loop (fuel : nat) (p : option positive) (count : Z) : M heap Z :=
  match p with
  | None => mret count
  | Some i =>
    match fuel with
    | O => stuck
    | S fuel =>
      b ← get_pbuf i;
      let r := u8 (ref b - 1) in
      upd_pbuf i (set_ref r);;
      if r =? 0 then
        let q := next b in
        let alloc_src := pbuf_get_allocsrc b in
        (if negb (Z.land (flags b) PBUF_FLAG_IS_CUSTOM =? 0) then
           match custom_free_function b with
           | Some f => custom_free f i
           | None => stuck
           end
         else if alloc_src =? PBUF_TYPE_ALLOC_SRC_MASK_STD_MEMP_PBUF_POOL then memp_free_pool i
         else if alloc_src =? PBUF_TYPE_ALLOC_SRC_MASK_STD_MEMP_PBUF then memp_free_ref i
         else if alloc_src =? PBUF_TYPE_ALLOC_SRC_MASK_STD_HEAP then mem_free i
         else mret tt);;
        pbuf_free_loop fuel q (u8 (count + 1))
      else pbuf_free_loop fuel None count
    end
  end.

Definition pbuf_free (p : option positive) : M heap Z :=
  match p with
  | None => mret 0
  | Some _ => h ← get; pbuf_free_loop (chain_fuel h) p 0
  end.

Definition pbuf_alloc_reference (pl : option ptr) (length : Z) (type : pbuf_type)
    : M heap (option positive) :=
  p ← memp_malloc_ref;
  match p with
  | None => mret None
  | Some i => pbuf_init_alloced_pbuf i pl length length (type_code type) 0;; mret (Some i)
  end.

(** The do-while loop of pbuf_alloc for PBUF_POOL. *)
Fixpoint pbuf_alloc_pool_loop (fuel : nat) (p last : option positive)
    (rem_len offset : Z) : M heap (option positive) :=
  match fuel with
  | O => stuck
  | S fuel =>
    q ← memp_malloc_pool;
    match q with
    | None =>
        pbuf_pool_is_empty;;
        (match p with Some _ => pbuf_free p;; mret tt | None => mret tt end);;
        mret None
    | Some q =>
        let qlen := Z.min rem_len
          (u16 (PBUF_POOL_BUFSIZE_ALIGNED - LWIP_MEM_ALIGN_SIZE offset)) in
        pbuf_init_alloced_pbuf q
          (Some (Ptr q (LWIP_MEM_ALIGN_SIZE (SIZEOF_STRUCT_PBUF + offset))))
          rem_len qlen (type_code PBUF_POOL) 0;;
        p' ← match p with
             | None => mret (Some q)
             | Some _ => match last with
                         | Some l => upd_pbuf l (set_next (Some q));; mret p
                         | None => stuck
                         end
             end;
        let rem_len := u16 (rem_len - qlen) in
        if 0 <? rem_len then pbuf_alloc_pool_loop fuel p' (Some q) rem_len 0
        else mret p'
    end
  end.

Definition pbuf_alloc (layer : pbuf_layer) (length : Z) (type : pbuf_type)
    : M heap (option positive) :=
  let offset := layer_offset layer in
  match type with
  | PBUF_REF | PBUF_ROM => pbuf_alloc_reference None length type
  | PBUF_POOL => pbuf_alloc_pool_loop (S (Z.to_nat length)) None None length offset
  | PBUF_RAM =>
      let payload_len := u16 (LWIP_MEM_ALIGN_SIZE offset + LWIP_MEM_ALIGN_SIZE length) in
      let alloc_len := u32 (LWIP_MEM_ALIGN_SIZE SIZEOF_STRUCT_PBUF + payload_len) in
      if (payload_len <? LWIP_MEM_ALIGN_SIZE length) || (alloc_len <? LWIP_MEM_ALIGN_SIZE length)
      then mret None
      else
        p ← mem_malloc alloc_len;
        match p with
        | None => mret None
        | Some i =>
            pbuf_init_alloced_pbuf i
              (Some (Ptr i (LWIP_MEM_ALIGN_SIZE (SIZEOF_STRUCT_PBUF + offset))))
              length length (type_code PBUF_RAM) 0;;
            mret (Some i)
        end
  end.

(** pbuf_alloced_custom: [p] is the caller's struct pbuf_custom, with its free
    function already set. *)
Definition pbuf_alloced_custom (l : pbuf_layer) (length : Z) (type : pbuf_type)
    (p : positive) (payload_mem : option ptr) (payload_mem_len : Z)
    : M heap (option positive) :=
  let offset := layer_offset l in
  if payload_mem_len <? LWIP_MEM_ALIGN_SIZE offset + length then mret None
  else
    let pl := match payload_mem with
              | Some (Ptr b o) => Some (Ptr b (o + LWIP_MEM_ALIGN_SIZE offset))
              | None => None
              end in
    b ← get_pbuf p;
    upd_pbuf p (fun _ => Pbuf None pl length length (u8 (type_code type))
                          PBUF_FLAG_IS_CUSTOM 1 0 (custom_free_function b));;
    mret (Some p).

(** The loop of pbuf_realloc that steps over the pbufs that stay. *)
Fixpoint pbuf_realloc_loop (fuel : nat) (q : option positive) (rem_len shrink : Z)
    : M heap (positive * Z) :=
  '(i, b) ← deref q;
  if len b <? rem_len then
    match fuel with
    | O => stuck
    | S fuel =>
        upd_pbuf i (set_tot_len (u16 (tot_len b - shrink)));;
        pbuf_realloc_loop fuel (next b) (u16 (rem_len - len b)) shrink
    end
  else mret (i, rem_len).

(** Its tail: [q] becomes the last pbuf of the chain, with [rem_len] bytes. *)
Definition pbuf_realloc_cut (q : positive) (rem_len : Z) : M heap unit :=
  b ← get_pbuf q;
  (if pbuf_match_allocsrc b PBUF_TYPE_ALLOC_SRC_MASK_STD_HEAP
      && negb (rem_len =? len b)
      && (Z.land (flags b) PBUF_FLAG_IS_CUSTOM =? 0)
   then match payload b with
        | Some (Ptr blk o) =>
            if decide (blk = q) then mem_trim q (u32 (o + rem_len)) else stuck
        | None => stuck
        end
   else mret tt);;
  upd_pbuf q (fun b => set_tot_len rem_len (set_len rem_len b));;
  (match next b with
   | Some n => pbuf_free (Some n);; mret tt
   | None => mret tt
   end);;
  upd_pbuf q (set_next None).

Definition pbuf_realloc (p : option positive) (new_len : Z) : M heap unit :=
  '(_, b) ← deref p;
  if tot_len b <=? new_len then mret tt
  else
    let shrink := u16 (tot_len b - new_len) in
    h ← get;
    '(q, rem_len) ← pbuf_realloc_loop (chain_fuel h) p new_len shrink;
    pbuf_realloc_cut q rem_len.

(** Returns true on failure (the C function's non-zero). *)
Definition pbuf_add_header_impl (p : option positive) (header_size_increment : Z)
    (force : bool) : M heap bool :=
  match p with
  | None => mret true
  | Some i =>
    if 0xFFFF <? header_size_increment then mret true
    else if header_size_increment =? 0 then mret false
    else
      b ← get_pbuf i;
      let increment_magnitude := u16 header_size_increment in
      if u16 (increment_magnitude + tot_len b) <? increment_magnitude then mret true
      else
        let move (pl : ptr) : M heap bool :=
          upd_pbuf i (fun b => Pbuf (next b) (Some pl)
            (u16 (tot_len b + increment_magnitude)) (u16 (len b + increment_magnitude))
            (type_internal b) (flags b) (ref b) (if_idx b) (custom_free_function b));;
          mret false in
        match payload b with
        | None => if negb (Z.land (type_internal b) PBUF_TYPE_FLAG_STRUCT_DATA_CONTIGUOUS =? 0)
                  then stuck else if force then stuck else mret true
        | Some (Ptr blk o) =>
          if negb (Z.land (type_internal b) PBUF_TYPE_FLAG_STRUCT_DATA_CONTIGUOUS =? 0) then
            if decide (blk = i) then
              if o - header_size_increment <? SIZEOF_STRUCT_PBUF then mret true
              else move (Ptr blk (o - header_size_increment))
            else stuck
          else if force then move (Ptr blk (o - header_size_increment))
          else mret true
        end
  end.

Definition pbuf_add_header p header_size_increment :=
  pbuf_add_header_impl p header_size_increment false.
Definition pbuf_add_header_force p header_size_increment :=
  pbuf_add_header_impl p header_size_increment true.

Definition pbuf_remove_header (p : option positive) (header_size_decrement : Z) : M heap bool :=
  match p with
  | None => mret true
  | Some i =>
    if 0xFFFF <? header_size_decrement then mret true
    else if header_size_decrement =? 0 then mret false
    else
      b ← get_pbuf i;
      let increment_magnitude := u16 header_size_decrement in
      if len b <? increment_magnitude then mret true
      else
        match payload b with
        | None => stuck
        | Some (Ptr blk o) =>
            upd_pbuf i (fun b => Pbuf (next b) (Some (Ptr blk (o + header_size_decrement)))
              (u16 (tot_len b - increment_magnitude)) (u16 (len b - increment_magnitude))
              (type_internal b) (flags b) (ref b) (if_idx b) (custom_free_function b));;
            mret false
        end
  end.

Definition pbuf_header_impl (p : option positive) (header_size_increment : Z)
    (force : bool) : M heap bool :=
  if header_size_increment <? 0 then pbuf_remove_header p (- header_size_increment)
  else pbuf_add_header_impl p header_size_increment force.
Definition pbuf_header p header_size_increment :=
  pbuf_header_impl p header_size_increment false.
Definition pbuf_header_force p header_size_increment :=
  pbuf_header_impl p header_size_increment true.

Fixpoint pbuf_free_header_loop (fuel : nat) (p : option positive) (free_left : Z)
    : M heap (option positive) :=
  match p with
  | None => mret p
  | Some i =>
    if free_left =? 0 then mret p
    else match fuel with
    | O => stuck
    | S fuel =>
      b ← get_pbuf i;
      if len b <=? free_left then
        upd_pbuf i (set_next None);;
        pbuf_free (Some i);;
        pbuf_free_header_loop fuel (next b) (u16 (free_left - len b))
      else
        pbuf_remove_header p free_left;;
        pbuf_free_header_loop fuel p 0
    end
  end.

Definition pbuf_free_header (q : option positive) (size : Z) : M heap (option positive) :=
  h ← get; pbuf_free_header_loop (chain_fuel h) q size.

Fixpoint pbuf_clen_loop (fuel : nat) (p : option positive) (l : Z) : M heap Z :=
  match p with
  | None => mret l
  | Some i =>
    match fuel with
    | O => stuck
    | S fuel => b ← get_pbuf i; pbuf_clen_loop fuel (next b) (u16 (l + 1))
    end
  end.
Definition pbuf_clen (p : option positive) : M heap Z :=
  h ← get; pbuf_clen_loop (chain_fuel h) p 0.

Definition pbuf_ref (p : option positive) : M heap unit :=
  match p with
  | None => mret tt
  | Some i => upd_pbuf i (fun b => set_ref (u8 (ref b + 1)) b)
  end.

(** The for loop of pbuf_cat; returns the last pbuf of [p]'s chain. *)
Fixpoint pbuf_cat_loop (fuel : nat) (p t : positive) : M heap positive :=
  match fuel with
  | O => stuck
  | S fuel =>
    b ← get_pbuf p;
    match next b with
    | None => mret p
    | Some n =>
        bt ← get_pbuf t;
        upd_pbuf p (set_tot_len (u16 (tot_len b + tot_len bt)));;
        pbuf_cat_loop fuel n t
    end
  end.

(** Its tail: add to the last pbuf's total and chain [t] behind it. *)
Definition pbuf_cat_link (p t : positive) : M heap unit :=
  b ← get_pbuf p;
  bt ← get_pbuf t;
  upd_pbuf p (set_tot_len (u16 (tot_len b + tot_len bt)));;
  upd_pbuf p (set_next (Some t)).

Definition pbuf_cat (h t : option positive) : M heap unit :=
  match h, t with
  | Some p, Some t =>
      hp ← get;
      p ← pbuf_cat_loop (chain_fuel hp) p t;
      pbuf_cat_link p t
  | _, _ => mret tt
  end.

Definition pbuf_chain (h t : option positive) : M heap unit :=
  pbuf_cat h t;; pbuf_ref t.

Definition pbuf_dechain (p : option positive) : M heap (option positive) :=
  '(i, b) ← deref p;
  match next b with
  | None => mret None
  | Some q =>
      upd_pbuf q (set_tot_len (u16 (tot_len b - len b)));;
      upd_pbuf i (set_next None);;
      upd_pbuf i (set_tot_len (len b));;
      tail_gone ← pbuf_free (Some q);
      mret (if 0 <? tail_gone then None else Some q)
  end.

(** The test of pbuf_copy for a packet queue: the packet ends in this pbuf but
    the chain goes on. *)
Definition is_queue (p : option positive) : M heap bool :=
  match p with
  | Some j => b ← get_pbuf j;
              mret ((len b =? tot_len b) && negb (bool_decide (next b = None)))
  | None => mret false
  end.

(** pbuf_copy's do-while loop; the two offsets are size_t. *)
Fixpoint pbuf_copy_loop (fuel : nat) (p_to p_from : option positive)
    (offset_to offset_from : Z) : M heap err_t :=
  match fuel with
  | O => stuck
  | S fuel =>
    '(_, bt) ← deref p_to;
    '(_, bf) ← deref p_from;
    let l := if u32 (len bf - offset_from) <=? u32 (len bt - offset_to)
             then u32 (len bf - offset_from) else u32 (len bt - offset_to) in
    data ← load (payload bf) offset_from l;
    store (payload bt) offset_to data;;
    let offset_to := u32 (offset_to + l) in
    let offset_from := u32 (offset_from + l) in
    let '(p_from', offset_from') :=
      if len bf <=? offset_from then (next bf, 0) else (p_from, offset_from) in
    let '(p_to', offset_to') :=
      if offset_to =? len bt then (next bt, 0) else (p_to, offset_to) in
    if (offset_to =? len bt) && bool_decide (p_to' = None) && negb (bool_decide (p_from' = None))
    then mret ERR_ARG
    else
      q1 ← is_queue p_from';
      if (q1 : bool) then mret ERR_VAL
      else
        q2 ← is_queue p_to';
        if (q2 : bool) then mret ERR_VAL
        else match p_from' with
             | Some _ => pbuf_copy_loop fuel p_to' p_from' offset_to' offset_from'
             | None => mret ERR_OK
             end
  end.

(** Every round of pbuf_copy leaves a pbuf of one of the two chains. *)
Definition pbuf_copy (p_to p_from : option positive) : M heap err_t :=
  match p_to, p_from with
  | Some t, Some f =>
      bt ← get_pbuf t;
      bf ← get_pbuf f;
      if tot_len bt <? tot_len bf then mret ERR_ARG
      else h ← get; pbuf_copy_loop (chain_fuel h + chain_fuel h) p_to p_from 0 0
  | _, _ => mret ERR_ARG
  end.

(** pbuf_copy_partial: the number of bytes copied and the bytes themselves, which
    the caller's buffer holds afterwards; [dataptr] tells it is not NULL. *)
Fixpoint pbuf_copy_partial_loop (fuel : nat) (p : option positive) (l offset : Z)
    (copied_total : Z) (out : list Z) : M heap (Z * list Z) :=
  match p with
  | None => mret (copied_total, out)
  | Some i =>
    if l =? 0 then mret (copied_total, out)
    else match fuel with
    | O => stuck
    | S fuel =>
      b ← get_pbuf i;
      if negb (offset =? 0) && (len b <=? offset) then
        pbuf_copy_partial_loop fuel (next b) l (u16 (offset - len b)) copied_total out
      else
        let n := u16 (len b - offset) in
        let buf_copy_len := if l <? n then l else n in
        data ← load (payload b) offset buf_copy_len;
        pbuf_copy_partial_loop fuel (next b) (u16 (l - buf_copy_len)) 0
          (u16 (copied_total + buf_copy_len)) (out ++ data)
    end
  end.

Definition pbuf_copy_partial (buf : option positive) (dataptr : bool) (l offset : Z)
    : M heap (Z * list Z) :=
  match buf with
  | None => mret (0, [])
  | Some _ =>
      if negb dataptr then mret (0, [])
      else h ← get; pbuf_copy_partial_loop (chain_fuel h) buf l offset 0 []
  end.

Fixpoint pbuf_skip_loop (fuel : nat) (q : option positive) (offset_left : Z)
    : M heap (option positive * Z) :=
  match q with
  | None => mret (None, offset_left)
  | Some i =>
    b ← get_pbuf i;
    if len b <=? offset_left then
      match fuel with
      | O => stuck
      | S fuel => pbuf_skip_loop fuel (next b) (u16 (offset_left - len b))
      end
    else mret (Some i, offset_left)
  end.

Definition pbuf_skip_const (q : option positive) (in_offset : Z) : M heap (option positive * Z) :=
  h ← get; pbuf_skip_loop (chain_fuel h) q in_offset.
Definition pbuf_skip := pbuf_skip_const.

(** Where pbuf_get_contiguous says the bytes are: in place, or copied out to
    the caller's buffer. *)
Inductive contiguous := InPlace (q : option ptr) (o : Z) | InBuffer (bs : list Z).

Definition pbuf_get_contiguous (p : option positive) (buffer : bool) (bufsize l offset : Z)
    : M heap (option contiguous) :=
  match p with
  | None => mret None
  | Some _ =>
    if negb buffer then mret None
    else if bufsize <? l then mret None
    else
      '(q, out_offset) ← pbuf_skip_const p offset;
      match q with
      | None => mret None
      | Some i =>
          b ← get_pbuf i;
          if out_offset + l <=? len b then mret (Some (InPlace (payload b) out_offset))
          else
            '(n, bs) ← pbuf_copy_partial q buffer l out_offset;
            if n =? l then mret (Some (InBuffer bs)) else mret None
      end
  end.

Fixpoint pbuf_take_loop (fuel : nat) (p : option positive) (data : list Z)
    (total_copy_len copied_total : Z) : M heap err_t :=
  if total_copy_len =? 0 then mret ERR_OK
  else match fuel with
  | O => stuck
  | S fuel =>
    '(_, b) ← deref p;
    let buf_copy_len := if len b <? total_copy_len then len b else total_copy_len in
    part ← load_arg data copied_total buf_copy_len;
    store (payload b) 0 part;;
    pbuf_take_loop fuel (next b) data (u32 (total_copy_len - buf_copy_len))
      (u32 (copied_total + buf_copy_len))
  end.

(** pbuf_take(buf, dataptr, len): [data] is the caller's buffer, [None] for a
    NULL [dataptr]. *)
Definition pbuf_take (buf : option positive) (data : option (list Z)) (l : Z) : M heap err_t :=
  match buf, data with
  | None, _ => mret ERR_ARG
  | _, None => mret ERR_ARG
  | Some i, Some data =>
      b ← get_pbuf i;
      if tot_len b <? l then mret ERR_MEM
      else h ← get; pbuf_take_loop (chain_fuel h) buf data l 0
  end.

Definition pbuf_take_at (buf : option positive) (data : list Z) (l offset : Z) : M heap err_t :=
  '(q, target_offset) ← pbuf_skip buf offset;
  match q with
  | None => mret ERR_MEM
  | Some i =>
      b ← get_pbuf i;
      if target_offset + l <=? tot_len b then
        let first_copy_len := u16 (Z.min (len b - target_offset) l) in
        part ← load_arg data 0 first_copy_len;
        store (payload b) target_offset part;;
        let remaining_len := u16 (l - first_copy_len) in
        if 0 <? remaining_len
        then pbuf_take (next b) (Some (drop (Z.to_nat first_copy_len) data)) remaining_len
        else mret ERR_OK
      else mret ERR_MEM
  end.

Definition pbuf_clone (layer : pbuf_layer) (type : pbuf_type) (p : option positive)
    : M heap (option positive) :=
  '(_, b) ← deref p;
  q ← pbuf_alloc layer (tot_len b) type;
  match q with
  | None => mret None
  | Some _ => pbuf_copy q p;; mret q
  end.

Definition pbuf_coalesce (p : option positive) (layer : pbuf_layer) : M heap (option positive) :=
  '(_, b) ← deref p;
  match next b with
  | None => mret p
  | Some _ =>
      q ← pbuf_clone layer PBUF_RAM p;
      match q with
      | None => mret p
      | Some _ => pbuf_free p;; mret q
      end
  end.

(** pbuf_try_get_at: the byte, or -1. *)
Definition pbuf_try_get_at (p : option positive) (offset : Z) : M heap Z :=
  '(q, q_idx) ← pbuf_skip_const p offset;
  match q with
  | Some i =>
      b ← get_pbuf i;
      if q_idx <? len b then
        v ← load (payload b) q_idx 1; mret (byte_at v 0)
      else mret (-1)
  | None => mret (-1)
  end.

Definition pbuf_get_at (p : option positive) (offset : Z) : M heap Z :=
  r ← pbuf_try_get_at p offset;
  mret (if 0 <=? r then u8 r else 0).

Definition pbuf_put_at (p : option positive) (offset data : Z) : M heap unit :=
  '(q, q_idx) ← pbuf_skip p offset;
  match q with
  | Some i =>
      b ← get_pbuf i;
      if q_idx <? len b then store (payload b) q_idx [data] else mret tt
  | None => mret tt
  end.

(** The byte loop of pbuf_memcmp from index [i], [k] bytes to go. *)
Fixpoint pbuf_memcmp_loop (k : nat) (q : option positive) (start i : Z) (s2 : list Z) : M heap Z :=
  match k with
  | O => mret 0
  | S k =>
      a ← pbuf_get_at q (u16 (start + i));
      c ← load_arg s2 i 1;
      if negb (a =? byte_at c 0) then mret (u16 (Z.min (i + 1) 0xFFFF))
      else pbuf_memcmp_loop k q start (i + 1) s2
  end.

Definition pbuf_memcmp (p : option positive) (offset : Z) (s2 : list Z) (n : Z) : M heap Z :=
  '(_, b) ← deref p;
  if tot_len b <? offset + n then mret 0xffff
  else
    h ← get;
    '(q, start) ← pbuf_skip_loop (chain_fuel h) p offset;
    pbuf_memcmp_loop (Z.to_nat n) q start 0 s2.

(** pbuf_memfind's loop over the start positions [i .. max_cmp_start]; [i] is
    a u16_t. *)
Fixpoint pbuf_memfind_loop (k : nat) (p : option positive) (mem : list Z)
    (mem_len i max_cmp_start : Z) : M heap Z :=
  if max_cmp_start <? i then mret 0xFFFF
  else match k with
  | O => stuck
  | S k =>
      plus ← pbuf_memcmp p i mem mem_len;
      if plus =? 0 then mret i
      else pbuf_memfind_loop k p mem mem_len (u16 (i + 1)) max_cmp_start
  end.

Definition pbuf_memfind (p : option positive) (mem : list Z) (mem_len start_offset : Z) : M heap Z :=
  '(_, b) ← deref p;
  let max_cmp_start := u16 (tot_len b - mem_len) in
  if mem_len + start_offset <=? tot_len b
  then pbuf_memfind_loop (S (Z.to_nat (tot_len b))) p mem mem_len start_offset max_cmp_start
  else mret 0xFFFF.

(** pbuf_strstr: [substr] is the NUL-terminated string without its NUL. *)
Definition pbuf_strstr (p : option positive) (substr : option (list Z)) : M heap Z :=
  match substr with
  | None => mret 0xFFFF
  | Some [] => mret 0xFFFF
  | Some s =>
      '(_, b) ← deref p;
      if tot_len b =? 0xFFFF then mret 0xFFFF
      else if 0xFFFF <=? lenZ s then mret 0xFFFF
      else pbuf_memfind p s (u16 (lenZ s)) 0
  end.

End Ops.
