(* ===== verification/Mem.v ===== *)
(** * The heap: core/mem.c

    MEM_LIBC_MALLOC, MEM_USE_POOLS, MEM_OVERFLOW_CHECK and MEM_SANITY_CHECK 0,
    LWIP_ALLOW_MEM_FREE_FROM_OTHER_CONTEXT 1; mem_size_t is 32 bits wide; the
    counters are left out.  Pointers are addresses, and every access is checked to
    be inside the array ram_heap: outside a run is stuck.

    A run is what happens with interrupts off, between SYS_ARCH_PROTECT and
    SYS_ARCH_UNPROTECT.  mem_malloc lets interrupts in between while it searches:
    it is cut there into sections, [malloc_step], and [malloc_pc] says where it
    waits; MemSys puts others' steps in between. *)
From S2P Require Import Prelude Pbuf.

(** struct mem *)
Definition SIZEOF_STRUCT_MEM := LWIP_MEM_ALIGN_SIZE 12.
Definition MIN_SIZE := 12.
Definition MIN_SIZE_ALIGNED := LWIP_MEM_ALIGN_SIZE MIN_SIZE.
Definition MEM_SIZE := 131072.
Definition MEM_SIZE_ALIGNED := LWIP_MEM_ALIGN_SIZE MEM_SIZE.
(** The bytes of the array ram_heap. *)
Definition LWIP_MEM_ALIGN_BUFFER (size : Z) : Z := size + MEM_ALIGNMENT - 1.
Definition RAM_HEAP_SIZE := LWIP_MEM_ALIGN_BUFFER (MEM_SIZE_ALIGNED + 2 * SIZEOF_STRUCT_MEM).

(** Where the linker put it. *)
Class RamHeap := {
  ram_heap : Z;
  ram_heap_pos : 0 < ram_heap;
  ram_heap_fits : ram_heap + RAM_HEAP_SIZE < 4294967296;
}.

(** The memory, and the variables of mem.c. *)
Record mem_state := MemState {
  bytes : Z -> Z;
  ram : Z;
  ram_end : Z;
  lfree : Z;
  mem_free_count : Z;
}.
Definition set_bytes v s := MemState v (ram s) (ram_end s) (lfree s) (mem_free_count s).
Definition set_lfree v s := MemState (bytes s) (ram s) (ram_end s) v (mem_free_count s).
Definition set_mem_free_count v s := MemState (bytes s) (ram s) (ram_end s) (lfree s) v.

(** ** Memory *)

Definition word (m : Z -> Z) (a : Z) : Z := m a + 256 * m (a + 1) + 65536 * m (a + 2) + 16777216 * m (a + 3).
Definition put8 (a v : Z) (m : Z -> Z) : Z -> Z := fun x => if x =? a then u8 v else m x.
Definition put32 (a v : Z) (m : Z -> Z) : Z -> Z :=
  fun x => if (a <=? x) && (x <? a + 4) then (v / 2 ^ (8 * (x - a))) mod 256 else m x.
Definition fill (a n v : Z) (m : Z -> Z) : Z -> Z := fun x => if (a <=? x) && (x <? a + n) then u8 v else m x.

Section Mem.
Context {RH : RamHeap}.

Definition in_ram_heap (a n : Z) : bool := (ram_heap <=? a) && (a + n <=? ram_heap + RAM_HEAP_SIZE).
Definition load32 (a : Z) : M mem_state Z := s ← get; if in_ram_heap a 4 then mret (word (bytes s) a) else stuck.
Definition load8 (a : Z) : M mem_state Z := s ← get; if in_ram_heap a 1 then mret (bytes s a) else stuck.
Definition store32 (a v : Z) : M mem_state unit :=
  if in_ram_heap a 4 then modify (fun s => set_bytes (put32 a v (bytes s)) s) else stuck.
Definition store8 (a v : Z) : M mem_state unit :=
  if in_ram_heap a 1 then modify (fun s => set_bytes (put8 a v (bytes s)) s) else stuck.
Definition memset (a v n : Z) : M mem_state unit :=
  if in_ram_heap a n then modify (fun s => set_bytes (fill a n v (bytes s)) s) else stuck.

(** mem->next, mem->prev, mem->used *)
Definition get_next (mem : Z) : M mem_state Z := load32 mem.
Definition get_prev (mem : Z) : M mem_state Z := load32 (mem + 4).
Definition get_used (mem : Z) : M mem_state Z := load8 (mem + 8).
Definition set_next (mem v : Z) : M mem_state unit := store32 mem v.
Definition set_prev (mem v : Z) : M mem_state unit := store32 (mem + 4) v.
Definition set_used (mem v : Z) : M mem_state unit := store8 (mem + 8) v.

Definition ptr_to_mem (ptr : Z) : M mem_state Z := gets (fun s => u32 (ram s + ptr)).
Definition mem_to_ptr (mem : Z) : M mem_state Z := gets (fun s => u32 (mem - ram s)).

(** ** Start *)

Definition LWIP_MEM_ALIGN (addr : Z) : Z := Z.land (u32 (addr + MEM_ALIGNMENT - 1)) (Z.lnot (MEM_ALIGNMENT - 1)).

Definition mem_init : M mem_state unit :=
  let r := LWIP_MEM_ALIGN ram_heap in
  modify (fun s => MemState (bytes s) r (ram_end s) (lfree s) (mem_free_count s));;
  set_next r MEM_SIZE_ALIGNED;;
  set_prev r 0;;
  set_used r 0;;
  e ← ptr_to_mem MEM_SIZE_ALIGNED;
  modify (fun s => MemState (bytes s) (ram s) e (lfree s) (mem_free_count s));;
  set_used e 1;;
  set_next e MEM_SIZE_ALIGNED;;
  set_prev e MEM_SIZE_ALIGNED;;
  modify (set_lfree r).

(** ** Giving back *)

(** if (next != MEM_SIZE_ALIGNED) ptr_to_mem(next)->prev = ptr *)
Definition link_back (next ptr : Z) : M mem_state unit :=
  if negb (next =? MEM_SIZE_ALIGNED) then n ← ptr_to_mem next; set_prev n ptr else mret tt.

Definition plug_forward (mem : Z) : M mem_state unit :=
  next ← get_next mem;
  nmem ← ptr_to_mem next;
  if mem =? nmem then mret tt
  else
    used ← get_used nmem;
    s ← get;
    if (used =? 0) && negb (nmem =? ram_end s) then
      modify (fun s => if lfree s =? nmem then set_lfree mem s else s);;
      nnext ← get_next nmem;
      set_next mem nnext;;
      ptr ← mem_to_ptr mem;
      link_back nnext ptr
    else mret tt.
Definition plug_backward (mem : Z) : M mem_state unit :=
  prev ← get_prev mem;
  pmem ← ptr_to_mem prev;
  if pmem =? mem then mret tt
  else
    used ← get_used pmem;
    if used =? 0 then
      modify (fun s => if lfree s =? mem then set_lfree pmem s else s);;
      next ← get_next mem;
      set_next pmem next;;
      ptr ← mem_to_ptr pmem;
      link_back next ptr
    else mret tt.
Definition plug_holes (mem : Z) : M mem_state unit := plug_forward mem;; plug_backward mem.

Definition mem_link_valid (mem : Z) : M mem_state bool :=
  rmem_idx ← mem_to_ptr mem;
  next ← get_next mem;
  nmem ← ptr_to_mem next;
  prev ← get_prev mem;
  pmem ← ptr_to_mem prev;
  if (MEM_SIZE_ALIGNED <? next) || (MEM_SIZE_ALIGNED <? prev) then mret false
  else
    unlinked ← (if prev =? rmem_idx then mret false else pnext ← get_next pmem; mret (negb (pnext =? rmem_idx)));
    if (unlinked : bool) then mret false
    else
      s ← get;
      if nmem =? ram_end s then mret true
      else nprev ← get_prev nmem; mret (nprev =? rmem_idx).

(** NULL is [None]. *)
Definition mem_free (rmem : option Z) : M mem_state unit :=
  match rmem with
  | None => mret tt
  | Some rmem =>
      if negb (Z.land rmem (MEM_ALIGNMENT - 1) =? 0) then mret tt
      else
        let mem := u32 (rmem - SIZEOF_STRUCT_MEM) in
        s ← get;
        if (mem <? ram s) || (ram_end s <? u32 (rmem + MIN_SIZE_ALIGNED)) then mret tt
        else
          used ← get_used mem;
          if used =? 0 then mret tt
          else
            valid ← mem_link_valid mem;
            if negb valid then mret tt
            else
              set_used mem 0;;
              modify (fun s => if mem <? lfree s then set_lfree mem s else s);;
              plug_holes mem;;
              modify (set_mem_free_count 1)
  end.

(** The size asked for, rounded up; [None] when it is too large. *)
Definition block_size (size_in : Z) : option Z :=
  let size := u32 (LWIP_MEM_ALIGN_SIZE size_in) in
  let size := if size <? MIN_SIZE_ALIGNED then MIN_SIZE_ALIGNED else size in
  if (MEM_SIZE_ALIGNED <? size) || (size <? size_in) then None else Some size.

(** mem_trim between SYS_ARCH_PROTECT and SYS_ARCH_UNPROTECT: [mem] at [ptr], with
    [size] bytes of data, keeps [newsize]. *)
Definition trim_split (mem ptr size newsize : Z) : M mem_state unit :=
  let ptr2 := u32 (ptr + SIZEOF_STRUCT_MEM + newsize) in
  next ← get_next mem;
  mem2 ← ptr_to_mem next;
  used2 ← get_used mem2;
  (if used2 =? 0 then
     next ← get_next mem2;
     m2 ← ptr_to_mem ptr2;
     modify (fun s => if lfree s =? mem2 then set_lfree m2 s else s);;
     set_used m2 0;; set_next m2 next;; set_prev m2 ptr;; set_next mem ptr2;; link_back next ptr2
   else if u32 (newsize + SIZEOF_STRUCT_MEM + MIN_SIZE_ALIGNED) <=? size then
     m2 ← ptr_to_mem ptr2;
     modify (fun s => if m2 <? lfree s then set_lfree m2 s else s);;
     set_used m2 0;; set_next m2 next;; set_prev m2 ptr;; set_next mem ptr2;; link_back next ptr2
   else mret tt);;
  modify (set_mem_free_count 1).

Definition mem_trim (rmem new_size : Z) : M mem_state (option Z) :=
  match block_size new_size with
  | None => mret None
  | Some newsize =>
      s ← get;
      if (rmem <? ram s) || (ram_end s <=? rmem) then mret (Some rmem)
      else
        let mem := u32 (rmem - SIZEOF_STRUCT_MEM) in
        ptr ← mem_to_ptr mem;
        next ← get_next mem;
        let size := u32 (u32 (next - ptr) - SIZEOF_STRUCT_MEM) in
        if size <? newsize then mret None
        else if newsize =? size then mret (Some rmem)
        else trim_split mem ptr size newsize;; mret (Some rmem)
  end.

(** ** Allocation *)

(** Where mem_malloc stands when it lets interrupts in: in the search, before it
    looks at the struct at [ptr]; while it looks for the next free struct behind
    [mem], which it has taken, at [cur]; or at its end. *)
Inductive malloc_pc :=
  | Search (ptr : Z)
  | Adjust (mem cur : Z)
  | Return (r : option Z).

(** The test of the for loop and its body up to SYS_ARCH_UNPROTECT. *)
Definition malloc_scan (size ptr : Z) : M mem_state malloc_pc :=
  if ptr <? u32 (MEM_SIZE_ALIGNED - size) then modify (set_mem_free_count 0);; mret (Search ptr)
  else mret (Return None).
Definition malloc_restart (size : Z) : M mem_state malloc_pc :=
  s ← get;
  ptr ← mem_to_ptr (lfree s);
  malloc_scan size ptr.

(** The test of the while loop that moves lfree. *)
Definition malloc_adjust (mem cur : Z) : M mem_state malloc_pc :=
  used ← get_used cur;
  s ← get;
  if negb (used =? 0) && negb (cur =? ram_end s) then modify (set_mem_free_count 0);; mret (Adjust mem cur)
  else modify (set_lfree cur);; mret (Return (Some (u32 (mem + SIZEOF_STRUCT_MEM)))).
(** mem_malloc_adjust_lfree *)
Definition mem_malloc_adjust_lfree (mem : Z) : M mem_state malloc_pc :=
  s ← get;
  if mem =? lfree s then malloc_adjust mem (lfree s)
  else mret (Return (Some (u32 (mem + SIZEOF_STRUCT_MEM)))).

(** The struct at [ptr] is taken, and split if it is much larger. *)
Definition malloc_take (size ptr : Z) : M mem_state malloc_pc :=
  mem ← ptr_to_mem ptr;
  next ← get_next mem;
  (if u32 (size + SIZEOF_STRUCT_MEM + MIN_SIZE_ALIGNED) <=? u32 (next - u32 (ptr + SIZEOF_STRUCT_MEM)) then
     let ptr2 := u32 (ptr + SIZEOF_STRUCT_MEM + size) in
     mem2 ← ptr_to_mem ptr2;
     set_used mem2 0;;
     set_next mem2 next;;
     set_prev mem2 ptr;;
     set_next mem ptr2;;
     set_used mem 1;;
     link_back next ptr2
   else set_used mem 1);;
  mem_malloc_adjust_lfree mem.

(** One section: from SYS_ARCH_PROTECT to the next SYS_ARCH_UNPROTECT. *)
Definition malloc_step (size : Z) (pc : malloc_pc) : M mem_state malloc_pc :=
  s ← get;
  match pc with
  | Search ptr =>
      if negb (mem_free_count s =? 0) then malloc_restart size
      else
        mem ← ptr_to_mem ptr;
        used ← get_used mem;
        next ← get_next mem;
        if (used =? 0) && (size <=? u32 (next - u32 (ptr + SIZEOF_STRUCT_MEM))) then malloc_take size ptr
        else malloc_scan size next
  | Adjust mem cur =>
      if negb (mem_free_count s =? 0) then mem_malloc_adjust_lfree mem
      else
        next ← get_next cur;
        cur ← ptr_to_mem next;
        malloc_adjust mem cur
  | Return r => mret (Return r)
  end.

(** The sections one after the other, nobody in between. *)
Fixpoint malloc_run (fuel : nat) (size : Z) (pc : malloc_pc) : M mem_state (option Z) :=
  match pc, fuel with
  | Return r, _ => mret r
  | _, O => stuck
  | _, S fuel => pc ← malloc_step size pc; malloc_run fuel size pc
  end.

(** The first section; [None] when the size is refused. *)
Definition malloc_start (size_in : Z) : option Z :=
  if size_in =? 0 then None else block_size size_in.
(** At most twice through the structs. *)
Definition malloc_fuel : nat := Z.to_nat 2048.
Definition mem_malloc (size_in : Z) : M mem_state (option Z) :=
  match malloc_start size_in with
  | None => mret None
  | Some size => pc ← malloc_restart size; malloc_run malloc_fuel size pc
  end.

Definition mem_calloc (count size : Z) : M mem_state (option Z) :=
  let alloc_size := u32 (count * size) in
  if negb (u32 alloc_size =? alloc_size) then mret None
  else
    p ← mem_malloc alloc_size;
    match p with
    | Some a => memset a 0 alloc_size;; mret (Some a)
    | None => mret None
    end.

End Mem.
