(* ===== verification/MemInv.v ===== *)
(** * The heap in order

    mem.c sees the heap as structs linked through the memory.  Here it is a list of
    blocks that tile it, [blk], measured in units of MEM_ALIGNMENT bytes: a struct
    takes one unit, its data at least one.  [heap_ok s bl]: the memory of [s] holds
    the blocks [bl].  [release], [shrink] and [allot] are what mem_free, mem_trim
    and mem_malloc do to such a list. *)
From S2P Require Import Prelude Triple Pbuf Mem.

Definition UNITS := 2048.
Lemma units : MEM_SIZE_ALIGNED = 64 * UNITS.
Proof. reflexivity. Qed.

Record blk := Blk { b_at : Z; b_end : Z; b_used : bool }.
(** The data of a block, in bytes. *)
Definition b_size (b : blk) : Z := 64 * (b_end b - b_at b - 1).

(** The blocks lie one behind the other from [k] to [m]. *)
Fixpoint tiles (k : Z) (bl : list blk) (m : Z) : Prop :=
  match bl with
  | [] => k = m
  | b :: r => b_at b = k /\ k + 2 <= b_end b /\ tiles (b_end b) r m
  end.
(** No two free blocks in a row. *)
Fixpoint coalesced (bl : list blk) : Prop :=
  match bl with
  | b :: (c :: _) as r => (b_used b = true \/ b_used c = true) /\ coalesced r
  | _ => True
  end.

Arguments coalesced : simpl never.

(** The fields of the struct at unit [k]. *)
Definition nx (s : mem_state) (k : Z) : Z := word (bytes s) (ram s + 64 * k).
Definition pv (s : mem_state) (k : Z) : Z := word (bytes s) (ram s + 64 * k + 4).
Definition us (s : mem_state) (k : Z) : Z := bytes s (ram s + 64 * k + 8).

Arguments nx : simpl never.
Arguments pv : simpl never.
Arguments us : simpl never.

Fixpoint linked (s : mem_state) (p : Z) (bl : list blk) : Prop :=
  match bl with
  | [] => True
  | b :: r => nx s (b_at b) = 64 * b_end b /\ pv s (b_at b) = 64 * p /\ us s (b_at b) = bool_to_Z (b_used b) /\
      linked s (b_at b) r
  end.
Fixpoint last_at (p : Z) (bl : list blk) : Z := match bl with [] => p | b :: r => last_at (b_at b) r end.

(** lfree is below every free block. *)
Definition lowest (L : Z) (bl : list blk) : Prop :=
  (L = UNITS \/ exists b, b ∈ bl /\ b_at b = L) /\ forall b, b ∈ bl -> b_used b = false -> L <= b_at b.

(** ** Lists of blocks *)

Lemma tiles_app k l r m : tiles k (l ++ r) m <-> exists j, tiles k l j /\ tiles j r m.
Proof.
  revert k. induction l as [|b l IH]; intros k; simpl; [naive_solver|]. setoid_rewrite IH. naive_solver.
Qed.
Lemma tiles_bounds k bl m : tiles k bl m -> k <= m /\ forall b, b ∈ bl -> k <= b_at b /\ b_at b + 2 <= b_end b /\ b_end b <= m.
Proof.
  revert k. induction bl as [|b r IH]; intros k; simpl; [intros ->; split; [lia|]; intros b Hb; inversion Hb|].
  intros (<- & H2 & Hr). destruct (IH _ Hr) as [Hm Hb]. split; [lia|]. intros c [->|Hc]%elem_of_cons; [lia|]. specialize (Hb c Hc). lia.
Qed.
Lemma tiles_mid k l x r m : tiles k (l ++ x :: r) m ->
  k <= b_at x /\ b_at x + 2 <= b_end x /\ b_end x <= m /\ tiles k l (b_at x) /\ tiles (b_end x) r m /\
  (forall b, b ∈ l -> k <= b_at b /\ b_at b + 2 <= b_end b /\ b_end b <= b_at x) /\
  (forall b, b ∈ r -> b_end x <= b_at b /\ b_at b + 2 <= b_end b /\ b_end b <= m).
Proof.
  intros (j & Hl & Hx & H2 & Hr)%tiles_app. subst j. destruct (tiles_bounds _ _ _ Hl) as [? ?]. destruct (tiles_bounds _ _ _ Hr) as [? ?].
  split_and!; try done; lia.
Qed.
Lemma last_at_app p l r : last_at p (l ++ r) = last_at (last_at p l) r.
Proof. revert p. induction l; intros; simpl; auto. Qed.
Lemma linked_app s p l r : linked s p (l ++ r) <-> linked s p l /\ linked s (last_at p l) r.
Proof. revert p. induction l as [|b l IH]; intros p; simpl; [naive_solver|]. rewrite IH. naive_solver. Qed.
(** Only the structs of the blocks count. *)
Lemma linked_frame s s' p bl :
  linked s p bl -> (forall b, b ∈ bl -> nx s' (b_at b) = nx s (b_at b) /\ pv s' (b_at b) = pv s (b_at b) /\ us s' (b_at b) = us s (b_at b)) ->
  linked s' p bl.
Proof.
  revert p. induction bl as [|b r IH]; intros p; simpl; [done|]. intros (H1 & H2 & H3 & Hr) Hf.
  destruct (Hf b) as (-> & -> & ->); [left|]. split; [done|]. split; [done|]. split; [done|]. apply IH; [done|]. intros c Hc. apply Hf. by right.
Qed.

Lemma coalesced_cons b r : coalesced (b :: r) <-> coalesced r /\ (forall c r', r = c :: r' -> b_used b = true \/ b_used c = true).
Proof. unfold coalesced at 1; fold coalesced. destruct r as [|c r]; [split; [done|]|]; naive_solver. Qed.
Lemma coalesced_app l r :
  coalesced (l ++ r) <-> coalesced l /\ coalesced r /\ (forall b l' c r', l = l' ++ [b] -> r = c :: r' -> b_used b = true \/ b_used c = true).
Proof.
  induction l as [|a l IH].
  - simpl. split; [intros ?; split; [done|]; split; [done|]|naive_solver]. intros b l' c r' E. by destruct l'.
  - rewrite <- app_comm_cons, !coalesced_cons, IH. split.
    + intros ((H1 & H2 & H3) & H4). split; [split; [done|]|split; [done|]].
      * intros c r' ->. by apply (H4 c (r' ++ r)).
      * intros b [|a' l'] c r' E1 E2; simplify_eq/=; [by apply (H4 c r')|by apply (H3 b l' c r')].
    + intros ((H1 & H4) & H2 & H3). split; [split; [done|split; [done|]]|].
      * intros b l' c r' -> E2. by apply (H3 b (a :: l') c r').
      * intros c r' E. destruct l as [|a' l]; simplify_eq/=; [by apply (H3 a [] c r')|by apply (H4 c l)].
Qed.

(** The list with runs of free blocks made one. *)
Fixpoint merge (bl : list blk) : list blk :=
  match bl with
  | [] => []
  | b :: r =>
      match merge r with
      | c :: r' => if negb (b_used b) && negb (b_used c) then Blk (b_at b) (b_end c) false :: r' else b :: c :: r'
      | [] => [b]
      end
  end.
Lemma merge_coalesced bl : coalesced bl -> merge bl = bl.
Proof.
  induction bl as [|b r IH]; [done|]. intros [Hr Hb]%coalesced_cons. simpl. rewrite IH by done. destruct r as [|c r']; [done|].
  destruct (Hb c r' eq_refl) as [-> | ->]; simpl; [done|]. by rewrite andb_false_r.
Qed.
Lemma merge_join l x y r :
  b_used x = false -> b_used y = false -> merge (l ++ x :: y :: r) = merge (l ++ Blk (b_at x) (b_end y) false :: r).
Proof.
  intros Hx Hy. induction l as [|b l IH]; [|simpl; by rewrite IH]. simpl. rewrite Hx.
  destruct (merge r) as [|c r']; simpl; rewrite Hy; simpl; [done|]. destruct (b_used c); simpl; by rewrite ?Hy.
Qed.

Section Inv.
Context {RH : RamHeap}.

(** The heap starts at [R]. *)
Record placed (R : Z) (s : mem_state) : Prop := {
  p_ram : ram s = R;
  p_end : ram_end s = R + 64 * UNITS;
  p_lo : ram_heap <= R;
  p_hi : R + 64 * UNITS + 64 <= ram_heap + RAM_HEAP_SIZE;
  p_aligned : R mod 64 = 0;
}.

Record heap_pre (R : Z) (s : mem_state) (bl : list blk) : Prop := {
  h_placed : placed R s;
  h_tiles : tiles 0 bl UNITS;
  h_linked : linked s 0 bl;
  h_end : nx s UNITS = 64 * UNITS /\ us s UNITS = 1;
  h_low : exists L, lfree s = R + 64 * L /\ lowest L bl;
}.
Definition heap_ok (R : Z) (s : mem_state) (bl : list blk) : Prop := heap_pre R s bl /\ coalesced bl.

(** Only the structs of [bl] have been written. *)
Definition in_structs (R : Z) (bl : list blk) (a : Z) : Prop := exists b, b ∈ bl /\ R + 64 * b_at b <= a < R + 64 * b_at b + 64.
Definition writes_structs (R : Z) (bl : list blk) (s s' : mem_state) : Prop := forall a, ~ in_structs R bl a -> bytes s' a = bytes s a.

(** ** Loads and stores *)

Lemma word_put32 a v m : 0 <= v < 4294967296 -> word (put32 a v m) a = v.
Proof.
  intros Hv. unfold word, put32. repeat (rewrite (proj2 (Z.leb_le _ _)) by lia). repeat (rewrite (proj2 (Z.ltb_lt _ _)) by lia). simpl.
  replace (a - a) with 0 by lia. replace (a + 1 - a) with 1 by lia. replace (a + 2 - a) with 2 by lia. replace (a + 3 - a) with 3 by lia.
  change (2 ^ (8 * 0)) with 1. change (2 ^ (8 * 1)) with 256. change (2 ^ (8 * 2)) with 65536. change (2 ^ (8 * 3)) with 16777216. ulia.
Qed.
Lemma put32_at a v m x : x < a \/ a + 4 <= x -> put32 a v m x = m x.
Proof.
  intros H. unfold put32. destruct (Z.leb_spec a x); [|done]. destruct (Z.ltb_spec x (a + 4)); [lia|done].
Qed.
Lemma word_put32_ne a v m x : x + 4 <= a \/ a + 4 <= x -> word (put32 a v m) x = word m x.
Proof. intros H. unfold word. by rewrite !put32_at by lia. Qed.
Lemma word_put8 a v m x : x + 4 <= a \/ a < x -> word (put8 a v m) x = word m x.
Proof. intros H. unfold word, put8. repeat (rewrite (proj2 (Z.eqb_neq _ _)) by lia). done. Qed.
Lemma put8_at a v m x : put8 a v m x = if decide (x = a) then u8 v else m x.
Proof. unfold put8. destruct (Z.eqb_spec x a); case_decide; done. Qed.

(** The states after a store to a field of the struct at [k]. *)
Definition w_next (k v : Z) (s : mem_state) : mem_state := set_bytes (put32 (ram s + 64 * k) v (bytes s)) s.
Definition w_prev (k v : Z) (s : mem_state) : mem_state := set_bytes (put32 (ram s + 64 * k + 4) v (bytes s)) s.
Definition w_used (k v : Z) (s : mem_state) : mem_state := set_bytes (put8 (ram s + 64 * k + 8) v (bytes s)) s.

Arguments w_next : simpl never.
Arguments w_prev : simpl never.
Arguments w_used : simpl never.

Local Ltac at_field := intros; unfold nx, pv, us, w_next, w_prev, w_used; simpl; try case_decide; subst;
  first [rewrite word_put32 by done|rewrite word_put32_ne by lia|rewrite put32_at by lia|rewrite word_put8 by lia|rewrite put8_at];
  try case_decide; try done; lia.
Lemma nx_w_next k v s j : 0 <= v < 4294967296 -> nx (w_next k v s) j = if decide (j = k) then v else nx s j. Proof. at_field. Qed.
Lemma nx_w_prev k v s j : 0 <= v < 4294967296 -> nx (w_prev k v s) j = nx s j. Proof. at_field. Qed.
Lemma nx_w_used k v s j : nx (w_used k v s) j = nx s j. Proof. at_field. Qed.
Lemma pv_w_next k v s j : 0 <= v < 4294967296 -> pv (w_next k v s) j = pv s j. Proof. at_field. Qed.
Lemma pv_w_prev k v s j : 0 <= v < 4294967296 -> pv (w_prev k v s) j = if decide (j = k) then v else pv s j. Proof. at_field. Qed.
Lemma pv_w_used k v s j : pv (w_used k v s) j = pv s j. Proof. at_field. Qed.
Lemma us_w_next k v s j : us (w_next k v s) j = us s j. Proof. at_field. Qed.
Lemma us_w_prev k v s j : us (w_prev k v s) j = us s j. Proof. at_field. Qed.
Lemma us_w_used k v s j : us (w_used k v s) j = if decide (j = k) then u8 v else us s j. Proof. at_field. Qed.

Lemma placed_bounds R s : placed R s -> 0 < R /\ R + 64 * UNITS + 64 < 4294967296 /\ R mod 64 = 0.
Proof. intros []. pose proof ram_heap_pos. pose proof ram_heap_fits. lia. Qed.
Lemma placed_same R s s' : placed R s -> ram s' = ram s -> ram_end s' = ram_end s -> placed R s'.
Proof. intros [] E1 E2. constructor; congruence. Qed.

Section Runs.
Context (R : Z) (s : mem_state) (k : Z) (Hp : placed R s) (Hk : 0 <= k <= UNITS).

Lemma at_heap i n : 0 <= i -> 0 <= n -> i + n <= 64 -> in_ram_heap (R + 64 * k + i) n = true.
Proof using Hp Hk. destruct Hp. intros. unfold in_ram_heap. apply andb_true_iff. split; apply Z.leb_le; lia. Qed.
Lemma at_heap0 n : 0 <= n <= 64 -> in_ram_heap (R + 64 * k) n = true.
Proof using Hp Hk. intros. rewrite <- (Z.add_0_r (R + 64 * k)). apply at_heap; lia. Qed.

Lemma get_next_run : get_next (R + 64 * k) s = Some (nx s k, s).
Proof using Hp Hk. unfold get_next, load32. rewrite bind_get, at_heap0 by lia. unfold nx. by rewrite (p_ram _ _ Hp). Qed.
Lemma get_prev_run : get_prev (R + 64 * k) s = Some (pv s k, s).
Proof using Hp Hk. unfold get_prev, load32. rewrite bind_get, at_heap by lia. unfold pv. by rewrite (p_ram _ _ Hp). Qed.
Lemma get_used_run : get_used (R + 64 * k) s = Some (us s k, s).
Proof using Hp Hk. unfold get_used, load8. rewrite bind_get, at_heap by lia. unfold us. by rewrite (p_ram _ _ Hp). Qed.
Lemma set_next_run v : set_next (R + 64 * k) v s = Some (tt, w_next k v s).
Proof using Hp Hk. unfold set_next, store32. rewrite at_heap0 by lia. unfold w_next. by rewrite (p_ram _ _ Hp). Qed.
Lemma set_prev_run v : set_prev (R + 64 * k) v s = Some (tt, w_prev k v s).
Proof using Hp Hk. unfold set_prev, store32. rewrite at_heap by lia. unfold w_prev. by rewrite (p_ram _ _ Hp). Qed.
Lemma set_used_run v : set_used (R + 64 * k) v s = Some (tt, w_used k v s).
Proof using Hp Hk. unfold set_used, store8. rewrite at_heap by lia. unfold w_used. by rewrite (p_ram _ _ Hp). Qed.
Lemma ptr_to_mem_run : ptr_to_mem (64 * k) s = Some (R + 64 * k, s).
Proof using Hp Hk. destruct (placed_bounds _ _ Hp). unfold ptr_to_mem, gets. rewrite (p_ram _ _ Hp), u32_small by lia. done. Qed.
Lemma mem_to_ptr_run : mem_to_ptr (R + 64 * k) s = Some (64 * k, s).
Proof using Hp Hk. unfold mem_to_ptr, gets, UNITS in *. rewrite (p_ram _ _ Hp), u32_small by lia. do 2 f_equal. lia. Qed.
End Runs.

(** lfree has not moved, or points to a free block. *)
Definition low_kept (R : Z) (bl : list blk) (s s' : mem_state) : Prop :=
  lfree s' = lfree s \/ exists b, b ∈ bl /\ b_used b = false /\ lfree s' = R + 64 * b_at b.

(** ** The blocks mem_free, mem_trim and mem_malloc leave *)


Definition with_block (k : Z) (f : blk -> list blk) (bl : list blk) : list blk :=
  mbind (fun b => if b_at b =? k then f b else [b]) bl.
(** The block at [k] becomes free. *)
Definition release (k : Z) (bl : list blk) : list blk := merge (with_block k (fun b => [Blk (b_at b) (b_end b) false]) bl).

Lemma with_block_mid f l x r : tiles 0 (l ++ x :: r) UNITS -> with_block (b_at x) f (l ++ x :: r) = l ++ f x ++ r.
Proof.
  intros Ht. apply tiles_mid in Ht as (_ & ? & _ & _ & _ & Hl & Hr). unfold with_block. rewrite bind_app. simpl. rewrite Z.eqb_refl.
  assert (forall l, (forall b, b ∈ l -> b_at b <> b_at x) -> (l ≫= fun b => if b_at b =? b_at x then f b else [b]) = l) as Hid.
  { clear. induction l as [|b l IH]; [done|]. intros H. simpl. rewrite (proj2 (Z.eqb_neq _ _)) by (apply H; left). simpl. f_equal. apply IH. intros c Hc. apply H. by right. }
  rewrite !Hid; [done|..]; intros b Hb; [specialize (Hr b Hb)|specialize (Hl b Hb)]; lia.
Qed.

(** The block at [k] keeps [u] units of data; what is behind becomes free, unless a
    struct alone would be left. *)
Definition cut_at (k u : Z) (bl : list blk) : list blk :=
  merge (with_block k (fun b => [Blk (b_at b) (k + 1 + u) true; Blk (k + 1 + u) (b_end b) false]) bl).
Definition tiny (b : blk) : Prop := b_end b <= b_at b + 1.
#[global] Instance tiny_dec b : Decision (tiny b) := decide (b_end b <= b_at b + 1).
Definition shrink (k u : Z) (bl : list blk) : list blk := if decide (Exists tiny (cut_at k u bl)) then bl else cut_at k u bl.

(** ** Sizes *)

(** The units of data for [n] bytes. *)
Definition units_of (n : Z) : Z := Z.max 1 ((n + 63) / 64).
Lemma align_units n : LWIP_MEM_ALIGN_SIZE n = 64 * ((n + 63) / 64).
Proof.
  unfold LWIP_MEM_ALIGN_SIZE, MEM_ALIGNMENT. replace (n + 64 - 1) with (n + 63) by lia. change (64 - 1) with (Z.ones 6).
  rewrite <- Z.ldiff_land, Z.ldiff_ones_r by done. rewrite Z.shiftl_mul_pow2, Z.shiftr_div_pow2 by done. change (2 ^ 6) with 64. lia.
Qed.
Lemma block_size_units n : 0 <= n < 4294967296 ->
  block_size n = if MEM_SIZE_ALIGNED <? n then None else Some (64 * units_of n).
Proof.
  intros Hn. unfold block_size, units_of. rewrite align_units. change MIN_SIZE_ALIGNED with 64. change MEM_SIZE_ALIGNED with 131072.
  destruct (Z.ltb_spec 131072 n) as [Hl|Hl].
  - destruct (Z.ltb_spec (u32 (64 * ((n + 63) / 64))) 64); [by rewrite (proj2 (Z.ltb_lt 64 n)) by lia|].
    destruct (Z.ltb_spec 131072 (u32 (64 * ((n + 63) / 64)))); [done|]. rewrite (proj2 (Z.ltb_lt _ _)); [done|]. ulia.
  - rewrite u32_small by ulia. destruct (Z.ltb_spec (64 * ((n + 63) / 64)) 64).
    + rewrite Z.max_l by lia. rewrite !(proj2 (Z.ltb_ge _ _)) by ulia. done.
    + rewrite Z.max_r by lia. rewrite !(proj2 (Z.ltb_ge _ _)) by ulia. done.
Qed.

(** ** Two blocks made one *)



Definition lower (a b : Z) (s : mem_state) : mem_state := if lfree s =? a then set_lfree b s else s.
Definition relink (r : list blk) (v : Z) (s : mem_state) : mem_state :=
  match r with [] => s | z :: _ => w_prev (b_at z) (64 * v) s end.

Lemma link_back_run R s k r v :
  placed R s -> tiles k r UNITS -> 0 <= k -> link_back (64 * k) (64 * v) s = Some (tt, relink r v s).
Proof.
  intros Hp Ht Hk. unfold link_back. destruct (tiles_bounds _ _ _ Ht) as [Hm _]. destruct r as [|z r]; simpl in Ht.
  - subst k. done.
  - destruct Ht as (<- & H2 & Ht). destruct (tiles_bounds _ _ _ Ht) as [Hm' _].
    rewrite (proj2 (Z.eqb_neq _ _)) by (rewrite units; lia). simpl. mrun (ptr_to_mem_run R s (b_at z) Hp ltac:(lia)). by apply set_prev_run; [|lia].
Qed.

Definition is_head (r : list blk) (j : Z) : bool := match r with z :: _ => bool_decide (j = b_at z) | [] => false end.
Lemma nx_relink r v s j : 0 <= v <= UNITS -> nx (relink r v s) j = nx s j.
Proof. intros. unfold UNITS in *. destruct r; [done|]. simpl. by rewrite nx_w_prev by lia. Qed.
Lemma us_relink r v s j : us (relink r v s) j = us s j.
Proof. destruct r; [done|]. simpl. by rewrite us_w_prev. Qed.
Lemma pv_relink r v s j : 0 <= v <= UNITS -> pv (relink r v s) j = if is_head r j then 64 * v else pv s j.
Proof.
  intros. unfold UNITS in *. destruct r as [|z r]; [done|]. simpl. rewrite pv_w_prev by lia.
  repeat case_decide; try done; case_bool_decide; done.
Qed.
Lemma is_head_false r k j m : tiles k r m -> j < k -> is_head r j = false.
Proof. destruct r as [|z r]; [done|]. simpl. intros (? & _) ?. apply bool_decide_eq_false_2. lia. Qed.
Lemma relink_same r v s : ram (relink r v s) = ram s /\ ram_end (relink r v s) = ram_end s /\ lfree (relink r v s) = lfree s /\ mem_free_count (relink r v s) = mem_free_count s.
Proof. by destruct r. Qed.
Lemma relink_bytes R r v s bl : ram s = R -> (forall z r', r = z :: r' -> z ∈ bl) -> writes_structs R bl s (relink r v s).
Proof.
  intros HR Hz a Ha. destruct r as [|z r]; [done|]. simpl. apply put32_at.
  destruct (decide (R + 64 * b_at z <= a < R + 64 * b_at z + 64)) as [H|H]; [|subst R; lia]. exfalso. apply Ha. exists z. split; [by eapply Hz|done].
Qed.

(** The blocks [m1] in the middle become [m2]. *)
Lemma replace_ok R s s' l m1 m2 r k1 k2 :
  heap_pre R s (l ++ m1 ++ r) -> placed R s' -> tiles k1 m1 k2 -> tiles k1 m2 k2 -> m1 <> [] ->
  (forall j, j < k1 \/ k2 <= j -> nx s' j = nx s j /\ us s' j = us s j /\ pv s' j = if is_head r j then 64 * last_at 0 m2 else pv s j) ->
  (forall p, last_at p m2 = last_at 0 m2) -> linked s' (last_at 0 l) m2 ->
  (exists L, lfree s' = R + 64 * L /\ lowest L (l ++ m2 ++ r)) ->
  heap_pre R s' (l ++ m2 ++ r).
Proof.
  intros [_ Ht Hl He _] Hp Ht1 Ht2 Hne Hf Hlast Hm2 Hlow.
  apply tiles_app in Ht as (j1 & Htl & (j2 & Htm & Htr)%tiles_app).
  assert (j1 = k1 /\ j2 = k2) as [-> ->].
  { assert (j1 = k1) as -> by (destruct m1; [done|]; simpl in *; lia). split; [done|]. clear -Htm Ht1. revert k1 Htm Ht1.
    induction m1 as [|b m IH]; intros k; simpl; [congruence|]. intros (_ & _ & ?) (_ & _ & ?). by apply (IH (b_end b)). }
  destruct (tiles_bounds _ _ _ Htl) as [_ Hbl]. destruct (tiles_bounds _ _ _ Htr) as [Hk2 Hbr]. destruct (tiles_bounds _ _ _ Ht2) as [Hk12 _].
  apply linked_app in Hl as [Hl [_ Hr]%linked_app]. split; [done|..|done].
  - apply tiles_app. exists k1. split; [done|]. apply tiles_app. by exists k2.
  - apply linked_app. split; [|apply linked_app; split; [done|rewrite Hlast]].
    + apply (linked_frame s); [done|]. intros b Hb. specialize (Hbl b Hb). destruct (Hf (b_at b) ltac:(lia)) as (-> & -> & ->).
      by rewrite (is_head_false r k2 (b_at b) UNITS) by (done || lia).
    + destruct r as [|z r]; [done|]. simpl in Htr, Hr |- *. destruct Htr as (Ez & Hz & Htr). destruct Hr as (H1 & _ & H3 & Hr).
      destruct (Hf (b_at z) ltac:(lia)) as (-> & -> & ->). simpl. rewrite bool_decide_eq_true_2 by done. split; [done|]. split; [done|]. split; [done|].
      apply (linked_frame s); [done|]. intros b Hb. destruct (tiles_bounds _ _ _ Htr) as [_ Hbz]. specialize (Hbz b Hb).
      destruct (Hf (b_at b) ltac:(lia)) as (-> & -> & ->). simpl. rewrite bool_decide_eq_false_2 by lia. done.
  - by destruct (Hf UNITS ltac:(lia)) as (-> & -> & _).
Qed.

Definition join (R : Z) (x y : blk) (r : list blk) (s : mem_state) : mem_state :=
  relink r (b_at x) (w_next (b_at x) (64 * b_end y) (lower (R + 64 * b_at y) (R + 64 * b_at x) s)).

Lemma lower_id R s l x y r :
  heap_pre R s (l ++ x :: y :: r) -> b_used x = false -> lower (R + 64 * b_at y) (R + 64 * b_at x) s = s.
Proof.
  intros [_ Ht _ _ (L & HL & _ & Hfree)] Hx. unfold lower. rewrite HL. destruct (Z.eqb_spec (R + 64 * L) (R + 64 * b_at y)); [|done].
  specialize (Hfree x ltac:(set_solver) Hx). apply tiles_mid in Ht as (_ & ? & _ & _ & (? & _) & _). lia.
Qed.

Lemma lowest_join L l x y r :
  tiles 0 (l ++ x :: y :: r) UNITS -> b_used x = false -> lowest L (l ++ x :: y :: r) -> lowest L (l ++ Blk (b_at x) (b_end y) false :: r).
Proof.
  intros Ht Hx [Hat Hfree]. split.
  - destruct Hat as [?|(b & Hb & <-)]; [by left|]. right. apply elem_of_app in Hb as [Hb|[->|[->|Hb]%elem_of_cons]%elem_of_cons].
    + exists b. split; [set_solver|done].
    + exists (Blk (b_at x) (b_end y) false). split; [set_solver|done].
    + specialize (Hfree x ltac:(set_solver) Hx). apply tiles_mid in Ht as (_ & ? & _ & _ & (? & _) & _). lia.
    + exists b. split; [set_solver|done].
  - intros b Hb Hu. apply elem_of_app in Hb as [Hb|[->|Hb]%elem_of_cons]; [apply Hfree; [set_solver|done]|by apply (Hfree x ltac:(set_solver))|apply Hfree; [set_solver|done]].
Qed.

Ltac fields := repeat first [rewrite nx_relink by done|rewrite us_relink|rewrite pv_relink by done|rewrite nx_w_next by done|rewrite pv_w_next by done
  |rewrite us_w_next|rewrite nx_w_prev by done|rewrite pv_w_prev by done|rewrite us_w_prev|rewrite nx_w_used|rewrite pv_w_used|rewrite us_w_used].

(** What the stores do to the bytes elsewhere. *)
Lemma w_next_bytes R k v s a : ram s = R -> ~ (R + 64 * k <= a < R + 64 * k + 64) -> bytes (w_next k v s) a = bytes s a.
Proof. intros HR Ha. apply put32_at. rewrite HR. lia. Qed.
Lemma w_prev_bytes R k v s a : ram s = R -> ~ (R + 64 * k <= a < R + 64 * k + 64) -> bytes (w_prev k v s) a = bytes s a.
Proof. intros HR Ha. apply put32_at. rewrite HR. lia. Qed.
Lemma w_used_bytes R k v s a : ram s = R -> ~ (R + 64 * k <= a < R + 64 * k + 64) -> bytes (w_used k v s) a = bytes s a.
Proof. intros HR Ha. simpl. rewrite put8_at, HR, decide_False by lia. done. Qed.

(** The middle becomes a used block up to [p] and a free one behind. *)
Lemma carve_ok R s s' l x mm r e p :
  heap_pre R s (l ++ (x :: mm) ++ r) -> tiles (b_at x) (x :: mm) e -> b_at x + 2 <= p -> p + 2 <= e -> placed R s' ->
  (forall j, nx s' j = if decide (j = b_at x) then 64 * p else if decide (j = p) then 64 * e else nx s j) ->
  (forall j, pv s' j = if is_head r j then 64 * p else if decide (j = p) then 64 * b_at x else pv s j) ->
  (forall j, us s' j = if decide (j = b_at x) then 1 else if decide (j = p) then 0 else us s j) ->
  (exists L, lfree s' = R + 64 * L /\ lowest L (l ++ Blk (b_at x) p true :: Blk p e false :: r)) ->
  heap_pre R s' (l ++ Blk (b_at x) p true :: Blk p e false :: r).
Proof.
  intros H Ht Hxp Hpe Hp' Hn Hpv Hu Hlow. pose proof H as [_ Hti Hl _ _].
  assert (tiles e r UNITS) as Hr.
  { clear -Hti Ht. apply tiles_app in Hti as (j1 & _ & (j2 & H1 & H2)%tiles_app). simpl in H1, Ht. destruct H1 as (_ & _ & H1), Ht as (_ & _ & Ht).
    enough (j2 = e) as -> by done. revert H1 Ht. generalize (b_end x). induction mm as [|b mm IH]; intros k; simpl; [congruence|].
    intros (_ & _ & ?) (_ & _ & ?). by apply (IH (b_end b)). }
  apply (replace_ok R s s' l (x :: mm) [Blk (b_at x) p true; Blk p e false] r (b_at x) e); try done.
  - intros j Hj. rewrite Hn, Hpv, Hu. rewrite !(decide_False (P := j = b_at x)), !(decide_False (P := j = p)) by lia. done.
  - apply linked_app in Hl as [_ (_ & Hpx & _)]. simpl. rewrite !Hn, !Hpv, !Hu.
    rewrite !(is_head_false r e _ UNITS) by (done || lia). rewrite !(decide_True (P := b_at x = b_at x)), !(decide_True (P := p = p)) by done.
    rewrite !(decide_False (P := p = b_at x)), !(decide_False (P := b_at x = p)) by lia. done.
Qed.

Lemma join_ok R s l x y r :
  heap_pre R s (l ++ x :: y :: r) -> b_used x = false -> b_used y = false ->
  heap_pre R (join R x y r s) (l ++ Blk (b_at x) (b_end y) false :: r) /\ writes_structs R (l ++ x :: y :: r) s (join R x y r s).
Proof.
  intros H Hx Hy. unfold join. rewrite (lower_id R s l x y r) by done. pose proof H as [Hp Ht Hl _ (L & HL & Hlow)].
  pose proof (tiles_mid _ _ _ _ _ Ht) as (H0 & H2 & _ & _ & (Hxy & Hy2 & Htr) & _ & _). destruct (tiles_bounds _ _ _ Htr) as [Hym _].
  assert (0 <= b_at x <= UNITS) as Hbx by lia. assert (0 <= 64 * b_end y < 4294967296) as Hey by (unfold UNITS in *; lia).
  destruct (relink_same r (b_at x) (w_next (b_at x) (64 * b_end y) s)) as (S1 & S2 & S3 & _).
  split.
  - apply (replace_ok R s _ l [x; y] [Blk (b_at x) (b_end y) false] r (b_at x) (b_end y)); try done.
    + by apply (placed_same R s).
    + simpl. split_and!; done || lia.
    + intros j Hj. fields. rewrite decide_False by lia. done.
    + apply linked_app in Hl as [_ (_ & Hpv & Hu & _)]. simpl. fields. rewrite decide_True by done.
      rewrite (is_head_false r (b_end y) (b_at x) UNITS) by (done || lia). rewrite Hu, Hx. done.
    + exists L. rewrite S3. split; [done|]. by apply (lowest_join L l x y r).
  - intros a Ha. rewrite (relink_bytes R r (b_at x) (w_next (b_at x) (64 * b_end y) s) (l ++ x :: y :: r)); [|apply Hp|intros z r' ->; set_solver|done].
    simpl. apply put32_at. destruct (decide (R + 64 * b_at x <= a < R + 64 * b_at x + 64)) as [Hin|Hin]; [|rewrite (p_ram _ _ Hp); lia].
    destruct Ha. exists x. split; [set_solver|done].
Qed.

End Inv.

(** The fields after a run of stores. *)
Ltac fields := repeat first [rewrite nx_relink by done|rewrite us_relink|rewrite pv_relink by done|rewrite nx_w_next by done|rewrite pv_w_next by done
  |rewrite us_w_next|rewrite nx_w_prev by done|rewrite pv_w_prev by done|rewrite us_w_prev|rewrite nx_w_used|rewrite pv_w_used|rewrite us_w_used].
