(* ===== verification/MemOps.v ===== *)
(** * The heap: giving back and shrinking blocks *)
From S2P Require Import Prelude Triple Pbuf Mem MemInv.

Section Ops.
Context {RH : RamHeap}.

Lemma bind_modify {S A} (f : S -> S) (k : unit -> M S A) s : (modify f ≫= k) s = k tt (f s).
Proof. done. Qed.

(** The fields of a block in the middle. *)
Lemma mid_fields R s l x r : heap_pre R s (l ++ x :: r) ->
  placed R s /\ 0 <= b_at x < UNITS /\ b_at x + 2 <= b_end x <= UNITS /\
  nx s (b_at x) = 64 * b_end x /\ pv s (b_at x) = 64 * last_at 0 l /\ us s (b_at x) = bool_to_Z (b_used x) /\ tiles (b_end x) r UNITS.
Proof.
  intros [Hp Ht Hl _ _]. apply tiles_mid in Ht as (? & ? & ? & _ & ? & _). apply linked_app in Hl as [_ (? & ? & ? & _)].
  split_and!; done || lia.
Qed.

Lemma mid_next R s l x y r : heap_pre R s (l ++ x :: y :: r) -> heap_pre R s ((l ++ [x]) ++ y :: r).
Proof. by rewrite <- app_assoc. Qed.

(** The counter is nobody's. *)
Lemma heap_pre_count R s bl v : heap_pre R s bl -> heap_pre R (set_mem_free_count v s) bl.
Proof. intros []. split; [by apply (placed_same R s)|done|by apply (linked_frame s)|done..]. Qed.
Lemma heap_ok_count R s bl v : heap_ok R s bl -> heap_ok R (set_mem_free_count v s) bl.
Proof. intros [? ?]. split; [by apply heap_pre_count|done]. Qed.

Lemma coalesced_free x r : b_used x = false -> coalesced (x :: r) <-> coalesced r /\ forall c r', r = c :: r' -> b_used c = true.
Proof. intros Hx. rewrite coalesced_cons, Hx. naive_solver. Qed.

Lemma bool_to_Z_0 b : (bool_to_Z b =? 0) = negb b.
Proof. by destruct b. Qed.

(** What a section leaves alone. *)
Record same_heap (R : Z) (bl : list blk) (s s' : mem_state) : Prop := {
  same_data : writes_structs R bl s s';
  same_low : lfree s' = lfree s;
  same_count : mem_free_count s' = mem_free_count s;
  same_used j : us s' j = us s j;
}.
Lemma same_heap_refl R bl s : same_heap R bl s s.
Proof. split; [intros ? _|..]; done. Qed.
Lemma same_heap_trans R bl bl' s1 s2 s3 :
  same_heap R bl s1 s2 -> same_heap R bl' s2 s3 -> (forall b, b ∈ bl' -> exists c, c ∈ bl /\ b_at c = b_at b) -> same_heap R bl s1 s3.
Proof.
  intros [D1 L1 C1 U1] [D2 L2 C2 U2] Hsub. split; [|congruence|congruence|intros j; by rewrite U2, U1]. intros a Ha. rewrite D2, D1; [done|done|].
  intros (b & Hb & Hin). destruct (Hsub b Hb) as (c & Hc & Ec). apply Ha. exists c. rewrite Ec. done.
Qed.

Lemma join_same R s l x y r :
  heap_pre R s (l ++ x :: y :: r) -> b_used x = false -> b_used y = false ->
  heap_pre R (join R x y r s) (l ++ Blk (b_at x) (b_end y) false :: r) /\ same_heap R (l ++ x :: y :: r) s (join R x y r s).
Proof.
  intros H Hx Hy. destruct (join_ok R s l x y r H Hx Hy) as [H1 H2]. split; [done|]. split; [done|..]; intros; unfold join; rewrite (lower_id R s l x y r H Hx);
    [by destruct (relink_same r (b_at x) (w_next (b_at x) (64 * b_end y) s)) as (_ & _ & ? & ?)..|by rewrite us_relink, us_w_next].
Qed.

(** The stores that join [x] and [y]. *)
Lemma join_run R s l x y r :
  heap_pre R s (l ++ x :: y :: r) -> b_used x = false ->
  (modify (fun s => if lfree s =? R + 64 * b_at y then set_lfree (R + 64 * b_at x) s else s);;
   nnext ← get_next (R + 64 * b_at y);
   set_next (R + 64 * b_at x) nnext;;
   ptr ← mem_to_ptr (R + 64 * b_at x);
   link_back nnext ptr) s = Some (tt, join R x y r s).
Proof.
  intros H Hx. unfold join. change (if lfree s =? R + 64 * b_at y then _ else s) with (lower (R + 64 * b_at y) (R + 64 * b_at x) s).
  rewrite bind_modify. fold (lower (R + 64 * b_at y) (R + 64 * b_at x) s). rewrite (lower_id R s l x y r) by done.
  destruct (mid_fields R s l x (y :: r) H) as (Hp & Hx1 & Hx2 & _). apply mid_next in H.
  destruct (mid_fields R s (l ++ [x]) y r H) as (_ & Hy1 & Hy2 & Hn & _ & _ & Htr).
  mrun (get_next_run R s (b_at y) Hp ltac:(lia)). rewrite Hn. mrun (set_next_run R s (b_at x) Hp ltac:(lia) (64 * b_end y)).
  assert (placed R (w_next (b_at x) (64 * b_end y) s)) as Hp' by by apply (placed_same R s).
  mrun (mem_to_ptr_run R _ (b_at x) Hp' ltac:(lia)). by apply (link_back_run R); [| |lia].
Qed.

Lemma plug_forward_run R s l x r :
  heap_pre R s (l ++ x :: r) -> b_used x = false -> coalesced r ->
  exists e r' s', plug_forward (R + 64 * b_at x) s = Some (tt, s') /\ heap_pre R s' (l ++ Blk (b_at x) e false :: r') /\
    coalesced (Blk (b_at x) e false :: r') /\ merge (l ++ Blk (b_at x) e false :: r') = merge (l ++ x :: r) /\
    same_heap R (l ++ x :: r) s s' /\ (forall b, b ∈ r' -> b ∈ r).
Proof.
  intros H Hx Hr. destruct (mid_fields R s l x r H) as (Hp & Hx1 & Hx2 & Hn & _ & _ & Htr). unfold plug_forward.
  mrun (get_next_run R s (b_at x) Hp ltac:(lia)). rewrite Hn. mrun (ptr_to_mem_run R s (b_end x) Hp ltac:(lia)).
  rewrite (proj2 (Z.eqb_neq _ _)) by lia. mrun (get_used_run R s (b_end x) Hp ltac:(lia)). rewrite bind_get, (p_end _ _ Hp).
  assert (Blk (b_at x) (b_end x) false = x) as Ex by (destruct x; simpl in *; by subst).
  destruct r as [|y r].
  - simpl in Htr. rewrite Htr, (proj2 (h_end _ _ _ H)). simpl. exists (b_end x), [], s. rewrite Ex.
    split; [done|]. split; [done|]. split; [done|]. split; [done|]. split; [apply same_heap_refl|done].
  - pose proof H as H'. apply mid_next in H'. destruct (mid_fields R s (l ++ [x]) y r H') as (_ & Hy1 & Hy2 & _ & _ & Hu & Htr').
    destruct Htr as (Exy & _ & _). rewrite <- Exy, Hu, bool_to_Z_0. rewrite (proj2 (Z.eqb_neq (R + _) (R + 64 * UNITS))) by lia.
    destruct (b_used y) eqn:Hy; simpl.
    + exists (b_end x), (y :: r), s. rewrite Ex. split; [done|]. split; [done|]. split; [|split; [done|split; [apply same_heap_refl|done]]].
      apply coalesced_free; [done|]. split; [done|]. by intros ? ? [= <- <-].
    + destruct (join_same R s l x y r H Hx Hy) as [Hj Hs]. exists (b_end y), r, (join R x y r s).
      split; [by apply (join_run R s l)|]. split; [done|]. split; [|split; [symmetry; by apply merge_join|split; [done|by right]]].
      apply coalesced_free in Hr; [|done]. by apply coalesced_free.
Qed.

Lemma plug_backward_run R s l x r :
  heap_pre R s (l ++ x :: r) -> b_used x = false -> coalesced l -> coalesced (x :: r) ->
  exists s', plug_backward (R + 64 * b_at x) s = Some (tt, s') /\ heap_ok R s' (merge (l ++ x :: r)) /\ same_heap R (l ++ x :: r) s s'.
Proof.
  intros H Hx Hl Hr. destruct (mid_fields R s l x r H) as (Hp & Hx1 & Hx2 & _ & Hpv & _). unfold plug_backward.
  mrun (get_prev_run R s (b_at x) Hp ltac:(lia)). rewrite Hpv.
  destruct l as [|p l _] using rev_ind.
  - pose proof (h_tiles _ _ _ H) as (E0 & _). simpl last_at. mrun (ptr_to_mem_run R s 0 Hp ltac:(lia)). rewrite E0, Z.eqb_refl.
    exists s. split; [done|]. simpl app. rewrite merge_coalesced by done. split; [done|apply same_heap_refl].
  - rewrite last_at_app. simpl last_at. rewrite <- app_assoc in H. simpl in H. destruct (mid_fields R s l p (x :: r) H) as (_ & Hp1 & Hp2 & _ & _ & Hu & Htx).
    destruct Htx as (Epx & _). mrun (ptr_to_mem_run R s (b_at p) Hp ltac:(lia)). rewrite (proj2 (Z.eqb_neq _ _)) by lia.
    mrun (get_used_run R s (b_at p) Hp ltac:(lia)). rewrite Hu, bool_to_Z_0. rewrite <- app_assoc. simpl. apply coalesced_app in Hl as (Hl & _ & Hlp).
    destruct (b_used p) eqn:Hup; simpl.
    + assert (coalesced (l ++ p :: x :: r)) as Hc.
      { apply coalesced_app. split; [done|]. split; [apply coalesced_cons; naive_solver|]. intros b l' c r' E1 E2. right. by simplify_eq. }
      exists s. split; [done|]. rewrite merge_coalesced by done. split; [done|apply same_heap_refl].
    + destruct (join_same R s l p x r H Hup Hx) as [Hj Hs]. exists (join R p x r s). split; [by apply (join_run R s l)|]. split; [|done].
      assert (coalesced (l ++ Blk (b_at p) (b_end x) false :: r)) as Hc.
      { apply coalesced_app. split; [done|]. apply coalesced_free in Hr; [|done]. split; [by apply coalesced_free|].
        intros b l' c r' E1 E2. simplify_eq/=. destruct (Hlp b l' p [] eq_refl eq_refl); [by left|congruence]. }
      by rewrite merge_join, merge_coalesced by done.
Qed.

Lemma plug_holes_run R s l x r :
  heap_pre R s (l ++ x :: r) -> b_used x = false -> coalesced l -> coalesced r ->
  exists s', plug_holes (R + 64 * b_at x) s = Some (tt, s') /\ heap_ok R s' (merge (l ++ x :: r)) /\ same_heap R (l ++ x :: r) s s'.
Proof.
  intros H Hx Hl Hr. destruct (plug_forward_run R s l x r H Hx Hr) as (e & r' & s1 & Hrun & H1 & Hr' & Em & Hs1 & Hsub).
  destruct (plug_backward_run R s1 l (Blk (b_at x) e false) r' H1 eq_refl Hl Hr') as (s2 & Hrun2 & H2 & Hs2).
  exists s2. split; [unfold plug_holes; mrun Hrun; exact Hrun2|]. split; [by rewrite <- Em|].
  apply (same_heap_trans R _ _ _ _ _ Hs1 Hs2). intros b [Hb|[->|Hb]%elem_of_cons]%elem_of_app.
  - exists b. set_solver.
  - exists x. set_solver.
  - exists b. set_solver.
Qed.

(** ** mem_free *)

Lemma head_pv R s l x r j : heap_pre R s (l ++ x :: r) -> is_head r j = true -> pv s j = 64 * b_at x.
Proof.
  intros H Hj. destruct r as [|y r]; [done|]. apply bool_decide_eq_true in Hj as ->. apply mid_next in H.
  destruct (mid_fields R s _ y r H) as (_ & _ & _ & _ & -> & _). by rewrite last_at_app.
Qed.

Lemma mem_link_valid_run R s l x r : heap_pre R s (l ++ x :: r) -> mem_link_valid (R + 64 * b_at x) s = Some (true, s).
Proof.
  intros H. destruct (mid_fields R s l x r H) as (Hp & Hx1 & Hx2 & Hn & Hpv & _ & Htr). unfold mem_link_valid.
  mrun (mem_to_ptr_run R s (b_at x) Hp ltac:(lia)). mrun (get_next_run R s (b_at x) Hp ltac:(lia)). rewrite Hn.
  mrun (ptr_to_mem_run R s (b_end x) Hp ltac:(lia)). mrun (get_prev_run R s (b_at x) Hp ltac:(lia)).
  assert (0 <= last_at 0 l < UNITS /\ (last_at 0 l = b_at x \/ nx s (last_at 0 l) = 64 * b_at x)) as [Hl Hlx].
  { destruct l as [|p l _] using rev_ind; [split; [done|]; left; by destruct (h_tiles _ _ _ H)|]. rewrite last_at_app. simpl. rewrite <- app_assoc in H.
    destruct (mid_fields R s l p (x :: r) H) as (_ & ? & _ & Hnp & _ & _ & (E & _)). split; [done|]. right. by rewrite E. }
  rewrite Hpv. mrun (ptr_to_mem_run R s (last_at 0 l) Hp ltac:(lia)). rewrite !units. rewrite !(proj2 (Z.ltb_ge _ _)) by lia. cbn [orb].
  match goal with |- (?m ≫= ?k) s = _ => assert (m s = Some (false, s)) as Hm end.
  { destruct (Z.eqb_spec (64 * last_at 0 l) (64 * b_at x)); [done|]. mrun (get_next_run R s (last_at 0 l) Hp ltac:(lia)).
    destruct Hlx as [?| ->]; [lia|]. by rewrite Z.eqb_refl. }
  mrun Hm. rewrite bind_get, (p_end _ _ Hp). destruct r as [|y r].
  - simpl in Htr. by rewrite Htr, Z.eqb_refl.
  - apply mid_next in H. destruct (mid_fields R s _ y r H) as (_ & Hy1 & _ & _ & Hpy & _). destruct Htr as (E & _). rewrite <- E.
    rewrite (proj2 (Z.eqb_neq _ _)) by lia. mrun (get_prev_run R s (b_at y) Hp ltac:(lia)). rewrite Hpy, last_at_app. simpl. by rewrite Z.eqb_refl.
Qed.

(** lfree after a struct at [k] became free. *)
Definition low_free (R k : Z) (s : mem_state) : mem_state := if R + 64 * k <? lfree s then set_lfree (R + 64 * k) s else s.

Lemma mark_free R s l x r :
  heap_pre R s (l ++ x :: r) -> heap_pre R (low_free R (b_at x) (w_used (b_at x) 0 s)) (l ++ Blk (b_at x) (b_end x) false :: r).
Proof.
  intros H. destruct (mid_fields R s l x r H) as (Hp & Hx1 & Hx2 & Hn & Hpv & Hu & Htr). destruct (h_low _ _ _ H) as (L & HL & Hat & Hfree).
  assert (low_free R (b_at x) (w_used (b_at x) 0 s) = set_lfree (R + 64 * Z.min (b_at x) L) (w_used (b_at x) 0 s)) as ->.
  { unfold low_free. change (lfree (w_used (b_at x) 0 s)) with (lfree s). rewrite HL. destruct (Z.ltb_spec (R + 64 * b_at x) (R + 64 * L)).
    - by rewrite Z.min_l by lia.
    - rewrite Z.min_r by lia. rewrite <- HL. by destruct s. }
  apply (replace_ok R s _ l [x] [Blk (b_at x) (b_end x) false] r (b_at x) (b_end x)); try done.
  - by apply (placed_same R s).
  - simpl. lia.
  - simpl. lia.
  - intros j Hj. split; [exact (nx_w_used _ _ _ _)|]. split; [|].
    + refine (eq_trans (us_w_used _ _ _ _) _). by rewrite decide_False by lia.
    + refine (eq_trans (pv_w_used _ _ _ _) _). simpl. destruct (is_head r j) eqn:E; [|done]. by apply (head_pv R s l x r).
  - simpl. split; [refine (eq_trans (nx_w_used _ _ _ _) _); done|]. split; [refine (eq_trans (pv_w_used _ _ _ _) _); done|].
    split; [|done]. refine (eq_trans (us_w_used _ _ _ _) _). by rewrite decide_True.
  - exists (Z.min (b_at x) L). split; [done|]. split.
    + destruct (Z.min_spec (b_at x) L) as [[? ->]|[? ->]]; [right; eexists; split; [apply elem_of_app; right; left|done]|].
      destruct Hat as [?|(b & Hb & <-)]; [by left|]. right. apply elem_of_app in Hb as [Hb|[->|Hb]%elem_of_cons].
      * exists b. set_solver.
      * eexists. split; [apply elem_of_app; right; left|done].
      * exists b. set_solver.
    + intros b [Hb|[->|Hb]%elem_of_cons]%elem_of_app Hub; simpl; [|lia|]; specialize (Hfree b ltac:(set_solver) Hub); lia.
Qed.

Lemma u32_unit R s k : placed R s -> 0 <= k <= UNITS -> 0 <= R + 64 * k < 4294967296.
Proof. intros Hp Hk. pose proof (placed_bounds R s Hp). lia. Qed.

Lemma mem_free_run R s l x r :
  heap_ok R s (l ++ x :: r) -> b_used x = true ->
  exists s', mem_free (Some (R + 64 * (b_at x + 1))) s = Some (tt, s') /\ heap_ok R s' (release (b_at x) (l ++ x :: r)) /\
    writes_structs R (l ++ x :: r) s s' /\ lfree s' = Z.min (R + 64 * b_at x) (lfree s) /\ mem_free_count s' = 1 /\ us s' (b_at x) = 0.
Proof.
  intros [H Hc] Hx. destruct (mid_fields R s l x r H) as (Hp & Hx1 & Hx2 & Hn & Hpv & Hu & Htr). destruct (placed_bounds R s Hp) as (HR & HR2 & Hal).
  pose proof (mark_free R s l x r H) as H1.
  apply coalesced_app in Hc as (Hl & [Hr _]%coalesced_cons & _).
  destruct (plug_holes_run R _ l (Blk (b_at x) (b_end x) false) r H1 eq_refl Hl Hr) as (s2 & Hrun & H2 & [D2 L2 C2 U2]).
  exists (set_mem_free_count 1 s2). split; [|split; [|split; [|split; [|split; [done|]]]]].
  - unfold mem_free. change (MEM_ALIGNMENT - 1) with (Z.ones 6). rewrite Z.land_ones by done. change (2 ^ 6) with 64.
    assert ((R + 64 * (b_at x + 1)) mod 64 = 0) as -> by (rewrite Z.mul_comm, Z.mod_add; lia). cbn [Z.eqb negb].
    change SIZEOF_STRUCT_MEM with 64. change MIN_SIZE_ALIGNED with 64. rewrite bind_get, (p_ram _ _ Hp), (p_end _ _ Hp).
    rewrite !u32_small by lia. replace (R + 64 * (b_at x + 1) - 64) with (R + 64 * b_at x) by lia. rewrite !(proj2 (Z.ltb_ge _ _)) by lia. cbn [orb].
    mrun (get_used_run R s (b_at x) Hp ltac:(lia)). rewrite Hu, Hx. simpl. mrun (mem_link_valid_run R s l x r H). simpl.
    mrun (set_used_run R s (b_at x) Hp ltac:(lia) 0). rewrite bind_modify. fold (low_free R (b_at x) (w_used (b_at x) 0 s)). simpl in Hrun. mrun Hrun. done.
  - unfold release. rewrite with_block_mid by apply H. by apply heap_ok_count.
  - intros a Ha. simpl. rewrite D2.
    + transitivity (bytes (w_used (b_at x) 0 s) a); [unfold low_free; by destruct (_ <? _)|]. simpl. rewrite put8_at, decide_False; [done|].
      rewrite (p_ram _ _ Hp). intros ->. apply Ha. exists x. split; [set_solver|lia].
    + intros (b & Hb & Hin). apply Ha. apply elem_of_app in Hb as [Hb|[->|Hb]%elem_of_cons]; [exists b; set_solver|exists x; set_solver|exists b; set_solver].
  - simpl. rewrite L2. unfold low_free. change (lfree (w_used (b_at x) 0 s)) with (lfree s). destruct (Z.ltb_spec (R + 64 * b_at x) (lfree s)); simpl; lia.
  - change (us s2 (b_at x) = 0). rewrite U2. transitivity (us (w_used (b_at x) 0 s) (b_at x)); [unfold low_free; by destruct (_ <? _)|].
    by rewrite us_w_used, decide_True.
Qed.

End Ops.
