(* ===== verification/MemTrim.v ===== *)
(** * The heap: mem_trim *)
From S2P Require Import Prelude Triple Pbuf Mem MemInv MemOps.

Section Trim.
Context {RH : RamHeap}.

(** ** What is left of a block *)

Lemma not_tiny k l m : tiles k l m -> ~ Exists tiny l.
Proof. intros Ht. rewrite Exists_exists. intros (b & Hb & Hti). destruct (tiles_bounds _ _ _ Ht) as [_ H]. specialize (H b Hb). unfold tiny in Hti. lia. Qed.

Lemma coalesced_used l x x' r : coalesced (l ++ x :: r) -> b_used x' = true -> coalesced (l ++ x' :: r).
Proof.
  intros (Hl & [Hr _]%coalesced_cons & _)%coalesced_app Hx. apply coalesced_app. split; [done|]. split; [apply coalesced_cons; split; [done|auto]|].
  intros b l' c r' _ E. right. by simplify_eq.
Qed.

Lemma shrink_free l x y r u :
  tiles 0 (l ++ x :: y :: r) UNITS -> coalesced (l ++ x :: y :: r) -> b_used x = true -> b_used y = false -> 1 <= u -> b_at x + 1 + u <= b_end x ->
  shrink (b_at x) u (l ++ x :: y :: r) = l ++ Blk (b_at x) (b_at x + 1 + u) true :: Blk (b_at x + 1 + u) (b_end y) false :: r /\
  coalesced (l ++ Blk (b_at x) (b_at x + 1 + u) true :: Blk (b_at x + 1 + u) (b_end y) false :: r).
Proof.
  intros Ht Hc Hx Hy Hu Hue. set (p := b_at x + 1 + u) in *.
  assert (coalesced (l ++ Blk (b_at x) p true :: Blk p (b_end y) false :: r)) as Hc'.
  { pose proof (coalesced_used l x (Blk (b_at x) p true) _ Hc eq_refl) as (Hl & [[Hr Hyr]%coalesced_cons _]%coalesced_cons & Hb)%coalesced_app.
    apply coalesced_app. split; [done|]. split; [|intros b l' c r' E1 E2; right; by simplify_eq].
    apply coalesced_cons. split; [|by left]. apply coalesced_cons. split; [done|]. intros c r' E. right. destruct (Hyr c r' E); [congruence|done]. }
  split; [|done]. unfold shrink, cut_at. rewrite with_block_mid by done. fold p. simpl.
  rewrite (app_assoc l [Blk (b_at x) p true] (Blk p (b_end x) false :: y :: r) : l ++ Blk (b_at x) p true :: _ = _).
  rewrite merge_join by done. rewrite <- app_assoc. simpl. rewrite merge_coalesced by done.
  apply tiles_mid in Ht as (H0 & H2 & _ & Hl & (Exy & Hy2 & Hr) & _). rewrite decide_False; [done|].
  apply (not_tiny 0 _ UNITS). apply tiles_app. exists (b_at x). split; [done|]. simpl. split_and!; done || lia.
Qed.

(** The block behind is free. *)
Definition next_free (r : list blk) : bool := match r with y :: _ => negb (b_used y) | [] => false end.

Lemma shrink_used l x r u :
  tiles 0 (l ++ x :: r) UNITS -> coalesced (l ++ x :: r) -> b_used x = true -> next_free r = false -> 1 <= u ->
  b_at x + 1 + u <= b_end x ->
  if decide (b_end x <= b_at x + 2 + u) then shrink (b_at x) u (l ++ x :: r) = l ++ x :: r
  else shrink (b_at x) u (l ++ x :: r) = l ++ Blk (b_at x) (b_at x + 1 + u) true :: Blk (b_at x + 1 + u) (b_end x) false :: r /\
    coalesced (l ++ Blk (b_at x) (b_at x + 1 + u) true :: Blk (b_at x + 1 + u) (b_end x) false :: r).
Proof.
  intros Ht Hc Hx Hy Hu Hue. set (p := b_at x + 1 + u) in *.
  assert (coalesced (l ++ Blk (b_at x) p true :: Blk p (b_end x) false :: r)) as Hc'.
  { pose proof (coalesced_used l x (Blk (b_at x) p true) _ Hc eq_refl) as (Hl & [Hr _]%coalesced_cons & Hb)%coalesced_app.
    apply coalesced_app. split; [done|]. split; [|intros b l' c r' E1 E2; right; by simplify_eq].
    apply coalesced_cons. split; [|by left]. apply coalesced_cons. split; [done|]. intros c r' ->. right. by apply negb_false_iff in Hy. }
  assert (cut_at (b_at x) u (l ++ x :: r) = l ++ Blk (b_at x) p true :: Blk p (b_end x) false :: r) as E.
  { unfold cut_at. rewrite with_block_mid by done. fold p. simpl. by apply merge_coalesced. }
  unfold shrink. rewrite E. case_decide as Hd; case_decide as Hd'.
  - done.
  - destruct Hd'. apply Exists_exists. exists (Blk p (b_end x) false). split; [set_solver|]. unfold tiny. simpl. unfold p. lia.
  - exfalso. revert Hd'. apply (not_tiny 0 _ UNITS). apply tiles_mid in Ht as (H0 & H2 & _ & Hl & Hr & _).
    apply tiles_app. exists (b_at x). split; [done|]. simpl. unfold p. split_and!; done || lia.
  - done.
Qed.

(** ** The stores *)

Definition carve (k p e : Z) (r : list blk) (s : mem_state) : mem_state :=
  relink r p (w_next k (64 * p) (w_prev p (64 * k) (w_next p (64 * e) (w_used p 0 s)))).

Lemma carve_run R s k p e r :
  placed R s -> 0 <= k < p -> p < e -> tiles e r UNITS ->
  (set_used (R + 64 * p) 0;; set_next (R + 64 * p) (64 * e);; set_prev (R + 64 * p) (64 * k);; set_next (R + 64 * k) (64 * p);;
   link_back (64 * e) (64 * p)) s = Some (tt, carve k p e r s).
Proof.
  intros Hp Hk Hpe Ht. destruct (tiles_bounds _ _ _ Ht) as [He _].
  mrun (set_used_run R s p Hp ltac:(lia) 0). mrun (set_next_run R (w_used p 0 s) p ltac:(by apply (placed_same R s)) ltac:(lia) (64 * e)).
  mrun (set_prev_run R (w_next p (64 * e) (w_used p 0 s)) p ltac:(by apply (placed_same R s)) ltac:(lia) (64 * k)).
  mrun (set_next_run R (w_prev p (64 * k) (w_next p (64 * e) (w_used p 0 s))) k ltac:(by apply (placed_same R s)) ltac:(lia) (64 * p)).
  apply (link_back_run R); [by apply (placed_same R s)|done|lia].
Qed.

Lemma carve_same k p e r s : ram (carve k p e r s) = ram s /\ ram_end (carve k p e r s) = ram_end s /\ lfree (carve k p e r s) = lfree s /\
  mem_free_count (carve k p e r s) = mem_free_count s.
Proof. unfold carve. destruct (relink_same r p (w_next k (64 * p) (w_prev p (64 * k) (w_next p (64 * e) (w_used p 0 s))))) as (-> & -> & -> & ->). done. Qed.

Lemma carve_fields k p e r s j : 0 <= k < p -> p < e <= UNITS ->
  nx (carve k p e r s) j = (if decide (j = k) then 64 * p else if decide (j = p) then 64 * e else nx s j) /\
  pv (carve k p e r s) j = (if is_head r j then 64 * p else if decide (j = p) then 64 * k else pv s j) /\
  us (carve k p e r s) j = (if decide (j = p) then 0 else us s j).
Proof.
  intros Hk Hp. unfold carve.
  assert (0 <= p <= UNITS) by lia. assert (0 <= 64 * p < 4294967296 /\ 0 <= 64 * e < 4294967296 /\ 0 <= 64 * k < 4294967296) as (? & ? & ?) by (unfold UNITS in *; lia).
  fields. done.
Qed.

Lemma carve_bytes R k p e r s bl : ram s = R -> (forall j, j = k \/ j = p \/ is_head r j = true -> exists b, b ∈ bl /\ b_at b = j) ->
  writes_structs R bl s (carve k p e r s).
Proof.
  intros HR Hbl a Ha. assert (forall j, (exists b, b ∈ bl /\ b_at b = j) -> ~ (R + 64 * j <= a < R + 64 * j + 64)) as Hj.
  { intros j (b & Hb & <-) Hin. apply Ha. by exists b. }
  unfold carve. transitivity (bytes (w_next k (64 * p) (w_prev p (64 * k) (w_next p (64 * e) (w_used p 0 s)))) a).
  - destruct r as [|z r]; [done|]. apply (w_prev_bytes R); [done|]. apply Hj, Hbl. right. right. by apply bool_decide_eq_true_2.
  - assert (~ (R + 64 * k <= a < R + 64 * k + 64)) by (apply Hj, Hbl; by left). assert (~ (R + 64 * p <= a < R + 64 * p + 64)) by (apply Hj, Hbl; right; by left).
    by rewrite (w_next_bytes R), (w_prev_bytes R), (w_next_bytes R), (w_used_bytes R) by done.
Qed.

(** lfree moves with the free block it points to, or down to a new one. *)
Lemma lowest_moved L l x y r p :
  tiles 0 (l ++ x :: y :: r) UNITS -> lowest L (l ++ x :: y :: r) -> b_used y = false -> b_at x < p <= b_at y ->
  lowest (if L =? b_at y then p else L) (l ++ Blk (b_at x) p true :: Blk p (b_end y) false :: r).
Proof.
  intros Ht [Hat Hfree] Hy Hp. pose proof (tiles_mid _ _ _ _ _ Ht) as (H0 & H2 & _ & _ & (Exy & Hy2 & Htr) & Hbl & _).
  destruct (tiles_bounds _ _ _ Htr) as [_ Hbr]. pose proof (Hfree y ltac:(set_solver) Hy) as HLy. split.
  - destruct (Z.eqb_spec L (b_at y)) as [->|Hne]; [right; exists (Blk p (b_end y) false); split; [set_solver|done]|].
    destruct Hat as [?|(b & Hb & <-)]; [by left|right]. apply elem_of_app in Hb as [Hb|[->|[->|Hb]%elem_of_cons]%elem_of_cons].
    + exists b. set_solver.
    + exists (Blk (b_at x) p true). set_solver.
    + done.
    + exists b. set_solver.
  - intros b [Hb|[->|[->|Hb]%elem_of_cons]%elem_of_cons]%elem_of_app Hu; [|done|simpl|].
    + specialize (Hfree b ltac:(set_solver) Hu). specialize (Hbl b Hb). destruct (Z.eqb_spec L (b_at y)); lia.
    + destruct (Z.eqb_spec L (b_at y)) as [|Hne]; [lia|]. destruct Hat as [?|(b & Hb & <-)]; [unfold UNITS in *; destruct (tiles_bounds _ _ _ Htr); lia|].
      apply elem_of_app in Hb as [Hb|[->|[->|Hb]%elem_of_cons]%elem_of_cons]; [specialize (Hbl b Hb)| |done|specialize (Hbr b Hb)]; lia.
    + specialize (Hbr b Hb). destruct (Z.eqb_spec L (b_at y)); lia.
Qed.

Lemma lowest_new L l x r p :
  tiles 0 (l ++ x :: r) UNITS -> lowest L (l ++ x :: r) -> lowest (Z.min p L) (l ++ Blk (b_at x) p true :: Blk p (b_end x) false :: r).
Proof.
  intros Ht [Hat Hfree]. split.
  - destruct (Z.min_spec p L) as [[? ->]|[? ->]]; [right; exists (Blk p (b_end x) false); split; [set_solver|done]|].
    destruct Hat as [?|(b & Hb & <-)]; [by left|right]. apply elem_of_app in Hb as [Hb|[->|Hb]%elem_of_cons].
    + exists b. set_solver.
    + exists (Blk (b_at x) p true). set_solver.
    + exists b. set_solver.
  - intros b [Hb|[->|[->|Hb]%elem_of_cons]%elem_of_cons]%elem_of_app Hu; [specialize (Hfree b ltac:(set_solver) Hu); lia|done|simpl; lia|].
    specialize (Hfree b ltac:(set_solver) Hu). lia.
Qed.

(** ** mem_trim *)

Lemma carve_heap R s s1 l x mm r e p L :
  heap_pre R s (l ++ (x :: mm) ++ r) -> tiles (b_at x) (x :: mm) e -> b_used x = true -> b_at x + 2 <= p -> p + 2 <= e <= UNITS ->
  ram s1 = ram s -> ram_end s1 = ram_end s -> bytes s1 = bytes s -> lfree s1 = R + 64 * L ->
  let bl' := l ++ Blk (b_at x) p true :: Blk p e false :: r in lowest L bl' ->
  heap_pre R (carve (b_at x) p e r s1) bl' /\ writes_structs R bl' s (carve (b_at x) p e r s1).
Proof.
  intros H Ht Hx Hxp Hpe R1 E1 B1 L1 bl' Hlow. destruct (mid_fields R s l x (mm ++ r) H) as (Hp & Hx1 & Hx2 & _ & _ & Hus & _).
  assert (forall j, nx s1 j = nx s j /\ pv s1 j = pv s j /\ us s1 j = us s j) as Hf by (intros j; unfold nx, pv, us; by rewrite R1, B1).
  destruct (carve_same (b_at x) p e r s1) as (C1 & C2 & C3 & C4). split.
  - apply (carve_ok R s _ l x mm r e p); [done|done|lia|lia|apply (placed_same R s); [done|congruence..]|..].
    + intros j. destruct (carve_fields (b_at x) p e r s1 j) as (Hj & _); [lia..|]. by rewrite Hj, (proj1 (Hf j)).
    + intros j. destruct (carve_fields (b_at x) p e r s1 j) as (_ & Hj & _); [lia..|]. by rewrite Hj, (proj1 (proj2 (Hf j))).
    + intros j. destruct (carve_fields (b_at x) p e r s1 j) as (_ & _ & Hj); [lia..|]. rewrite Hj, (proj2 (proj2 (Hf j))).
      destruct (decide (j = b_at x)) as [->|]; [|done]. rewrite decide_False by lia. by rewrite Hus, Hx.
    + exists L. by rewrite C3.
  - intros a Ha. rewrite (carve_bytes R (b_at x) p e r s1 bl'); [by rewrite B1|by rewrite R1, (p_ram _ _ Hp)| |done].
    intros j [->|[->|Hj]]; [exists (Blk (b_at x) p true)|exists (Blk p e false)|]; [set_solver..|].
    destruct r as [|z r]; [done|]. apply bool_decide_eq_true in Hj as ->. exists z. set_solver.
Qed.

Lemma lower_same a b s : ram (lower a b s) = ram s /\ ram_end (lower a b s) = ram_end s /\ bytes (lower a b s) = bytes s.
Proof. unfold lower. by destruct (_ =? _). Qed.
Lemma low_free_same R k s : ram (low_free R k s) = ram s /\ ram_end (low_free R k s) = ram_end s /\ bytes (low_free R k s) = bytes s.
Proof. unfold low_free. by destruct (_ <? _). Qed.

Lemma trim_free R s l x y r u :
  heap_pre R s (l ++ x :: y :: r) -> b_used x = true -> b_used y = false -> 1 <= u -> b_at x + 1 + u < b_end x ->
  let p := b_at x + 1 + u in let bl' := l ++ Blk (b_at x) p true :: Blk p (b_end y) false :: r in
  let s' := carve (b_at x) p (b_end y) r (lower (R + 64 * b_at y) (R + 64 * p) s) in
  heap_pre R s' bl' /\ writes_structs R bl' s s' /\ low_kept R bl' s s'.
Proof.
  intros H Hx Hy Hu Hue p bl' s'. destruct (mid_fields R s l x (y :: r) H) as (Hp & Hx1 & Hx2 & _ & _ & _ & (Exy & Hy2 & Htr)).
  destruct (tiles_bounds _ _ _ Htr) as [Hye _]. set (s1 := lower (R + 64 * b_at y) (R + 64 * p) s) in *.
  destruct (h_low _ _ _ H) as (L & HL & Hlow).
  assert (lfree s1 = R + 64 * (if L =? b_at y then p else L)) as HL1.
  { unfold s1, lower. rewrite HL. destruct (Z.eqb_spec L (b_at y)) as [->|]; [by rewrite Z.eqb_refl|]. by rewrite (proj2 (Z.eqb_neq _ _)) by lia. }
  destruct (carve_heap R s s1 l x [y] r (b_end y) p (if L =? b_at y then p else L)) as [H1 H2];
    [done|simpl; split_and!; done || lia|done|unfold p; lia|unfold p; lia|apply lower_same|apply lower_same|apply lower_same|done|apply (lowest_moved L l x y r p); [apply H|done|done|unfold p; lia]|].
  split; [done|]. split; [done|]. unfold low_kept, s'. destruct (carve_same (b_at x) p (b_end y) r s1) as (_ & _ & -> & _). rewrite HL1, HL.
  destruct (L =? b_at y); [right; exists (Blk p (b_end y) false); set_solver|by left].
Qed.

Lemma trim_used R s l x r u :
  heap_pre R s (l ++ x :: r) -> b_used x = true -> 1 <= u -> b_at x + 2 + u < b_end x ->
  let p := b_at x + 1 + u in let bl' := l ++ Blk (b_at x) p true :: Blk p (b_end x) false :: r in
  let s' := carve (b_at x) p (b_end x) r (low_free R p s) in
  heap_pre R s' bl' /\ writes_structs R bl' s s' /\ low_kept R bl' s s'.
Proof.
  intros H Hx Hu Hue p bl' s'. destruct (mid_fields R s l x r H) as (Hp & Hx1 & Hx2 & _ & _ & _ & Htr).
  set (s1 := low_free R p s) in *. destruct (h_low _ _ _ H) as (L & HL & Hlow).
  assert (lfree s1 = R + 64 * Z.min p L) as HL1.
  { unfold s1, low_free. rewrite HL. destruct (Z.ltb_spec (R + 64 * p) (R + 64 * L)); [rewrite Z.min_l by lia; done|rewrite Z.min_r by lia; done]. }
  destruct (carve_heap R s s1 l x [] r (b_end x) p (Z.min p L)) as [H1 H2];
    [done|simpl; split_and!; done || lia|done|unfold p; lia|unfold p; lia|apply low_free_same|apply low_free_same|apply low_free_same|done|apply (lowest_new L l x r p); [apply H|done]|].
  split; [done|]. split; [done|]. unfold low_kept, s'. destruct (carve_same (b_at x) p (b_end x) r s1) as (_ & _ & -> & _). rewrite HL1, HL.
  destruct (Z.min_spec p L) as [[? ->]|[? ->]]; [right; exists (Blk p (b_end x) false); set_solver|by left].
Qed.

Lemma used_behind R s l x r : heap_pre R s (l ++ x :: r) -> (us s (b_end x) =? 0) = next_free r.
Proof.
  intros H. destruct (mid_fields R s l x r H) as (_ & _ & _ & _ & _ & _ & Ht). destruct r as [|y r].
  - simpl in Ht. rewrite Ht. by rewrite (proj2 (h_end _ _ _ H)).
  - destruct Ht as (<- & _). apply mid_next in H. destruct (mid_fields R s _ y r H) as (_ & _ & _ & _ & _ & -> & _). apply bool_to_Z_0.
Qed.

Lemma trim_split_run R s l x r u :
  heap_ok R s (l ++ x :: r) -> b_used x = true -> 1 <= u -> b_at x + 1 + u < b_end x ->
  let bl' := shrink (b_at x) u (l ++ x :: r) in
  exists s', trim_split (R + 64 * b_at x) (64 * b_at x) (b_size x) (64 * u) s = Some (tt, s') /\
    heap_ok R s' bl' /\ writes_structs R bl' s s' /\ low_kept R bl' s s' /\ mem_free_count s' = 1.
Proof.
  intros [H Hc] Hx Hu Hue bl'. destruct (mid_fields R s l x r H) as (Hp & Hx1 & Hx2 & Hnx & _ & _ & Htr). unfold trim_split.
  mrun (get_next_run R s (b_at x) Hp ltac:(lia)). rewrite Hnx. mrun (ptr_to_mem_run R s (b_end x) Hp ltac:(lia)).
  mrun (get_used_run R s (b_end x) Hp ltac:(lia)). rewrite (used_behind R s l x r H). unfold b_size.
  change SIZEOF_STRUCT_MEM with 64. change MIN_SIZE_ALIGNED with 64. set (p := b_at x + 1 + u).
  assert (u32 (64 * b_at x + 64 + 64 * u) = 64 * p) as -> by (rewrite u32_small; unfold p, UNITS in *; lia).
  assert (u32 (64 * u + 64 + 64) = 64 * (u + 2)) as -> by (rewrite u32_small; unfold UNITS in *; lia).
  match goal with |- exists s', (?m ≫= _) s = _ /\ _ =>
    enough (exists s1, m s = Some (tt, s1) /\ heap_ok R s1 bl' /\ writes_structs R bl' s s1 /\ low_kept R bl' s s1) as (s1 & Hrun & H1 & H2 & H3) end.
  { exists (set_mem_free_count 1 s1). split; [by mrun Hrun|]. split; [by apply heap_ok_count|done]. }
  destruct (next_free r) eqn:Hnf; unfold bl'.
  - destruct r as [|y r]; [done|]. apply negb_true_iff in Hnf. destruct (shrink_free l x y r u (h_tiles _ _ _ H) Hc Hx Hnf Hu ltac:(lia)) as [-> Hc'].
    destruct (trim_free R s l x y r u H Hx Hnf Hu ltac:(lia)) as (H1 & H2 & H3). fold p in Hc', H1, H2, H3 |- *.
    eexists. split; [|split; [split; [exact H1|done]|split; [exact H2|exact H3]]]. destruct Htr as (Exy & _).
    pose proof (mid_next _ _ _ _ _ _ H) as Hy. destruct (mid_fields R s _ y r Hy) as (_ & Hy1 & Hy2 & Hny & _ & _ & Htr'). rewrite <- Exy.
    mrun (get_next_run R s (b_at y) Hp ltac:(lia)). rewrite Hny. mrun (ptr_to_mem_run R s p Hp ltac:(unfold p; lia)). rewrite bind_modify.
    apply (carve_run R); [|unfold p; lia|unfold p; lia|done]. destruct (lower_same (R + 64 * b_at y) (R + 64 * p) s) as (? & ? & ?). by apply (placed_same R s).
  - pose proof (shrink_used l x r u (h_tiles _ _ _ H) Hc Hx Hnf Hu ltac:(lia)) as Hs. destruct (Z.leb_spec (64 * (u + 2)) (64 * (b_end x - b_at x - 1))) as [Hle|Hgt].
    + rewrite decide_False in Hs by lia. destruct Hs as [-> Hc']. destruct (trim_used R s l x r u H Hx Hu ltac:(lia)) as (H1 & H2 & H3).
      fold p in Hc', H1, H2, H3 |- *. eexists. split; [|split; [split; [exact H1|done]|split; [exact H2|exact H3]]].
      mrun (ptr_to_mem_run R s p Hp ltac:(unfold p; lia)). rewrite bind_modify.
      apply (carve_run R); [|unfold p; lia|unfold p; lia|done]. destruct (low_free_same R p s) as (? & ? & ?). by apply (placed_same R s).
    + rewrite decide_True in Hs by lia. rewrite Hs. exists s. split; [done|]. split; [done|]. split; [by intros ? _|by left].
Qed.

(** Cutting nothing off changes nothing. *)
Lemma shrink_all R s l x r :
  heap_ok R s (l ++ x :: r) -> b_used x = true -> shrink (b_at x) (b_end x - b_at x - 1) (l ++ x :: r) = l ++ x :: r.
Proof.
  intros [H Hc] Hx. destruct (mid_fields R s l x r H) as (Hp & Hx1 & Hx2 & _ & _ & _ & Htr). destruct (next_free r) eqn:Hnf.
  - destruct r as [|y r]; [done|]. apply negb_true_iff in Hnf.
    destruct (shrink_free l x y r (b_end x - b_at x - 1) (h_tiles _ _ _ H) Hc Hx Hnf ltac:(lia) ltac:(lia)) as [-> _].
    f_equal. replace (b_at x + 1 + (b_end x - b_at x - 1)) with (b_end x) by lia. destruct x, y; simpl in *. subst. destruct Htr as (E & _). by subst.
  - pose proof (shrink_used l x r (b_end x - b_at x - 1) (h_tiles _ _ _ H) Hc Hx Hnf ltac:(lia) ltac:(lia)) as Hs. by rewrite decide_True in Hs by lia.
Qed.

Lemma trim_run R s l x r n :
  heap_ok R s (l ++ x :: r) -> b_used x = true -> 0 <= n < 4294967296 ->
  let a := R + 64 * (b_at x + 1) in let bl' := shrink (b_at x) (units_of n) (l ++ x :: r) in
  if (MEM_SIZE_ALIGNED <? n) || (b_size x <? 64 * units_of n) then mem_trim a n s = Some (None, s)
  else exists s', mem_trim a n s = Some (Some a, s') /\ heap_ok R s' bl' /\ writes_structs R bl' s s' /\ low_kept R bl' s s' /\
    (s' = s /\ bl' = l ++ x :: r \/ mem_free_count s' = 1).
Proof.
  intros Hok Hx Hn a bl'. pose proof Hok as [H Hc]. unfold mem_trim. rewrite block_size_units by done.
  destruct (MEM_SIZE_ALIGNED <? n) eqn:En; [done|]. cbn [orb].
  destruct (mid_fields R s l x r H) as (Hp & Hx1 & Hx2 & Hnx & _ & _ & Htr). destruct (placed_bounds R s Hp) as (HR & HR2 & _).
  unfold bl'. set (u := units_of n) in *. assert (1 <= u) as Hu by (unfold u, units_of; lia).
  rewrite bind_get, (p_ram _ _ Hp), (p_end _ _ Hp). unfold a. rewrite (proj2 (Z.ltb_ge _ R)), (proj2 (Z.leb_gt _ _)) by lia. cbn [orb].
  change SIZEOF_STRUCT_MEM with 64. replace (R + 64 * (b_at x + 1) - 64) with (R + 64 * b_at x) by lia. rewrite (u32_small (R + _)) by lia.
  mrun (mem_to_ptr_run R s (b_at x) Hp ltac:(lia)). mrun (get_next_run R s (b_at x) Hp ltac:(lia)). rewrite Hnx.
  rewrite (u32_small (64 * b_end x - _)), (u32_small (_ - 64)) by (unfold UNITS in *; lia).
  assert (64 * b_end x - 64 * b_at x - 64 = b_size x) as -> by (unfold b_size; lia).
  destruct (Z.ltb_spec (b_size x) (64 * u)) as [|Hdu]; [done|]. unfold b_size in Hdu.
  destruct (Z.eqb_spec (64 * u) (b_size x)) as [Eud|Hud]; unfold b_size in *.
  - assert (u = b_end x - b_at x - 1) as -> by lia. rewrite (shrink_all R s l x r) by done. exists s. split; [done|]. split; [done|].
    split; [by intros ? _|]. split; [by left|by left].
  - destruct (trim_split_run R s l x r u Hok Hx Hu ltac:(lia)) as (s' & Hrun & H1 & H2 & H3 & H4). exists s'. split; [by mrun Hrun|]. auto.
Qed.

End Trim.
