(* ===== verification/MemAlloc.v ===== *)
(** * The heap: mem_malloc, section by section *)
From S2P Require Import Prelude Triple Pbuf Mem MemInv MemOps MemTrim.

(** The first free block with [u] units of data. *)
Definition fits (u : Z) (b : blk) : Prop := b_used b = false /\ 64 * u <= b_size b.
#[global] Instance fits_dec u b : Decision (fits u b) := and_dec _ _.
Definition first_fit (u : Z) (bl : list blk) : option blk := snd <$> list_find (fits u) bl.
(** The block at [k] is taken, and cut to [u] units of data if another block can be
    made of the rest. *)
Definition allot (k u : Z) (bl : list blk) : list blk :=
  shrink k u (with_block k (fun b => [Blk (b_at b) (b_end b) true]) bl).

Lemma first_fit_split u l x r : Forall (fun b => ~ fits u b) l -> fits u x -> first_fit u (l ++ x :: r) = Some x.
Proof.
  intros Hl Hx. unfold first_fit. rewrite (proj2 (list_find_Some (fits u) (l ++ x :: r) (length l) x)); [done|].
  split; [by apply list_lookup_middle|]. split; [done|]. intros j y Hj Hlt. rewrite lookup_app_l in Hj by done. by eapply Forall_lookup_1 in Hl.
Qed.
Lemma first_fit_None u bl : (forall b, b ∈ bl -> ~ fits u b) -> first_fit u bl = None.
Proof. intros H. unfold first_fit. by rewrite (proj2 (list_find_None _ _)) by (by apply Forall_forall). Qed.

Section Alloc.
Context {RH : RamHeap}.

(** lfree, when it points to a block, points to a free one. *)
Definition exact (R : Z) (s : mem_state) (bl : list blk) : Prop := forall b, b ∈ bl -> lfree s = R + 64 * b_at b -> b_used b = false.
(** The search has come to unit [k]. *)
Definition cursor (u k : Z) (bl : list blk) : Prop :=
  (k = UNITS \/ exists b, b ∈ bl /\ b_at b = k) /\ forall b, b ∈ bl -> b_at b < k -> ~ fits u b.
(** What mem_malloc, for [u] units of data, relies on where it waits; a counter
    other than 0 says somebody has been there. *)
Definition pc_ok (R : Z) (s : mem_state) (bl : list blk) (u : Z) (pc : malloc_pc) : Prop :=
  match pc with
  | Search ptr => exact R s bl /\ (mem_free_count s = 0 -> exists k, ptr = 64 * k /\ k + u < UNITS /\ cursor u k bl)
  | Adjust mem cur =>
      (exists b, b ∈ bl /\ mem = R + 64 * b_at b /\ b_used b = true /\ 64 * u <= b_size b) /\
      (lfree s = mem \/ exact R s bl) /\
      (mem_free_count s = 0 -> lfree s = mem /\ exists c, c ∈ bl /\ cur = R + 64 * b_at c /\ forall b, b ∈ bl -> b_at b <= b_at c -> b_used b = true)
  | Return (Some a) => exact R s bl /\ exists b, b ∈ bl /\ a = R + 64 * (b_at b + 1) /\ b_used b = true /\ 64 * u <= b_size b
  | Return None => exact R s bl
  end.

(** What a section does to the blocks. *)
Inductive malloc_effect (R u : Z) (bl : list blk) : malloc_pc -> list blk -> malloc_pc -> Prop :=
  | searching ptr ptr' : malloc_effect R u bl (Search ptr) bl (Search ptr')
  | not_found ptr : first_fit u bl = None -> malloc_effect R u bl (Search ptr) bl (Return None)
  | taken ptr x pc' : first_fit u bl = Some x ->
      (pc' = Return (Some (R + 64 * (b_at x + 1))) \/ exists cur, pc' = Adjust (R + 64 * b_at x) cur) ->
      malloc_effect R u bl (Search ptr) (allot (b_at x) u bl) pc'
  | adjusting m cur pc' : (pc' = Return (Some (R + 64 * (m + 1))) \/ exists cur', pc' = Adjust (R + 64 * m) cur') ->
      malloc_effect R u bl (Adjust (R + 64 * m) cur) bl pc'.

(** ** The search *)

Lemma exact_count R s bl v : exact R (set_mem_free_count v s) bl <-> exact R s bl.
Proof. done. Qed.

Lemma scan_run R s bl u k :
  heap_ok R s bl -> exact R s bl -> 1 <= u <= UNITS -> cursor u k bl ->
  exists s' pc', malloc_scan (64 * u) (64 * k) s = Some (pc', s') /\ pc_ok R s' bl u pc' /\ (s' = s \/ s' = set_mem_free_count 0 s) /\
    (pc' = Search (64 * k) /\ k + u < UNITS \/ pc' = Return None /\ first_fit u bl = None).
Proof.
  intros [H _] Hex Hu Hc. unfold malloc_scan. rewrite units, u32_small by (unfold UNITS in *; lia).
  destruct (Z.ltb_spec (64 * k) (64 * UNITS - 64 * u)).
  - eexists _, _. split; [done|]. split; [|split; [by right|left; split; [done|lia]]].
    split; [done|]. intros _. exists k. split; [done|]. split; [lia|done].
  - exists s, (Return None). split; [done|]. split; [done|]. split; [by left|right]. split; [done|].
    apply first_fit_None. intros b Hb [Hf Hs]. destruct (tiles_bounds _ _ _ (h_tiles _ _ _ H)) as [_ Hbb]. specialize (Hbb b Hb). unfold b_size in Hs.
    apply (proj2 Hc b Hb); [lia|]. split; [done|]. unfold b_size. lia.
Qed.

Lemma lowest_unit R s bl : heap_pre R s bl -> exists L, lfree s = R + 64 * L /\ lowest L bl /\ 0 <= L <= UNITS.
Proof.
  intros H. destruct (h_low _ _ _ H) as (L & HL & Hlow). exists L. split; [done|]. split; [done|].
  destruct (tiles_bounds _ _ _ (h_tiles _ _ _ H)) as [_ Hb]. destruct Hlow as [[->|(b & Hbb & <-)] _]; [done|specialize (Hb b Hbb); lia].
Qed.

Lemma restart_run R s bl u :
  heap_ok R s bl -> exact R s bl -> 1 <= u <= UNITS ->
  exists s' pc', malloc_restart (64 * u) s = Some (pc', s') /\ pc_ok R s' bl u pc' /\ (s' = s \/ s' = set_mem_free_count 0 s) /\
    ((exists k, 0 <= k /\ pc' = Search (64 * k) /\ k + u < UNITS) \/ pc' = Return None /\ first_fit u bl = None).
Proof.
  intros Hok Hex Hu. pose proof Hok as [H _]. destruct (lowest_unit R s bl H) as (L & HL & [Hat Hfree] & HLb).
  assert (cursor u L bl) as Hc.
  { split; [done|]. intros b Hbb Hlt [Hf _]. specialize (Hfree b Hbb Hf). lia. }
  unfold malloc_restart. rewrite bind_get, HL. mrun (mem_to_ptr_run R s L (h_placed _ _ _ H) HLb).
  destruct (scan_run R s bl u L Hok Hex Hu Hc) as (s' & pc' & Hrun & H1 & H2 & H3). exists s', pc'. split; [done|]. split; [done|]. split; [done|].
  destruct H3 as [[-> ?]|?]; [left; exists L; split; [lia|done]|by right].
Qed.

(** ** Moving lfree *)

Lemma heap_ok_low R s bl k : heap_ok R s bl -> lowest k bl -> heap_ok R (set_lfree (R + 64 * k) s) bl.
Proof.
  intros [[] Hc] Hl. split; [|done]. split; [by apply (placed_same R s)|done|by apply (linked_frame s)|done|by exists k].
Qed.

Lemma us_at R s bl b : heap_pre R s bl -> b ∈ bl -> us s (b_at b) = bool_to_Z (b_used b) /\ nx s (b_at b) = 64 * b_end b /\ 0 <= b_at b < UNITS /\ b_at b + 2 <= b_end b <= UNITS.
Proof. intros H (l & r & ->)%list_elem_of_split. by destruct (mid_fields R s l b r H) as (_ & ? & ? & ? & _ & ? & _). Qed.

(** The struct at [k] is a block's, or the end. *)
Definition boundary (k : Z) (bl : list blk) : Prop := k = UNITS \/ exists b, b ∈ bl /\ b_at b = k.
Lemma boundary_end R s bl b : heap_pre R s bl -> b ∈ bl -> boundary (b_end b) bl.
Proof.
  intros H (l & r & ->)%list_elem_of_split. destruct (mid_fields R s l b r H) as (_ & _ & _ & _ & _ & _ & Ht).
  destruct r as [|c r]; [by left|right; exists c; split; [set_solver|by destruct Ht]].
Qed.

Lemma adjust_run R s bl u b k :
  heap_ok R s bl -> b ∈ bl -> b_used b = true -> 64 * u <= b_size b -> lfree s = R + 64 * b_at b ->
  boundary k bl -> (forall c, c ∈ bl -> b_at c < k -> b_used c = true) ->
  exists s' pc', malloc_adjust (R + 64 * b_at b) (R + 64 * k) s = Some (pc', s') /\ heap_ok R s' bl /\ pc_ok R s' bl u pc' /\ bytes s' = bytes s /\
    (pc' = Return (Some (R + 64 * (b_at b + 1))) \/ pc' = Adjust (R + 64 * b_at b) (R + 64 * k) /\ k < UNITS).
Proof.
  intros Hok Hb Hub Hs HL Hk Hbelow. pose proof Hok as [H Hc]. pose proof (h_placed _ _ _ H) as Hp.
  destruct (us_at R s bl b H Hb) as (_ & _ & Hb1 & Hb2). destruct (placed_bounds R s Hp) as (HR & HR2 & _).
  assert (0 <= k <= UNITS) as Hkb by (destruct Hk as [->|(c & Hcc & <-)]; [done|destruct (us_at R s bl c H Hcc); lia]).
  assert (exists v, us s k = bool_to_Z v /\ (v = false \/ k = UNITS -> lowest k bl /\ forall c, c ∈ bl -> b_at c = k -> b_used c = false) /\
    (v = true -> k <> UNITS -> exists c, c ∈ bl /\ b_at c = k /\ b_used c = true)) as (v & Ev & Hv1 & Hv2).
  { destruct Hk as [->|(c & Hcc & <-)].
    - exists true. split; [apply (h_end _ _ _ H)|]. split; [|done]. intros _. split; [split; [by left|]|].
      + intros c Hcc Huc. exfalso. destruct (us_at R s bl c H Hcc) as (_ & _ & ? & _). by rewrite (Hbelow c Hcc ltac:(lia)) in Huc.
      + intros c Hcc Ec. destruct (us_at R s bl c H Hcc); lia.
    - exists (b_used c). split; [by apply (us_at R s bl c)|]. split; [|intros; by exists c]. intros [Huc|Huc]; [|destruct (us_at R s bl c H Hcc); lia].
      split; [split; [right; by exists c|]|].
      + intros d Hd Hud. destruct (Z.lt_ge_cases (b_at d) (b_at c)) as [Hlt|]; [|done]. by rewrite (Hbelow d Hd Hlt) in Hud.
      + intros d Hd Ed. destruct (us_at R s bl d H Hd) as (E1 & _). destruct (us_at R s bl c H Hcc) as (E2 & _). rewrite Ed, E2, Huc in E1. by destruct (b_used d). }
  unfold malloc_adjust. mrun (get_used_run R s k Hp Hkb). rewrite bind_get, (p_end _ _ Hp), Ev, bool_to_Z_0.
  destruct (Z.eqb_spec (R + 64 * k) (R + 64 * UNITS)) as [Eu|Eu]; cbn [negb]; rewrite ?andb_true_r, ?andb_false_r.
  2: destruct v; cbn [negb andb].
  2: { destruct Hv2 as (c & Hcc & Ec & Huc); [done|lia|]. eexists _, _. split; [done|]. split; [by apply heap_ok_count|]. split; [|split; [done|right; split; [done|lia]]].
    split; [by exists b|]. split; [by left|]. intros _. split; [done|]. exists c. split; [done|]. rewrite Ec. split; [done|]. intros d Hd Hle.
    destruct (Z.eq_dec (b_at d) k) as [Ed|]; [|apply Hbelow; [done|lia]]. destruct (us_at R s bl d H Hd) as (E1 & _). rewrite Ed, Ev in E1. by destruct (b_used d). }
  all: destruct Hv1 as [Hlow Hfr]; [first [by left|right; lia]|]; eexists _, _; split; [done|]; split; [by apply heap_ok_low|];
    replace (u32 (R + 64 * b_at b + SIZEOF_STRUCT_MEM)) with (R + 64 * (b_at b + 1)) by (change SIZEOF_STRUCT_MEM with 64; rewrite u32_small; lia);
    split; [|split; [done|by left]]; split; [intros c Hcc Ec; apply Hfr; [done|simpl in Ec; lia]|by exists b].
Qed.

Lemma adjust_lfree_run R s bl u b :
  heap_ok R s bl -> b ∈ bl -> b_used b = true -> 64 * u <= b_size b -> lfree s = R + 64 * b_at b \/ exact R s bl ->
  exists s' pc', mem_malloc_adjust_lfree (R + 64 * b_at b) s = Some (pc', s') /\ heap_ok R s' bl /\ pc_ok R s' bl u pc' /\ bytes s' = bytes s /\
    (pc' = Return (Some (R + 64 * (b_at b + 1))) \/ pc' = Adjust (R + 64 * b_at b) (R + 64 * b_at b)).
Proof.
  intros Hok Hb Hub Hs Hlow. pose proof Hok as [H Hc]. unfold mem_malloc_adjust_lfree. rewrite bind_get.
  destruct (Z.eqb_spec (R + 64 * b_at b) (lfree s)) as [E|E].
  - rewrite <- E. destruct (adjust_run R s bl u b (b_at b) Hok Hb Hub Hs) as (s' & pc' & Hr & H1 & H2 & H3 & H4); [done|right; by exists b| |].
    + intros c Hcc Hlt. destruct (lowest_unit R s bl H) as (L & HL & [_ Hfree] & _). destruct (b_used c) eqn:Huc; [done|]. specialize (Hfree c Hcc Huc). lia.
    + exists s', pc'. split; [done|]. split; [done|]. split; [done|]. split; [done|]. destruct H4 as [?|[? _]]; auto.
  - destruct Hlow as [?|Hex]; [congruence|]. destruct (us_at R s bl b H Hb) as (_ & _ & ? & ?). destruct (placed_bounds R s (h_placed _ _ _ H)) as (? & ? & _).
    change SIZEOF_STRUCT_MEM with 64. rewrite u32_small by lia. replace (R + 64 * b_at b + 64) with (R + 64 * (b_at b + 1)) by lia.
    eexists _, _. split; [done|]. split; [done|]. split; [|split; [done|by left]]. split; [done|by exists b].
Qed.

(** ** Taking a block *)

(** The stores of mem_malloc when it splits a block. *)
Definition split_off (k p e : Z) (r : list blk) (s : mem_state) : mem_state :=
  relink r p (w_used k 1 (w_next k (64 * p) (w_prev p (64 * k) (w_next p (64 * e) (w_used p 0 s))))).

Lemma split_run R s k p e r :
  placed R s -> 0 <= k < p -> p < e -> tiles e r UNITS ->
  (set_used (R + 64 * p) 0;; set_next (R + 64 * p) (64 * e);; set_prev (R + 64 * p) (64 * k);; set_next (R + 64 * k) (64 * p);;
   set_used (R + 64 * k) 1;; link_back (64 * e) (64 * p)) s = Some (tt, split_off k p e r s).
Proof.
  intros Hp Hk Hpe Ht. destruct (tiles_bounds _ _ _ Ht) as [He _].
  mrun (set_used_run R s p Hp ltac:(lia) 0). mrun (set_next_run R (w_used p 0 s) p ltac:(by apply (placed_same R s)) ltac:(lia) (64 * e)).
  mrun (set_prev_run R (w_next p (64 * e) (w_used p 0 s)) p ltac:(by apply (placed_same R s)) ltac:(lia) (64 * k)).
  mrun (set_next_run R (w_prev p (64 * k) (w_next p (64 * e) (w_used p 0 s))) k ltac:(by apply (placed_same R s)) ltac:(lia) (64 * p)).
  mrun (set_used_run R (w_next k (64 * p) (w_prev p (64 * k) (w_next p (64 * e) (w_used p 0 s)))) k ltac:(by apply (placed_same R s)) ltac:(lia) 1).
  apply (link_back_run R); [by apply (placed_same R s)|done|lia].
Qed.

Lemma split_same k p e r s : ram (split_off k p e r s) = ram s /\ ram_end (split_off k p e r s) = ram_end s /\ lfree (split_off k p e r s) = lfree s.
Proof. by destruct r. Qed.

Lemma split_fields k p e r s j : 0 <= k < p -> p < e <= UNITS ->
  nx (split_off k p e r s) j = (if decide (j = k) then 64 * p else if decide (j = p) then 64 * e else nx s j) /\
  pv (split_off k p e r s) j = (if is_head r j then 64 * p else if decide (j = p) then 64 * k else pv s j) /\
  us (split_off k p e r s) j = (if decide (j = k) then 1 else if decide (j = p) then 0 else us s j).
Proof.
  intros Hk Hp. unfold split_off.
  assert (0 <= p <= UNITS) by lia. assert (0 <= 64 * p < 4294967296 /\ 0 <= 64 * e < 4294967296 /\ 0 <= 64 * k < 4294967296) as (? & ? & ?) by (unfold UNITS in *; lia).
  fields. done.
Qed.

Lemma split_bytes R k p e r s bl : ram s = R -> (forall j, j = k \/ j = p \/ is_head r j = true -> exists b, b ∈ bl /\ b_at b = j) ->
  writes_structs R bl s (split_off k p e r s).
Proof.
  intros HR Hbl a Ha. assert (forall j, (exists b, b ∈ bl /\ b_at b = j) -> ~ (R + 64 * j <= a < R + 64 * j + 64)) as Hj.
  { intros j (b & Hb & <-) Hin. apply Ha. by exists b. }
  unfold split_off. transitivity (bytes (w_used k 1 (w_next k (64 * p) (w_prev p (64 * k) (w_next p (64 * e) (w_used p 0 s))))) a).
  - destruct r as [|z r]; [done|]. apply (w_prev_bytes R); [done|]. apply Hj, Hbl. right. right. by apply bool_decide_eq_true_2.
  - assert (~ (R + 64 * k <= a < R + 64 * k + 64)) by (apply Hj, Hbl; by left). assert (~ (R + 64 * p <= a < R + 64 * p + 64)) by (apply Hj, Hbl; right; by left).
    by rewrite (w_used_bytes R), (w_next_bytes R), (w_prev_bytes R), (w_next_bytes R), (w_used_bytes R) by done.
Qed.

Lemma mark_used R s l x r :
  heap_ok R s (l ++ x :: r) -> heap_ok R (w_used (b_at x) 1 s) (l ++ Blk (b_at x) (b_end x) true :: r).
Proof.
  intros [H Hc]. destruct (mid_fields R s l x r H) as (Hp & Hx1 & Hx2 & Hn & Hpv & Hu & Htr). destruct (h_low _ _ _ H) as (L & HL & Hat & Hfree).
  split; [|by apply (coalesced_used l x)].
  apply (replace_ok R s _ l [x] [Blk (b_at x) (b_end x) true] r (b_at x) (b_end x)); try done.
  - by apply (placed_same R s).
  - simpl. lia.
  - simpl. lia.
  - intros j Hj. fields. rewrite decide_False by lia. split; [done|]. split; [done|]. destruct (is_head r j) eqn:E; [|done]. by apply (head_pv R s l x r).
  - simpl. fields. by rewrite decide_True.
  - exists L. split; [done|]. split.
    + destruct Hat as [?|(b & Hb & <-)]; [by left|]. right. apply elem_of_app in Hb as [Hb|[->|Hb]%elem_of_cons];
        [exists b; set_solver|exists (Blk (b_at x) (b_end x) true); set_solver|exists b; set_solver].
    + intros b [Hb|[->|Hb]%elem_of_cons]%elem_of_app Hub; [|done|]; apply Hfree; set_solver.
Qed.

Lemma mark_bytes R s l x r : heap_pre R s (l ++ x :: r) -> writes_structs R (l ++ x :: r) s (w_used (b_at x) 1 s).
Proof.
  intros H a Ha. apply (w_used_bytes R); [apply H|]. intros Hin. apply Ha. exists x. split; [set_solver|done].
Qed.

Lemma allot_mid l x r u :
  tiles 0 (l ++ x :: r) UNITS -> coalesced (l ++ x :: r) -> b_used x = false -> 1 <= u -> 64 * u <= b_size x ->
  let p := b_at x + 1 + u in
  if decide (b_end x <= p + 1) then allot (b_at x) u (l ++ x :: r) = l ++ Blk (b_at x) (b_end x) true :: r
  else allot (b_at x) u (l ++ x :: r) = l ++ Blk (b_at x) p true :: Blk p (b_end x) false :: r /\
    coalesced (l ++ Blk (b_at x) p true :: Blk p (b_end x) false :: r).
Proof.
  intros Ht Hc Hx Hu Hs p. unfold allot. rewrite with_block_mid by done. set (x' := Blk (b_at x) (b_end x) true). simpl app. unfold b_size in Hs.
  assert (tiles 0 (l ++ x' :: r) UNITS) as Ht'.
  { apply tiles_app in Ht as (j & ? & ?). apply tiles_app. by exists j. }
  assert (next_free r = false) as Hnf.
  { destruct r as [|y r]; [done|]. apply coalesced_app in Hc as (_ & [_ Hy]%coalesced_cons & _). simpl. destruct (Hy y r eq_refl) as [?|Hyu]; [congruence|by rewrite Hyu]. }
  pose proof (shrink_used l x' r u Ht' (coalesced_used l x x' r Hc eq_refl) eq_refl Hnf Hu) as Hsh. simpl in Hsh. specialize (Hsh ltac:(lia)).
  unfold p. case_decide; case_decide; try lia; done.
Qed.

(** Where the blocks are that mem_malloc may take. *)
Lemma exact_taken R s s' l x r mm : exact R s (l ++ x :: r) -> lfree s' = lfree s -> lfree s <> R + 64 * b_at x ->
  (forall b, b ∈ mm -> b_at b = b_at x \/ b_used b = false) -> exact R s' (l ++ mm ++ r).
Proof.
  intros Hex E Hne Hmm b Hb Hl. rewrite E in Hl. rewrite !elem_of_app in Hb. destruct Hb as [Hb|[Hb|Hb]].
  - apply Hex; [set_solver|done].
  - destruct (Hmm b Hb) as [Eb|?]; [by rewrite Eb in Hl|done].
  - apply Hex; [set_solver|done].
Qed.

Lemma take_run R s l x r u :
  heap_ok R s (l ++ x :: r) -> exact R s (l ++ x :: r) -> b_used x = false -> 1 <= u -> 64 * u <= b_size x ->
  let bl' := allot (b_at x) u (l ++ x :: r) in
  exists s' pc', malloc_take (64 * u) (64 * b_at x) s = Some (pc', s') /\ heap_ok R s' bl' /\ pc_ok R s' bl' u pc' /\ writes_structs R bl' s s' /\
    (pc' = Return (Some (R + 64 * (b_at x + 1))) \/ pc' = Adjust (R + 64 * b_at x) (R + 64 * b_at x)).
Proof.
  intros [H Hc] Hex Hx Hu Hs bl'. destruct (mid_fields R s l x r H) as (Hp & Hx1 & Hx2 & Hn & _ & _ & Htr). set (p := b_at x + 1 + u).
  enough (exists s1 b mm, malloc_take (64 * u) (64 * b_at x) s = mem_malloc_adjust_lfree (R + 64 * b_at x) s1 /\
    bl' = l ++ (b :: mm) ++ r /\ heap_ok R s1 bl' /\ writes_structs R bl' s s1 /\ lfree s1 = lfree s /\
    b_at b = b_at x /\ b_used b = true /\ 64 * u <= b_size b /\ forall c, c ∈ mm -> b_used c = false) as (s1 & b & mm & Hrun & E & H1 & W1 & L1 & Eb & Hbu & Hbs & Hmm).
  { destruct (adjust_lfree_run R s1 bl' u b) as (s' & pc' & Hr & H2 & P2 & B2 & C2); [done|rewrite E; set_solver|done|done| |].
    - rewrite Eb, L1. destruct (decide (lfree s = R + 64 * b_at x)) as [?|Hne]; [by left|right]. rewrite E.
      apply (exact_taken R s s1 l x r); [done..|]. intros c [->|Hcc]%elem_of_cons; [by left|right; by apply Hmm].
    - exists s', pc'. rewrite Hrun, <- Eb. split; [done|]. split; [done|]. split; [done|]. split; [|done]. intros a Ha. rewrite B2. by apply W1. }
  pose proof (allot_mid l x r u (h_tiles _ _ _ H) Hc Hx Hu Hs) as Hal. fold bl' p in Hal. unfold b_size in Hs.
  assert (u32 (64 * b_at x + 64) = 64 * (b_at x + 1)) as E1 by (rewrite u32_small; unfold UNITS in *; lia).
  assert (u32 (64 * b_at x + 64 + 64 * u) = 64 * p) as E2 by (rewrite u32_small; unfold p, UNITS in *; lia).
  assert (u32 (64 * u + 64 + 64) = 64 * (u + 2)) as E3 by (rewrite u32_small; unfold UNITS in *; lia).
  assert (u32 (64 * b_end x - 64 * (b_at x + 1)) = 64 * (b_end x - b_at x - 1)) as E4 by (rewrite u32_small; unfold UNITS in *; lia).
  unfold malloc_take. change SIZEOF_STRUCT_MEM with 64. change MIN_SIZE_ALIGNED with 64. rewrite E1, E2, E3.
  cbv zeta in Hal. destruct (decide (b_end x <= p + 1)) as [Hd|Hd].
  - pose proof (mark_used R s l x r (conj H Hc)) as Hm. exists (w_used (b_at x) 1 s), (Blk (b_at x) (b_end x) true), []. rewrite Hal.
    split; [|split; [done|split; [done|split; [|split; [done|split; [done|split; [done|split; [unfold b_size; simpl; lia|by intros ? ?%elem_of_nil]]]]]]]].
    + mrun (ptr_to_mem_run R s (b_at x) Hp ltac:(lia)). mrun (get_next_run R s (b_at x) Hp ltac:(lia)). rewrite Hn, E4.
      rewrite (proj2 (Z.leb_gt _ _)) by (unfold p in *; lia). by mrun (set_used_run R s (b_at x) Hp ltac:(lia) 1).
    + intros a Ha. apply (mark_bytes R s l x r); [done|]. intros (b & Hb & Hin). apply Ha.
      apply elem_of_app in Hb as [Hb|[->|Hb]%elem_of_cons]; [exists b; set_solver|exists (Blk (b_at x) (b_end x) true); set_solver|exists b; set_solver].
  - destruct Hal as [-> Hc']. destruct (h_low _ _ _ H) as (L & HL & Hat & Hfree). destruct (split_same (b_at x) p (b_end x) r s) as (S1 & S2 & S3).
    exists (split_off (b_at x) p (b_end x) r s), (Blk (b_at x) p true), [Blk p (b_end x) false].
    split; [|split; [done|split; [split; [|done]|split; [|split; [done|]]]]].
    + mrun (ptr_to_mem_run R s (b_at x) Hp ltac:(lia)). mrun (get_next_run R s (b_at x) Hp ltac:(lia)). rewrite Hn, E4.
      rewrite (proj2 (Z.leb_le _ _)) by (unfold p in *; lia). rewrite bind_assoc. mrun (ptr_to_mem_run R s p Hp ltac:(unfold p; lia)).
      by mrun (split_run R s (b_at x) p (b_end x) r Hp ltac:(unfold p; lia) ltac:(lia) Htr).
    + apply (carve_ok R s _ l x [] r (b_end x) p); [done|simpl; split_and!; done || lia|unfold p; lia|lia|by apply (placed_same R s)|..].
      1-3: intros j; apply (split_fields (b_at x) p (b_end x) r s j); unfold p; lia.
      exists L. rewrite S3. split; [done|]. split.
      * destruct Hat as [?|(b & Hb & <-)]; [by left|]. right. apply elem_of_app in Hb as [Hb|[->|Hb]%elem_of_cons];
          [exists b; set_solver|exists (Blk (b_at x) p true); set_solver|exists b; set_solver].
      * intros b [Hb|[->|[->|Hb]%elem_of_cons]%elem_of_cons]%elem_of_app Hub; [apply Hfree; set_solver|done| |apply Hfree; set_solver].
        simpl. specialize (Hfree x ltac:(set_solver) Hx). unfold p. lia.
    + apply split_bytes; [apply Hp|]. intros j [->|[->|Hj]]; [exists (Blk (b_at x) p true)|exists (Blk p (b_end x) false)|]; [set_solver..|].
      destruct r as [|z r]; [done|]. apply bool_decide_eq_true in Hj as ->. exists z. set_solver.
    + split; [done|]. split; [done|]. unfold b_size. simpl. split; [unfold p; lia|]. by intros c ->%list_elem_of_singleton.
Qed.

(** ** Sections *)

(** Where mem_malloc waits, interrupts have just been let in. *)
Definition waiting (pc : malloc_pc) : Prop := match pc with Return _ => False | _ => True end.
(** How far it still has to go if nobody disturbs it, in units. *)
Definition rank (R : Z) (pc : malloc_pc) : Z :=
  match pc with
  | Search ptr => 2 * UNITS - ptr / 64
  | Adjust _ cur => UNITS - (cur - R) / 64
  | Return _ => 0
  end.
Lemma rank_search R k : rank R (Search (64 * k)) = 2 * UNITS - k.
Proof. simpl. replace (64 * k) with (k * 64) by lia. by rewrite Z.div_mul. Qed.
Lemma rank_adjust R m k : rank R (Adjust m (R + 64 * k)) = UNITS - k.
Proof. simpl. replace (R + 64 * k - R) with (k * 64) by lia. by rewrite Z.div_mul. Qed.

Lemma behind R s bl c d : heap_pre R s bl -> c ∈ bl -> d ∈ bl -> b_at d < b_end c -> b_at d < b_at c \/ d = c.
Proof.
  intros H (l & r & ->)%list_elem_of_split Hd Hlt. apply h_tiles, tiles_mid in H as (_ & _ & _ & _ & _ & Hl & Hr).
  apply elem_of_app in Hd as [Hd|[->|Hd]%elem_of_cons]; [left; specialize (Hl d Hd); lia|by right|specialize (Hr d Hd); lia].
Qed.

Lemma search_step R s bl u k :
  heap_ok R s bl -> 1 <= u <= UNITS -> exact R s bl -> mem_free_count s = 0 -> k + u < UNITS -> cursor u k bl ->
  exists s' pc' bl', malloc_step (64 * u) (Search (64 * k)) s = Some (pc', s') /\ malloc_effect R u bl (Search (64 * k)) bl' pc' /\
    heap_ok R s' bl' /\ pc_ok R s' bl' u pc' /\ writes_structs R bl' s s' /\ rank R pc' + 2 <= rank R (Search (64 * k)).
Proof.
  intros Hok Hu Hex Hcnt Hku [Hat Hcur]. pose proof Hok as [H Hc].
  destruct Hat as [?|(x & Hx & Ek)]; [lia|]. subst k. destruct (us_at R s bl x H Hx) as (Hus & Hnx & Hx1 & Hx2). pose proof (h_placed _ _ _ H) as Hp.
  unfold malloc_step. rewrite bind_get, Hcnt. cbn [Z.eqb negb]. mrun (ptr_to_mem_run R s (b_at x) Hp ltac:(lia)).
  mrun (get_used_run R s (b_at x) Hp ltac:(lia)). mrun (get_next_run R s (b_at x) Hp ltac:(lia)). rewrite Hus, Hnx, bool_to_Z_0.
  change SIZEOF_STRUCT_MEM with 64. rewrite (u32_small (64 * b_at x + 64)), u32_small by (unfold UNITS in *; lia).
  replace (64 * b_end x - (64 * b_at x + 64)) with (b_size x) by (unfold b_size; lia). rewrite rank_search.
  destruct (decide (fits u x)) as [[Hf Hs]|Hnf].
  - rewrite Hf, (proj2 (Z.leb_le _ _)) by done. apply list_elem_of_split in Hx as (l & r & ->).
    destruct (take_run R s l x r u Hok Hex Hf ltac:(lia) Hs) as (s' & pc' & Hrun & H1 & H2 & H3 & H4). exists s', pc', (allot (b_at x) u (l ++ x :: r)).
    split; [done|]. split; [|split; [done|split; [done|split; [done|]]]].
    + apply taken; [|destruct H4; [by left|right; by eexists]]. apply first_fit_split; [|done]. apply Forall_forall. intros b Hb. apply Hcur; [set_solver|].
      apply h_tiles, tiles_mid in H as (_ & _ & _ & _ & _ & Hl & _). specialize (Hl b Hb). lia.
    + destruct H4 as [->| ->]; [simpl; unfold UNITS in *; lia|rewrite rank_adjust; unfold UNITS in *; lia].
  - assert (negb (b_used x) && (64 * u <=? b_size x) = false) as ->.
    { apply andb_false_iff. destruct (b_used x) eqn:Hxu; [by left|right]. apply Z.leb_gt. unfold fits in Hnf. rewrite Hxu in Hnf. destruct (Z.lt_ge_cases (b_size x) (64 * u)); [done|]. by destruct Hnf. }
    destruct (scan_run R s bl u (b_end x) Hok Hex Hu) as (s' & pc' & Hrun & H1 & H2 & H3).
    { split; [by apply (boundary_end R s)|]. intros b Hb Hlt. destruct (behind R s bl x b H Hx Hb Hlt) as [?| ->]; [by apply Hcur|done]. }
    exists s', pc', bl. split; [done|]. split; [|split; [|split; [done|split]]].
    + destruct H3 as [[-> _]|[-> ?]]; by constructor.
    + destruct H2 as [->| ->]; [done|by apply heap_ok_count].
    + destruct H2 as [->| ->]; by intros ? _.
    + destruct H3 as [[-> ?]|[-> _]]; [rewrite rank_search; lia|simpl; unfold UNITS in *; lia].
Qed.

Lemma malloc_step_run R s bl u pc :
  heap_ok R s bl -> 1 <= u <= UNITS -> pc_ok R s bl u pc -> waiting pc ->
  exists s' pc' bl', malloc_step (64 * u) pc s = Some (pc', s') /\ malloc_effect R u bl pc bl' pc' /\
    heap_ok R s' bl' /\ pc_ok R s' bl' u pc' /\ writes_structs R bl' s s' /\ (mem_free_count s = 0 -> rank R pc' + 2 <= rank R pc).
Proof.
  intros Hok Hu Hpc Hw. pose proof Hok as [H Hc]. destruct pc as [ptr|mem cur|]; [| |done].
  - destruct Hpc as [Hex Hcur]. destruct (Z.eq_dec (mem_free_count s) 0) as [Hcnt|Hcnt].
    + destruct (Hcur Hcnt) as (k & -> & Hk & Hck). destruct (search_step R s bl u k Hok Hu Hex Hcnt Hk Hck) as (s' & pc' & bl' & ? & ? & ? & ? & ? & ?).
      exists s', pc', bl'. auto 10.
    + unfold malloc_step. rewrite bind_get, (proj2 (Z.eqb_neq _ _)) by done. cbn [negb].
      destruct (restart_run R s bl u Hok Hex Hu) as (s' & pc' & Hrun & H1 & H2 & H3). exists s', pc', bl. split; [done|].
      split; [destruct H3 as [(k & _ & -> & _)|[-> ?]]; by constructor|]. split; [destruct H2 as [->| ->]; [done|by apply heap_ok_count]|].
      split; [done|]. split; [destruct H2 as [->| ->]; by intros ? _|done].
  - destruct Hpc as ((b & Hb & -> & Hub & Hs) & Hlow & Hcur). unfold malloc_step. rewrite bind_get. destruct (Z.eq_dec (mem_free_count s) 0) as [Hcnt|Hcnt].
    + rewrite Hcnt. cbn [Z.eqb negb]. destruct (Hcur Hcnt) as (HL & c & Hcc & -> & Hbelow). destruct (us_at R s bl c H Hcc) as (_ & Hnx & Hc1 & Hc2).
      pose proof (h_placed _ _ _ H) as Hp. mrun (get_next_run R s (b_at c) Hp ltac:(lia)). rewrite Hnx. mrun (ptr_to_mem_run R s (b_end c) Hp ltac:(lia)).
      destruct (adjust_run R s bl u b (b_end c) Hok Hb Hub Hs HL) as (s' & pc' & Hrun & H1 & H2 & H3 & H4).
      * by apply (boundary_end R s).
      * intros d Hd Hlt. apply Hbelow; [done|]. destruct (behind R s bl c d H Hcc Hd Hlt) as [?| ->]; lia.
      * exists s', pc', bl. split; [done|]. split; [|split; [done|split; [done|split; [by intros a _; rewrite H3|intros _]]]].
        -- constructor. destruct H4 as [->|[-> _]]; [by left|right; by eexists].
        -- rewrite rank_adjust. destruct H4 as [->|[-> ?]]; [simpl; lia|rewrite rank_adjust; lia].
    + rewrite (proj2 (Z.eqb_neq _ _)) by done. cbn [negb].
      destruct (adjust_lfree_run R s bl u b Hok Hb Hub Hs Hlow) as (s' & pc' & Hrun & H1 & H2 & H3 & H4). exists s', pc', bl. split; [done|].
      split; [constructor; destruct H4 as [->| ->]; [by left|right; by eexists]|]. split; [done|]. split; [done|]. split; [by intros a _; rewrite H3|done].
Qed.

(** Nobody has been there yet when it starts to wait. *)
Lemma scan_fresh size ptr s pc s' : malloc_scan size ptr s = Some (pc, s') -> waiting pc -> mem_free_count s' = 0.
Proof. unfold malloc_scan. destruct (_ <? _); intros [= <- <-]; done. Qed.
Lemma adjust_fresh mem cur s pc s' : malloc_adjust mem cur s = Some (pc, s') -> waiting pc -> mem_free_count s' = 0.
Proof.
  unfold malloc_adjust. intros (v & s1 & _ & H)%bind_Some. rewrite bind_get in H. destruct (_ && _); injection H as <- <-; done.
Qed.
Lemma adjust_lfree_fresh mem s pc s' : mem_malloc_adjust_lfree mem s = Some (pc, s') -> waiting pc -> mem_free_count s' = 0.
Proof.
  unfold mem_malloc_adjust_lfree. rewrite bind_get. destruct (_ =? _); [apply adjust_fresh|]. by intros [= <- <-].
Qed.
Lemma restart_fresh size s pc s' : malloc_restart size s = Some (pc, s') -> waiting pc -> mem_free_count s' = 0.
Proof. unfold malloc_restart. rewrite bind_get. intros (ptr & s1 & _ & H)%bind_Some. exact (scan_fresh _ _ _ _ _ H). Qed.
Lemma step_fresh size pc s pc' s' : malloc_step size pc s = Some (pc', s') -> waiting pc' -> waiting pc -> mem_free_count s' = 0.
Proof.
  unfold malloc_step. rewrite bind_get. intros H Hw' Hw. destruct pc as [ptr|mem cur|]; [| |done].
  - destruct (negb _); [by apply restart_fresh in H|]. apply bind_Some in H as (mem & s1 & _ & H). apply bind_Some in H as (used & s2 & _ & H).
    apply bind_Some in H as (next & s3 & _ & H). destruct (_ && _); [|by apply scan_fresh in H]. unfold malloc_take in H.
    apply bind_Some in H as (m & s4 & _ & H). apply bind_Some in H as (n & s5 & _ & H). apply bind_Some in H as (? & s6 & _ & H). by apply adjust_lfree_fresh in H.
  - destruct (negb _); [by apply adjust_lfree_fresh in H|]. apply bind_Some in H as (n & s1 & _ & H). apply bind_Some in H as (c & s2 & _ & H). by apply adjust_fresh in H.
Qed.

Lemma pc_cases pc : waiting pc \/ exists r, pc = Return r.
Proof. destruct pc; [by left|by left|right; by eexists]. Qed.

(** ** What is kept *)

(** The data of the blocks is not in the structs. *)
Lemma data_kept R s s' bl b a :
  tiles 0 bl UNITS -> writes_structs R bl s s' -> b ∈ bl -> R + 64 * (b_at b + 1) <= a < R + 64 * b_end b -> bytes s' a = bytes s a.
Proof.
  intros H W Hb Ha. apply W. intros (c & Hc & Hin). apply list_elem_of_split in Hb as (l & r & ->). apply tiles_mid in H as (_ & _ & _ & _ & _ & Hl & Hr).
  apply elem_of_app in Hc as [Hc|[->|Hc]%elem_of_cons]; [specialize (Hl c Hc)| |specialize (Hr c Hc)]; lia.
Qed.

Lemma allot_keeps R s bl u x b :
  heap_ok R s bl -> 1 <= u -> first_fit u bl = Some x -> b ∈ bl -> b_used b = true -> b ∈ allot (b_at x) u bl.
Proof.
  intros [H Hc] Hu Hf Hb Hub. unfold first_fit in Hf. apply fmap_Some in Hf as ([i y] & (Hi & [Hy Hs] & _)%list_find_Some & ->). simpl.
  apply list_elem_of_lookup_2, list_elem_of_split in Hi as (l & r & ->). pose proof (allot_mid l y r u (h_tiles _ _ _ H) Hc Hy Hu Hs) as Hal. cbv zeta in Hal.
  assert (b ∈ l \/ b ∈ r) as Hlr. { apply elem_of_app in Hb as [?|[->|?]%elem_of_cons]; [by left|congruence|by right]. }
  destruct (decide (b_end y <= b_at y + 1 + u + 1)); [rewrite Hal|destruct Hal as [-> _]]; set_solver.
Qed.

Lemma effect_keeps R s bl u pc bl' pc' b :
  heap_ok R s bl -> 1 <= u -> malloc_effect R u bl pc bl' pc' -> b ∈ bl -> b_used b = true -> b ∈ bl'.
Proof. intros H Hu []; [done|done|by apply (allot_keeps R s)|done]. Qed.

(** ** Alone *)

Definition used_data_kept (R : Z) (bl : list blk) (s s' : mem_state) : Prop :=
  forall b a, b ∈ bl -> b_used b = true -> R + 64 * (b_at b + 1) <= a < R + 64 * b_end b -> bytes s' a = bytes s a.

Lemma rank_bounds R s bl u pc : pc_ok R s bl u pc -> heap_ok R s bl -> mem_free_count s = 0 -> waiting pc -> 0 < rank R pc <= 2 * UNITS.
Proof.
  intros Hpc [H _] Hcnt Hw. destruct pc as [ptr|mem cur|r]; [| |done].
  - destruct Hpc as [_ Hc]. destruct (Hc Hcnt) as (k & -> & Hk & [Hb _]). rewrite rank_search.
    assert (0 <= k <= UNITS); [|unfold UNITS in *; lia]. destruct Hb as [->|(b & Hb & <-)]; [done|destruct (us_at R s bl b H Hb); lia].
  - destruct Hpc as (_ & _ & Hc). destruct (Hc Hcnt) as (_ & c & Hcc & -> & _). rewrite rank_adjust. destruct (us_at R s bl c H Hcc). unfold UNITS in *. lia.
Qed.

(** What mem_malloc comes to from where it is. *)
Definition outcome (R u : Z) (bl : list blk) (pc : malloc_pc) (r : option Z) (bl' : list blk) : Prop :=
  match pc with
  | Search _ =>
      match first_fit u bl with
      | Some x => r = Some (R + 64 * (b_at x + 1)) /\ bl' = allot (b_at x) u bl
      | None => r = None /\ bl' = bl
      end
  | Adjust mem _ => r = Some (mem + 64) /\ bl' = bl
  | Return r' => r = r' /\ bl' = bl
  end.

Lemma outcome_step R u bl pc bl1 pc1 r bl' :
  malloc_effect R u bl pc bl1 pc1 -> outcome R u bl1 pc1 r bl' -> outcome R u bl pc r bl'.
Proof.
  intros [ptr ptr'|ptr Hf|ptr x pc' Hf Hpc|m cur pc' Hpc]; simpl; [done|by rewrite Hf|rewrite Hf|].
  - destruct Hpc as [->|(cur & ->)]; simpl; [done|]. intros [-> ->]. split; [f_equal; lia|done].
  - destruct Hpc as [->|(cur' & ->)]; simpl; [|done]. intros [-> ->]. split; [f_equal; lia|done].
Qed.

Lemma malloc_run_ok R u fuel : forall s bl pc,
  heap_ok R s bl -> 1 <= u <= UNITS -> pc_ok R s bl u pc -> (waiting pc -> mem_free_count s = 0) -> rank R pc <= 2 * Z.of_nat fuel ->
  exists r s' bl', malloc_run fuel (64 * u) pc s = Some (r, s') /\ outcome R u bl pc r bl' /\ heap_ok R s' bl' /\ exact R s' bl' /\ used_data_kept R bl s s'.
Proof.
  induction fuel as [|fuel IH]; intros s bl pc Hok Hu Hpc Hcnt Hr; destruct (pc_cases pc) as [Hw|[r ->]].
  1: pose proof (rank_bounds R s bl u pc Hpc Hok (Hcnt Hw) Hw); lia.
  1,3: exists r, s, bl; split; [done|]; split; [done|]; split; [done|]; split; [destruct r; [apply Hpc|done]|by intros ? ? _ _ _].
  destruct (malloc_step_run R s bl u pc Hok Hu Hpc Hw) as (s1 & pc1 & bl1 & Hrun & Heff & Hok1 & Hpc1 & Hwr & Hrk). specialize (Hrk (Hcnt Hw)).
  destruct (IH s1 bl1 pc1 Hok1 Hu Hpc1) as (r & s' & bl' & Hrun' & Hout & Hok' & Hex & Hd).
  - intros Hw1. by apply (step_fresh _ _ _ _ _ Hrun).
  - lia.
  - exists r, s', bl'. split; [|split; [by apply (outcome_step R u bl pc bl1 pc1)|split; [done|split; [done|]]]].
    + simpl. destruct pc; [| |done]; by mrun Hrun.
    + intros b a Hb Hub Ha. pose proof (effect_keeps R s bl u pc bl1 pc1 b Hok ltac:(lia) Heff Hb Hub) as Hb1.
      rewrite (Hd b a Hb1 Hub Ha). apply (data_kept R s s1 bl1 b); [apply Hok1|done..].
Qed.

(** mem_malloc with nobody in between: the first free block that fits. *)
Lemma malloc_alone_run R s bl n :
  heap_ok R s bl -> exact R s bl -> 0 < n <= MEM_SIZE_ALIGNED ->
  exists r s' bl', mem_malloc n s = Some (r, s') /\ heap_ok R s' bl' /\ exact R s' bl' /\ used_data_kept R bl s s' /\
    match first_fit (units_of n) bl with
    | Some x => r = Some (R + 64 * (b_at x + 1)) /\ bl' = allot (b_at x) (units_of n) bl
    | None => r = None /\ bl' = bl
    end.
Proof.
  intros Hok Hex Hn. set (u := units_of n). change MEM_SIZE_ALIGNED with 131072 in Hn.
  assert (1 <= u <= UNITS) as Hu by (unfold u, units_of, UNITS; Z.to_euclidean_division_equations; lia).
  unfold mem_malloc, malloc_start. rewrite (proj2 (Z.eqb_neq _ _)) by lia. rewrite block_size_units by lia. change MEM_SIZE_ALIGNED with 131072.
  rewrite (proj2 (Z.ltb_ge _ _)) by lia. fold u.
  destruct (restart_run R s bl u Hok Hex Hu) as (s1 & pc & Hrun & Hpc & Hs1 & Hcase). mrun Hrun.
  assert (heap_ok R s1 bl /\ bytes s1 = bytes s) as [Hok1 Hb1] by (destruct Hs1 as [->| ->]; [done|split; [by apply heap_ok_count|done]]).
  destruct (malloc_run_ok R u malloc_fuel s1 bl pc Hok1 Hu Hpc) as (r & s' & bl' & Hr & Hout & Hok' & Hex' & Hd).
  - intros Hw. by apply (restart_fresh _ _ _ _ Hrun).
  - change (2 * Z.of_nat malloc_fuel) with (2 * UNITS). destruct Hcase as [(k & ? & -> & ?)|[-> _]]; [rewrite rank_search; lia|done].
  - exists r, s', bl'. split; [done|]. split; [done|]. split; [done|]. split; [intros b a Hb Hub Ha; by rewrite (Hd b a), Hb1|].
    destruct Hcase as [(k & _ & -> & _)|[-> Hnf]]; [done|]. simpl in Hout. by rewrite Hnf.
Qed.

End Alloc.
