(* ===== verification/MemSys.v ===== *)
(** * The heap, with mem_free and mem_trim from other contexts

    One mem_malloc at a time holds mem_mutex; while it searches it lets interrupts
    in, and then others - interrupt handlers, other threads - free, trim and write
    to blocks of theirs.  [sys_do] is one such event, [sys_ok] what they all keep. *)
From S2P Require Import Prelude Triple Pbuf Mem MemInv MemOps MemTrim MemAlloc.

Inductive mem_event :=
  | Malloc (n : Z)
  | Section_
  | Free (a : Z)
  | Trim (a n : Z)
  | Write (a i v : Z).

(** The heap, the mem_malloc that is under way - the size it was asked for, and
    where it waits -, and the blocks in use with their sizes. *)
Record sys := Sys { sheap : mem_state; scall : option (Z * malloc_pc); sheld : gmap Z Z }.

Section Sys.
Context {RH : RamHeap}.

(** A call that has come to its end gives its block to the caller. *)
Definition settle (n : Z) (pc : malloc_pc) (h : mem_state) (held : gmap Z Z) : sys :=
  match pc with
  | Return (Some a) => Sys h None (<[a := n]> held)
  | Return None => Sys h None held
  | _ => Sys h (Some (n, pc)) held
  end.

Definition sys_do (e : mem_event) (y : sys) : option sys :=
  match e with
  | Malloc n =>
      match scall y, malloc_start n with
      | None, Some size => '(pc, h) ← malloc_restart size (sheap y); Some (settle n pc h (sheld y))
      | _, _ => Some y
      end
  | Section_ =>
      match scall y with
      | Some (n, pc) => size ← malloc_start n; '(pc, h) ← malloc_step size pc (sheap y); Some (settle n pc h (sheld y))
      | None => Some y
      end
  | Free a => '(_, h) ← mem_free (Some a) (sheap y); Some (Sys h (scall y) (delete a (sheld y)))
  | Trim a n =>
      '(r, h) ← mem_trim a n (sheap y);
      Some (Sys h (scall y) (match r with Some _ => <[a := n]> (sheld y) | None => sheld y end))
  | Write a i v => Some (Sys (set_bytes (put8 (a + i) v (bytes (sheap y))) (sheap y)) (scall y) (sheld y))
  end.

(** Blocks are freed, trimmed and written by those who have them. *)
Definition may (e : mem_event) (y : sys) : Prop :=
  match e with
  | Malloc n => 0 <= n < 4294967296
  | Section_ => True
  | Free a => is_Some (sheld y !! a)
  | Trim a n => is_Some (sheld y !! a) /\ 0 <= n < 4294967296
  | Write a i v => exists n, sheld y !! a = Some n /\ 0 <= i < n
  end.
Inductive sys_step (y y' : sys) : Prop := sys_step_ e : may e y -> sys_do e y = Some y' -> sys_step y y'.

(** ** Used blocks *)

Definition addr (R : Z) (b : blk) : Z := R + 64 * (b_at b + 1).

Lemma merge_used bl b : b_used b = true -> b ∈ merge bl <-> b ∈ bl.
Proof.
  intros Hb. induction bl as [|c r IH]; [done|]. simpl. destruct (merge r) as [|d r'] eqn:E.
  - rewrite !elem_of_cons. tauto.
  - destruct (b_used c) eqn:Hc, (b_used d) eqn:Hd; simpl; rewrite !elem_of_cons in *; try naive_solver.
    split; [intros [->|H]; [done|naive_solver]|]. intros [->|H]; [congruence|]. apply IH in H as [->|?]; [congruence|by right].
Qed.
Lemma with_block_elem k f bl b : b ∈ with_block k f bl <-> exists c, c ∈ bl /\ (b_at c = k /\ b ∈ f c \/ b_at c <> k /\ b = c).
Proof.
  unfold with_block. rewrite list_elem_of_bind. split.
  - intros (c & Hb & Hc). exists c. split; [done|]. destruct (Z.eqb_spec (b_at c) k); [by left|right]. by apply list_elem_of_singleton in Hb.
  - intros (c & Hc & H). exists c. split; [|done]. destruct (Z.eqb_spec (b_at c) k), H as [[? ?]|[? ->]]; try done. by apply list_elem_of_singleton.
Qed.
Lemma release_used k bl b : b_used b = true -> b ∈ release k bl <-> b ∈ bl /\ b_at b <> k.
Proof.
  intros Hb. unfold release. rewrite merge_used, with_block_elem by done. split.
  - intros (c & Hc & [[_ ->%list_elem_of_singleton]|[? ->]]); [done|done].
  - intros [? ?]. exists b. auto.
Qed.
Lemma shrink_keeps k u bl b : b_used b = true -> b ∈ bl -> b_at b <> k -> b ∈ shrink k u bl.
Proof.
  intros Hb Hin Hk. unfold shrink. case_decide; [done|]. unfold cut_at. rewrite merge_used, with_block_elem by done. exists b. auto.
Qed.
Lemma shrink_from k u bl b : b_used b = true -> b ∈ shrink k u bl -> b ∈ bl /\ b_at b <> k \/ b_at b = k /\ exists c, c ∈ bl /\ b_at c = k.
Proof.
  intros Hb. destruct (Z.eq_dec (b_at b) k) as [Ek|Ek]; unfold shrink; case_decide.
  - intros Hin. right. split; [done|]. by exists b.
  - unfold cut_at. rewrite merge_used, with_block_elem by done. intros (c & Hc & [[? _]|[? ->]]); [right; split; [done|]; by exists c|done].
  - intros ?. by left.
  - unfold cut_at. rewrite merge_used, with_block_elem by done. intros (c & Hc & [[? Hx]|[? ->]]); [|by left].
    apply elem_of_cons in Hx as [->|Hx]; [simpl in Ek; congruence|]. by apply list_elem_of_singleton in Hx as ->.
Qed.

Lemma start_inj R s bl b c : heap_pre R s bl -> b ∈ bl -> c ∈ bl -> b_at b = b_at c -> b = c.
Proof.
  intros H Hb Hc E. destruct (us_at R s bl c H Hc) as (_ & _ & _ & ?). destruct (behind R s bl c b H Hc Hb); [lia|lia|done].
Qed.

(** The block that is cut is still there. *)
Lemma shrink_cut R s l x r u :
  heap_ok R s (l ++ x :: r) -> b_used x = true -> 1 <= u -> 64 * u <= b_size x ->
  exists b, b ∈ shrink (b_at x) u (l ++ x :: r) /\ b_at b = b_at x /\ b_used b = true /\ 64 * u <= b_size b.
Proof.
  intros [H Hc] Hx Hu Hs. unfold shrink. case_decide; [exists x; split; [set_solver|done]|].
  exists (Blk (b_at x) (b_at x + 1 + u) true). unfold cut_at. split; [|split; [done|split; [done|unfold b_size; simpl; lia]]].
  apply merge_used; [done|]. rewrite with_block_mid by apply H. set_solver.
Qed.

Lemma allot_block R s l x r u :
  heap_ok R s (l ++ x :: r) -> b_used x = false -> 1 <= u -> 64 * u <= b_size x ->
  forall b, b_used b = true -> b ∈ allot (b_at x) u (l ++ x :: r) -> b ∈ l ++ x :: r \/ b_at b = b_at x.
Proof.
  intros [H Hc] Hx Hu Hs b Hb Hin. pose proof (allot_mid l x r u (h_tiles _ _ _ H) Hc Hx Hu Hs) as Hal. cbv zeta in Hal.
  destruct (decide (b_end x <= b_at x + 1 + u + 1)); [rewrite Hal in Hin|destruct Hal as [E _]; rewrite E in Hin].
  - apply elem_of_app in Hin as [?|[->|?]%elem_of_cons]; [left; set_solver|by right|left; set_solver].
  - apply elem_of_app in Hin as [?|[->|[->|?]%elem_of_cons]%elem_of_cons]; [left; set_solver|by right|done|left; set_solver].
Qed.

(** ** The invariant *)

(** The block mem_malloc has taken and not yet returned. *)
Definition pc_block (R : Z) (pc : malloc_pc) (b : blk) : Prop :=
  pc = Return (Some (addr R b)) \/ exists cur, pc = Adjust (R + 64 * b_at b) cur.

Definition held_ok (R : Z) (bl : list blk) (held : gmap Z Z) : Prop :=
  forall a n, held !! a = Some n -> 0 <= n /\ exists b, b ∈ bl /\ a = addr R b /\ b_used b = true /\ n <= b_size b.
Definition size_ok (n : Z) : Prop := 0 < n <= MEM_SIZE_ALIGNED.

Record sys_ok (R : Z) (y : sys) (bl : list blk) : Prop := {
  so_heap : heap_ok R (sheap y) bl;
  so_held : held_ok R bl (sheld y);
  so_used b : b ∈ bl -> b_used b = true -> is_Some (sheld y !! addr R b) \/ exists n pc, scall y = Some (n, pc) /\ pc_block R pc b;
  so_call :
    match scall y with
    | None => exact R (sheap y) bl
    | Some (n, pc) => waiting pc /\ size_ok n /\ pc_ok R (sheap y) bl (units_of n) pc /\ forall b, pc_block R pc b -> sheld y !! addr R b = None
    end;
}.

Lemma units_of_ok n : size_ok n -> 1 <= units_of n <= UNITS /\ n <= 64 * units_of n.
Proof. unfold size_ok, units_of, UNITS. change MEM_SIZE_ALIGNED with 131072. intros. Z.to_euclidean_division_equations. lia. Qed.
Lemma malloc_start_ok n : 0 <= n < 4294967296 -> malloc_start n = None /\ ~ size_ok n \/ malloc_start n = Some (64 * units_of n) /\ size_ok n.
Proof.
  intros Hn. unfold malloc_start, size_ok. destruct (Z.eqb_spec n 0); [left; split; [done|lia]|]. rewrite block_size_units by done.
  destruct (Z.ltb_spec MEM_SIZE_ALIGNED n); [left; split; [done|lia]|right; split; [done|lia]].
Qed.

Lemma addr_inj R b c : addr R b = addr R c -> b_at b = b_at c.
Proof. unfold addr. lia. Qed.

Lemma settle_ok R n pc h held bl :
  heap_ok R h bl -> size_ok n -> pc_ok R h bl (units_of n) pc -> held_ok R bl held ->
  (forall b, b ∈ bl -> b_used b = true -> is_Some (held !! addr R b) \/ pc_block R pc b) ->
  (forall b, pc_block R pc b -> held !! addr R b = None) -> sys_ok R (settle n pc h held) bl.
Proof.
  intros Hok Hn Hpc Hh Hu Hb. destruct (units_of_ok n Hn) as [_ Hle]. destruct pc as [ptr|mem cur|[a|]]; simpl.
  - split; [done|done| |done]. intros b Hin Hub. destruct (Hu b Hin Hub) as [?|Hpb]; [by left|right]. by exists n, (Search ptr).
  - split; [done|done| |done]. intros b Hin Hub. destruct (Hu b Hin Hub) as [?|Hpb]; [by left|right]. by exists n, (Adjust mem cur).
  - destruct Hpc as [Hex (b & Hin & -> & Hub & Hs)]. split; [done| | |done]; simpl.
    + intros a m. rewrite lookup_insert. case_decide as Ea; [|apply Hh]. intros [= <-]. split; [unfold size_ok in Hn; lia|].
      exists b. split; [done|]. split; [by rewrite <- Ea|]. split; [done|lia].
    + intros c Hc Huc. left. rewrite lookup_insert. case_decide as Ea; [done|]. destruct (Hu c Hc Huc) as [?|[[= E]|(cur & [=])]]; [done|]. unfold addr in *. lia.
  - split; [done|done| |done]. intros b Hin Hub. left. destruct (Hu b Hin Hub) as [?|[[=]|(? & [=])]]. done.
Qed.

Lemma held_mono R bl bl' held : held_ok R bl held -> (forall b, b ∈ bl -> b_used b = true -> b ∈ bl') -> held_ok R bl' held.
Proof. intros H Hsub a n Ha. destruct (H a n Ha) as (? & b & Hb & -> & Hu & ?). split; [done|]. exists b. split; [by apply Hsub|done]. Qed.

(** ** Events *)

Lemma do_malloc R y bl n :
  sys_ok R y bl -> 0 <= n < 4294967296 -> exists y', sys_do (Malloc n) y = Some y' /\ sys_ok R y' bl /\ bytes (sheap y') = bytes (sheap y) /\ sheld y' = sheld y.
Proof.
  intros Hy Hn. pose proof Hy as [Hok Hh Hu Hc]. unfold sys_do. destruct (scall y) as [c|]; [by exists y|].
  destruct (malloc_start_ok n Hn) as [[-> _]|[-> Hs]]; [by exists y|].
  destruct (restart_run R (sheap y) bl (units_of n) Hok Hc) as (h & pc & Hrun & Hpc & Hst & Hcase); [by apply units_of_ok|].
  rewrite Hrun. simpl. eexists. split; [done|].
  assert (heap_ok R h bl /\ bytes h = bytes (sheap y)) as [Hok' Hb] by (destruct Hst as [->| ->]; [done|split; [by apply heap_ok_count|done]]).
  assert (forall b, pc_block R pc b -> False) as Hnb.
  { intros b [E|(cur & E)]; destruct Hcase as [(k & _ & -> & _)|[-> _]]; done. }
  split; [apply settle_ok; [done..| |]|].
  - intros b Hin Hub. left. destruct (Hu b Hin Hub) as [?|(? & ? & [=] & _)]. done.
  - intros b Hpb. by destruct (Hnb b).
  - destruct Hcase as [(k & _ & -> & _)|[-> _]]; done.
Qed.

Lemma do_section R y bl :
  sys_ok R y bl -> exists y' bl', sys_do Section_ y = Some y' /\ sys_ok R y' bl' /\ writes_structs R bl' (sheap y) (sheap y') /\
    (sheld y' = sheld y \/ exists a n, sheld y' = <[a := n]> (sheld y) /\ sheld y !! a = None).
Proof.
  intros Hy. pose proof Hy as [Hok Hh Hu Hc]. unfold sys_do. destruct (scall y) as [[n pc]|].
  2: { exists y, bl. split; [done|]. split; [done|]. split; [by intros ? _|by left]. }
  destruct Hc as (Hw & Hs & Hpc & Hfree). destruct (units_of_ok n Hs) as [Hun _].
  destruct (malloc_start_ok n) as [[_ ?]|[-> _]]; [unfold size_ok in Hs; change MEM_SIZE_ALIGNED with 131072 in Hs; lia|done|].
  destruct (malloc_step_run R (sheap y) bl (units_of n) pc Hok Hun Hpc Hw) as (h & pc' & bl' & Hrun & Heff & Hok' & Hpc' & Hwr & _).
  simpl. rewrite Hrun. simpl. exists (settle n pc' h (sheld y)), bl'. split; [done|].
  assert (forall b, pc_block R pc' b -> sheld y !! addr R b = None) as Hfree'.
  { inversion Heff as [ptr ptr'|ptr Hnf|ptr x pcx Hf Hpx|m cur pcx Hpx]; subst; intros b Hpb.
    - destruct Hpb as [?|(? & ?)]; done.
    - destruct Hpb as [?|(? & ?)]; done.
    - assert (b_at b = b_at x) as Eb. { destruct Hpx as [->|(cur & ->)], Hpb as [[= E]|(cur' & [= E])]; unfold addr in *; lia. }
      destruct (sheld y !! addr R b) as [k|] eqn:E; [|done]. exfalso. destruct (Hh _ _ E) as (_ & c & Hcc & Ea & Huc & _).
      unfold first_fit in Hf. apply fmap_Some in Hf as ([i z] & (Hi & [Hz _] & _)%list_find_Some & ->). apply list_elem_of_lookup_2 in Hi. simpl in Eb.
      rewrite (start_inj R (sheap y) bl c z) in Huc; [congruence|apply Hok|done|done|]. unfold addr in *. lia.
    - apply Hfree. right. destruct Hpx as [->|(cur' & ->)], Hpb as [[= E]|(cur'' & [= E])]; eexists; do 2 f_equal; unfold addr in *; lia. }
  split; [apply settle_ok; [done|done|done| | |done]|split; [by destruct pc' as [| |[]]|]].
  - apply (held_mono R bl); [done|]. intros b Hb Hub. apply (effect_keeps R (sheap y) bl (units_of n) pc bl' pc'); try done; lia.
  - intros b Hb Hub. inversion Heff as [ptr ptr'|ptr Hnf|ptr x pcx Hf Hpx|m cur pcx Hpx]; subst.
    + left. destruct (Hu b Hb Hub) as [?|(? & ? & [= <- <-] & [?|(? & ?)])]; done.
    + left. destruct (Hu b Hb Hub) as [?|(? & ? & [= <- <-] & [?|(? & ?)])]; done.
    + pose proof Hf as Hf'. unfold first_fit in Hf'. apply fmap_Some in Hf' as ([i z] & (Hi & [Hz Hzs] & _)%list_find_Some & ->). apply list_elem_of_lookup_2, list_elem_of_split in Hi as (l & r & ->).
      simpl in *. destruct (allot_block R (sheap y) l z r (units_of n) Hok Hz ltac:(lia) Hzs b Hub Hb) as [Hb'|Eb].
      * left. destruct (Hu b Hb' Hub) as [?|(? & ? & [= <- <-] & [?|(? & ?)])]; done.
      * right. destruct Hpx as [->|(cur & ->)]; [left; unfold addr; by rewrite Eb|right; rewrite Eb; by eexists].
    + destruct (Hu b Hb Hub) as [?|(? & ? & [= <- <-] & [?|(cur' & [= E <-])])]; [by left|done|right].
      destruct Hpx as [->|(cur'' & ->)]; [left; unfold addr; do 2 f_equal; lia|right; eexists; f_equal; lia].
  - destruct pc' as [| |[a|]]; simpl; [by left|by left|right|by left]. exists a, n. split; [done|].
    destruct Hpc' as [_ (b & _ & -> & _)]. apply Hfree'. by left.
Qed.

(** mem_malloc where it waits, after others have changed the heap. *)
Lemma pc_disturbed R s s' bl bl' u pc :
  pc_ok R s bl u pc -> waiting pc -> mem_free_count s' = 1 -> (exact R s bl -> exact R s' bl') -> (lfree s' = lfree s \/ exact R s' bl') ->
  (forall b, pc_block R pc b -> b ∈ bl -> b_used b = true -> b ∈ bl') -> pc_ok R s' bl' u pc.
Proof.
  intros Hpc Hw Hcnt Hex Hlow Hk. destruct pc as [ptr|mem cur|]; [| |done].
  - destruct Hpc as [He _]. split; [by apply Hex|]. by rewrite Hcnt.
  - destruct Hpc as ((b & Hb & -> & Hu & Hs) & Hl & _). split; [exists b; split; [apply Hk; [right; by eexists|done..]|done]|]. split; [|by rewrite Hcnt].
    destruct Hlow as [->|?]; [|by right]. destruct Hl as [?|?]; [by left|right; by apply Hex].
Qed.

(** A block in use is one of the list. *)
Lemma held_split R y bl a n : sys_ok R y bl -> sheld y !! a = Some n ->
  exists l x r, bl = l ++ x :: r /\ a = addr R x /\ b_used x = true /\ n <= b_size x /\ 0 <= n.
Proof.
  intros [_ Hh _ _] Ha. destruct (Hh a n Ha) as (? & x & Hx & -> & ? & ?). apply list_elem_of_split in Hx as (l & r & ->). by exists l, x, r.
Qed.

Lemma not_pc_block R y bl x n : sys_ok R y bl -> sheld y !! addr R x = Some n -> forall m pc b, scall y = Some (m, pc) -> pc_block R pc b -> b_at b <> b_at x.
Proof.
  intros [_ _ _ Hc] Hx m pc b Ec Hb E. rewrite Ec in Hc. destruct Hc as (_ & _ & _ & Hf). specialize (Hf b Hb). unfold addr in *. rewrite E in Hf. congruence.
Qed.

(** Between two states the blocks in use at [a] in both keep their bytes. *)
Definition data_same (y y' : sys) : Prop := forall a n m i, sheld y !! a = Some n -> sheld y' !! a = Some m -> 0 <= i < n -> i < m ->
  bytes (sheap y') (a + i) = bytes (sheap y) (a + i).

Lemma data_same_structs R y y' bl : tiles 0 bl UNITS -> writes_structs R bl (sheap y) (sheap y') ->
  (forall a n m, sheld y !! a = Some n -> sheld y' !! a = Some m -> exists b, b ∈ bl /\ a = addr R b /\ Z.min n m <= b_size b) -> data_same y y'.
Proof.
  intros Ht W Hb a n m i Hn Hm Hi Him. destruct (Hb a n m Hn Hm) as (b & Hbl & -> & Hs). apply (data_kept R _ _ bl b); [done..|]. unfold addr, b_size in *. lia.
Qed.

Lemma free_exact R s h bl k : lfree h = Z.min (R + 64 * k) (lfree s) ->
  (lfree h = R + 64 * k -> exact R h (release k bl)) /\ (exact R s bl -> exact R h (release k bl)).
Proof.
  intros Hlow. assert (lfree h = R + 64 * k -> exact R h (release k bl)) as Hexx.
  { intros E b Hb El. destruct (b_used b) eqn:Eb; [|done]. apply release_used in Hb as [_ Hne]; [|done]. exfalso. apply Hne. lia. }
  split; [done|]. intros He. destruct (Z.min_spec (R + 64 * k) (lfree s)) as [[? Em]|[? Em]]; rewrite Em in Hlow; [by apply Hexx|].
  intros b Hb El. destruct (b_used b) eqn:Eb; [|done]. apply release_used in Hb as [Hb _]; [|done]. rewrite <- Eb. apply He; [done|congruence].
Qed.

Lemma do_free R y bl a : sys_ok R y bl -> is_Some (sheld y !! a) ->
  exists y' bl', sys_do (Free a) y = Some y' /\ sys_ok R y' bl' /\ data_same y y' /\ scall y' = scall y /\ sheld y' = delete a (sheld y).
Proof.
  intros Hy [n Ha]. pose proof Hy as [Hok Hh Hu Hc]. destruct (held_split R y bl a n Hy Ha) as (l & x & r & -> & -> & Hx & Hn & Hn0).
  destruct (mem_free_run R (sheap y) l x r Hok Hx) as (h & Hrun & Hok' & Hwr & Hlow & Hcnt & _).
  unfold sys_do. fold (addr R x) in Hrun. rewrite Hrun. simpl. eexists _, (release (b_at x) (l ++ x :: r)). split; [done|].
  assert (forall b, b ∈ l ++ x :: r -> b_used b = true -> b_at b <> b_at x -> b ∈ release (b_at x) (l ++ x :: r)) as Hkeep by (intros; by apply release_used).
  destruct (free_exact R (sheap y) h (l ++ x :: r) (b_at x) Hlow) as [Hexx Hex].
  split; [split; simpl; [done| | |]|split; [|done]].
  - intros b m. rewrite lookup_delete. case_decide as Ea; [done|]. intros Hb. destruct (Hh b m Hb) as (? & c & Hcc & -> & Huc & ?). split; [done|].
    exists c. split; [apply Hkeep; [done|done|]|done]. intros E. apply Ea. unfold addr. by rewrite E.
  - intros b Hb Hub. apply release_used in Hb as [Hb Hne]; [|done]. rewrite lookup_delete_ne by (intros E; apply addr_inj in E; congruence). by apply Hu.
  - destruct (scall y) as [[m pc]|] eqn:Ec; [|by apply Hex]. destruct Hc as (Hw & Hs & Hpc & Hfree). split; [done|]. split; [done|]. split.
    + apply (pc_disturbed R (sheap y) h (l ++ x :: r)); [done..| |].
      * destruct (Z.min_spec (R + 64 * b_at x) (lfree (sheap y))) as [[? Em]|[? Em]]; rewrite Em in Hlow; [right; by apply Hexx|by left].
      * intros b Hb Hin Hub. apply Hkeep; [done|done|]. by apply (not_pc_block R y (l ++ x :: r) x n Hy Ha m pc).
    + intros b Hb. rewrite lookup_delete. case_decide; [done|]. by apply Hfree.
  - apply (data_same_structs R _ _ (l ++ x :: r)); [apply Hok|done|]. simpl. intros b m k Hb _. destruct (Hh b m Hb) as (_ & c & ? & -> & _ & ?). exists c. split; [done|]. split; [done|lia].
Qed.

Lemma trim_exact R s h l x r u (bl' := shrink (b_at x) u (l ++ x :: r)) :
  b_used x = true -> heap_ok R h bl' -> low_kept R bl' s h ->
  exact R s (l ++ x :: r) \/ (exists b, b ∈ bl' /\ b_used b = false /\ lfree h = R + 64 * b_at b) -> exact R h bl'.
Proof.
  intros Hx Hok' Hlow He b Hb El. destruct (b_used b) eqn:Eub; [|done]. exfalso. destruct He as [He|(f & Hf & Huf & Elf)].
  - destruct Hlow as [El'|(f & Hf & Huf & Elf)].
    + destruct (shrink_from _ _ _ b Eub Hb) as [[Hb' _]|[Eb _]]; [rewrite (He b Hb') in Eub by congruence; done|].
      rewrite (He x) in Hx; [done|set_solver|]. rewrite <- El', El, Eb. done.
    + rewrite (start_inj R h bl' b f) in Eub; [congruence|apply Hok'|done|done|lia].
  - rewrite (start_inj R h bl' b f) in Eub; [congruence|apply Hok'|done|done|lia].
Qed.

Lemma do_trim R y bl a n : sys_ok R y bl -> is_Some (sheld y !! a) -> 0 <= n < 4294967296 ->
  exists y' bl', sys_do (Trim a n) y = Some y' /\ sys_ok R y' bl' /\ data_same y y' /\ scall y' = scall y /\ (sheld y' = sheld y \/ sheld y' = <[a := n]> (sheld y)).
Proof.
  intros Hy [k Ha] Hn. pose proof Hy as [Hok Hh Hu Hc]. destruct (held_split R y bl a k Hy Ha) as (l & x & r & -> & -> & Hx & Hk & Hk0).
  pose proof (trim_run R (sheap y) l x r n Hok Hx Hn) as Ht. cbv zeta in Ht. fold (addr R x) in Ht. unfold sys_do.
  destruct (_ || _) eqn:Eb; [|].
  { rewrite Ht. simpl. destruct y as [h c hd]. simpl in *. exists (Sys h c hd), (l ++ x :: r). split; [done|]. split; [done|]. split; [by intros ? ? ? ? _ _ _ _|]. split; [done|by left]. }
  destruct Ht as (h & Hrun & Hok' & Hwr & Hlow & Hcnt). rewrite Hrun. simpl. set (bl' := shrink (b_at x) (units_of n) (l ++ x :: r)) in *.
  apply orb_false_iff in Eb as [Eb1 Eb2]. apply Z.ltb_ge in Eb1, Eb2.
  assert (1 <= units_of n /\ n <= 64 * units_of n) as [Hu1 Hun] by (unfold units_of; Z.to_euclidean_division_equations; lia).
  destruct (shrink_cut R (sheap y) l x r (units_of n) Hok Hx Hu1 Eb2) as (x' & Hx' & Ex & Hux & Hsx). fold bl' in Hx'.
  assert (forall b, b ∈ l ++ x :: r -> b_used b = true -> b_at b <> b_at x -> b ∈ bl') as Hkeep by (intros; by apply shrink_keeps).
  assert (forall b, b ∈ bl' -> b_used b = true -> b ∈ l ++ x :: r /\ b_at b <> b_at x \/ b_at b = b_at x) as Hfrom.
  { intros b Hb Hub. destruct (shrink_from _ _ _ b Hub Hb) as [?|[? _]]; [by left|by right]. }
  pose proof (trim_exact R (sheap y) h l x r (units_of n) Hx Hok' Hlow) as Hex.
  eexists _, bl'. split; [done|]. split; [split; simpl; [done| | |]|split; [|split; [done|by right]]].
  - intros b m. rewrite lookup_insert. case_decide as Ea.
    + intros [= <-]. split; [lia|]. exists x'. split; [done|]. split; [unfold addr in *; rewrite Ex; lia|]. split; [done|lia].
    + intros Hb. destruct (Hh b m Hb) as (? & c & Hcc & -> & Huc & ?). split; [done|]. exists c. split; [apply Hkeep; [done|done|]|done].
      intros E. apply Ea. unfold addr. by rewrite E.
  - intros b Hb Hub. rewrite lookup_insert. case_decide as Ea; [left; by eexists|]. destruct (Hfrom b Hb Hub) as [[Hb' _]|E]; [by apply Hu|]. destruct Ea. unfold addr. by rewrite E.
  - destruct (scall y) as [[m pc]|] eqn:Ec; [|apply Hex; by left]. destruct Hc as (Hw & Hs & Hpc & Hfree). split; [done|]. split; [done|]. split.
    + destruct Hcnt as [[-> ->]|Hcnt]; [done|]. apply (pc_disturbed R (sheap y) h (l ++ x :: r)); [done..|intros; apply Hex; by left| |].
      * destruct Hlow as [?|?]; [by left|right; apply Hex; by right].
      * intros b Hb Hin Hub. apply Hkeep; [done|done|]. by apply (not_pc_block R y (l ++ x :: r) x k Hy Ha m pc).
    + intros b Hb. rewrite lookup_insert. case_decide as Ea; [|by apply Hfree]. exfalso.
      apply (not_pc_block R y (l ++ x :: r) x k Hy Ha m pc b Ec Hb). unfold addr in Ea. lia.
  - apply (data_same_structs R _ _ bl'); [apply Hok'|done|]. simpl. intros b m j Hb. rewrite lookup_insert. case_decide as Ea.
    + intros [= <-]. exists x'. split; [done|]. split; [unfold addr in *; rewrite Ex; lia|lia].
    + intros _. destruct (Hh b m Hb) as (_ & c & ? & -> & Huc & ?). exists c. split; [apply Hkeep; [done|done|]|split; [done|lia]]. intros E. apply Ea. unfold addr. by rewrite E.
Qed.

(** Writing to the data of a block. *)
Lemma heap_ok_write R s bl b m :
  heap_ok R s bl -> b ∈ bl -> (forall x, ~ (R + 64 * (b_at b + 1) <= x < R + 64 * b_end b) -> m x = bytes s x) -> heap_ok R (set_bytes m s) bl.
Proof.
  intros [H Hc] Hb Hm. set (s' := set_bytes _ s). pose proof (p_ram _ _ (h_placed _ _ _ H)) as HR. split; [|done].
  assert (forall k, boundary k bl -> nx s' k = nx s k /\ pv s' k = pv s k /\ us s' k = us s k) as Hf.
  { intros k Hk. assert (R + 64 * k + 64 <= R + 64 * (b_at b + 1) \/ R + 64 * b_end b <= R + 64 * k) as Hd.
    { destruct (us_at R s bl b H Hb) as (_ & _ & ? & ?). destruct Hk as [->|(c & Hcc & <-)]; [lia|].
      destruct (Z.lt_ge_cases (b_at c) (b_end b)) as [Hlt|?]; [|lia]. destruct (behind R s bl b c H Hb Hcc Hlt) as [?| ->]; [|lia].
      destruct (us_at R s bl c H Hcc) as (_ & _ & _ & ?). lia. }
    unfold nx, pv, us, word. simpl. rewrite HR. rewrite !Hm by lia. done. }
  destruct H. split; [by apply (placed_same R s)|done| | |done].
  - apply (linked_frame s); [done|]. intros c Hcc. apply Hf. right. by exists c.
  - destruct (Hf UNITS) as (-> & _ & ->); [by left|done].
Qed.

Lemma do_write R y bl a i v n : sys_ok R y bl -> sheld y !! a = Some n -> 0 <= i < n ->
  exists y', sys_do (Write a i v) y = Some y' /\ sys_ok R y' bl /\ sheld y' = sheld y /\ scall y' = scall y /\
    forall x, bytes (sheap y') x = if decide (x = a + i) then u8 v else bytes (sheap y) x.
Proof.
  intros Hy Ha Hi. pose proof Hy as [Hok Hh Hu Hc]. destruct (Hh a n Ha) as (_ & b & Hb & -> & Hub & Hs). eexists. split; [done|].
  split; [split; simpl; [|done|done|done]|split; [done|split; [done|intros x; apply put8_at]]].
  apply (heap_ok_write R _ bl b); [done|done|]. intros x Hx. rewrite put8_at, decide_False; [done|]. unfold addr, b_size in *. lia.
Qed.

End Sys.
