(* ===== verification/MemProps.v ===== *)
(** * The heap: properties *)
From stdpp Require Import relations.
From S2P Require Import Prelude Triple Pbuf Mem MemInv MemOps MemTrim MemAlloc MemSys.

Section Props.
Context {RH : RamHeap}.

(** Where mem_init puts the first struct. *)
Definition RAM : Z := LWIP_MEM_ALIGN ram_heap.
Lemma ram_aligned : RAM mod 64 = 0 /\ ram_heap <= RAM <= ram_heap + 63.
Proof.
  pose proof ram_heap_pos. pose proof ram_heap_fits. unfold RAM, LWIP_MEM_ALIGN, MEM_ALIGNMENT.
  change RAM_HEAP_SIZE with (131072 + 128 + 63) in *. rewrite u32_small by lia. change (64 - 1) with (Z.ones 6).
  rewrite <- Z.ldiff_land, Z.ldiff_ones_r by done. rewrite Z.shiftl_mul_pow2, Z.shiftr_div_pow2 by done. change (2 ^ 6) with 64. ulia.
Qed.
(** mem_init, on whatever the memory holds. *)
Lemma mem_init_run s : exists s', mem_init s = Some (tt, s') /\ heap_ok RAM s' [Blk 0 UNITS false] /\ exact RAM s' [Blk 0 UNITS false].
Proof.
  destruct ram_aligned as [Hal Hr]. pose proof ram_heap_pos. pose proof ram_heap_fits.
  change RAM_HEAP_SIZE with (131072 + 128 + 63) in *.
  assert (forall i n, 0 <= i -> 0 <= n -> i + n <= 64 -> in_ram_heap (RAM + i) n = true /\ in_ram_heap (RAM + 64 * UNITS + i) n = true) as Hin.
  { intros i n ? ? ?. unfold in_ram_heap. change RAM_HEAP_SIZE with (131072 + 128 + 63). unfold UNITS. rewrite !(proj2 (Z.leb_le _ _)) by lia. done. }
  destruct (Hin 0 4) as [H1 H2]; [lia..|]. rewrite Z.add_0_r in H1, H2. destruct (Hin 4 4) as [H3 H4]; [lia..|]. destruct (Hin 8 1) as [H5 H6]; [lia..|].
  set (e := RAM + 64 * UNITS). fold e in H2, H4, H6.
  eexists (MemState (put32 (e + 4) MEM_SIZE_ALIGNED (put32 e MEM_SIZE_ALIGNED (put8 (e + 8) 1 (put8 (RAM + 8) 0 (put32 (RAM + 4) 0 (put32 RAM MEM_SIZE_ALIGNED (bytes s)))))))
    RAM e RAM (mem_free_count s)).
  split; [|split; [split; [split|done]|]].
  - unfold mem_init. cbv zeta. fold RAM. rewrite bind_modify. unfold set_next, set_prev, set_used, store32, store8. rewrite H1. cbn [mbind]. rewrite bind_modify, H3, bind_modify, H5, bind_modify.
    assert (forall b ce l c, ptr_to_mem MEM_SIZE_ALIGNED (MemState b RAM ce l c) = Some (e, MemState b RAM ce l c)) as Hpe.
    { intros. unfold ptr_to_mem, gets. simpl. rewrite u32_small; [done|]. change MEM_SIZE_ALIGNED with 131072. lia. }
    erewrite bind_run by apply Hpe. rewrite bind_modify, H6, bind_modify, H2, bind_modify, H4, bind_modify. done.
  - split; simpl; try done; [lia|]. change RAM_HEAP_SIZE with (131072 + 128 + 63). unfold UNITS. lia.
  - done.
  - change MEM_SIZE_ALIGNED with 131072. simpl. unfold nx, pv, us. simpl. unfold e, UNITS. rewrite Z.add_0_r.
    split; [|split; [|split; [|done]]].
    + rewrite !word_put32_ne by lia. rewrite !word_put8 by lia. rewrite word_put32_ne by lia. by rewrite word_put32 by lia.
    + rewrite !word_put32_ne by lia. rewrite !word_put8 by lia. by rewrite word_put32 by lia.
    + rewrite !put32_at by lia. rewrite !put8_at, decide_False, decide_True by lia. done.
  - change MEM_SIZE_ALIGNED with 131072. unfold nx, us. simpl. fold e. rewrite word_put32_ne, word_put32 by (lia || done). split; [done|]. rewrite !put32_at, put8_at, decide_True by lia. done.
  - exists 0. split; [simpl; lia|]. split; [right; exists (Blk 0 UNITS false); split; [left|done]|]. by intros b ->%list_elem_of_singleton _.
  - by intros b ->%list_elem_of_singleton _.
Qed.

(** ** Every event goes through *)

Lemma heap_ok_start s h : mem_init s = Some (tt, h) -> sys_ok RAM (Sys h None ∅) [Blk 0 UNITS false].
Proof.
  destruct (mem_init_run s) as (h' & Hrun & Hok & Hex). rewrite Hrun. intros [= <-]. split; simpl; [done|by intros ? ?| |done].
  by intros b ->%list_elem_of_singleton.
Qed.

(** Which byte an event is to write. *)
Definition hits (e : mem_event) (x : Z) : Prop := match e with Write a i _ => x = a + i | _ => False end.

Lemma sys_do_ok R y bl e : sys_ok R y bl -> may e y ->
  exists y' bl', sys_do e y = Some y' /\ sys_ok R y' bl' /\
    forall a n m i, sheld y !! a = Some n -> sheld y' !! a = Some m -> 0 <= i < n -> i < m -> ~ hits e (a + i) ->
      bytes (sheap y') (a + i) = bytes (sheap y) (a + i).
Proof.
  intros Hy He. destruct e as [n| |a|a n|a i v]; simpl in He.
  - destruct (do_malloc R y bl n Hy He) as (y' & ? & ? & Hb & _). exists y', bl. split; [done|]. split; [done|]. intros. by rewrite Hb.
  - destruct (do_section R y bl Hy) as (y' & bl' & ? & Hy' & Hwr & Hheld). exists y', bl'. split; [done|]. split; [done|].
    intros a n m i Ha Hm Hi Him _. apply (data_same_structs R y y' bl' (h_tiles _ _ _ (proj1 (so_heap _ _ _ Hy'))) Hwr) with (n := n) (m := m); [|done..].
    intros b k j Hb Hj. destruct (so_held _ _ _ Hy' b j Hj) as (_ & c & ? & -> & _ & ?). exists c. split; [done|]. split; [done|lia].
  - destruct (do_free R y bl a Hy He) as (y' & bl' & ? & ? & Hd & _). exists y', bl'. split; [done|]. split; [done|]. intros b n m i ? ? ? ? _. by apply (Hd b n m).
  - destruct He as [Ha Hn]. destruct (do_trim R y bl a n Hy Ha Hn) as (y' & bl' & ? & ? & Hd & _). exists y', bl'. split; [done|]. split; [done|].
    intros b k m i ? ? ? ? _. by apply (Hd b k m).
  - destruct He as (n & Ha & Hi). destruct (do_write R y bl a i v n Hy Ha Hi) as (y' & ? & ? & _ & _ & Hb). exists y', bl. split; [done|]. split; [done|].
    intros b k m j _ _ _ _ Hne. by rewrite Hb, decide_False.
Qed.

Lemma reachable_ok s h y : mem_init s = Some (tt, h) -> rtc sys_step (Sys h None ∅) y -> exists bl, sys_ok RAM y bl.
Proof.
  intros Hs Hr. apply (rtc_ind_r (R := sys_step) (fun y => exists bl, sys_ok RAM y bl) (Sys h None ∅)); [|clear y Hr|done].
  - eexists. by apply (heap_ok_start s).
  - intros y z _ [e He Hdo] [bl Hy]. destruct (sys_do_ok RAM y bl e Hy He) as (z' & bl' & Hz & Hok & _). exists bl'. congruence.
Qed.

(** The data of the blocks in use lies inside ram_heap and apart. *)
Lemma held_place R y bl a n : sys_ok R y bl -> sheld y !! a = Some n -> a mod 64 = 0 /\ ram_heap < a /\ a + n <= ram_heap + RAM_HEAP_SIZE.
Proof.
  intros Hy Ha. destruct (held_split R y bl a n Hy Ha) as (l & x & r & -> & -> & Hx & Hn & _). destruct Hy as [[H _] _ _ _].
  destruct (mid_fields R _ l x r H) as (Hp & Hx1 & Hx2 & _). pose proof (placed_bounds R _ Hp) as (_ & _ & Hal). destruct Hp as [_ _ Hlo Hhi _].
  unfold addr, b_size in *. split; [rewrite Z.mul_comm, Z.mod_add; lia|lia].
Qed.
Lemma held_apart R y bl a n b m : sys_ok R y bl -> sheld y !! a = Some n -> sheld y !! b = Some m -> a < b -> a + n <= b.
Proof.
  intros Hy Ha Hb Hlt. destruct (held_split R y bl a n Hy Ha) as (l & x & r & -> & -> & Hx & Hn & _).
  destruct (so_held _ _ _ Hy b m Hb) as (_ & z & Hz & -> & _). pose proof (h_tiles _ _ _ (proj1 (so_heap _ _ _ Hy))) as Ht.
  apply tiles_mid in Ht as (_ & _ & _ & _ & _ & Hl & Hr). unfold addr, b_size in *.
  apply elem_of_app in Hz as [Hz|[->|Hz]%elem_of_cons]; [specialize (Hl z Hz)| |specialize (Hr z Hz)]; lia.
Qed.

(** C5: mem_malloc, mem_free and mem_trim are memory safe under interference: from
    mem_init on, whatever the contexts do in whatever order - one mem_malloc at a
    time, interrupted between any two of its sections by frees, trims and writes of
    blocks that are in use -, no operation leaves the array ram_heap, every block
    handed out is aligned, inside the array and apart from every other, and no
    operation changes the data of a block that stays in use but the write to it. *)
Theorem heap_safe s h y :
  mem_init s = Some (tt, h) -> rtc sys_step (Sys h None ∅) y ->
  (forall a n, sheld y !! a = Some n -> a mod MEM_ALIGNMENT = 0 /\ ram_heap < a /\ a + n <= ram_heap + RAM_HEAP_SIZE) /\
  (forall a n b m, sheld y !! a = Some n -> sheld y !! b = Some m -> a < b -> a + n <= b) /\
  (forall e, may e y -> exists y', sys_do e y = Some y' /\
    forall a n m i, sheld y !! a = Some n -> sheld y' !! a = Some m -> 0 <= i < n -> i < m -> ~ hits e (a + i) ->
      bytes (sheap y') (a + i) = bytes (sheap y) (a + i)).
Proof.
  intros Hs Hr. destruct (reachable_ok s h y Hs Hr) as [bl Hy]. split; [|split].
  - intros a n Ha. by apply (held_place RAM y bl).
  - intros a n b m. apply (held_apart RAM y bl a n b m Hy).
  - intros e He. destruct (sys_do_ok RAM y bl e Hy He) as (y' & bl' & ? & _ & ?). by exists y'.
Qed.

(** ** Nothing is lost *)

Lemma all_free s bl : heap_ok RAM s bl -> (forall b, b ∈ bl -> b_used b = false) -> bl = [Blk 0 UNITS false].
Proof.
  intros [H Hc] Hf. pose proof (h_tiles _ _ _ H) as Ht. destruct bl as [|x [|y r]]; [done| |].
  - destruct x as [k e u], Ht as (Ex & _ & E); simpl in *. subst. f_equal. f_equal. apply (Hf (Blk 0 UNITS u)). set_solver.
  - apply coalesced_cons in Hc as [_ Hc]. destruct (Hc y r eq_refl) as [E|E]; rewrite Hf in E; set_solver.
Qed.

(** C22: Nothing is lost: in every state reached from mem_init, however allocations,
    frees and trims were interleaved, once every block has been given back and no
    mem_malloc is under way, the heap is one piece again - a mem_malloc of up to
    MEM_SIZE_ALIGNED less one struct is served, from the start of the heap. *)
Theorem heap_no_leak s h y n :
  mem_init s = Some (tt, h) -> rtc sys_step (Sys h None ∅) y -> scall y = None -> sheld y = ∅ ->
  0 < n <= MEM_SIZE_ALIGNED - SIZEOF_STRUCT_MEM ->
  exists h', mem_malloc n (sheap y) = Some (Some (RAM + SIZEOF_STRUCT_MEM), h').
Proof.
  intros Hs Hr Hc Hh Hn. destruct (reachable_ok s h y Hs Hr) as [bl [Hok _ Hu Hex]]. rewrite Hc in Hex, Hu. rewrite Hh in Hu.
  assert (bl = [Blk 0 UNITS false]) as ->.
  { apply (all_free (sheap y)); [done|]. intros b Hb. destruct (b_used b) eqn:E; [|done]. destruct (Hu b Hb E) as [[? Hx]|(? & ? & ? & _)]; [by rewrite lookup_empty in Hx|done]. }
  change (MEM_SIZE_ALIGNED - SIZEOF_STRUCT_MEM) with 131008 in Hn.
  destruct (malloc_alone_run RAM (sheap y) _ n Hok Hex) as (r & h' & bl' & Hrun & _ & _ & _ & Hf); [change MEM_SIZE_ALIGNED with 131072; lia|].
  assert (first_fit (units_of n) [Blk 0 UNITS false] = Some (Blk 0 UNITS false)) as E; [|rewrite E in Hf].
  - apply (first_fit_split _ []); [done|]. split; [done|]. unfold b_size, units_of, UNITS. simpl. Z.to_euclidean_division_equations. lia.
  - destruct Hf as [-> _]. exists h'. rewrite Hrun. done.
Qed.

(** ** The heap as a list of blocks *)

(** The heap that is promised: blocks, of which the first free one that fits is
    taken, and free neighbours made one. *)
Definition spec_malloc (n : Z) (bl : list blk) : option Z * list blk :=
  if (n =? 0) || (MEM_SIZE_ALIGNED <? n) then (None, bl)
  else
    match first_fit (units_of n) bl with
    | Some x => (Some (addr RAM x), allot (b_at x) (units_of n) bl)
    | None => (None, bl)
    end.
Definition spec_free (b : blk) (bl : list blk) : list blk := release (b_at b) bl.
Definition spec_trim (b : blk) (n : Z) (bl : list blk) : option Z * list blk :=
  if (MEM_SIZE_ALIGNED <? n) || (b_size b <? n) then (None, bl) else (Some (addr RAM b), shrink (b_at b) (units_of n) bl).

(** The memory holds the blocks [bl]. *)
Definition holds (s : mem_state) (bl : list blk) : Prop := heap_ok RAM s bl /\ exact RAM s bl.

Lemma trim_units b n : 0 <= n -> 64 <= b_size b -> b_size b mod 64 = 0 -> (b_size b <? 64 * units_of n) = (b_size b <? n).
Proof.
  intros. unfold units_of. destruct (Z.ltb_spec (b_size b) n) as [Hl|Hl]; [apply Z.ltb_lt|apply Z.ltb_ge]; Z.to_euclidean_division_equations; lia.
Qed.

Lemma malloc_refines s bl n : holds s bl -> 0 <= n < 4294967296 ->
  exists h, mem_malloc n s = Some (fst (spec_malloc n bl), h) /\ holds h (snd (spec_malloc n bl)) /\
    forall a, fst (spec_malloc n bl) = Some a -> exists b, b ∈ snd (spec_malloc n bl) /\ a = addr RAM b /\ n <= b_size b.
Proof.
  intros [Hok Hex] Hn. unfold spec_malloc. destruct (Z.eqb_spec n 0) as [->|Hn0]; [by exists s|]. destruct (Z.ltb_spec MEM_SIZE_ALIGNED n) as [Hb|Hb].
  - exists s. unfold mem_malloc, malloc_start. rewrite (proj2 (Z.eqb_neq _ _)), block_size_units, (proj2 (Z.ltb_lt _ _)) by done. done.
  - destruct (malloc_alone_run RAM s bl n Hok Hex ltac:(lia)) as (r & h & bl' & Hrun & ? & ? & _ & Hf). exists h. cbn [orb].
    destruct (units_of_ok n ltac:(unfold size_ok; lia)) as [Hu Hle].
    destruct (first_fit (units_of n) bl) as [x|] eqn:E; destruct Hf as [-> ->]; [|done]. split; [done|]. split; [done|]. simpl. intros ? [= <-].
    unfold first_fit in E. apply fmap_Some in E as ([i z] & (Hi & [Hz Hsz] & _)%list_find_Some & ->). apply list_elem_of_lookup_2, list_elem_of_split in Hi as (l & r & ->).
    simpl in *. pose proof (allot_mid l z r (units_of n) (h_tiles _ _ _ (proj1 Hok)) (proj2 Hok) Hz ltac:(lia) Hsz) as Ha. cbv zeta in Ha.
    destruct (decide (b_end z <= b_at z + 1 + units_of n + 1)); [rewrite Ha|destruct Ha as [-> _]]; eexists; (split; [apply elem_of_app; right; left|]);
      (split; [done|]); unfold b_size in *; simpl; lia.
Qed.

(** C10: The bytes refine the blocks: mem_init makes one free block, and on a memory
    that holds a list of blocks mem_malloc, mem_free and mem_trim return what the
    operations on the list return, end - never outside ram_heap - and leave a memory
    that holds the list they leave: first fit, splitting when a block of MIN_SIZE
    is left over, NULL just when no free block fits, free neighbours always joined. *)
Theorem heap_refines s bl :
  (exists h, mem_init s = Some (tt, h) /\ holds h [Blk 0 UNITS false]) /\
  (holds s bl ->
   (forall n, 0 <= n < 4294967296 -> exists h, mem_malloc n s = Some (fst (spec_malloc n bl), h) /\ holds h (snd (spec_malloc n bl))) /\
   (forall b, b ∈ bl -> b_used b = true -> exists h, mem_free (Some (addr RAM b)) s = Some (tt, h) /\ holds h (spec_free b bl)) /\
   (forall b n, b ∈ bl -> b_used b = true -> 0 <= n < 4294967296 ->
     exists h, mem_trim (addr RAM b) n s = Some (fst (spec_trim b n bl), h) /\ holds h (snd (spec_trim b n bl)))).
Proof.
  split; [apply mem_init_run|]. intros [Hok Hex]. split; [|split].
  - intros n Hn. destruct (malloc_refines s bl n (conj Hok Hex) Hn) as (h & ? & ? & _). by exists h.
  - intros b (l & r & ->)%list_elem_of_split Hu. destruct (mem_free_run RAM s l b r Hok Hu) as (h & ? & ? & _ & Hlow & _). exists h.
    split; [done|]. split; [done|]. by apply (free_exact RAM s).
  - intros b n (l & r & ->)%list_elem_of_split Hu Hn. pose proof (trim_run RAM s l b r n Hok Hu Hn) as Ht. cbv zeta in Ht. fold (addr RAM b) in Ht.
    destruct (mid_fields _ _ _ _ _ (proj1 Hok)) as (_ & Hb1 & Hb2 & _). rewrite trim_units in Ht; [|lia|unfold b_size; lia|unfold b_size; rewrite Z.mul_comm, Z.mod_mul; lia].
    unfold spec_trim. destruct (_ || _); [by exists s|]. destruct Ht as (h & ? & ? & _ & Hlow & _). exists h. split; [done|]. split; [done|].
    apply (trim_exact RAM s h l b r); [done..|by left].
Qed.

(** ** mem_malloc comes to its end *)

Fixpoint trace (es : list mem_event) (y y' : sys) : Prop :=
  match es with
  | [] => y' = y
  | e :: r => exists y1, may e y /\ sys_do e y = Some y1 /\ trace r y1 y'
  end.
Definition is_malloc (e : mem_event) : bool := match e with Malloc _ => true | _ => false end.
Definition is_section (e : mem_event) : bool := match e with Section_ => true | _ => false end.
(** The events that make a mem_malloc under way start over. *)
Definition disturbs (e : mem_event) : bool := match e with Free _ | Trim _ _ => true | _ => false end.
Definition count (f : mem_event -> bool) (es : list mem_event) : Z := Z.of_nat (length (filter (fun e => f e = true) es)).

(** What is left of the mem_malloc under way. *)
Definition left_over (y : sys) : Z :=
  match scall y with
  | None => 0
  | Some (_, pc) => if mem_free_count (sheap y) =? 0 then rank RAM pc else 2 * UNITS + 2
  end.

Lemma left_over_bounds y bl : sys_ok RAM y bl -> 0 <= left_over y <= 2 * UNITS + 2 /\ (left_over y = 0 -> scall y = None).
Proof.
  intros [Hok _ _ Hc]. unfold left_over. destruct (scall y) as [[n pc]|]; [|unfold UNITS; split; [lia|done]]. destruct Hc as (Hw & _ & Hpc & _).
  destruct (Z.eqb_spec (mem_free_count (sheap y)) 0); [|unfold UNITS; lia]. pose proof (rank_bounds RAM _ bl _ pc Hpc Hok ltac:(done) Hw). lia.
Qed.
Lemma left_over_section y bl : sys_ok RAM y bl -> exists y', sys_do Section_ y = Some y' /\ left_over y' <= Z.max 0 (left_over y - 2).
Proof.
  intros [Hok _ _ Hc]. unfold left_over, sys_do. destruct (scall y) as [[n pc]|] eqn:Ec; [|exists y; rewrite Ec; split; [done|lia]]. destruct Hc as (Hw & Hs & Hpc & _).
  destruct (units_of_ok n Hs) as [Hun _]. destruct (malloc_start_ok n) as [[_ ?]|[-> _]]; [unfold size_ok in Hs; change MEM_SIZE_ALIGNED with 131072 in Hs; lia|done|].
  destruct (malloc_step_run RAM (sheap y) bl (units_of n) pc Hok Hun Hpc Hw) as (h & pc' & bl' & Hrun & _ & Hok' & Hpc' & _ & Hrk).
  simpl. rewrite Hrun. simpl. eexists. split; [done|].
  assert (waiting pc' -> mem_free_count h = 0 /\ rank RAM pc' <= 2 * UNITS) as Hw'.
  { intros Hw'. assert (mem_free_count h = 0) as Hf by by apply (step_fresh _ _ _ _ _ Hrun). split; [done|]. by apply (rank_bounds RAM h bl' _ pc' Hpc' Hok' Hf Hw'). }
  destruct (pc_cases pc') as [Hwp|[r ->]]; [|destruct r; simpl; lia]. destruct (Hw' Hwp) as [Hf Hb].
  assert (scall (settle n pc' h (sheld y)) = Some (n, pc') /\ sheap (settle n pc' h (sheld y)) = h) as [-> ->] by by destruct pc'.
  rewrite Hf. destruct (Z.eqb_spec (mem_free_count (sheap y)) 0) as [E|]; simpl; [specialize (Hrk E)|]; lia.
Qed.

Lemma left_over_event y bl e y' : sys_ok RAM y bl -> may e y -> is_malloc e = false -> sys_do e y = Some y' ->
  left_over y' = 0 \/ left_over y' <= left_over y - (if is_section e then 2 else 0) + (if disturbs e then 2 * UNITS + 2 else 0) /\ scall y <> None.
Proof.
  intros Hy He Hm Hdo. pose proof (left_over_bounds y bl Hy) as [Hb _].
  destruct (scall y) as [c|] eqn:Ec.
  2: { left. unfold left_over. replace (scall y') with (@None (Z * malloc_pc)); [done|]. destruct e as [n| |a|a n|a i v]; [done| | | |].
    - unfold sys_do in Hdo. rewrite Ec in Hdo. by simplify_eq.
    - destruct (do_free RAM y bl a Hy He) as (z & _ & Hz & _ & _ & E & _). rewrite Hz in Hdo. simplify_eq. congruence.
    - destruct (do_trim RAM y bl a n Hy (proj1 He) (proj2 He)) as (z & _ & Hz & _ & _ & E & _). rewrite Hz in Hdo. simplify_eq. congruence.
    - unfold sys_do in Hdo. by simplify_eq. }
  assert (0 <= left_over y') as Hge.
  { destruct (sys_do_ok RAM y bl e Hy He) as (z & bl' & Hz & Hok & _). rewrite Hz in Hdo. simplify_eq. by apply (left_over_bounds _ bl'). }
  cut (left_over y' = 0 \/ left_over y' <= left_over y - (if is_section e then 2 else 0) + (if disturbs e then 2 * UNITS + 2 else 0)); [naive_solver|]. destruct e as [n| |a|a n|a i v]; simpl in *; [done| | | |].
  - destruct (left_over_section y bl Hy) as (z & Hz & ?). simpl in Hz. rewrite Hz in Hdo. simplify_eq. lia.
  - destruct (do_free RAM y bl a Hy He) as (z & bl' & Hz & Hok & _). simpl in Hz. rewrite Hz in Hdo. simplify_eq.
    pose proof (left_over_bounds _ _ Hok) as [? _]. lia.
  - destruct He as [Ha Hn]. destruct (do_trim RAM y bl a n Hy Ha Hn) as (z & bl' & Hz & Hok & _). simpl in Hz. rewrite Hz in Hdo. simplify_eq.
    pose proof (left_over_bounds _ _ Hok) as [? _]. lia.
  - simplify_eq. unfold left_over in *. simpl. lia.
Qed.
Lemma quiet_trace es : forall y bl y', sys_ok RAM y bl -> scall y = None -> trace es y y' -> Forall (fun e => is_malloc e = false) es -> left_over y' = 0.
Proof.
  induction es as [|e es IH]; intros y bl y' Hy Hn Ht Hes; simpl in Ht.
  - subst. unfold left_over. by rewrite Hn.
  - destruct Ht as (y1 & He & Hdo & Ht). apply Forall_cons in Hes as [Hm Hes]. destruct (sys_do_ok RAM y bl e Hy He) as (z & bl1 & Hz & Hok & _).
    rewrite Hz in Hdo. simplify_eq. apply (IH y1 bl1); [done| |done|done]. apply (left_over_bounds y1 bl1 Hok).
    destruct (left_over_event y bl e y1 Hy He Hm Hz) as [?|[_ ?]]; done.
Qed.
Lemma left_over_trace es : forall y bl y', sys_ok RAM y bl -> trace es y y' -> Forall (fun e => is_malloc e = false) es ->
  (exists bl', sys_ok RAM y' bl') /\ (left_over y' = 0 \/ left_over y' <= left_over y + (2 * UNITS + 2) * count disturbs es - 2 * count is_section es).
Proof.
  induction es as [|e es IH]; intros y bl y' Hy Ht Hes; simpl in Ht.
  - subst. split; [by exists bl|]. right. unfold count. simpl. lia.
  - destruct Ht as (y1 & He & Hdo & Ht). apply Forall_cons in Hes as [Hm Hes]. destruct (sys_do_ok RAM y bl e Hy He) as (z & bl1 & Hz & Hok & _).
    rewrite Hz in Hdo. simplify_eq. destruct (IH y1 bl1 y' Hok Ht Hes) as [? Hle]. split; [done|].
    pose proof (left_over_event y bl e y1 Hy He Hm Hz) as H1. pose proof (left_over_bounds y1 bl1 Hok) as [? H0].
    assert (forall f, count f (e :: es) = count f es + bool_to_Z (f e)) as Hcnt.
    { intros f. unfold count. rewrite filter_cons. destruct (f e); simpl; lia. }
    rewrite !Hcnt. destruct H1 as [E|[H1 _]]; [left; by apply (quiet_trace es y1 bl1); auto|destruct Hle as [?|Hle]; [by left|right]].
    destruct (is_section e), (disturbs e); simpl in *; lia.
Qed.

(** C21: mem_malloc returns, disturbed or not: from any state that can be reached, in
    any sequence of events it has had its last section after MEM_SIZE_ALIGNED / 64 + 1
    of them for it and as many for each mem_free or mem_trim in between, though every
    one of these makes it start its search over. *)
Theorem malloc_returns s h y es y' :
  mem_init s = Some (tt, h) -> rtc sys_step (Sys h None ∅) y -> trace es y y' -> Forall (fun e => is_malloc e = false) es ->
  (MEM_SIZE_ALIGNED / MEM_ALIGNMENT + 1) * (1 + count disturbs es) <= count is_section es -> scall y' = None.
Proof.
  intros Hs Hr Ht Hes Hle. destruct (reachable_ok s h y Hs Hr) as [bl Hy]. destruct (left_over_trace es y bl y' Hy Ht Hes) as [[bl' Hy'] Hl].
  pose proof (left_over_bounds y bl Hy) as [? _]. pose proof (left_over_bounds y' bl' Hy') as [? Hz]. apply Hz.
  change (MEM_SIZE_ALIGNED / MEM_ALIGNMENT + 1) with 2049 in Hle. unfold UNITS in *. lia.
Qed.

(** ** What is refused *)

(** C39: mem_free changes nothing for NULL, for an address that is not aligned or not
    behind a struct of the heap, and for a block that has been freed before, even
    when its struct is no longer linked because it was joined to a neighbour. *)
Theorem mem_free_rejects s bl :
  holds s bl ->
  mem_free None s = Some (tt, s) /\
  (forall a, 0 < a < 4294967296 - SIZEOF_STRUCT_MEM ->
    a mod MEM_ALIGNMENT <> 0 \/ a < RAM + SIZEOF_STRUCT_MEM \/ RAM + MEM_SIZE_ALIGNED - MIN_SIZE_ALIGNED < a -> mem_free (Some a) s = Some (tt, s)) /\
  (forall b h, b ∈ bl -> b_used b = true -> mem_free (Some (addr RAM b)) s = Some (tt, h) -> mem_free (Some (addr RAM b)) h = Some (tt, h)).
Proof.
  intros [Hok _]. pose proof (h_placed _ _ _ (proj1 Hok)) as Hp. destruct (placed_bounds _ _ Hp) as (? & ? & HRal). split; [done|]. split.
  - intros a Ha Hout. unfold mem_free. change (MEM_ALIGNMENT - 1) with (Z.ones 6). rewrite Z.land_ones by done. change (2 ^ 6) with 64.
    change MEM_ALIGNMENT with 64 in Hout. change SIZEOF_STRUCT_MEM with 64 in *. change MIN_SIZE_ALIGNED with 64 in *. change MEM_SIZE_ALIGNED with 131072 in Hout.
    destruct (Z.eqb_spec (a mod 64) 0) as [Hal|Hal]; cbn [negb]; [|done]. rewrite bind_get, (p_ram _ _ Hp), (p_end _ _ Hp). unfold UNITS in *.
    assert (64 <= a) by (Z.to_euclidean_division_equations; lia). rewrite !u32_small by lia.
    destruct (Z.ltb_spec (a - 64) RAM), (Z.ltb_spec (RAM + 64 * 2048) (a + 64)); simpl; try done. lia.
  - intros b h (l & r & ->)%list_elem_of_split Hu Hrun. destruct (mem_free_run RAM s l b r Hok Hu) as (h' & Hrun' & [H' _] & _ & _ & _ & Hus).
    unfold addr in *. rewrite Hrun' in Hrun. simplify_eq. clear Hp. pose proof (h_placed _ _ _ H') as Hp.
    destruct (mid_fields _ _ _ _ _ (proj1 Hok)) as (_ & Hb1 & Hb2 & _). unfold mem_free. change (MEM_ALIGNMENT - 1) with (Z.ones 6).
    rewrite Z.land_ones by done. change (2 ^ 6) with 64. destruct (_ =? 0); [|done]. cbn [negb]. change SIZEOF_STRUCT_MEM with 64.
    rewrite bind_get. destruct (_ || _); [done|]. rewrite u32_small by (unfold UNITS in *; lia). replace (RAM + 64 * (b_at b + 1) - 64) with (RAM + 64 * b_at b) by lia.
    mrun (get_used_run RAM h (b_at b) Hp ltac:(lia)). by rewrite Hus.
Qed.

Lemma fill_at a n v m x : fill a n v m x = if decide (a <= x < a + n) then u8 v else m x.
Proof. unfold fill. case_decide; [by rewrite (proj2 (Z.leb_le _ _)), (proj2 (Z.ltb_lt _ _)) by lia|]. destruct (Z.leb_spec a x); [|done]. by rewrite (proj2 (Z.ltb_ge _ _)) by lia. Qed.

(** C40: mem_calloc allocates and clears count * size bytes modulo 2^32: its test for
    an overflow of the product compares two 32-bit values that are always equal, so
    that it serves a request whose size does not fit with a block that is too small. *)
Theorem mem_calloc_wraps s bl c size (n := u32 (c * size)) :
  holds s bl -> exists h, mem_calloc c size s = Some (fst (spec_malloc n bl), h) /\ holds h (snd (spec_malloc n bl)) /\
    forall a x, fst (spec_malloc n bl) = Some a -> a <= x < a + n -> bytes h x = 0.
Proof.
  intros Hs. assert (0 <= n < 4294967296) as Hn by apply u32_bound. destruct (malloc_refines s bl n Hs Hn) as (h & Hrun & [Hok Hex] & Hbl).
  unfold mem_calloc. fold n. rewrite (u32_small n), Z.eqb_refl by done. cbn [negb]. mrun Hrun.
  destruct (fst (spec_malloc n bl)) as [a|] eqn:E; [|by exists h].
  destruct (Hbl a eq_refl) as (b & Hb & -> & Hsz). exists (set_bytes (fill (addr RAM b) n 0 (bytes h)) h).
  destruct (us_at RAM h _ b (proj1 Hok) Hb) as (_ & _ & ? & ?). pose proof (h_placed _ _ _ (proj1 Hok)) as [_ _ ? ? _]. unfold addr, b_size in *.
  split; [unfold memset; replace (in_ram_heap _ _) with true by (symmetry; apply andb_true_iff; split; apply Z.leb_le; lia); by rewrite bind_modify|].
  split; [split; [apply (heap_ok_write RAM h _ b); [done|done|]|done]|].
  - intros x Hx. rewrite fill_at, decide_False by lia. done.
  - simpl. intros ? x [= <-] Hx. by rewrite fill_at, decide_True by lia.
Qed.

End Props.

(** ** Witnesses *)

(** Sequences of events, run. *)
Section Run.
Context {RH : RamHeap}.
Definition mayb (e : mem_event) (y : sys) : bool :=
  match e with
  | Malloc n => (0 <=? n) && (n <? 4294967296)
  | Section_ => true
  | Free a => bool_decide (is_Some (sheld y !! a))
  | Trim a n => bool_decide (is_Some (sheld y !! a)) && (0 <=? n) && (n <? 4294967296)
  | Write a i v => match sheld y !! a with Some n => (0 <=? i) && (i <? n) | None => false end
  end.
Fixpoint run_events (es : list mem_event) (y : sys) : option sys :=
  match es with
  | [] => Some y
  | e :: r => if mayb e y then y1 ← sys_do e y; run_events r y1 else None
  end.
Lemma mayb_may e y : mayb e y = true -> may e y.
Proof.
  destruct e as [n| |a|a n|a i v]; simpl; rewrite ?andb_true_iff, ?bool_decide_eq_true, ?Z.leb_le, ?Z.ltb_lt; [done|done|done|naive_solver|].
  destruct (sheld y !! a) as [n|]; [|done]. intros [H1 H2]%andb_true_iff. exists n. split; [done|lia].
Qed.
Lemma run_events_trace es y y' : run_events es y = Some y' -> trace es y y'.
Proof.
  revert y. induction es as [|e es IH]; intros y; simpl; [by intros [= ->]|]. destruct (mayb e y) eqn:E; [|done].
  destruct (sys_do e y) as [y1|] eqn:Ey; [|done]. intros H. exists y1. split; [by apply mayb_may|]. split; [done|]. by apply IH.
Qed.
Lemma run_events_rtc es y y' : run_events es y = Some y' -> rtc sys_step y y'.
Proof.
  intros H%run_events_trace. revert y H. induction es as [|e es IH]; intros y; simpl; [intros ->; apply rtc_refl|].
  intros (y1 & He & Hdo & Ht). eapply rtc_l; [by exists e|by apply IH].
Qed.
End Run.
Lemma is_some_default {A} (o : option A) d : (if o then true else false) = true -> o = Some (default d o).
Proof. by destruct o. Qed.

(** ram_heap 16 bytes behind a boundary, and memory that holds 0xaa. *)
Definition a_heap : RamHeap := {| ram_heap := 1048592; ram_heap_pos := eq_refl; ram_heap_fits := eq_refl |}.
#[local] Existing Instance a_heap.
Definition unused : mem_state := MemState (fun _ => 170) 0 0 0 0.
Definition started : mem_state := match mem_init unused with Some (_, h) => h | None => unused end.
Lemma started_run : mem_init unused = Some (tt, started).
Proof. unfold started. by destruct (mem_init_run unused) as (h & -> & _). Qed.
(** Two blocks, at RAM + 64 and RAM + 256; a third one is being looked for when the
    first is freed and the second, cut to 10 bytes, is written to. *)
Definition busy : list mem_event :=
  [Malloc 100; Section_; Section_; Malloc 200; Section_; Section_; Write (RAM + 256) 3 7; Malloc 300; Free (RAM + 64); Trim (RAM + 256) 10].
Definition at_work : sys := default (Sys started None ∅) (run_events busy (Sys started None ∅)).
Example at_work_run : run_events busy (Sys started None ∅) = Some at_work.
Proof. unfold at_work. apply is_some_default. vm_compute. reflexivity. Qed.
Lemma started_holds : holds started [Blk 0 UNITS false].
Proof. destruct (mem_init_run unused) as (h & Hrun & ?). pose proof started_run as E. rewrite Hrun in E. by injection E as <-. Qed.

Lemma heap_safe_witness :
  sheld at_work !! (RAM + 256) = Some 10 /\ (RAM + 256) mod MEM_ALIGNMENT = 0 /\ exists y, sys_do (Free (RAM + 256)) at_work = Some y.
Proof.
  destruct (heap_safe unused started at_work started_run (run_events_rtc _ _ _ at_work_run)) as (Hp & _ & He).
  assert (sheld at_work !! (RAM + 256) = Some 10) as Hh by (vm_compute; reflexivity). split; [exact Hh|]. split; [exact (proj1 (Hp _ _ Hh))|].
  destruct (He (Free (RAM + 256))) as (y & Hy & _); [by eexists|by exists y].
Defined.

Definition given_back : sys :=
  default at_work (run_events [Section_; Section_; Free (RAM + 256); Section_; Section_; Section_; Free (RAM + 64)] at_work).
Lemma heap_no_leak_witness : exists h, mem_malloc 131008 (sheap given_back) = Some (Some (RAM + SIZEOF_STRUCT_MEM), h).
Proof.
  apply (heap_no_leak unused started given_back); [exact started_run| |vm_compute; reflexivity|vm_compute; reflexivity|split; vm_compute; done].
  etrans; [exact (run_events_rtc _ _ _ at_work_run)|]. eapply run_events_rtc. apply is_some_default. vm_compute. reflexivity.
Defined.

Lemma heap_refines_witness : exists h h', mem_malloc 100 started = Some (Some (RAM + 64), h) /\ holds h [Blk 0 3 true; Blk 3 2048 false] /\
  mem_trim (RAM + 64) 1 h = Some (Some (RAM + 64), h') /\ holds h' [Blk 0 2 true; Blk 2 2048 false].
Proof.
  destruct (proj2 (heap_refines started [Blk 0 UNITS false]) started_holds) as (Hm & _). destruct (Hm 100) as (h & Hrun & Hh); [lia|].
  assert (spec_malloc 100 [Blk 0 UNITS false] = (Some (RAM + 64), [Blk 0 3 true; Blk 3 2048 false])) as E by (vm_compute; reflexivity).
  rewrite E in Hrun, Hh. destruct (proj2 (heap_refines h _) Hh) as (_ & _ & Ht). destruct (Ht (Blk 0 3 true) 1) as (h' & Hrun' & Hh'); [left|done|lia|].
  assert (spec_trim (Blk 0 3 true) 1 [Blk 0 3 true; Blk 3 2048 false] = (Some (RAM + 64), [Blk 0 2 true; Blk 2 2048 false])) as E' by (vm_compute; reflexivity).
  cbn [fst snd] in Hrun', Hh'. rewrite E' in Hrun', Hh'. exists h, h'. split; [exact Hrun|]. split; [exact Hh|]. split; [exact Hrun'|exact Hh'].
Defined.

(** A mem_malloc that is disturbed once. *)
Definition sections : list mem_event := Section_ :: Free (RAM + 256) :: replicate (Z.to_nat 4097) Section_.
Lemma malloc_returns_witness : exists y, run_events sections at_work = Some y /\ scall y = None.
Proof.
  exists (default at_work (run_events sections at_work)). assert (run_events sections at_work = Some (default at_work (run_events sections at_work))) as Hr.
  { apply is_some_default. vm_compute. reflexivity. }
  split; [exact Hr|]. apply (malloc_returns unused started at_work sections); [exact started_run|exact (run_events_rtc _ _ _ at_work_run)|exact (run_events_trace _ _ _ Hr)| |].
  - unfold sections. apply Forall_cons_2; [reflexivity|]. apply Forall_cons_2; [reflexivity|]. exact (Forall_replicate (fun e => is_malloc e = false) _ Section_ eq_refl).
  - vm_compute. done.
Defined.

Lemma mem_free_rejects_witness : mem_free (Some (RAM + 65)) started = Some (tt, started) /\
  exists h h', mem_free (Some (RAM + 64)) h = Some (tt, h') /\ mem_free (Some (RAM + 64)) h' = Some (tt, h').
Proof.
  split; [apply (proj2 (mem_free_rejects started _ started_holds)); [split; vm_compute; done|left; vm_compute; done]|].
  destruct (malloc_refines started _ 100 started_holds ltac:(lia)) as (h & _ & Hh & _).
  assert (snd (spec_malloc 100 [Blk 0 UNITS false]) = [Blk 0 3 true; Blk 3 2048 false]) as E by (vm_compute; reflexivity). rewrite E in Hh.
  destruct (mem_free_run RAM h [] (Blk 0 3 true) [Blk 3 2048 false] (proj1 Hh) eq_refl) as (h' & Hrun & _). exists h, h'. split; [exact Hrun|].
  exact (proj2 (proj2 (mem_free_rejects h _ Hh)) (Blk 0 3 true) h' ltac:(left) eq_refl Hrun).
Defined.

(** 65537 objects of 65536 bytes are served with 65536 bytes. *)
Lemma mem_calloc_wraps_witness : exists h, mem_calloc 65537 65536 started = Some (Some (RAM + 64), h) /\ holds h [Blk 0 1025 true; Blk 1025 2048 false].
Proof.
  destruct (mem_calloc_wraps started _ 65537 65536 started_holds) as (h & Hrun & Hh & _).
  assert (spec_malloc (u32 (65537 * 65536)) [Blk 0 UNITS false] = (Some (RAM + 64), [Blk 0 1025 true; Blk 1025 2048 false])) as E by (vm_compute; reflexivity).
  rewrite E in Hrun, Hh. exists h. split; [exact Hrun|exact Hh].
Defined.
