(* ===== verification/PbufFacts.v ===== *)
(** * Packet buffers: chains and the lemmas of core/pbuf.c

    [chain h p l]: following [next] from [p] visits the pbufs [l] and ends in
    NULL.  [packet h p l]: such a chain whose [tot_len] fields are the suffix
    sums of its [len] fields and whose payloads lie inside live memory. *)
From S2P Require Import Prelude Pbuf.

Inductive chain (h : heap) : option positive -> list (positive * pbuf) -> Prop :=
  | chain_nil : chain h None []
  | chain_cons i b l :
      h_pbufs h !! i = Some b -> chain h (next b) l -> chain h (Some i) ((i, b) :: l).
#[export] Hint Constructors chain : lwip.

Definition sum_len (l : list (positive * pbuf)) : Z :=
  foldr (fun ib s => len ib.2 + s) 0 l.

Fixpoint tot_ok (l : list (positive * pbuf)) : Prop :=
  match l with
  | [] => True
  | (_, b) :: r => 0 <= len b /\ tot_len b = len b + sum_len r /\ tot_ok r
  end.

(** The bytes of one pbuf and of a chain. *)
Definition pdata (h : heap) (b : pbuf) : list Z :=
  match payload b with
  | Some (Ptr blk o) => slice (default [] (h_mem h !! blk)) o (len b)
  | None => []
  end.
Definition chain_data (h : heap) (l : list (positive * pbuf)) : list Z :=
  concat ((fun ib => pdata h ib.2) <$> l).

Definition payload_ok (h : heap) (b : pbuf) : Prop :=
  len b = 0 \/
  exists blk o bs, payload b = Some (Ptr blk o) /\ h_mem h !! blk = Some bs /\
    0 <= o /\ o + len b <= lenZ bs.

Record packet (h : heap) (p : option positive) (l : list (positive * pbuf)) : Prop := {
  packet_chain : chain h p l;
  packet_tot : tot_ok l;
  packet_small : sum_len l < 65536;
  packet_mem : Forall (fun ib => payload_ok h ib.2) l;
}.

(** Every pbuf of the chain holds at least one byte. *)
Notation all_pos l := (Forall (fun ib : positive * pbuf => 0 < len ib.2) l).

(** ** Chains *)

Lemma chain_inv h i l :
  chain h (Some i) l ->
  exists b r, l = (i, b) :: r /\ h_pbufs h !! i = Some b /\ chain h (next b) r.
Proof. inversion 1; subst. eauto. Qed.

Lemma chain_inv' h p i b l :
  chain h p ((i, b) :: l) -> p = Some i /\ h_pbufs h !! i = Some b /\ chain h (next b) l.
Proof. inversion 1; subst. eauto. Qed.

Lemma chain_nil_inv h p : chain h p [] -> p = None.
Proof. by inversion 1. Qed.

Lemma chain_None h l : chain h None l -> l = [].
Proof. by inversion 1. Qed.

Lemma chain_det h p l1 l2 : chain h p l1 -> chain h p l2 -> l1 = l2.
Proof.
  intros H. revert l2. induction H as [|i b l Hi H IH]; intros l2 H2.
  - by apply chain_None in H2.
  - apply chain_inv in H2 as (b' & r & -> & ? & ?). simplify_eq.
    by rewrite (IH r).
Qed.

Lemma chain_app_inv h p l1 l2 :
  chain h p (l1 ++ l2) -> exists q, chain h q l2 /\
    (l1 = [] -> q = p) /\ (forall l0 i b, l1 = l0 ++ [(i, b)] -> q = next b).
Proof.
  revert p. induction l1 as [|[i b] l1 IH]; intros p H; simpl in *.
  - exists p. split_and!; [done|done|]. intros [|? l0] ??; simpl; intros [=].
  - inversion H; subst. destruct (IH (next b)) as (q & Hq & Hn & Hl); [done|].
    exists q. split_and!; [done|done|].
    intros [|x l0] j c; simpl; intros [=]; subst; [auto|].
    by eapply Hl.
Qed.

Lemma chain_suffix h p l1 i b l2 :
  chain h p (l1 ++ (i, b) :: l2) -> chain h (Some i) ((i, b) :: l2).
Proof.
  intros (q & Hq & _)%chain_app_inv. inversion Hq; subst. eauto with lwip.
Qed.

Lemma chain_lookup h p l i b : chain h p l -> (i, b) ∈ l -> h_pbufs h !! i = Some b.
Proof.
  induction 1; [by intros ?%not_elem_of_nil|].
  intros [[= -> ->]|?]%elem_of_cons; auto.
Qed.

Lemma chain_NoDup h p l : chain h p l -> NoDup l.*1.
Proof.
  induction 1 as [|i b l Hi H IH]; csimpl; [constructor|].
  constructor; [|done].
  intros ([j c] & Hj & Hin)%list_elem_of_fmap. simpl in Hj. subst j.
  apply list_elem_of_split in Hin as (l1 & l2 & ->).
  assert (chain h (Some i) ((i, c) :: l2)) as Hc by (by eapply chain_suffix).
  assert (chain h (Some i) ((i, b) :: l1 ++ (i, c) :: l2)) as Hb by eauto with lwip.
  pose proof (chain_det _ _ _ _ Hb Hc) as Heq.
  apply (f_equal length) in Heq. rewrite length_cons, length_app in Heq.
  simpl in Heq. lia.
Qed.

Lemma chain_fuel_enough h p l : chain h p l -> (length l < chain_fuel h)%nat.
Proof.
  intros H. unfold chain_fuel.
  assert (length l = length l.*1) as -> by (by rewrite length_fmap).
  rewrite <- (size_list_to_set (C := gset positive) l.*1) by by eapply chain_NoDup.
  rewrite <- size_dom. apply Nat.lt_succ_r, subseteq_size.
  intros i [[j b] [-> Hin]]%elem_of_list_to_set%list_elem_of_fmap.
  apply elem_of_dom. simpl. rewrite (chain_lookup _ _ _ _ _ H Hin). eauto.
Qed.

Lemma chain_ext h h' p l :
  (forall i b, (i, b) ∈ l -> h_pbufs h' !! i = Some b) -> chain h p l -> chain h' p l.
Proof.
  intros Hext H. induction H as [|i b l Hi H IH]; constructor.
  - apply Hext. by left.
  - apply IH. intros. apply Hext. by right.
Qed.

(** ** Lengths *)

Lemma sum_len_cons i b l : sum_len ((i, b) :: l) = len b + sum_len l.
Proof. done. Qed.
Lemma sum_len_app l1 l2 : sum_len (l1 ++ l2) = sum_len l1 + sum_len l2.
Proof. induction l1 as [|[i b] l IH]; [done|]. simpl. rewrite IH. lia. Qed.

Lemma tot_ok_sum l : tot_ok l -> 0 <= sum_len l.
Proof. induction l as [|[i b] l IH]; simpl; [lia|]. intros (?&?&?%IH). lia. Qed.

Lemma tot_ok_app l1 l2 : tot_ok (l1 ++ l2) -> tot_ok l2.
Proof. induction l1 as [|[i b] l IH]; simpl; [done|]. intros (?&?&?). auto. Qed.

Lemma tot_ok_prefix_sum l1 l2 : tot_ok (l1 ++ l2) -> 0 <= sum_len l1.
Proof. induction l1 as [|[i b] l IH]; simpl; [lia|]. intros (?&?&?%IH). lia. Qed.

Lemma packet_app h p l1 l2 :
  packet h p (l1 ++ l2) -> exists q, packet h q l2 /\ (l1 = [] -> q = p).
Proof.
  intros [Hc Ht Hs Hm]. destruct (chain_app_inv _ _ _ _ Hc) as (q & Hq & ? & ?).
  exists q. split; [|done]. split.
  - done.
  - by eapply tot_ok_app.
  - rewrite sum_len_app in Hs. pose proof (tot_ok_prefix_sum _ _ Ht). lia.
  - by apply Forall_app in Hm as [_ ?].
Qed.

Lemma packet_cons_inv h p i b l :
  packet h p ((i, b) :: l) ->
  p = Some i /\ h_pbufs h !! i = Some b /\ packet h (next b) l /\
  0 <= len b /\ tot_len b = len b + sum_len l /\ payload_ok h b /\
  len b + sum_len l < 65536 /\ 0 <= sum_len l.
Proof.
  intros [Hc Ht Hs Hm]. inversion Hc; subst. simpl in *.
  destruct Ht as (?&?&Ht). apply Forall_cons in Hm as [? ?].
  pose proof (tot_ok_sum _ Ht). split_and!; try done; try lia. split; auto. lia.
Qed.

Lemma packet_cons h i b l :
  h_pbufs h !! i = Some b -> packet h (next b) l ->
  0 <= len b -> tot_len b = len b + sum_len l -> payload_ok h b ->
  len b + sum_len l < 65536 -> packet h (Some i) ((i, b) :: l).
Proof.
  intros ? [] ????. split; simpl; try constructor; auto.
Qed.

Lemma packet_nil h : packet h None [].
Proof. split; simpl; auto with lwip. lia. Qed.

Lemma packet_Some_inv h i l :
  packet h (Some i) l -> exists b r, l = (i, b) :: r.
Proof. intros [Hc]. inversion Hc; subst. eauto. Qed.

Lemma packet_None h l : packet h None l -> l = [].
Proof. intros [Hc]. by apply chain_None in Hc. Qed.

Lemma packet_fuel h p l : packet h p l -> (length l < chain_fuel h)%nat.
Proof. intros [Hc]. by eapply chain_fuel_enough. Qed.

(** A packet is untouched by changes elsewhere in the heap. *)
Lemma packet_frame h h' p l :
  (forall i, i ∈ l.*1 -> h_pbufs h' !! i = h_pbufs h !! i) ->
  (forall i b, (i, b) ∈ l -> payload_ok h b -> payload_ok h' b) ->
  packet h p l -> packet h' p l.
Proof.
  intros Hpb Hpl [Hc Ht Hs Hm]. split; try done.
  - eapply chain_ext; [|exact Hc]. intros i b Hin.
    rewrite Hpb; [by eapply chain_lookup|]. apply list_elem_of_fmap. by exists (i, b).
  - rewrite Forall_forall in Hm |- *. intros [i b] Hin. eapply Hpl; [done|]. by apply (Hm (i, b)).
Qed.

Lemma packet_frame_pbufs h h' p l :
  (forall i, i ∈ l.*1 -> h_pbufs h' !! i = h_pbufs h !! i) -> h_mem h' = h_mem h ->
  packet h p l -> packet h' p l.
Proof.
  intros Hpb Hm. apply packet_frame; [done|]. intros i b _. unfold payload_ok. by rewrite Hm.
Qed.

Lemma packet_NoDup h p l : packet h p l -> NoDup l.*1.
Proof. intros []. by eapply chain_NoDup. Qed.

(** ** Bytes of a chain *)

Lemma length_pdata h b : 0 <= len b -> payload_ok h b -> lenZ (pdata h b) = len b.
Proof.
  intros ? [E|(blk & o & bs & E1 & E2 & ? & ?)]; unfold pdata.
  - destruct (payload b) as [[blk o]|]; rewrite E; [|done].
    unfold slice. by rewrite take_0.
  - rewrite E1, E2. simpl. apply length_slice; lia.
Qed.

Lemma chain_data_cons h i b l : chain_data h ((i, b) :: l) = pdata h b ++ chain_data h l.
Proof. done. Qed.
Lemma chain_data_app h l1 l2 :
  chain_data h (l1 ++ l2) = chain_data h l1 ++ chain_data h l2.
Proof. unfold chain_data. by rewrite fmap_app, concat_app. Qed.

Lemma chain_data_mem h h' l : h_mem h' = h_mem h -> chain_data h' l = chain_data h l.
Proof. intros H. unfold chain_data, pdata. by rewrite H. Qed.

Lemma length_chain_data h p l : packet h p l -> lenZ (chain_data h l) = sum_len l.
Proof.
  revert p. induction l as [|[i b] l IH]; intros p Hp; [done|].
  apply packet_cons_inv in Hp as (-> & Hi & Hp & ? & ? & ? & ? & ?).
  rewrite chain_data_cons, length_app, Nat2Z.inj_add, (IH _ Hp), length_pdata by done.
  done.
Qed.

Lemma length_chain_data_prefix h p l1 l2 :
  packet h p (l1 ++ l2) -> lenZ (chain_data h l1) = sum_len l1.
Proof.
  intros Hp. destruct (packet_app _ _ _ _ Hp) as (q & Hq & _).
  pose proof (length_chain_data _ _ _ Hp) as Ha. pose proof (length_chain_data _ _ _ Hq) as Hb.
  rewrite chain_data_app, length_app, sum_len_app in Ha. lia.
Qed.

Lemma load_pdata h b i n :
  payload_ok h b -> 0 <= i -> 0 <= n -> i + n <= len b ->
  load (payload b) i n h = Some (slice (pdata h b) i n, h).
Proof.
  intros Hok ???. unfold load. destruct (Z.eqb_spec n 0) as [->|Hn].
  { by rewrite slice_0_0. }
  destruct Hok as [?|(blk & o & bs & E1 & E2 & ? & ?)]; [lia|].
  unfold pdata. rewrite E1, E2. simpl.
  rewrite (proj2 (Z.leb_le 0 (o + i))), (proj2 (Z.leb_le 0 n)),
    (proj2 (Z.leb_le (o + i + n) _)) by lia. simpl.
  by rewrite slice_slice by lia.
Qed.

Lemma load_all h b :
  payload_ok h b -> 0 <= len b -> load (payload b) 0 (len b) h = Some (pdata h b, h).
Proof.
  intros Hok ?. rewrite load_pdata by (done || lia).
  by rewrite slice_full by by apply length_pdata.
Qed.

(** ** Skipping *)

Section Facts.
Context {E : PbufEnv}.

Lemma get_pbuf_run h i b : h_pbufs h !! i = Some b -> get_pbuf i h = Some (b, h).
Proof. intros H. unfold get_pbuf. by rewrite H. Qed.

Lemma deref_run h i b : h_pbufs h !! i = Some b -> deref (Some i) h = Some ((i, b), h).
Proof. intros H. unfold deref. by rewrite (bind_run _ _ _ _ _ (get_pbuf_run _ _ _ H)). Qed.

Lemma upd_pbuf_run h i b f :
  h_pbufs h !! i = Some b ->
  upd_pbuf i f h = Some (tt, set_pbufs (<[i := f b]> (h_pbufs h)) h).
Proof. intros H. unfold upd_pbuf. by rewrite H. Qed.

(** pbuf_skip splits the chain at the byte [offset]. *)
Lemma pbuf_skip_loop_run h fuel p l offset :
  packet h p l -> (length l <= fuel)%nat -> 0 <= offset < 65536 ->
  exists l1 l2 q o, l = l1 ++ l2 /\ packet h q l2 /\
    pbuf_skip_loop fuel p offset h = Some ((q, o), h) /\
    offset = sum_len l1 + o /\ 0 <= o /\
    match l2 with [] => True | (_, b) :: _ => o < len b end.
Proof.
  revert p l offset. induction fuel as [|fuel IH]; intros p l offset Hp Hf Ho.
  - destruct l; [|simpl in Hf; lia].
    destruct p as [i|]; [by apply packet_Some_inv in Hp as (?&?&?)|].
    exists [], [], None, offset. simpl. split_and!; auto with lia.
  - destruct p as [i|].
    2:{ pose proof (packet_None _ _ Hp) as ->.
        exists [], [], None, offset. simpl. split_and!; auto with lia. }
    destruct (packet_Some_inv _ _ _ Hp) as (b & r & ->).
    pose proof (packet_cons_inv _ _ _ _ _ Hp) as (_ & Hi & Hr & ? & ? & ? & ? & ?).
    simpl. mrun (get_pbuf_run _ _ _ Hi).
    destruct (len b <=? offset) eqn:El; b2p.
    + rewrite u16_small by lia.
      destruct (IH (next b) r (offset - len b)) as (l1 & l2 & q & o & -> & Hq & Hrun & Hoff & Ho' & Hlt);
        [done|simpl in Hf; lia|lia|].
      exists ((i, b) :: l1), l2, q, o. simpl. split_and!; auto. lia.
    + exists [], ((i, b) :: r), (Some i), offset. simpl. split_and!; auto with lia.
Qed.

Lemma pbuf_skip_run h p l offset :
  packet h p l -> 0 <= offset < 65536 ->
  exists l1 l2 q o, l = l1 ++ l2 /\ packet h q l2 /\
    pbuf_skip p offset h = Some ((q, o), h) /\
    offset = sum_len l1 + o /\ 0 <= o /\
    match l2 with [] => True | (_, b) :: _ => o < len b end.
Proof.
  intros Hp Ho. unfold pbuf_skip, pbuf_skip_const.
  destruct (pbuf_skip_loop_run h (chain_fuel h) p l offset) as (l1&l2&q&o&H);
    [done|by apply Nat.lt_le_incl, (packet_fuel _ _ _ Hp)|done|].
  exists l1, l2, q, o. done.
Qed.

(** ** Reading *)

Lemma pbuf_copy_partial_loop_run h fuel p l n off tot out :
  packet h p l -> (length l <= fuel)%nat -> 0 <= n -> 0 <= off < 65536 ->
  0 <= tot -> tot + n < 65536 ->
  pbuf_copy_partial_loop fuel p n off tot out h =
    Some ((tot + lenZ (slice (chain_data h l) off n), out ++ slice (chain_data h l) off n), h).
Proof.
  revert p l n off tot out.
  induction fuel as [|fuel IH]; intros p l n off tot out Hp Hf Hn Ho Ht Htn;
    (destruct p as [i|];
      [destruct (packet_Some_inv _ _ _ Hp) as (b & r & ->)
      |rewrite (packet_None _ _ Hp); simpl; rewrite slice_nil; simpl;
       rewrite app_nil_r, Z.add_0_r; done]).
  { simpl in Hf. lia. }
  pose proof (packet_cons_inv _ _ _ _ _ Hp) as (_ & Hi & Hr & ? & ? & Hok & ? & ?).
  simpl. destruct (Z.eqb_spec n 0) as [->|Hn0].
  { simpl. by rewrite slice_0_0, app_nil_r, Z.add_0_r. }
  mrun (get_pbuf_run _ _ _ Hi). rewrite chain_data_cons.
  pose proof (length_pdata h b ltac:(lia) Hok) as Hlen.
  destruct (negb (off =? 0) && (len b <=? off)) eqn:Eo.
  - b2p. rewrite u16_small by lia. rewrite (IH _ r) by (done || simpl in Hf; lia).
    rewrite slice_app_r by lia. by rewrite Hlen.
  - assert (0 <= off <= len b) as Hoff.
    { apply andb_false_iff in Eo as [Eo|Eo]; b2p; lia. }
    rewrite (u16_small (len b - off)) by lia.
    set (m := if n <? len b - off then n else len b - off).
    assert (m = Z.min n (len b - off)) as Hm.
    { unfold m. case_if; lia. }
    mrun (load_pdata h b off m Hok ltac:(lia) ltac:(lia) ltac:(lia)).
    assert (lenZ (slice (pdata h b) off m) = m) as Hsl by (apply length_slice; lia).
    rewrite (u16_small (n - m)), (u16_small (tot + m)) by lia.
    rewrite (IH _ r) by (done || simpl in Hf; lia).
    rewrite (slice_app_split (pdata h b)) by lia. rewrite Hlen, <- Hm.
    rewrite length_app, Nat2Z.inj_add, Hsl, app_assoc. do 3 f_equal. lia.
Qed.

Lemma pbuf_copy_partial_run h i l n off :
  packet h (Some i) l -> 0 <= n < 65536 -> 0 <= off < 65536 ->
  pbuf_copy_partial (Some i) true n off h =
    Some ((lenZ (slice (chain_data h l) off n), slice (chain_data h l) off n), h).
Proof.
  intros Hp Hn Ho. unfold pbuf_copy_partial. cbn [negb].
  rewrite bind_get.
  rewrite (pbuf_copy_partial_loop_run _ _ _ l) by
    (done || lia || by apply Nat.lt_le_incl, (packet_fuel _ _ _ Hp)).
  done.
Qed.

(** The byte of a chain at an offset lies in the pbuf that pbuf_skip finds. *)
Lemma chain_data_lookup h p l1 i b l2 o :
  packet h p (l1 ++ (i, b) :: l2) -> 0 <= o < len b ->
  chain_data h (l1 ++ (i, b) :: l2) !! Z.to_nat (sum_len l1 + o) =
    Some (byte_at (pdata h b) o).
Proof.
  intros Hp Ho. rewrite chain_data_app, chain_data_cons.
  destruct (packet_app _ _ _ _ Hp) as (q & Hq & _).
  pose proof (packet_cons_inv _ _ _ _ _ Hq) as (_ & Hi & Hr & ? & ? & Hok & ? & ?).
  pose proof (length_pdata h b ltac:(lia) Hok) as Hlen.
  pose proof (length_chain_data_prefix _ _ _ _ Hp) as Hl1.
  rewrite lookup_app_r by lia.
  replace (Z.to_nat (sum_len l1 + o) - length (chain_data h l1))%nat with (Z.to_nat o) by lia.
  rewrite lookup_app_l by lia. apply lookup_lenZ. lia.
Qed.

Lemma pbuf_try_get_at_run h p l off :
  packet h p l -> 0 <= off < 65536 ->
  pbuf_try_get_at p off h =
    Some (default (-1) (chain_data h l !! Z.to_nat off), h).
Proof.
  intros Hp Ho. unfold pbuf_try_get_at.
  destruct (pbuf_skip_run h p l off Hp Ho) as (l1 & l2 & q & o & -> & Hq & Hrun & -> & ? & Hlt).
  unfold pbuf_skip in Hrun. mrun Hrun.
  destruct l2 as [|[i b] l2].
  - destruct Hq as [Hc]; inversion Hc; subst.
    rewrite (proj2 (lookup_ge_None _ _)); [done|].
    pose proof (length_chain_data _ _ _ Hp) as Ha. rewrite sum_len_app in Ha. simpl in Ha. lia.
  - rewrite (chain_data_lookup _ _ _ _ _ _ _ Hp) by lia.
    pose proof (packet_cons_inv _ _ _ _ _ Hq) as (-> & Hi & Hr & ? & ? & Hok & ? & ?).
    mrun (get_pbuf_run _ _ _ Hi). rewrite (proj2 (Z.ltb_lt _ _) Hlt).
    mrun (load_pdata h b o 1 Hok ltac:(lia) ltac:(lia) ltac:(lia)).
    rewrite (slice_1 _ _ (byte_at (pdata h b) o)); [done|lia|].
    apply lookup_lenZ. rewrite length_pdata by (done || lia). lia.
Qed.

(** All memory holds bytes. *)
Definition mem_ok (h : heap) : Prop := map_Forall (fun _ bs => bytes_ok bs) (h_mem h).

Lemma pdata_ok h b : mem_ok h -> bytes_ok (pdata h b).
Proof.
  intros Hm. unfold pdata. destruct (payload b) as [[blk o]|]; [|constructor].
  apply bytes_ok_slice. destruct (h_mem h !! blk) as [bs|] eqn:Eb; simpl; [|constructor].
  by apply (Hm _ _ Eb).
Qed.

Lemma chain_data_ok h l : mem_ok h -> bytes_ok (chain_data h l).
Proof.
  intros Hm. induction l as [|[i b] l IH]; [constructor|].
  rewrite chain_data_cons, bytes_ok_app. eauto using pdata_ok.
Qed.

Lemma pbuf_get_at_run h p l off :
  mem_ok h -> packet h p l -> 0 <= off < 65536 ->
  pbuf_get_at p off h = Some (default 0 (chain_data h l !! Z.to_nat off), h).
Proof.
  intros Hm Hp Ho. unfold pbuf_get_at. mrun (pbuf_try_get_at_run _ _ _ _ Hp Ho).
  destruct (chain_data h l !! Z.to_nat off) as [v|] eqn:Ev; simpl.
  - pose proof (Forall_lookup_1 _ _ _ _ (chain_data_ok h l Hm) Ev) as Hv.
    unfold is_byte in Hv. rewrite (proj2 (Z.leb_le 0 v)) by lia. by rewrite u8_small.
  - done.
Qed.

(** ** Comparing and searching *)

(** One plus the index of the first difference, 0 if there is none. *)
Fixpoint first_diff (i : Z) (a b : list Z) : Z :=
  match a, b with
  | x :: a, y :: b => if x =? y then first_diff (i + 1) a b else i + 1
  | _, _ => 0
  end.

Lemma first_diff_0 i a b :
  0 <= i -> length a = length b -> first_diff i a b = 0 <-> a = b.
Proof.
  revert i b. induction a as [|x a IH]; intros i [|y b] Hi; simpl; try done.
  intros [= Hl]. destruct (Z.eqb_spec x y) as [->|Hn].
  - rewrite IH by lia. split; [by intros ->|by intros [= ->]].
  - split; [lia|congruence].
Qed.

Lemma slice_cons l i n :
  0 <= i < lenZ l -> 0 < n -> slice l i n = byte_at l i :: slice l (i + 1) (n - 1).
Proof.
  intros Hi Hn. unfold slice. rewrite (drop_S l (byte_at l i) (Z.to_nat i)) by (by apply lookup_lenZ).
  replace (Z.to_nat n) with (S (Z.to_nat (n - 1))) by lia. simpl. do 2 f_equal. f_equal. lia.
Qed.

Lemma pbuf_memcmp_loop_run h q l start s2 n k : forall i,
  mem_ok h -> packet h q l -> 0 <= start -> start + n <= sum_len l -> n <= lenZ s2 ->
  0 <= i -> n = i + Z.of_nat k ->
  pbuf_memcmp_loop k q start i s2 h =
    Some (first_diff i (slice (chain_data h l) (start + i) (n - i)) (slice s2 i (n - i)), h).
Proof.
  induction k as [|k IH]; intros i Hm Hp Hs Hsn Hn Hi Hk; cbn [pbuf_memcmp_loop].
  { by replace (n - i) with 0 by lia. }
  pose proof (length_chain_data _ _ _ Hp) as Hlen. pose proof (packet_small _ _ _ Hp).
  rewrite (u16_small (start + i)) by lia. mrun (pbuf_get_at_run h q l (start + i) Hm Hp ltac:(lia)).
  rewrite lookup_lenZ by lia. cbn [default id].
  assert (load_arg s2 i 1 h = Some ([byte_at s2 i], h)) as Hla.
  { unfold load_arg. rewrite (proj2 (Z.leb_le 0 i)), (proj2 (Z.leb_le (i + 1) _)) by lia. simpl.
    rewrite (slice_1 _ _ (byte_at s2 i)); [done|done|]. apply lookup_lenZ. lia. }
  mrun Hla. rewrite !(slice_cons _ _ (n - i)) by lia. cbn [first_diff].
  change (byte_at [byte_at s2 i] 0) with (byte_at s2 i).
  destruct (byte_at (chain_data h l) (start + i) =? byte_at s2 i); cbn [negb].
  - rewrite IH by (done || lia). by rewrite !Z.sub_add_distr, Z.add_assoc.
  - unfold mret, M_ret. do 2 f_equal. rewrite Z.min_l, u16_small; lia.
Qed.

Lemma pbuf_memcmp_run h i l off s2 n :
  mem_ok h -> packet h (Some i) l -> 0 <= off -> 0 <= n -> off + n <= sum_len l ->
  n <= lenZ s2 ->
  pbuf_memcmp (Some i) off s2 n h =
    Some (first_diff 0 (slice (chain_data h l) off n) (slice s2 0 n), h).
Proof.
  intros Hm Hp Ho Hn Hon Hs2. unfold pbuf_memcmp.
  pose proof (packet_Some_inv _ _ _ Hp) as (b & r & Hl).
  assert (h_pbufs h !! i = Some b /\ tot_len b = sum_len l) as [Hi Ht].
  { rewrite Hl in Hp |- *. by apply packet_cons_inv in Hp as (_ & ? & _ & _ & ? & _). }
  mrun (deref_run _ _ _ Hi). rewrite Ht, (proj2 (Z.ltb_ge _ _)) by lia. rewrite bind_get.
  pose proof (packet_small _ _ _ Hp). pose proof (packet_fuel _ _ _ Hp).
  destruct (pbuf_skip_loop_run h (chain_fuel h) (Some i) l off Hp ltac:(lia) ltac:(lia))
    as (l1 & l2 & q & o & El & Hq & Hrun & -> & ? & _).
  mrun Hrun. rewrite El, sum_len_app in Hon.
  rewrite (pbuf_memcmp_loop_run h q l2 o s2 n _ 0) by (done || lia).
  rewrite Z.sub_0_r, Z.add_0_r. rewrite El in Hp |- *.
  rewrite chain_data_app, slice_app_r; rewrite (length_chain_data_prefix _ _ _ _ Hp); [|lia].
  do 4 f_equal. lia.
Qed.

(** [mem] occurs in [data] at [i]. *)
Definition occurs (data mem : list Z) (i : Z) : Prop := slice data i (lenZ mem) = mem.

(** The first occurrence at or after [start], or 0xFFFF. *)
Definition first_occurrence (data mem : list Z) (start r : Z) : Prop :=
  (r = 0xFFFF /\ forall j, start <= j -> j + lenZ mem <= lenZ data -> ~ occurs data mem j) \/
  (start <= r /\ r + lenZ mem <= lenZ data /\ occurs data mem r /\
   forall j, start <= j -> j < r -> ~ occurs data mem j).

Lemma pbuf_memfind_loop_run h p l mem k : forall i,
  mem_ok h -> packet h (Some p) l -> sum_len l < 0xFFFF -> lenZ mem <= sum_len l ->
  0 <= i -> sum_len l - lenZ mem + 1 - i <= Z.of_nat k ->
  exists r, pbuf_memfind_loop k (Some p) mem (lenZ mem) i (sum_len l - lenZ mem) h = Some (r, h) /\
    first_occurrence (chain_data h l) mem i r.
Proof.
  induction k as [|k IH]; intros i Hm Hp Hs Hmem Hi Hk; cbn [pbuf_memfind_loop];
    pose proof (length_chain_data _ _ _ Hp) as Hlen.
  - rewrite (proj2 (Z.ltb_lt _ _)) by lia. eexists. split; [done|]. left. split; [done|]. lia.
  - destruct (sum_len l - lenZ mem <? i) eqn:Ei; b2p.
    { eexists. split; [done|]. left. split; [done|]. lia. }
    mrun (pbuf_memcmp_run h p l i mem (lenZ mem) Hm Hp ltac:(lia) ltac:(lia) ltac:(lia) ltac:(lia)).
    rewrite (slice_full mem) by done.
    pose proof (length_slice (chain_data h l) i (lenZ mem) ltac:(lia) ltac:(lia) ltac:(lia)) as Hsl.
    pose proof (first_diff_0 0 (slice (chain_data h l) i (lenZ mem)) mem ltac:(lia) ltac:(lia)) as Hfd.
    case_if.
    + exists i. split; [done|]. right. split_and!; try lia. by apply Hfd.
    + rewrite (u16_small (i + 1)) by lia.
      destruct (IH (i + 1)) as (r & Hrun & Hr); [done|done|done|done|lia|lia|].
      exists r. split; [exact Hrun|].
      assert (~ occurs (chain_data h l) mem i) as Hni by (intros Ho; by apply E0, Hfd).
      destruct Hr as [[-> Hno]|(? & ? & Hoc & Hno)]; [left|right].
      * split; [done|]. intros j ??. destruct (decide (j = i)) as [->|]; [done|]. apply Hno; lia.
      * split_and!; try done; try lia. intros j ??.
        destruct (decide (j = i)) as [->|]; [done|]. apply Hno; lia.
Qed.

Lemma pbuf_memfind_run h p l mem start :
  mem_ok h -> packet h (Some p) l -> sum_len l < 0xFFFF -> 0 <= start ->
  exists r, pbuf_memfind (Some p) mem (lenZ mem) start h = Some (r, h) /\
    first_occurrence (chain_data h l) mem start r.
Proof.
  intros Hm Hp Hs Hst. unfold pbuf_memfind.
  pose proof (packet_Some_inv _ _ _ Hp) as (b & r & Hl).
  assert (h_pbufs h !! p = Some b /\ tot_len b = sum_len l) as [Hi Ht].
  { rewrite Hl in Hp |- *. by apply packet_cons_inv in Hp as (_ & ? & _ & _ & ? & _). }
  pose proof (length_chain_data _ _ _ Hp) as Hlen.
  mrun (deref_run _ _ _ Hi). rewrite Ht. case_if.
  - rewrite u16_small by lia. apply pbuf_memfind_loop_run; try done; lia.
  - exists 0xFFFF. split; [done|]. left. split; [done|]. lia.
Qed.

End Facts.
