(* ===== verification/PbufWrite.v ===== *)
(** * Packet buffers: writing into the payload of a chain

    pbuf_put_at, pbuf_take, pbuf_take_at and pbuf_copy change the bytes of a
    chain and nothing else of the heap. *)
From S2P Require Import Prelude Pbuf PbufFacts.

(** The blocks the payloads of a chain live in. *)
Definition blk_of (b : pbuf) : option positive := p_blk <$> payload b.
Definition blks (l : list (positive * pbuf)) : list positive :=
  omap (fun ib => blk_of ib.2) l.
Arguments blks : simpl never.

(** [h'] differs from [h] in the contents of the blocks [bl] only. *)
Record writes (bl : list positive) (h h' : heap) : Prop := {
  writes_pbufs : h_pbufs h' = h_pbufs h;
  writes_next : h_next h' = h_next h;
  writes_pool : h_pool h' = h_pool h;
  writes_ref : h_ref h' = h_ref h;
  writes_len blk : length <$> h_mem h' !! blk = length <$> h_mem h !! blk;
  writes_frame blk : blk ∉ bl -> h_mem h' !! blk = h_mem h !! blk;
}.

#[export] Instance writes_refl bl : Reflexive (writes bl).
Proof. by split. Qed.
#[export] Instance writes_trans bl : Transitive (writes bl).
Proof.
  intros h1 h2 h3 [] []. split; try congruence.
  intros. rewrite writes_frame1; auto.
Qed.

Lemma writes_mono bl bl' h h' : bl ⊆ bl' -> writes bl h h' -> writes bl' h h'.
Proof. intros ? []. split; auto. Qed.

Lemma writes_chain bl h h' p l : writes bl h h' -> chain h p l -> chain h' p l.
Proof.
  intros [] H. eapply chain_ext; [|done]. intros i b Hin.
  rewrite writes_pbufs0. by eapply chain_lookup.
Qed.

Lemma writes_payload_ok bl h h' b : writes bl h h' -> payload_ok h b -> payload_ok h' b.
Proof.
  intros [] [?|(blk & o & bs & E1 & E2 & ? & ?)]; [by left|right].
  specialize (writes_len0 blk). rewrite E2 in writes_len0.
  destruct (h_mem h' !! blk) as [bs'|] eqn:E; simplify_eq/=.
  exists blk, o, bs'. split_and!; auto. lia.
Qed.

Lemma writes_packet bl h h' p l : writes bl h h' -> packet h p l -> packet h' p l.
Proof.
  intros W [Hc Ht Hs Hm]. split; [by eapply writes_chain|done|done|].
  eapply Forall_impl; [exact Hm|]. intros [i b]. by eapply writes_payload_ok.
Qed.

Lemma writes_fuel bl h h' : writes bl h h' -> chain_fuel h' = chain_fuel h.
Proof. intros []. unfold chain_fuel. by rewrite writes_pbufs0. Qed.

Lemma writes_pdata bl h h' b :
  writes bl h h' -> (forall k, blk_of b = Some k -> k ∉ bl) -> pdata h' b = pdata h b.
Proof.
  intros [] H. unfold pdata. unfold blk_of in H. destruct (payload b) as [[blk o]|]; [|done].
  rewrite writes_frame0; [done|]. by apply H.
Qed.

Lemma elem_of_blks l k : k ∈ blks l <-> exists i b, (i, b) ∈ l /\ blk_of b = Some k.
Proof.
  unfold blks. rewrite list_elem_of_omap. split.
  - intros ([i b] & ? & ?). eauto.
  - intros (i & b & ? & ?). by exists (i, b).
Qed.

Lemma writes_chain_data bl h h' l :
  writes bl h h' -> (forall k, k ∈ blks l -> k ∉ bl) -> chain_data h' l = chain_data h l.
Proof.
  intros W H. induction l as [|[i b] l IH]; [done|].
  rewrite !chain_data_cons. f_equal.
  - apply (writes_pdata _ _ _ _ W). intros k Hk. apply H, elem_of_blks.
    exists i, b. split; [by left|done].
  - apply IH. intros k (j & c & ? & ?)%elem_of_blks. apply H, elem_of_blks.
    exists j, c. split; [by right|done].
Qed.

Lemma blks_cons_Some i b l k : blk_of b = Some k -> blks ((i, b) :: l) = k :: blks l.
Proof. intros H. unfold blks. simpl. by rewrite H. Qed.
Lemma blks_cons_None i b l : blk_of b = None -> blks ((i, b) :: l) = blks l.
Proof. intros H. unfold blks. simpl. by rewrite H. Qed.

Lemma blks_cons_NoDup i b l :
  NoDup (blks ((i, b) :: l)) ->
  NoDup (blks l) /\ (forall k, blk_of b = Some k -> k ∉ blks l).
Proof.
  destruct (blk_of b) as [k|] eqn:Eb.
  - rewrite (blks_cons_Some _ _ _ _ Eb). intros [? ?]%NoDup_cons. split; [done|].
    by intros k' [= <-].
  - rewrite (blks_cons_None _ _ _ Eb). done.
Qed.

Lemma blks_app l1 l2 : blks (l1 ++ l2) = blks l1 ++ blks l2.
Proof. apply omap_app. Qed.

(** ** One store *)

Lemma store_run h b i v :
  payload_ok h b -> 0 <= i -> i + lenZ v <= len b ->
  exists h', store (payload b) i v h = Some (tt, h') /\
    writes (option_list (blk_of b)) h h' /\
    pdata h' b = overwrite (pdata h b) i v /\
    (bytes_ok v -> mem_ok h -> mem_ok h').
Proof.
  intros Hok Hi Hv. unfold store.
  destruct (Z.eqb_spec (lenZ v) 0) as [Hz|Hz].
  { destruct v; [|done]. exists h. rewrite overwrite_nil. done. }
  destruct Hok as [?|(blk & o & bs & E1 & E2 & ? & ?)]; [lia|].
  rewrite E1, E2. rewrite (proj2 (Z.leb_le 0 _)), (proj2 (Z.leb_le (o + i + lenZ v) _)) by lia.
  simpl. eexists. split; [done|]. split_and!.
  - split; simpl; try done.
    + intros k. rewrite lookup_insert. case_decide; [subst|done].
      rewrite E2. simpl. f_equal. apply length_overwrite; lia.
    + intros k Hk. rewrite lookup_insert_ne; [done|]. intros ->. apply Hk.
      unfold blk_of. rewrite E1. by left.
  - unfold pdata. rewrite E1, E2. simpl. rewrite lookup_insert_eq. simpl.
    unfold slice, overwrite.
    rewrite drop_app_le by (rewrite length_take; lia).
    rewrite skipn_firstn_comm. rewrite take_app_ge by (rewrite length_take, length_drop; lia).
    rewrite !take_take. f_equal; [f_equal; lia|].
    rewrite take_app_ge by (rewrite length_take, length_drop; lia). f_equal.
    rewrite skipn_firstn_comm, !drop_drop. f_equal; [|f_equal; lia].
    rewrite length_take, length_drop. lia.
  - intros ? Hm k bs'. simpl. rewrite lookup_insert_Some.
    intros [[<- <-]|[? ?]]; [|by eapply Hm]. apply bytes_ok_overwrite; [|done].
    by apply (Hm _ _ E2).
Qed.

Section Writes.
Context {E : PbufEnv}.

(** ** pbuf_put_at *)

Lemma pbuf_put_at_run h p l off v :
  packet h p l -> NoDup (blks l) -> 0 <= off < 65536 ->
  exists h', pbuf_put_at p off v h = Some (tt, h') /\ writes (blks l) h h' /\
    chain_data h' l = <[Z.to_nat off := v]> (chain_data h l).
Proof.
  intros Hp Hnd Ho. unfold pbuf_put_at.
  destruct (pbuf_skip_run h p l off Hp Ho) as (l1 & l2 & q & o & -> & Hq & Hrun & -> & ? & Hlt).
  mrun Hrun. pose proof (length_chain_data _ _ _ Hp) as Ha. rewrite sum_len_app in Ha.
  destruct l2 as [|[i b] l2].
  - destruct Hq as [Hc]; inversion Hc; subst. exists h. split_and!; [done..|].
    rewrite list_insert_ge; [done|]. simpl in Ha. lia.
  - pose proof (length_chain_data _ _ _ Hq) as Hb.
    pose proof (packet_cons_inv _ _ _ _ _ Hq) as (-> & Hi & Hr & ? & ? & Hok & ? & ?).
    pose proof (length_pdata h b ltac:(lia) Hok) as Hlen.
    mrun (get_pbuf_run _ _ _ Hi). rewrite (proj2 (Z.ltb_lt _ _) Hlt).
    destruct (store_run h b o [v] Hok ltac:(lia) ltac:(simpl; lia)) as (h' & Hs & W & Hd & _).
    exists h'. split; [done|].
    assert (forall k, blk_of b = Some k -> k ∉ blks l1 /\ k ∉ blks l2) as Hfr.
    { intros k Hk. rewrite blks_app, (blks_cons_Some _ _ _ _ Hk) in Hnd.
      apply NoDup_app in Hnd as (? & Hdis & [? ?]%NoDup_cons). split; [|done].
      intros Hin. apply (Hdis k Hin). by left. }
    assert (forall k, k ∈ option_list (blk_of b) -> blk_of b = Some k) as Hol.
    { destruct (blk_of b); simpl; [by intros ? ->%list_elem_of_singleton|by intros ? ?%not_elem_of_nil]. }
    split.
    { eapply writes_mono; [|done]. intros k Hk%Hol. rewrite blks_app, (blks_cons_Some _ _ _ _ Hk).
      set_solver. }
    rewrite !chain_data_app, !chain_data_cons, Hd.
    rewrite (writes_chain_data _ _ _ l1 W), (writes_chain_data _ _ _ l2 W)
      by (intros k ? ?%Hol; naive_solver).
    rewrite overwrite_single by lia.
    rewrite chain_data_app, chain_data_cons, !length_app in *.
    replace (Z.to_nat (sum_len l1 + o)) with (length (chain_data h l1) + Z.to_nat o)%nat by lia.
    rewrite insert_app_r, insert_app_l by lia. done.
Qed.

(** ** pbuf_take *)

Lemma load_arg_run h data i n :
  0 <= i -> 0 <= n -> i + n <= lenZ data -> load_arg data i n h = Some (slice data i n, h).
Proof.
  intros. unfold load_arg.
  by rewrite (proj2 (Z.leb_le 0 i)), (proj2 (Z.leb_le 0 n)), (proj2 (Z.leb_le (i + n) _)) by lia.
Qed.

Lemma pbuf_take_loop_run h fuel p l data n c :
  packet h p l -> NoDup (blks l) -> (length l <= fuel)%nat ->
  0 <= n -> n <= sum_len l -> 0 <= c -> c + n <= lenZ data -> c + n < 65536 ->
  exists h', pbuf_take_loop fuel p data n c h = Some (ERR_OK, h') /\ writes (blks l) h h' /\
    chain_data h' l = overwrite (chain_data h l) 0 (slice data c n) /\
    (bytes_ok data -> mem_ok h -> mem_ok h').
Proof.
  revert h p l n c. induction fuel as [|fuel IH]; intros h p l n c Hp Hnd Hf Hn Hns Hc Hcn Hcs;
    simpl; destruct (Z.eqb_spec n 0) as [->|Hn0];
    try (exists h; rewrite slice_0_0, overwrite_nil; done).
  { destruct l; simpl in *; lia. }
  destruct l as [|[i b] r]; [simpl in Hns; lia|].
  pose proof (packet_cons_inv _ _ _ _ _ Hp) as (-> & Hi & Hr & ? & ? & Hok & ? & ?).
  apply blks_cons_NoDup in Hnd as [Hnd Hb]. rewrite sum_len_cons in Hns. simpl in Hf.
  mrun (deref_run _ _ _ Hi).
  set (m := if len b <? n then len b else n).
  assert (m = Z.min (len b) n) as Hm by (unfold m; case_if; lia).
  mrun (load_arg_run h data c m ltac:(lia) ltac:(lia) ltac:(lia)).
  pose proof (length_slice data c m ltac:(lia) ltac:(lia) ltac:(lia)) as Hsl.
  pose proof (length_pdata h b ltac:(lia) Hok) as Hlen.
  destruct (store_run h b 0 (slice data c m) Hok ltac:(lia) ltac:(lia)) as (h1 & Hs & W & Hd & Hm1).
  mrun Hs. rewrite !u32_small by lia.
  destruct (IH h1 (next b) r (n - m) (c + m)) as (h2 & Hrun & W2 & Hd2 & Hm2);
    [by eapply writes_packet|done|lia|lia|lia|lia|lia|lia|].
  exists h2. split; [done|].
  assert (option_list (blk_of b) ⊆ blks ((i, b) :: r)) as Hsub.
  { destruct (blk_of b) as [k|] eqn:Ek; simpl; [|set_solver].
    rewrite (blks_cons_Some _ _ _ _ Ek). set_solver. }
  assert (blks r ⊆ blks ((i, b) :: r)) as Hsub2.
  { destruct (blk_of b) as [k|] eqn:Ek;
      [rewrite (blks_cons_Some _ _ _ _ Ek)|rewrite (blks_cons_None _ _ _ Ek)]; set_solver. }
  split_and!.
  - transitivity h1; (eapply writes_mono; [|eassumption]); done.
  - rewrite !chain_data_cons, Hd2.
    rewrite (writes_pdata _ _ _ b W2) by done. rewrite Hd.
    rewrite (writes_chain_data _ _ _ r W).
    2:{ intros k Hk Hk2. destruct (blk_of b) as [k'|] eqn:Ek; simpl in Hk2; [|set_solver].
        apply list_elem_of_singleton in Hk2 as ->. by apply (Hb k'). }
    assert (n = m + (n - m)) as Hsplit by lia.
    destruct (Z.le_gt_cases (len b) n).
    + rewrite Hsplit at 2. rewrite (slice_app data c m (n - m)) by lia.
      by rewrite overwrite_app_split by lia.
    + replace (n - m) with 0 by lia. rewrite slice_0_0, overwrite_nil.
      replace m with n by lia. rewrite overwrite_app_l; [done|lia|].
      replace n with m by lia. lia.
  - eauto 10 using bytes_ok_slice.
Qed.

Lemma pbuf_take_run h i l data n :
  packet h (Some i) l -> NoDup (blks l) -> 0 <= n -> n <= sum_len l -> n <= lenZ data ->
  exists h', pbuf_take (Some i) (Some data) n h = Some (ERR_OK, h') /\ writes (blks l) h h' /\
    chain_data h' l = overwrite (chain_data h l) 0 (slice data 0 n) /\
    (bytes_ok data -> mem_ok h -> mem_ok h').
Proof.
  intros Hp Hnd Hn Hns Hnd2. unfold pbuf_take.
  destruct (packet_Some_inv _ _ _ Hp) as (b & r & ->).
  pose proof (packet_cons_inv _ _ _ _ _ Hp) as (_ & Hi & Hr & ? & Ht & Hok & ? & ?).
  mrun (get_pbuf_run _ _ _ Hi). rewrite sum_len_cons in Hns.
  rewrite (proj2 (Z.ltb_ge (tot_len b) n)) by lia. rewrite bind_get.
  apply pbuf_take_loop_run; auto; try lia.
  by apply Nat.lt_le_incl, (packet_fuel _ _ _ Hp).
Qed.

(** ** pbuf_copy *)

Lemma all_pos_sum l : all_pos l -> l <> [] -> 0 < sum_len l.
Proof.
  intros H Hn. destruct H as [|[i b] l Hb H]; [done|]. rewrite sum_len_cons. simpl in Hb.
  assert (0 <= sum_len l); [|lia]. clear Hn.
  induction H as [|[j c] r ? ? IH]; [done|]. rewrite sum_len_cons. simpl in *. lia.
Qed.

Lemma is_queue_run h p l : packet h p l -> all_pos l -> is_queue p h = Some (false, h).
Proof.
  intros Hp Hpos. destruct p as [i|]; [|done].
  destruct (packet_Some_inv _ _ _ Hp) as (b & r & ->).
  pose proof (packet_cons_inv _ _ _ _ _ Hp) as (_ & Hi & Hr & ? & Ht & ? & ? & ?).
  simpl. mrun (get_pbuf_run _ _ _ Hi). unfold mret, M_ret. do 2 f_equal.
  apply andb_false_iff. apply Forall_cons in Hpos as [_ Hpos].
  destruct r as [|x r].
  - right. destruct (next b) eqn:En; [|done]. by apply packet_Some_inv in Hr as (?&?&?).
  - left. apply Z.eqb_neq. pose proof (all_pos_sum (x :: r) Hpos ltac:(done)). lia.
Qed.

Lemma packet_next_None h i b r : packet h (Some i) ((i, b) :: r) -> (next b = None <-> r = []).
Proof.
  intros Hp. pose proof (packet_cons_inv _ _ _ _ _ Hp) as (_ & _ & Hr & _). split.
  - intros Hn. rewrite Hn in Hr. by eapply packet_None.
  - intros ->. destruct (next b); [|done]. by apply packet_Some_inv in Hr as (?&?&?).
Qed.

(** One store into the head of a chain, seen from the chain's bytes. *)
Lemma store_head h i b r o v :
  packet h (Some i) ((i, b) :: r) -> NoDup (blks ((i, b) :: r)) ->
  0 <= o -> o + lenZ v <= len b ->
  exists h', store (payload b) o v h = Some (tt, h') /\
    writes (blks ((i, b) :: r)) h h' /\ writes (option_list (blk_of b)) h h' /\
    pdata h' b = overwrite (pdata h b) o v /\
    chain_data h' r = chain_data h r /\
    chain_data h' ((i, b) :: r) = overwrite (chain_data h ((i, b) :: r)) o v.
Proof.
  intros Hp Hnd Ho Hv.
  pose proof (packet_cons_inv _ _ _ _ _ Hp) as (_ & Hi & Hr & ? & Ht & Hok & ? & ?).
  pose proof (length_pdata h b ltac:(lia) Hok) as Hlen.
  apply blks_cons_NoDup in Hnd as [Hnd Hb].
  destruct (store_run h b o v Hok Ho Hv) as (h' & Hs & W & Hd & _).
  assert (chain_data h' r = chain_data h r) as Hr'.
  { apply (writes_chain_data _ _ _ r W). intros k Hk Hk2.
    destruct (blk_of b) as [k'|] eqn:Ek; simpl in Hk2; [|set_solver].
    apply list_elem_of_singleton in Hk2 as ->. by apply (Hb k'). }
  exists h'. split_and!; try done.
  - eapply writes_mono; [|exact W]. destruct (blk_of b) as [k|] eqn:Ek; [|set_solver].
    rewrite (blks_cons_Some _ _ _ _ Ek). set_solver.
  - rewrite !chain_data_cons, Hd, Hr'. by rewrite overwrite_app_l by lia.
Qed.

Lemma pbuf_copy_loop_run h fuel lt lf it jf ot of_ :
  packet h (Some it) lt -> packet h (Some jf) lf -> all_pos lt -> all_pos lf ->
  NoDup (blks lt) -> (forall k, k ∈ blks lf -> k ∉ blks lt) ->
  (length lt + length lf <= fuel)%nat ->
  0 <= ot -> 0 <= of_ ->
  match lt with (_, b) :: _ => ot < len b | [] => True end ->
  match lf with (_, b) :: _ => of_ < len b | [] => True end ->
  sum_len lf - of_ <= sum_len lt - ot ->
  exists h', pbuf_copy_loop fuel (Some it) (Some jf) ot of_ h = Some (ERR_OK, h') /\
    writes (blks lt) h h' /\
    chain_data h' lt = overwrite (chain_data h lt) ot (drop (Z.to_nat of_) (chain_data h lf)).
Proof.
  revert h lt lf it jf ot of_.
  induction fuel as [|fuel IH]; intros h lt lf it jf ot of_ Hpt Hpf Hpost Hposf Hnd Hdis Hfuel Hot Hof Hlt Hlf Hsum.
  { destruct (packet_Some_inv _ _ _ Hpt) as (?&?&->). simpl in Hfuel. lia. }
  destruct (packet_Some_inv _ _ _ Hpt) as (bt & rt & ->).
  destruct (packet_Some_inv _ _ _ Hpf) as (bf & rf & ->).
  pose proof (packet_cons_inv _ _ _ _ _ Hpt) as (_ & Hit & Hrt & ? & Htt & Hokt & ? & ?).
  pose proof (packet_cons_inv _ _ _ _ _ Hpf) as (_ & Hjf & Hrf & ? & Htf & Hokf & ? & ?).
  pose proof (length_pdata h bt ltac:(lia) Hokt) as Hlent.
  pose proof (length_pdata h bf ltac:(lia) Hokf) as Hlenf.
  pose proof (proj2 (proj1 (Forall_cons _ _ _) Hpost)) as Hpost'.
  pose proof (proj2 (proj1 (Forall_cons _ _ _) Hposf)) as Hposf'.
  pose proof (all_pos_sum rt Hpost') as Hsrt. pose proof (all_pos_sum rf Hposf') as Hsrf.
  rewrite !sum_len_cons in Hsum. simpl in Hfuel.
  cbn [pbuf_copy_loop]. mrun (deref_run _ _ _ Hit). mrun (deref_run _ _ _ Hjf).
  rewrite (u32_small (len bf - of_)), (u32_small (len bt - ot)) by lia.
  set (m := if len bf - of_ <=? len bt - ot then len bf - of_ else len bt - ot).
  assert (m = Z.min (len bf - of_) (len bt - ot)) as Hm by (unfold m; case_if; lia).
  mrun (load_pdata h bf of_ m Hokf ltac:(lia) ltac:(lia) ltac:(lia)).
  pose proof (length_slice (pdata h bf) of_ m ltac:(lia) ltac:(lia) ltac:(lia)) as Hsl.
  destruct (store_head h it bt rt ot (slice (pdata h bf) of_ m) Hpt Hnd ltac:(lia) ltac:(lia))
    as (h1 & Hs & W & W1 & Hd & Hrt' & Hct).
  mrun Hs. rewrite (u32_small (ot + m)), (u32_small (of_ + m)) by lia.
  assert (chain_data h1 ((jf, bf) :: rf) = chain_data h ((jf, bf) :: rf)) as Hcf
    by exact (writes_chain_data _ _ _ _ W Hdis).
  assert (drop (Z.to_nat of_) (chain_data h ((jf, bf) :: rf)) =
    slice (pdata h bf) of_ m ++ drop (Z.to_nat (of_ + m)) (chain_data h ((jf, bf) :: rf))) as Hdrop.
  { rewrite (drop_slice _ of_ m) by lia. f_equal. rewrite chain_data_cons.
    unfold slice. rewrite drop_app_le by lia. rewrite take_app_le; [done|].
    rewrite length_drop. lia. }
  rewrite Hdrop. set (rest := drop (Z.to_nat (of_ + m)) (chain_data h ((jf, bf) :: rf))) in *.
  pose proof (writes_packet _ _ _ _ _ W Hpt) as Hpt1.
  pose proof (writes_packet _ _ _ _ _ W Hpf) as Hpf1.
  pose proof (packet_cons_inv _ _ _ _ _ Hpt1) as (_ & _ & Hrt1 & _).
  pose proof (packet_cons_inv _ _ _ _ _ Hpf1) as (_ & _ & Hrf1 & _).
  pose proof (packet_next_None _ _ _ _ Hpt) as Hnt. pose proof (packet_next_None _ _ _ _ Hpf) as Hnf.
  pose proof (length_chain_data _ _ _ Hpf) as Hlf2. rewrite sum_len_cons in Hlf2.
  assert (lenZ rest = len bf + sum_len rf - of_ - m) as Hrest.
  { unfold rest. rewrite length_drop. lia. }
  pose proof (length_chain_data _ _ _ Hpt) as Hlt2. rewrite sum_len_cons in Hlt2.
  apply blks_cons_NoDup in Hnd as Hnd'. destruct Hnd' as [Hndr Hbt].
  assert (blks rt ⊆ blks ((it, bt) :: rt)) as Hsubt.
  { destruct (blk_of bt) eqn:Ek; [rewrite (blks_cons_Some _ _ _ _ Ek)|rewrite (blks_cons_None _ _ _ Ek)]; set_solver. }
  assert (blks rf ⊆ blks ((jf, bf) :: rf)) as Hsubf.
  { destruct (blk_of bf) eqn:Ek; [rewrite (blks_cons_Some _ _ _ _ Ek)|rewrite (blks_cons_None _ _ _ Ek)]; set_solver. }
  destruct (len bf <=? of_ + m) eqn:Ef; destruct (ot + m =? len bt) eqn:Et; b2p; cbn [andb].
  all: try (exfalso; lia).
  all: try rewrite (bool_decide_eq_false_2 (Some it = None)) by done.
  all: try rewrite (bool_decide_eq_false_2 (Some jf = None)) by done.
  all: cbn [negb andb].
  - (* both advance *)
    assert (rest = chain_data h rf) as Hrf2.
    { unfold rest. rewrite chain_data_cons, drop_app_ge by lia.
      replace (Z.to_nat (of_ + m) - length (pdata h bf))%nat with 0%nat by lia. by rewrite drop_0. }
    assert ((bool_decide (next bt = None) && negb (bool_decide (next bf = None)))%bool = false) as ->.
    { apply andb_false_iff. destruct rt; [right|left].
      - rewrite bool_decide_eq_true_2; [done|]. apply Hnf. destruct rf; [done|].
        specialize (Hsrf ltac:(done)). simpl in *. lia.
      - apply bool_decide_eq_false_2. intros ?%Hnt. done. }
    mrun (is_queue_run _ _ _ Hrf1 Hposf'). mrun (is_queue_run _ _ _ Hrt1 Hpost').
    destruct (next bf) as [jf'|] eqn:Enf.
    + assert (rf <> []) as Hrfn by (intros ?%Hnf; done).
      specialize (Hsrf Hrfn).
      destruct (next bt) as [it'|] eqn:Ent; [|assert (rt = []) as -> by (by apply Hnt); simpl in *; lia].
      destruct (IH h1 rt rf it' jf' 0 0) as (h2 & Hrun & W2 & Hd2); try done; try lia.
      { set_solver. }
      { destruct (packet_Some_inv _ _ _ Hrt1) as (?&?&->).
        by apply Forall_cons in Hpost' as [? _]. }
      { destruct (packet_Some_inv _ _ _ Hrf1) as (?&?&->).
        by apply Forall_cons in Hposf' as [? _]. }
      exists h2. split; [done|]. split.
      { transitivity h1; [done|]. by eapply writes_mono. }
      rewrite !chain_data_cons, Hd2. rewrite (writes_pdata _ _ _ _ W2) by done.
      rewrite Hd, Hrt', overwrite_app_split by lia. do 2 f_equal.
      rewrite drop_0, Hrf2. apply (writes_chain_data _ _ _ _ W). set_solver.
    + exists h1. split; [done|]. split; [done|].
      assert (rf = []) as -> by (by apply Hnf). rewrite Hct.
      rewrite Hrf2. by rewrite app_nil_r.
  - (* the source pbuf ends first *)
    assert (rest = chain_data h rf) as Hrf2.
    { unfold rest. rewrite chain_data_cons, drop_app_ge by lia.
      replace (Z.to_nat (of_ + m) - length (pdata h bf))%nat with 0%nat by lia. by rewrite drop_0. }
    mrun (is_queue_run _ _ _ Hrf1 Hposf'). mrun (is_queue_run _ _ _ Hpt1 Hpost).
    destruct (next bf) as [jf'|] eqn:Enf.
    + destruct (IH h1 ((it, bt) :: rt) rf it jf' (ot + m) 0) as (h2 & Hrun & W2 & Hd2);
        try done; try (simpl in *; lia).
      { set_solver. }
      { destruct (packet_Some_inv _ _ _ Hrf1) as (?&?&->).
        by apply Forall_cons in Hposf' as [? _]. }
      exists h2. split; [done|]. split; [by transitivity h1|].
      rewrite Hd2, Hct, drop_0, Hrf2.
      rewrite (writes_chain_data _ _ _ rf W) by set_solver.
      rewrite <- overwrite_overwrite; [by rewrite Hsl|lia|]. rewrite <- Hrf2. lia.
    + exists h1. split; [done|]. split; [done|].
      assert (rf = []) as -> by (by apply Hnf). rewrite Hct.
      rewrite Hrf2. by rewrite app_nil_r.
  - (* the target pbuf is full first *)
    rewrite andb_true_r.
    assert (rt <> []) as Hrtn.
    { intros ->. simpl in *. specialize (Hsrf). destruct rf; simpl in *; [lia|].
      specialize (Hsrf ltac:(done)). lia. }
    rewrite bool_decide_eq_false_2 by (intros ?%Hnt; done).
    mrun (is_queue_run _ _ _ Hpf1 Hposf). mrun (is_queue_run _ _ _ Hrt1 Hpost').
    destruct (next bt) as [it'|] eqn:Ent; [|by destruct Hrtn; apply Hnt].
    destruct (IH h1 rt ((jf, bf) :: rf) it' jf 0 (of_ + m)) as (h2 & Hrun & W2 & Hd2);
      try done; try (simpl in *; lia).
    { set_solver. }
    { destruct (packet_Some_inv _ _ _ Hrt1) as (?&?&->).
      by apply Forall_cons in Hpost' as [? _]. }
    exists h2. split; [done|]. split.
    { transitivity h1; [done|]. by eapply writes_mono. }
    rewrite !chain_data_cons, Hd2. rewrite (writes_pdata _ _ _ _ W2) by done.
    rewrite Hd, Hrt', overwrite_app_split by lia. do 2 f_equal.
    rewrite Hcf. done.
Qed.

End Writes.
