(* ===== verification/PbufAlloc.v ===== *)
(** * Packet buffers: allocation and reference counting *)
From S2P Require Import Prelude Pbuf PbufFacts PbufWrite.

(** Blocks from [h_next] on have never been allocated. *)
Definition heap_wf (h : heap) : Prop :=
  forall i, (h_next h <= i)%positive -> h_pbufs h !! i = None /\ h_mem h !! i = None.

(** A pbuf pbuf_free can give back by itself: not custom, and from one of the
    three standard sources. *)
Definition plain (b : pbuf) : Prop :=
  Z.land (flags b) PBUF_FLAG_IS_CUSTOM = 0 /\ 0 <= pbuf_get_allocsrc b <= 2.

(** What freeing the pbuf [(i, b)] does to the heap. *)
Definition release (h : heap) (ib : positive * pbuf) : heap :=
  Heap (delete ib.1 (h_pbufs h)) (delete ib.1 (h_mem h)) (h_next h)
    (h_pool h + bool_to_Z (pbuf_get_allocsrc ib.2 =? 2))
    (h_ref h + bool_to_Z (pbuf_get_allocsrc ib.2 =? 1))
    (h_ooseq_pending h) (h_callbacks h).
Definition release_all (l : list (positive * pbuf)) (h : heap) : heap := foldl release h l.

(** Dropping one reference of the head of a chain that stays. *)
Definition unref (l : list (positive * pbuf)) (h : heap) : heap :=
  match l with
  | (i, b) :: _ => set_pbufs (<[i := set_ref (u8 (ref b - 1)) b]> (h_pbufs h)) h
  | [] => h
  end.

Definition last_ref (h : heap) (ib : positive * pbuf) : Prop :=
  ref ib.2 = 1 /\ plain ib.2 /\ is_Some (h_mem h !! ib.1).

Lemma release_all_pbufs l h :
  h_pbufs (release_all l h) = foldl (fun m ib => delete ib.1 m) (h_pbufs h) l.
Proof. revert h. induction l as [|ib l IH]; intros h; [done|]. exact (IH (release h ib)). Qed.
Lemma release_all_mem l h :
  h_mem (release_all l h) = foldl (fun m ib => delete ib.1 m) (h_mem h) l.
Proof. revert h. induction l as [|ib l IH]; intros h; [done|]. exact (IH (release h ib)). Qed.

Lemma lookup_delete_all {A} (m : gmap positive A) (l : list (positive * pbuf)) j :
  foldl (fun m ib => delete ib.1 m) m l !! j = if decide (j ∈ l.*1) then None else m !! j.
Proof.
  revert m. induction l as [|[i b] l IH]; intros m; csimpl.
  { done. }
  rewrite IH, lookup_delete. repeat case_decide; set_solver.
Qed.

Lemma release_all_other l h j :
  j ∉ l.*1 -> h_pbufs (release_all l h) !! j = h_pbufs h !! j /\
              h_mem (release_all l h) !! j = h_mem h !! j.
Proof.
  intros. rewrite release_all_pbufs, release_all_mem, !lookup_delete_all.
  by rewrite !decide_False.
Qed.

Lemma release_all_gone l h j :
  j ∈ l.*1 -> h_pbufs (release_all l h) !! j = None /\ h_mem (release_all l h) !! j = None.
Proof.
  intros. rewrite release_all_pbufs, release_all_mem, !lookup_delete_all.
  by rewrite !decide_True.
Qed.

Lemma release_all_next l h : h_next (release_all l h) = h_next h.
Proof. revert h. induction l as [|ib l IH]; intros h; [done|]. exact (IH (release h ib)). Qed.

Section Alloc.
Context {E : PbufEnv}.

(** ** pbuf_free *)

Lemma drop_block_run h i pool rf :
  is_Some (h_mem h !! i) ->
  drop_block i pool rf h = Some (tt, Heap (delete i (h_pbufs h)) (delete i (h_mem h))
    (h_next h) (h_pool h + pool) (h_ref h + rf) (h_ooseq_pending h) (h_callbacks h)).
Proof. intros [bs H]. unfold drop_block. by rewrite H. Qed.

Lemma pbuf_free_loop_step h i b fuel c :
  h_pbufs h !! i = Some b -> last_ref h (i, b) ->
  pbuf_free_loop (S fuel) (Some i) c h =
    pbuf_free_loop fuel (next b) (u8 (c + 1)) (release h (i, b)).
Proof.
  intros Hi (Hr & [Hfl Hsrc] & Hm). simpl in Hr, Hfl, Hsrc, Hm.
  cbn [pbuf_free_loop]. mrun (get_pbuf_run _ _ _ Hi). rewrite Hr.
  mrun (upd_pbuf_run _ _ _ (set_ref (u8 (1 - 1))) Hi). simpl (u8 (1 - 1) =? 0).
  rewrite Hfl. simpl (negb _). cbv iota.
  unfold PBUF_TYPE_ALLOC_SRC_MASK_STD_MEMP_PBUF_POOL, PBUF_TYPE_ALLOC_SRC_MASK_STD_MEMP_PBUF,
    PBUF_TYPE_ALLOC_SRC_MASK_STD_HEAP, memp_free_pool, memp_free_ref, mem_free, release. simpl.
  unfold mbind at 1, M_bind at 1.
  assert (pbuf_get_allocsrc b = 0 \/ pbuf_get_allocsrc b = 1 \/ pbuf_get_allocsrc b = 2)
    as [Es|[Es|Es]] by lia; rewrite Es; simpl; rewrite drop_block_run by done; simpl;
    by rewrite delete_insert_eq.
Qed.

Lemma pbuf_free_loop_run h fuel p l1 l2 c :
  chain h p (l1 ++ l2) -> Forall (last_ref h) l1 ->
  match l2 with (_, b) :: _ => u8 (ref b - 1) <> 0 | [] => True end ->
  (length l1 < fuel)%nat -> 0 <= c < 256 ->
  pbuf_free_loop fuel p c h =
    Some (u8 (c + lenZ l1), unref l2 (release_all l1 h)).
Proof.
  revert h p c fuel. induction l1 as [|[i b] l1 IH]; intros h p c fuel Hc Hl Hl2 Hf Hcb.
  - simpl in *. rewrite Z.add_0_r, u8_small by done. destruct l2 as [|[i b] l2].
    + apply (fun H => H) in Hc. inversion Hc; subst. by destruct fuel.
    + apply chain_inv' in Hc as (-> & Hi & _). destruct fuel as [|fuel]; [lia|].
      cbn [pbuf_free_loop]. mrun (get_pbuf_run _ _ _ Hi).
      mrun (upd_pbuf_run _ _ _ (set_ref (u8 (ref b - 1))) Hi).
      rewrite (proj2 (Z.eqb_neq _ 0) Hl2). by destruct fuel.
  - simpl in Hc. pose proof (chain_NoDup _ _ _ Hc) as Hnd.
    apply chain_inv' in Hc as (-> & Hi & Hc).
    destruct fuel as [|fuel]; [simpl in Hf; lia|].
    apply Forall_cons in Hl as [Hib Hl].
    rewrite (pbuf_free_loop_step _ _ b) by done.
    csimpl in Hnd. apply NoDup_cons in Hnd as [Hni Hnd].
    rewrite IH with (c := u8 (c + 1)); [| |clear IH|done|simpl in Hf; lia|apply u8_bound].
    + do 2 f_equal. rewrite length_cons. ulia.
    + eapply chain_ext; [|exact Hc]. intros j b' Hin. simpl.
      rewrite lookup_delete_ne; [by eapply chain_lookup|]. intros ->. apply Hni.
      apply list_elem_of_fmap. by exists (j, b').
    + rewrite fmap_app in Hni. apply Forall_forall. intros [j b'] Hin.
      rewrite Forall_forall in Hl. destruct (Hl _ Hin) as (? & ? & Hm).
      split_and!; try done. simpl. rewrite lookup_delete_ne; [done|]. intros ->.
      apply Hni, elem_of_app. left. apply list_elem_of_fmap. by exists (j, b').
Qed.

(** pbuf_free drops the longest prefix of the chain that nobody else refers to,
    takes one reference off the pbuf after it, and returns the prefix's length
    in a u8_t. *)
Lemma pbuf_free_run h i l1 l2 :
  chain h (Some i) (l1 ++ l2) -> Forall (last_ref h) l1 ->
  match l2 with (_, b) :: _ => u8 (ref b - 1) <> 0 | [] => True end ->
  pbuf_free (Some i) h = Some (u8 (lenZ l1), unref l2 (release_all l1 h)).
Proof.
  intros Hc Hl Hl2. unfold pbuf_free. rewrite bind_get.
  rewrite (pbuf_free_loop_run _ _ _ l1 l2 0) by
    (done || (pose proof (chain_fuel_enough _ _ _ Hc) as Hf; rewrite length_app in Hf; lia)).
  done.
Qed.

(** ** Fresh blocks *)

Lemma length_junk_block b n : 0 <= n -> lenZ (junk_block b n) = n.
Proof. intros. unfold junk_block. rewrite length_fmap, length_seq. lia. Qed.

Lemma junk_block_ok b n : bytes_ok (junk_block b n).
Proof. apply Forall_fmap, Forall_true. intros. apply junk_byte. Qed.

(** The heap after a fresh block of [n] bytes holding the pbuf [b] is taken,
    [pool] and [rf] elements off the two pools. *)
Definition with_new (h : heap) (n : Z) (b : pbuf) (pool rf : Z) : heap :=
  Heap (<[h_next h := b]> (h_pbufs h)) (<[h_next h := junk_block (h_next h) n]> (h_mem h))
    (Pos.succ (h_next h)) (h_pool h - pool) (h_ref h - rf) (h_ooseq_pending h) (h_callbacks h).

Lemma with_new_wf h n b pool rf : heap_wf h -> heap_wf (with_new h n b pool rf).
Proof.
  intros Hwf i Hi. simpl in *. rewrite !lookup_insert_ne by lia. apply Hwf. lia.
Qed.

(** [h'] has the pbufs and blocks of [h], and possibly newer ones. *)
Record extends (h h' : heap) : Prop := {
  extends_next : (h_next h <= h_next h')%positive;
  extends_pbufs i : (i < h_next h)%positive -> h_pbufs h' !! i = h_pbufs h !! i;
  extends_mem i : (i < h_next h)%positive -> h_mem h' !! i = h_mem h !! i;
}.

#[local] Instance extends_refl : Reflexive extends.
Proof. split; [lia|done|done]. Qed.
#[local] Instance extends_trans : Transitive extends.
Proof.
  intros h1 h2 h3 [] []. split; [lia|intros..].
  - rewrite extends_pbufs1; auto. lia.
  - rewrite extends_mem1; auto. lia.
Qed.

Lemma with_new_extends h n b pool rf : extends h (with_new h n b pool rf).
Proof. split; simpl; [lia|intros; by rewrite lookup_insert_ne by lia..]. Qed.

Lemma extends_chain h h' p l :
  heap_wf h -> extends h h' -> chain h p l -> chain h' p l.
Proof.
  intros Hwf [] Hc. eapply chain_ext; [|exact Hc]. intros i b Hin.
  pose proof (chain_lookup _ _ _ _ _ Hc Hin) as Hi.
  destruct (decide (i < h_next h)%positive) as [Hlt|Hge]; [|apply Pos.le_nlt in Hge].
  - by rewrite extends_pbufs0.
  - destruct (Hwf i Hge). congruence.
Qed.

Lemma extends_payload_ok h h' b :
  heap_wf h -> extends h h' -> payload_ok h b -> payload_ok h' b.
Proof.
  intros Hwf [] [?|(blk & o & bs & E1 & E2 & ? & ?)]; [by left|right].
  exists blk, o, bs. split_and!; try done.
  destruct (decide (blk < h_next h)%positive) as [Hlt|Hge]; [|apply Pos.le_nlt in Hge].
  - by rewrite extends_mem0.
  - destruct (Hwf blk Hge). congruence.
Qed.

Lemma extends_packet h h' p l :
  heap_wf h -> extends h h' -> packet h p l -> packet h' p l.
Proof.
  intros Hwf Hx [Hc Ht Hs Hm]. split; [by eapply extends_chain|done|done|].
  eapply Forall_impl; [exact Hm|]. intros [i b]. by eapply extends_payload_ok.
Qed.

Lemma extends_pdata h h' b :
  heap_wf h -> extends h h' -> payload_ok h b -> pdata h' b = pdata h b.
Proof.
  intros Hwf [] Hok. unfold pdata. destruct Hok as [Hz|(blk & o & bs & E1 & E2 & ? & ?)].
  - destruct (payload b) as [[blk o]|]; [|done]. rewrite Hz. unfold slice. by rewrite !take_0.
  - rewrite E1. destruct (decide (blk < h_next h)%positive) as [Hlt|Hge]; [|apply Pos.le_nlt in Hge].
    + by rewrite extends_mem0.
    + destruct (Hwf blk Hge). congruence.
Qed.

Lemma extends_chain_data h h' p l :
  heap_wf h -> extends h h' -> packet h p l -> chain_data h' l = chain_data h l.
Proof.
  intros Hwf Hx [_ _ _ Hm]. induction l as [|[i b] l IH]; [done|].
  apply Forall_cons in Hm as [? Hm]. rewrite !chain_data_cons, IH by done.
  f_equal. by apply extends_pdata.
Qed.

Lemma memp_malloc_pool_run h b :
  h_pool h <> 0 ->
  exists h1, memp_malloc_pool h = Some (Some (h_next h), h1) /\
    set_pbufs (<[h_next h := b]> (h_pbufs h1)) h1 =
      with_new h (SIZEOF_STRUCT_PBUF + PBUF_POOL_BUFSIZE_ALIGNED) b 1 0.
Proof.
  intros H. unfold memp_malloc_pool. rewrite (proj2 (Z.eqb_neq _ _) H).
  eexists. split; [done|]. unfold with_new, set_pbufs. simpl. by rewrite Z.sub_0_r.
Qed.

Lemma mem_malloc_run h n b :
  heap_admits (h_mem h) n = true ->
  exists h1, mem_malloc n h = Some (Some (h_next h), h1) /\
    set_pbufs (<[h_next h := b]> (h_pbufs h1)) h1 = with_new h n b 0 0.
Proof.
  intros H. unfold mem_malloc. rewrite H. eexists. split; [done|].
  unfold with_new, set_pbufs. simpl. by rewrite !Z.sub_0_r.
Qed.

Lemma pbuf_init_run h q pl tl l t f :
  pbuf_init_alloced_pbuf q pl tl l t f h =
    Some (tt, set_pbufs (<[q := Pbuf None pl tl l (u8 t) f 1 0 None]> (h_pbufs h)) h).
Proof. done. Qed.

(** ** pbuf_alloc: PBUF_RAM *)

(** LWIP_MEM_ALIGN_SIZE rounds up to the next multiple of 64. *)
Lemma LWIP_MEM_ALIGN_SIZE_eq n : LWIP_MEM_ALIGN_SIZE n = (n + 63) / 64 * 64.
Proof.
  unfold LWIP_MEM_ALIGN_SIZE, MEM_ALIGNMENT.
  replace (n + 64 - 1) with (n + 63) by lia. change (64 - 1) with (Z.ones 6).
  rewrite <- Z.ldiff_land, Z.ldiff_ones_r by lia.
  rewrite Z.shiftr_div_pow2, Z.shiftl_mul_pow2 by lia. done.
Qed.

Lemma LWIP_MEM_ALIGN_SIZE_bound n : n <= LWIP_MEM_ALIGN_SIZE n < n + 64.
Proof. rewrite LWIP_MEM_ALIGN_SIZE_eq. Z.to_euclidean_division_equations; lia. Qed.

Lemma layer_offset_bound l : 0 <= layer_offset l <= 56.
Proof. destruct l; vm_compute; split; congruence. Qed.

Lemma align_layer l :
  LWIP_MEM_ALIGN_SIZE (SIZEOF_STRUCT_PBUF + layer_offset l) =
    SIZEOF_STRUCT_PBUF + LWIP_MEM_ALIGN_SIZE (layer_offset l).
Proof. by destruct l. Qed.

(** The single pbuf a PBUF_RAM allocation produces. *)
Definition ram_pbuf (i : positive) (layer : pbuf_layer) (n : Z) : pbuf :=
  Pbuf None (Some (Ptr i (SIZEOF_STRUCT_PBUF + LWIP_MEM_ALIGN_SIZE (layer_offset layer))))
    n n 0x80 0 1 0 None.

Definition ram_size (layer : pbuf_layer) (n : Z) : Z :=
  SIZEOF_STRUCT_PBUF + LWIP_MEM_ALIGN_SIZE (layer_offset layer) + LWIP_MEM_ALIGN_SIZE n.

Lemma pbuf_alloc_ram_run h layer n :
  0 <= n < 65536 ->
  pbuf_alloc layer n PBUF_RAM h =
    (if decide (LWIP_MEM_ALIGN_SIZE (layer_offset layer) + LWIP_MEM_ALIGN_SIZE n < 65536) then
       if heap_admits (h_mem h) (ram_size layer n)
       then Some (Some (h_next h), with_new h (ram_size layer n) (ram_pbuf (h_next h) layer n) 0 0)
       else Some (None, h)
     else Some (None, h)).
Proof.
  intros Hn. unfold pbuf_alloc.
  pose proof (LWIP_MEM_ALIGN_SIZE_bound n). pose proof (layer_offset_bound layer).
  pose proof (LWIP_MEM_ALIGN_SIZE_bound (layer_offset layer)).
  change (LWIP_MEM_ALIGN_SIZE SIZEOF_STRUCT_PBUF) with 64.
  set (a := LWIP_MEM_ALIGN_SIZE (layer_offset layer)) in *.
  case_decide as Hd.
  - rewrite (u16_small (a + _)) by lia.
    rewrite (u32_small (64 + _)) by lia.
    rewrite (proj2 (Z.ltb_ge (a + _) _)), (proj2 (Z.ltb_ge (64 + _) _)) by lia. cbn [orb].
    assert (64 + (a + LWIP_MEM_ALIGN_SIZE n) = ram_size layer n) as ->
      by (unfold ram_size, SIZEOF_STRUCT_PBUF; fold a; lia).
    destruct (heap_admits (h_mem h) (ram_size layer n)) eqn:Ea.
    + destruct (mem_malloc_run h (ram_size layer n) (ram_pbuf (h_next h) layer n) Ea) as (h1 & Hm & Hw).
      mrun Hm. rewrite align_layer. fold a.
      change (u8 (type_code PBUF_RAM)) with 0x80 in *.
      rewrite (bind_run _ _ _ _ _ (pbuf_init_run _ _ _ _ _ _ _)).
      rewrite <- Hw. done.
    + unfold mem_malloc. unfold mbind at 1, M_bind at 1. by rewrite Ea.
  - assert (u16 (a + LWIP_MEM_ALIGN_SIZE n) < LWIP_MEM_ALIGN_SIZE n) as Hlt.
    { revert Hd. rewrite (LWIP_MEM_ALIGN_SIZE_eq n) in *. intros. ulia. }
    by rewrite (proj2 (Z.ltb_lt _ _) Hlt).
Qed.

Lemma ram_packet h layer n :
  heap_wf h -> 0 <= n < 65536 ->
  let h' := with_new h (ram_size layer n) (ram_pbuf (h_next h) layer n) 0 0 in
  packet h' (Some (h_next h)) [(h_next h, ram_pbuf (h_next h) layer n)] /\
  blks [(h_next h, ram_pbuf (h_next h) layer n)] = [h_next h].
Proof.
  intros Hwf Hn h'. split; [|done].
  pose proof (LWIP_MEM_ALIGN_SIZE_bound n). pose proof (layer_offset_bound layer).
  pose proof (LWIP_MEM_ALIGN_SIZE_bound (layer_offset layer)).
  apply packet_cons; simpl; try lia.
  - by rewrite lookup_insert_eq.
  - apply packet_nil.
  - right. eexists _, _, _. split; [done|]. simpl. rewrite lookup_insert_eq.
    split; [done|]. unfold ram_size. rewrite length_junk_block; unfold SIZEOF_STRUCT_PBUF; lia.
Qed.

(** ** pbuf_clone *)

Lemma pbuf_clone_run h i l layer :
  heap_wf h -> packet h (Some i) l -> all_pos l ->
  LWIP_MEM_ALIGN_SIZE (layer_offset layer) + LWIP_MEM_ALIGN_SIZE (sum_len l) < 65536 ->
  heap_admits (h_mem h) (ram_size layer (sum_len l)) = true ->
  let q := h_next h in
  let b := ram_pbuf q layer (sum_len l) in
  exists h', pbuf_clone layer PBUF_RAM (Some i) h = Some (Some q, h') /\
    extends h h' /\ packet h' (Some q) [(q, b)] /\ chain_data h' [(q, b)] = chain_data h l.
Proof.
  intros Hwf Hp Hpos Hsz Hadm q b.
  pose proof (packet_Some_inv _ _ _ Hp) as (bi & r & Hl).
  assert (l <> []) as Hnil by (by rewrite Hl).
  pose proof (all_pos_sum _ Hpos Hnil) as Hsum.
  assert (sum_len l < 65536) as Hsm by by destruct Hp.
  unfold pbuf_clone.
  assert (h_pbufs h !! i = Some bi /\ tot_len bi = sum_len l) as [Hi Ht].
  { rewrite Hl in Hp. apply packet_cons_inv in Hp as (_ & ? & _ & _ & Ht & _). rewrite Hl. done. }
  mrun (deref_run _ _ _ Hi). rewrite Ht.
  pose proof (pbuf_alloc_ram_run h layer (sum_len l) ltac:(lia)) as Ha.
  rewrite decide_True, Hadm in Ha by done. mrun Ha.
  destruct (ram_packet h layer (sum_len l) Hwf ltac:(lia)) as [Hq Hblk].
  fold q b in Ha, Hq, Hblk |- *.
  set (h1 := with_new h (ram_size layer (sum_len l)) b 0 0) in *.
  pose proof (with_new_extends h (ram_size layer (sum_len l)) b 0 0) as Hx.
  pose proof (extends_packet _ _ _ _ Hwf Hx Hp) as Hp1. fold h1 in Hp1.
  assert (h_pbufs h1 !! q = Some b) as Hqb by apply lookup_insert_eq.
  assert (h_pbufs h1 !! i = Some bi) as Hib.
  { rewrite Hl in Hp1. by apply packet_cons_inv in Hp1 as (_ & ? & _). }
  destruct (pbuf_copy_loop_run h1 (chain_fuel h1 + chain_fuel h1) [(q, b)] l q i 0 0)
    as (h2 & Hrun & W & Hd); try done; try lia.
  - apply Forall_singleton. simpl. lia.
  - rewrite Hblk. apply NoDup_singleton.
  - rewrite Hblk. intros k (j & c & Hjc & Hk)%elem_of_blks ->%list_elem_of_singleton.
    destruct Hp as [_ _ _ Hm]. rewrite Forall_forall in Hm, Hpos.
    specialize (Hm _ Hjc). specialize (Hpos _ Hjc). simpl in Hm, Hpos.
    destruct Hm as [?|(blk & o & bs & E1 & E2 & ? & ?)]; [lia|].
    unfold blk_of in Hk. rewrite E1 in Hk. simplify_eq/=.
    destruct (Hwf q); [done|]. congruence.
  - pose proof (packet_fuel _ _ _ Hq). pose proof (packet_fuel _ _ _ Hp1). lia.
  - destruct l as [|[j c] l']; [done|]. by apply Forall_cons in Hpos as [? _].
  - simpl. lia.
  - exists h2. split_and!.
    + rewrite (bind_run (pbuf_copy _ _) _ h1 ERR_OK h2); [done|].
      unfold pbuf_copy. mrun (get_pbuf_run _ _ _ Hqb). mrun (get_pbuf_run _ _ _ Hib).
      rewrite Ht. simpl tot_len. rewrite Z.ltb_irrefl. rewrite bind_get. exact Hrun.
    + destruct Hx as [Hx1 Hx2 Hx3]. split; [by rewrite (writes_next _ _ _ W)|intros j Hj..].
      * rewrite (writes_pbufs _ _ _ W). by apply Hx2.
      * rewrite (writes_frame _ _ _ W); [by apply Hx3|].
        rewrite Hblk. intros Hjq%list_elem_of_singleton. unfold q in Hjq. lia.
    + by eapply writes_packet.
    + rewrite Hd, drop_0. rewrite (extends_chain_data h h1 (Some i) l Hwf Hx Hp).
      pose proof (length_chain_data _ _ _ Hp) as Hlen.
      pose proof (length_chain_data _ _ _ Hq) as Hlen2. simpl in Hlen2.
      unfold overwrite. rewrite take_0. simpl. rewrite drop_ge by lia. by rewrite app_nil_r.
Qed.

End Alloc.
