(* ===== verification/PbufPool.v ===== *)
(** * Packet buffers: PBUF_POOL allocation, the path of every received frame *)
From S2P Require Import Prelude Pbuf PbufFacts PbufWrite PbufAlloc.

(** Payload bytes that fit in a pool pbuf behind [offset] bytes of headroom. *)
Definition pool_cap (offset : Z) : Z :=
  PBUF_POOL_BUFSIZE_ALIGNED - LWIP_MEM_ALIGN_SIZE offset.

(** Pool elements an allocation of [n] bytes takes. *)
Definition pool_need (n offset : Z) : Z :=
  if n <=? pool_cap offset then 1 else 1 + (n - pool_cap offset + 1727) / 1728.

(** A pbuf as pbuf_alloc leaves it. *)
Definition fresh_pool (from : positive) (ib : positive * pbuf) : Prop :=
  (from <= ib.1)%positive /\
  (exists o, payload ib.2 = Some (Ptr ib.1 o) /\ SIZEOF_STRUCT_PBUF <= o) /\
  ref ib.2 = 1 /\ flags ib.2 = 0 /\ type_internal ib.2 = 0x82 /\ if_idx ib.2 = 0.

Section Pool.
Context {E : PbufEnv}.

Lemma pool_cap_layer l : 1664 <= pool_cap (layer_offset l) <= 1728.
Proof. by destruct l. Qed.

Lemma pool_cap_eq offset :
  0 <= offset <= 64 ->
  1664 <= pool_cap offset <= 1728 /\
  u16 (PBUF_POOL_BUFSIZE_ALIGNED - LWIP_MEM_ALIGN_SIZE offset) = pool_cap offset /\
  LWIP_MEM_ALIGN_SIZE (SIZEOF_STRUCT_PBUF + offset) = 64 + LWIP_MEM_ALIGN_SIZE offset.
Proof.
  intros. unfold pool_cap. change PBUF_POOL_BUFSIZE_ALIGNED with 1728.
  rewrite !LWIP_MEM_ALIGN_SIZE_eq. unfold SIZEOF_STRUCT_PBUF.
  split_and!; try (Z.to_euclidean_division_equations; lia).
  apply u16_small. Z.to_euclidean_division_equations; lia.
Qed.

(** The pool pbuf allocated for [rem] remaining bytes. *)
Definition pool_pbuf (q : positive) (rem offset : Z) : pbuf :=
  Pbuf None (Some (Ptr q (64 + LWIP_MEM_ALIGN_SIZE offset))) rem
    (Z.min rem (pool_cap offset)) 0x82 0 1 0 None.
Notation pool_new h rem offset :=
  (with_new h (SIZEOF_STRUCT_PBUF + PBUF_POOL_BUFSIZE_ALIGNED) (pool_pbuf (h_next h) rem offset) 1 0).

(** Linking the new pbuf behind the last one. *)
Definition link_last (p last : option positive) (q : positive) (h : heap) : heap :=
  match p, last with
  | Some _, Some l => set_pbufs (alter (set_next (Some q)) l (h_pbufs h)) h
  | _, _ => h
  end.

(** [last] is the last pbuf of the partial chain [p], if there is one. *)
Definition last_ok (p last : option positive) (h : heap) : Prop :=
  match p with
  | Some _ => exists l, last = Some l /\ is_Some (h_pbufs h !! l) /\ (l < h_next h)%positive
  | None => True
  end.

(** One round of the allocation loop when the pool has an element. *)
Lemma pool_loop_step h fuel p last rem offset :
  h_pool h <> 0 -> 0 <= rem < 65536 -> 0 <= offset <= 64 -> last_ok p last h ->
  pbuf_alloc_pool_loop (S fuel) p last rem offset h =
    (let q := h_next h in
     let h1 := link_last p last q (pool_new h rem offset) in
     let rem' := rem - Z.min rem (pool_cap offset) in
     if 0 <? rem' then pbuf_alloc_pool_loop fuel (Some (default q p)) (Some q) rem' 0 h1
     else Some (Some (default q p), h1)).
Proof.
  intros Hpool Hrem Hoff Hl. cbn [pbuf_alloc_pool_loop].
  destruct (memp_malloc_pool_run h (pool_pbuf (h_next h) rem offset) Hpool) as (h1 & Hm & Hw).
  mrun Hm. pose proof (pool_cap_eq offset Hoff) as (Hc & -> & ->).
  rewrite (bind_run _ _ _ _ _ (pbuf_init_run _ _ _ _ _ _ _)). cbv beta.
  change (u8 (type_code PBUF_POOL)) with 0x82.
  change (Pbuf None _ rem _ 0x82 0 1 0 None) with (pool_pbuf (h_next h) rem offset).
  rewrite Hw. rewrite (u16_small (rem - _)) by lia.
  destruct p as [p|]; cbn [default].
  - destruct Hl as (l & -> & [b Hb] & Hlt).
    rewrite bind_assoc.
    assert (h_pbufs (pool_new h rem offset) !! l = Some b) as Hb'.
    { simpl. rewrite lookup_insert_ne by lia. done. }
    mrun (upd_pbuf_run _ _ _ (set_next (Some (h_next h))) Hb').
    rewrite bind_ret. cbn [link_last].
    assert (<[l:=set_next (Some (h_next h)) b]> (h_pbufs (pool_new h rem offset)) =
      alter (set_next (Some (h_next h))) l (h_pbufs (pool_new h rem offset))) as ->.
    { apply map_eq. intros j. rewrite lookup_insert, lookup_alter.
      case_decide; [subst; by rewrite Hb'|done]. }
    cbv zeta. case_if; done.
  - rewrite bind_ret. cbv zeta. cbn [link_last]. case_if; done.
Qed.

Lemma link_last_lookup p last q h i :
  h_pbufs (link_last p last q h) !! i =
    match p, last with
    | Some _, Some l => if decide (l = i) then set_next (Some q) <$> h_pbufs h !! i
                        else h_pbufs h !! i
    | _, _ => h_pbufs h !! i
    end.
Proof.
  unfold link_last. destruct p, last; simpl; try done. rewrite lookup_alter. case_decide; by subst.
Qed.

Lemma link_last_mem p last q h : h_mem (link_last p last q h) = h_mem h.
Proof. by destruct p, last. Qed.
Lemma link_last_next p last q h : h_next (link_last p last q h) = h_next h.
Proof. by destruct p, last. Qed.
Lemma link_last_pool p last q h : h_pool (link_last p last q h) = h_pool h.
Proof. by destruct p, last. Qed.

Lemma link_last_wf p last q h :
  heap_wf h -> last_ok p last h -> heap_wf (link_last p last q h).
Proof.
  intros Hwf Hl i. rewrite link_last_next, link_last_mem, link_last_lookup. intros Hi.
  destruct (Hwf i Hi) as [Hp Hm]. split; [|done].
  destruct p, last; try done. case_decide; [by rewrite Hp|done].
Qed.

Lemma last_ok_new p last h n b x y : last_ok p last h -> last_ok p last (with_new h n b x y).
Proof.
  destruct p; [|done]. intros (l & -> & ? & ?). exists l. simpl.
  rewrite lookup_insert_ne by lia. split_and!; [done|done|lia].
Qed.

Lemma pool_need_step rem offset :
  0 <= offset <= 64 -> pool_cap offset < rem ->
  pool_need rem offset = 1 + pool_need (rem - pool_cap offset) 0.
Proof.
  intros Ho Hr. unfold pool_need. rewrite (proj2 (Z.leb_gt _ _)) by lia.
  change (pool_cap 0) with 1728. case_if; [|Z.to_euclidean_division_equations; lia].
  pose proof (pool_cap_eq offset Ho). Z.to_euclidean_division_equations; lia.
Qed.

Lemma pool_need_pos rem offset : 0 <= offset <= 64 -> 1 <= pool_need rem offset.
Proof.
  intros Ho. unfold pool_need. pose proof (pool_cap_eq offset Ho).
  case_if; [lia|]. Z.to_euclidean_division_equations; lia.
Qed.

(** The result of a successful run of the loop from [h], with the partial chain
    ending in [last]. *)
Record pool_result (p last : option positive) (rem offset : Z) (h h' : heap)
    (l : list (positive * pbuf)) : Prop := {
  pr_packet : packet h' (Some (h_next h)) l;
  pr_sum : sum_len l = rem;
  pr_length : lenZ l = pool_need rem offset;
  pr_pool : h_pool h' = h_pool h - pool_need rem offset;
  pr_fresh : Forall (fresh_pool (h_next h)) l;
  pr_pos : 0 < rem -> all_pos l;
  pr_wf : heap_wf h';
  pr_next : (h_next h <= h_next h')%positive;
  pr_mem i : (i < h_next h)%positive -> h_mem h' !! i = h_mem h !! i;
  pr_pbufs i : (i < h_next h)%positive ->
    h_pbufs h' !! i = h_pbufs (link_last p last (h_next h) h) !! i;
}.

Lemma pool_new_payload_ok h q rem offset bs :
  0 <= rem -> 0 <= offset <= 64 -> h_mem h !! q = Some bs -> lenZ bs = 1792 ->
  payload_ok h (pool_pbuf q rem offset).
Proof.
  intros Hr Ho Hq Hbs. right. eexists q, _, bs. split; [done|]. split; [done|]. simpl.
  pose proof (pool_cap_eq offset Ho). unfold pool_cap in *.
  change PBUF_POOL_BUFSIZE_ALIGNED with 1728 in *. split; lia.
Qed.

Lemma pool_loop_run fuel : forall h p last rem offset,
  heap_wf h -> 0 <= rem < 65536 -> 0 <= offset <= 64 -> last_ok p last h ->
  pool_need rem offset <= h_pool h -> (Z.to_nat rem < fuel)%nat ->
  exists h' l, pbuf_alloc_pool_loop fuel p last rem offset h =
    Some (Some (default (h_next h) p), h') /\ pool_result p last rem offset h h' l.
Proof.
  induction fuel as [|fuel IH]; [lia|].
  intros h p last rem offset Hwf Hrem Hoff Hl Hneed Hf.
  pose proof (pool_need_pos rem offset Hoff). pose proof (pool_cap_eq offset Hoff) as (Hcap & _ & _).
  rewrite pool_loop_step by (done || lia). cbv zeta.
  set (q := h_next h). set (hn := pool_new h rem offset).
  set (h1 := link_last p last q hn).
  assert (heap_wf h1) as Hwf1.
  { apply link_last_wf; [by apply with_new_wf|by apply last_ok_new]. }
  assert (h_next h1 = Pos.succ q) as Hn1 by (unfold h1; by rewrite link_last_next).
  assert (h_mem h1 = <[q := junk_block q 1792]> (h_mem h)) as Hm1
    by (unfold h1; by rewrite link_last_mem).
  assert (h_pool h1 = h_pool h - 1) as Hp1 by (unfold h1; by rewrite link_last_pool).
  assert (h_pbufs h1 !! q = Some (pool_pbuf q rem offset)) as Hq1.
  { unfold h1. rewrite link_last_lookup.
    assert (h_pbufs hn !! q = Some (pool_pbuf q rem offset)) as Hq by apply lookup_insert_eq.
    destruct p, last; try done. rewrite decide_False; [done|].
    destruct Hl as (? & [= <-] & _ & ?). unfold q. lia. }
  assert (forall i, (i < q)%positive -> h_pbufs h1 !! i = h_pbufs (link_last p last q h) !! i) as Hlow.
  { intros i Hi. unfold h1. rewrite !link_last_lookup. simpl.
    by rewrite lookup_insert_ne by (unfold q in Hi; lia). }
  destruct (Z.le_gt_cases rem (pool_cap offset)) as [Hle|Hgt].
  - rewrite Z.min_l by lia. replace (rem - rem) with 0 by lia. rewrite (Z.ltb_irrefl 0).
    exists h1, [(q, pool_pbuf q rem offset)]. split; [done|].
    assert (pool_need rem offset = 1) as Hn by (unfold pool_need; rewrite (proj2 (Z.leb_le _ _)) by lia; done).
    assert (payload_ok h1 (pool_pbuf q rem offset)) as Hok.
    { eapply pool_new_payload_ok; [lia|done| |].
      - rewrite Hm1. apply lookup_insert_eq.
      - by apply length_junk_block. }
    split; rewrite ?Hn, ?Hn1; try done.
    + apply packet_cons; simpl; try done; try lia. apply packet_nil.
    + simpl. lia.
    + apply Forall_singleton. split_and!; simpl; try done. eexists. split; [done|].
      pose proof (LWIP_MEM_ALIGN_SIZE_bound offset). unfold SIZEOF_STRUCT_PBUF. lia.
    + intros. apply Forall_singleton. simpl. lia.
    + unfold q. lia.
    + intros i Hi. rewrite Hm1. apply lookup_insert_ne. unfold q. lia.
  - rewrite Z.min_r by lia. rewrite (proj2 (Z.ltb_lt 0 _)) by lia.
    pose proof (pool_need_step rem offset Hoff Hgt) as Hstep.
    destruct (IH h1 (Some (default q p)) (Some q) (rem - pool_cap offset) 0) as (h2 & l & Hrun & Hres);
      [done|lia|lia| |lia|lia|].
    { exists q. split_and!; [done|by rewrite Hq1|lia]. }
    exists h2, ((q, set_next (Some (h_next h1)) (pool_pbuf q rem offset)) :: l).
    split; [done|]. destruct Hres.
    assert (h_pbufs h2 !! q = Some (set_next (Some (h_next h1)) (pool_pbuf q rem offset))) as Hq2.
    { rewrite pr_pbufs0 by lia. simpl. rewrite lookup_alter, decide_True by done. by rewrite Hq1. }
    assert (h_mem h2 !! q = Some (junk_block q 1792)) as Hqm.
    { rewrite pr_mem0 by lia. rewrite Hm1. apply lookup_insert_eq. }
    assert (payload_ok h2 (pool_pbuf q rem offset)) as Hok.
    { eapply pool_new_payload_ok; [lia|done|done|]. by apply length_junk_block. }
    split; try done.
    + apply packet_cons; simpl; try done; lia.
    + simpl. lia.
    + rewrite length_cons. lia.
    + lia.
    + constructor.
      * split_and!; simpl; try done. eexists. split; [done|].
        pose proof (LWIP_MEM_ALIGN_SIZE_bound offset). unfold SIZEOF_STRUCT_PBUF. lia.
      * eapply Forall_impl; [exact pr_fresh0|]. intros [i b] (Hi & ?). split; [|done]. simpl in *. lia.
    + intros _. constructor; [simpl; lia|]. apply pr_pos0. lia.
    + lia.
    + intros i Hi. rewrite pr_mem0, Hm1 by lia. apply lookup_insert_ne. unfold q. lia.
    + intros i Hi. rewrite pr_pbufs0 by lia. simpl. rewrite lookup_alter_ne by (unfold q; lia).
      by apply Hlow.
Qed.

(** pbuf_alloc(layer, n, PBUF_POOL) when the pool has enough elements. *)
Lemma pbuf_alloc_pool_run h layer n :
  heap_wf h -> 0 <= n < 65536 -> pool_need n (layer_offset layer) <= h_pool h ->
  exists h' l, pbuf_alloc layer n PBUF_POOL h = Some (Some (h_next h), h') /\
    pool_result None None n (layer_offset layer) h h' l.
Proof.
  intros Hwf Hn Hneed. pose proof (layer_offset_bound layer).
  apply (pool_loop_run _ h None None n (layer_offset layer)); try done; lia.
Qed.

(** ** Failure: the pool runs dry and everything taken goes back *)

(** The partial chain built so far: [l] from [p] to [last]. *)
Definition partial (p last : option positive) (l : list (positive * pbuf)) (h : heap) : Prop :=
  match p with
  | None => l = []
  | Some i => chain h (Some i) l /\
      (exists l1 j b, l = l1 ++ [(j, b)] /\ last = Some j) /\
      Forall (last_ref h) l /\ Forall (fun ib => pbuf_get_allocsrc ib.2 = 2) l /\
      Forall (fun ib => (ib.1 < h_next h)%positive) l
  end.

Lemma partial_last_ok p last l h : partial p last l h -> last_ok p last h.
Proof.
  destruct p as [i|]; [|done]. intros (Hc & (l1 & j & b & -> & ->) & _ & _ & Hlt).
  exists j. split_and!; [done| |].
  - rewrite (chain_lookup _ _ _ j b Hc); [done|]. apply elem_of_app. right. by left.
  - apply Forall_app in Hlt as [_ Hlt]. by apply Forall_one in Hlt.
Qed.

Lemma release_all_pool l h :
  Forall (fun ib => pbuf_get_allocsrc ib.2 = 2) l ->
  h_pool (release_all l h) = h_pool h + lenZ l /\ h_ref (release_all l h) = h_ref h.
Proof.
  intros Hl. revert h. induction Hl as [|ib l Hib Hl IH]; intros h; simpl; [lia|].
  destruct (IH (release h ib)) as [-> ->]. unfold release. simpl. rewrite Hib. simpl. lia.
Qed.

(** The chain after the last pbuf has been linked to a new one. *)
Lemma chain_relink h h' i l1 j b q bq :
  chain h (Some i) (l1 ++ [(j, b)]) ->
  (forall k c, (k, c) ∈ l1 -> h_pbufs h' !! k = Some c) ->
  h_pbufs h' !! j = Some (set_next (Some q) b) ->
  h_pbufs h' !! q = Some bq -> next bq = None ->
  chain h' (Some i) (l1 ++ [(j, set_next (Some q) b); (q, bq)]).
Proof.
  generalize (Some i). intros p Hc. revert p Hc.
  induction l1 as [|[k c] l1 IH]; intros p Hc Hl1 Hj Hq Hn; simpl in *.
  - apply chain_inv' in Hc as (-> & _ & _). repeat constructor; simpl; try done.
    rewrite Hn. constructor.
  - apply chain_inv' in Hc as (-> & Hk & Hc). constructor.
    + apply Hl1. by left.
    + apply IH; try done. intros. apply Hl1. by right.
Qed.

Lemma partial_step p last l h rem offset :
  heap_wf h -> partial p last l h ->
  let q := h_next h in
  let h1 := link_last p last q (pool_new h rem offset) in
  exists l', partial (Some (default q p)) (Some q) l' h1 /\
    lenZ l' = lenZ l + 1 /\ (forall j, j ∈ l'.*1 <-> j ∈ l.*1 \/ j = q).
Proof.
  intros Hwf Hp q h1.
  assert (h_pbufs h1 !! q = Some (pool_pbuf q rem offset)) as Hq.
  { unfold h1. rewrite link_last_lookup.
    assert (h_pbufs (pool_new h rem offset) !! q = Some (pool_pbuf q rem offset)) as Hq
      by apply lookup_insert_eq.
    pose proof (partial_last_ok _ _ _ _ Hp) as Hl. destruct p, last; try done.
    rewrite decide_False; [done|]. destruct Hl as (? & [= <-] & _ & ?). unfold q. lia. }
  assert (h_mem h1 !! q = Some (junk_block q 1792)) as Hqm
    by (unfold h1; rewrite link_last_mem; apply lookup_insert_eq).
  assert (last_ref h1 (q, pool_pbuf q rem offset)) as Hlq by by split_and!.
  assert (h_next h1 = Pos.succ q) as Hn1 by (unfold h1; by rewrite link_last_next).
  destruct p as [i|]; simpl in Hp.
  - destruct Hp as (Hc & (l1 & j & b & -> & ->) & Hlr & Hsrc & Hlt).
    exists (l1 ++ [(j, set_next (Some q) b); (q, pool_pbuf q rem offset)]).
    apply Forall_app in Hlr as [Hlr1 Hlrj%Forall_one].
    apply Forall_app in Hsrc as [Hsrc1 Hsrcj%Forall_one].
    apply Forall_app in Hlt as [Hlt1 Hltj%Forall_one]. simpl in Hltj, Hsrcj.
    pose proof (chain_NoDup _ _ _ Hc) as Hnd. rewrite fmap_app in Hnd.
    apply NoDup_app in Hnd as (_ & Hnd & _).
    assert (forall k, (k < q)%positive -> k <> j -> h_pbufs h1 !! k = h_pbufs h !! k) as Hsame.
    { intros k Hk Hkj. unfold h1. rewrite link_last_lookup, decide_False by done. simpl.
      by rewrite lookup_insert_ne by (unfold q in Hk; lia). }
    assert (forall k, (k < q)%positive -> h_mem h1 !! k = h_mem h !! k) as Hsamem.
    { intros k Hk. unfold h1. rewrite link_last_mem. simpl.
      by rewrite lookup_insert_ne by (unfold q in Hk; lia). }
    assert (h_pbufs h !! j = Some b) as Hj.
    { eapply chain_lookup; [exact Hc|]. apply elem_of_app. right. by left. }
    split_and!.
    + unfold partial. cbn [default]. split_and!.
      * eapply chain_relink; try done.
        -- intros k c Hk. rewrite Forall_forall in Hlt1. rewrite Hsame.
           ++ eapply chain_lookup; [exact Hc|]. apply elem_of_app. by left.
           ++ by apply (Hlt1 (k, c)).
           ++ intros ->. apply (Hnd j); [apply list_elem_of_fmap; by exists (j, c)|by left].
        -- unfold h1. rewrite link_last_lookup, decide_True by done. simpl.
           rewrite lookup_insert_ne by lia. by rewrite Hj.
      * exists (l1 ++ [(j, set_next (Some q) b)]), q, (pool_pbuf q rem offset).
        by rewrite <- app_assoc.
      * assert (last_ref h1 (j, set_next (Some q) b)) as Hlrj1.
        { destruct Hlrj as (? & ? & Hms). split_and!; [done|done|].
          change (is_Some (h_mem h1 !! j)). rewrite Hsamem; [exact Hms|done]. }
        apply Forall_app. split; [|by constructor; [|constructor]].
        -- rewrite Forall_forall in Hlr1, Hlt1 |- *. intros [k c] Hk.
           destruct (Hlr1 _ Hk) as (? & ? & Hms). split_and!; [done|done|].
           change (is_Some (h_mem h1 !! k)). rewrite Hsamem; [exact Hms|].
           by apply (Hlt1 (k, c)).
      * apply Forall_app. split; [done|]. by repeat constructor.
      * rewrite Hn1. apply Forall_app. split.
        -- eapply Forall_impl; [exact Hlt1|]. simpl. intros. unfold q. lia.
        -- repeat constructor; simpl; unfold q; lia.
    + rewrite !length_app. simpl. lia.
    + intros k. rewrite !fmap_app. csimpl. rewrite !elem_of_app, !elem_of_cons.
      rewrite elem_of_nil. tauto.
  - subst l. exists [(q, pool_pbuf q rem offset)]. split_and!; simpl; try done.
    + split_and!; try done.
      * constructor; [done|constructor].
      * by exists [], q, (pool_pbuf q rem offset).
      * by apply Forall_singleton.
      * by apply Forall_singleton.
      * apply Forall_singleton. simpl. unfold q. lia.
    + intros j. rewrite elem_of_cons, !elem_of_nil. tauto.
Qed.

Lemma pool_is_empty_run h :
  exists h', pbuf_pool_is_empty h = Some (tt, h') /\
    h_pbufs h' = h_pbufs h /\ h_mem h' = h_mem h /\ h_next h' = h_next h /\
    h_pool h' = h_pool h /\ h_ref h' = h_ref h.
Proof.
  unfold pbuf_pool_is_empty.
  destruct (h_ooseq_pending h); simpl; [|destruct (tcpip_try_callback_ok _)]; eauto 10.
Qed.

(** What a failed allocation leaves: the heap without the partial chain [l]. *)
Definition undone (l : list (positive * pbuf)) (h h' : heap) : Prop :=
  (forall j, h_pbufs h' !! j = if decide (j ∈ l.*1) then None else h_pbufs h !! j) /\
  (forall j, h_mem h' !! j = if decide (j ∈ l.*1) then None else h_mem h !! j) /\
  h_pool h' = h_pool h + lenZ l /\ h_ref h' = h_ref h /\ (h_next h <= h_next h')%positive.

Lemma pool_loop_dry h fuel p last rem offset l :
  h_pool h = 0 -> partial p last l h ->
  exists h', pbuf_alloc_pool_loop (S fuel) p last rem offset h = Some (None, h') /\ undone l h h'.
Proof.
  intros Hz Hp. cbn [pbuf_alloc_pool_loop].
  assert (memp_malloc_pool h = Some (None, h)) as Hm by (unfold memp_malloc_pool; by rewrite Hz).
  mrun Hm. destruct (pool_is_empty_run h) as (h1 & He & Epb & Eme & Enx & Epo & Ere). mrun He.
  destruct p as [i|]; simpl in Hp.
  - destruct Hp as (Hc & _ & Hlr & Hsrc & _).
    assert (chain h1 (Some i) (l ++ [])) as Hc1.
    { rewrite app_nil_r. eapply chain_ext; [|exact Hc]. intros k c Hk.
      rewrite Epb. by eapply chain_lookup. }
    assert (Forall (last_ref h1) l) as Hlr1.
    { eapply Forall_impl; [exact Hlr|]. intros [k c] (? & ? & ?). split_and!; try done.
      by rewrite Eme. }
    rewrite bind_assoc. mrun (pbuf_free_run h1 i l [] Hc1 Hlr1 I).
    rewrite bind_ret. eexists. split; [done|]. cbn [unref].
    destruct (release_all_pool l h1 Hsrc) as [Hpo Hre].
    split_and!; rewrite ?Hpo, ?Hre, ?release_all_next, ?Epo, ?Ere, ?Enx; try done.
    + intros j. rewrite release_all_pbufs, lookup_delete_all. by rewrite Epb.
    + intros j. rewrite release_all_mem, lookup_delete_all. by rewrite Eme.
  - subst l. rewrite bind_ret. exists h1. split; [done|]. split_and!; try (simpl; congruence || lia).
Qed.

Lemma pool_loop_fail fuel : forall h p last rem offset l,
  heap_wf h -> 0 <= rem < 65536 -> 0 <= offset <= 64 -> partial p last l h ->
  0 <= h_pool h < pool_need rem offset -> (Z.to_nat rem < fuel)%nat ->
  exists h', pbuf_alloc_pool_loop fuel p last rem offset h = Some (None, h') /\ undone l h h'.
Proof.
  induction fuel as [|fuel IH]; [lia|].
  intros h p last rem offset l Hwf Hrem Hoff Hp Hpool Hf.
  destruct (decide (h_pool h = 0)) as [Hz|Hnz]; [by apply pool_loop_dry|].
  pose proof (partial_last_ok _ _ _ _ Hp) as Hlok.
  pose proof (pool_cap_eq offset Hoff) as (Hcap & _ & _).
  assert (pool_cap offset < rem) as Hgt.
  { unfold pool_need in Hpool. destruct (rem <=? pool_cap offset) eqn:El; b2p; lia. }
  rewrite pool_loop_step by (done || lia). cbv zeta.
  rewrite Z.min_r by lia. rewrite (proj2 (Z.ltb_lt 0 _)) by lia.
  rewrite (pool_need_step rem offset Hoff Hgt) in Hpool.
  destruct (partial_step p last l h rem offset Hwf Hp) as (l' & Hp' & Hlen & Hin).
  set (q := h_next h) in *. set (h1 := link_last p last q (pool_new h rem offset)) in *.
  assert (heap_wf h1) as Hwf1.
  { apply link_last_wf; [by apply with_new_wf|by apply last_ok_new]. }
  assert (h_pool h1 = h_pool h - 1) as Hp1 by (unfold h1; by rewrite link_last_pool).
  assert (h_next h1 = Pos.succ q) as Hn1 by (unfold h1; by rewrite link_last_next).
  destruct (IH h1 (Some (default q p)) (Some q) (rem - pool_cap offset) 0 l') as (h2 & Hrun & Hu);
    [done|lia|lia|done|lia|lia|].
  exists h2. split; [done|]. destruct Hu as (Hu1 & Hu2 & Hu3 & Hu4 & Hu5).
  assert (h_ref h1 = h_ref h) as Hr1.
  { unfold h1. destruct p, last; simpl; lia. }
  destruct (Hwf q) as [Hqp Hqm]; [done|].
  split_and!; try lia.
  - intros j. rewrite Hu1. destruct (decide (j ∈ l.*1)) as [Hj|Hj].
    + rewrite decide_True; [done|]. apply Hin. by left.
    + destruct (decide (j = q)) as [->|Hjq].
      * rewrite decide_True; [done|]. apply Hin. by right.
      * rewrite decide_False by (rewrite Hin; tauto). unfold h1. rewrite link_last_lookup. simpl.
        rewrite lookup_insert_ne by done. destruct p as [i|]; [|done]. destruct last as [j'|]; [|done].
        rewrite decide_False; [done|]. intros ->. apply Hj.
        destruct Hp as (_ & (l1 & j0 & b & -> & [= ->]) & _). rewrite fmap_app. set_solver.
  - intros j. rewrite Hu2. destruct (decide (j ∈ l.*1)) as [Hj|Hj].
    + rewrite decide_True; [done|]. apply Hin. by left.
    + destruct (decide (j = q)) as [->|Hjq].
      * rewrite decide_True; [done|]. apply Hin. by right.
      * rewrite decide_False by (rewrite Hin; tauto). unfold h1. rewrite link_last_mem. simpl.
        by rewrite lookup_insert_ne by done.
Qed.

Lemma pbuf_alloc_pool_fail h layer n :
  heap_wf h -> 0 <= n < 65536 -> 0 <= h_pool h < pool_need n (layer_offset layer) ->
  exists h', pbuf_alloc layer n PBUF_POOL h = Some (None, h') /\
    h_pbufs h' = h_pbufs h /\ h_mem h' = h_mem h /\ h_pool h' = h_pool h /\ h_ref h' = h_ref h.
Proof.
  intros Hwf Hn Hneed. pose proof (layer_offset_bound layer).
  destruct (pool_loop_fail (S (Z.to_nat n)) h None None n (layer_offset layer) [])
    as (h' & Hrun & Hu1 & Hu2 & Hu3 & Hu4 & _); [done|lia|lia|done|lia|lia|].
  exists h'. split; [exact Hrun|]. split_and!; try (simpl in *; lia).
  - apply map_eq. exact Hu1.
  - apply map_eq. exact Hu2.
Qed.

End Pool.
