(* ===== verification/PbufChain.v ===== *)
(** * Packet buffers: headers, concatenation and truncation of chains *)
From S2P Require Import Prelude Pbuf PbufFacts PbufWrite PbufAlloc.

(** A pbuf that lives with its payload in one block and can be freed: what
    PBUF_RAM and PBUF_POOL allocations give. *)
Definition owned (h : heap) (ib : positive * pbuf) : Prop :=
  plain ib.2 /\ is_Some (h_mem h !! ib.1) /\ 1 <= ref ib.2 < 256 /\
  exists o, payload ib.2 = Some (Ptr ib.1 o) /\ 0 <= o < 65536.

Section Chains.
Context {E : PbufEnv}.

(** ** Headers *)

Definition move_payload (b : pbuf) (blk : positive) (o n : Z) : pbuf :=
  Pbuf (next b) (Some (Ptr blk (o - n))) (u16 (tot_len b + n)) (u16 (len b + n))
    (type_internal b) (flags b) (ref b) (if_idx b) (custom_free_function b).

Lemma pbuf_remove_header_run h i b blk o n :
  h_pbufs h !! i = Some b -> payload b = Some (Ptr blk o) -> 0 < n -> n <= len b ->
  len b < 65536 ->
  pbuf_remove_header (Some i) n h =
    Some (false, set_pbufs (<[i := move_payload b blk o (- n)]> (h_pbufs h)) h).
Proof.
  intros Hi Hpl Hn Hnl Hl. unfold pbuf_remove_header.
  rewrite (proj2 (Z.ltb_ge 0xFFFF n)), (proj2 (Z.eqb_neq n 0)) by lia.
  mrun (get_pbuf_run _ _ _ Hi). rewrite (u16_small n) by lia.
  rewrite (proj2 (Z.ltb_ge _ _)) by lia. rewrite Hpl.
  rewrite (bind_run _ _ _ _ _ (upd_pbuf_run _ _ _ _ Hi)). cbv beta.
  unfold move_payload. by rewrite !Z.sub_opp_r, !Z.add_opp_r.
Qed.

Lemma pbuf_add_header_run h i b o n :
  h_pbufs h !! i = Some b -> payload b = Some (Ptr i o) ->
  Z.land (type_internal b) PBUF_TYPE_FLAG_STRUCT_DATA_CONTIGUOUS <> 0 ->
  0 < n -> SIZEOF_STRUCT_PBUF + n <= o -> 0 <= tot_len b -> tot_len b + n < 65536 ->
  pbuf_add_header (Some i) n h =
    Some (false, set_pbufs (<[i := move_payload b i o n]> (h_pbufs h)) h).
Proof.
  intros Hi Hpl Hty Hn Ho Ht Htn. unfold pbuf_add_header, pbuf_add_header_impl.
  rewrite (proj2 (Z.ltb_ge 0xFFFF n)), (proj2 (Z.eqb_neq n 0)) by lia.
  mrun (get_pbuf_run _ _ _ Hi). rewrite (u16_small n) by lia.
  rewrite (u16_small (n + tot_len b)) by lia. rewrite (proj2 (Z.ltb_ge _ _)) by lia.
  cbv zeta. rewrite Hpl. rewrite (proj2 (Z.eqb_neq _ 0) Hty). cbn [negb].
  rewrite decide_True by done. rewrite (proj2 (Z.ltb_ge _ _)) by lia.
  by rewrite (bind_run _ _ _ _ _ (upd_pbuf_run _ _ _ _ Hi)).
Qed.

Lemma remove_header_packet h i b r blk o n :
  packet h (Some i) ((i, b) :: r) -> payload b = Some (Ptr blk o) -> 0 < n -> n <= len b ->
  let h' := set_pbufs (<[i := move_payload b blk o (- n)]> (h_pbufs h)) h in
  packet h' (Some i) ((i, move_payload b blk o (- n)) :: r) /\
  chain_data h' ((i, move_payload b blk o (- n)) :: r) =
    drop (Z.to_nat n) (chain_data h ((i, b) :: r)).
Proof.
  intros Hp Hpl Hn Hnl h'.
  pose proof (packet_chain _ _ _ Hp) as Hc. pose proof (chain_NoDup _ _ _ Hc) as Hnd.
  pose proof (packet_cons_inv _ _ _ _ _ Hp) as (_ & Hi & Hr & ? & Ht & Hok & ? & ?).
  pose proof (length_pdata h b ltac:(lia) Hok) as Hlen.
  destruct Hok as [?|(blk' & o' & bs & E1 & E2 & ? & ?)]; [lia|].
  rewrite Hpl in E1. simplify_eq. split.
  - apply packet_cons; simpl.
    + by rewrite lookup_insert_eq.
    + destruct Hr as [Hrc Hrt Hrs Hrm]. split; try done.
      eapply chain_ext; [|exact Hrc]. intros j c Hj. simpl.
      rewrite lookup_insert_ne; [by eapply chain_lookup|]. intros ->.
      csimpl in Hnd. apply NoDup_cons in Hnd as [Hnd _]. apply Hnd.
      apply list_elem_of_fmap. by exists (j, c).
    + apply u16_bound.
    + rewrite !u16_small by lia. lia.
    + right. exists blk', (o' + n), bs. simpl. rewrite u16_small by lia.
      split_and!; try done; try lia. do 2 f_equal. lia.
    + rewrite u16_small by lia. lia.
  - rewrite !chain_data_cons. rewrite drop_app_le by lia. f_equal.
    unfold pdata, move_payload. simpl. rewrite Hpl, E2. simpl.
    rewrite u16_small by lia. unfold slice. rewrite skipn_firstn_comm, drop_drop.
    f_equal; [lia|]. f_equal. lia.
Qed.

Lemma add_header_packet h i b r o n bs :
  packet h (Some i) ((i, b) :: r) -> payload b = Some (Ptr i o) -> h_mem h !! i = Some bs ->
  o + len b <= lenZ bs -> 0 < n -> n <= o -> sum_len ((i, b) :: r) + n < 65536 ->
  let h' := set_pbufs (<[i := move_payload b i o n]> (h_pbufs h)) h in
  packet h' (Some i) ((i, move_payload b i o n) :: r) /\
  chain_data h' ((i, move_payload b i o n) :: r) = slice bs (o - n) n ++ chain_data h ((i, b) :: r).
Proof.
  intros Hp Hpl Hbs Hob Hn Hno Hs h'. rewrite sum_len_cons in Hs.
  pose proof (packet_NoDup _ _ _ Hp) as Hnd. csimpl in Hnd. apply NoDup_cons in Hnd as [Hni Hnd].
  pose proof (packet_cons_inv _ _ _ _ _ Hp) as (_ & Hi & Hr & ? & Ht & Hok & ? & ?). split.
  - apply packet_cons; simpl.
    + by rewrite lookup_insert_eq.
    + apply (packet_frame_pbufs h); [|done|exact Hr]. intros j Hj. simpl. rewrite lookup_insert_ne; [done|].
      by intros ->.
    + apply u16_bound.
    + rewrite !u16_small by lia. lia.
    + right. exists i, (o - n), bs. simpl. rewrite u16_small by lia. split_and!; try done; lia.
    + rewrite u16_small by lia. lia.
  - rewrite !chain_data_cons, app_assoc. f_equal.
    unfold pdata, move_payload. simpl. rewrite Hpl, Hbs. simpl. rewrite u16_small by lia.
    rewrite (Z.add_comm (len b)), slice_app by lia. do 2 f_equal. lia.
Qed.

(** ** pbuf_cat *)

(** The loop and the tail of pbuf_cat, by induction on the head chain. *)
Lemma pbuf_cat_run_aux t k bt lt l : forall h p fuel,
  packet h (Some p) l -> packet h (Some t) lt -> h_pbufs h !! t = Some bt ->
  tot_len bt = k -> sum_len lt = k -> t ∈ lt.*1 ->
  (forall i, i ∈ l.*1 -> i ∉ lt.*1) -> sum_len l + k < 65536 -> (length l <= fuel)%nat ->
  exists h' l', (pbuf_cat_loop fuel p t ≫= (fun p => pbuf_cat_link p t)) h = Some (tt, h') /\
    packet h' (Some p) (l' ++ lt) /\ chain_data h' l' = chain_data h l /\ l'.*1 = l.*1 /\
    h_mem h' = h_mem h /\ h_next h' = h_next h /\
    (forall i, i ∉ l.*1 -> h_pbufs h' !! i = h_pbufs h !! i).
Proof.
  induction l as [|[i c] l IH]; intros h p fuel Hp Ht Hbt Hk Hlt Htin Hdis Hs Hf.
  { by apply packet_Some_inv in Hp as (?&?&?). }
  pose proof (packet_NoDup _ _ _ Hp) as [Hil Hnd]%NoDup_cons.
  pose proof (packet_cons_inv _ _ _ _ _ Hp) as ([= ->] & Hi & Hr & ? & Htot & Hok & ? & ?).
  pose proof (tot_ok_sum _ (packet_tot _ _ _ Ht)).
  assert (i <> t) as Hit by (intros ->; apply (Hdis t); [by left|done]).
  rewrite sum_len_cons in Hs. destruct fuel as [|fuel]; [simpl in Hf; lia|].
  cbn [pbuf_cat_loop]. rewrite bind_assoc. mrun (get_pbuf_run _ _ _ Hi).
  destruct (next c) as [p'|] eqn:Hn.
  - rewrite bind_assoc. mrun (get_pbuf_run _ _ _ Hbt). rewrite bind_assoc.
    rewrite (bind_run _ _ _ _ _ (upd_pbuf_run _ _ _ _ Hi)). cbv beta.
    set (c' := set_tot_len (u16 (tot_len c + tot_len bt)) c).
    set (h1 := set_pbufs (<[i := c']> (h_pbufs h)) h).
    assert (forall j, j <> i -> h_pbufs h1 !! j = h_pbufs h !! j) as Hh1
      by (intros; simpl; by rewrite lookup_insert_ne).
    destruct (IH h1 p' fuel) as (h2 & l2 & Hrun & Hp2 & Hd2 & Hf2 & Hm2 & Hn2 & Hfr2); try done.
    + apply (packet_frame_pbufs h); try done. intros j Hj. apply Hh1. by intros ->.
    + apply (packet_frame_pbufs h); try done. intros j Hj. apply Hh1. intros ->.
      apply (Hdis i); [by left|done].
    + by rewrite Hh1.
    + intros j Hj. apply Hdis. by right.
    + lia.
    + simpl in Hf. lia.
    + pose proof (length_chain_data_prefix _ _ _ _ Hp2) as Hsum2.
      rewrite Hd2, (chain_data_mem h) in Hsum2 by done.
      rewrite (length_chain_data _ _ _ Hr) in Hsum2. symmetry in Hsum2.
      exists h2, ((i, c') :: l2). split; [exact Hrun|]. split_and!; try done.
      * apply packet_cons; simpl.
        -- rewrite Hfr2 by done. simpl. by rewrite lookup_insert_eq.
        -- by rewrite Hn.
        -- done.
        -- rewrite sum_len_app, Hsum2, u16_small; lia.
        -- unfold payload_ok. rewrite Hm2. exact Hok.
        -- rewrite sum_len_app, Hsum2. lia.
      * rewrite !chain_data_cons, Hd2. f_equal. unfold pdata. simpl. by rewrite Hm2.
      * csimpl. by rewrite Hf2.
      * intros j Hj. csimpl in Hj. rewrite Hfr2 by set_solver. apply Hh1. set_solver.
  - rewrite bind_ret. apply packet_None in Hr as ->.
    unfold pbuf_cat_link. mrun (get_pbuf_run _ _ _ Hi). mrun (get_pbuf_run _ _ _ Hbt).
    rewrite (bind_run _ _ _ _ _ (upd_pbuf_run _ _ _ _ Hi)). cbv beta.
    set (c' := set_tot_len (u16 (tot_len c + tot_len bt)) c).
    eexists _, [(i, set_next (Some t) c')]. split.
    { erewrite upd_pbuf_run; [reflexivity|]. simpl. apply lookup_insert_eq. }
    simpl. rewrite insert_insert_eq. split_and!; try done.
    + apply packet_cons; simpl.
      * by rewrite lookup_insert_eq.
      * apply (packet_frame_pbufs h); try done. intros j Hj. simpl.
        rewrite lookup_insert_ne; [done|]. intros ->. apply (Hdis j); [by left|done].
      * done.
      * simpl in *. rewrite u16_small; lia.
      * done.
      * simpl in *. lia.
    + intros j Hj. csimpl in Hj. rewrite lookup_insert_ne; [done|]. set_solver.
Qed.

(** pbuf_cat on two packets: one packet whose bytes are those of the first
    followed by those of the second. *)
Lemma pbuf_cat_run h i t l lt :
  packet h (Some i) l -> packet h (Some t) lt -> (forall k, k ∈ l.*1 -> k ∉ lt.*1) ->
  sum_len l + sum_len lt < 65536 ->
  exists h' l', pbuf_cat (Some i) (Some t) h = Some (tt, h') /\
    packet h' (Some i) (l' ++ lt) /\ chain_data h' l' = chain_data h l /\ l'.*1 = l.*1 /\
    h_mem h' = h_mem h /\ h_next h' = h_next h /\
    (forall k, k ∉ l.*1 -> h_pbufs h' !! k = h_pbufs h !! k).
Proof.
  intros Hp Ht Hdis Hs. pose proof (packet_Some_inv _ _ _ Ht) as (bt & rt & Hlt).
  assert (h_pbufs h !! t = Some bt /\ tot_len bt = sum_len lt /\ t ∈ lt.*1) as (Hbt & Htot & Htin).
  { rewrite Hlt in Ht |- *. apply packet_cons_inv in Ht as (_ & ? & _ & _ & Ht & _).
    split_and!; [done|done|by left]. }
  unfold pbuf_cat. rewrite bind_get.
  apply (pbuf_cat_run_aux t (sum_len lt) bt lt l h i); try done.
  pose proof (packet_fuel _ _ _ Hp). lia.
Qed.

(** ** pbuf_realloc *)

(** Where pbuf_free stops: behind the pbufs nobody else refers to. *)
Lemma ref_split h l :
  Forall (owned h) l -> exists la lb, l = la ++ lb /\ Forall (last_ref h) la /\
    match lb with (_, b) :: _ => u8 (ref b - 1) <> 0 | [] => True end.
Proof.
  induction 1 as [|[i b] l Hb Hl (la & lb & -> & Hla & Hlb)].
  - by exists [], [].
  - destruct Hb as (Hpl & Hm & Hr & _). simpl in *.
    destruct (decide (ref b = 1)) as [E1|E1].
    + exists ((i, b) :: la), lb. split_and!; [done| |done]. by constructor.
    + exists [], ((i, b) :: la ++ lb). split_and!; [done|done|]. ulia.
Qed.

(** Freeing a chain touches nothing outside it. *)
Lemma pbuf_free_frame h i l :
  chain h (Some i) l -> Forall (owned h) l ->
  exists n h', pbuf_free (Some i) h = Some (n, h') /\ h_next h' = h_next h /\
    forall j, j ∉ l.*1 -> h_pbufs h' !! j = h_pbufs h !! j /\ h_mem h' !! j = h_mem h !! j.
Proof.
  intros Hc Ho. destruct (ref_split _ _ Ho) as (la & lb & -> & Hla & Hlb).
  rewrite (pbuf_free_run h i la lb) by done. eexists _, _. split; [done|].
  assert (forall hh, h_next (unref lb hh) = h_next hh) as Hu by by destruct lb as [|[??]?].
  split; [by rewrite Hu, release_all_next|].
  intros j Hj. rewrite fmap_app, elem_of_app in Hj.
  destruct (release_all_other la h j) as [H1 H2]; [tauto|].
  destruct lb as [|[k b] lb]; simpl; [done|].
  rewrite lookup_insert_ne; [done|]. csimpl in Hj. set_solver.
Qed.

Lemma mem_trim_run h q bs n :
  h_mem h !! q = Some bs -> n <= lenZ bs ->
  mem_trim q n h = Some (tt, set_mem (<[q := slice bs 0 n]> (h_mem h)) h).
Proof. intros H Hn. unfold mem_trim. by rewrite H, (proj2 (Z.leb_le _ _) Hn). Qed.

(** The trimming step of pbuf_realloc_cut: the block of [q] may lose bytes
    behind the first [rem] of the payload. *)
Lemma realloc_trim_run h q b rem :
  h_pbufs h !! q = Some b -> owned h (q, b) -> payload_ok h b -> 0 <= rem <= len b ->
  len b < 65536 ->
  exists h', (if pbuf_match_allocsrc b PBUF_TYPE_ALLOC_SRC_MASK_STD_HEAP
      && negb (rem =? len b) && (Z.land (flags b) PBUF_FLAG_IS_CUSTOM =? 0)
     then match payload b with
          | Some (Ptr blk o) => if decide (blk = q) then mem_trim q (u32 (o + rem)) else stuck
          | None => stuck
          end
     else mret tt : M heap unit) h = Some (tt, h') /\
    h_pbufs h' = h_pbufs h /\ h_next h' = h_next h /\
    (forall j, j <> q -> h_mem h' !! j = h_mem h !! j) /\ is_Some (h_mem h' !! q) /\
    let b' := set_tot_len rem (set_len rem b) in
    payload_ok h' b' /\ pdata h' b' = take (Z.to_nat rem) (pdata h b).
Proof.
  intros Hq ([Hfl Hsrc] & [bs Hbs] & Href & (o & Hpl & Ho)) Hok Hrem Hlen. simpl in *.
  assert (o + len b <= lenZ bs \/ len b = 0) as Hin.
  { destruct Hok as [?|(blk & o' & bs' & E1 & E2 & ? & ?)]; [by right|left].
    rewrite Hpl in E1. simplify_eq. done. }
  destruct (pbuf_match_allocsrc b _ && negb (rem =? len b) && _) eqn:Ec; rewrite ?Hpl.
  - b2p. rewrite decide_True by done. rewrite u32_small by lia.
    rewrite (mem_trim_run _ _ bs) by (done || lia). eexists. split; [done|].
    split_and!; simpl; try done.
    + intros. by rewrite lookup_insert_ne.
    + rewrite lookup_insert_eq. eauto.
    + right. exists q, o, (slice bs 0 (o + rem)). simpl. rewrite lookup_insert_eq.
      split_and!; try done; try lia. rewrite length_slice; lia.
    + unfold pdata. simpl. rewrite Hpl, lookup_insert_eq, Hbs. simpl.
      rewrite slice_slice by lia. unfold slice. rewrite take_take. f_equal. lia.
  - exists h. split; [done|]. split_and!; try done.
    + destruct Hok as [Hz|(blk & o' & bs' & E1 & E2 & ? & ?)]; [left; simpl; lia|right].
      exists blk, o', bs'. simpl. split_and!; try done. lia.
    + unfold pdata. simpl. rewrite Hpl, Hbs. simpl. unfold slice. rewrite take_take. f_equal. lia.
Qed.

Lemma owned_frame h h' i b :
  h_mem h' !! i = h_mem h !! i -> owned h (i, b) -> owned h' (i, b).
Proof.
  intros Hm (Hp & Hs & Hr & Ho). split; [exact Hp|]. split; [|split; [exact Hr|exact Ho]].
  simpl in *. by rewrite Hm.
Qed.

Lemma realloc_cut_run h q b l rem :
  packet h (Some q) ((q, b) :: l) -> Forall (owned h) ((q, b) :: l) -> 0 <= rem <= len b ->
  exists h' b', pbuf_realloc_cut q rem h = Some (tt, h') /\
    packet h' (Some q) [(q, b')] /\ chain_data h' [(q, b')] = take (Z.to_nat rem) (pdata h b) /\
    h_next h' = h_next h /\
    (forall j, j ∉ ((q, b) :: l).*1 -> h_pbufs h' !! j = h_pbufs h !! j /\ h_mem h' !! j = h_mem h !! j).
Proof.
  intros Hp Ho Hrem. apply Forall_cons in Ho as [Hoq Hol].
  pose proof (packet_NoDup _ _ _ Hp) as [Hql _]%NoDup_cons.
  pose proof (packet_cons_inv _ _ _ _ _ Hp) as (_ & Hq & Hr & ? & Ht & Hok & ? & ?).
  unfold pbuf_realloc_cut. mrun (get_pbuf_run _ _ _ Hq).
  destruct (realloc_trim_run h q b rem Hq Hoq Hok Hrem ltac:(lia))
    as (h1 & Htrim & Epb & Enx & Hfr & Hmq & Hok1 & Hd1).
  mrun Htrim. clear Htrim. set (b1 := set_tot_len rem (set_len rem b)) in *.
  rewrite <- Epb in Hq. rewrite (bind_run _ _ _ _ _ (upd_pbuf_run _ _ _ _ Hq)). cbv beta.
  change (set_tot_len rem (set_len rem b)) with b1.
  set (h2 := set_pbufs (<[q := b1]> (h_pbufs h1)) h1).
  assert (chain h2 (next b) l) as Hc2.
  { eapply chain_ext; [|exact (packet_chain _ _ _ Hr)]. intros j c Hj. simpl.
    rewrite lookup_insert_ne, Epb; [exact (chain_lookup _ _ _ _ _ (packet_chain _ _ _ Hr) Hj)|].
    intros ->. apply Hql, list_elem_of_fmap. by exists (j, c). }
  assert (Forall (owned h2) l) as Hol2.
  { rewrite Forall_forall in Hol |- *. intros [j c] Hj.
    apply (owned_frame h); [|by apply Hol]. simpl. apply Hfr.
    intros ->. apply Hql, list_elem_of_fmap. by exists (q, c). }
  assert (exists h3, (match next b with
      | Some n => pbuf_free (Some n);; mret tt | None => mret tt end) h2 = Some (tt, h3) /\
      h_next h3 = h_next h2 /\
      (forall j, j ∉ l.*1 -> h_pbufs h3 !! j = h_pbufs h2 !! j /\ h_mem h3 !! j = h_mem h2 !! j))
    as (h3 & Hfree & Enx3 & Hfr3).
  { destruct (next b) as [n|]; [|by exists h2].
    destruct (pbuf_free_frame h2 n l Hc2 Hol2) as (cnt & h3 & Hrun & Enx3 & Hfr3).
    exists h3. by mrun Hrun. }
  mrun Hfree. destruct (Hfr3 q Hql) as [Hpq Hmq3].
  assert (h_pbufs h3 !! q = Some b1) as Hq3 by (rewrite Hpq; simpl; by rewrite lookup_insert_eq).
  rewrite (upd_pbuf_run _ _ _ _ Hq3). eexists _, (set_next None b1). split; [done|].
  assert (payload b1 = payload b) as Hplb by done.
  destruct Hoq as (_ & _ & _ & (o & Hpl & _)). simpl in Hpl.
  split_and!.
  - apply packet_cons; simpl; try lia; [by rewrite lookup_insert_eq|apply packet_nil|].
    destruct Hok1 as [Hz|(blk & o' & bs' & E1 & E2 & ? & ?)]; [by left|right].
    exists blk, o', bs'. rewrite Hplb, Hpl in E1. simplify_eq. simpl.
    split_and!; try done. by rewrite Hmq3.
  - rewrite chain_data_cons, <- Hd1. unfold chain_data. simpl. rewrite app_nil_r.
    unfold pdata. simpl. rewrite Hpl. by rewrite Hmq3.
  - simpl. by rewrite Enx3.
  - intros j Hj. csimpl in Hj. simpl. rewrite lookup_insert_ne by set_solver.
    destruct (Hfr3 j) as [-> ->]; [set_solver|]. simpl.
    rewrite lookup_insert_ne, Epb by set_solver. split; [done|]. apply Hfr. set_solver.
Qed.

Lemma realloc_run_aux l : forall h p rem fuel,
  packet h (Some p) l -> Forall (owned h) l -> 0 <= rem -> rem <= sum_len l ->
  (length l <= fuel)%nat ->
  exists h' l', (pbuf_realloc_loop fuel (Some p) rem (sum_len l - rem) ≫=
      (fun '(q, rem_len) => pbuf_realloc_cut q rem_len)) h = Some (tt, h') /\
    packet h' (Some p) l' /\ chain_data h' l' = take (Z.to_nat rem) (chain_data h l) /\
    h_next h' = h_next h /\
    (forall j, j ∉ l.*1 -> h_pbufs h' !! j = h_pbufs h !! j /\ h_mem h' !! j = h_mem h !! j).
Proof.
  induction l as [|[i b] l IH]; intros h p rem fuel Hp Ho Hrem Hle Hf.
  { by apply packet_Some_inv in Hp as (?&?&?). }
  pose proof (packet_NoDup _ _ _ Hp) as [Hil _]%NoDup_cons.
  pose proof (packet_cons_inv _ _ _ _ _ Hp) as ([= ->] & Hi & Hr & ? & Ht & Hok & ? & ?).
  pose proof (length_pdata h b ltac:(lia) Hok) as Hlen.
  destruct fuel as [|fuel]; [simpl in Hf; lia|]. cbn [pbuf_realloc_loop].
  rewrite bind_assoc. mrun (deref_run _ _ _ Hi). rewrite sum_len_cons in *.
  destruct (len b <? rem) eqn:Elen; b2p.
  - rewrite bind_assoc. rewrite (bind_run _ _ _ _ _ (upd_pbuf_run _ _ _ _ Hi)). cbv beta.
    rewrite (u16_small (rem - len b)), (u16_small (tot_len b - _)) by lia.
    set (b1 := set_tot_len (tot_len b - (len b + sum_len l - rem)) b).
    set (h1 := set_pbufs (<[i := b1]> (h_pbufs h)) h).
    apply Forall_cons in Ho as [Hoi Ho].
    assert (exists n, next b = Some n) as [n Hn].
    { destruct (next b); [eauto|]. apply packet_None in Hr as ->. simpl in *. lia. }
    rewrite Hn in *.
    destruct (IH h1 n (rem - len b) fuel) as (h2 & l2 & Hrun & Hp2 & Hd2 & Hn2 & Hfr2).
    + apply (packet_frame_pbufs h); [|done|done]. intros j Hj. simpl.
      apply lookup_insert_ne. by intros ->.
    + exact Ho.
    + lia.
    + lia.
    + simpl in Hf. lia.
    + replace (sum_len l - (rem - len b)) with (len b + sum_len l - rem) in Hrun by lia.
      destruct (Hfr2 i Hil) as [Hpi Hmi].
      exists h2, ((i, b1) :: l2). split; [exact Hrun|].
      pose proof (length_chain_data _ _ _ Hr) as Hlr.
      assert (sum_len l2 = rem - len b) as Hs2.
      { rewrite <- (length_chain_data _ _ _ Hp2), Hd2, length_take.
        rewrite (chain_data_mem h h1) by done. lia. }
      assert (pdata h2 b1 = pdata h b) as Hdb.
      { destruct Hoi as (_ & _ & _ & (o & Hpl & _)). simpl in Hpl.
        unfold pdata. simpl. rewrite Hpl. by rewrite Hmi. }
      split_and!.
      * apply packet_cons; simpl; try lia.
        -- rewrite Hpi. simpl. by rewrite lookup_insert_eq.
        -- by rewrite Hn.
        -- destruct Hok as [Hz|(blk & o' & bs' & E1 & E2 & ? & ?)]; [by left|right].
           exists blk, o', bs'. split_and!; try done.
           destruct Hoi as (_ & _ & _ & (o & Hpl & _)). simpl in Hpl. simplify_eq. by rewrite Hmi.
      * rewrite !chain_data_cons, Hd2, Hdb, (chain_data_mem h h1) by done.
        rewrite take_app_ge by lia. do 2 f_equal. lia.
      * exact Hn2.
      * intros j Hj. csimpl in Hj. destruct (Hfr2 j) as [-> ->]; [set_solver|]. simpl.
        rewrite lookup_insert_ne by set_solver. done.
  - rewrite bind_ret.
    destruct (realloc_cut_run h i b l rem Hp Ho ltac:(lia)) as (h' & b' & Hrun & Hp' & Hd' & Hn' & Hfr').
    exists h', [(i, b')]. split; [exact Hrun|]. split_and!; try done.
    rewrite Hd', chain_data_cons, take_app_le by lia. done.
Qed.

(** pbuf_realloc shortens a packet to its first [n] bytes. *)
Lemma pbuf_realloc_run h i l n :
  packet h (Some i) l -> Forall (owned h) l -> 0 <= n ->
  exists h' l', pbuf_realloc (Some i) n h = Some (tt, h') /\
    packet h' (Some i) l' /\ chain_data h' l' = take (Z.to_nat n) (chain_data h l) /\
    (forall j, j ∉ l.*1 -> h_pbufs h' !! j = h_pbufs h !! j /\ h_mem h' !! j = h_mem h !! j).
Proof.
  intros Hp Ho Hn. pose proof (packet_Some_inv _ _ _ Hp) as (b & r & Hl).
  assert (h_pbufs h !! i = Some b /\ tot_len b = sum_len l) as [Hi Ht].
  { rewrite Hl in Hp |- *. by apply packet_cons_inv in Hp as (_ & ? & _ & _ & ? & _). }
  unfold pbuf_realloc. mrun (deref_run _ _ _ Hi). rewrite Ht.
  pose proof (length_chain_data _ _ _ Hp) as Hlen.
  destruct (sum_len l <=? n) eqn:E1; b2p.
  - exists h, l. split_and!; try done. rewrite take_ge by lia. done.
  - pose proof (packet_small _ _ _ Hp). rewrite u16_small by lia. rewrite bind_get.
    destruct (realloc_run_aux l h i n (chain_fuel h) Hp Ho Hn ltac:(lia)) as (h' & l' & Hrun & ? & ? & _ & ?).
    { pose proof (packet_fuel _ _ _ Hp). lia. }
    exists h', l'. done.
Qed.

End Chains.
