(* ===== verification/PbufRef.v ===== *)
(** * Packet buffers: the reference-count discipline

    A pointer to a pbuf is either the [next] field of another pbuf or a
    reference some part of the program holds.  [counted h H]: with [H] the list
    of the references held (with repetition), every pbuf's [ref] is the number
    of pointers to it, and every pointer leads to a live pbuf.  Every operation
    that takes or gives up references keeps this, so a program that frees each
    reference it holds once neither frees twice, nor uses a freed pbuf, nor
    loses one. *)
From S2P Require Import Prelude Pbuf PbufFacts PbufWrite PbufAlloc PbufPool.

Definition holds (H : list positive) (i : positive) : nat := length (filter (eq i) H).

Notation points_to i := (fun jb : positive * pbuf => next jb.2 = Some i).
Definition links (m : gmap positive pbuf) (i : positive) : nat := size (filter (points_to i) m).

Record counted (h : heap) (H : list positive) : Prop := {
  counted_held i : i ∈ H -> is_Some (h_pbufs h !! i);
  counted_plain i b : h_pbufs h !! i = Some b -> plain b /\ is_Some (h_mem h !! i);
  counted_chain i b : h_pbufs h !! i = Some b -> exists l, chain h (Some i) l;
  counted_ref i b : h_pbufs h !! i = Some b ->
    ref b = Z.of_nat (links (h_pbufs h) i + holds H i) /\ 1 <= ref b < 256;
}.

(** The order of the references does not matter. *)
#[export] Instance counted_proper h : Proper ((≡ₚ) ==> iff) (counted h).
Proof.
  intros H H' Hp. split; intros [Hh Hpl Hc Hr]; split; try done;
    try (intros i Hi; apply Hh; by rewrite Hp in Hi || rewrite <- Hp in Hi);
    intros i b Hi; specialize (Hr i b Hi); unfold holds in *; by rewrite Hp in Hr || rewrite <- Hp in Hr.
Qed.

Lemma holds_cons i j H : holds (j :: H) i = ((if decide (i = j) then 1 else 0) + holds H i)%nat.
Proof. unfold holds. rewrite filter_cons. by case_decide. Qed.

Lemma holds_app H H' i : holds (H ++ H') i = (holds H i + holds H' i)%nat.
Proof. unfold holds. by rewrite filter_app, length_app. Qed.
Lemma holds_elem H i : i ∈ H -> (1 <= holds H i)%nat.
Proof.
  induction H as [|j H IH]; [by intros ?%not_elem_of_nil|]. rewrite holds_cons, elem_of_cons.
  case_decide; [lia|]. intros [?|?]; [done|]. by apply IH.
Qed.

(** ** Links *)

Lemma links_insert_fresh m j b i :
  m !! j = None -> links (<[j := b]> m) i = ((if decide (next b = Some i) then 1 else 0) + links m i)%nat.
Proof.
  intros Hj. unfold links. case_decide as Hn.
  - rewrite map_filter_insert_True by done. rewrite map_size_insert_None; [done|].
    by apply map_lookup_filter_None_2; left.
  - rewrite map_filter_insert_False by done. by rewrite delete_id.
Qed.

Lemma links_lookup m j b i :
  m !! j = Some b ->
  links m i = ((if decide (next b = Some i) then 1 else 0) + links (delete j m) i)%nat.
Proof.
  intros Hj. rewrite <- (insert_delete_id m j b) at 1 by done.
  apply links_insert_fresh, lookup_delete_eq.
Qed.

Lemma links_insert m j b b' i :
  m !! j = Some b ->
  (links (<[j := b']> m) i + (if decide (next b = Some i) then 1 else 0) =
   links m i + (if decide (next b' = Some i) then 1 else 0))%nat.
Proof.
  intros Hj. rewrite (links_lookup m j b i Hj).
  rewrite (links_lookup (<[j := b']> m) j b' i) by apply lookup_insert_eq.
  rewrite delete_insert_eq. lia.
Qed.

Lemma links_same_next m j b b' i :
  m !! j = Some b -> next b' = next b -> links (<[j := b']> m) i = links m i.
Proof. intros Hj Hn. pose proof (links_insert m j b b' i Hj) as Hl. rewrite Hn in Hl. lia. Qed.

Lemma links_0 m i : links m i = O <-> forall j b, m !! j = Some b -> next b <> Some i.
Proof.
  unfold links. rewrite map_size_empty_iff, map_empty. split.
  - intros Hm j b Hj Hn. specialize (Hm j). apply map_lookup_filter_None in Hm as [Hm|Hm].
    + congruence.
    + by eapply Hm.
  - intros Hm j. apply map_lookup_filter_None. right. intros b Hj. by apply Hm with j.
Qed.

(** ** Chains under changes that keep the links *)

Lemma chain_avoid h h' p l :
  chain h p l -> (forall i b, (i, b) ∈ l -> exists b', h_pbufs h' !! i = Some b' /\ next b' = next b) ->
  exists l', chain h' p l' /\ l'.*1 = l.*1.
Proof.
  induction 1 as [|i b l Hi Hc IH]; intros Hs.
  - exists []. split; [constructor|done].
  - destruct (Hs i b ltac:(apply elem_of_cons; by left)) as (b' & Hb' & Hn).
    destruct IH as (l' & Hl' & Hf).
    { intros k c Hk. apply Hs. apply elem_of_cons. by right. }
    exists ((i, b') :: l'). split; [|csimpl; by rewrite Hf].
    constructor; [done|]. by rewrite Hn.
Qed.

(** Nobody points to [i]: [i] is on no chain but its own. *)
Lemma chain_unlinked h i p l :
  links (h_pbufs h) i = O -> p <> Some i -> chain h p l -> i ∉ l.*1.
Proof.
  intros H0 Hp Hc. induction Hc as [|j b l Hj Hc IH]; [apply not_elem_of_nil|].
  csimpl. apply not_elem_of_cons. split; [congruence|]. apply IH.
  rewrite links_0 in H0. by apply H0 with j.
Qed.

Lemma counted_live h H i : counted h H -> i ∈ H -> exists b, h_pbufs h !! i = Some b.
Proof. intros Hc Hi. exact (counted_held _ _ Hc i Hi). Qed.

Section Ref.
Context {E : PbufEnv}.

(** ** pbuf_free *)

(** One round of the loop on a reference [i] that is not the last pointer. *)
Lemma counted_drop h H i b :
  counted h (i :: H) -> h_pbufs h !! i = Some b -> ref b <> 1 ->
  counted (set_pbufs (<[i := set_ref (ref b - 1) b]> (h_pbufs h)) h) H.
Proof.
  intros [Hh Hpl Hc Hr] Hi Hne.
  pose proof (Hr i b Hi) as [Hri ?]. rewrite holds_cons, decide_True in Hri by done.
  split; simpl.
  - intros j Hj. rewrite lookup_insert. case_decide; [done|]. apply Hh, elem_of_cons. by right.
  - intros j c. rewrite lookup_insert. case_decide as Hd.
    + subst. intros [= <-]. by apply (Hpl j b).
    + apply Hpl.
  - intros j c Hj. assert (exists c0, h_pbufs h !! j = Some c0) as [c0 Hc0].
    { rewrite lookup_insert in Hj. case_decide; [subst; by exists b|by exists c]. }
    destruct (Hc j c0 Hc0) as [l Hl].
    apply chain_avoid with (h' := set_pbufs (<[i := set_ref (ref b - 1) b]> (h_pbufs h)) h) in Hl
      as (l' & Hl' & _); [by exists l'|].
    intros k d Hk. apply (chain_lookup _ _ _ _ _ Hl) in Hk. simpl. rewrite lookup_insert.
    case_decide as Hd; [|by exists d]. subst. rewrite Hk in Hi. injection Hi as <-. by eexists.
  - intros j c. rewrite (links_same_next _ i b _ j Hi) by done. rewrite lookup_insert. case_decide as Hd.
    + subst. intros [= <-]. simpl. lia.
    + intros Hj. destruct (Hr j c Hj) as [Hrj ?]. rewrite holds_cons, decide_False in Hrj by congruence. done.
Qed.

(** And on one that is: the pbuf goes, and its [next] becomes a reference. *)
Lemma counted_release h H i b :
  counted h (i :: H) -> h_pbufs h !! i = Some b -> ref b = 1 ->
  last_ref h (i, b) /\ counted (release h (i, b)) (option_list (next b) ++ H).
Proof.
  intros Hco Hi H1. pose proof Hco as [Hh Hpl Hc Hr].
  destruct (Hpl i b Hi) as [Hp Hm]. split; [done|].
  pose proof (Hr i b Hi) as [Hri _]. rewrite holds_cons, decide_True in Hri by done.
  assert (links (h_pbufs h) i = O) as H0 by lia.
  assert (i ∉ H) as HiH by (intros Hin; apply holds_elem in Hin; lia).
  assert (forall j, next b = Some j -> j <> i /\ is_Some (h_pbufs h !! j)) as Hnx.
  { intros j Hj. split.
    - intros ->. rewrite links_0 in H0. by apply (H0 i b).
    - destruct (Hc i b Hi) as [l Hl]. apply chain_inv in Hl as (b' & r & -> & Hb' & Hl).
      rewrite Hi in Hb'. injection Hb' as <-. rewrite Hj in Hl. apply chain_inv in Hl as (c & ? & ? & ? & ?).
      by exists c. }
  split; simpl.
  - intros j [Hj|Hj]%elem_of_app.
    + destruct (next b) as [k|]; simpl in Hj; [|by apply not_elem_of_nil in Hj].
      apply list_elem_of_singleton in Hj as ->. destruct (Hnx k eq_refl). by rewrite lookup_delete_ne.
    + rewrite lookup_delete_ne by (intros ->; done). apply Hh, elem_of_cons. by right.
  - intros j c [Hji Hj]%lookup_delete_Some. destruct (Hpl j c Hj) as [? ?].
    by rewrite lookup_delete_ne.
  - intros j c [Hji Hj]%lookup_delete_Some. destruct (Hc j c Hj) as [l Hl]. exists l.
    apply chain_ext with h; [|done]. intros k d Hk. simpl. rewrite lookup_delete_ne.
    + by apply (chain_lookup _ _ _ _ _ Hl).
    + intros <-. apply (chain_unlinked h i (Some j) l H0 ltac:(congruence) Hl). apply list_elem_of_fmap. by exists (i, d).
  - intros j c [Hji Hj]%lookup_delete_Some. destruct (Hr j c Hj) as [Hrj ?].
    rewrite holds_cons, decide_False in Hrj by congruence.
    rewrite (links_lookup _ i b j Hi) in Hrj. split; [|done]. rewrite Hrj. f_equal.
    destruct (next b) as [k|] eqn:Hk; simpl.
    + rewrite holds_cons. destruct (decide (j = k)) as [->|].
      * rewrite decide_True by done. lia.
      * rewrite decide_False by congruence. lia.
    + lia.
Qed.

(** What a free leaves of the other pbufs: some are gone, the others differ in
    [ref] only, and their memory is untouched. *)
Definition survives (h h' : heap) : Prop :=
  h_next h' = h_next h /\ (forall i, h_mem h !! i = None -> h_mem h' !! i = None) /\
  forall i b', h_pbufs h' !! i = Some b' ->
    h_mem h' !! i = h_mem h !! i /\
    exists b, h_pbufs h !! i = Some b /\ b' = set_ref (ref b') b /\ ref b' <= ref b.

Lemma set_ref_self b : set_ref (ref b) b = b.
Proof. by destruct b. Qed.
Lemma survives_refl h : survives h h.
Proof. split; [done|]. split; [done|]. intros i b Hi. split; [done|]. exists b. by rewrite set_ref_self. Qed.
Lemma survives_trans h1 h2 h3 : survives h1 h2 -> survives h2 h3 -> survives h1 h3.
Proof.
  intros (Hn1 & Hm1 & H1) (Hn2 & Hm2 & H2). split; [congruence|]. split; [auto|]. intros i b3 Hi.
  destruct (H2 i b3 Hi) as (Hi2 & b2 & Hb2 & E2 & R2). destruct (H1 i b2 Hb2) as (Hi1 & b1 & Hb1 & E1 & R1).
  split; [congruence|]. exists b1. split; [done|]. split; [|lia]. rewrite E2, E1. by destruct b1.
Qed.

Lemma survives_wf h h' : heap_wf h -> survives h h' -> heap_wf h'.
Proof.
  intros Hwf (Hn & Hm & Hs) i Hi. rewrite Hn in Hi. destruct (Hwf i Hi) as [Hp Hmi]. split; [|auto].
  destruct (h_pbufs h' !! i) as [b'|] eqn:Hb'; [|done]. destruct (Hs i b' Hb') as (_ & b & Hb & _). congruence.
Qed.

(** The pool elements in use and the free ones. *)
Definition pool_used (m : gmap positive pbuf) : Z :=
  Z.of_nat (size (filter (fun ib : positive * pbuf => pbuf_get_allocsrc ib.2 = 2) m)).
Definition pool_total (h : heap) : Z := h_pool h + pool_used (h_pbufs h).

Lemma pool_used_delete m i b :
  m !! i = Some b -> pool_used (delete i m) = pool_used m - bool_to_Z (pbuf_get_allocsrc b =? 2).
Proof.
  intros Hi. unfold pool_used. rewrite map_filter_delete.
  destruct (pbuf_get_allocsrc b =? 2) eqn:Es; b2p; simpl.
  - rewrite map_size_delete_Some by (exists b; by apply map_lookup_filter_Some_2).
    assert (size (filter (fun ib : positive * pbuf => pbuf_get_allocsrc ib.2 = 2) m) <> O); [|lia].
    intros Hs. apply map_size_empty_inv in Hs. rewrite map_empty in Hs. specialize (Hs i).
    apply map_lookup_filter_None in Hs as [Hs|Hs]; [congruence|]. by eapply Hs.
  - rewrite delete_id; [lia|]. apply map_lookup_filter_None_2. right. intros ? Hj. simpl. congruence.
Qed.

Lemma pool_used_insert m i b b' :
  m !! i = Some b -> pbuf_get_allocsrc b' = pbuf_get_allocsrc b -> pool_used (<[i := b']> m) = pool_used m.
Proof.
  intros Hi Hs. pose proof (pool_used_delete m i b Hi) as H1.
  pose proof (pool_used_delete (<[i := b']> m) i b' ltac:(apply lookup_insert_eq)) as H2.
  rewrite delete_insert_eq, Hs in H2. lia.
Qed.

Lemma pbuf_free_loop_counted fuel : forall h H p c,
  counted h (option_list p ++ H) -> (size (h_pbufs h) < fuel)%nat ->
  exists c' h', pbuf_free_loop fuel p c h = Some (c', h') /\ counted h' H /\ survives h h' /\
    pool_total h' = pool_total h.
Proof.
  induction fuel as [|fuel IH]; intros h H p c Hco Hf; [lia|].
  destruct p as [i|].
  2:{ exists c, h. split; [done|]. split; [exact Hco|]. split; [apply survives_refl|done]. }
  simpl in Hco. destruct (counted_live _ _ i Hco ltac:(apply elem_of_cons; by left)) as [b Hi].
  destruct (decide (ref b = 1)) as [H1|H1].
  - destruct (counted_release _ _ _ _ Hco Hi H1) as [Hlr Hco'].
    rewrite (pbuf_free_loop_step h i b fuel c Hi Hlr).
    destruct (IH (release h (i, b)) H (next b) (u8 (c + 1)) Hco') as (c' & h' & Hrun & Hco2 & Hs & Hpt).
    { simpl. rewrite (map_size_delete_Some i (h_pbufs h)) by done. pose proof (map_size_ne_0_lookup_2 (h_pbufs h) i). assert (size (h_pbufs h) <> O) by eauto. lia. }
    exists c', h'. split; [done|]. split; [done|]. split.
    + eapply survives_trans; [|exact Hs]. split; [done|].
      split; [intros j Hj; by apply lookup_delete_None; right|]. simpl. intros j b' [Hji Hj]%lookup_delete_Some.
      rewrite lookup_delete_ne by done. split; [done|]. exists b'. by rewrite set_ref_self.
    + rewrite Hpt. unfold pool_total. simpl. rewrite (pool_used_delete _ i b) by done. lia.
  - pose proof (counted_ref _ _ Hco i b Hi) as [_ Hrb].
    cbn [pbuf_free_loop]. mrun (get_pbuf_run _ _ _ Hi).
    rewrite u8_small by lia. mrun (upd_pbuf_run _ _ _ (set_ref (ref b - 1)) Hi).
    rewrite (proj2 (Z.eqb_neq (ref b - 1) 0)) by lia.
    exists c, (set_pbufs (<[i := set_ref (ref b - 1) b]> (h_pbufs h)) h).
    split; [by destruct fuel|]. split; [by apply counted_drop|]. split.
    + split; [done|]. split; [done|]. simpl. intros j b'. rewrite lookup_insert. case_decide as Hd.
      * subst. intros [= <-]. split; [done|]. exists b. simpl. split; [done|]. split; [done|lia].
      * intros Hj. split; [done|]. exists b'. by rewrite set_ref_self.
    + unfold pool_total. simpl. by rewrite (pool_used_insert _ i b).
Qed.

Lemma pbuf_free_counted h H i :
  counted h (i :: H) ->
  exists c h', pbuf_free (Some i) h = Some (c, h') /\ counted h' H /\ survives h h' /\
    pool_total h' = pool_total h.
Proof.
  intros Hco. unfold pbuf_free. rewrite bind_get.
  apply (pbuf_free_loop_counted (chain_fuel h) h H (Some i) 0); [done|]. unfold chain_fuel. lia.
Qed.

(** pbuf_free over a list of references: the loops that flush a queue. *)
Fixpoint free_all (l : list positive) : M heap unit :=
  match l with [] => mret tt | p :: l => pbuf_free (Some p);; free_all l end.

Lemma free_all_counted l : forall h H,
  counted h (l ++ H) ->
  exists h', free_all l h = Some (tt, h') /\ counted h' H /\ survives h h' /\ pool_total h' = pool_total h.
Proof.
  induction l as [|p l IH]; intros h H Hco; [exists h; by eauto using survives_refl|].
  destruct (pbuf_free_counted h (l ++ H) p Hco) as (c & h1 & Hr1 & Hco1 & Hs1 & Hp1).
  destruct (IH h1 H Hco1) as (h' & Hr & Hco' & Hs & Hp).
  exists h'. split; [by cbn [free_all]; mrun Hr1|]. split; [done|].
  split; [by eapply survives_trans|congruence].
Qed.

(** No reference left: no pbuf left. *)
Lemma counted_nil h : counted h [] -> h_pbufs h = ∅.
Proof.
  intros [_ _ Hc Hr]. apply map_empty. intros i. destruct (h_pbufs h !! i) as [b|] eqn:Hi; [|done].
  exfalso. assert (forall n, exists j l, chain h (Some j) l /\ (n < length l)%nat) as Hlong.
  { induction n as [|n (j & l & Hl & Hn)].
    - exists i. destruct (Hc i b Hi) as [l Hl]. exists l. split; [done|].
      apply chain_inv in Hl as (? & ? & -> & _). simpl. lia.
    - destruct l as [|[j' bj] l]; [simpl in Hn; lia|].
      pose proof Hl as Hl'. apply chain_inv' in Hl' as ([= <-] & Hj & _).
      destruct (Hr j bj Hj) as [Hrj ?].
      assert (links (h_pbufs h) j <> O) as Hln by (change (holds [] j) with O in Hrj; lia).
      destruct (map_size_ne_0_lookup_1 _ Hln) as [k [bk Hk]].
      apply map_lookup_filter_Some in Hk as [Hk Hkn]. simpl in Hkn.
      exists k, ((k, bk) :: (j, bj) :: l). split; [|simpl in *; lia].
      constructor; [done|]. by rewrite Hkn. }
  destruct (Hlong (chain_fuel h)) as (j & l & Hl & Hn). pose proof (chain_fuel_enough _ _ _ Hl). lia.
Qed.

(** ** Changes that leave the references alone *)
Definition same_refs (b b' : pbuf) : Prop :=
  next b' = next b /\ ref b' = ref b /\ type_internal b' = type_internal b /\
  Z.land (flags b') PBUF_FLAG_IS_CUSTOM = Z.land (flags b) PBUF_FLAG_IS_CUSTOM.
Definition same_links (h h' : heap) : Prop :=
  forall i, match h_pbufs h !! i, h_pbufs h' !! i with
            | Some b, Some b' => same_refs b b' /\ (is_Some (h_mem h !! i) -> is_Some (h_mem h' !! i))
            | None, None => True
            | _, _ => False
            end.

Lemma same_links_refl h : same_links h h.
Proof. intros i. by destruct (h_pbufs h !! i). Qed.
Lemma same_links_trans h1 h2 h3 : same_links h1 h2 -> same_links h2 h3 -> same_links h1 h3.
Proof.
  intros H1 H2 i. specialize (H1 i). specialize (H2 i).
  destruct (h_pbufs h1 !! i), (h_pbufs h2 !! i), (h_pbufs h3 !! i); try done.
  unfold same_refs in *. destruct H1 as [(? & ? & ? & ?) ?], H2 as [(? & ? & ? & ?) ?].
  split; [split_and!; congruence|auto].
Qed.

Lemma same_links_upd h i b b' :
  h_pbufs h !! i = Some b -> same_refs b b' -> same_links h (set_pbufs (<[i := b']> (h_pbufs h)) h).
Proof.
  intros Hi Hs j. simpl. rewrite lookup_insert. case_decide; subst.
  - rewrite Hi. done.
  - by destruct (h_pbufs h !! j).
Qed.

Lemma same_links_size (P : positive * pbuf -> Prop) `{!forall ib, Decision (P ib)} h h' :
  (forall i b b', same_refs b b' -> P (i, b) <-> P (i, b')) -> same_links h h' ->
  size (filter P (h_pbufs h')) = size (filter P (h_pbufs h)).
Proof.
  intros HP Hs.
  assert (forall m1 m2 : gmap positive pbuf,
    (forall j, is_Some (m1 !! j) -> is_Some (m2 !! j)) -> (size m1 <= size m2)%nat) as Hle.
  { intros m1 m2 Hd. rewrite <- !size_dom. apply subseteq_size. intros j. rewrite !elem_of_dom. apply Hd. }
  apply Nat.le_antisymm; apply Hle; intros j [b Hj]; apply map_lookup_filter_Some in Hj as [Hj Hn];
    simpl in Hn; specialize (Hs j); rewrite Hj in Hs.
  - destruct (h_pbufs h !! j) as [c|] eqn:Hc; [|done]. destruct Hs as [Hs _].
    exists c. apply map_lookup_filter_Some_2; [done|]. by apply (HP _ _ _ Hs).
  - destruct (h_pbufs h' !! j) as [c|] eqn:Hc; [|done]. destruct Hs as [Hs _].
    exists c. apply map_lookup_filter_Some_2; [done|]. by apply (HP _ _ _ Hs).
Qed.

Lemma same_links_links h h' i : same_links h h' -> links (h_pbufs h') i = links (h_pbufs h) i.
Proof.
  intros Hs. unfold links. apply (same_links_size (points_to i)); [|done].
  intros j b b' (Hn & _). simpl. by rewrite Hn.
Qed.

Lemma same_links_pool h h' : same_links h h' -> h_pool h' = h_pool h -> pool_total h' = pool_total h.
Proof.
  intros Hs Hp. unfold pool_total, pool_used. rewrite Hp. do 2 f_equal.
  apply (same_links_size (fun ib => pbuf_get_allocsrc ib.2 = 2)); [|done].
  intros i b b' (_ & _ & Ht & _). simpl. unfold pbuf_get_allocsrc. by rewrite Ht.
Qed.

Lemma same_links_lookup h h' i b' :
  same_links h h' -> h_pbufs h' !! i = Some b' ->
  exists b, h_pbufs h !! i = Some b /\ same_refs b b' /\ (is_Some (h_mem h !! i) -> is_Some (h_mem h' !! i)).
Proof.
  intros Hs Hi. specialize (Hs i). rewrite Hi in Hs. destruct (h_pbufs h !! i) as [b|]; [|done].
  exists b. split; [done|]. by destruct Hs.
Qed.
Lemma same_links_lookup' h h' i b :
  same_links h h' -> h_pbufs h !! i = Some b -> exists b', h_pbufs h' !! i = Some b' /\ same_refs b b'.
Proof.
  intros Hs Hi. specialize (Hs i). rewrite Hi in Hs. destruct (h_pbufs h' !! i) as [b'|]; [|done].
  exists b'. split; [done|]. by destruct Hs.
Qed.

Lemma same_links_chain h h' p l :
  same_links h h' -> chain h p l -> exists l', chain h' p l' /\ l'.*1 = l.*1.
Proof.
  intros Hs Hc. apply chain_avoid with h; [done|]. intros i b Hi.
  apply (chain_lookup _ _ _ _ _ Hc) in Hi. destruct (same_links_lookup' _ _ _ _ Hs Hi) as (b' & ? & ? & _).
  by exists b'.
Qed.

Lemma counted_same h h' H : counted h H -> same_links h h' -> counted h' H.
Proof.
  intros [Hh Hpl Hc Hr] Hs. split.
  - intros i Hi. destruct (Hh i Hi) as [b Hb]. destruct (same_links_lookup' _ _ _ _ Hs Hb) as (b' & ? & _). by exists b'.
  - intros i b' Hi. destruct (same_links_lookup _ _ _ _ Hs Hi) as (b & Hb & (? & ? & Ht & Hf) & Hm).
    destruct (Hpl i b Hb) as [[Hp1 Hp2] ?]. split; [|auto]. unfold plain, pbuf_get_allocsrc in *. by rewrite Hf, Ht.
  - intros i b' Hi. destruct (same_links_lookup _ _ _ _ Hs Hi) as (b & Hb & _). destruct (Hc i b Hb) as [l Hl].
    destruct (same_links_chain _ _ _ _ Hs Hl) as (l' & ? & _). by exists l'.
  - intros i b' Hi. destruct (same_links_lookup _ _ _ _ Hs Hi) as (b & Hb & (? & Hrf & ? & ?) & Hm).
    rewrite (same_links_links _ _ _ Hs), Hrf. by apply Hr.
Qed.

(** Changing a live pbuf keeps the heap well-formed. *)
Lemma upd_wf h i b b' :
  heap_wf h -> h_pbufs h !! i = Some b -> heap_wf (set_pbufs (<[i := b']> (h_pbufs h)) h).
Proof.
  intros Hwf Hi j Hj. destruct (Hwf j Hj) as [Hp Hm]. split; [|done]. simpl.
  rewrite lookup_insert_ne by congruence. done.
Qed.
Lemma upd_pool h i b b' :
  h_pbufs h !! i = Some b -> type_internal b' = type_internal b ->
  pool_total (set_pbufs (<[i := b']> (h_pbufs h)) h) = pool_total h.
Proof.
  intros Hi Ht. unfold pool_total. simpl. rewrite (pool_used_insert _ i b); [done..|].
  unfold pbuf_get_allocsrc. by rewrite Ht.
Qed.

(** The references [H], with [n] pool elements in all. *)
Record good (n : Z) (h : heap) (H : list positive) : Prop := {
  good_counted : counted h H;
  good_wf : heap_wf h;
  good_pool : pool_total h = n;
}.

(** The references after giving up [i]. *)
Fixpoint yields (i : positive) (H : list positive) : list positive :=
  match H with
  | [] => []
  | j :: H => if decide (i = j) then H else j :: yields i H
  end.

Lemma give_up_Permutation i H : i ∈ H -> H ≡ₚ i :: yields i H.
Proof.
  induction H as [|j H IH]; [by intros ?%not_elem_of_nil|]. intros Hi%elem_of_cons. simpl.
  case_decide; [by subst|]. destruct Hi as [?|Hi]; [done|]. rewrite (IH Hi) at 1. apply Permutation_swap.
Qed.

(** ** Taking references *)

Lemma counted_ref_more h H i b :
  counted h H -> h_pbufs h !! i = Some b -> ref b < 255 ->
  counted (set_pbufs (<[i := set_ref (ref b + 1) b]> (h_pbufs h)) h) (i :: H).
Proof.
  intros Hco Hi Hlt. pose proof Hco as [Hh Hpl Hc Hr]. split; simpl.
  - intros j Hj. rewrite lookup_insert. case_decide; [done|]. apply elem_of_cons in Hj as [->|Hj]; [done|auto].
  - intros j c. rewrite lookup_insert. case_decide as Hd; [|apply Hpl].
    subst. intros [= <-]. by apply (Hpl j b).
  - intros j c Hj. assert (exists c0, h_pbufs h !! j = Some c0) as [c0 Hc0].
    { rewrite lookup_insert in Hj. case_decide; [subst; by exists b|by exists c]. }
    destruct (Hc j c0 Hc0) as [l Hl].
    apply chain_avoid with (h' := set_pbufs (<[i := set_ref (ref b + 1) b]> (h_pbufs h)) h) in Hl
      as (l' & Hl' & _); [by exists l'|].
    intros k d Hk. apply (chain_lookup _ _ _ _ _ Hl) in Hk. simpl. rewrite lookup_insert.
    case_decide as Hd; [|by exists d]. subst. rewrite Hk in Hi. injection Hi as <-. by eexists.
  - intros j c. rewrite (links_same_next _ i b _ j Hi) by done. rewrite lookup_insert, holds_cons.
    case_decide as Hd.
    + subst. intros [= <-]. destruct (Hr j b Hi). rewrite decide_True by done. simpl. lia.
    + intros Hj. rewrite decide_False by congruence. by apply Hr.
Qed.

Lemma pbuf_ref_counted h H i b :
  counted h H -> h_pbufs h !! i = Some b -> ref b < 255 ->
  pbuf_ref (Some i) h = Some (tt, set_pbufs (<[i := set_ref (ref b + 1) b]> (h_pbufs h)) h) /\
  counted (set_pbufs (<[i := set_ref (ref b + 1) b]> (h_pbufs h)) h) (i :: H).
Proof.
  intros Hco Hi Hlt. split; [|by apply counted_ref_more].
  unfold pbuf_ref. rewrite (upd_pbuf_run _ _ _ (fun b => set_ref (u8 (ref b + 1)) b) Hi).
  pose proof (counted_ref _ _ Hco i b Hi) as [_ ?]. by rewrite u8_small by lia.
Qed.

Lemma links_dead h H i : counted h H -> h_pbufs h !! i = None -> links (h_pbufs h) i = O /\ holds H i = O.
Proof.
  intros [Hh _ Hc _] Hi. split.
  - apply links_0. intros j b Hj Hn. destruct (Hc j b Hj) as [l Hl].
    apply chain_inv in Hl as (b' & r & -> & Hb' & Hl). rewrite Hj in Hb'. injection Hb' as <-.
    rewrite Hn in Hl. apply chain_inv in Hl as (? & ? & ? & ? & ?). congruence.
  - destruct (holds H i) as [|n] eqn:Hn; [done|]. exfalso.
    assert (i ∈ H) as Hin; [|destruct (Hh i Hin); congruence].
    induction H as [|j H IH]; [done|]. rewrite holds_cons in Hn. apply elem_of_cons. case_decide; [by left|].
    right. apply IH; [|done]. intros k Hk. apply Hh, elem_of_cons. by right.
Qed.

Lemma counted_new h H n b pool rf :
  heap_wf h -> counted h H -> plain b -> next b = None -> ref b = 1 ->
  counted (with_new h n b pool rf) (h_next h :: H).
Proof.
  intros Hwf Hco Hp Hn Hr1. pose proof Hco as [Hh Hpl Hc Hr].
  destruct (Hwf (h_next h) ltac:(lia)) as [Hnp Hnm].
  assert (forall j c, h_pbufs h !! j = Some c -> j <> h_next h) as Hne by (intros j c Hj ->; congruence).
  destruct (links_dead _ _ _ Hco Hnp) as [Hl0 Hh0].
  split; simpl.
  - intros j [->|Hj]%elem_of_cons; [by rewrite lookup_insert_eq|].
    destruct (Hh j Hj) as [c Hc']. rewrite lookup_insert_ne; [by exists c|]. apply Hne in Hc'. congruence.
  - intros j c. rewrite !lookup_insert. case_decide; [|apply Hpl]. intros [= <-]. by split.
  - intros j c. rewrite lookup_insert. case_decide as Hd.
    + subst. intros [= ->]. eexists. econstructor; [simpl; by rewrite lookup_insert_eq|]. rewrite Hn. constructor.
    + intros Hj. destruct (Hc j c Hj) as [l Hl]. exists l. apply chain_ext with h; [|done].
      intros k d Hk. apply (chain_lookup _ _ _ _ _ Hl) in Hk. simpl. rewrite lookup_insert_ne; [done|].
      apply Hne in Hk. congruence.
  - intros j c. rewrite links_insert_fresh by done. rewrite Hn, decide_False by done.
    rewrite lookup_insert, holds_cons. case_decide as Hd.
    + subst. intros [= <-]. rewrite decide_True by done. lia.
    + intros Hj. rewrite decide_False by congruence. by apply Hr.
Qed.

(** Giving a reference to the [next] field of a pbuf that had none. *)
Lemma counted_link h H p b t l :
  counted h (t :: H) -> h_pbufs h !! p = Some b -> next b = None ->
  chain h (Some t) l -> p ∉ l.*1 ->
  counted (set_pbufs (<[p := set_next (Some t) b]> (h_pbufs h)) h) H.
Proof.
  intros Hco Hp Hn Ht Hpl'. pose proof Hco as [Hh Hpl Hc Hr].
  set (h' := set_pbufs (<[p := set_next (Some t) b]> (h_pbufs h)) h).
  assert (chain h' (Some t) l) as Ht'.
  { apply chain_ext with h; [|done]. intros k d Hk. simpl. rewrite lookup_insert_ne.
    - by apply (chain_lookup _ _ _ _ _ Ht).
    - intros <-. apply Hpl', list_elem_of_fmap. by exists (p, d). }
  split; simpl.
  - intros j Hj. rewrite lookup_insert. case_decide; [done|]. apply Hh, elem_of_cons. by right.
  - intros j c. rewrite lookup_insert. case_decide as Hd; [|apply Hpl].
    subst. intros [= <-]. by apply (Hpl j b).
  - intros j c Hj. assert (exists c0, h_pbufs h !! j = Some c0) as [c0 Hc0].
    { rewrite lookup_insert in Hj. case_decide; [subst; by exists b|by exists c]. }
    destruct (Hc j c0 Hc0) as [r Hr0]. clear Hc0 Hj c. revert Hr0. generalize (Some j) as q. intros q Hr0.
    induction Hr0 as [|k d r Hk Hr0 IH]; [by exists []; constructor|]. destruct IH as [l' Hl'].
    destruct (decide (k = p)) as [->|Hkp].
    + exists ((p, set_next (Some t) b) :: l). constructor; [simpl; by rewrite lookup_insert_eq|done].
    + exists ((k, d) :: l'). constructor; [|done]. simpl. by rewrite lookup_insert_ne.
  - intros j c Hj. pose proof (links_insert (h_pbufs h) p b (set_next (Some t) b) j Hp) as Hli.
    rewrite Hn in Hli. rewrite (decide_False (P := None = Some j)) in Hli by done. cbn [next set_next] in Hli.
    assert (exists c0, h_pbufs h !! j = Some c0 /\ ref c0 = ref c) as (c0 & Hc0 & <-).
    { rewrite lookup_insert in Hj. destruct (decide (p = j)); [subst; injection Hj as <-; by exists b|by exists c]. }
    destruct (Hr j c0 Hc0) as [Hrj ?]. split; [|done]. rewrite Hrj, holds_cons.
    destruct (decide (j = t)) as [->|Hd].
    + rewrite decide_True in Hli by done. lia.
    + rewrite (decide_False (P := Some t = Some j)) in Hli by congruence. lia.
Qed.

(** ** Allocation *)
Notation pool_new h rem offset :=
  (with_new h (SIZEOF_STRUCT_PBUF + PBUF_POOL_BUFSIZE_ALIGNED) (pool_pbuf (h_next h) rem offset) 1 0).

Lemma pool_used_new m i b :
  m !! i = None -> pool_used (<[i := b]> m) = pool_used m + bool_to_Z (pbuf_get_allocsrc b =? 2).
Proof.
  intros Hi. pose proof (pool_used_delete (<[i := b]> m) i b ltac:(apply lookup_insert_eq)) as H1.
  rewrite delete_insert_id in H1 by done. lia.
Qed.

(** A partial chain under construction: its last pbuf has no successor. *)
Definition open_end (p last : option positive) (h : heap) : Prop :=
  match p with
  | Some _ => exists l b, last = Some l /\ h_pbufs h !! l = Some b /\ next b = None
  | None => True
  end.

Lemma counted_pool_step h H p last rem offset :
  heap_wf h -> counted h (option_list p ++ H) -> open_end p last h ->
  let q := h_next h in
  let h1 := link_last p last q (pool_new h rem offset) in
  counted h1 (default q p :: H) /\ open_end (Some (default q p)) (Some q) h1 /\
  heap_wf h1 /\ pool_total h1 = pool_total h /\ last_ok p last h.
Proof.
  intros Hwf Hco Ho q h1. destruct (Hwf q ltac:(unfold q; lia)) as [Hq _].
  assert (counted (pool_new h rem offset) (q :: option_list p ++ H)) as Hn by by apply counted_new.
  assert (pool_total (pool_new h rem offset) = pool_total h) as Hpt.
  { unfold pool_total. simpl. rewrite pool_used_new by done. simpl. lia. }
  destruct p as [p|]; simpl in Ho.
  - destruct Ho as (l & b & -> & Hb & Hnb).
    assert (l <> q) as Hlq by (intros ->; congruence).
    assert (h_pbufs (pool_new h rem offset) !! l = Some b) as Hb' by (simpl; by rewrite lookup_insert_ne by done).
    assert (last_ok (Some p) (Some l) h) as Hlast.
    { exists l. split; [done|]. split; [by exists b|].
      destruct (decide (l < h_next h)%positive); [done|]. destruct (Hwf l ltac:(lia)). congruence. }
    assert (h1 = set_pbufs (<[l := set_next (Some q) b]> (h_pbufs (pool_new h rem offset)))
                   (pool_new h rem offset)) as Eh1.
    { unfold h1, link_last, set_pbufs. f_equal. apply map_eq. intros j.
      rewrite lookup_insert, lookup_alter. case_decide; [by subst; rewrite Hb'|done]. }
    split.
    + rewrite Eh1. eapply counted_link with (l := [(q, pool_pbuf q rem offset)]); [exact Hn|done|done| |].
      * constructor; [apply lookup_insert_eq|constructor].
      * by intros ->%list_elem_of_singleton.
    + split; [|split; [|split; [|done]]].
      * exists q, (pool_pbuf q rem offset). split; [done|]. split; [|done]. rewrite Eh1. simpl.
        rewrite lookup_insert_ne by done. apply lookup_insert_eq.
      * apply link_last_wf; [by apply with_new_wf|by apply last_ok_new].
      * rewrite <- Hpt, Eh1. unfold pool_total. simpl. by rewrite (pool_used_insert _ l b) by done.
  - split; [done|]. split; [|split; [by apply with_new_wf|done]].
    exists q, (pool_pbuf q rem offset). split; [done|]. split; [|done]. apply lookup_insert_eq.
Qed.

(** The loop keeps whatever [I] says of the heap, if a free and a new element
    keep it. *)
Lemma pool_loop_inv (I : heap -> Prop) (H : list positive) :
  (forall h h', h_pbufs h' = h_pbufs h -> h_mem h' = h_mem h -> I h -> I h') ->
  (forall h h', survives h h' -> counted h' H -> I h -> I h') ->
  (forall h p last rem offset, heap_wf h -> I h -> 0 <= rem -> 0 <= offset <= 64 ->
     I (link_last p last (h_next h) (pool_new h rem offset))) ->
  forall fuel h p last rem offset,
  heap_wf h -> counted h (option_list p ++ H) -> open_end p last h -> I h ->
  0 <= rem < 65536 -> 0 <= offset <= 64 -> (Z.to_nat rem < fuel)%nat ->
  exists r h', pbuf_alloc_pool_loop fuel p last rem offset h = Some (r, h') /\
    counted h' (option_list r ++ H) /\ heap_wf h' /\ pool_total h' = pool_total h /\ I h'.
Proof.
  intros Ieq Ifree Inew.
  induction fuel as [|fuel IH]; intros h p last rem offset Hwf Hco Ho HI Hrem Hoff Hf; [lia|].
  destruct (decide (h_pool h = 0)) as [H0|H0].
  - cbn [pbuf_alloc_pool_loop]. unfold memp_malloc_pool. unfold mbind at 1, M_bind at 1. rewrite H0. cbn [Z.eqb].
    destruct (pool_is_empty_run h) as (h1 & Hr1 & Hpb & Hme & Hnx & Hpo & _). mrun Hr1.
    assert (counted h1 (option_list p ++ H)) as Hco1.
    { eapply counted_same; [exact Hco|]. intros i. rewrite Hpb, Hme. by destruct (h_pbufs h !! i). }
    assert (heap_wf h1) as Hwf1 by (intros i; rewrite Hpb, Hme, Hnx; apply Hwf).
    assert (pool_total h1 = pool_total h) as Ht1 by (unfold pool_total; by rewrite Hpb, Hpo).
    assert (I h1) as HI1 by (by eapply Ieq).
    destruct p as [p|].
    + destruct (pbuf_free_counted h1 H p Hco1) as (c & h2 & Hr2 & Hco2 & Hs & Ht2).
      unfold mbind at 1 2, M_bind at 1 2. rewrite Hr2. exists None, h2. split; [done|]. split; [done|].
      split; [by eapply survives_wf|]. split; [congruence|by eapply Ifree].
    + exists None, h1. by split_and!.
  - rewrite pool_loop_step; [|done|done|done|].
    2:{ destruct p as [p|]; [|done]. destruct Ho as (l & b & -> & Hb & _). exists l. split; [done|].
        split; [by exists b|]. destruct (decide (l < h_next h)%positive); [done|].
        destruct (Hwf l ltac:(lia)). congruence. }
    destruct (counted_pool_step h H p last rem offset Hwf Hco Ho) as (Hco1 & Ho1 & Hwf1 & Ht1 & _).
    cbv zeta in *. pose proof (pool_cap_eq offset Hoff) as (Hcap & _).
    pose proof (Inew h p last rem offset Hwf HI ltac:(lia) Hoff) as HI1.
    case_if.
    + edestruct (IH _ (Some (default (h_next h) p)) (Some (h_next h)) (rem - Z.min rem (pool_cap offset)) 0 Hwf1 Hco1 Ho1 HI1)
        as (r & h' & Hr & Hc' & Hw' & Ht' & HI'); [lia|lia|lia|].
      exists r, h'. split_and!; try done. congruence.
    + eexists _, _. split; [done|]. by split_and!.
Qed.

Lemma pbuf_alloc_reference_run h pl n type :
  pbuf_alloc_reference pl n type h =
    Some (if h_ref h =? 0 then (None, h)
          else (Some (h_next h), with_new h SIZEOF_STRUCT_PBUF
                  (Pbuf None pl n n (u8 (type_code type)) 0 1 0 None) 0 1)).
Proof.
  unfold pbuf_alloc_reference, memp_malloc_ref, with_new. unfold mbind at 1, M_bind at 1.
  destruct (h_ref h =? 0); [done|]. cbn -[junk_block u8]. unfold set_pbufs. cbn -[junk_block u8].
  by rewrite (Z.sub_0_r (h_pool h)).
Qed.

Lemma pbuf_alloc_reference_counted h H pl n type :
  heap_wf h -> counted h H -> type = PBUF_ROM \/ type = PBUF_REF ->
  exists r h', pbuf_alloc_reference pl n type h = Some (r, h') /\ counted h' (option_list r ++ H) /\
    heap_wf h' /\ pool_total h' = pool_total h.
Proof.
  intros Hwf Hco Ht. rewrite pbuf_alloc_reference_run.
  assert (h_pbufs h !! h_next h = None) as Hnone by (apply Hwf; lia).
  destruct (h_ref h =? 0); [exists None, h; by split_and!|].
  eexists (Some _), _. split; [done|]. split; [apply counted_new; try done; by destruct Ht as [-> | ->]|].
  split; [by apply with_new_wf|].
  unfold pool_total. simpl. rewrite pool_used_new by done. by destruct Ht as [-> | ->]; simpl; lia.
Qed.

(** pbuf_alloc: whatever the type and the outcome, the result is one new
    reference (or none), and the pool elements are all accounted for. *)
Lemma pbuf_alloc_counted h H layer n type :
  heap_wf h -> counted h H -> 0 <= n < 65536 ->
  exists r h', pbuf_alloc layer n type h = Some (r, h') /\ counted h' (option_list r ++ H) /\
    heap_wf h' /\ pool_total h' = pool_total h.
Proof.
  intros Hwf Hco Hn. pose proof (layer_offset_bound layer).
  assert (h_pbufs h !! h_next h = None) as Hnone by (apply Hwf; lia).
  destruct type.
  - rewrite pbuf_alloc_ram_run by done.
    case_decide; [|exists None, h; by split_and!].
    destruct (heap_admits _ _); [|exists None, h; by split_and!].
    eexists (Some _), _. split; [done|]. split; [by apply counted_new|]. split; [by apply with_new_wf|].
    unfold pool_total. simpl. rewrite pool_used_new by done. simpl. lia.
  - unfold pbuf_alloc. by apply pbuf_alloc_reference_counted; auto.
  - unfold pbuf_alloc. by apply pbuf_alloc_reference_counted; auto.
  - unfold pbuf_alloc.
    destruct (pool_loop_inv (fun _ => True) H ltac:(done) ltac:(done) ltac:(done) (S (Z.to_nat n)) h None None n (layer_offset layer))
      as (r & h' & ? & ? & ? & ? & _); try done; [lia|lia|]. by exists r, h'.
Qed.


(** ** Chaining *)

(** Changes of pbuf fields that are no references, nothing else. *)
Definition relabels (h h' : heap) : Prop := h' = set_pbufs (h_pbufs h') h /\ same_links h h'.

Lemma relabels_refl h : relabels h h.
Proof. split; [by destruct h|apply same_links_refl]. Qed.
Lemma relabels_trans h1 h2 h3 : relabels h1 h2 -> relabels h2 h3 -> relabels h1 h3.
Proof.
  intros [E1 H1] [E2 H2]. split; [|by eapply same_links_trans].
  rewrite E2, E1. by destruct h1.
Qed.
Lemma relabels_upd h i b b' :
  h_pbufs h !! i = Some b -> same_refs b b' -> relabels h (set_pbufs (<[i := b']> (h_pbufs h)) h).
Proof. intros Hi Hs. split; [done|by eapply same_links_upd]. Qed.
Lemma relabels_counted h h' H :
  relabels h h' -> counted h H -> heap_wf h ->
  counted h' H /\ heap_wf h' /\ pool_total h' = pool_total h.
Proof.
  intros [Eh Hs] Hc Hwf. split; [by eapply counted_same|]. split.
  - intros i Hi. rewrite Eh in Hi |- *. simpl in *. destruct (Hwf i Hi) as [Hp Hm]. split; [|done].
    specialize (Hs i). rewrite Hp in Hs. by destruct (h_pbufs h' !! i).
  - apply same_links_pool; [done|]. by rewrite Eh.
Qed.

(** pbuf_cat's walk to the last pbuf. *)
Lemma pbuf_cat_loop_relabels fuel : forall h p t l,
  chain h (Some p) l -> is_Some (h_pbufs h !! t) -> (length l <= fuel)%nat ->
  exists q b h', pbuf_cat_loop fuel p t h = Some (q, h') /\ relabels h h' /\
    h_pbufs h' !! q = Some b /\ next b = None /\ q ∈ l.*1.
Proof.
  induction fuel as [|fuel IH]; intros h p t l Hc Ht Hf.
  { apply chain_inv in Hc as (? & ? & -> & _). simpl in Hf. lia. }
  apply chain_inv in Hc as (b & r & -> & Hb & Hc). cbn [pbuf_cat_loop]. mrun (get_pbuf_run _ _ _ Hb).
  destruct (next b) as [n|] eqn:Hn.
  2:{ exists p, b, h. split; [done|]. split; [apply relabels_refl|]. split; [done|]. split; [done|].
      csimpl. apply elem_of_cons. by left. }
  destruct Ht as [bt Ht]. mrun (get_pbuf_run _ _ _ Ht).
  mrun (upd_pbuf_run _ _ _ (set_tot_len (u16 (tot_len b + tot_len bt))) Hb).
  set (h1 := set_pbufs _ h).
  assert (relabels h h1) as Hr1 by (by eapply relabels_upd).
  destruct (same_links_chain _ _ _ _ (proj2 Hr1) Hc) as (r' & Hc' & Hf').
  assert (is_Some (h_pbufs h1 !! t)) as Ht1.
  { destruct (same_links_lookup' _ _ _ _ (proj2 Hr1) Ht) as (bt' & ? & _). by exists bt'. }
  destruct (IH h1 n t r' Hc' Ht1) as (q & bq & h2 & Hrun & Hr2 & Hq & Hnq & Hin).
  { apply (f_equal length) in Hf'. rewrite !length_fmap in Hf'. simpl in Hf. lia. }
  exists q, bq, h2. split; [done|]. split; [by eapply relabels_trans|]. split; [done|]. split; [done|].
  csimpl. apply elem_of_cons. right. by rewrite <- Hf'.
Qed.

Definition disjoint_chains (h : heap) (p t : positive) : Prop :=
  forall lp lt, chain h (Some p) lp -> chain h (Some t) lt -> forall i, i ∈ lp.*1 -> i ∉ lt.*1.

(** pbuf_cat takes over the reference to the tail. *)
Lemma pbuf_cat_counted h H p t :
  heap_wf h -> counted h (t :: H) -> is_Some (h_pbufs h !! p) -> disjoint_chains h p t ->
  exists h', pbuf_cat (Some p) (Some t) h = Some (tt, h') /\ counted h' H /\ heap_wf h' /\
    pool_total h' = pool_total h /\ h_mem h' = h_mem h /\
    forall i b, h_pbufs h !! i = Some b -> exists b', h_pbufs h' !! i = Some b' /\ ref b' = ref b.
Proof.
  intros Hwf Hco [bp Hp] Hd. destruct (counted_live _ _ t Hco ltac:(apply elem_of_cons; by left)) as [bt Ht].
  destruct (counted_chain _ _ Hco p bp Hp) as [lp Hlp]. destruct (counted_chain _ _ Hco t bt Ht) as [lt Hlt].
  unfold pbuf_cat. rewrite bind_get.
  destruct (pbuf_cat_loop_relabels (chain_fuel h) h p t lp Hlp ltac:(by exists bt)) as (q & b & h1 & Hr1 & Hrel & Hq & Hnq & Hin).
  { pose proof (chain_fuel_enough _ _ _ Hlp). lia. }
  mrun Hr1. destruct (relabels_counted _ _ _ Hrel Hco Hwf) as (Hco1 & Hwf1 & Ht1).
  destruct (same_links_lookup' _ _ _ _ (proj2 Hrel) Ht) as (bt1 & Hbt1 & _).
  destruct (same_links_chain _ _ _ _ (proj2 Hrel) Hlt) as (lt1 & Hlt1 & Hf1).
  unfold pbuf_cat_link. mrun (get_pbuf_run _ _ _ Hq). mrun (get_pbuf_run _ _ _ Hbt1).
  set (b1 := set_tot_len (u16 (tot_len b + tot_len bt1)) b).
  mrun (upd_pbuf_run _ _ _ (set_tot_len (u16 (tot_len b + tot_len bt1))) Hq). fold b1.
  set (h2 := set_pbufs (<[q := b1]> (h_pbufs h1)) h1).
  assert (relabels h1 h2) as Hrel2 by (by eapply relabels_upd).
  destruct (relabels_counted _ _ _ Hrel2 Hco1 Hwf1) as (Hco2 & Hwf2 & Ht2).
  assert (h_pbufs h2 !! q = Some b1) as Hq2 by apply lookup_insert_eq.
  destruct (same_links_chain _ _ _ _ (proj2 Hrel2) Hlt1) as (lt2 & Hlt2 & Hf2).
  rewrite (upd_pbuf_run _ _ _ (set_next (Some t)) Hq2).
  eexists. split; [done|]. split; [|split; [|split; [|split]]].
  - eapply counted_link; [exact Hco2|exact Hq2|done|exact Hlt2|]. rewrite Hf2, Hf1. by eapply Hd.
  - intros i Hi. destruct (Hwf2 i Hi) as [? ?]. simpl in *. split; [|done].
    rewrite lookup_insert_ne by congruence. done.
  - rewrite <- Ht1, <- Ht2. unfold pool_total. simpl h_pool. f_equal. simpl h_pbufs.
    by apply (pool_used_insert _ q b1).
  - simpl. by rewrite (proj1 Hrel).
  - intros i c Hi. destruct (same_links_lookup' _ _ _ _ (proj2 Hrel) Hi) as (c1 & Hc1 & (_ & Hr1' & _)).
    destruct (same_links_lookup' _ _ _ _ (proj2 Hrel2) Hc1) as (c2 & Hc2 & (_ & Hr2' & _)).
    simpl h_pbufs. rewrite lookup_insert. case_decide as Hd'; [|exists c2; split; [done|congruence]].
    subst. exists (set_next (Some t) b1). split; [done|]. simpl. rewrite Hq2 in Hc2. injection Hc2 as <-. simpl in Hr2'. congruence.
Qed.

(** pbuf_chain leaves the caller its reference to the tail. *)
Lemma pbuf_chain_good n h H p t bt :
  good n h (t :: H) -> is_Some (h_pbufs h !! p) -> disjoint_chains h p t ->
  h_pbufs h !! t = Some bt -> ref bt < 255 ->
  exists h', pbuf_chain (Some p) (Some t) h = Some (tt, h') /\ good n h' (t :: H).
Proof.
  intros [Hco Hwf Hpt] Hp Hd Ht Hr. unfold pbuf_chain.
  destruct (pbuf_cat_counted h H p t Hwf Hco Hp Hd) as (h1 & Hr1 & Hco1 & Hwf1 & Hpt1 & _ & Hl). mrun Hr1.
  destruct (Hl t bt Ht) as (b' & Hb' & Hrb'). destruct (pbuf_ref_counted h1 H t b' Hco1 Hb' ltac:(lia)) as [Hr2 Hco2].
  eexists. split; [done|]. split; [done|by eapply upd_wf|]. rewrite (upd_pool h1 t b') by done. congruence.
Qed.

(** The reverse: a [next] field becomes a reference. *)
Lemma counted_unlink h H p b t :
  counted h H -> h_pbufs h !! p = Some b -> next b = Some t ->
  counted (set_pbufs (<[p := set_next None b]> (h_pbufs h)) h) (t :: H).
Proof.
  intros Hco Hp Hn. pose proof Hco as [Hh Hpl Hc Hr].
  set (h' := set_pbufs (<[p := set_next None b]> (h_pbufs h)) h).
  assert (forall j, is_Some (h_pbufs h !! j) -> is_Some (h_pbufs h' !! j)) as Hlive.
  { intros j [c Hj]. simpl. rewrite lookup_insert. case_decide; by eexists. }
  split; simpl.
  - intros j [->|Hj]%elem_of_cons; apply Hlive; [|auto].
    destruct (Hc p b Hp) as [l Hl]. apply chain_inv in Hl as (b' & r & -> & Hb' & Hl).
    rewrite Hp in Hb'. injection Hb' as <-. rewrite Hn in Hl. apply chain_inv in Hl as (c & ? & ? & ? & ?). by exists c.
  - intros j c. rewrite lookup_insert. case_decide as Hd; [|apply Hpl].
    subst. intros [= <-]. by apply (Hpl j b).
  - intros j c Hj. assert (exists c0, h_pbufs h !! j = Some c0) as [c0 Hc0].
    { rewrite lookup_insert in Hj. case_decide; [subst; by exists b|by exists c]. }
    destruct (Hc j c0 Hc0) as [r Hr0]. clear Hc0 Hj c. revert Hr0. generalize (Some j) as q. intros q Hr0.
    induction Hr0 as [|k d r Hk Hr0 IH]; [by exists []; constructor|]. destruct IH as [l' Hl'].
    destruct (decide (k = p)) as [->|Hkp].
    + exists [(p, set_next None b)]. constructor; [simpl; by rewrite lookup_insert_eq|constructor].
    + exists ((k, d) :: l'). constructor; [|done]. simpl. by rewrite lookup_insert_ne.
  - intros j c Hj. pose proof (links_insert (h_pbufs h) p b (set_next None b) j Hp) as Hli.
    rewrite Hn in Hli. cbn [next set_next] in Hli. rewrite (decide_False (P := None = Some j)) in Hli by done.
    assert (exists c0, h_pbufs h !! j = Some c0 /\ ref c0 = ref c) as (c0 & Hc0 & <-).
    { rewrite lookup_insert in Hj. destruct (decide (p = j)); [subst; injection Hj as <-; by exists b|by exists c]. }
    destruct (Hr j c0 Hc0) as [Hrj ?]. split; [|done]. rewrite Hrj, holds_cons.
    destruct (decide (j = t)) as [->|Hd].
    + rewrite decide_True in Hli by done. lia.
    + rewrite (decide_False (P := Some t = Some j)) in Hli by congruence. lia.
Qed.

Lemma pbuf_dechain_good n h H p b :
  good n h H -> h_pbufs h !! p = Some b ->
  exists r h', pbuf_dechain (Some p) h = Some (r, h') /\ good n h' H.
Proof.
  intros [Hco Hwf Hpt] Hp. unfold pbuf_dechain. mrun (deref_run _ _ _ Hp).
  destruct (next b) as [q|] eqn:Hn; [|exists None, h; split; [done|by split]].
  destruct (counted_chain _ _ Hco p b Hp) as [l Hl].
  pose proof (chain_NoDup _ _ _ Hl) as Hnd.
  apply chain_inv in Hl as (b' & r & -> & Hb' & Hl). rewrite Hp in Hb'. injection Hb' as <-.
  rewrite Hn in Hl. apply chain_inv in Hl as (bq & r' & -> & Hq & _).
  assert (q <> p) as Hqp. { csimpl in Hnd. apply NoDup_cons in Hnd as [Hni _]. intros ->. apply Hni, elem_of_cons. by left. }
  mrun (upd_pbuf_run _ _ _ (set_tot_len (u16 (tot_len b - len b))) Hq).
  set (h1 := set_pbufs _ h).
  assert (h_pbufs h1 !! p = Some b) as Hp1 by (simpl; by rewrite lookup_insert_ne).
  destruct (relabels_counted h h1 H) as (Hco1 & Hwf1 & Hpt1); [by eapply relabels_upd|done|done|].
  mrun (upd_pbuf_run _ _ _ (set_next None) Hp1).
  pose proof (counted_unlink h1 H p b q Hco1 Hp1 Hn) as Hco2.
  set (h2 := set_pbufs _ h1) in *.
  assert (heap_wf h2) as Hwf2 by by eapply upd_wf.
  assert (pool_total h2 = pool_total h1) as Hpt2 by by eapply upd_pool.
  assert (h_pbufs h2 !! p = Some (set_next None b)) as Hp2 by apply lookup_insert_eq.
  mrun (upd_pbuf_run _ _ _ (set_tot_len (len b)) Hp2).
  set (h3 := set_pbufs _ h2).
  destruct (relabels_counted h2 h3 (q :: H)) as (Hco3 & Hwf3 & Hpt3); [by eapply relabels_upd|done|done|].
  destruct (pbuf_free_counted h3 H q Hco3) as (c & h4 & Hr4 & Hco4 & Hs4 & Hpt4). mrun Hr4.
  eexists _, h4. split; [done|]. split; [done|by eapply survives_wf|congruence].
Qed.

End Ref.
