(* ===== verification/PbufOwn.v ===== *)
(** * Packet buffers: heaps of pbufs with memory of their own

    The stack's own pbufs (PBUF_RAM and PBUF_POOL) keep their bytes behind the
    struct in one block.  On a heap of such pbufs, with every reference
    accounted for, the operations the layers above use never go wrong: they
    return, and the heap is such a heap again. *)
From S2P Require Import Prelude Pbuf PbufFacts PbufWrite PbufAlloc PbufPool PbufRef.

Record own_ok (h : heap) (i : positive) (b : pbuf) : Prop := {
  own_contiguous : Z.land (type_internal b) PBUF_TYPE_FLAG_STRUCT_DATA_CONTIGUOUS <> 0;
  own_stable : Z.land (type_internal b) PBUF_TYPE_FLAG_DATA_VOLATILE = 0;
  own_len : 0 <= len b < 65536;
  own_place : exists o bs, payload b = Some (Ptr i o) /\ h_mem h !! i = Some bs /\
    SIZEOF_STRUCT_PBUF <= o /\ o + len b <= lenZ bs;
}.

Definition own_all (h : heap) : Prop := forall i b, h_pbufs h !! i = Some b -> own_ok h i b.

(** The pbuf [w], if one is given, can take one more reference. *)
Definition low (w : option positive) (h : heap) : Prop :=
  forall p b, w = Some p -> h_pbufs h !! p = Some b -> ref b < 255.


(** The bytes the block of a live pbuf holds from its payload on. *)
Definition readable (h : heap) (p : positive) (k : Z) : Prop :=
  exists b o bs, h_pbufs h !! p = Some b /\ payload b = Some (Ptr p o) /\ h_mem h !! p = Some bs /\
    0 <= o /\ o + k <= lenZ bs.

(** A received packet: a pbuf of the pool that nothing else refers to and that
    holds the whole packet, with [k] readable bytes. *)
Definition unshared (b : pbuf) : Prop :=
  ref b = 1 /\ pbuf_get_allocsrc b = PBUF_TYPE_ALLOC_SRC_MASK_STD_MEMP_PBUF_POOL /\ tot_len b = len b.
Definition inbound (h : heap) (p : positive) (k : Z) : Prop :=
  readable h p k /\ forall b, h_pbufs h !! p = Some b -> unshared b.

Lemma same_refs_unshared b b' :
  same_refs b b' -> (tot_len b = len b -> tot_len b' = len b') -> unshared b -> unshared b'.
Proof.
  intros (_ & Hr & Ht & _) Hl. unfold unshared, pbuf_get_allocsrc. rewrite Hr, Ht. intros (? & ? & ?).
  split_and!; auto.
Qed.

(** The bytes in front of every received frame that the layers read. *)
Definition FRAME_HEADERS := 42.

(** What does not change for a while: the number of pool elements, the frames
    that wait for the stack, with a reference each, and the references that the
    layers above keep. *)
Record budget := Budget { pool_size : Z; kept : list positive; others : list positive }.
Definition backing (n : budget) : list positive := kept n ++ others n.
Definition with_others (U : list positive) (n : budget) : budget := Budget (pool_size n) (kept n) U.

Lemma with_others_id n : with_others (others n) n = n.
Proof. by destruct n. Qed.

(** All the references are [R] and those of the budget. *)
Record sane (n : budget) (w : option positive) (R : list positive) (h : heap) : Prop := {
  sane_good : good (pool_size n) h (R ++ backing n);
  sane_own : own_all h;
  sane_low : low w h;
  sane_kept : Forall (fun p => inbound h p FRAME_HEADERS) (kept n);
}.

#[export] Instance sane_proper n w : Proper ((≡ₚ) ==> eq ==> iff) (sane n w).
Proof.
  intros R R' HR h ? <-. split; intros [[Hc Hw Hp] Ho Hlo Hk]; (split; [split| | |]; try done);
    [by rewrite <- HR|by rewrite HR].
Qed.

Lemma sane_weaken n w R h : sane n w R h -> sane n None R h.
Proof. intros [Hg Ho _ Hk]. by split. Qed.
Lemma sane_watch n w R h p :
  sane n w R h -> (forall b, h_pbufs h !! p = Some b -> ref b < 255) -> sane n (Some p) R h.
Proof. intros [Hg Ho _ Hk] Hp. split; [done|done| |done]. intros q b [= <-]. apply Hp. Qed.

(** Keeping a frame, and taking the first one kept. *)
Lemma sane_keep n w R h p K U :
  sane (Budget n K U) w (p :: R) h -> inbound h p FRAME_HEADERS -> sane (Budget n (K ++ [p]) U) w R h.
Proof.
  intros [[Hc Hw Hp] Ho Hlo Hk] Hr. split; [split; try done|done|done|by apply Forall_app; split; [|constructor]].
  unfold backing in *. simpl in *. rewrite <- app_assoc, (app_assoc R K). simpl.
  by rewrite <- Permutation_middle, <- app_assoc.
Qed.
Lemma sane_unkeep n w R h p K U : sane (Budget n (p :: K) U) w R h -> sane (Budget n K U) w (p :: R) h.
Proof.
  intros [[Hc Hw Hp] Ho Hlo Hk]. split; [split; try done|done|done|by apply Forall_cons in Hk as [_ ?]].
  unfold backing in *. simpl in *. by rewrite Permutation_middle.
Qed.
(** The layers above take over references, or give some back. *)
Lemma sane_others n w R R' U h :
  R ++ others n ≡ₚ R' ++ U -> sane n w R h -> sane (with_others U n) w R' h.
Proof.
  intros Hp [[Hc Hw Ht] Ho Hlo Hk]. split; [split; try done|done|done|done]. unfold backing in *. simpl.
  by rewrite Permutation_app_swap_app, <- Hp, Permutation_app_swap_app.
Qed.

Lemma sane_live n w R h p : sane n w R h -> p ∈ R -> exists b, h_pbufs h !! p = Some b /\ own_ok h p b.
Proof.
  intros [[Hc _ _] Ho _ _] Hp. destruct (counted_live _ _ _ Hc (proj2 (elem_of_app _ _ _) (or_introl Hp))) as [b Hb]. exists b. split; [done|by apply Ho].
Qed.

Lemma own_ok_eq h h' i b b' :
  own_ok h i b -> payload b' = payload b -> len b' = len b -> type_internal b' = type_internal b ->
  length <$> h_mem h' !! i = length <$> h_mem h !! i -> own_ok h' i b'.
Proof.
  intros [Hc Hs Hl (o & bs & Hp & Hbs & H1 & H2)] Ep El Et Em. split; rewrite ?Et, ?El; try done.
  rewrite Hbs in Em. destruct (h_mem h' !! i) as [bs'|]; [|done]. injection Em as Em.
  exists o, bs'. split; [congruence|]. split; [done|]. split; [done|]. by rewrite Em.
Qed.

Lemma own_ok_mem h h' i b : own_ok h i b -> h_mem h' = h_mem h -> own_ok h' i b.
Proof. intros Ho Em. eapply own_ok_eq; [exact Ho|done|done|done|by rewrite Em]. Qed.

Lemma own_upd h i b : own_all h -> own_ok h i b -> own_all (set_pbufs (<[i := b]> (h_pbufs h)) h).
Proof.
  intros Ho Hb j c. simpl. rewrite lookup_insert. case_decide as Hd.
  - subst. intros [= <-]. by apply (own_ok_mem h).
  - intros Hj. apply (own_ok_mem h); [by apply Ho|done].
Qed.

Section Own.
Context {E : PbufEnv}.

(** ** Giving up, taking and making references *)

Lemma survives_own h h' : survives h h' -> own_all h -> own_all h'.
Proof.
  intros (_ & _ & Hs) Ho i b' Hi. destruct (Hs i b' Hi) as (Hm & b & Hb & -> & _).
  eapply own_ok_eq; [by apply Ho|done|done|done|by rewrite Hm].
Qed.

Lemma survives_low w h h' : survives h h' -> low w h -> low w h'.
Proof.
  intros (_ & _ & Hs) Hlo p b' Hp Hb'. destruct (Hs p b' Hb') as (_ & b & Hb & _ & Hle).
  specialize (Hlo p b Hp Hb). lia.
Qed.

Lemma survives_kept h h' R K k :
  survives h h' -> Forall (fun p => inbound h p k) K -> counted h' R -> K ⊆ R ->
  Forall (fun p => inbound h' p k) K.
Proof.
  intros (_ & _ & Hs) HK Hc Hsub. apply Forall_forall. intros p Hp.
  destruct (counted_live _ _ p Hc) as [b' Hb']; [by apply Hsub|].
  rewrite Forall_forall in HK. destruct (HK p Hp) as [(b & o & bs & Hb & Hpl & Hbs & Ho & Hk) Hun].
  destruct (Hs p b' Hb') as (Hm & c & Hc' & Eb & Hle). assert (c = b) as -> by congruence. split.
  - exists b', o, bs. rewrite Hm. split; [done|]. split; [by rewrite Eb|done].
  - intros c Hcp. assert (c = b') as -> by congruence. destruct (Hun b Hb) as (Hr & Hsrc & Hl).
    pose proof (counted_ref _ _ Hc p b' Hb'). split; [lia|]. by rewrite Eb.
Qed.
Lemma kept_backing n R : kept n ⊆ R ++ backing n.
Proof. unfold backing. intros p Hp. apply elem_of_app. right. apply elem_of_app. by left. Qed.
(** Nobody else has a reference of a kept frame. *)
Lemma kept_alone h R n p k : counted h (R ++ backing n) -> inbound h p k -> p ∈ kept n -> p ∉ R.
Proof.
  intros Hc [(b & _ & _ & Hb & _) Hun] Hk HR. destruct (Hun b Hb) as (Hr & _). pose proof (counted_ref _ _ Hc p b Hb) as [Hrb _].
  unfold backing in Hrb. rewrite !holds_app in Hrb. pose proof (holds_elem _ _ HR). pose proof (holds_elem _ _ Hk). lia.
Qed.

Lemma sane_free n w R h p :
  sane n w (p :: R) h -> exists c h', pbuf_free (Some p) h = Some (c, h') /\ sane n w R h'.
Proof.
  intros [[Hc Hw Hp] Ho Hlo Hk]. destruct (pbuf_free_counted h (R ++ backing n) p Hc) as (c & h' & Hr & Hc' & Hs & Ht).
  exists c, h'. split; [done|]. split; [split; [done|by eapply survives_wf|congruence]|by eapply survives_own|by eapply survives_low|].
  eapply survives_kept; [done|done|exact Hc'|apply kept_backing].
Qed.

(** The payload pointer stays, or moves towards the start of the block. *)
Lemma upd_readable h i b b' K k :
  h_pbufs h !! i = Some b ->
  (forall o, payload b = Some (Ptr i o) -> i ∈ K -> (exists o', payload b' = Some (Ptr i o') /\ 0 <= o' <= o) /\ (unshared b -> unshared b')) ->
  Forall (fun p => inbound h p k) K -> Forall (fun p => inbound (set_pbufs (<[i := b']> (h_pbufs h)) h) p k) K.
Proof.
  intros Hi Hp HK. apply Forall_forall. intros p Hin. rewrite Forall_forall in HK.
  destruct (HK p Hin) as [(c & o & bs & Hc & Hpl & Hbs & Ho & Hk) Hun]. unfold inbound, readable. simpl. rewrite lookup_insert. case_decide as Hd.
  - subst p. assert (c = b) as -> by congruence. destruct (Hp o Hpl Hin) as [(o' & Hp' & Ho') Hun'].
    split; [exists b', o', bs; split_and!; (done || lia)|]. intros c [= <-]. by apply Hun', Hun.
  - split; [by exists c, o, bs|done].
Qed.

Lemma new_readable h n b pool rf K k :
  heap_wf h -> Forall (fun p => inbound h p k) K -> Forall (fun p => inbound (with_new h n b pool rf) p k) K.
Proof.
  intros Hwf HK. eapply Forall_impl; [exact HK|]. intros p [(c & o & bs & Hc & Hpl & Hbs & Ho & Hk) Hun].
  destruct (decide (p = h_next h)) as [->|Hne]; [destruct (Hwf (h_next h) ltac:(lia)); congruence|]. split.
  - exists c, o, bs. simpl. rewrite !lookup_insert_ne by done. by split_and!.
  - intros d. simpl. rewrite lookup_insert_ne by done. apply Hun.
Qed.

Lemma link_readable h (p last : option positive) q (K : list positive) k :
  Forall (fun j => inbound h j k) K -> Forall (fun j => inbound (link_last p last q h) j k) K.
Proof.
  intros HK. eapply Forall_impl; [exact HK|]. intros j [(c & o & bs & Hc & Hpl & Hbs & Ho & Hk) Hun].
  assert (h_mem (link_last p last q h) = h_mem h) as Em by (unfold link_last; repeat case_match; done).
  unfold inbound, readable. rewrite Em, link_last_lookup. destruct p, last; try (by split; [exists c, o, bs|apply Hun]).
  case_decide; [|by split; [exists c, o, bs|apply Hun]]. rewrite Hc. simpl. split; [by eexists _, o, bs|].
  intros d [= <-]. by apply (Hun c).
Qed.

Lemma sane_ref n R h p :
  sane n (Some p) R h -> p ∈ R ->
  exists h', pbuf_ref (Some p) h = Some (tt, h') /\ sane n None (p :: R) h'.
Proof.
  intros Hs Hp. pose proof (fun b => sane_low _ _ _ _ Hs p b eq_refl) as Hlt.
  assert (p ∉ kept n) as Hnk.
  { intros Hin. pose proof (sane_kept _ _ _ _ Hs) as HK. rewrite Forall_forall in HK. revert Hp.
    eapply kept_alone; [apply (sane_good _ _ _ _ Hs)|by apply HK|done]. }
  destruct (sane_live _ _ _ _ _ Hs Hp) as (b & Hb & _). destruct Hs as [[Hc Hw Hpt] Ho _ Hk].
  destruct (pbuf_ref_counted h (R ++ backing n) p b Hc Hb (Hlt b Hb)) as [Hr Hc']. eexists. split; [exact Hr|]. split; [split| | |].
  - done.
  - by eapply upd_wf.
  - by rewrite (upd_pool h p b).
  - apply own_upd; [done|]. eapply own_ok_eq; [by apply Ho|done..].
  - done.
  - eapply upd_readable; [exact Hb| |exact Hk]. by intros o _ ?.
Qed.

Lemma own_new h k b pool rf :
  heap_wf h -> own_all h -> own_ok (with_new h k b pool rf) (h_next h) b -> own_all (with_new h k b pool rf).
Proof.
  intros Hwf Ho Hb j c. simpl. rewrite lookup_insert. case_decide as Hd; [subst; by intros [= <-]|].
  intros Hj. eapply own_ok_eq; [by apply Ho|done|done|done|]. simpl. by rewrite lookup_insert_ne.
Qed.

Lemma own_link h p last q : own_all h -> own_all (link_last p last q h).
Proof.
  intros Ho j c. rewrite link_last_lookup. destruct p, last; try (intros; apply (own_ok_mem h); [by apply Ho|done]). case_decide; [|intros; apply (own_ok_mem h); [by apply Ho|done]].
  destruct (h_pbufs h !! j) as [d|] eqn:Hd; [|done]. intros [= <-]. eapply own_ok_eq; [by apply Ho|done..].
Qed.

Lemma own_pool h rem offset :
  0 <= rem -> 0 <= offset <= 64 ->
  own_ok (with_new h (SIZEOF_STRUCT_PBUF + PBUF_POOL_BUFSIZE_ALIGNED) (pool_pbuf (h_next h) rem offset) 1 0)
    (h_next h) (pool_pbuf (h_next h) rem offset).
Proof.
  intros Hr Ho. pose proof (pool_cap_eq offset Ho) as (Hcap & _). split; try done; simpl; [lia|].
  eexists _, _. split; [done|]. rewrite lookup_insert_eq. split; [done|].
  rewrite length_junk_block by done. unfold pool_cap, SIZEOF_STRUCT_PBUF in *.
  change PBUF_POOL_BUFSIZE_ALIGNED with 1728 in *. lia.
Qed.

Lemma own_ram h layer k :
  0 <= k < 65536 -> own_ok (with_new h (ram_size layer k) (ram_pbuf (h_next h) layer k) 0 0) (h_next h) (ram_pbuf (h_next h) layer k).
Proof.
  intros Hk. pose proof (layer_offset_bound layer). pose proof (LWIP_MEM_ALIGN_SIZE_bound k).
  pose proof (LWIP_MEM_ALIGN_SIZE_bound (layer_offset layer)).
  split; try done. eexists _, _. split; [done|]. simpl. rewrite lookup_insert_eq. split; [done|].
  rewrite length_junk_block; unfold ram_size, SIZEOF_STRUCT_PBUF; lia.
Qed.

Lemma low_new w h k b pool rf : ref b = 1 -> low w h -> low w (with_new h k b pool rf).
Proof.
  intros Hb Hlo p c Hp. simpl. rewrite lookup_insert. case_decide; [intros [= <-]; lia|by apply Hlo].
Qed.
Lemma low_link w h p last q : low w h -> low w (link_last p last q h).
Proof.
  intros Hlo j c Hj. rewrite link_last_lookup. destruct p, last; try by apply Hlo. case_decide; [|by apply Hlo].
  destruct (h_pbufs h !! j) as [d|] eqn:Hd; [|done]. intros [= <-]. by apply (Hlo j d).
Qed.

(** An allocation from the pool or the heap. *)
Lemma sane_alloc n w R h layer k type :
  sane n w R h -> 0 <= k < 65536 -> type = PBUF_RAM \/ type = PBUF_POOL ->
  exists r h', pbuf_alloc layer k type h = Some (r, h') /\ sane n w (option_list r ++ R) h'.
Proof.
  intros [[Hc Hw Hp] Ho Hlo HK] Hk Ht. pose proof (layer_offset_bound layer).
  set (fine := fun h => own_all h /\ low w h /\ Forall (fun p => inbound h p FRAME_HEADERS) (kept n)).
  assert (exists r h', pbuf_alloc layer k type h = Some (r, h') /\ counted h' (option_list r ++ R ++ backing n) /\
    heap_wf h' /\ pool_total h' = pool_total h /\ fine h') as (r & h' & Hr & ? & ? & ? & ? & ? & ?).
  { destruct Ht as [-> | ->].
    - destruct (pbuf_alloc_counted h (R ++ backing n) layer k PBUF_RAM Hw Hc Hk) as (r & h' & Hr & Hc' & Hw' & Ht).
      exists r, h'. do 4 (split; [done|]). rewrite pbuf_alloc_ram_run in Hr by done.
      case_decide; [|by simplify_eq]. destruct (heap_admits _ _); simplify_eq; [|done].
      split; [apply own_new; [done|done|]; apply own_ram; lia|]. split; [by apply low_new|by apply new_readable].
    - apply (pool_loop_inv fine (R ++ backing n)); try done; [| | |lia|lia].
      + intros h1 h2 Ep Em (Ho1 & Hl1 & Hk1). split; [|split].
        * intros i b. rewrite Ep. intros Hi. apply (own_ok_mem h1); [by apply Ho1|done].
        * intros p b. rewrite Ep. apply Hl1.
        * unfold inbound, readable. by rewrite Ep, Em.
      + intros h1 h2 Hs Hc2 (Ho1 & Hl1 & Hk1). split; [by eapply survives_own|]. split; [by eapply survives_low|].
        eapply survives_kept; [done|done|exact Hc2|apply kept_backing].
      + intros h1 p last rem offset Hw1 (Ho1 & Hl1 & Hk1) Hrem Hoff.
        split; [apply own_link, own_new; [done|done|]; by apply own_pool|].
        split; [by apply low_link, low_new|by apply link_readable, new_readable]. }
  exists r, h'. split; [done|]. split; [split; [|done|congruence]|done|done|done]. by rewrite <- app_assoc.
Qed.

(** ** Reading and writing *)

(** The chain behind a reference. *)
Lemma sane_chain n w R h p :
  sane n w R h -> p ∈ R -> exists l, chain h (Some p) l /\ Forall (fun ib => own_ok h ib.1 ib.2) l.
Proof.
  intros Hs Hp. destruct (sane_live _ _ _ _ _ Hs Hp) as (b & Hb & _). destruct Hs as [[Hc _ _] Ho _ _].
  destruct (counted_chain _ _ Hc p b Hb) as [l Hl]. exists l. split; [done|].
  apply Forall_forall. intros [i c] Hin. apply Ho. by eapply chain_lookup.
Qed.

Lemma own_payload_ok h i b : own_ok h i b -> payload_ok h b.
Proof. intros [_ _ _ (o & bs & Hp & Hbs & Ho & Hl)]. right. exists i, o, bs. unfold SIZEOF_STRUCT_PBUF in *. split_and!; (done || lia). Qed.

(** Changes of the payload pointer, the lengths and the bytes. *)
Lemma sane_relabel n w R h h' :
  sane n w R h -> same_links h h' -> h_next h' = h_next h -> h_pool h' = h_pool h ->
  (forall i, h_mem h !! i = None -> h_mem h' !! i = None) -> own_all h' ->
  (Forall (fun p => inbound h p FRAME_HEADERS) (kept n) -> Forall (fun p => inbound h' p FRAME_HEADERS) (kept n)) ->
  sane n w R h'.
Proof.
  intros [[Hc Hw Hp] Ho Hlo HK] Hl Hn Hpo Hm Ho' HK'. split; [split|done| |by apply HK'].
  - by eapply counted_same.
  - intros i Hi. rewrite Hn in Hi. destruct (Hw i Hi) as [H1 H2]. split; [|auto].
    specialize (Hl i). rewrite H1 in Hl. by destruct (h_pbufs h' !! i).
  - rewrite <- Hp. by apply same_links_pool.
  - intros p b' Hp' Hb'. destruct (same_links_lookup _ _ _ _ Hl Hb') as (b & Hb & (_ & -> & _) & _). by apply (Hlo p).
Qed.

Lemma readable_same h h' p k :
  h_pbufs h' = h_pbufs h -> (forall j, length <$> h_mem h' !! j = length <$> h_mem h !! j) ->
  readable h p k -> readable h' p k.
Proof.
  intros Ep El (b & o & bs & Hb & Hp & Hbs & Ho & Hk). specialize (El p). rewrite Hbs in El.
  destruct (h_mem h' !! p) as [bs'|] eqn:E'; [|done]. injection El as El.
  exists b, o, bs'. rewrite Ep. split_and!; try done. by rewrite El.
Qed.

Lemma inbound_same h h' p k :
  h_pbufs h' = h_pbufs h -> (forall j, length <$> h_mem h' !! j = length <$> h_mem h !! j) ->
  inbound h p k -> inbound h' p k.
Proof. intros Ep El [Hr Hu]. split; [by eapply readable_same|]. by rewrite Ep. Qed.

Lemma sane_store n w R h p b o i v :
  sane n w R h -> h_pbufs h !! p = Some b -> payload b = Some (Ptr p o) -> 0 <= i -> readable h p (i + lenZ v) ->
  exists h', store (payload b) i v h = Some (tt, h') /\ sane n w R h' /\ h_pbufs h' = h_pbufs h /\
    forall k, length <$> h_mem h' !! k = length <$> h_mem h !! k.
Proof.
  intros Hs Hb Hp Hi (b' & o' & bs & Hb' & Hp' & Hbs & Ho & Hl). simplify_eq. unfold store.
  destruct (lenZ v =? 0); [by exists h|]. rewrite Hp, Hbs.
  rewrite (proj2 (Z.leb_le 0 (o + i))), (proj2 (Z.leb_le (o + i + lenZ v) _)) by lia. cbn [andb].
  set (h' := set_mem _ h). assert (forall k, length <$> h_mem h' !! k = length <$> h_mem h !! k) as Hlen.
  { intros k. simpl. rewrite lookup_insert. case_decide as Hd; [|done]. subst. rewrite Hbs. simpl.
    f_equal. pose proof (length_overwrite bs (o + i) v ltac:(lia) ltac:(lia)). lia. }
  exists h'. split; [done|]. split; [|done]. eapply sane_relabel; [exact Hs|..]; try done.
  - intros j. simpl. destruct (h_pbufs h !! j); [|done]. split; [done|]. intros [x Hx].
    rewrite lookup_insert. case_decide; [by eexists|by exists x].
  - intros j Hj. specialize (Hlen j). rewrite Hj in Hlen. by destruct (h_mem h' !! j).
  - intros j c Hj. eapply own_ok_eq; [by apply (sane_own _ _ _ _ Hs)|done|done|done|done].
  - intros HK. eapply Forall_impl; [exact HK|]. intros j. by apply inbound_same.
Qed.

Lemma sane_load h p b k :
  h_pbufs h !! p = Some b -> readable h p k -> 0 <= k ->
  exists d, load (payload b) 0 k h = Some (d, h).
Proof.
  intros Hb (b' & o & bs & Hb' & Hp & Hbs & Ho & Hk) Hk0. simplify_eq. unfold load.
  destruct (k =? 0); [by eexists|]. rewrite Hp, Hbs.
  rewrite (proj2 (Z.leb_le 0 (o + 0))), (proj2 (Z.leb_le 0 k)), (proj2 (Z.leb_le (o + 0 + k) _)) by lia.
  by eexists.
Qed.

(** pbuf_add_header returns; when it succeeds there is room for the header. *)
Lemma sane_add_header n w R h p k :
  sane n w R h -> p ∈ R -> 0 < k < 65536 ->
  exists r h', pbuf_add_header (Some p) k h = Some (r, h') /\ sane n w R h' /\ (r = false -> readable h' p k).
Proof.
  intros Hs Hp Hk. destruct (sane_live _ _ _ _ _ Hs Hp) as (b & Hb & [Hct Hst Hl0 (o & bs & Hpl & Hbs & Ho & Hl)]).
  unfold pbuf_add_header, pbuf_add_header_impl. rewrite (proj2 (Z.ltb_ge 0xFFFF k)), (proj2 (Z.eqb_neq k 0)) by lia.
  mrun (get_pbuf_run _ _ _ Hb). cbv zeta. rewrite (u16_small k) by lia. rewrite Hpl.
  rewrite (proj2 (Z.eqb_neq _ 0) Hct). cbn [negb].
  destruct (u16 (k + tot_len b) <? k) eqn:Ew; [by exists true, h|]. rewrite decide_True by done.
  destruct (o - k <? SIZEOF_STRUCT_PBUF) eqn:Eo; [by exists true, h|]. b2p.
  rewrite (bind_run _ _ _ _ _ (upd_pbuf_run _ _ _ _ Hb)). eexists false, _. split; [done|].
  set (b' := Pbuf _ _ _ _ _ _ _ _ _). split.
  - eapply sane_relabel; [exact Hs|by eapply same_links_upd|done|done|done| |eapply upd_readable; [exact Hb|]; intros o1 Ho1 _; simpl;
      split; [|intros (? & ? & Et); split_and!; simpl; by rewrite ?Et]; exists (o - k); assert (o1 = o) as -> by congruence; unfold SIZEOF_STRUCT_PBUF in *; split; [done|lia]].
    apply own_upd; [apply (sane_own _ _ _ _ Hs)|]. unfold SIZEOF_STRUCT_PBUF in *.
    pose proof (u16_bound (len b + k)).
    assert (0 <= u16 (len b + k) <= len b + k) by (unfold u16; split; [apply Z.mod_pos_bound; lia|apply Z.mod_le; lia]).
    split; simpl; try done. exists (o - k), bs. unfold SIZEOF_STRUCT_PBUF. split_and!; (done || lia).
  - intros _. exists b', (o - k), bs. unfold SIZEOF_STRUCT_PBUF in *. simpl. rewrite lookup_insert_eq.
    split_and!; (done || lia).
Qed.

(** And so does pbuf_remove_header. *)
Lemma sane_remove_header n w R h p k m :
  sane n w R h -> p ∈ R -> p ∉ kept n -> 0 < k < 65536 -> inbound h p (k + m) ->
  exists r h', pbuf_remove_header (Some p) k h = Some (r, h') /\ sane n w R h' /\ (r = false -> inbound h' p m).
Proof.
  intros Hs Hp Hnk Hk [(b0 & o0 & bs0 & Hb0 & Hp0 & Hbs0 & Ho0 & Hm) Hun].
  destruct (sane_live _ _ _ _ _ Hs Hp) as (b & Hb & [Hct Hst Hl0 (o & bs & Hpl & Hbs & Ho & Hl)]).
  assert (b0 = b) as -> by congruence. assert (o0 = o) as -> by congruence. assert (bs0 = bs) as -> by congruence.
  unfold pbuf_remove_header. rewrite (proj2 (Z.ltb_ge 0xFFFF k)), (proj2 (Z.eqb_neq k 0)) by lia.
  mrun (get_pbuf_run _ _ _ Hb). cbv zeta. rewrite (u16_small k) by lia.
  destruct (len b <? k) eqn:El; [by exists true, h|]. b2p. rewrite Hpl.
  rewrite (bind_run _ _ _ _ _ (upd_pbuf_run _ _ _ _ Hb)). eexists false, _. split; [done|].
  set (b' := Pbuf _ _ _ _ _ _ _ _ _). split.
  - eapply sane_relabel; [exact Hs|by eapply same_links_upd|done|done|done| |eapply upd_readable; [exact Hb|]; by intros o1 _ ?].
    apply own_upd; [apply (sane_own _ _ _ _ Hs)|]. unfold SIZEOF_STRUCT_PBUF in *.
    pose proof (u16_bound (len b - k)).
    assert (0 <= u16 (len b - k) <= len b - k) by (unfold u16; split; [apply Z.mod_pos_bound; lia|apply Z.mod_le; lia]).
    split; simpl; try done. eexists _, bs. unfold SIZEOF_STRUCT_PBUF. split_and!; (done || lia).
  - intros _. split.
    + eexists b', _, bs. unfold SIZEOF_STRUCT_PBUF in *. simpl. rewrite lookup_insert_eq. split_and!; (done || lia).
    + intros c. simpl. rewrite lookup_insert_eq. intros [= <-]. destruct (Hun b Hb) as (? & ? & Et). split_and!; simpl; by rewrite ?Et.
Qed.

End Own.
