(* ===== verification/PbufEdit.v ===== *)
(** * Packet buffers: cutting, copying and moving headers on the stack's own pbufs

    As in PbufOwn, for the operations IP needs: pbuf_realloc on a received
    packet, pbuf_copy, pbuf_header_force. *)
From S2P Require Import Prelude Pbuf PbufFacts PbufWrite PbufAlloc PbufPool PbufChain PbufRef PbufOwn.

(** The heap with another [struct pbuf] at [q]. *)
Definition patch (q : positive) (b : pbuf) (h : heap) : heap := set_pbufs (<[q := b]> (h_pbufs h)) h.

Lemma patch_patch q b b' h : patch q b (patch q b' h) = patch q b h.
Proof. unfold patch, set_pbufs. simpl. by rewrite insert_insert_eq. Qed.
Lemma patch_id q b h : h_pbufs h !! q = Some b -> patch q b h = h.
Proof. intros Hq. unfold patch, set_pbufs. rewrite insert_id by done. by destruct h. Qed.
Lemma patch_release q b h i c : q <> i -> release (patch q b h) (i, c) = patch q b (release h (i, c)).
Proof. intros Hne. unfold release, patch, set_pbufs. simpl. by rewrite delete_insert_ne by congruence. Qed.
Lemma patch_comm q b h i c : q <> i -> patch i c (patch q b h) = patch q b (patch i c h).
Proof. intros Hne. unfold patch, set_pbufs. simpl. by rewrite insert_insert_ne by congruence. Qed.

Section Edit.
Context {E : PbufEnv}.

(** ** Cutting *)

(** Freeing a chain does not look at a pbuf that is not on it. *)
Lemma free_loop_patch fuel : forall h H p c q b0 b1,
  counted h (option_list p ++ H) -> (size (h_pbufs h) < fuel)%nat -> h_pbufs h !! q = Some b0 ->
  (forall l, chain h p l -> q ∉ l.*1) ->
  exists c' h', pbuf_free_loop fuel p c h = Some (c', h') /\
    pbuf_free_loop fuel p c (patch q b1 h) = Some (c', patch q b1 h') /\
    h_pbufs h' !! q = Some b0 /\ h_mem h' !! q = h_mem h !! q.
Proof.
  induction fuel as [|fuel IH]; intros h H p c q b0 b1 Hco Hf Hq Hnot; [lia|].
  destruct p as [i|]; [|by exists c, h].
  simpl in Hco. destruct (counted_live _ _ i Hco ltac:(apply elem_of_cons; by left)) as [b Hi].
  destruct (counted_chain _ _ Hco i b Hi) as [l Hl]. pose proof (Hnot l Hl) as Hql.
  apply chain_inv in Hl as (b' & r & -> & Hb' & Hl). assert (b' = b) as -> by congruence. clear Hb'.
  csimpl in Hql. apply not_elem_of_cons in Hql as [Hqi Hqr].
  assert (h_pbufs (patch q b1 h) !! i = Some b) as Hi' by (simpl; by rewrite lookup_insert_ne).
  destruct (decide (ref b = 1)) as [H1|H1].
  - destruct (counted_release _ _ _ _ Hco Hi H1) as [Hlr Hco'].
    rewrite (pbuf_free_loop_step h i b fuel c Hi Hlr), (pbuf_free_loop_step (patch q b1 h) i b fuel c Hi' Hlr).
    rewrite patch_release by done.
    destruct (IH (release h (i, b)) H (next b) (u8 (c + 1)) q b0 b1 Hco') as (c' & h' & Hr & Hr' & Hq' & Hm').
    + simpl. rewrite (map_size_delete_Some i (h_pbufs h)) by done. assert (size (h_pbufs h) <> O) by (eapply map_size_ne_0_lookup_2; eauto). lia.
    + simpl. by rewrite lookup_delete_ne by congruence.
    + intros l' Hl'. assert (chain h (next b) l') as Hl2; [|by rewrite (chain_det _ _ _ _ Hl2 Hl)].
      apply chain_ext with (release h (i, b)); [|done]. intros k d Hk.
      apply (chain_lookup _ _ _ _ _ Hl') in Hk. simpl in Hk. by apply lookup_delete_Some in Hk as [_ ?].
    + exists c', h'. split; [done|]. split; [done|]. split; [done|]. rewrite Hm'. simpl. by rewrite lookup_delete_ne by congruence.
  - pose proof (counted_ref _ _ Hco i b Hi) as [_ Hrb]. cbn [pbuf_free_loop].
    rewrite (bind_run _ _ _ _ _ (get_pbuf_run _ _ _ Hi)), (bind_run _ _ _ _ _ (get_pbuf_run _ _ _ Hi')). cbv beta.
    rewrite u8_small by lia.
    rewrite (bind_run _ _ _ _ _ (upd_pbuf_run _ _ _ (set_ref (ref b - 1)) Hi)),
      (bind_run _ _ _ _ _ (upd_pbuf_run _ _ _ (set_ref (ref b - 1)) Hi')). cbv beta.
    rewrite (proj2 (Z.eqb_neq (ref b - 1) 0)) by lia. exists c, (patch i (set_ref (ref b - 1) b) h).
    fold (patch i (set_ref (ref b - 1) b) h). fold (patch i (set_ref (ref b - 1) b) (patch q b1 h)).
    rewrite patch_comm by done. split; [by destruct fuel|]. split; [by destruct fuel|].
    simpl. rewrite lookup_insert_ne by congruence. done.
Qed.

(** What becomes of [b] when it is cut to [k] bytes. *)
Definition cut (k : Z) (b : pbuf) : pbuf := set_next None (set_tot_len k (set_len k b)).

Lemma own_shorter h i b b' k :
  own_ok h i b -> 0 <= k <= len b -> payload b' = payload b -> len b' = k -> type_internal b' = type_internal b ->
  own_ok h i b'.
Proof.
  intros [Hc Hs Hl (o & bs & Hp & Hbs & H1 & H2)] Hk Ep El Et. split; rewrite ?Et, ?El; try done; [lia|].
  exists o, bs. rewrite Ep. split_and!; (done || lia).
Qed.

(** A change of a pbuf's lengths. *)
Lemma sane_shorter n w R h p b k :
  sane n w R h -> h_pbufs h !! p = Some b -> p ∉ kept n -> 0 <= k <= len b ->
  sane n w R (patch p (set_tot_len k (set_len k b)) h).
Proof.
  intros Hs Hb Hnk Hk. eapply sane_relabel; [exact Hs|by eapply same_links_upd|done|done|done| |].
  - apply own_upd; [apply (sane_own _ _ _ _ Hs)|]. by eapply own_shorter; [apply (sane_own _ _ _ _ Hs)|..].
  - by eapply upd_readable; [exact Hb|].
Qed.

(** Taking over the reference in a [next] field. *)
Lemma sane_unlink n w R h p b q :
  sane n w R h -> h_pbufs h !! p = Some b -> p ∉ kept n -> next b = Some q ->
  sane n w (q :: R) (patch p (set_next None b) h).
Proof.
  intros [[Hc Hw Hp] Ho Hlo Hk] Hb Hnk Hn. split; [split| | |].
  - by apply (counted_unlink h (R ++ backing n)).
  - by eapply upd_wf.
  - unfold patch. by rewrite (upd_pool h p b).
  - apply own_upd; [done|]. eapply own_ok_eq; [by apply Ho|done..].
  - intros i c Hi. simpl. rewrite lookup_insert. case_decide; [|by apply Hlo].
    subst. intros [= <-]. by apply (Hlo i b).
  - eapply upd_readable; [exact Hb| |exact Hk]. by intros o _ ?.
Qed.

(** pbuf_realloc of a received packet: the rest of its chain is given up. *)
Lemma sane_truncate n w R h p b k :
  sane n w R h -> p ∈ R -> p ∉ kept n -> h_pbufs h !! p = Some b -> unshared b -> 0 <= k < tot_len b ->
  exists h', pbuf_realloc (Some p) k h = Some (tt, h') /\ sane n w R h' /\
    h_pbufs h' !! p = Some (cut k b) /\ h_mem h' !! p = h_mem h !! p.
Proof.
  intros Hs Hp Hnk Hb (Hr & Hsrc & Ht) Hk. unfold pbuf_realloc.
  mrun (deref_run _ _ _ Hb). rewrite (proj2 (Z.leb_gt _ _)) by lia. rewrite bind_get. unfold chain_fuel.
  cbn [pbuf_realloc_loop]. rewrite bind_assoc. mrun (deref_run _ _ _ Hb). rewrite (proj2 (Z.ltb_ge _ _)) by lia. rewrite bind_ret.
  unfold pbuf_realloc_cut. mrun (get_pbuf_run _ _ _ Hb). unfold pbuf_match_allocsrc. rewrite Hsrc.
  change (_ =? Z.land PBUF_TYPE_ALLOC_SRC_MASK_STD_HEAP PBUF_TYPE_ALLOC_SRC_MASK) with false. cbn [andb]. rewrite bind_ret. set (b1 := set_tot_len k (set_len k b)).
  mrun (upd_pbuf_run _ _ _ (fun b => set_tot_len k (set_len k b)) Hb). fold b1. fold (patch p b1 h).
  pose proof (sane_shorter _ _ _ _ _ _ k Hs Hb Hnk ltac:(lia)) as Hs1. fold b1 in Hs1. set (h1 := patch p b1 h) in *.
  assert (h_pbufs h1 !! p = Some b1) as Hb1 by apply lookup_insert_eq.
  destruct (next b) as [q|] eqn:Hn.
  2:{ rewrite bind_ret, (upd_pbuf_run _ _ _ _ Hb1). eexists. split; [done|]. split; [|split; [apply lookup_insert_eq|done]].
      fold (patch p (set_next None b1) h1). rewrite (patch_id _ (set_next None b1)); [done|]. rewrite Hb1. unfold b1. clear -Hn. destruct b. simpl in Hn. by subst. }
  pose proof (sane_unlink _ _ _ _ _ _ q Hs1 Hb1 Hnk Hn) as Hs2. set (h2 := patch p (set_next None b1) h1) in *.
  destruct (sane_free _ _ _ _ _ Hs2) as (c & h3 & Hf & Hs3). pose proof (good_counted _ _ _ (sane_good _ _ _ _ Hs1)) as Hc1.
  destruct (counted_chain _ _ Hc1 p b1 Hb1) as [l Hl]. pose proof (chain_NoDup _ _ _ Hl) as Hnd.
  apply chain_inv in Hl as (b' & r & -> & Hb' & Hl). assert (b' = b1) as -> by congruence. csimpl in Hnd. apply NoDup_cons in Hnd as [Hnr _].
  change (next b1) with (next b) in Hl. rewrite Hn in Hl.
  destruct (free_loop_patch (chain_fuel h2) h2 (R ++ backing n) (Some q) 0 p (set_next None b1) b1) as (c' & h3' & Hf2 & Hf1 & Hp3 & Hm3).
  { apply (sane_good _ _ _ _ Hs2). } { unfold chain_fuel. lia. } { apply lookup_insert_eq. }
  { intros l' Hl'. enough (l' = r) as -> by done. apply (chain_det h2 (Some q)); [done|].
    apply chain_ext with h1; [|done]. intros j d Hj. simpl. rewrite lookup_insert_ne; [by apply (chain_lookup _ _ _ _ _ Hl)|].
    intros <-. apply Hnr, list_elem_of_fmap. by exists (p, d). }
  unfold pbuf_free in Hf. rewrite bind_get in Hf. rewrite Hf in Hf2. injection Hf2 as <- <-.
  assert (patch p b1 h2 = h1) as E1 by (unfold h2; rewrite patch_patch; by apply patch_id). rewrite E1 in Hf1.
  assert (chain_fuel h2 = chain_fuel h1) as E2.
  { unfold chain_fuel. simpl. by rewrite map_size_insert_Some by by exists b1. }
  rewrite E2 in Hf1. rewrite bind_assoc. unfold pbuf_free. rewrite bind_assoc, bind_get. mrun Hf1. rewrite bind_ret.
  assert (h_pbufs (patch p b1 h3) !! p = Some b1) as Hb3 by apply lookup_insert_eq.
  rewrite (upd_pbuf_run _ _ _ _ Hb3). fold (patch p (set_next None b1) (patch p b1 h3)).
  rewrite patch_patch, (patch_id _ _ _ Hp3). exists h3. split; [done|]. split; [done|]. split; [done|by rewrite Hm3].
Qed.

(** ** Copying *)

Lemma is_queue_total h p l : chain h p l -> exists r, is_queue p h = Some (r, h).
Proof.
  intros Hc. destruct p as [j|]; [|by exists false]. apply chain_inv in Hc as (b & r & -> & Hj & _).
  unfold is_queue. mrun (get_pbuf_run _ _ _ Hj). by eexists.
Qed.

(** Where a pointer into a chain stands: before the end of its first pbuf, or
    at the end. *)
Definition stands (l : list (positive * pbuf)) (o : Z) : Prop :=
  match l with (_, b) :: _ => 0 <= o <= len b | [] => o = 0 end.

Lemma sane_copy_loop n w R fuel : forall h t f lt lf ot of_,
  sane n w R h -> chain h (Some t) lt -> chain h (Some f) lf -> stands lt ot -> stands lf of_ ->
  (length lt + length lf <= fuel)%nat ->
  exists e h', pbuf_copy_loop fuel (Some t) (Some f) ot of_ h = Some (e, h') /\ sane n w R h' /\ h_pbufs h' = h_pbufs h.
Proof.
  induction fuel as [|fuel IH]; intros h t f lt lf ot of_ Hs Ht Hf Hot Hof Hfu;
    apply chain_inv in Ht as (bt & rt & -> & Hbt & Ht); apply chain_inv in Hf as (bf & rf & -> & Hbf & Hf);
    simpl in Hfu; [lia|]. cbn [stands] in Hot, Hof. cbn [pbuf_copy_loop].
  mrun (deref_run _ _ _ Hbt). mrun (deref_run _ _ _ Hbf). cbv zeta.
  destruct (sane_own _ _ _ _ Hs t bt Hbt) as [_ _ Hlt (o & bs & Hp & Hbs & Ho & Hob)].
  pose proof (sane_own _ _ _ _ Hs f bf Hbf) as Hown. pose proof (own_len _ _ _ Hown) as Hlf.
  rewrite (u32_small (len bf - of_)), (u32_small (len bt - ot)) by lia.
  set (l := if len bf - of_ <=? len bt - ot then len bf - of_ else len bt - ot).
  assert (0 <= l /\ of_ + l <= len bf /\ ot + l <= len bt /\ (of_ + l = len bf \/ ot + l = len bt)) as (Hl0 & Hl1 & Hl2 & Hl3).
  { unfold l. destruct (len bf - of_ <=? len bt - ot) eqn:El; b2p; lia. }
  pose proof (load_pdata h bf of_ l (own_payload_ok _ _ _ Hown) ltac:(lia) ltac:(lia) Hl1) as Hload.
  mrun Hload. assert (lenZ (slice (pdata h bf) of_ l) = l) as Hll.
  { apply length_slice; [lia|lia|]. rewrite length_pdata; [lia|lia|by eapply own_payload_ok]. }
  destruct (sane_store n w R h t bt o ot (slice (pdata h bf) of_ l) Hs Hbt Hp ltac:(lia)) as (h1 & Hst & Hs1 & Hp1 & _).
  { exists bt, o, bs. unfold SIZEOF_STRUCT_PBUF in Ho. split_and!; (done || lia). }
  mrun Hst. rewrite (u32_small (of_ + l)), (u32_small (ot + l)) by lia.
  assert (forall q r, chain h q r -> chain h1 q r) as Hch.
  { intros q r Hq. apply chain_ext with h; [|done]. intros k d Hk. rewrite Hp1. by apply (chain_lookup _ _ _ _ _ Hq). }
  assert (forall t' f' lt' lf' ot' of', chain h1 t' lt' -> chain h1 f' lf' -> stands lt' ot' -> stands lf' of' ->
    (length lt' + length lf' <= fuel)%nat -> (t' = None -> ot + l = len bt) ->
    exists e h', (if (ot + l =? len bt) && bool_decide (t' = None) && negb (bool_decide (f' = None)) then mret ERR_ARG
      else q1 ← is_queue f'; if (q1 : bool) then mret ERR_VAL else q2 ← is_queue t'; if (q2 : bool) then mret ERR_VAL
      else match f' with Some _ => pbuf_copy_loop fuel t' f' ot' of' | None => mret ERR_OK end) h1 = Some (e, h') /\
      sane n w R h' /\ h_pbufs h' = h_pbufs h) as Hgo.
  { intros t' f' lt' lf' ot' of' Ht' Hf' Hot' Hof' Hfu' Hnone.
    destruct (is_queue_total _ _ _ Hf') as [q1 Hq1]. destruct (is_queue_total _ _ _ Ht') as [q2 Hq2].
    destruct (_ && _ && _) eqn:Earg; [by exists ERR_ARG, h1|]. mrun Hq1. destruct q1; [by exists ERR_VAL, h1|].
    mrun Hq2. destruct q2; [by exists ERR_VAL, h1|]. destruct f' as [f'|]; [|by exists ERR_OK, h1].
    destruct t' as [t'|].
    - destruct (IH h1 t' f' lt' lf' ot' of' Hs1 Ht' Hf' Hot' Hof' Hfu') as (e & h' & Hr & Hs' & Hp'). exists e, h'.
      split; [done|]. split; [done|congruence].
    - rewrite (proj2 (Z.eqb_eq _ _) (Hnone eq_refl)) in Earg. by cbv in Earg. }
  apply Hch in Ht, Hf. assert (chain h1 (Some t) ((t, bt) :: rt)) as Htt by (constructor; [by rewrite Hp1|done]).
  assert (chain h1 (Some f) ((f, bf) :: rf)) as Hff by (constructor; [by rewrite Hp1|done]).
  assert (forall q r, chain h1 q r -> stands r 0) as H0.
  { intros q r Hq. destruct r as [|[i b] r]; [done|]. apply chain_inv' in Hq as (_ & Hi & _). simpl.
    rewrite Hp1 in Hi. pose proof (own_len _ _ _ (sane_own _ _ _ _ Hs i b Hi)). lia. }
  destruct (len bf <=? of_ + l) eqn:Ef, (ot + l =? len bt) eqn:Et; b2p.
  - eapply Hgo; [exact Ht|exact Hf|by eapply H0|by eapply H0|lia|done].
  - eapply Hgo; [exact Htt|exact Hf|simpl; lia|by eapply H0|simpl; lia|done].
  - eapply (Hgo _ (Some f)); [exact Ht|exact Hff|by eapply H0|simpl; lia|simpl; lia|done].
  - lia.
Qed.

Lemma sane_copy n w R h t f :
  sane n w R h -> t ∈ R -> f ∈ R ->
  exists e h', pbuf_copy (Some t) (Some f) h = Some (e, h') /\ sane n w R h' /\ h_pbufs h' = h_pbufs h.
Proof.
  intros Hs Ht Hf. destruct (sane_live _ _ _ _ _ Hs Ht) as (bt & Hbt & Hot). destruct (sane_live _ _ _ _ _ Hs Hf) as (bf & Hbf & Hof).
  unfold pbuf_copy. mrun (get_pbuf_run _ _ _ Hbt). mrun (get_pbuf_run _ _ _ Hbf).
  destruct (_ <? _); [by exists ERR_ARG, h|]. rewrite bind_get.
  destruct (sane_chain _ _ _ _ _ Hs Ht) as (lt & Hlt & _). destruct (sane_chain _ _ _ _ _ Hs Hf) as (lf & Hlf & _).
  pose proof (chain_fuel_enough _ _ _ Hlt). pose proof (chain_fuel_enough _ _ _ Hlf).
  apply (sane_copy_loop n w R _ h t f lt lf); try done; [..|lia].
  - apply chain_inv in Hlt as (b & r & -> & Hb & _). assert (b = bt) as -> by congruence. simpl. pose proof (own_len _ _ _ Hot). lia.
  - apply chain_inv in Hlf as (b & r & -> & Hb & _). assert (b = bf) as -> by congruence. simpl. pose proof (own_len _ _ _ Hof). lia.
Qed.

(** ** Headers *)

(** On the stack's own pbufs the forced variant is the plain one. *)
Lemma header_force_own n w R h p k :
  sane n w R h -> p ∈ R -> 0 <= k ->
  pbuf_header_force (Some p) k h = pbuf_add_header (Some p) k h.
Proof.
  intros Hs Hp Hk. destruct (sane_live _ _ _ _ _ Hs Hp) as (b & Hb & [Hc _ _ (o & bs & Hpl & _)]).
  unfold pbuf_header_force, pbuf_header_impl. rewrite (proj2 (Z.ltb_ge _ _)) by done.
  unfold pbuf_add_header, pbuf_add_header_impl. destruct (_ <? k); [done|]. destruct (k =? 0); [done|].
  rewrite !(bind_run _ _ _ _ _ (get_pbuf_run _ _ _ Hb)). cbv beta zeta. by rewrite Hpl, (proj2 (Z.eqb_neq _ 0) Hc).
Qed.


(** pbuf_remove_header and pbuf_add_header, exactly. *)
Lemma sane_removed n w R h p b o k :
  sane n w R h -> p ∉ kept n -> h_pbufs h !! p = Some b -> payload b = Some (Ptr p o) -> 0 < k < 65536 ->
  exists r h', pbuf_remove_header (Some p) k h = Some (r, h') /\ sane n w R h' /\
    (r = false -> k <= len b /\ h' = patch p (move_payload b p o (- k)) h) /\ (k <= len b -> r = false).
Proof.
  intros Hs Hnk Hb Hpl Hk. pose proof (sane_own _ _ _ _ Hs p b Hb) as [Hct Hst Hl (o1 & bs & Hpl1 & Hbs & Ho & Hob)]. assert (o1 = o) as -> by congruence.
  destruct (decide (k <= len b)) as [Hle|Hgt].
  - rewrite (pbuf_remove_header_run h p b p o k Hb Hpl ltac:(lia) Hle ltac:(lia)). eexists false, _. split; [done|].
    split; [|done]. fold (patch p (move_payload b p o (- k)) h).
    eapply sane_relabel; [exact Hs|by eapply same_links_upd|done|done|done| |by eapply upd_readable; [exact Hb|]].
    apply own_upd; [apply (sane_own _ _ _ _ Hs)|]. unfold move_payload. split; simpl; try done; [ulia|].
    eexists _, bs. split; [done|]. split; [done|]. split; [lia|ulia].
  - unfold pbuf_remove_header. rewrite (proj2 (Z.ltb_ge 0xFFFF k)), (proj2 (Z.eqb_neq k 0)) by lia.
    mrun (get_pbuf_run _ _ _ Hb). rewrite u16_small by lia. rewrite (proj2 (Z.ltb_lt _ _)) by lia.
    exists true, h. split; [done|]. split; [done|]. split; [done|lia].
Qed.

Lemma sane_added n w R h p b o k :
  sane n w R h -> p ∈ R -> h_pbufs h !! p = Some b -> payload b = Some (Ptr p o) -> 0 < k < 65536 ->
  exists r h', pbuf_add_header (Some p) k h = Some (r, h') /\ sane n w R h' /\ (r = true -> h' = h) /\
    (r = false -> SIZEOF_STRUCT_PBUF + k <= o /\ h' = patch p (move_payload b p o k) h) /\
    (SIZEOF_STRUCT_PBUF + k <= o -> 0 <= tot_len b -> tot_len b + k < 65536 -> r = false).
Proof.
  intros Hs Hp Hb Hpl Hk. destruct (sane_add_header n w R h p k Hs Hp Hk) as (r & h' & Hr & Hs' & _). exists r, h'.
  split; [done|]. split; [done|]. pose proof (sane_own _ _ _ _ Hs p b Hb) as [Hct _ _ _]. revert Hr.
  unfold pbuf_add_header, pbuf_add_header_impl. rewrite (proj2 (Z.ltb_ge 0xFFFF k)), (proj2 (Z.eqb_neq k 0)) by lia.
  mrun (get_pbuf_run _ _ _ Hb). cbv zeta. rewrite (u16_small k) by lia. rewrite Hpl, (proj2 (Z.eqb_neq _ 0) Hct). cbn [negb].
  destruct (u16 (k + tot_len b) <? k) eqn:Ew; b2p.
  { intros [= <- <-]. split; [done|]. split; [done|]. intros. rewrite u16_small in Ew; lia. }
  rewrite decide_True by done. destruct (o - k <? SIZEOF_STRUCT_PBUF) eqn:Eo; b2p.
  { intros [= <- <-]. split; [done|]. split; [done|]. lia. }
  rewrite (bind_run _ _ _ _ _ (upd_pbuf_run _ _ _ _ Hb)). intros [= <- <-]. split; [done|]. split; [|done]. intros _. split; [lia|done].
Qed.

(** ** New pbufs *)

Lemma own_readable h p b : own_ok h p b -> h_pbufs h !! p = Some b -> readable h p (len b).
Proof.
  intros [_ _ _ (o & bs & Hpl & Hbs & Ho & Hob)] Hb. exists b, o, bs. unfold SIZEOF_STRUCT_PBUF in Ho. split_and!; (done || lia).
Qed.

(** What pbuf_alloc of PBUF_RAM leaves, when memory is found. *)
Lemma sane_alloc_ram n w R h layer k :
  sane n w R h -> 0 <= k < 65536 ->
  exists r h', pbuf_alloc layer k PBUF_RAM h = Some (r, h') /\ sane n w (option_list r ++ R) h' /\
    match r with
    | None => h' = h
    | Some q => q = h_next h /\ h' = with_new h (ram_size layer k) (ram_pbuf q layer k) 0 0
    end.
Proof.
  intros Hs Hk. destruct (sane_alloc n w R h layer k PBUF_RAM Hs Hk ltac:(by left)) as (r & h' & Hr & Hs').
  exists r, h'. split; [done|]. split; [done|]. rewrite pbuf_alloc_ram_run in Hr by done.
  case_decide; [|by simplify_eq]. destruct (heap_admits _ _); by simplify_eq.
Qed.

(** ** What stores leave alone *)

(** The same pbufs, and blocks of the same sizes. *)
Definition shape (h h' : heap) : Prop :=
  h_pbufs h' = h_pbufs h /\ forall k, length <$> h_mem h' !! k = length <$> h_mem h !! k.

Lemma shape_refl h : shape h h.
Proof. done. Qed.
Lemma shape_trans h1 h2 h3 : shape h1 h2 -> shape h2 h3 -> shape h1 h3.
Proof. intros [P1 L1] [P2 L2]. split; [congruence|]. intros k. by rewrite L2, L1. Qed.
Lemma shape_readable h h' p k : shape h h' -> readable h p k -> readable h' p k.
Proof. intros [Ep L]. by apply readable_same. Qed.

(** Reading and writing at a pointer into the block of a pbuf. *)
Lemma shape_load h h' p b k i m :
  shape h h' -> h_pbufs h !! p = Some b -> readable h p k -> 0 <= i -> 0 <= m -> i + m <= k ->
  exists d, load (payload b) i m h' = Some (d, h') /\ lenZ d = m.
Proof.
  intros Hsh Hb Hr Hi Hm Hk. destruct (shape_readable _ _ _ _ Hsh Hr) as (b' & o & bs & Hb' & Hpl & Hbs & Ho & Hl).
  rewrite (proj1 Hsh) in Hb'. assert (b' = b) as -> by congruence. exists (slice bs (o + i) m). split; [|by apply length_slice; lia].
  rewrite Hpl. unfold load. destruct (m =? 0) eqn:E0; b2p; [by subst|]. rewrite Hbs.
  by rewrite (proj2 (Z.leb_le 0 (o + i))), (proj2 (Z.leb_le 0 m)), (proj2 (Z.leb_le (o + i + m) _)) by lia.
Qed.

Lemma shape_store n w R h h' p b k i v :
  sane n w R h' -> shape h h' -> h_pbufs h !! p = Some b -> readable h p k -> 0 <= i -> i + lenZ v <= k ->
  exists h2, store (payload b) i v h' = Some (tt, h2) /\ sane n w R h2 /\ shape h h2.
Proof.
  intros Hs Hsh Hb Hr Hi Hk. destruct (shape_readable _ _ _ _ Hsh Hr) as (b' & o & bs & Hb' & Hpl & Hbs & Ho & Hl).
  pose proof Hb' as Hb2. rewrite (proj1 Hsh) in Hb2. assert (b' = b) as -> by congruence.
  destruct (sane_store n w R h' p b o i v Hs Hb' Hpl Hi) as (h2 & Hst & Hs2 & Hp2 & Hl2).
  { exists b, o, bs. split_and!; (done || lia). }
  exists h2. split; [done|]. split; [done|]. by eapply shape_trans.
Qed.

(** pbuf_add_header refuses a header that does not fit in front. *)
Lemma add_header_full h p b o k :
  h_pbufs h !! p = Some b -> payload b = Some (Ptr p o) ->
  Z.land (type_internal b) PBUF_TYPE_FLAG_STRUCT_DATA_CONTIGUOUS <> 0 -> 0 < k < 65536 -> o - k < SIZEOF_STRUCT_PBUF ->
  pbuf_add_header (Some p) k h = Some (true, h).
Proof.
  intros Hb Hpl Hc Hk Ho. unfold pbuf_add_header, pbuf_add_header_impl.
  rewrite (proj2 (Z.ltb_ge 0xFFFF k)), (proj2 (Z.eqb_neq k 0)) by lia. mrun (get_pbuf_run _ _ _ Hb). cbv zeta.
  rewrite Hpl, (proj2 (Z.eqb_neq _ 0) Hc). cbn [negb]. destruct (_ <? u16 k); [done|]. rewrite decide_True by done.
  rewrite (u16_small k) by lia. by rewrite (proj2 (Z.ltb_lt _ _) Ho).
Qed.

End Edit.
