(* ===== verification/InetChksum.v ===== *)
(** * Internet checksums: core/inet_chksum.c

    The three versions of lwip_standard_chksum (the port selects version 3),
    and the checksums over pbuf chains with and without the IPv4 pseudo header.
    A buffer is its address and its bytes: version 2 and 3 depend on the
    address's alignment. *)
From S2P Require Import Prelude Def Pbuf PbufFacts.

Definition FOLD_U32T (u : Z) : Z := u32 (Z.shiftr u 16 + Z.land u 0x0000ffff).
Definition SWAP_BYTES_IN_WORD (w : Z) : Z :=
  Z.lor (Z.shiftl (Z.land w 0xff) 8) (Z.shiftr (Z.land w 0xff00) 8).

(** ** lwip_standard_chksum *)

(** Version 1: octets two at a time, the first as the most significant. *)
Fixpoint chksum1_loop (d : list Z) (acc : Z) : Z * list Z :=
  match d with
  | a :: b :: r => chksum1_loop r (u32 (acc + u16 (Z.lor (u16 (Z.shiftl a 8)) b)))
  | _ => (acc, d)
  end.

Definition lwip_standard_chksum1 (d : list Z) : Z :=
  let '(acc, d) := chksum1_loop d 0 in
  let acc := match d with a :: _ => u32 (acc + u16 (Z.shiftl a 8)) | [] => acc end in
  let acc := u32 (Z.shiftr acc 16 + Z.land acc 0x0000ffff) in
  let acc := if negb (Z.land acc 0xffff0000 =? 0)
             then u32 (Z.shiftr acc 16 + Z.land acc 0x0000ffff) else acc in
  lwip_htons (u16 acc).

(** [sum += *ps++] while two octets are left. *)
Fixpoint sum_words (d : list Z) (sum : Z) : Z * list Z :=
  match d with
  | a :: b :: r => sum_words r (u32 (sum + (a + 256 * b)))
  | _ => (sum, d)
  end.

(** The prologue of versions 2 and 3: the octet at an odd address goes to the
    upper half of [t]. *)
Definition take_odd (odd : bool) (d : list Z) : Z * list Z :=
  match d with
  | b :: r => if odd then (Z.lor (Z.shiftl b 8) 0, r) else (0, d)
  | [] => (0, d)
  end.

(** The epilogue: the left-over octet goes to the lower half of [t]; fold and
    swap back. *)
Definition chksum_end (odd : bool) (sum t : Z) (d : list Z) : Z :=
  let t := match d with b :: _ => Z.lor (Z.land t 0xff00) b | [] => t end in
  let sum := u32 (sum + t) in
  let sum := FOLD_U32T sum in
  let sum := FOLD_U32T sum in
  let sum := if (odd : bool) then SWAP_BYTES_IN_WORD sum else sum in
  u16 sum.

(** Version 2. *)
Definition lwip_standard_chksum2 (addr : Z) (d : list Z) : Z :=
  let odd := negb (Z.land addr 1 =? 0) in
  let '(t, d) := take_odd odd d in
  let '(sum, d) := sum_words d 0 in
  chksum_end odd sum t d.

(** Version 3: the inner loop adds two 32-bit words with end-around carry. *)
Definition add_carry (sum w : Z) : Z :=
  let tmp := u32 (sum + w) in if tmp <? sum then u32 (tmp + 1) else tmp.

Fixpoint sum_longs (d : list Z) (sum : Z) : Z * list Z :=
  match d with
  | a0 :: a1 :: a2 :: a3 :: b0 :: b1 :: b2 :: b3 :: r =>
      sum_longs r (add_carry (add_carry sum (of_bytes4 a0 a1 a2 a3)) (of_bytes4 b0 b1 b2 b3))
  | _ => (sum, d)
  end.

Definition lwip_standard_chksum (addr : Z) (d : list Z) : Z :=
  let odd := negb (Z.land addr 1 =? 0) in
  let '(t, d1) := take_odd odd d in
  let addr := addr + (lenZ d - lenZ d1) in
  let '(sum, d) := match d1 with
    | a :: b :: r => if negb (Z.land addr 3 =? 0) then (u32 (0 + (a + 256 * b)), r) else (0, d1)
    | _ => (0, d1)
    end in
  let '(sum, d) := sum_longs d sum in
  let sum := FOLD_U32T sum in
  let '(sum, d) := sum_words d sum in
  chksum_end odd sum t d.

(** LWIP_CHKSUM with LWIP_CHKSUM_ALGORITHM 3. *)
Definition LWIP_CHKSUM := lwip_standard_chksum.

(** inet_chksum *)
Definition inet_chksum (addr : Z) (d : list Z) : Z := u16 (Z.lnot (LWIP_CHKSUM addr d)).

(** ** Chains of pbufs

    [addr_of q]: the address a payload pointer stands for. *)
Section Chains.
Context (addr_of : ptr -> Z).

Definition payload_addr (b : pbuf) : Z :=
  match payload b with Some q => addr_of q | None => 0 end.

(** The for loop common to inet_chksum_pbuf and inet_cksum_pseudo_base. *)
Fixpoint chksum_pbuf_loop (fuel : nat) (q : option positive) (acc : Z) (swapped : bool)
    : M heap (Z * bool) :=
  match q with
  | None => mret (acc, swapped)
  | Some i =>
    match fuel with
    | O => stuck
    | S fuel =>
      b ← get_pbuf i;
      d ← load (payload b) 0 (len b);
      let acc := u32 (acc + LWIP_CHKSUM (payload_addr b) d) in
      let acc := FOLD_U32T acc in
      if negb (len b mod 2 =? 0)
      then chksum_pbuf_loop fuel (next b) (SWAP_BYTES_IN_WORD acc) (negb swapped)
      else chksum_pbuf_loop fuel (next b) acc swapped
    end
  end.

Definition inet_chksum_pbuf (p : option positive) : M heap Z :=
  h ← get;
  '(acc, swapped) ← chksum_pbuf_loop (chain_fuel h) p 0 false;
  let acc := if (swapped : bool) then SWAP_BYTES_IN_WORD acc else acc in
  mret (u16 (Z.lnot (Z.land acc 0xffff))).

Definition inet_cksum_pseudo_base (p : option positive) (proto proto_len acc : Z) : M heap Z :=
  h ← get;
  '(acc, swapped) ← chksum_pbuf_loop (chain_fuel h) p acc false;
  let acc := if (swapped : bool) then SWAP_BYTES_IN_WORD acc else acc in
  let acc := u32 (acc + lwip_htons (u16 proto)) in
  let acc := u32 (acc + lwip_htons proto_len) in
  let acc := FOLD_U32T acc in
  let acc := FOLD_U32T acc in
  mret (u16 (Z.lnot (Z.land acc 0xffff))).

(** The address words of the IPv4 pseudo header. *)
Definition pseudo_acc (src dest : Z) : Z :=
  let acc := Z.land src 0xffff in
  let acc := u32 (acc + Z.land (Z.shiftr src 16) 0xffff) in
  let acc := u32 (acc + Z.land dest 0xffff) in
  let acc := u32 (acc + Z.land (Z.shiftr dest 16) 0xffff) in
  let acc := FOLD_U32T acc in
  FOLD_U32T acc.

Definition inet_chksum_pseudo (p : option positive) (proto proto_len src dest : Z) : M heap Z :=
  inet_cksum_pseudo_base p proto proto_len (pseudo_acc src dest).

(** ip_chksum_pseudo: IPv4 only in this configuration. *)
Definition ip_chksum_pseudo := inet_chksum_pseudo.

Fixpoint chksum_partial_loop (fuel : nat) (q : option positive) (acc : Z) (swapped : bool)
    (chksum_len : Z) : M heap (Z * bool) :=
  match q with
  | None => mret (acc, swapped)
  | Some i =>
    if negb (0 <? chksum_len) then mret (acc, swapped)
    else match fuel with
    | O => stuck
    | S fuel =>
      b ← get_pbuf i;
      let chklen := if chksum_len <? len b then chksum_len else len b in
      d ← load (payload b) 0 chklen;
      let acc := u32 (acc + LWIP_CHKSUM (payload_addr b) d) in
      let chksum_len := u16 (chksum_len - chklen) in
      let acc := FOLD_U32T acc in
      if negb (len b mod 2 =? 0)
      then chksum_partial_loop fuel (next b) (SWAP_BYTES_IN_WORD acc) (negb swapped) chksum_len
      else chksum_partial_loop fuel (next b) acc swapped chksum_len
    end
  end.

Definition inet_cksum_pseudo_partial_base (p : option positive) (proto proto_len chksum_len acc : Z)
    : M heap Z :=
  h ← get;
  '(acc, swapped) ← chksum_partial_loop (chain_fuel h) p acc false chksum_len;
  let acc := if (swapped : bool) then SWAP_BYTES_IN_WORD acc else acc in
  let acc := u32 (acc + lwip_htons (u16 proto)) in
  let acc := u32 (acc + lwip_htons proto_len) in
  let acc := FOLD_U32T acc in
  let acc := FOLD_U32T acc in
  mret (u16 (Z.lnot (Z.land acc 0xffff))).

Definition inet_chksum_pseudo_partial (p : option positive) (proto proto_len chksum_len src dest : Z)
    : M heap Z :=
  inet_cksum_pseudo_partial_base p proto proto_len chksum_len (pseudo_acc src dest).
Definition ip_chksum_pseudo_partial := inet_chksum_pseudo_partial.

End Chains.

(** ** The reference: RFC 1071's one's complement sum

    [osum d]: the octets of [d] weighted by 1 at even and 256 at odd positions,
    the value a little-endian machine gives the sum of the 16-bit words.
    [ocsum s]: the 16-bit one's complement representative of [s]. *)
Fixpoint osum (d : list Z) : Z :=
  match d with
  | a :: b :: r => a + 256 * b + osum r
  | [a] => a
  | [] => 0
  end.

Definition ocsum (s : Z) : Z := if s =? 0 then 0 else (s - 1) mod 65535 + 1.

(** [x] stands for [s] in one's complement arithmetic. *)
Definition oc (x s : Z) : Prop := 0 <= x /\ x mod 65535 = s mod 65535 /\ (x = 0 <-> s = 0).

Lemma oc_iff x s : oc x s <-> 0 <= x /\ (exists k, x = s + k * 65535) /\ (x = 0 <-> s = 0).
Proof.
  unfold oc. split; intros (H0 & H1 & H2); split_and!; try done; try apply H2.
  - exists (x / 65535 - s / 65535).
    pose proof (Z.div_mod x 65535 ltac:(lia)). pose proof (Z.div_mod s 65535 ltac:(lia)). lia.
  - destruct H1 as [k ->]. by rewrite Z.mod_add.
Qed.

Lemma oc_unique x s : oc x s -> 0 <= s -> x <= 65535 -> x = ocsum s.
Proof.
  intros (H0 & [k ->] & H2)%oc_iff Hs Hx. unfold ocsum.
  destruct (Z.eqb_spec s 0) as [->|Hn]; [lia|].
  assert (s + k * 65535 <> 0) by tauto.
  rewrite <- (Z.mod_unique_pos (s - 1) 65535 (- k) (s + k * 65535 - 1)); lia.
Qed.

Lemma oc_refl s : 0 <= s -> oc s s.
Proof. by split. Qed.

Lemma oc_add x y s t : oc x s -> oc y t -> 0 <= s -> 0 <= t -> oc (x + y) (s + t).
Proof.
  intros (? & [k ->] & ?)%oc_iff (? & [l ->] & ?)%oc_iff ??. apply oc_iff.
  split_and!; [lia|exists (k + l); lia|lia].
Qed.

(** Folding splits off the upper half and adds it. *)
Lemma fold_eq x :
  0 <= x < 4294967296 ->
  FOLD_U32T x = x / 65536 + x mod 65536 /\ x = 65536 * (x / 65536) + x mod 65536 /\
  0 <= x mod 65536 < 65536 /\ 0 <= x / 65536 < 65536.
Proof.
  intros Hx. pose proof (Z.div_mod x 65536 ltac:(lia)). pose proof (Z.mod_pos_bound x 65536 ltac:(lia)).
  assert (0 <= x / 65536 < 65536) by (split; [apply Z.div_pos|apply Z.div_lt_upper_bound]; lia).
  split_and!; try lia. unfold FOLD_U32T. rewrite Z.shiftr_div_pow2, land_0xffff by lia.
  change (2 ^ 16) with 65536. by rewrite u32_small by lia.
Qed.

Lemma oc_fold x s : oc x s -> x < 4294967296 -> oc (FOLD_U32T x) s.
Proof.
  intros (? & [k Hk] & Hz)%oc_iff Hx. destruct (fold_eq x ltac:(lia)) as (-> & ? & ? & ?).
  apply oc_iff. split_and!; [lia|exists (k - x / 65536); lia|lia].
Qed.

Lemma fold_bound x b : 0 <= x <= b -> b < 4294967296 -> 0 <= FOLD_U32T x <= b / 65536 + 65535.
Proof.
  intros Hx Hb. destruct (fold_eq x ltac:(lia)) as (-> & ? & ? & ?).
  assert (x / 65536 <= b / 65536) by (apply Z.div_le_mono; lia). lia.
Qed.

(** Folding a sum of fewer than 65536 words brings it below 2^17, folding it
    again to 16 bits. *)
Lemma fold2_bound x : 0 <= x < 4294836225 -> 0 <= FOLD_U32T (FOLD_U32T x) <= 65535.
Proof.
  intros Hx. destruct (fold_eq x ltac:(lia)) as (Hf & ? & ? & ?).
  destruct (fold_eq (FOLD_U32T x) ltac:(lia)) as (-> & ? & ? & ?). lia.
Qed.

Lemma swap_eq x : 0 <= x < 65536 -> SWAP_BYTES_IN_WORD x = lwip_htons x.
Proof.
  intros Hx. unfold lwip_htons, PP_HTONS, SWAP_BYTES_IN_WORD. rewrite u16_small; [done|].
  rewrite land_0xff. change 0xff00 with (Z.shiftl (Z.ones 8) 8). rewrite land_field by lia.
  rewrite Z.shiftr_div_pow2, Z.div_mul by lia. change (2 ^ 8) with 256.
  pose proof (Z.mod_pos_bound (x / 256) 256 ltac:(lia)).
  rewrite lor_shiftl_add by (change (2 ^ 8) with 256; lia). change (2 ^ 8) with 256.
  pose proof (Z.mod_pos_bound x 256 ltac:(lia)). lia.
Qed.

(** Swapping the bytes multiplies by 256. *)
Lemma oc_swap x s : oc x s -> 0 <= s -> x < 65536 -> oc (SWAP_BYTES_IN_WORD x) (256 * s).
Proof.
  intros (? & [k ->] & Hz)%oc_iff Hs Hx. set (x := s + k * 65535) in *.
  rewrite swap_eq, lwip_htons_eq by lia.
  pose proof (Z.div_mod x 256 ltac:(lia)). pose proof (Z.mod_pos_bound x 256 ltac:(lia)).
  assert (0 <= x / 256) by (apply Z.div_pos; lia).
  apply oc_iff. split_and!; [lia|exists (256 * k - x / 256); lia|lia].
Qed.

(** Multiplying by 65536 changes nothing. *)
Lemma oc_65536 x s t : oc x (65536 * s + t) -> 0 <= s -> 0 <= t -> oc x (s + t).
Proof.
  intros (? & [k ->] & Hz)%oc_iff ??. apply oc_iff.
  split_and!; [lia|exists (s + k); lia|lia].
Qed.

Lemma oc_65536' x s t : oc x (s + t) -> 0 <= s -> 0 <= t -> oc x (65536 * s + t).
Proof.
  intros (? & [k Hk] & Hz)%oc_iff ??. apply oc_iff.
  split_and!; [lia|exists (k - s); lia|lia].
Qed.

Lemma oc_scale x s c : oc x s -> 0 <= s -> 0 < c -> oc (c * x) (c * s).
Proof.
  intros (? & [k ->] & Hz)%oc_iff ??. apply oc_iff.
  split_and!; [nia|exists (c * k); nia|nia].
Qed.

(** ** osum *)

Lemma osum_nonneg d : bytes_ok d -> 0 <= osum d.
Proof.
  revert d. fix IH 1. intros [|a [|b r]] Hd; simpl; [lia|..].
  - apply Forall_cons in Hd as [Ha _]. apply Ha.
  - apply Forall_cons in Hd as [Ha [Hb Hr]%Forall_cons]. unfold is_byte in *.
    specialize (IH r Hr). lia.
Qed.

(** The same sum with the weights exchanged. *)
Definition osum' (d : list Z) : Z :=
  match d with a :: r => 256 * a + osum r | [] => 0 end.

Lemma osum_step a d : osum (a :: d) = a + osum' d.
Proof. destruct d; simpl; lia. Qed.
Lemma osum'_step a d : osum' (a :: d) = 256 * a + osum d.
Proof. done. Qed.

(** Shifting the octets by one position multiplies by 256. *)
Lemma osum_shift d :
  bytes_ok d ->
  exists k k', 0 <= k /\ 0 <= k' /\ 256 * osum d = osum' d + 65535 * k /\
    256 * osum' d = osum d + 65535 * k' /\ 0 <= osum d /\ 0 <= osum' d.
Proof.
  induction 1 as [|a d Ha Hd (k & k' & ? & ? & ? & ? & ? & ?)].
  - exists 0, 0. simpl. lia.
  - unfold is_byte in Ha. rewrite osum_step, osum'_step. exists k', (a + k). lia.
Qed.

Lemma osum_cons x a d : bytes_ok (a :: d) -> oc x (osum (a :: d)) <-> oc x (a + 256 * osum d).
Proof.
  intros [Ha Hd]%Forall_cons. unfold is_byte in Ha.
  destruct (osum_shift d Hd) as (k & k' & ? & ? & ? & ? & ? & ?). rewrite osum_step, !oc_iff.
  split; intros (? & [l ->] & Hz); (split_and!; [done| |lia]);
    [exists (l - k)|exists (l + k)]; lia.
Qed.

Lemma osum_app d e :
  osum (d ++ e) = osum d + (if Z.even (lenZ d) then osum e else osum' e) /\
  osum' (d ++ e) = osum' d + (if Z.even (lenZ d) then osum' e else osum e).
Proof.
  induction d as [|a d [IH IH']]; [simpl; lia|].
  change ((a :: d) ++ e) with (a :: (d ++ e)). rewrite !osum_step, !osum'_step, IH, IH'.
  rewrite length_cons, Nat2Z.inj_succ, Z.even_succ, <- Z.negb_even.
  destruct (Z.even (lenZ d)); simpl; lia.
Qed.

(** ** The three versions compute the reference *)

Lemma sum_words_spec d : forall sum s,
  bytes_ok d -> oc sum s -> 0 <= s -> sum + 65535 * (lenZ d / 2) < 4294967296 ->
  exists sum' e, sum_words d sum = (sum', e) /\ (length e <= 1)%nat /\ bytes_ok e /\
    0 <= sum' <= sum + 65535 * (lenZ d / 2) /\
    exists s', oc sum' (s + s') /\ 0 <= s' /\ osum d = s' + osum e.
Proof.
  induction d as [d IH] using (induction_ltof1 _ (@length Z)). unfold ltof in IH.
  intros sum s Hd Hs Hs0 Hb. destruct d as [|a [|b r]].
  - exists sum, []. change (lenZ [] / 2) with 0 in *. pose proof Hs as [? _].
    split_and!; try done; try lia; try (simpl; lia). exists 0. by rewrite Z.add_0_r.
  - exists sum, [a]. change (lenZ [a] / 2) with 0 in *. pose proof Hs as [? _].
    split_and!; try done; try lia; try (simpl; lia). exists 0. by rewrite Z.add_0_r.
  - apply Forall_cons in Hd as [Ha [Hb' Hr]%Forall_cons]. unfold is_byte in Ha, Hb'.
    rewrite !length_cons in Hb.
    replace (Z.of_nat (S (S (length r)))) with (lenZ r + 1 * 2) in Hb by lia.
    rewrite Z.div_add in Hb by lia.
    assert (0 <= lenZ r / 2) by (apply Z.div_pos; lia).
    pose proof Hs as [Hs1 _]. cbn [sum_words]. rewrite u32_small by lia.
    destruct (IH r ltac:(simpl; lia) (sum + (a + 256 * b)) (s + (a + 256 * b)) Hr)
      as (sum' & e & Hrun & He & Hbe & Hbd & s' & Hoc & Hs' & Ho); [by apply oc_add; [|apply oc_refl; lia|lia|lia]|lia|lia|].
    exists sum', e. split; [done|]. split; [done|]. split; [done|].
    rewrite !length_cons. replace (Z.of_nat (S (S (length r)))) with (lenZ r + 1 * 2) by lia.
    rewrite Z.div_add by lia. split; [lia|].
    exists (a + 256 * b + s'). split_and!; [|lia|cbn [osum]; lia].
    by rewrite Z.add_assoc.
Qed.

Lemma add_carry_oc x y s t :
  oc x s -> x < 4294967296 -> oc y t -> y < 4294967296 -> 0 <= s -> 0 <= t ->
  oc (add_carry x y) (s + t) /\ 0 <= add_carry x y < 4294967296.
Proof.
  intros (? & [k Hk] & Hz)%oc_iff Hx (? & [l Hl] & Hz')%oc_iff Hy ??. unfold add_carry.
  destruct (Z.lt_ge_cases (x + y) 4294967296).
  - rewrite (u32_small (x + y)), (proj2 (Z.ltb_ge _ _)) by lia.
    split; [|lia]. apply oc_iff. split_and!; [lia|exists (k + l); lia|lia].
  - assert (u32 (x + y) = x + y - 4294967296) as ->.
    { unfold u32. symmetry. apply (Z.mod_unique_pos _ _ 1); lia. }
    rewrite (proj2 (Z.ltb_lt _ _)), u32_small by lia.
    split; [|lia]. apply oc_iff. split_and!; [lia|exists (k + l - 65537); lia|lia].
Qed.

Lemma of_bytes4_oc a b c d :
  is_byte a -> is_byte b -> is_byte c -> is_byte d ->
  oc (of_bytes4 a b c d) (osum [a; b; c; d]) /\ 0 <= of_bytes4 a b c d < 4294967296.
Proof.
  unfold is_byte, of_bytes4. intros. cbn [osum]. split; [|lia]. apply oc_iff.
  split_and!; [lia|exists (c + 256 * d); lia|lia].
Qed.

Lemma sum_longs_spec d : forall sum s,
  bytes_ok d -> oc sum s -> sum < 4294967296 -> 0 <= s ->
  exists sum' e, sum_longs d sum = (sum', e) /\ (length e <= 7)%nat /\ bytes_ok e /\
    0 <= sum' < 4294967296 /\ exists s', oc sum' (s + s') /\ 0 <= s' /\ osum d = s' + osum e.
Proof.
  induction d as [d IH] using (induction_ltof1 _ (@length Z)). unfold ltof in IH.
  intros sum s Hd Hs Hsb Hs0.
  do 8 (destruct d as [|? d]; [eexists _, _; split; [done|]; split; [simpl; lia|];
    split; [done|]; split; [destruct Hs; lia|]; exists 0; rewrite Z.add_0_r; done|]).
  unfold bytes_ok in Hd.
  repeat match goal with H : Forall is_byte (_ :: _) |- _ => apply Forall_cons in H as [? H] end.
  cbn [sum_longs].
  destruct (of_bytes4_oc z z0 z1 z2) as [Hw1 Hb1]; try done.
  destruct (of_bytes4_oc z3 z4 z5 z6) as [Hw2 Hb2]; try done.
  assert (0 <= osum [z; z0; z1; z2] /\ 0 <= osum [z3; z4; z5; z6]) as [Hn1 Hn2].
  { split; apply osum_nonneg; repeat (apply Forall_cons_2; [assumption|]); apply Forall_nil_2. }
  destruct (add_carry_oc _ _ _ _ Hs Hsb Hw1 ltac:(lia) Hs0 Hn1) as [Ha1 Ha1b].
  destruct (add_carry_oc _ _ _ _ Ha1 ltac:(lia) Hw2 ltac:(lia) ltac:(lia) Hn2) as [Ha2 Ha2b].
  destruct (IH d ltac:(simpl; lia) _ _ Hd Ha2 ltac:(lia) ltac:(lia))
    as (sum' & e & Hrun & He & Hbe & Hbd & s' & Hoc & Hs' & Ho).
  exists sum', e. split; [done|]. split; [done|]. split; [done|]. split; [done|].
  exists (osum [z; z0; z1; z2] + osum [z3; z4; z5; z6] + s').
  split_and!; [|lia|cbn [osum] in *; lia].
  by replace (s + (osum [z; z0; z1; z2] + osum [z3; z4; z5; z6] + s')) with
    (s + osum [z; z0; z1; z2] + osum [z3; z4; z5; z6] + s') by lia.
Qed.

(** The epilogue: [t] holds the octet [u] taken at an odd address in its upper
    half. *)
Lemma chksum_end_spec odd sum t u e s :
  is_byte u -> t = 256 * u -> (odd = false -> u = 0) -> (length e <= 1)%nat -> bytes_ok e ->
  oc sum s -> 0 <= s -> sum < 4294000000 ->
  0 <= chksum_end odd sum t e <= 65535 /\
  oc (chksum_end odd sum t e) (if odd then u + 256 * (s + osum e) else s + osum e).
Proof.
  intros Hu -> Hodd He Hbe Hs Hs0 Hsb. unfold is_byte in Hu.
  assert (exists v, is_byte v /\ osum e = v /\
    match e with b :: _ => Z.lor (Z.land (256 * u) 0xff00) b | [] => 256 * u end = 256 * u + v)
    as (v & Hv & Hov & Ht).
  { destruct e as [|v [|? ?]]; [exists 0|exists v|simpl in He; lia].
    - split_and!; [done|done|lia].
    - apply Forall_cons in Hbe as [Hv _]. split_and!; [done|done|].
      change 0xff00 with (Z.shiftl (Z.ones 8) 8). rewrite land_field by lia.
      change (2 ^ 8) with 256. rewrite (Z.mul_comm 256 u), Z.div_mul by lia.
      rewrite (Z.mod_small u) by lia. unfold is_byte in Hv.
      replace (u * 256) with (Z.shiftl u 8) by (by rewrite Z.shiftl_mul_pow2 by lia).
      rewrite lor_shiftl_add by (change (2 ^ 8) with 256; lia). by rewrite Z.shiftl_mul_pow2 by lia. }
  unfold chksum_end. rewrite Ht, Hov. unfold is_byte in Hv. pose proof Hs as [Hs1 _].
  rewrite (u32_small (sum + _)) by lia.
  pose proof (oc_add sum (256 * u + v) s (256 * u + v) Hs (oc_refl (256 * u + v) ltac:(lia)) Hs0 ltac:(lia)) as Hoc.
  apply oc_fold in Hoc; [|lia].
  pose proof (fold_bound (sum + (256 * u + v)) 4294967295 ltac:(lia) ltac:(lia)) as Hf1.
  change (4294967295 / 65536) with 65535 in Hf1.
  apply oc_fold in Hoc; [|lia].
  pose proof (fold2_bound (sum + (256 * u + v)) ltac:(lia)) as Hf.
  set (r := FOLD_U32T (FOLD_U32T (sum + (256 * u + v)))) in *.
  destruct odd.
  - apply oc_swap in Hoc; [|lia|lia].
    assert (0 <= SWAP_BYTES_IN_WORD r < 65536) as Hr.
    { rewrite swap_eq by lia. apply lwip_htons_bound. }
    rewrite u16_small by lia. split; [lia|].
    replace (256 * (s + (256 * u + v))) with (65536 * u + (256 * (s + v))) in Hoc by lia.
    by apply oc_65536 in Hoc; [|lia|lia].
  - rewrite Hodd in Hoc by done. rewrite u16_small by lia. split; [lia|].
    by replace (s + v) with (s + (256 * 0 + v)) by lia.
Qed.

Lemma take_odd_spec odd d :
  bytes_ok d -> exists u e t, take_odd odd d = (t, e) /\ is_byte u /\ t = 256 * u /\
    (odd = false -> u = 0) /\ bytes_ok e /\ lenZ e <= lenZ d /\
    forall x, oc x (if odd then u + 256 * osum e else osum e) -> oc x (osum d).
Proof.
  intros Hd. destruct d as [|b r].
  - exists 0, [], 0. split_and!; try done. intros x. by destruct odd.
  - destruct odd.
    + pose proof Hd as [Hb Hr]%Forall_cons.
      exists b, r, (256 * b). split_and!; try done; [|rewrite length_cons; lia|].
      * cbn. rewrite Z.lor_0_r, Z.shiftl_mul_pow2 by lia. change (2 ^ 8) with 256. by rewrite Z.mul_comm.
      * intros x Hx. by apply osum_cons.
    + exists 0, (b :: r), 0. by split_and!.
Qed.

(** A 16-bit one's complement representative is the reference value. *)
Lemma oc_ocsum x s : oc x s -> 0 <= s -> 0 <= x <= 65535 -> x = ocsum s.
Proof. intros. apply oc_unique; lia || done. Qed.

Lemma chksum3_spec addr d :
  bytes_ok d -> lenZ d <= 65536 -> lwip_standard_chksum addr d = ocsum (osum d).
Proof.
  intros Hd Hlen. unfold lwip_standard_chksum. set (odd := negb (Z.land addr 1 =? 0)).
  destruct (take_odd_spec odd d Hd) as (u & d1 & t & -> & Hu & -> & Hou & Hd1 & Hl1 & Hfin).
  set (addr' := addr + (lenZ d - lenZ d1)).
  assert (exists w d2, match d1 with
      | a :: b :: r => if negb (Z.land addr' 3 =? 0) then (u32 (0 + (a + 256 * b)), r) else (0, d1)
      | _ => (0, d1) end = (w, d2) /\ 0 <= w <= 65535 /\ bytes_ok d2 /\ osum d1 = w + osum d2)
    as (w & d2 & -> & Hw & Hd2 & Ho2).
  { destruct d1 as [|a [|b r]]; [exists 0, []; split; [done|]; split; [lia|]; split; [done|lia]|exists 0, [a]; split; [done|]; split; [lia|]; split; [done|lia]|].
    destruct (negb (Z.land addr' 3 =? 0)); [|exists 0, (a :: b :: r); split; [done|]; split; [lia|]; split; [done|lia]].
    apply Forall_cons in Hd1 as [Ha [Hb Hr]%Forall_cons]. unfold is_byte in Ha, Hb.
    exists (a + 256 * b), r. rewrite u32_small by lia. split_and!; try done; cbn [osum]; lia. }
  destruct (sum_longs_spec d2 w w Hd2 (oc_refl w ltac:(lia)) ltac:(lia) ltac:(lia))
    as (s3 & d3 & -> & Hl3 & Hd3 & Hb3 & v3 & Hoc3 & Hv3 & Ho3).
  apply oc_fold in Hoc3; [|lia].
  pose proof (fold_bound s3 4294967295 ltac:(lia) ltac:(lia)) as Hf3.
  change (4294967295 / 65536 + 65535) with 131070 in Hf3.
  assert (lenZ d3 / 2 <= 3) by (apply (Z.div_le_mono _ 7 2); lia).
  destruct (sum_words_spec d3 (FOLD_U32T s3) (w + v3) Hd3 Hoc3 ltac:(lia) ltac:(lia))
    as (s4 & d4 & -> & Hl4 & Hd4 & Hb4 & v4 & Hoc4 & Hv4 & Ho4).
  destruct (chksum_end_spec odd s4 (256 * u) u d4 (w + v3 + v4) Hu eq_refl Hou Hl4 Hd4 Hoc4
    ltac:(lia) ltac:(lia)) as [Hr Hoc].
  apply oc_ocsum; [|by apply osum_nonneg|done].
  apply Hfin. by replace (osum d1) with (w + v3 + v4 + osum d4) by lia.
Qed.

Lemma chksum2_spec addr d :
  bytes_ok d -> lenZ d <= 0x1ff00 -> lwip_standard_chksum2 addr d = ocsum (osum d).
Proof.
  intros Hd Hlen. unfold lwip_standard_chksum2. set (odd := negb (Z.land addr 1 =? 0)).
  destruct (take_odd_spec odd d Hd) as (u & d1 & t & -> & Hu & -> & Hou & Hd1 & Hl1 & Hfin).
  assert (lenZ d1 / 2 <= 65408) by (apply (Z.div_le_mono _ 0x1ff00 2); lia).
  destruct (sum_words_spec d1 0 0 Hd1 (oc_refl 0 ltac:(lia)) ltac:(lia) ltac:(lia))
    as (s4 & d4 & -> & Hl4 & Hd4 & Hb4 & v4 & Hoc4 & Hv4 & Ho4).
  destruct (chksum_end_spec odd s4 (256 * u) u d4 (0 + v4) Hu eq_refl Hou Hl4 Hd4 Hoc4
    ltac:(lia) ltac:(lia)) as [Hr Hoc].
  apply oc_ocsum; [|by apply osum_nonneg|done].
  apply Hfin. by replace (osum d1) with (0 + v4 + osum d4) by lia.
Qed.

Lemma chksum1_loop_spec d : forall acc s,
  bytes_ok d -> oc acc s -> 0 <= s -> acc + 65535 * (lenZ d / 2) < 4294967296 ->
  exists acc' e, chksum1_loop d acc = (acc', e) /\ (length e <= 1)%nat /\ bytes_ok e /\
    0 <= acc' <= acc + 65535 * (lenZ d / 2) /\
    exists s', oc acc' (s + s') /\ 0 <= s' /\ osum' d = s' + osum' e.
Proof.
  induction d as [d IH] using (induction_ltof1 _ (@length Z)). unfold ltof in IH.
  intros sum s Hd Hs Hs0 Hb. pose proof Hs as [Hs1 _]. destruct d as [|a [|b r]].
  - exists sum, []. change (lenZ [] / 2) with 0 in *.
    do 3 (split; [done || (simpl; lia)|]). split; [lia|]. exists 0. by rewrite Z.add_0_r.
  - exists sum, [a]. change (lenZ [a] / 2) with 0 in *.
    do 3 (split; [done || (simpl; lia)|]). split; [lia|]. exists 0. by rewrite Z.add_0_r.
  - apply Forall_cons in Hd as [Ha [Hb' Hr]%Forall_cons]. unfold is_byte in Ha, Hb'.
    rewrite !length_cons in Hb.
    replace (Z.of_nat (S (S (length r)))) with (lenZ r + 1 * 2) in Hb by lia.
    rewrite Z.div_add in Hb by lia.
    assert (0 <= lenZ r / 2) by (apply Z.div_pos; lia).
    assert (u16 (Z.lor (u16 (Z.shiftl a 8)) b) = 256 * a + b) as Hw.
    { rewrite Z.shiftl_mul_pow2 by lia. change (2 ^ 8) with 256.
      rewrite (u16_small (a * 256)) by lia.
      replace (a * 256) with (Z.shiftl a 8) by (by rewrite Z.shiftl_mul_pow2 by lia).
      rewrite lor_shiftl_add by (change (2 ^ 8) with 256; lia). change (2 ^ 8) with 256.
      rewrite u16_small by lia. lia. }
    cbn [chksum1_loop]. rewrite Hw, u32_small by lia.
    destruct (IH r ltac:(simpl; lia) (sum + (256 * a + b)) (s + (256 * a + b)) Hr)
      as (sum' & e & Hrun & He & Hbe & Hbd & s' & Hoc & Hs' & Ho);
      [apply oc_add; [done|apply oc_refl; lia|lia|lia]|lia|lia|].
    exists sum', e. do 3 (split; [done|]).
    rewrite !length_cons. replace (Z.of_nat (S (S (length r)))) with (lenZ r + 1 * 2) by lia.
    rewrite Z.div_add by lia. split; [lia|].
    exists (256 * a + b + s'). split; [by rewrite Z.add_assoc|]. split; [lia|].
    rewrite osum'_step, osum_step. lia.
Qed.

(** The two byte orders of the sum differ by a factor 256. *)
Lemma oc_osum' x a d : bytes_ok d -> 0 <= a -> oc x (a + 256 * osum' d) <-> oc x (a + osum d).
Proof.
  intros Hd Ha. destruct (osum_shift d Hd) as (k & k' & ? & ? & ? & ? & ? & ?).
  rewrite !oc_iff. split; intros (? & [l ->] & Hz); (split; [done|]); (split; [|lia]);
    [exists (l + k')|exists (l - k')]; lia.
Qed.

Lemma osum'_nonneg d : bytes_ok d -> 0 <= osum' d.
Proof. intros Hd. by destruct (osum_shift d Hd) as (k & k' & ? & ? & ? & ? & ? & ?). Qed.

Lemma chksum1_spec d :
  bytes_ok d -> lenZ d <= 0x1ff00 -> lwip_standard_chksum1 d = ocsum (osum d).
Proof.
  intros Hd Hlen. unfold lwip_standard_chksum1.
  assert (lenZ d / 2 <= 65408) by (apply (Z.div_le_mono _ 0x1ff00 2); lia).
  destruct (chksum1_loop_spec d 0 0 Hd (oc_refl 0 ltac:(lia)) ltac:(lia) ltac:(lia))
    as (acc & e & -> & He & Hbe & Hb & s & Hoc & Hs & Ho).
  assert (exists v, 0 <= v < 65536 /\ osum' e = v /\
    match e with a :: _ => u32 (acc + u16 (Z.shiftl a 8)) | [] => acc end = acc + v)
    as (v & Hv & Hov & ->).
  { destruct e as [|v [|? ?]]; [exists 0; lia || (split; [lia|split; [done|lia]])| |simpl in He; lia].
    apply Forall_one in Hbe. unfold is_byte in Hbe. exists (256 * v).
    rewrite Z.shiftl_mul_pow2 by lia. change (2 ^ 8) with 256.
    rewrite u16_small, u32_small by lia. split; [lia|]. split; [simpl; lia|lia]. }
  assert (oc (acc + v) (osum' d)) as Hsum.
  { rewrite Ho, Hov. apply oc_add; [done|apply oc_refl; lia|lia|lia]. }
  pose proof (osum'_nonneg d Hd).
  change (u32 (Z.shiftr (acc + v) 16 + Z.land (acc + v) 0x0000ffff)) with (FOLD_U32T (acc + v)).
  set (a1 := FOLD_U32T (acc + v)).
  assert (oc a1 (osum' d)) as H1 by (apply oc_fold; [done|lia]).
  pose proof (fold_bound (acc + v) 4294967295 ltac:(lia) ltac:(lia)) as Hf. fold a1 in Hf.
  change (4294967295 / 65536 + 65535) with 131070 in Hf.
  pose proof (fold2_bound (acc + v) ltac:(lia)) as Hf2. fold a1 in Hf2.
  assert ((if negb (Z.land a1 0xffff0000 =? 0) then u32 (Z.shiftr a1 16 + Z.land a1 0x0000ffff) else a1)
    = FOLD_U32T a1) as ->.
  { destruct (Z.eqb_spec (Z.land a1 0xffff0000) 0) as [Hz|]; [|done]. simpl.
    change 0xffff0000 with (Z.shiftl (Z.ones 16) 16) in Hz. rewrite land_field in Hz by lia.
    change (2 ^ 16) with 65536 in Hz. destruct (fold_eq a1 ltac:(lia)) as (-> & ? & ? & ?).
    rewrite (Z.mod_small (a1 / 65536)) in Hz by lia. lia. }
  assert (oc (FOLD_U32T a1) (osum' d)) as H2 by (apply oc_fold; [done|lia]).
  rewrite u16_small, <- swap_eq by lia.
  apply oc_swap in H2; [|lia|lia]. apply (oc_osum' _ 0) in H2; [|done|lia].
  apply oc_ocsum; [done|by apply osum_nonneg|].
  rewrite swap_eq by lia. pose proof (lwip_htons_bound (FOLD_U32T a1)). lia.
Qed.

(** ** Chains of pbufs *)

(** The factor a sum carries while an odd number of octets has been summed. *)
Definition swap_factor (swapped : bool) : Z := if swapped then 256 else 1.
Definition osum_from (swapped : bool) (d : list Z) : Z := if swapped then osum' d else osum d.

Lemma osum_from_app sw d e :
  osum_from sw (d ++ e) = osum_from sw d + osum_from (xorb sw (Z.odd (lenZ d))) e.
Proof.
  destruct (osum_app d e) as [H1 H2]. unfold osum_from. rewrite <- Z.negb_even.
  destruct sw, (Z.even (lenZ d)); simpl; lia.
Qed.

Lemma odd_mod2 n : negb (n mod 2 =? 0) = Z.odd n.
Proof.
  rewrite Zmod_odd. by destruct (Z.odd n).
Qed.

Lemma osum_from_nonneg sw d : bytes_ok d -> 0 <= osum_from sw d.
Proof. intros. destruct sw; [by apply osum'_nonneg|by apply osum_nonneg]. Qed.

(** Swapping when an odd number of octets was added keeps the invariant. *)
Lemma oc_swap_factor sw x s :
  oc x (swap_factor sw * s) -> 0 <= s -> x < 65536 ->
  oc (SWAP_BYTES_IN_WORD x) (swap_factor (negb sw) * s) /\ 0 <= SWAP_BYTES_IN_WORD x <= 65535.
Proof.
  intros H Hs Hx. pose proof H as [Hx0 _]. split.
  - apply oc_swap in H; [|destruct sw; simpl; lia|done]. destruct sw; simpl in *.
    + replace (256 * (256 * s)) with (65536 * s + 0) in H by lia.
      apply oc_65536 in H; [|lia|lia]. by replace (1 * s) with (s + 0) by lia.
    + by rewrite Z.mul_1_l in H.
  - rewrite swap_eq by lia. pose proof (lwip_htons_bound x). lia.
Qed.

(** One step of the loops: fold in the sum of the bytes [d]. *)
Lemma chksum_step sw acc s addr d :
  bytes_ok d -> lenZ d <= 65536 -> 0 <= s -> 0 <= acc <= 65535 ->
  oc acc (swap_factor sw * s) ->
  let acc' := FOLD_U32T (u32 (acc + LWIP_CHKSUM addr d)) in
  0 <= acc' <= 65535 /\ oc acc' (swap_factor sw * (s + osum_from sw d)).
Proof.
  intros Hd Hl Hs Hacc Hoc. cbv zeta. unfold LWIP_CHKSUM. rewrite chksum3_spec by done.
  pose proof (osum_nonneg d Hd) as Ho.
  assert (oc (ocsum (osum d)) (osum d) /\ 0 <= ocsum (osum d) <= 65535) as [Hc Hcb].
  { unfold ocsum. destruct (Z.eqb_spec (osum d) 0) as [->|].
    - split; [by apply oc_refl|lia].
    - pose proof (Z.mod_pos_bound (osum d - 1) 65535 ltac:(lia)). split; [|lia].
      apply oc_iff. split; [lia|]. split; [|lia].
      exists (- ((osum d - 1) / 65535)). pose proof (Z.div_mod (osum d - 1) 65535 ltac:(lia)). lia. }
  rewrite u32_small by lia. split.
  - destruct (fold_eq (acc + ocsum (osum d)) ltac:(lia)) as (-> & ? & ? & ?). lia.
  - apply oc_fold; [|lia]. rewrite Z.mul_add_distr_l.
    assert (0 <= swap_factor sw * s) by (destruct sw; simpl; lia).
    pose proof (oc_add _ _ _ _ Hoc Hc ltac:(lia) Ho) as Hsum.
    destruct sw; simpl in *; [|by rewrite Z.mul_1_l in *; destruct (osum d)].
    by apply oc_osum'.
Qed.

Section ChainSums.
Context (addr_of : ptr -> Z).

Lemma chksum_pbuf_loop_run h p l : forall fuel acc sw s,
  packet h p l -> mem_ok h -> (length l < fuel)%nat ->
  0 <= acc <= 65535 -> 0 <= s -> oc acc (swap_factor sw * s) ->
  exists acc' sw', chksum_pbuf_loop addr_of fuel p acc sw h = Some ((acc', sw'), h) /\
    sw' = xorb sw (Z.odd (sum_len l)) /\ 0 <= acc' <= 65535 /\
    oc acc' (swap_factor sw' * (s + osum_from sw (chain_data h l))).
Proof.
  revert p. induction l as [|[i b] l IH]; intros p fuel acc sw s Hp Hmem Hf Hacc Hs Hoc.
  - rewrite (chain_nil_inv _ _ (packet_chain _ _ _ Hp)). exists acc, sw.
    destruct fuel; simpl in Hf; [lia|]. split; [done|]. split; [by destruct sw|].
    split; [done|]. unfold osum_from. destruct sw; simpl in *; by rewrite Z.add_0_r.
  - apply packet_cons_inv in Hp as (-> & Hi & Hp & Hl & Htot & Hpl & Hsm & Hr).
    destruct fuel as [|fuel]; simpl in Hf; [lia|]. cbn [chksum_pbuf_loop].
    mrun (get_pbuf_run _ _ _ Hi). mrun (load_all h b Hpl Hl).
    assert (bytes_ok (pdata h b)) as Hbd by by apply pdata_ok.
    pose proof (length_pdata h b Hl Hpl) as Hlen.
    destruct (chksum_step sw acc s (payload_addr addr_of b) (pdata h b) Hbd ltac:(lia) Hs Hacc Hoc)
      as [Hb1 Hoc1]. cbv zeta in Hb1, Hoc1.
    set (acc1 := FOLD_U32T (u32 (acc + LWIP_CHKSUM (payload_addr addr_of b) (pdata h b)))) in *.
    pose proof (osum_from_nonneg sw (pdata h b) Hbd) as Hn.
    rewrite odd_mod2, sum_len_cons, Z.odd_add, chain_data_cons, osum_from_app, Hlen.
    destruct (Z.odd (len b)) eqn:Hodd.
    + destruct (oc_swap_factor sw acc1 (s + osum_from sw (pdata h b)) Hoc1 ltac:(lia) ltac:(lia)) as [Hoc2 Hb2].
      destruct (IH (next b) fuel _ (negb sw) (s + osum_from sw (pdata h b)) Hp Hmem ltac:(lia) Hb2 ltac:(lia) Hoc2)
        as (acc' & sw' & Hrun & Hsw & Hb' & Hoc').
      exists acc', sw'. split; [done|]. split; [rewrite Hsw; by destruct sw, (Z.odd (sum_len l))|].
      split; [done|]. rewrite xorb_true_r. by rewrite Z.add_assoc.
    + destruct (IH (next b) fuel acc1 sw (s + osum_from sw (pdata h b)) Hp Hmem ltac:(lia) Hb1 ltac:(lia) Hoc1)
        as (acc' & sw' & Hrun & Hsw & Hb' & Hoc').
      exists acc', sw'. split; [done|]. split; [rewrite Hsw; by destruct sw, (Z.odd (sum_len l))|].
      split; [done|]. rewrite xorb_false_r. by rewrite Z.add_assoc.
Qed.

Lemma lnot16 acc : 0 <= acc <= 65535 -> u16 (Z.lnot (Z.land acc 0xffff)) = 65535 - acc.
Proof.
  intros. rewrite land_0xffff, Z.mod_small by lia. unfold Z.lnot, u16.
  symmetry. apply (Z.mod_unique_pos _ _ (-1)); lia.
Qed.

(** Swapping back at the end removes the factor. *)
Lemma unswap sw acc s :
  0 <= acc <= 65535 -> 0 <= s -> oc acc (swap_factor sw * s) ->
  let acc' := if sw then SWAP_BYTES_IN_WORD acc else acc in 0 <= acc' <= 65535 /\ oc acc' s.
Proof.
  intros Ha Hs Hoc. cbv zeta. destruct sw.
  - destruct (oc_swap_factor true acc s Hoc Hs ltac:(lia)) as [H1 H2].
    split; [done|]. simpl in H1. by rewrite Z.mul_1_l in H1.
  - simpl in Hoc. by rewrite Z.mul_1_l in Hoc.
Qed.

Lemma inet_chksum_pbuf_run h p l :
  packet h p l -> mem_ok h ->
  inet_chksum_pbuf addr_of p h = Some (65535 - ocsum (osum (chain_data h l)), h).
Proof.
  intros Hp Hmem. unfold inet_chksum_pbuf. rewrite bind_get.
  destruct (chksum_pbuf_loop_run h p l (chain_fuel h) 0 false 0 Hp Hmem (packet_fuel _ _ _ Hp)
    ltac:(lia) ltac:(lia) (oc_refl 0 ltac:(lia))) as (acc & sw & Hrun & _ & Hb & Hoc).
  mrun Hrun. pose proof (osum_nonneg _ (chain_data_ok h l Hmem)) as Hn.
  destruct (unswap sw acc (0 + osum (chain_data h l)) Hb ltac:(lia) Hoc) as [Hb' Hoc']. cbv zeta in *.
  rewrite Z.add_0_l in Hoc'. rewrite lnot16 by done. by rewrite <- (oc_ocsum _ _ Hoc' Hn Hb').
Qed.

(** ** The pseudo header *)

(** RFC 768 and 793: addresses (as the stack keeps them, in network order in
    memory), a zero octet, the protocol and the length. *)
Definition pseudo_header (src dest proto proto_len : Z) : list Z :=
  st32 src ++ st32 dest ++ [0; proto; proto_len / 256; proto_len mod 256].

Lemma osum_st32 v : 0 <= v < 4294967296 -> osum (st32 v) = Z.land v 0xffff + Z.land (Z.shiftr v 16) 0xffff.
Proof.
  intros. rewrite Z.shiftr_div_pow2, !land_0xffff by lia. change (2 ^ 16) with 65536.
  unfold st32, st16. cbn [app osum]. rewrite !Z.add_0_r.
  assert (0 <= v / 65536 < 65536) by (split; [apply Z.div_pos|apply Z.div_lt_upper_bound]; lia).
  pose proof (Z.mod_pos_bound v 65536 ltac:(lia)).
  assert (forall w, 0 <= w < 65536 -> w mod 256 + 256 * ((w / 256) mod 256) = w) as Hw by (intros; ulia).
  rewrite <- (Hw (v mod 65536)) at 3 by done. rewrite (Z.mod_small (v / 65536) 65536) by done.
  rewrite <- (Hw (v / 65536)) at 3 by done. lia.
Qed.

Lemma st32_ok v : 0 <= v < 4294967296 -> bytes_ok (st32 v).
Proof.
  intros. unfold st32, st16, bytes_ok. repeat (apply Forall_cons_2; [unfold is_byte; apply Z.mod_pos_bound; lia|]).
  apply Forall_nil_2.
Qed.

Lemma pseudo_header_osum src dest proto n :
  0 <= src < 4294967296 -> 0 <= dest < 4294967296 ->
  0 <= proto < 256 -> 0 <= n < 65536 ->
  osum (pseudo_header src dest proto n) =
    osum (st32 src) + osum (st32 dest) + lwip_htons proto + lwip_htons n.
Proof.
  intros. unfold pseudo_header. rewrite !lwip_htons_eq by lia.
  rewrite (proj1 (osum_app (st32 src) _)), (proj1 (osum_app (st32 dest) _)). cbn [length].
  change (Z.even (lenZ (st32 src))) with true. change (Z.even (lenZ (st32 dest))) with true.
  cbv iota. cbn [osum]. rewrite (Z.div_small proto), (Z.mod_small proto) by lia. lia.
Qed.

Lemma pseudo_acc_spec src dest :
  0 <= src < 4294967296 -> 0 <= dest < 4294967296 ->
  0 <= pseudo_acc src dest <= 65535 /\ oc (pseudo_acc src dest) (osum (st32 src) + osum (st32 dest)).
Proof.
  intros Hs Hd. rewrite !osum_st32 by done. unfold pseudo_acc.
  assert (forall v, 0 <= Z.land v 0xffff < 65536) as Hb.
  { intros v. rewrite land_0xffff. apply Z.mod_pos_bound. lia. }
  pose proof (Hb src). pose proof (Hb dest). pose proof (Hb (Z.shiftr src 16)).
  pose proof (Hb (Z.shiftr dest 16)).
  set (x1 := Z.land src 65535) in *. set (x2 := Z.land (Z.shiftr src 16) 65535) in *.
  set (x3 := Z.land dest 65535) in *. set (x4 := Z.land (Z.shiftr dest 16) 65535) in *.
  rewrite (u32_small (x1 + x2)), (u32_small (x1 + x2 + x3)), (u32_small (x1 + x2 + x3 + x4)) by lia.
  set (a := x1 + x2 + x3 + x4). split; [apply fold2_bound; lia|].
  assert (oc a (x1 + x2 + (x3 + x4))) as Ha.
  { unfold a. rewrite Z.add_assoc. apply oc_refl. lia. }
  pose proof (fold_bound a 4294967295 ltac:(lia) ltac:(lia)) as Hf.
  change (4294967295 / 65536 + 65535) with 131070 in Hf.
  apply oc_fold; [apply oc_fold|]; [done|lia|lia].
Qed.

Lemma inet_chksum_pseudo_run h p l proto proto_len src dest :
  packet h p l -> mem_ok h ->
  0 <= src < 4294967296 -> 0 <= dest < 4294967296 ->
  0 <= proto < 256 -> 0 <= proto_len < 65536 ->
  inet_chksum_pseudo addr_of p proto proto_len src dest h =
    Some (65535 - ocsum (osum (pseudo_header src dest proto proto_len ++ chain_data h l)), h).
Proof.
  intros Hp Hmem Hs Hd Hpr Hl. unfold inet_chksum_pseudo, inet_cksum_pseudo_base. rewrite bind_get.
  destruct (pseudo_acc_spec src dest Hs Hd) as [Hb0 Hoc0].
  pose proof (osum_nonneg _ (st32_ok src Hs)). pose proof (osum_nonneg _ (st32_ok dest Hd)).
  set (s0 := osum (st32 src) + osum (st32 dest)) in *.
  rewrite <- (Z.mul_1_l s0) in Hoc0.
  destruct (chksum_pbuf_loop_run h p l (chain_fuel h) _ false s0 Hp Hmem (packet_fuel _ _ _ Hp)
    Hb0 ltac:(lia) Hoc0) as (acc & sw & Hrun & _ & Hb & Hoc).
  mrun Hrun. pose proof (osum_nonneg _ (chain_data_ok h l Hmem)) as Hn.
  destruct (unswap sw acc (s0 + osum (chain_data h l)) Hb ltac:(lia) Hoc) as [Hb' Hoc']. cbv zeta in *.
  set (acc' := if sw then SWAP_BYTES_IN_WORD acc else acc) in *. simpl in Hoc'.
  rewrite (u16_small proto) by lia.
  pose proof (lwip_htons_bound proto). pose proof (lwip_htons_bound proto_len).
  rewrite (u32_small (acc' + lwip_htons proto)), u32_small by lia.
  assert (oc (acc' + lwip_htons proto + lwip_htons proto_len)
    (osum (pseudo_header src dest proto proto_len ++ chain_data h l))) as Hsum.
  { rewrite (proj1 (osum_app _ _)), pseudo_header_osum by done.
    change (Z.even (lenZ (pseudo_header src dest proto proto_len))) with true. cbv iota. fold s0.
    replace (s0 + lwip_htons proto + lwip_htons proto_len + osum (chain_data h l)) with
      (s0 + osum (chain_data h l) + lwip_htons proto + lwip_htons proto_len) by lia.
    repeat (apply oc_add; [|apply oc_refl; lia|lia|lia]). done. }
  apply oc_fold in Hsum; [|lia].
  set (a1 := acc' + lwip_htons proto + lwip_htons proto_len) in *.
  pose proof (fold_bound a1 4294967295 ltac:(lia) ltac:(lia)) as Hf.
  change (4294967295 / 65536 + 65535) with 131070 in Hf.
  pose proof (fold2_bound a1 ltac:(lia)) as Hf2.
  apply oc_fold in Hsum; [|lia]. rewrite lnot16 by done.
  rewrite <- (oc_ocsum _ _ Hsum); [done| |done].
  rewrite (proj1 (osum_app _ _)), pseudo_header_osum by done.
  change (Z.even (lenZ (pseudo_header src dest proto proto_len))) with true. cbv iota. lia.
Qed.

End ChainSums.

(** ** Verification of an inserted checksum *)

Lemma ocsum_complement s : 0 <= s -> ocsum (s + (65535 - ocsum s)) = 65535.
Proof.
  intros Hs. symmetry. apply oc_unique; [|unfold ocsum; case_if; [lia|]|lia].
  - apply oc_iff. split; [lia|]. unfold ocsum.
    destruct (Z.eqb_spec s 0) as [->|]; [split; [exists 0; lia|lia]|].
    pose proof (Z.mod_pos_bound (s - 1) 65535 ltac:(lia)).
    pose proof (Z.div_mod (s - 1) 65535 ltac:(lia)).
    split; [exists (- ((s - 1) / 65535)); lia|lia].
  - pose proof (Z.mod_pos_bound (s - 1) 65535 ltac:(lia)). lia.
Qed.

Lemma ocsum_bound s : 0 <= ocsum s <= 65535.
Proof.
  unfold ocsum. case_if; [lia|]. pose proof (Z.mod_pos_bound (s - 1) 65535 ltac:(lia)). lia.
Qed.

Lemma inet_chksum_eq addr d :
  bytes_ok d -> lenZ d <= 65536 -> inet_chksum addr d = 65535 - ocsum (osum d).
Proof.
  intros. unfold inet_chksum, LWIP_CHKSUM. rewrite chksum3_spec by done.
  pose proof (ocsum_bound (osum d)). unfold Z.lnot, u16.
  symmetry. apply (Z.mod_unique_pos _ _ (-1)); lia.
Qed.

(** Storing a 16-bit field that was 0 at an even offset adds it to the sum. *)
Lemma osum_set_field a b c :
  Z.even (lenZ a) = true -> 0 <= c < 65536 ->
  osum (a ++ st16 c ++ b) = osum (a ++ [0; 0] ++ b) + c.
Proof.
  intros Ha Hc. rewrite (proj1 (osum_app a _)), Ha, (proj1 (osum_app a _)), Ha. cbn [st16 app osum].
  assert (c mod 256 + 256 * ((c / 256) mod 256) = c) by ulia. lia.
Qed.

(** A checksum computed with a zero field and stored there makes the whole verify. *)
Lemma inserted_verifies addr addr' a b :
  bytes_ok a -> bytes_ok b -> Z.even (lenZ a) = true -> lenZ a + 2 + lenZ b <= 65536 ->
  inet_chksum addr' (a ++ st16 (inet_chksum addr (a ++ [0; 0] ++ b)) ++ b) = 0.
Proof.
  intros Ha Hb He Hl.
  assert (bytes_ok (a ++ [0; 0] ++ b)) as Hok.
  { apply bytes_ok_app. split; [done|]. by repeat apply Forall_cons_2. }
  rewrite (inet_chksum_eq addr) by (done || (rewrite !length_app; simpl; lia)).
  pose proof (osum_nonneg _ Hok) as Hs. set (s := osum (a ++ [0; 0] ++ b)) in *.
  pose proof (ocsum_bound s) as Hc. set (c := 65535 - ocsum s).
  assert (bytes_ok (st16 c)) as Hst.
  { repeat apply Forall_cons_2; [..|apply Forall_nil_2]; apply Z.mod_pos_bound; lia. }
  rewrite inet_chksum_eq.
  - rewrite osum_set_field by (done || lia). fold s. unfold c. rewrite ocsum_complement by done. lia.
  - rewrite !bytes_ok_app. done.
  - rewrite !length_app. simpl. lia.
Qed.
