(* ===== verification/RpmsgLinux.v ===== *)
(** * The Linux driver: linux/rpmsg_eth.c

    The driver's functions run concurrently: ndo_start_xmit under the stack's
    transmit lock, the two work handlers on the work queue, the remove callback
    on the bus.  Each function is a control flow graph whose points are named
    after the source lines ([X80] is line 80 of rpmsg_eth_xmit); a point does
    one access to the shared state and names the next point.  A system step is
    one such access by any of the threads, so every interleaving of the accesses
    is covered, the spin lock included. *)
From stdpp Require Import strings.
From S2P Require Import Prelude.
#[local] Open Scope Z_scope.

(** ** The kernel services the driver calls

    What the driver can tell of the kernel: whether the transmit queue is
    stopped, whether the immediate work and the delayed work are queued, and
    the live socket buffers with their bytes. *)
Record kobs := KObs {
  queue_stopped : bool;
  work_pending : bool;
  timer_pending : bool;
  skbs : gmap positive (list Z);
}.
Definition set_queue v o := KObs v (work_pending o) (timer_pending o) (skbs o).
Definition set_work v o := KObs (queue_stopped o) v (timer_pending o) (skbs o).
Definition set_timer v o := KObs (queue_stopped o) (work_pending o) v (skbs o).
Definition set_skbs v o := KObs (queue_stopped o) (work_pending o) (timer_pending o) v.

(** The services and their documented effect.  [begin_work] and
    [begin_delayed]: a worker takes the queued work and is about to call its
    handler; the work may be queued again from then on.  [ept_priv]: whether
    the rpmsg bus made rpdev->ept->priv point to the driver's data.
    [eth_type_trans]: the protocol it finds in a frame.  [dev_alloc_skb] names
    the buffer by a new number. *)
Class LinuxKernel := {
  kst : Type;
  observe : kst -> kobs;
  HZ : Z;
  ept_priv : bool;
  netif_stop_queue : kst -> kst;
  netif_start_queue : kst -> kst;
  netif_wake_queue : kst -> kst;
  schedule_work : kst -> kst;
  schedule_delayed_work : Z -> kst -> kst;
  begin_work : kst -> kst;
  begin_delayed : kst -> kst;
  cancel_delayed_work_sync : kst -> kst;
  cancel_work_sync : kst -> kst;
  dev_consume_skb_any : positive -> kst -> kst;
  rpmsg_trysend : list Z -> kst -> Z * kst;
  unregister_netdev : kst -> kst;
  dev_alloc_skb : Z -> kst -> option positive * kst;
  eth_type_trans : list Z -> Z;
  netif_rx : positive -> list Z -> Z -> kst -> kst;
  observe_stop k : observe (netif_stop_queue k) = set_queue true (observe k);
  observe_start k : observe (netif_start_queue k) = set_queue false (observe k);
  observe_wake k : observe (netif_wake_queue k) = set_queue false (observe k);
  observe_schedule k : observe (schedule_work k) = set_work true (observe k);
  observe_schedule_delayed d k : observe (schedule_delayed_work d k) = set_timer true (observe k);
  observe_begin_work k : observe (begin_work k) = set_work false (observe k);
  observe_begin_delayed k : observe (begin_delayed k) = set_timer false (observe k);
  observe_cancel_delayed k : observe (cancel_delayed_work_sync k) = set_timer false (observe k);
  observe_cancel_work k : observe (cancel_work_sync k) = set_work false (observe k);
  observe_consume b k :
    observe (dev_consume_skb_any b k) = set_skbs (delete b (skbs (observe k))) (observe k);
  observe_trysend d k : observe (rpmsg_trysend d k).2 = observe k;
  observe_unregister k : observe (unregister_netdev k) = observe k;
  observe_alloc n k :
    match dev_alloc_skb n k with
    | (Some b, k') => skbs (observe k) !! b = None /\
                      observe k' = set_skbs (<[b := []]> (skbs (observe k))) (observe k)
    | (None, k') => observe k' = observe k
    end;
  observe_netif_rx b d t k :
    observe (netif_rx b d t k) = set_skbs (<[b := d]> (skbs (observe k))) (observe k);
}.

(** ** Constants and data *)

Definition RPMSG_SIZE := 496.
Definition MTU_RPMSG := RPMSG_SIZE - 6 - 6 - 2.
Definition ETH_ALEN := 6.

(** [(unsigned long)(0.5 + (0.010 * HZ))] *)
Definition retry_delay (hz : Z) : Z := (50 + hz) / 100.

Definition ulong (z : Z) : Z := z mod 18446744073709551616.

(** struct rpmsg_eth_private: the fields that change after probe; the lock is
    [lock] below, the two works live in the kernel state. *)
Record rpmsg_eth_private := Priv {
  skb : option positive;
  is_delayed : bool;
  is_shutdown : bool;
  tx_packets : Z;
  tx_bytes : Z;
  rx_packets : Z;
  rx_bytes : Z;
}.
Definition set_skb v p := Priv v (is_delayed p) (is_shutdown p) (tx_packets p) (tx_bytes p) (rx_packets p) (rx_bytes p).
Definition set_is_delayed v p := Priv (skb p) v (is_shutdown p) (tx_packets p) (tx_bytes p) (rx_packets p) (rx_bytes p).
Definition set_is_shutdown v p := Priv (skb p) (is_delayed p) v (tx_packets p) (tx_bytes p) (rx_packets p) (rx_bytes p).
Definition add_tx_packet p := Priv (skb p) (is_delayed p) (is_shutdown p) (ulong (tx_packets p + 1)) (tx_bytes p) (rx_packets p) (rx_bytes p).
Definition add_tx_bytes n p := Priv (skb p) (is_delayed p) (is_shutdown p) (tx_packets p) (ulong (tx_bytes p + n)) (rx_packets p) (rx_bytes p).

(** Points of the functions. *)
Inductive xmit_pc :=
  X75 (b : positive) | X78 (b : positive) | X79 (b : positive) | X80 (b : positive)
| X81 (b : positive) | X82 (b : positive) | X85 (b : positive) | X87 (b : positive)
| X91 (b : positive) | X92 (b : positive).
Inductive work_pc :=
  I119 | I124 | I126 | I134 | I135 | I136 | I142 | I143 | I147
| I160 | I161 | I162 | I165 | I168 | I169 | I170 | I172.
Inductive delayed_pc := D102 | D103 | D104 | D105 | D107.
Inductive remove_pc := R284 | R285 | R286 | R287 | R293 | R294 | R300 | R301 | R302 | R305 | R307.

Inductive thread := TX | TI | TD | TR.

Section Driver.
Context {K : LinuxKernel}.

(** The driver's state: the private data ([freed] once free_netdev ran), the
    holder of shutdown_lock, the kernel, where each thread is ([None]: the
    function is not running), whether the net device is registered, and every
    skb handed to the driver so far. *)
Record sys := Sys {
  priv : rpmsg_eth_private;
  freed : bool;
  registered : bool;
  lock : option thread;
  kernel : kst;
  xpc : option xmit_pc;
  ipc : option work_pc;
  dpc : option delayed_pc;
  rpc : option remove_pc;
  given : gset positive;
}.
Definition set_priv v s := Sys v (freed s) (registered s) (lock s) (kernel s) (xpc s) (ipc s) (dpc s) (rpc s) (given s).
Definition set_freed v s := Sys (priv s) v (registered s) (lock s) (kernel s) (xpc s) (ipc s) (dpc s) (rpc s) (given s).
Definition set_registered v s := Sys (priv s) (freed s) v (lock s) (kernel s) (xpc s) (ipc s) (dpc s) (rpc s) (given s).
Definition set_lock v s := Sys (priv s) (freed s) (registered s) v (kernel s) (xpc s) (ipc s) (dpc s) (rpc s) (given s).
Definition set_kernel v s := Sys (priv s) (freed s) (registered s) (lock s) v (xpc s) (ipc s) (dpc s) (rpc s) (given s).
Definition set_xpc v s := Sys (priv s) (freed s) (registered s) (lock s) (kernel s) v (ipc s) (dpc s) (rpc s) (given s).
Definition set_ipc v s := Sys (priv s) (freed s) (registered s) (lock s) (kernel s) (xpc s) v (dpc s) (rpc s) (given s).
Definition set_dpc v s := Sys (priv s) (freed s) (registered s) (lock s) (kernel s) (xpc s) (ipc s) v (rpc s) (given s).
Definition set_rpc v s := Sys (priv s) (freed s) (registered s) (lock s) (kernel s) (xpc s) (ipc s) (dpc s) v (given s).
Definition set_given v s := Sys (priv s) (freed s) (registered s) (lock s) (kernel s) (xpc s) (ipc s) (dpc s) (rpc s) v.

Definition obs (s : sys) : kobs := observe (kernel s).

(** What happens when a thread takes its next access: it waits, it touches
    freed memory or follows NULL, or it goes on ([None]: it returned). *)
Inductive outcome (P : Type) :=
  | Blocked
  | Fault
  | Done (next : option P) (s : sys).
Arguments Blocked {P}.
Arguments Fault {P}.
Arguments Done {P} next s.

Definition goto {P} (pc : P) (s : sys) : outcome P := Done (Some pc) s.
Definition return_ {P} (s : sys) : outcome P := Done None s.

(** Every access goes through the private data. *)
Definition on_priv {P} (s : sys) (f : rpmsg_eth_private -> outcome P) : outcome P :=
  if freed s then Fault else f (priv s).

Definition call (f : kst -> kst) (s : sys) : sys := set_kernel (f (kernel s)) s.

Definition spin_lock {P} (t : thread) (pc : P) (s : sys) : outcome P :=
  match lock s with None => goto pc (set_lock (Some t) s) | Some _ => Blocked end.
Definition spin_unlock (s : sys) : sys := set_lock None s.

Definition consume {P} (b : positive) (pc : P) (s : sys) : outcome P :=
  match skbs (obs s) !! b with
  | Some _ => goto pc (call (dev_consume_skb_any b) s)
  | None => Fault
  end.

(** ** The functions *)

Definition rpmsg_eth_xmit (pc : xmit_pc) (s : sys) : outcome xmit_pc :=
  on_priv s (fun p =>
  match pc with
  | X75 b => goto (X78 b) (call netif_stop_queue s)
  | X78 b => spin_lock TX (X79 b) s
  | X79 b => if negb (is_shutdown p) then goto (X80 b) s else goto (X85 b) s
  | X80 b => goto (X81 b) (set_priv (set_skb (Some b) p) s)
  | X81 b => goto (X82 b) (call schedule_work s)
  | X82 b => goto (X91 b) (spin_unlock s)
  | X85 b => goto (X87 b) (spin_unlock s)
  | X87 b => consume b (X91 b) s
  | X91 b => goto (X92 b) (set_priv (add_tx_packet p) s)
  | X92 b => match skbs (obs s) !! b with
             | Some d => return_ (set_priv (add_tx_bytes (lenZ d) p) s)
             | None => Fault
             end
  end).

Definition net_xmit_delayed_work_handler (pc : delayed_pc) (s : sys) : outcome delayed_pc :=
  on_priv s (fun p =>
  match pc with
  | D102 => spin_lock TD D103 s
  | D103 => if is_delayed p && negb (is_shutdown p) then goto D104 s else goto D107 s
  | D104 => goto D105 (call schedule_work s)
  | D105 => return_ (spin_unlock s)
  | D107 => return_ (spin_unlock s)
  end).

Definition net_xmit_work_handler (pc : work_pc) (s : sys) : outcome work_pc :=
  on_priv s (fun p =>
  match pc with
  | I119 => match skb p with None => goto I160 s | Some _ => goto I124 s end
  | I124 => match skb p with
            | Some b => match skbs (obs s) !! b with
                        | Some d => let '(err, k) := rpmsg_trysend d (kernel s) in
                                    if negb (err =? 0) then goto I126 (set_kernel k s)
                                    else goto I160 (set_kernel k s)
                        | None => Fault
                        end
            | None => Fault
            end
  | I126 => if is_delayed p then goto I160 s else goto I134 s
  | I134 => spin_lock TI I135 s
  | I135 => if negb (is_shutdown p) then goto I136 s else goto I147 s
  | I136 => goto I142 (set_priv (set_is_delayed true p) s)
  | I142 => goto I143 (call (schedule_delayed_work (retry_delay HZ)) s)
  | I143 => return_ (spin_unlock s)
  | I147 => return_ (spin_unlock s)
  | I160 => match skb p with Some _ => goto I161 s | None => goto I165 s end
  | I161 => match skb p with Some b => consume b I162 s | None => Fault end
  | I162 => goto I165 (set_priv (set_skb None p) s)
  | I165 => goto I168 (set_priv (set_is_delayed false p) s)
  | I168 => spin_lock TI I169 s
  | I169 => if negb (is_shutdown p) then goto I170 s else goto I172 s
  | I170 => goto I172 (call netif_wake_queue s)
  | I172 => return_ (spin_unlock s)
  end).

(** [priv] is rpdev->ept->priv.  The kernel's cancel functions wait for a running handler, unregister_netdev
    for a transmission in progress. *)
Definition rpmsg_eth_remove (pc : remove_pc) (s : sys) : outcome remove_pc :=
  on_priv s (fun p =>
  match pc with
  | R284 => if ept_priv then spin_lock TR R285 s else Fault
  | R285 => goto R286 (set_priv (set_is_shutdown true p) s)
  | R286 => goto R287 (call netif_stop_queue s)
  | R287 => goto R293 (spin_unlock s)
  | R293 => match dpc s with
            | None => goto R294 (call cancel_delayed_work_sync s)
            | Some _ => Blocked
            end
  | R294 => match ipc s with
            | None => goto R300 (call cancel_work_sync s)
            | Some _ => Blocked
            end
  | R300 => match skb p with Some _ => goto R301 s | None => goto R305 s end
  | R301 => match skb p with Some b => consume b R302 s | None => Fault end
  | R302 => goto R305 (set_priv (set_skb None p) s)
  | R305 => match xpc s with
            | None => goto R307 (set_registered false (call unregister_netdev s))
            | Some _ => Blocked
            end
  | R307 => return_ (set_freed true s)
  end).

(** rpmsg_eth_rx_cb: [None] when the allocation failed, whose NULL the code
    follows; [memcpy] reads [len] bytes of [data]. *)
Definition add_rx (n : Z) p := Priv (skb p) (is_delayed p) (is_shutdown p) (tx_packets p) (tx_bytes p)
  (ulong (rx_packets p + 1)) (ulong (rx_bytes p + n)).
Definition rpmsg_eth_rx_cb (data : list Z) (s : sys) : option (positive * sys) :=
  if freed s then None else
  match dev_alloc_skb (lenZ data + 2) (kernel s) with
  | (None, _) => None
  | (Some b, k) =>
      Some (b, set_priv (add_rx (lenZ data) (priv s))
                 (set_kernel (netif_rx b data (eth_type_trans data) k) s))
  end.

Definition rpmsg_eth_open (s : sys) : sys := call netif_start_queue s.
Definition rpmsg_eth_stop (s : sys) : sys := call netif_stop_queue s.

(** ** The system

    What can happen next.  The stack calls ndo_start_xmit under its transmit
    lock, on a registered device whose queue is running, with a buffer it
    owns; a work item never runs twice at a time; the device is removed once. *)
Inductive step (s : sys) : sys -> Prop :=
  | step_xmit_call b d :
      registered s = true -> xpc s = None -> queue_stopped (obs s) = false ->
      skbs (obs s) !! b = Some d -> b ∉ given s ->
      step s (set_given ({[b]} ∪ given s) (set_xpc (Some (X75 b)) s))
  | step_xmit pc pc' s' :
      xpc s = Some pc -> rpmsg_eth_xmit pc s = Done pc' s' -> step s (set_xpc pc' s')
  | step_work_call :
      ipc s = None -> work_pending (obs s) = true ->
      step s (set_ipc (Some I119) (call begin_work s))
  | step_work pc pc' s' :
      ipc s = Some pc -> net_xmit_work_handler pc s = Done pc' s' -> step s (set_ipc pc' s')
  | step_delayed_call :
      dpc s = None -> timer_pending (obs s) = true ->
      step s (set_dpc (Some D102) (call begin_delayed s))
  | step_delayed pc pc' s' :
      dpc s = Some pc -> net_xmit_delayed_work_handler pc s = Done pc' s' -> step s (set_dpc pc' s')
  | step_remove_call :
      rpc s = None -> registered s = true ->
      step s (set_rpc (Some R284) s)
  | step_remove pc pc' s' :
      rpc s = Some pc -> rpmsg_eth_remove pc s = Done pc' s' -> step s (set_rpc pc' s')
  | step_rx data b s' :
      registered s = true -> rpmsg_eth_rx_cb data s = Some (b, s') -> b ∉ given s -> step s s'.

(** After a probe that succeeded and the first ndo_open. *)
Definition started (s : sys) : Prop :=
  skb (priv s) = None /\ is_delayed (priv s) = false /\ is_shutdown (priv s) = false /\
  freed s = false /\ registered s = true /\ lock s = None /\
  queue_stopped (obs s) = false /\ work_pending (obs s) = false /\ timer_pending (obs s) = false /\
  xpc s = None /\ ipc s = None /\ dpc s = None /\ rpc s = None /\ given s = ∅.

Definition reachable (s : sys) : Prop := exists s0, started s0 /\ rtc step s0 s.

(** Touching freed memory or following NULL. *)
Definition faults (t : thread) (s : sys) : Prop :=
  match t with
  | TX => exists pc, xpc s = Some pc /\ rpmsg_eth_xmit pc s = Fault
  | TI => exists pc, ipc s = Some pc /\ net_xmit_work_handler pc s = Fault
  | TD => exists pc, dpc s = Some pc /\ net_xmit_delayed_work_handler pc s = Fault
  | TR => exists pc, rpc s = Some pc /\ rpmsg_eth_remove pc s = Fault
  end.

(** ** Running one function by itself *)
Fixpoint run_alone {P} (f : P -> sys -> outcome P) (fuel : nat) (pc : P) (s : sys) : option sys :=
  match fuel with
  | O => None
  | S fuel => match f pc s with
              | Done None s' => Some s'
              | Done (Some pc') s' => run_alone f fuel pc' s'
              | _ => None
              end
  end.

End Driver.
Arguments Blocked {K P}.
Arguments Fault {K P}.
Arguments Done {K P} next s.

(** ** Probe

    The parts of the net device probe sets, and what the bus sees: the messages
    sent, the driver data, the return value.  [alloc_ok]: alloc_etherdev
    returned a device, not NULL; [send_ret], [register_ret]: the results of
    rpmsg_send and register_netdev. *)
Record net_device := NetDevice {
  mtu : Z;
  name : string;
  dev_addr : list Z;
  netdev_priv : rpmsg_eth_private;
}.

Record probed := Probed {
  retval : Z;
  netdev : option net_device;
  netdev_registered : bool;
  drvdata : bool;
  sent : list (list Z);
}.

(** "dummy_payload" without its NUL. *)
Definition dummy_payload : list Z := [100; 117; 109; 109; 121; 95; 112; 97; 121; 108; 111; 97; 100].

(** [None]: IS_ERR(NULL) is false, so a NULL device is written through. *)
Definition rpmsg_eth_probe (alloc_ok : bool) (send_ret register_ret : Z) : option probed :=
  let mac := replicate (Z.to_nat (ETH_ALEN - 1)) 0 ++ [1] in
  if negb alloc_ok then None else
  let priv := Priv None false false 0 0 0 0 in
  let nd := NetDevice MTU_RPMSG "rpmsg_net%d" mac priv in
  let sent := [dummy_payload] in
  if negb (send_ret =? 0) then Some (Probed send_ret None false true sent)
  else if negb (register_ret =? 0) then Some (Probed register_ret (Some nd) false true sent)
  else Some (Probed 0 (Some nd) true true sent).
