(* ===== verification/RpmsgLinuxInv.v ===== *)
(** * The Linux driver under every interleaving

    The invariant of linux/rpmsg_eth.c: at any moment one thread, or one queued
    work item, or the running transmit queue holds the right to use the
    driver's single packet slot [priv->skb] (a token); the slot is filled
    exactly while a transmission is under way. *)
From Stdlib Require Import ZifyBool.
From S2P Require Import Prelude RpmsgLinux.

Section Inv.
Context {K : LinuxKernel}.

(** ** Where the token can be *)

Definition x_early (x : option xmit_pc) : bool :=
  match x with Some (X75 _ | X78 _ | X79 _ | X80 _ | X81 _) => true | _ => false end.
Definition x_before_stop (x : option xmit_pc) : bool :=
  match x with Some (X75 _) => true | _ => false end.
Definition x_before_store (x : option xmit_pc) : bool :=
  match x with Some (X75 _ | X78 _ | X79 _ | X80 _) => true | _ => false end.
Definition i_active (i : option work_pc) : bool :=
  match i with None | Some (I143 | I147 | I172) => false | _ => true end.
Definition d_active (d : option delayed_pc) : bool :=
  match d with Some (D102 | D103 | D104) => true | _ => false end.
Definition queue_open (o : kobs) (x : option xmit_pc) : bool :=
  negb (queue_stopped o) && negb (x_before_stop x).

Definition tokens (s : sys) : Z :=
  Z.b2z (queue_open (obs s) (xpc s)) + Z.b2z (x_early (xpc s)) +
  Z.b2z (work_pending (obs s)) + Z.b2z (i_active (ipc s)) +
  Z.b2z (timer_pending (obs s)) + Z.b2z (d_active (dpc s)).

(** The worker between freeing the packet and returning. *)
Definition i_done (i : option work_pc) : bool :=
  match i with Some (I165 | I168 | I169 | I170) => true | _ => false end.
(** The slot holds a buffer just freed. *)
Definition slot_dead (i : option work_pc) (r : option remove_pc) : bool :=
  match i, r with Some I162, _ => true | _, Some R302 => true | _, _ => false end.
(** The buffer the transmit function owns. *)
Definition x_local (x : option xmit_pc) : option positive :=
  match x with
  | Some (X75 b | X78 b | X79 b | X80 b | X85 b | X87 b) => Some b
  | _ => None
  end.

Definition x_locked (x : option xmit_pc) : bool :=
  match x with Some (X79 _ | X80 _ | X81 _ | X82 _ | X85 _) => true | _ => false end.
Definition i_locked (i : option work_pc) : bool :=
  match i with Some (I135 | I136 | I142 | I143 | I147 | I169 | I170 | I172) => true | _ => false end.
Definition d_locked (d : option delayed_pc) : bool :=
  match d with Some (D103 | D104 | D105 | D107) => true | _ => false end.
Definition r_locked (r : option remove_pc) : bool :=
  match r with Some (R285 | R286 | R287) => true | _ => false end.

(** Inside the branches taken with is_shutdown false. *)
Definition x_up (x : option xmit_pc) : bool :=
  match x with Some (X80 _ | X81 _ | X82 _) => true | _ => false end.
Definition i_up (i : option work_pc) : bool :=
  match i with Some (I136 | I142 | I143 | I170) => true | _ => false end.
Definition d_up (d : option delayed_pc) : bool :=
  match d with Some (D104 | D105) => true | _ => false end.

(** How far remove has come: shutdown set; delayed work cancelled; immediate
    work cancelled; slot emptied; device unregistered. *)
Definition remove_phase (r : option remove_pc) (fr : bool) : Z :=
  match r with
  | None => if fr then 6 else 0
  | Some (R284 | R285) => 0
  | Some (R286 | R287 | R293) => 1
  | Some R294 => 2
  | Some (R300 | R301 | R302) => 3
  | Some R305 => 4
  | Some R307 => 5
  end.

(** ** The invariant *)

Definition full {A} (o : option A) : bool := match o with Some _ => true | None => false end.
Definition holds (t : thread) (l : option thread) : bool :=
  match t, l with
  | TX, Some TX | TI, Some TI | TD, Some TD | TR, Some TR => true
  | _, _ => false
  end.
Definition i_retrying (i : option work_pc) : bool :=
  match i with Some I142 => true | _ => false end.
Definition r_freeing (r : option remove_pc) : bool :=
  match r with Some (R301 | R302) => true | _ => false end.
Definition x_stored (x : option xmit_pc) : bool :=
  match x with Some (X81 _) => true | _ => false end.

Record control (s : sys) : Prop := {
  c_tok1 : tokens s <= 1;
  c_tok : is_shutdown (priv s) = false -> tokens s = 1;
  c_none : queue_open (obs s) (xpc s) || x_before_store (xpc s) || i_done (ipc s) = true ->
           full (skb (priv s)) = false;
  c_some : work_pending (obs s) || timer_pending (obs s) || d_active (dpc s) || x_stored (xpc s)
           || (i_active (ipc s) && negb (i_done (ipc s))) || r_freeing (rpc s) = true ->
           full (skb (priv s)) = true;
  c_r305 : 4 <= remove_phase (rpc s) (freed s) -> full (skb (priv s)) = false;
  c_dl : timer_pending (obs s) || d_active (dpc s) || i_retrying (ipc s) = true ->
         is_delayed (priv s) = true;
  c_lock_x : x_locked (xpc s) = holds TX (lock s);
  c_lock_i : i_locked (ipc s) = holds TI (lock s);
  c_lock_d : d_locked (dpc s) = holds TD (lock s);
  c_lock_r : r_locked (rpc s) = holds TR (lock s);
  c_up : x_up (xpc s) || i_up (ipc s) || d_up (dpc s) = true -> is_shutdown (priv s) = false;
  c_sh : is_shutdown (priv s) = (1 <=? remove_phase (rpc s) (freed s));
  c_ph2 : full (dpc s) || timer_pending (obs s) = true -> remove_phase (rpc s) (freed s) <= 1;
  c_ph3 : full (ipc s) || work_pending (obs s) = true -> remove_phase (rpc s) (freed s) <= 2;
  c_ph5 : full (xpc s) = true -> remove_phase (rpc s) (freed s) <= 4;
  c_reg : registered s = (remove_phase (rpc s) (freed s) <=? 4);
  c_freed : freed s = true -> full (rpc s) = false;
}.

(** Ownership: every buffer handed to the driver is alive exactly while the
    slot or the transmit function holds it. *)
Record owns (slot : option positive) (dead : bool) (loc : option positive)
    (live : gmap positive (list Z)) (g : gset positive) : Prop := {
  o_slot : forall b, slot = Some b -> b ∈ g /\ (dead = false <-> is_Some (live !! b));
  o_local : forall b, loc = Some b -> b ∈ g /\ is_Some (live !! b) /\ slot <> Some b;
  o_leak : forall b, b ∈ g -> is_Some (live !! b) -> slot = Some b \/ loc = Some b;
}.
Definition owners (s : sys) : Prop :=
  owns (skb (priv s)) (slot_dead (ipc s) (rpc s)) (x_local (xpc s)) (skbs (obs s)) (given s).

Definition inv (s : sys) : Prop := control s /\ owners s.

Lemma inv_started s : started s -> inv s.
Proof.
  intros (Hs & Hd & Hsh & Hf & Hr & Hl & Hq & Hw & Ht & Hx & Hi & Hdp & Hrp & Hg).
  split; [split|split]; unfold tokens; rewrite ?Hs, ?Hd, ?Hsh, ?Hf, ?Hr, ?Hl, ?Hx, ?Hi, ?Hdp, ?Hrp, ?Hg;
    unfold queue_open; rewrite ?Hq, ?Hw, ?Ht; simpl; try done; try lia; naive_solver.
Qed.

(** ** Preservation *)

(** What the boolean views of the worker's position have to do with each other. *)
Lemma i_views i :
  (i_active i = false -> i_done i = false) /\ (i_retrying i = true -> i_active i = true /\ i_done i = false) /\
  (i_active i = true -> full i = true) /\ (i_up i = true -> i_locked i = true).
Proof. by destruct i as [[]|]. Qed.
Lemma d_views d : (d_active d = true -> full d = true) /\ (d_up d = true -> d_locked d = true).
Proof. by destruct d as [[]|]. Qed.
Lemma x_views x :
  (x_before_stop x = true -> x_before_store x = true) /\ (x_before_store x = true -> x_early x = true) /\
  (x_stored x = true -> x_early x = true /\ x_up x = true) /\ (x_early x = true -> full x = true) /\
  (x_up x = true -> x_locked x = true).
Proof. by destruct x as [[]|]. Qed.

Lemma phase_views r fr :
  0 <= remove_phase r fr <= 6 /\ (r_freeing r = true -> remove_phase r fr = 3) /\
  (fr = false -> remove_phase r fr <= 5).
Proof. destruct r as [[]|], fr; simpl; repeat split; intros; try done; lia. Qed.

End Inv.

(** Bring a step to the kernel's observations. *)
Ltac observe_all :=
  rewrite ?observe_stop, ?observe_start, ?observe_wake, ?observe_schedule, ?observe_schedule_delayed,
    ?observe_begin_work, ?observe_begin_delayed, ?observe_cancel_delayed, ?observe_cancel_work,
    ?observe_consume, ?observe_trysend, ?observe_unregister in *.

Ltac quick :=
  first [ assumption | reflexivity | intros; first [assumption | discriminate | by auto 2 ] ].

(** Split on a boolean and drop the cases the token count excludes. *)
Ltac prune := simpl in *; try (match goal with H : _ <= 1 |- _ => exfalso; clear -H; lia end).
Ltac norm :=
  repeat match goal with
  | H : context [_ || true] |- _ => rewrite orb_true_r in H
  | H : context [_ || false] |- _ => rewrite orb_false_r in H
  | H : context [_ && true] |- _ => rewrite andb_true_r in H
  | H : context [_ && false] |- _ => rewrite andb_false_r in H
  end; simpl in *.
Ltac split_on b := tryif is_var b then destruct b; prune else (let E := fresh "E" in destruct b eqn:E; prune).
Ltac tok :=
  repeat match goal with
  | H : context [Z.b2z ?b] |- _ =>
      lazymatch b with
      | true => fail | false => fail
      | negb ?c && _ => split_on c | negb ?c => split_on c | ?c && _ => split_on c
      | _ => split_on b
      end
  | |- context [Z.b2z (negb ?b)] => split_on b
  end.
(** Use the implications whose premise is at hand, then forget the others. *)
Ltac forward :=
  repeat match goal with
  | H : _ /\ _ |- _ => destruct H
  | H : _ || _ = true |- _ => apply orb_true_iff in H as [H|H]
  | H : _ && _ = true |- _ => apply andb_true_iff in H as [? H]
  | H : negb _ = true |- _ => apply negb_true_iff in H
  | H : ?a = ?a -> _ |- _ => specialize (H eq_refl)
  | H : false = true |- _ => discriminate H
  | H : true = false |- _ => discriminate H
  | H : false = true -> _ |- _ => clear H
  | H : true = false -> _ |- _ => clear H
  | H : ?b = true |- _ => progress (rewrite H in * )
  | H : ?b = false |- _ => lazymatch b with context [_ <=? _] => fail | _ => progress (rewrite H in * ) end
  | H : ?P -> _, H' : ?P |- _ => specialize (H H')
  | H : (_ <= _)%Z -> _ |- _ => specialize (H ltac:(clear; lia))
  end.
Ltac slow :=
  tok; norm; forward; norm; forward;
  repeat match goal with |- context [(?a <=? ?b)%Z] => destruct (Z.leb_spec a b)
    | H : context [(?a <=? ?b)%Z] |- _ => destruct (Z.leb_spec a b) end; simpl in *; forward;
  norm; forward;
  try match goal with l : option thread |- _ => destruct l as [[]|] end; forward;
  first [ quick | congruence
        | repeat match goal with H : ?P -> _ |- _ => clear H end; lia ].

(** The function's step in its cases. *)
Ltac cases H :=
  unfold goto, return_, spin_lock, spin_unlock, consume, call, obs in H; simpl in H;
  repeat match type of H with
  | context [match ?x with _ => _ end] => let E := fresh "Ec" in destruct x eqn:E; simpl in H
  end; try discriminate H; inversion H; subst; clear H.

(** A step of one thread preserves [control]: expand the step, then check the
    invariant's clauses. *)
Ltac expand :=
  unfold tokens, queue_open, obs; simpl in *; observe_all; simpl in *;
  repeat match goal with E : rpmsg_trysend ?d ?k = (_, ?k') |- _ =>
    let H := fresh in pose proof (observe_trysend d k) as H; rewrite E in H; clear E;
    simpl in H; rewrite H in *; clear H end;
  match goal with k : kst |- _ =>
    let q := fresh "q" in let w := fresh "w" in let t := fresh "t" in let m := fresh "m" in
    destruct (observe k) as [q w t m] end; simpl in *.
Ltac clauses :=
  split; expand;
  first [ solve [quick]
        | solve [match goal with l : option thread |- _ => destruct l as [[]|]; quick end]
        | solve [intros; slow] ].
Ltac open_state s :=
  destruct s as [[sl dl sh ? ? ? ?] fr reg lk k x i d r g]; simpl in *; subst.
Ltac open_step H :=
  unfold rpmsg_eth_xmit, net_xmit_work_handler, net_xmit_delayed_work_handler, rpmsg_eth_remove,
    on_priv in H; simpl in H;
  match type of H with (if ?fr then _ else _) = _ => destruct fr; [done|] end;
  unfold tokens, queue_open, obs in *; simpl in *.

Section Preserve.
Context {K : LinuxKernel}.

Lemma xmit_control s pc pc' s' :
  control s -> xpc s = Some pc -> rpmsg_eth_xmit pc s = Done pc' s' -> control (set_xpc pc' s').
Proof.
  intros [] Hx H. open_state s. open_step H.
  pose proof (i_views i). pose proof (d_views d). pose proof (phase_views r false).
  destruct pc; simpl in *; cases H; clauses.
Qed.

Lemma work_control s pc pc' s' :
  control s -> ipc s = Some pc -> net_xmit_work_handler pc s = Done pc' s' -> control (set_ipc pc' s').
Proof.
  intros [] Hi H. open_state s. open_step H.
  pose proof (x_views x). pose proof (d_views d). pose proof (phase_views r false).
  destruct pc; simpl in *; cases H; clauses.
Qed.

Lemma delayed_control s pc pc' s' :
  control s -> dpc s = Some pc -> net_xmit_delayed_work_handler pc s = Done pc' s' ->
  control (set_dpc pc' s').
Proof.
  intros [] Hd H. open_state s. open_step H.
  pose proof (x_views x). pose proof (i_views i). pose proof (phase_views r false).
  destruct pc; simpl in *; cases H; clauses.
Qed.

Lemma remove_control s pc pc' s' :
  control s -> rpc s = Some pc -> rpmsg_eth_remove pc s = Done pc' s' -> control (set_rpc pc' s').
Proof.
  intros [] Hr H. open_state s. open_step H.
  pose proof (x_views x). pose proof (i_views i). pose proof (d_views d).
  destruct pc; simpl in *; cases H; clauses.
Qed.

(** A message from the remote side touches the receive counters and the
    kernel's buffers only. *)
Lemma rx_step data s b s' :
  rpmsg_eth_rx_cb data s = Some (b, s') ->
  skbs (obs s) !! b = None /\ obs s' = set_skbs (<[b := data]> (skbs (obs s))) (obs s) /\
  exists k, s' = set_priv (add_rx (lenZ data) (priv s)) (set_kernel k s) /\ freed s = false.
Proof.
  unfold rpmsg_eth_rx_cb, obs. destruct (freed s) eqn:Hf; [done|].
  pose proof (observe_alloc (lenZ data + 2) (kernel s)) as Ha.
  destruct (dev_alloc_skb _ _) as [[b'|] k]; [|done]. intros [= <- <-]. destruct Ha as [Hn Ha].
  split; [done|]. split; [|eauto]. simpl. rewrite observe_netif_rx, Ha.
  unfold set_skbs. simpl. by rewrite insert_insert_eq.
Qed.

Lemma step_control s s' : control s -> step s s' -> control s'.
Proof.
  intros Hc H. destruct H as [b0 d0 Hr Hx Hq Hl Hg|pc pc' s' Hp Hs|Hi Hw|pc pc' s' Hp Hs|Hd Ht|
    pc pc' s' Hp Hs|Hr Hreg|pc pc' s' Hp Hs|data b0 s' Hreg Hrx Hg];
    eauto using xmit_control, work_control, delayed_control, remove_control.
  5: { apply rx_step in Hrx as (_ & Ho & kn & -> & Hf). destruct Hc.
    split; unfold tokens, queue_open in *; rewrite ?Ho; assumption. }
  all: destruct Hc; open_state s; unfold tokens, queue_open, obs in *; simpl in *.
  - pose proof (i_views i). pose proof (d_views d). pose proof (phase_views r fr). clauses.
  - pose proof (x_views x). pose proof (d_views d). pose proof (phase_views r fr). clauses.
  - pose proof (x_views x). pose proof (i_views i). pose proof (phase_views r fr). clauses.
  - pose proof (x_views x). pose proof (i_views i). pose proof (d_views d).
    destruct fr; clauses.
Qed.

(** ** Ownership *)

Lemma slot_dead_full s : control s -> slot_dead (ipc s) (rpc s) = true -> full (skb (priv s)) = true.
Proof.
  intros [] H. apply c_some0.
  destruct (ipc s) as [[]|]; simpl in *; try (by rewrite ?orb_true_r); destruct (rpc s) as [[]|];
    done || by rewrite ?orb_true_r.
Qed.

Lemma full_None {A} (o : option A) : full o = false <-> o = None.
Proof. by destruct o. Qed.

Lemma live_delete (m : gmap positive (list Z)) b c :
  is_Some (delete b m !! c) <-> c <> b /\ is_Some (m !! c).
Proof.
  destruct (decide (c = b)) as [->|]; [rewrite lookup_delete_eq|rewrite lookup_delete_ne by done];
    naive_solver.
Qed.

Lemma owns_consume p x m g :
  owns (Some p) false x m g -> owns (Some p) true x (delete p m) g.
Proof.
  intros [Hs Hlo Hle]. split; intros b.
  - intros [= <-]. destruct (Hs p eq_refl). split; [done|]. rewrite live_delete. naive_solver.
  - intros Hx. destruct (Hlo b Hx) as (? & ? & ?). rewrite live_delete. naive_solver.
  - rewrite live_delete. intros ? [? ?]. by apply Hle.
Qed.

Lemma owns_clear p x m g : owns (Some p) true x m g -> owns None false x m g.
Proof.
  intros [Hs Hlo Hle]. split; intros b; [done| |].
  - intros Hx. by destruct (Hlo b Hx) as (? & ? & ?).
  - intros Hg Hl. destruct (Hle b Hg Hl) as [[= ->]|?]; [|by right].
    destruct (Hs b eq_refl) as [_ Hd]. naive_solver.
Qed.

(** The transmit function stores its buffer in the empty slot. *)
Lemma owns_store p d m g : owns None d (Some p) m g -> owns (Some p) false None m g.
Proof.
  intros [Hs Hlo Hle]. split; intros b; [|done|].
  - intros [= <-]. by destruct (Hlo p eq_refl) as (? & ? & ?).
  - intros Hg Hl. destruct (Hle b Hg Hl) as [?|[= ->]]; [done|by left].
Qed.

(** It drops its buffer. *)
Lemma owns_drop p sl d m g : owns sl d (Some p) m g -> owns sl d None (delete p m) g.
Proof.
  intros [Hs Hlo Hle]. split; intros b; [|done|].
  - intros ->. destruct (Hs b eq_refl). destruct (Hlo p eq_refl) as (? & ? & ?).
    rewrite live_delete. naive_solver.
  - rewrite live_delete. intros Hg [Hne Hl]. destruct (Hle b Hg Hl) as [?|[= ->]]; [by left|done].
Qed.

(** The stack hands over a new buffer. *)
Lemma owns_give b sl d m g :
  owns sl d None m g -> b ∉ g -> is_Some (m !! b) -> owns sl d (Some b) m ({[b]} ∪ g).
Proof.
  intros [Hs Hlo Hle] Hb Hm. split; intros c.
  - intros ->. destruct (Hs c eq_refl). set_solver.
  - intros [= <-]. split; [set_solver|]. split; [done|]. intros ->. by destruct (Hs b eq_refl).
  - intros [->%elem_of_singleton|Hg]%elem_of_union Hl; [by right|].
    destruct (Hle c Hg Hl) as [?|?]; [by left|done].
Qed.

(** Buffers of others come and go. *)
Lemma owns_other b v sl d x m g : owns sl d x m g -> b ∉ g -> owns sl d x (<[b := v]> m) g.
Proof.
  intros [Hs Hlo Hle] Hb. split; intros c.
  - intros ->. destruct (Hs c eq_refl). by rewrite lookup_insert_ne by set_solver.
  - intros Hx. destruct (Hlo c Hx) as (? & ? & ?). by rewrite lookup_insert_ne by set_solver.
  - intros Hg. rewrite lookup_insert_ne by set_solver. by apply Hle.
Qed.

Lemma xmit_owners s pc pc' s' :
  control s -> owners s -> xpc s = Some pc -> rpmsg_eth_xmit pc s = Done pc' s' ->
  owners (set_xpc pc' s').
Proof.
  intros Hc Ho Hx H. pose proof (slot_dead_full s Hc) as Hsd.
  pose proof (c_none s Hc) as Hn. rewrite Hx in Hn. clear Hc.
  open_state s. unfold rpmsg_eth_xmit, on_priv in H. simpl in H.
  destruct fr; [done|]. unfold owners, obs in *. simpl in *.
  destruct pc; simpl in *; cases H; simpl in *; observe_all; simpl in *; try done.
  - rewrite orb_true_r in Hn. specialize (Hn eq_refl). apply full_None in Hn as ->. simpl in *.
    destruct (slot_dead i r); [by specialize (Hsd eq_refl)|]. by eapply owns_store.
  - by eapply owns_drop.
Qed.

Lemma work_owners s pc pc' s' :
  control s -> owners s -> ipc s = Some pc -> net_xmit_work_handler pc s = Done pc' s' ->
  owners (set_ipc pc' s').
Proof.
  intros Hc Ho Hi H.
  assert (forall o, o <> Some I162 -> slot_dead o (rpc s) = false) as Hr.
  { pose proof (c_ph3 s Hc) as H3. rewrite Hi in H3. specialize (H3 eq_refl).
    intros [[]|] ?; simpl; destruct (rpc s) as [[]|]; simpl in *; done. }
  pose proof (c_some s Hc) as Hsm. rewrite Hi in Hsm. clear Hc.
  open_state s. unfold net_xmit_work_handler, on_priv in H. simpl in H.
  destruct fr; [done|]. unfold owners, obs in *. simpl in *.
  destruct pc; simpl in *; cases H; simpl in *.
  all: repeat match goal with E : rpmsg_trysend ?d ?k = (_, ?k') |- _ =>
    let H := fresh in pose proof (observe_trysend d k) as H; rewrite E in H; clear E;
    simpl in H; rewrite H in *; clear H end; simpl in *; observe_all; simpl in *.
  all: pose proof (Hr None ltac:(done)) as Hr'; simpl in *; rewrite ?Hr' in *; try assumption.
  - by apply owns_consume.
  - destruct sl as [p|]; [by eapply owns_clear|]. by rewrite ?orb_true_r in Hsm; specialize (Hsm eq_refl).
Qed.

Lemma delayed_owners s pc pc' s' :
  owners s -> dpc s = Some pc -> net_xmit_delayed_work_handler pc s = Done pc' s' ->
  owners (set_dpc pc' s').
Proof.
  intros Ho Hd H. open_state s. unfold net_xmit_delayed_work_handler, on_priv in H. simpl in H.
  destruct fr; [done|]. unfold owners, obs in *. simpl in *.
  destruct pc; simpl in *; cases H; simpl in *; observe_all; done.
Qed.

Lemma remove_owners s pc pc' s' :
  control s -> owners s -> rpc s = Some pc -> rpmsg_eth_remove pc s = Done pc' s' ->
  owners (set_rpc pc' s').
Proof.
  intros Hc Ho Hp H. pose proof (c_ph3 s Hc) as H3. pose proof (c_some s Hc) as Hsm. rewrite Hp in H3, Hsm.
  clear Hc. open_state s. unfold rpmsg_eth_remove, on_priv in H. simpl in H.
  destruct fr; [done|]. unfold owners, obs in *. simpl in *.
  destruct pc; simpl in *; cases H; simpl in *; observe_all; simpl in *; try done.
  all: destruct i as [i|]; simpl in *; [by specialize (H3 eq_refl)|].
  - by apply owns_consume.
  - destruct sl as [p|]; [by eapply owns_clear|]. by rewrite ?orb_true_r in Hsm; specialize (Hsm eq_refl).
Qed.

Lemma step_owners s s' : control s -> owners s -> step s s' -> owners s'.
Proof.
  intros Hc Ho H. destruct H as [b0 d0 Hr Hx Hq Hl Hg|pc pc' s' Hp Hs|Hi Hw|pc pc' s' Hp Hs|Hd Ht|
    pc pc' s' Hp Hs|Hr Hreg|pc pc' s' Hp Hs|data b0 s' Hreg Hrx Hg];
    eauto using xmit_owners, work_owners, delayed_owners, remove_owners.
  - unfold owners in *. simpl. rewrite Hx in Ho. by apply owns_give.
  - unfold owners, obs in *. simpl. rewrite observe_begin_work. simpl. rewrite Hi in Ho.
    by destruct (rpc s) as [[]|].
  - unfold owners, obs in *. simpl. by rewrite observe_begin_delayed.
  - unfold owners in *. simpl. rewrite Hr in Ho. by destruct (ipc s) as [[]|].
  - apply rx_step in Hrx as (_ & Hobs & kn & Hs & _). unfold owners in *. rewrite Hobs. subst s'. simpl.
    by apply owns_other.
Qed.

Lemma step_inv s s' : inv s -> step s s' -> inv s'.
Proof. intros [Hc Ho] H. split; [by eapply step_control|by eapply step_owners]. Qed.

Lemma reachable_inv s : reachable s -> inv s.
Proof.
  intros (s0 & Hs & Hr). apply inv_started in Hs. induction Hr; [done|].
  eauto using step_inv.
Qed.

End Preserve.
