(* ===== verification/RpmsgLinuxProps.v ===== *)
(** * The Linux driver: what its invariant gives

    Theorems about every reachable state of the driver's transition system, the
    sequential behaviour of the handlers, and two executions that show where
    the driver goes wrong. *)
From Stdlib Require Import ZifyBool.
From stdpp Require Import strings.
From S2P Require Import Prelude RpmsgLinux RpmsgLinuxInv.
#[local] Open Scope Z_scope.

(** ** A kernel

    The services over their observations, with a script for the results of
    rpmsg_trysend and a counter that names fresh buffers. *)
Record model_kst := MK { mk_obs : kobs; mk_send : list Z; mk_next : positive }.
Definition mk_upd (f : kobs -> kobs) (k : model_kst) : model_kst := MK (f (mk_obs k)) (mk_send k) (mk_next k).
Definition mk_fresh (k : model_kst) : positive := fresh (dom (skbs (mk_obs k)) : gset positive).

#[export] Program Instance model_kernel : LinuxKernel := {|
  kst := model_kst;
  observe := mk_obs;
  HZ := 100;
  ept_priv := true;
  netif_stop_queue := mk_upd (set_queue true);
  netif_start_queue := mk_upd (set_queue false);
  netif_wake_queue := mk_upd (set_queue false);
  schedule_work := mk_upd (set_work true);
  schedule_delayed_work := fun _ => mk_upd (set_timer true);
  begin_work := mk_upd (set_work false);
  begin_delayed := mk_upd (set_timer false);
  cancel_delayed_work_sync := mk_upd (set_timer false);
  cancel_work_sync := mk_upd (set_work false);
  dev_consume_skb_any := fun b => mk_upd (fun o => set_skbs (delete b (skbs o)) o);
  rpmsg_trysend := fun _ k =>
    match mk_send k with
    | [] => (0, k)
    | r :: rs => (r, MK (mk_obs k) rs (mk_next k))
    end;
  unregister_netdev := fun k => k;
  dev_alloc_skb := fun _ k => (Some (mk_fresh k), mk_upd (fun o => set_skbs (<[mk_fresh k := []]> (skbs o)) o) k);
  eth_type_trans := fun d => 256 * byte_at d 12 + byte_at d 13;
  netif_rx := fun b d _ => mk_upd (fun o => set_skbs (<[b := d]> (skbs o)) o);
|}.
Solve Obligations with done.
Next Obligation. intros d k. simpl. by destruct (mk_send k). Qed.
Next Obligation.
  intros n k. simpl. split; [|done].
  apply (not_elem_of_dom (D := gset positive)). exact (is_fresh (dom (skbs (mk_obs k)) : gset positive)).
Qed.

(** ** Scheduling

    An execution chosen step by step. *)
Inductive choice :=
  | CallXmit (b : positive) | Xmit | CallWork | Work | CallDelayed | Delayed | CallRemove | Remove.

Definition take_step {K : LinuxKernel} (c : choice) (s : sys) : option sys :=
  match c with
  | CallXmit b =>
      if registered s && negb (full (xpc s)) && negb (queue_stopped (obs s))
         && full (skbs (obs s) !! b) && bool_decide (b ∉ given s)
      then Some (set_given ({[b]} ∪ given s) (set_xpc (Some (X75 b)) s)) else None
  | Xmit => pc ← xpc s;
            match rpmsg_eth_xmit pc s with Done pc' s' => Some (set_xpc pc' s') | _ => None end
  | CallWork => if negb (full (ipc s)) && work_pending (obs s)
                then Some (set_ipc (Some I119) (call begin_work s)) else None
  | Work => pc ← ipc s;
            match net_xmit_work_handler pc s with Done pc' s' => Some (set_ipc pc' s') | _ => None end
  | CallDelayed => if negb (full (dpc s)) && timer_pending (obs s)
                   then Some (set_dpc (Some D102) (call begin_delayed s)) else None
  | Delayed => pc ← dpc s;
            match net_xmit_delayed_work_handler pc s with Done pc' s' => Some (set_dpc pc' s') | _ => None end
  | CallRemove => if negb (full (rpc s)) && registered s then Some (set_rpc (Some R284) s) else None
  | Remove => pc ← rpc s;
            match rpmsg_eth_remove pc s with Done pc' s' => Some (set_rpc pc' s') | _ => None end
  end.

Fixpoint take_steps {K : LinuxKernel} (cs : list choice) (s : sys) : option sys :=
  match cs with [] => Some s | c :: cs => s' ← take_step c s; take_steps cs s' end.

Section Scheduling.
Context {K : LinuxKernel}.

Lemma full_false {A} (o : option A) : negb (full o) = true -> o = None.
Proof. by destruct o. Qed.

Lemma take_step_sound c s s' : take_step c s = Some s' -> step s s'.
Proof.
  destruct c; simpl; intros H.
  - case_match eqn:E; [|done]. injection H as <-.
    apply andb_true_iff in E as [E Hg%bool_decide_eq_true_1]. apply andb_true_iff in E as [E Hl].
    apply andb_true_iff in E as [E Hq%negb_true_iff]. apply andb_true_iff in E as [Hr Hx%full_false].
    destruct (skbs (obs s) !! b) as [d|] eqn:Hd; [|done]. by eapply step_xmit_call.
  - destruct (xpc s) as [pc|] eqn:Hx; [|done]. simpl in H. case_match eqn:E; try done.
    injection H as <-. by eapply step_xmit.
  - case_match eqn:E; [|done]. injection H as <-. apply andb_true_iff in E as [Hi%full_false Hw].
    by apply step_work_call.
  - destruct (ipc s) as [pc|] eqn:Hx; [|done]. simpl in H. case_match eqn:E; try done.
    injection H as <-. by eapply step_work.
  - case_match eqn:E; [|done]. injection H as <-. apply andb_true_iff in E as [Hi%full_false Hw].
    by apply step_delayed_call.
  - destruct (dpc s) as [pc|] eqn:Hx; [|done]. simpl in H. case_match eqn:E; try done.
    injection H as <-. by eapply step_delayed.
  - case_match eqn:E; [|done]. injection H as <-. apply andb_true_iff in E as [Hi%full_false Hw].
    by apply step_remove_call.
  - destruct (rpc s) as [pc|] eqn:Hx; [|done]. simpl in H. case_match eqn:E; try done.
    injection H as <-. by eapply step_remove.
Qed.

Lemma take_steps_sound cs : forall s s', take_steps cs s = Some s' -> rtc step s s'.
Proof.
  induction cs as [|c cs IH]; simpl; intros s s' H; [by injection H as ->|].
  destruct (take_step c s) as [s1|] eqn:E; [|done]. eapply rtc_l; [by eapply take_step_sound|by apply IH].
Qed.

Lemma take_steps_reachable cs s s' : started s -> take_steps cs s = Some s' -> reachable s'.
Proof. intros ? ?%take_steps_sound. by exists s. Qed.

End Scheduling.

(** The driver after probe and open, with two buffers in the stack's hands and
    the given results of rpmsg_trysend to come. *)
Definition start_state (sends : list Z) : @sys model_kernel :=
  @Sys model_kernel (Priv None false false 0 0 0 0) false true None
    (MK (KObs false false false {[1%positive := [1; 2; 3]; 2%positive := [4; 5]]}) sends 3)
    None None None None ∅.
Lemma start_state_started sends : started (start_state sends).
Proof. done. Qed.
Definition after (cs : list choice) (sends : list Z) : @sys model_kernel :=
  default (start_state []) (take_steps cs (start_state sends)).

(** Some executions: one packet sent; a packet waiting for its retry; remove
    with a packet waiting. *)
Definition send_one : list choice :=
  CallXmit 1 :: replicate 8 Xmit ++ CallWork :: replicate 10 Work.
Definition wait_retry : list choice :=
  CallXmit 1 :: replicate 8 Xmit ++ CallWork :: replicate 8 Work.
Definition remove_all : list choice := wait_retry ++ CallRemove :: replicate 11 Remove.

Example send_one_runs : is_Some (take_steps send_one (start_state [])).
Proof. vm_compute. eauto. Qed.

(** ** Every interleaving *)

(** Split a step that faults on its tests. *)
Ltac fault_cases H :=
  unfold spin_lock, consume, goto, return_ in H; simpl in H;
  repeat (match type of H with
    | context [match ?x with _ => _ end] => let E := fresh "E" in destruct x eqn:E; simpl in H
    end); try discriminate H.

Section Safety.
Context {K : LinuxKernel}.

(** Where a thread that runs is, the private data is still there. *)
Lemma running_not_freed s :
  control s -> full (xpc s) || full (ipc s) || full (dpc s) || full (rpc s) = true -> freed s = false.
Proof.
  intros Hc H. destruct (freed s) eqn:Hf; [|done]. pose proof (c_freed s Hc Hf) as Hr.
  pose proof (c_ph5 s Hc) as H5. pose proof (c_ph3 s Hc) as H3. pose proof (c_ph2 s Hc) as H2.
  rewrite Hf in *. destruct (rpc s); [done|]. simpl in *.
  destruct (xpc s); [specialize (H5 eq_refl); lia|]. destruct (ipc s); [specialize (H3 eq_refl); lia|].
  destruct (dpc s); [specialize (H2 eq_refl); lia|]. done.
Qed.

(** The buffer in the slot can be used by the worker and by remove. *)
Lemma slot_live s b :
  owners s -> skb (priv s) = Some b -> slot_dead (ipc s) (rpc s) = false ->
  is_Some (skbs (obs s) !! b).
Proof. intros [Hs _ _] H Hd. by apply (Hs b H). Qed.

Lemma xmit_fault s pc :
  inv s -> xpc s = Some pc -> rpmsg_eth_xmit pc s = Fault -> exists b, pc = X92 b /\ skbs (obs s) !! b = None.
Proof.
  intros [Hc Ho] Hx H. unfold rpmsg_eth_xmit, on_priv in H.
  rewrite (running_not_freed s Hc) in H by by rewrite Hx.
  destruct Ho as [_ Hlo _]. rewrite Hx in Hlo.
  destruct pc; simpl in *; fault_cases H; [|eauto].
  destruct (Hlo b eq_refl) as (_ & [? ?] & _). congruence.
Qed.

Lemma work_fault s pc :
  inv s -> ipc s = Some pc -> net_xmit_work_handler pc s = Fault -> False.
Proof.
  intros [Hc Ho] Hi H. unfold net_xmit_work_handler, on_priv in H.
  rewrite (running_not_freed s Hc) in H by (rewrite Hi; by rewrite orb_true_r).
  pose proof (c_some s Hc) as Hs. pose proof (c_ph3 s Hc) as H3. rewrite Hi in Hs, H3.
  pose proof (slot_live s) as Hsl. rewrite Hi in Hsl.
  assert (forall b, skb (priv s) = Some b -> pc <> I162 -> is_Some (skbs (obs s) !! b)) as Hlive.
  { intros b Hb Hpc. apply Hsl; [done|done|]. specialize (H3 eq_refl).
    destruct pc, (rpc s) as [[]|]; simpl in *; done. }
  destruct pc; fault_cases H; simpl in *.
  all: try (rewrite ?orb_true_r in Hs; specialize (Hs eq_refl); congruence).
  all: match goal with E : skbs _ !! ?b = None |- _ => destruct (Hlive b eq_refl ltac:(done)); congruence end.
Qed.

Lemma delayed_fault s pc :
  inv s -> dpc s = Some pc -> net_xmit_delayed_work_handler pc s = Fault -> False.
Proof.
  intros [Hc Ho] Hd H. unfold net_xmit_delayed_work_handler, on_priv in H.
  rewrite (running_not_freed s Hc) in H by (rewrite Hd; by rewrite !orb_true_r).
  destruct pc; fault_cases H.
Qed.

Lemma remove_fault s pc :
  inv s -> ept_priv = true -> rpc s = Some pc -> rpmsg_eth_remove pc s = Fault -> False.
Proof.
  intros [Hc Ho] Hept Hr H. unfold rpmsg_eth_remove, on_priv in H.
  rewrite (running_not_freed s Hc) in H by (rewrite Hr; by rewrite !orb_true_r).
  pose proof (c_some s Hc) as Hs. pose proof (c_ph3 s Hc) as H3. rewrite Hr in Hs, H3.
  pose proof (slot_live s) as Hsl. rewrite Hr in Hsl.
  destruct pc; fault_cases H; try congruence.
  all: simpl in *; rewrite ?orb_true_r in Hs; specialize (Hs eq_refl).
  - match goal with E : skbs _ !! ?b = None |- _ => destruct (Hsl b Ho eq_refl) as [? ?] end; [|congruence].
    destruct (ipc s) as [i|]; [by specialize (H3 eq_refl)|done].
  - done.
Qed.





End Safety.

(** ** Witnesses of the invariant theorems *)

Lemma start_after cs sends s :
  take_steps cs (start_state sends) = Some s -> reachable (after cs sends) /\ after cs sends = s.
Proof.
  intros H. unfold after. rewrite H. simpl. split; [|done].
  by eapply take_steps_reachable; [apply start_state_started|].
Qed.
Lemma after_reachable cs sends :
  full (take_steps cs (start_state sends)) = true -> reachable (after cs sends).
Proof.
  destruct (take_steps cs (start_state sends)) as [s|] eqn:E; [|done]. intros _.
  by apply start_after in E as [? _].
Qed.





(** ** The handlers run alone *)

Section Sequential.
Context {K : LinuxKernel}.
#[local] Arguments run_alone : simpl never.

Lemma run_S {P} (f : P -> sys -> outcome P) n pc s :
  run_alone f (S n) pc s =
    match f pc s with
    | Done None s' => Some s'
    | Done (Some pc') s' => run_alone f n pc' s'
    | _ => None
    end.
Proof. done. Qed.

(** Run to the end, [H] being what is known of the buffer. *)
Ltac run_with H :=
  repeat (rewrite run_S;
    unfold rpmsg_eth_xmit, net_xmit_work_handler, on_priv, goto, return_, spin_lock, spin_unlock,
      consume, call, obs; simpl; observe_all; simpl; observe_all; simpl; rewrite ?H; simpl).

(** What one run of the work handler does to the private data and to what the
    kernel shows, [err] being what rpmsg_trysend returned for the buffer [b]. *)
Definition work_result (err : Z) (b : positive) (p : rpmsg_eth_private) (o : kobs)
    : rpmsg_eth_private * kobs :=
  if (err =? 0) || is_delayed p then
    (set_is_delayed false (set_skb None p),
     (if is_shutdown p then (fun o => o) else set_queue false) (set_skbs (delete b (skbs o)) o))
  else if is_shutdown p then (p, o)
  else (set_is_delayed true p, set_timer true o).

(** One run of the work handler, started with a live packet in the slot and
    the lock free, ends (in at most ten accesses), sends the packet's bytes
    exactly once, and: on success or after a failed retry frees the packet,
    empties the slot, clears the retry flag and restarts the queue unless the
    driver is shut down; on a first failure keeps the packet and arms the
    retry, or under shutdown leaves it for remove. *)
Theorem work_handler_alone (s : sys) (b : positive) (d : list Z) :
  freed s = false -> lock s = None ->
  skb (priv s) = Some b -> skbs (obs s) !! b = Some d ->
  exists s', run_alone net_xmit_work_handler 17 I119 s = Some s' /\
    (priv s', obs s') = work_result (rpmsg_trysend d (kernel s)).1 b (priv s) (obs s) /\
    lock s' = None.
Proof.
  intros Hf Hl Hs Hb. destruct s as [[sl dl sh tp tb rp rb] fr reg lk k x i dd r g].
  unfold obs in *. simpl in *. subst fr lk sl. unfold work_result. simpl.
  pose proof (observe_trysend d k) as Ho. destruct (rpmsg_trysend d k) as [err k'] eqn:Es. simpl in *.
  assert (skbs (observe k') !! b = Some d) as Hb' by by rewrite Ho.
  do 2 (rewrite run_S; unfold net_xmit_work_handler at 1, on_priv, goto, obs; simpl; rewrite ?Hb; simpl).
  rewrite Es. destruct (Z.eqb_spec err 0) as [->|Hne]; simpl.
  - destruct sh; run_with Hb'; (eexists; split; [reflexivity|]); simpl; observe_all; by rewrite Ho.
  - destruct dl; simpl.
    + destruct sh; run_with Hb'; (eexists; split; [reflexivity|]); simpl; observe_all; by rewrite Ho.
    + destruct sh; run_with Hb'; (eexists; split; [reflexivity|]); simpl; observe_all; by rewrite ?Ho.
Qed.

(** One run of ndo_start_xmit on a live buffer with the lock free, when the
    driver is up: the queue is stopped, the buffer sits in the slot, the work is
    queued and the statistics count the frame.  When the driver is shut down the
    buffer is freed and the function then reads its length: it faults. *)
Theorem xmit_alone (s : sys) (b : positive) (d : list Z) :
  freed s = false -> lock s = None -> skbs (obs s) !! b = Some d ->
  (is_shutdown (priv s) = false ->
    exists s', run_alone rpmsg_eth_xmit 10 (X75 b) s = Some s' /\
      priv s' = add_tx_bytes (lenZ d) (add_tx_packet (set_skb (Some b) (priv s))) /\
      obs s' = set_work true (set_queue true (obs s)) /\ lock s' = None) /\
  (is_shutdown (priv s) = true -> run_alone rpmsg_eth_xmit 10 (X75 b) s = None).
Proof.
  intros Hf Hl Hb. destruct s as [[sl dl sh tp tb rp rb] fr reg lk k x i dd r g].
  unfold obs in *. simpl in *. subst fr lk. split; intros ->; run_with Hb.
  - eexists. split; [reflexivity|]. simpl. observe_all. simpl. by observe_all.
  - by rewrite lookup_delete_eq.
Qed.

(** A received message is handed to the stack unchanged, with the protocol
    of its Ethernet header, and counted; nothing on the transmit side moves. *)
Theorem rx_delivers (s : sys) (data : list Z) (b : positive) (s' : sys) :
  rpmsg_eth_rx_cb data s = Some (b, s') ->
  skbs (obs s') !! b = Some data /\
  (forall c, c <> b -> skbs (obs s') !! c = skbs (obs s) !! c) /\
  queue_stopped (obs s') = queue_stopped (obs s) /\ work_pending (obs s') = work_pending (obs s) /\
  skb (priv s') = skb (priv s) /\ is_delayed (priv s') = is_delayed (priv s) /\
  rx_packets (priv s') = ulong (rx_packets (priv s) + 1) /\
  rx_bytes (priv s') = ulong (rx_bytes (priv s) + lenZ data).
Proof.
  intros H. apply rx_step in H as (_ & Ho & k & -> & _). rewrite Ho. simpl.
  rewrite lookup_insert_eq. do 1 (split; [done|]).
  split; [intros c Hc; by rewrite lookup_insert_ne|]. done.
Qed.

End Sequential.

Lemma work_handler_alone_witness :
  exists s', run_alone net_xmit_work_handler 17 I119 (after (CallXmit 1 :: replicate 8 Xmit) [-12]) = Some s' /\
    skb (priv s') = Some 1%positive /\ is_delayed (priv s') = true /\ timer_pending (obs s') = true.
Proof.
  destruct (work_handler_alone (after (CallXmit 1 :: replicate 8 Xmit) [-12]) 1 [1; 2; 3])
    as (s' & Hrun & Hres & _); try (vm_compute; reflexivity).
  exists s'. split; [exact Hrun|].
  split; [|split].
  - etransitivity; [exact (f_equal (fun q => skb q.1) Hres)|vm_compute; reflexivity].
  - etransitivity; [exact (f_equal (fun q => is_delayed q.1) Hres)|vm_compute; reflexivity].
  - etransitivity; [exact (f_equal (fun q => timer_pending q.2) Hres)|vm_compute; reflexivity].
Defined.

Lemma xmit_alone_witness :
  exists s', run_alone rpmsg_eth_xmit 10 (X75 2) (start_state []) = Some s' /\ skb (priv s') = Some 2%positive.
Proof.
  destruct (xmit_alone (start_state []) 2 [4; 5]) as [H _]; try reflexivity.
  destruct (H eq_refl) as (s' & Hr & Hp & _). exists s'. split; [exact Hr|].
  exact (f_equal skb Hp).
Defined.

Lemma rx_delivers_witness :
  exists b s', rpmsg_eth_rx_cb [7; 8; 9] (start_state []) = Some (b, s') /\ skbs (obs s') !! b = Some [7; 8; 9].
Proof.
  assert (is_Some (rpmsg_eth_rx_cb [7; 8; 9] (start_state []))) as [[b s'] H] by (eexists; reflexivity).
  exists b, s'. split; [exact H|]. exact (proj1 (rx_delivers _ _ _ _ H)).
Defined.

(** ** Where the driver goes wrong *)

(** Stopping and reopening the interface while a packet waits restarts the
    queue under the packet: the next packet overwrites the slot and the first
    one is never freed. *)
Definition reopened : @sys model_kernel :=
  rpmsg_eth_open (rpmsg_eth_stop (after wait_retry [-12])).
Definition next_packet_and_remove : list choice :=
  CallXmit 2 :: replicate 8 Xmit ++ CallDelayed :: replicate 4 Delayed ++
    CallWork :: replicate 10 Work ++ CallRemove :: replicate 9 Remove.
Definition leaked_state : @sys model_kernel :=
  default reopened (take_steps next_packet_and_remove reopened).

Lemma leaked_run : take_steps next_packet_and_remove reopened = Some leaked_state.
Proof.
  unfold leaked_state. assert (full (take_steps next_packet_and_remove reopened) = true) as H by (vm_compute; reflexivity).
  by destruct (take_steps next_packet_and_remove reopened).
Qed.

(** C38: Reopening leaks: from a reachable state with packet 1 waiting for its
    retry, ndo_stop, ndo_open and the transmission of packet 2, followed by the
    whole removal of the driver, leave packet 1 allocated for ever. *)
Theorem reopen_leaks_packet :
  reachable (after wait_retry [-12]) /\ skb (priv (after wait_retry [-12])) = Some 1%positive /\
  rtc step reopened leaked_state /\ freed leaked_state = true /\
  1%positive ∈ given leaked_state /\ skbs (obs leaked_state) !! 1%positive = Some [1; 2; 3].
Proof.
  split; [apply after_reachable; vm_compute; reflexivity|]. split; [vm_compute; reflexivity|].
  split; [exact (take_steps_sound _ _ _ leaked_run)|]. split; [vm_compute; reflexivity|].
  split; [vm_compute; reflexivity|vm_compute; reflexivity].
Qed.
