(* ===== verification/Netif.v ===== *)
(** * Network interfaces: core/netif.c

    The netifs in use are numbered; [netif_list] is the list the code threads
    through their [next] fields, newest first.  Addresses are u32_t in network
    byte order as the code keeps them.  Configuration: IPv4 only, no IGMP, no
    loopback, no status callbacks, several netifs. *)
From S2P Require Import Prelude Def.

Definition NETIF_FLAG_UP := 0x01.
Definition NETIF_FLAG_BROADCAST := 0x02.
Definition NETIF_FLAG_LINK_UP := 0x04.
Definition NETIF_FLAG_ETHARP := 0x08.
Definition NETIF_FLAG_ETHERNET := 0x10.
Definition NETIF_FLAG_IGMP := 0x20.

Definition IPADDR_ANY := 0.
Definition IPADDR_BROADCAST := 0xffffffff.
Definition IPADDR_NONE := 0xffffffff.

(** The functions the code stores in a netif's pointers. *)
Inductive output_fn := netif_null_output_ip4 | etharp_output_fn.
Inductive linkoutput_fn := no_linkoutput | low_level_output_fn.
Inductive input_fn := tcpip_input_fn | netif_input_fn.

(** struct netif *)
Record netif := Netif {
  ip_addr : Z;
  netmask : Z;
  gw : Z;
  input : input_fn;
  output : output_fn;
  linkoutput : linkoutput_fn;
  state : Z;
  mtu : Z;
  hwaddr : list Z;
  hwaddr_len : Z;
  flags : Z;
  name : Z * Z;
  num : Z;
}.
Definition nf_ip_addr v n := Netif v (netmask n) (gw n) (input n) (output n) (linkoutput n) (state n) (mtu n) (hwaddr n) (hwaddr_len n) (flags n) (name n) (num n).
Definition nf_netmask v n := Netif (ip_addr n) v (gw n) (input n) (output n) (linkoutput n) (state n) (mtu n) (hwaddr n) (hwaddr_len n) (flags n) (name n) (num n).
Definition nf_gw v n := Netif (ip_addr n) (netmask n) v (input n) (output n) (linkoutput n) (state n) (mtu n) (hwaddr n) (hwaddr_len n) (flags n) (name n) (num n).
Definition nf_flags v n := Netif (ip_addr n) (netmask n) (gw n) (input n) (output n) (linkoutput n) (state n) (mtu n) (hwaddr n) (hwaddr_len n) v (name n) (num n).
Definition nf_num v n := Netif (ip_addr n) (netmask n) (gw n) (input n) (output n) (linkoutput n) (state n) (mtu n) (hwaddr n) (hwaddr_len n) (flags n) (name n) v.

(** netif.c's variables. *)
Record netifs := Netifs {
  nif : gmap positive netif;
  netif_list : list positive;
  netif_default : option positive;
  netif_num : Z;
}.
Definition set_nif v g := Netifs v (netif_list g) (netif_default g) (netif_num g).
Definition set_netif_list v g := Netifs (nif g) v (netif_default g) (netif_num g).
Definition set_netif_default v g := Netifs (nif g) (netif_list g) v (netif_num g).
Definition set_netif_num v g := Netifs (nif g) (netif_list g) (netif_default g) v.

Definition has_flag (n : netif) (f : Z) : bool := negb (Z.land (flags n) f =? 0).
Definition netif_is_up n := has_flag n NETIF_FLAG_UP.
Definition netif_is_link_up n := has_flag n NETIF_FLAG_LINK_UP.
Definition set_flags (f : Z) n := nf_flags (u8 (Z.lor (flags n) f)) n.
Definition clear_flags (f : Z) n := nf_flags (u8 (Z.land (flags n) (u8 (Z.land (Z.lnot f) 0xff)))) n.
Definition netif_get_index (n : netif) : Z := u8 (num n + 1).
Definition NETIF_NO_INDEX := 0.

(** Unlinking a netif: the list without its first occurrence. *)
Fixpoint remove_first (i : positive) (l : list positive) : list positive :=
  match l with
  | [] => []
  | j :: l => if decide (i = j) then l else j :: remove_first i l
  end.

(** NETIF_FOREACH with a test: the first listed netif that passes it. *)
Fixpoint find_netif (f : netif -> bool) (tab : gmap positive netif) (l : list positive) : option positive :=
  match l with
  | [] => None
  | j :: l => match tab !! j with
              | Some n => if f n then Some j else find_netif f tab l
              | None => None
              end
  end.

(** What netif.c calls in other components. *)
Class NetifDeps (S : Type) := {
  etharp_gratuitous : positive -> M S unit;
  etharp_cleanup_netif : positive -> M S unit;
  tcp_netif_ip_addr_changed : Z -> option Z -> M S unit;
  udp_netif_ip_addr_changed : Z -> option Z -> M S unit;
}.

Section Ops.
Context {S : Type} {P : part S netifs} {D : NetifDeps S}.

Definition get_netif (i : positive) : M S netif :=
  g ← zoom get; lift (nif g !! i).
Definition upd_netif (i : positive) (f : netif -> netif) : M S unit :=
  g ← zoom get;
  n ← lift (nif g !! i);
  zoom (put (set_nif (<[i := f n]> (nif g)) g)).

Definition netif_do_ip_addr_changed (old_addr : Z) (new_addr : option Z) : M S unit :=
  tcp_netif_ip_addr_changed old_addr new_addr;;
  udp_netif_ip_addr_changed old_addr new_addr.

(** Only NETIF_REPORT_TYPE_IPV4 reports do anything here. *)
Definition netif_issue_reports (i : positive) : M S unit :=
  n ← get_netif i;
  if negb (has_flag n NETIF_FLAG_LINK_UP) || negb (has_flag n NETIF_FLAG_UP) then mret tt
  else if negb (ip_addr n =? IPADDR_ANY) then
    if has_flag n NETIF_FLAG_ETHARP then etharp_gratuitous i else mret tt
  else mret tt.

Definition netif_do_set_ipaddr (i : positive) (ipaddr : Z) : M S bool :=
  n ← get_netif i;
  if negb (ipaddr =? ip_addr n) then
    netif_do_ip_addr_changed (ip_addr n) (Some ipaddr);;
    upd_netif i (nf_ip_addr ipaddr);;
    netif_issue_reports i;;
    mret true
  else mret false.

Definition netif_set_ipaddr (i : option positive) (ipaddr : option Z) : M S unit :=
  match i with
  | None => mret tt
  | Some i => netif_do_set_ipaddr i (default IPADDR_ANY ipaddr);; mret tt
  end.

Definition netif_do_set_netmask (i : positive) (nm : Z) : M S bool :=
  n ← get_netif i;
  if negb (nm =? netmask n) then upd_netif i (nf_netmask nm);; mret true else mret false.

Definition netif_set_netmask (i : option positive) (nm : option Z) : M S unit :=
  match i with
  | None => mret tt
  | Some i => netif_do_set_netmask i (default IPADDR_ANY nm);; mret tt
  end.

Definition netif_do_set_gw (i : positive) (g : Z) : M S bool :=
  n ← get_netif i;
  if negb (g =? gw n) then upd_netif i (nf_gw g);; mret true else mret false.

Definition netif_set_gw (i : option positive) (g : option Z) : M S unit :=
  match i with
  | None => mret tt
  | Some i => netif_do_set_gw i (default IPADDR_ANY g);; mret tt
  end.

Definition netif_set_addr (i : positive) (ipaddr nm g : option Z) : M S unit :=
  let ipaddr := default IPADDR_ANY ipaddr in
  let nm := default IPADDR_ANY nm in
  let g := default IPADDR_ANY g in
  let remove := ipaddr =? IPADDR_ANY in
  (if remove then netif_do_set_ipaddr i ipaddr;; mret tt else mret tt);;
  netif_do_set_netmask i nm;;
  netif_do_set_gw i g;;
  (if negb remove then netif_do_set_ipaddr i ipaddr;; mret tt else mret tt).

Definition netif_set_default (i : option positive) : M S unit :=
  zoom (modify (set_netif_default i)).

Definition netif_set_up (i : option positive) : M S unit :=
  match i with
  | None => mret tt
  | Some i =>
      n ← get_netif i;
      if negb (has_flag n NETIF_FLAG_UP) then
        upd_netif i (set_flags NETIF_FLAG_UP);;
        netif_issue_reports i
      else mret tt
  end.

Definition netif_set_down (i : option positive) : M S unit :=
  match i with
  | None => mret tt
  | Some i =>
      n ← get_netif i;
      if has_flag n NETIF_FLAG_UP then
        upd_netif i (clear_flags NETIF_FLAG_UP);;
        n ← get_netif i;
        if has_flag n NETIF_FLAG_ETHARP then etharp_cleanup_netif i else mret tt
      else mret tt
  end.

Definition netif_set_link_up (i : option positive) : M S unit :=
  match i with
  | None => mret tt
  | Some i =>
      n ← get_netif i;
      if negb (has_flag n NETIF_FLAG_LINK_UP) then
        upd_netif i (set_flags NETIF_FLAG_LINK_UP);;
        netif_issue_reports i
      else mret tt
  end.

Definition netif_set_link_down (i : option positive) : M S unit :=
  match i with
  | None => mret tt
  | Some i =>
      n ← get_netif i;
      if has_flag n NETIF_FLAG_LINK_UP then upd_netif i (clear_flags NETIF_FLAG_LINK_UP) else mret tt
  end.

(** The for loop of netif_add: does a listed netif have this number?
    [None] for a dangling list entry. *)
Fixpoint num_taken (tab : gmap positive netif) (l : list positive) (v : Z) : option bool :=
  match l with
  | [] => Some false
  | j :: l => match tab !! j with
              | Some n2 => if num n2 =? v then Some true else num_taken tab l v
              | None => None
              end
  end.

(** Its do-while loop: the number the netif gets. *)
Fixpoint find_num (fuel : nat) (tab : gmap positive netif) (l : list positive) (v : Z) : option Z :=
  match fuel with
  | O => None
  | Datatypes.S fuel =>
      let v := if v =? 255 then 0 else v in
      match num_taken tab l v with
      | Some true => find_num fuel tab l (u8 (v + 1))
      | Some false => Some v
      | None => None
      end
  end.

(** netif_add on the struct [i] of the caller, whose other fields keep what
    they held. *)
Definition netif_add (i : option positive) (ipaddr nm g : option Z) (st : Z)
    (init : option (positive -> M S err_t)) (inp : input_fn) : M S (option positive) :=
  match i, init with
  | None, _ => mret None
  | _, None => mret None
  | Some i, Some init =>
      gs ← zoom get;
      upd_netif i (fun n => Netif 0 0 0 inp netif_null_output_ip4 (linkoutput n) st 0
        (hwaddr n) (hwaddr_len n) 0 (name n) (netif_num gs));;
      netif_set_addr i (Some (default IPADDR_ANY ipaddr)) (Some (default IPADDR_ANY nm))
        (Some (default IPADDR_ANY g));;
      r ← init i;
      if negb (bool_decide (r = ERR_OK)) then mret None
      else
        gs ← zoom get;
        n ← get_netif i;
        v ← lift (find_num 256 (nif gs) (netif_list gs) (num n));
        upd_netif i (nf_num v);;
        zoom (modify (set_netif_num (if v =? 254 then 0 else u8 (v + 1))));;
        zoom (modify (fun gs => set_netif_list (i :: netif_list gs) gs));;
        mret (Some i)
  end.

Definition netif_remove (i : option positive) : M S unit :=
  match i with
  | None => mret tt
  | Some i =>
      n ← get_netif i;
      (if negb (ip_addr n =? IPADDR_ANY) then netif_do_ip_addr_changed (ip_addr n) None else mret tt);;
      n ← get_netif i;
      (if netif_is_up n then netif_set_down (Some i) else mret tt);;
      g ← zoom get;
      (if bool_decide (netif_default g = Some i) then netif_set_default None else mret tt);;
      zoom (modify (fun g => set_netif_list (remove_first i (netif_list g)) g))
  end.

(** netif_get_by_index *)
Definition netif_get_by_index (idx : Z) : M S (option positive) :=
  if negb (idx =? NETIF_NO_INDEX) then
    g ← zoom get;
    mret (find_netif (fun n => idx =? netif_get_index n) (nif g) (netif_list g))
  else mret None.

(** atoi: leading digits (the stack calls it on what follows the two letters). *)
Fixpoint atoi (s : list Z) (acc : Z) : Z :=
  match s with
  | c :: s => if (48 <=? c) && (c <=? 57) then atoi s (acc * 10 + (c - 48)) else acc
  | [] => acc
  end.

Definition netif_find (nm : option (list Z)) : M S (option positive) :=
  match nm with
  | None => mret None
  | Some nm =>
      let v := u8 (atoi (drop 2 nm) 0) in
      g ← zoom get;
      mret (find_netif (fun n => (v =? num n) && (byte_at nm 0 =? (name n).1) && (byte_at nm 1 =? (name n).2))
              (nif g) (netif_list g))
  end.

Definition netif_name_to_index (nm : option (list Z)) : M S Z :=
  i ← netif_find nm;
  match i with
  | Some i => n ← get_netif i; mret (netif_get_index n)
  | None => mret NETIF_NO_INDEX
  end.

End Ops.

(** ** The netif number *)

Definition nums (tab : gmap positive netif) (l : list positive) : list Z :=
  omap (fun j => num <$> tab !! j) l.

Definition listed (tab : gmap positive netif) (l : list positive) : Prop :=
  Forall (fun j => is_Some (tab !! j)) l.

Lemma num_taken_run tab l v :
  listed tab l -> num_taken tab l v = Some (bool_decide (v ∈ nums tab l)).
Proof.
  induction 1 as [|j l [n Hj] Hl IH]; [done|]. simpl. rewrite Hj. simpl.
  destruct (Z.eqb_spec (num n) v) as [->|Hne].
  - symmetry. f_equal. apply bool_decide_eq_true. by left.
  - rewrite IH. f_equal. apply bool_decide_ext. set_solver.
Qed.

Definition wrap255 (v : Z) : Z := if v =? 255 then 0 else v.

Lemma find_num_run tab l fuel : forall v,
  listed tab l -> 0 <= v <= 255 ->
  (exists r, find_num fuel tab l v = Some r /\ 0 <= r <= 254 /\ r ∉ nums tab l) \/
  (forall k, 0 <= k < Z.of_nat fuel -> (wrap255 v + k) mod 255 ∈ nums tab l).
Proof.
  induction fuel as [|fuel IH]; intros v Hl Hv; [right; lia|].
  cbn [find_num]. fold (wrap255 v). rewrite num_taken_run by done.
  assert (0 <= wrap255 v <= 254) as Hw by (unfold wrap255; case_if; lia).
  case_bool_decide as Hin; [|left; eauto].
  rewrite u8_small by lia. destruct (IH (wrap255 v + 1) Hl ltac:(lia)) as [?|Hk]; [by left|].
  right. intros k Hk'. destruct (decide (k = 0)) as [->|].
  - by rewrite Z.add_0_r, Z.mod_small by lia.
  - specialize (Hk (k - 1) ltac:(lia)). replace ((wrap255 v + k) mod 255) with
      ((wrap255 (wrap255 v + 1) + (k - 1)) mod 255); [done|].
    unfold wrap255 at 1. case_if; [|f_equal; lia].
    replace (wrap255 v + k) with (0 + (k - 1) + 1 * 255) by lia. by rewrite Z.mod_add.
Qed.

(** 255 different numbers do not fit in a list of 254. *)
Lemma all_residues (l : list Z) v :
  (forall k, 0 <= k < 255 -> (v + k) mod 255 ∈ l) -> (255 <= length l)%nat.
Proof.
  intros H. assert (seqZ 0 255 ⊆ l) as Hsub.
  { intros r Hr%elem_of_seqZ. specialize (H ((r - v) mod 255) ltac:(apply Z.mod_pos_bound; lia)).
    rewrite Zplus_mod_idemp_r in H. replace (v + (r - v)) with r in H by lia.
    by rewrite Z.mod_small in H by lia. }
  apply submseteq_length in Hsub || (assert (seqZ 0 255 ⊆+ l) as Hs by (apply NoDup_submseteq; [apply NoDup_seqZ|done]);
    apply submseteq_length in Hs; by rewrite length_seqZ in Hs).
Qed.

Lemma find_num_total tab l v :
  listed tab l -> (length l <= 254)%nat -> 0 <= v <= 255 ->
  exists r, find_num 256 tab l v = Some r /\ 0 <= r <= 254 /\ r ∉ nums tab l.
Proof.
  intros Hl Hlen Hv. destruct (find_num_run tab l 256 v Hl Hv) as [?|Hk]; [done|].
  pose proof (all_residues (nums tab l) (wrap255 v) (fun k Hk' => Hk k ltac:(lia))) as H.
  assert (length (nums tab l) <= length l)%nat; [|lia].
  clear. unfold nums. induction l as [|j l IH]; [done|]. csimpl. destruct (tab !! j); simpl; lia.
Qed.

(** ** Lookup by index *)

Lemma find_netif_Some f tab l j :
  find_netif f tab l = Some j -> j ∈ l /\ exists n, tab !! j = Some n /\ f n = true.
Proof.
  induction l as [|i l IH]; simpl; [done|]. destruct (tab !! i) as [n|] eqn:Hi; [|done].
  destruct (f n) eqn:Hf; [intros [= <-]; split; [by left|eauto]|].
  intros [Hin ?]%IH. split; [by right|done].
Qed.

Lemma find_netif_None f tab l j n :
  listed tab l -> find_netif f tab l = None -> j ∈ l -> tab !! j = Some n -> f n = false.
Proof.
  induction 1 as [|i l [ni Hi] Hl IH]; simpl; [by intros _ ?%not_elem_of_nil|]. rewrite Hi.
  destruct (f ni) eqn:Hf; [done|]. intros Hn [->|Hin]%elem_of_cons Hj; [congruence|by apply IH].
Qed.
