(* ===== verification/NetifInv.v ===== *)
(** * Network interfaces: the numbering invariant of core/netif.c *)
From S2P Require Import Prelude Triple Def Netif.

(** Every netif on the list is there, once, and has a number of its own below
    255, so that its index is not NETIF_NO_INDEX. *)
Record netifs_ok (g : netifs) : Prop := {
  netifs_listed : listed (nif g) (netif_list g);
  netifs_nodup : NoDup (netif_list g);
  netifs_nums : NoDup (nums (nif g) (netif_list g));
  netifs_range : Forall (fun v => 0 <= v <= 254) (nums (nif g) (netif_list g));
  netifs_next : 0 <= netif_num g <= 254;
}.

(** [g'] has the list, the default and the numbers of [g]. *)
Record same_netifs (g g' : netifs) : Prop := {
  same_list : netif_list g' = netif_list g;
  same_default : netif_default g' = netif_default g;
  same_next : netif_num g' = netif_num g;
  same_nums j : num <$> nif g' !! j = num <$> nif g !! j;
}.

#[export] Instance same_netifs_refl : Reflexive same_netifs.
Proof. by split. Qed.
#[export] Instance same_netifs_trans : Transitive same_netifs.
Proof.
  intros g1 g2 g3 [A1 B1 C1 D1] [A2 B2 C2 D2]. split; congruence.
Qed.

Lemma same_live g g' i : same_netifs g g' -> is_Some (nif g !! i) -> is_Some (nif g' !! i).
Proof.
  intros Hs [n Hn]. pose proof (same_nums _ _ Hs i) as Hj. rewrite Hn in Hj. destruct (nif g' !! i); [by eexists|done].
Qed.

Lemma nums_ext tab tab' l : (forall j, j ∈ l -> num <$> tab' !! j = num <$> tab !! j) -> nums tab' l = nums tab l.
Proof.
  intros H. unfold nums. induction l as [|j l IH]; [done|]. csimpl.
  rewrite (H j) by (apply elem_of_cons; by left). rewrite IH; [done|]. intros k Hk. apply H, elem_of_cons. by right.
Qed.

Lemma same_ok g g' : netifs_ok g -> same_netifs g g' -> netifs_ok g'.
Proof.
  intros [Hl Hd Hn Hr Hx] Hs. pose proof (same_list _ _ Hs) as El.
  assert (nums (nif g') (netif_list g') = nums (nif g) (netif_list g)) as En.
  { rewrite El. apply nums_ext. intros j _. by apply same_nums. }
  split; rewrite ?En, ?El; try done.
  - eapply Forall_impl; [exact Hl|]. intros j. by apply same_live.
  - by rewrite (same_next _ _ Hs).
Qed.

Section Inv.
Context {S : Type} {P : part S netifs} {D : NetifDeps S}.
Notation total := (Triple.total (get_part (S := S) (P := netifs))).

(** The other components return and leave the netifs alone. *)
Class PoliteDeps := {
  gratuitous_polite i g : total (eq g) (etharp_gratuitous i) (fun _ => eq g);
  cleanup_polite i g : total (eq g) (etharp_cleanup_netif i) (fun _ => eq g);
  tcp_polite o n g : total (eq g) (tcp_netif_ip_addr_changed o n) (fun _ => eq g);
  udp_polite o n g : total (eq g) (udp_netif_ip_addr_changed o n) (fun _ => eq g);
}.
Context {PD : PoliteDeps}.

(** [keeps g m]: from a state with the numbering of [g], [m] returns to one. *)
Definition keeps {A} (g : netifs) (m : M S A) : Prop := total (same_netifs g) m (fun _ => same_netifs g).

Lemma keeps_ret {A} g (a : A) : keeps g (mret a).
Proof. apply total_ret. done. Qed.
Lemma keeps_bind {A B} g (m : M S A) (f : A -> M S B) : keeps g m -> (forall a, keeps g (f a)) -> keeps g (m ≫= f).
Proof. intros Hm Hf. by eapply total_bind. Qed.
Lemma keeps_polite {A} g (m : M S A) : (forall g, total (eq g) m (fun _ => eq g)) -> keeps g m.
Proof. intros Hm. apply total_pure. intros g' Hg. eapply total_conseq; [apply Hm|done|]. by intros r a <-. Qed.
Lemma keeps_get g i : is_Some (nif g !! i) -> keeps g (get_netif i).
Proof.
  intros Hi s Hs. destruct (same_live _ _ i Hs Hi) as [n Hn].
  exists n, s. split; [|done]. unfold get_netif, mbind, M_bind, zoom, get, lift. by rewrite Hn, set_get_part.
Qed.
Lemma keeps_upd g i f : is_Some (nif g !! i) -> (forall n, num (f n) = num n) -> keeps g (upd_netif i f).
Proof.
  intros Hi Hf s Hs. destruct (same_live _ _ i Hs Hi) as [n Hn].
  exists tt, (set_part (set_nif (<[i := f n]> (nif (get_part s))) (get_part s)) s). split.
  - unfold upd_netif, mbind, M_bind, zoom, get, lift, put. rewrite Hn. by rewrite !set_get_part.
  - rewrite get_set_part. etrans; [exact Hs|]. split; try done. intros j. simpl.
    rewrite lookup_insert. case_decide; [subst; rewrite Hn; simpl; by rewrite Hf|done].
Qed.

Hint Resolve keeps_ret keeps_get : netif.
Ltac keeps_tac :=
  repeat first
    [ solve [eauto with netif]
    | apply keeps_upd; [done|by intros []]
    | apply keeps_bind; [|intros]
    | apply keeps_polite; intros; solve [apply gratuitous_polite | apply cleanup_polite | apply tcp_polite | apply udp_polite]
    | match goal with |- keeps _ (match ?x with _ => _ end) => destruct x end ].

(** None of the configuration functions changes the numbering. *)
Lemma set_addr_keeps g i a m w : is_Some (nif g !! i) -> keeps g (netif_set_addr i a m w).
Proof.
  intros Hi. unfold netif_set_addr, netif_do_set_netmask, netif_do_set_gw, netif_do_set_ipaddr,
    netif_do_ip_addr_changed, netif_issue_reports. keeps_tac.
Qed.
Lemma set_ipaddr_keeps g i a : is_Some (nif g !! i) -> keeps g (netif_set_ipaddr (Some i) a).
Proof. intros Hi. unfold netif_set_ipaddr, netif_do_set_ipaddr, netif_do_ip_addr_changed, netif_issue_reports. keeps_tac. Qed.
Lemma set_netmask_keeps g i m : is_Some (nif g !! i) -> keeps g (netif_set_netmask (Some i) m).
Proof. intros Hi. unfold netif_set_netmask, netif_do_set_netmask. keeps_tac. Qed.
Lemma set_gw_keeps g i w : is_Some (nif g !! i) -> keeps g (netif_set_gw (Some i) w).
Proof. intros Hi. unfold netif_set_gw, netif_do_set_gw. keeps_tac. Qed.
Lemma set_up_keeps g i : is_Some (nif g !! i) -> keeps g (netif_set_up (Some i)).
Proof. intros Hi. unfold netif_set_up, netif_issue_reports. keeps_tac. Qed.
Lemma set_down_keeps g i : is_Some (nif g !! i) -> keeps g (netif_set_down (Some i)).
Proof. intros Hi. unfold netif_set_down. keeps_tac. Qed.
Lemma set_link_up_keeps g i : is_Some (nif g !! i) -> keeps g (netif_set_link_up (Some i)).
Proof. intros Hi. unfold netif_set_link_up, netif_issue_reports. keeps_tac. Qed.
Lemma set_link_down_keeps g i : is_Some (nif g !! i) -> keeps g (netif_set_link_down (Some i)).
Proof. intros Hi. unfold netif_set_link_down. keeps_tac. Qed.

(** ** netif_remove *)

Lemma total_get_netif g i n {B} (f : netif -> M S B) Q :
  nif g !! i = Some n -> total (eq g) (f n) Q -> total (eq g) (get_netif i ≫= f) Q.
Proof.
  intros Hn Hf s Hs. destruct (Hf s Hs) as (r & s' & Hr & HQ). exists r, s'. split; [|done].
  unfold get_netif. rewrite bind_assoc. unfold mbind, M_bind, zoom, get, lift. rewrite <- Hs, Hn.
  rewrite Hs, set_get_part. exact Hr.
Qed.
Lemma total_upd_netif g i n f {B} (k : unit -> M S B) Q :
  nif g !! i = Some n -> total (eq (set_nif (<[i := f n]> (nif g)) g)) (k tt) Q ->
  total (eq g) (upd_netif i f ≫= k) Q.
Proof.
  intros Hn Hk s Hs. set (s1 := set_part (set_nif (<[i := f n]> (nif g)) g) s).
  destruct (Hk s1) as (r & s' & Hr & HQ); [unfold s1; by rewrite get_set_part|]. exists r, s'. split; [|done].
  rewrite (bind_run _ _ s tt s1); [done|].
  unfold upd_netif, mbind, M_bind, zoom, get, lift, put. rewrite <- Hs, Hn. rewrite Hs, !set_get_part. by rewrite <- Hs.
Qed.
Lemma total_zoom_modify g (f : netifs -> netifs) {B} (k : unit -> M S B) Q :
  total (eq (f g)) (k tt) Q -> total (eq g) (zoom (modify f) ≫= k) Q.
Proof.
  intros Hk. eapply total_bind with (R := fun _ => eq (f g)); [|by intros []].
  apply total_zoom. intros p <-. by eexists _, _.
Qed.
Lemma total_zoom_get g {B} (f : netifs -> M S B) Q : total (eq g) (f g) Q -> total (eq g) (zoom get ≫= f) Q.
Proof.
  intros Hf s Hs. destruct (Hf s Hs) as (r & s' & Hr & HQ). exists r, s'. split; [|done].
  unfold mbind, M_bind, zoom, get. rewrite set_get_part, <- Hs. exact Hr.
Qed.

Lemma remove_first_elem i l j : j ∈ remove_first i l -> j ∈ l.
Proof.
  induction l as [|k l IH]; [done|]. simpl. case_decide; [intros; apply elem_of_cons; by right|].
  intros [->|?]%elem_of_cons; apply elem_of_cons; [by left|right; auto].
Qed.
Lemma remove_first_NoDup i l : NoDup l -> NoDup (remove_first i l) /\ i ∉ remove_first i l.
Proof.
  induction l as [|k l IH]; [split; [done|apply not_elem_of_nil]|]. intros [Hk Hl]%NoDup_cons. simpl.
  destruct (IH Hl) as [H1 H2]. case_decide; [by subst|]. split.
  - apply NoDup_cons. split; [|done]. by intros Hin%remove_first_elem.
  - intros [?|?]%elem_of_cons; done.
Qed.
Lemma nums_remove tab i l : nums tab (remove_first i l) `sublist_of` nums tab l.
Proof.
  induction l as [|k l IH]; [done|]. simpl. case_decide; unfold nums; csimpl; destruct (num <$> tab !! k).
  - by apply sublist_cons.
  - done.
  - by apply sublist_skip.
  - done.
Qed.

Lemma remove_ok g i d :
  netifs_ok g -> netifs_ok (Netifs (nif g) (remove_first i (netif_list g)) d (netif_num g)).
Proof.
  intros [Hl Hd Hn Hr Hx]. pose proof (nums_remove (nif g) i (netif_list g)) as Hsub. split; simpl; try done.
  - apply Forall_forall. intros j Hj%remove_first_elem. unfold listed in Hl. rewrite Forall_forall in Hl. by apply Hl.
  - by apply remove_first_NoDup.
  - by eapply sublist_NoDup.
  - rewrite Forall_forall in Hr |- *. intros v Hv. apply Hr.
    apply (elem_of_submseteq _ _ _ Hv). by apply sublist_submseteq.
Qed.

Lemma remove_total g i :
  netifs_ok g -> is_Some (nif g !! i) ->
  total (eq g) (netif_remove (Some i)) (fun _ g' => netifs_ok g' /\
    netif_list g' = remove_first i (netif_list g) /\
    netif_default g' = (if decide (netif_default g = Some i) then None else netif_default g)).
Proof.
  intros Ho Hi. unfold netif_remove.
  eapply total_bind with (R := fun _ => same_netifs g).
  { eapply total_conseq; [apply (keeps_get g i Hi)|by intros a <-|done]. }
  intros n. eapply total_bind with (R := fun _ => same_netifs g).
  { destruct (negb _); [unfold netif_do_ip_addr_changed; keeps_tac|apply keeps_ret]. }
  intros _. eapply total_bind; [apply (keeps_get g i Hi)|]. intros n'.
  eapply total_bind with (R := fun _ => same_netifs g).
  { destruct (netif_is_up n'); [by apply set_down_keeps|apply keeps_ret]. }
  intros _. apply total_pure. intros g1 Hs. apply total_zoom_get.
  pose proof (same_ok _ _ Ho Hs) as Ho1.
  eapply total_bind with (R := fun _ => eq (set_netif_default (if decide (netif_default g = Some i) then None else netif_default g) g1)).
  { rewrite (same_default _ _ Hs). destruct (decide (netif_default g = Some i)) as [Hd|Hd].
    - rewrite bool_decide_eq_true_2 by done. apply total_zoom. intros p <-. by eexists _, _.
    - rewrite bool_decide_eq_false_2 by done. apply total_ret. intros g2 <-.
      rewrite <- (same_default _ _ Hs). by destruct g1. }
  intros _. apply total_zoom. intros p <-. eexists _, _. split; [done|]. simpl.
  split; [|split; [by rewrite (same_list _ _ Hs)|done]]. by apply (remove_ok g1).
Qed.

(** ** netif_add *)

(** What a driver's init function may do: fill in the netif it is given. *)
Definition fills_in (i : positive) (init : positive -> M S err_t) : Prop :=
  forall g n, nif g !! i = Some n ->
  total (eq g) (init i) (fun _ g' => exists n', g' = set_nif (<[i := n']> (nif g)) g /\ num n' = num n).

Lemma nums_unlisted g i n' : i ∉ netif_list g -> nums (<[i := n']> (nif g)) (netif_list g) = nums (nif g) (netif_list g).
Proof. intros Hi. apply nums_ext. intros j Hj. rewrite lookup_insert_ne; [done|]. by intros ->. Qed.

Lemma fill_ok g i n' : netifs_ok g -> i ∉ netif_list g -> netifs_ok (set_nif (<[i := n']> (nif g)) g).
Proof.
  intros [Hl Hd Hn Hr Hx] Hi. split; simpl; rewrite ?nums_unlisted by done; try done.
  eapply Forall_impl; [exact Hl|]. intros j Hj. simpl. rewrite lookup_insert. by case_decide.
Qed.

Lemma add_ok g i n v :
  netifs_ok g -> i ∉ netif_list g -> nif g !! i = Some n -> 0 <= v <= 254 -> v ∉ nums (nif g) (netif_list g) ->
  netifs_ok (Netifs (<[i := nf_num v n]> (nif g)) (i :: netif_list g) (netif_default g)
    (if v =? 254 then 0 else u8 (v + 1))).
Proof.
  intros [Hl Hd Hn Hr Hx] Hi Hin Hv Hnew.
  assert (nums (<[i := nf_num v n]> (nif g)) (i :: netif_list g) = v :: nums (nif g) (netif_list g)) as En.
  { unfold nums at 1. csimpl. rewrite lookup_insert_eq. simpl. f_equal. by apply (nums_unlisted g). }
  split; cbn [nif netif_list netif_num netif_default]; rewrite ?En.
  - apply Forall_cons_2; [by rewrite lookup_insert_eq|]. eapply Forall_impl; [exact Hl|]. intros j Hj. simpl.
    rewrite lookup_insert. by case_decide.
  - by apply NoDup_cons.
  - by apply NoDup_cons.
  - by apply Forall_cons_2.
  - case_if; [lia|]. rewrite u8_small by lia. lia.
Qed.

Lemma add_total g i a m w st init inp :
  netifs_ok g -> is_Some (nif g !! i) -> i ∉ netif_list g -> (length (netif_list g) <= 254)%nat -> fills_in i init ->
  total (eq g) (netif_add (Some i) a m w st (Some init) inp) (fun r g' => netifs_ok g' /\
    netif_default g' = netif_default g /\
    match r with
    | Some j => j = i /\ netif_list g' = i :: netif_list g /\
        (forall j, j ∈ netif_list g -> num <$> nif g' !! j = num <$> nif g !! j)
    | None => netif_list g' = netif_list g
    end).
Proof.
  intros Ho [n Hn] Hi Hlen Hinit. unfold netif_add. apply total_zoom_get.
  apply (total_upd_netif g i n _ _ _ Hn). set (n1 := Netif _ _ _ _ _ _ _ _ _ _ _ _ _).
  set (g1 := set_nif (<[i := n1]> (nif g)) g).
  assert (netifs_ok g1) as Ho1 by (by apply fill_ok).
  assert (nif g1 !! i = Some n1) as Hn1 by apply lookup_insert_eq.
  eapply total_bind with (R := fun _ => same_netifs g1).
  { eapply total_conseq; [apply (set_addr_keeps g1 i); by exists n1|by intros x <-|done]. }
  intros _. apply total_pure. intros g2 Hs2. pose proof (same_ok _ _ Ho1 Hs2) as Ho2.
  assert (i ∉ netif_list g2) as Hi2 by (by rewrite (same_list _ _ Hs2)).
  destruct (same_live _ _ i Hs2 ltac:(by exists n1)) as [n2 Hn2].
  assert (num n2 = netif_num g) as En2.
  { pose proof (same_nums _ _ Hs2 i) as Hj. rewrite Hn1, Hn2 in Hj. by injection Hj. }
  eapply total_bind; [exact (Hinit g2 n2 Hn2)|].
  intros r. apply total_pure. intros g3 (n3 & -> & En3). set (g3 := set_nif _ g2).
  assert (netifs_ok g3) as Ho3 by (by apply fill_ok).
  assert (nif g3 !! i = Some n3) as Hn3 by apply lookup_insert_eq.
  assert (netif_list g3 = netif_list g) as El3 by (simpl; by rewrite (same_list _ _ Hs2)).
  assert (netif_default g3 = netif_default g) as Ed3 by (simpl; by rewrite (same_default _ _ Hs2)).
  destruct (negb _).
  { apply total_ret. intros x <-. by split_and!. }
  apply total_zoom_get. apply (total_get_netif g3 i n3 _ _ Hn3).
  destruct (find_num_total (nif g3) (netif_list g3) (num n3)) as (v & Hv & Hvr & Hvn).
  { apply Ho3. }
  { by rewrite El3. }
  { pose proof (netifs_next _ Ho). rewrite En3, En2. lia. }
  rewrite Hv. change (lift (Some v)) with (mret v : M S Z).
  eapply total_bind with (R := fun r x => r = v /\ g3 = x); [by apply total_ret; intros x <-|].
  intros r'. apply total_pure. intros x [-> <-].
  apply (total_upd_netif g3 i n3 _ _ _ Hn3). apply total_zoom_modify. apply total_zoom_modify. apply total_ret.
  intros x <-. unfold set_nif, set_netif_num, set_netif_list. simpl.
  split; [|split; [by rewrite <- Ed3|split; [done|split; [by rewrite <- El3|]]]].
  - apply (add_ok g3 i n3 v); try done.
  - intros j Hj. assert (i <> j) by (by intros ->). rewrite !lookup_insert_ne by done.
    rewrite (same_nums _ _ Hs2 j). unfold g1. simpl. by rewrite lookup_insert_ne.
Qed.

End Inv.
