(* ===== verification/Ip4Addr.v ===== *)
(** * IPv4 addresses: core/ipv4/ip4_addr.c

    Addresses are u32_t in network byte order on the little-endian target; a
    string is the list of its characters, without the NUL. *)
From S2P Require Import Prelude Def Netif.

(** ** The functions *)

Definition unot (v : Z) : Z := u32 (Z.lnot v).

(** IP4_ADDR(a,b,c,d) *)
Definition IP4_ADDR (a b c d : Z) : Z :=
  PP_HTONL (Z.lor (Z.lor (Z.lor (Z.shiftl (Z.land a 0xff) 24) (Z.shiftl (Z.land b 0xff) 16))
    (Z.shiftl (Z.land c 0xff) 8)) (Z.land d 0xff)).

Definition ip4_addr_netcmp (addr1 addr2 mask : Z) : bool := Z.land addr1 mask =? Z.land addr2 mask.
Definition ip4_addr_isany_val (addr : Z) : bool := addr =? IPADDR_ANY.
Definition ip4_addr_ismulticast (addr : Z) : bool :=
  Z.land addr (PP_HTONL 0xf0000000) =? PP_HTONL 0xe0000000.
Definition ip4_addr_islinklocal (addr : Z) : bool :=
  Z.land addr (PP_HTONL 0xffff0000) =? PP_HTONL 0xa9fe0000.
Definition ip4_addr_isloopback (addr : Z) : bool :=
  Z.land addr (PP_HTONL 0xff000000) =? PP_HTONL (Z.shiftl 127 24).

Definition ip4_addr_isbroadcast_u32 (addr : Z) (n : netif) : bool :=
  if (unot addr =? IPADDR_ANY) || (addr =? IPADDR_ANY) then true
  else if Z.land (flags n) NETIF_FLAG_BROADCAST =? 0 then false
  else if addr =? ip_addr n then false
  else if ip4_addr_netcmp addr (ip_addr n) (netmask n)
       && (Z.land addr (unot (netmask n)) =? Z.land IPADDR_BROADCAST (unot (netmask n)))
  then true else false.

(** The two loops of ip4_addr_netmask_valid; [k] bits are left, the mask is
    [2^(k-1)]. *)
Fixpoint skip_ones (k : nat) (nm : Z) : nat :=
  match k with
  | O => O
  | S k' => if Z.land nm (2 ^ Z.of_nat k') =? 0 then k else skip_ones k' nm
  end.
Fixpoint no_ones (k : nat) (nm : Z) : bool :=
  match k with
  | O => true
  | S k' => if negb (Z.land nm (2 ^ Z.of_nat k') =? 0) then false else no_ones k' nm
  end.
Definition ip4_addr_netmask_valid (nm : Z) : bool :=
  let nm_hostorder := lwip_htonl nm in no_ones (skip_ones 32 nm_hostorder) nm_hostorder.

(** Character classes (arch.h). *)
Definition lwip_in_range (c lo up : Z) : bool := (lo <=? u8 c) && (u8 c <=? up).
Definition lwip_isdigit c := lwip_in_range c 48 57.
Definition lwip_isxdigit c := lwip_isdigit c || lwip_in_range c 97 102 || lwip_in_range c 65 70.
Definition lwip_islower c := lwip_in_range c 97 122.
Definition lwip_isspace (c : Z) : bool :=
  (c =? 32) || (c =? 12) || (c =? 10) || (c =? 13) || (c =? 9) || (c =? 11).

(** [*cp], the NUL at the end included. *)
Definition chr (cp : list Z) : Z := match cp with c :: _ => c | [] => 0 end.

(** The inner loop of ip4addr_aton: digits in [base] from [cp]. *)
Fixpoint aton_digits (cp : list Z) (base val : Z) : Z * list Z :=
  match cp with
  | c :: r =>
      if lwip_isdigit c then aton_digits r base (u32 (u32 (val * base) + (c - 48)))
      else if (base =? 16) && lwip_isxdigit c
      then aton_digits r base (Z.lor (u32 (Z.shiftl val 4)) (c + 10 - (if lwip_islower c then 97 else 65)))
      else (val, cp)
  | [] => (val, [])
  end.

(** One number with its base prefix; [None]: no digit. *)
Definition aton_number (cp : list Z) : option (Z * list Z) :=
  if negb (lwip_isdigit (chr cp)) then None
  else
    let '(base, cp) :=
      if chr cp =? 48 then
        let cp := tail cp in
        if (chr cp =? 120) || (chr cp =? 88) then (16, tail cp) else (8, cp)
      else (10, cp) in
    Some (aton_digits cp base 0).

(** The outer loop: [parts] are the numbers before the current one; at most
    three dots are accepted. *)
Fixpoint aton_parts (n : nat) (cp : list Z) (parts : list Z) : option (list Z * Z * list Z) :=
  match aton_number cp with
  | None => None
  | Some (val, cp) =>
      if chr cp =? 46 then
        match n with
        | O => None
        | S n => aton_parts n (tail cp) (parts ++ [val])
        end
      else Some (parts, val, cp)
  end.

Definition ip4addr_aton (cp : list Z) : option Z :=
  match aton_parts 3 cp [] with
  | None => None
  | Some (parts, val, cp) =>
      if negb (chr cp =? 0) && negb (lwip_isspace (chr cp)) then None
      else
        match (match parts with
          | [] => Some val
          | [p0] => if (0xffffff <? val) || (0xff <? p0) then None
                    else Some (Z.lor val (u32 (Z.shiftl p0 24)))
          | [p0; p1] => if (0xffff <? val) || (0xff <? p0) || (0xff <? p1) then None
                    else Some (Z.lor val (Z.lor (u32 (Z.shiftl p0 24)) (u32 (Z.shiftl p1 16))))
          | [p0; p1; p2] => if (0xff <? val) || (0xff <? p0) || (0xff <? p1) || (0xff <? p2) then None
                    else Some (Z.lor val (Z.lor (Z.lor (u32 (Z.shiftl p0 24)) (u32 (Z.shiftl p1 16)))
                                            (u32 (Z.shiftl p2 8))))
          | _ => Some val
          end) with
        | None => None
        | Some val => Some (lwip_htonl val)
        end
  end.

Definition ipaddr_addr (cp : list Z) : Z := default IPADDR_NONE (ip4addr_aton cp).

(** ip4addr_ntoa_r: the digits of one byte, most significant first ([inv]
    read backwards; at most three). *)
Fixpoint byte_digits (fuel : nat) (ap : Z) (inv : list Z) : list Z :=
  match fuel with
  | O => inv
  | S fuel =>
      let rem := ap mod 10 in
      let ap := ap / 10 in
      let inv := (48 + rem) :: inv in
      if negb (ap =? 0) then byte_digits fuel ap inv else inv
  end.

(** Writing characters while there is room; [None]: the buffer is too small. *)
Fixpoint put_chars (cs : list Z) (len buflen : Z) (out : list Z) : option (Z * list Z) :=
  match cs with
  | [] => Some (len, out)
  | c :: cs => if buflen <=? len then None else put_chars cs (len + 1) buflen (out ++ [c])
  end.

Fixpoint ntoa_bytes (aps : list Z) (len buflen : Z) (out : list Z) : option (Z * list Z) :=
  match aps with
  | [] => Some (len, out)
  | ap :: aps =>
      match put_chars (byte_digits 3 ap [] ++ [46]) len buflen out with
      | None => None
      | Some (len, out) => ntoa_bytes aps len buflen out
      end
  end.

(** The string, without its NUL, which takes the place of the last dot. *)
Definition ip4addr_ntoa_r (addr buflen : Z) : option (list Z) :=
  match ntoa_bytes (st32 addr) 0 buflen [] with
  | None => None
  | Some (_, out) => Some (removelast out)
  end.
Definition IP4ADDR_STRLEN_MAX := 16.
Definition ip4addr_ntoa (addr : Z) : option (list Z) := ip4addr_ntoa_r addr IP4ADDR_STRLEN_MAX.

(** ** Netmasks *)

Lemma land_pow2_eqb h j : (Z.land h (2 ^ Z.of_nat j) =? 0) = negb (Z.testbit h (Z.of_nat j)).
Proof.
  rewrite Z.land_comm, <- Z.shiftl_1_l. destruct (Z.testbit h (Z.of_nat j)) eqn:E.
  - apply Z.eqb_neq. intros H. apply (f_equal (fun z => Z.testbit z (Z.of_nat j))) in H.
    rewrite Z.land_spec, E, Z.shiftl_spec, Z.sub_diag, Z.bits_0 in H by lia. done.
  - apply Z.eqb_eq. apply Z.bits_inj'. intros k Hk. rewrite Z.land_spec, Z.bits_0.
    destruct (decide (k = Z.of_nat j)) as [->|]; [by rewrite E, andb_false_r|].
    rewrite Z.shiftl_1_l, Z.pow2_bits_false; [done|lia].
Qed.

Lemma mod_pow2_S h j :
  h mod 2 ^ Z.of_nat (S j) = 2 ^ Z.of_nat j * Z.b2z (Z.testbit h (Z.of_nat j)) + h mod 2 ^ Z.of_nat j.
Proof.
  rewrite Nat2Z.inj_succ, Z.pow_succ_r, (Z.mul_comm 2), Z.rem_mul_r by lia.
  rewrite Z.testbit_spec' by lia. lia.
Qed.

Lemma no_ones_spec k h : no_ones k h = true <-> h mod 2 ^ Z.of_nat k = 0.
Proof.
  induction k as [|k IH]; cbn [no_ones]; [by rewrite Z.mod_1_r|].
  rewrite land_pow2_eqb, negb_involutive, mod_pow2_S.
  pose proof (Z.mod_pos_bound h (2 ^ Z.of_nat k) ltac:(lia)).
  destruct (Z.testbit h (Z.of_nat k)); simpl Z.b2z; [split; [done|lia]|].
  rewrite IH. lia.
Qed.

Lemma skip_ones_spec k h :
  let r := skip_ones k h in
  (r <= k)%nat /\ h mod 2 ^ Z.of_nat k = 2 ^ Z.of_nat k - 2 ^ Z.of_nat r + h mod 2 ^ Z.of_nat r /\
  (r <> O -> 2 * (h mod 2 ^ Z.of_nat r) < 2 ^ Z.of_nat r).
Proof.
  induction k as [|k (H1 & H2 & H3)]; cbn [skip_ones]; cbv zeta; [lia|].
  rewrite land_pow2_eqb. destruct (Z.testbit h (Z.of_nat k)) eqn:E; simpl negb; cbv iota.
  - split; [lia|]. split; [|done]. rewrite mod_pow2_S, E. simpl Z.b2z. rewrite H2.
    rewrite (Nat2Z.inj_succ k), Z.pow_succ_r by lia. lia.
  - split; [done|]. split; [lia|]. intros _. rewrite mod_pow2_S, E. simpl Z.b2z.
    pose proof (Z.mod_pos_bound h (2 ^ Z.of_nat k) ltac:(lia)).
    rewrite (Nat2Z.inj_succ k), Z.pow_succ_r by lia. lia.
Qed.

(** ** Broadcast addresses *)

Lemma unot_eq v : 0 <= v < 4294967296 -> unot v = 4294967295 - v.
Proof. intros. unfold unot, Z.lnot, u32. symmetry. apply (Z.mod_unique_pos _ _ (-1)); lia. Qed.

Lemma unot_bits v k :
  0 <= v < 4294967296 -> 0 <= k -> Z.testbit (unot v) k = negb (Z.testbit v k) && (k <? 32).
Proof.
  intros Hv Hk. unfold unot, u32. change 4294967296 with (2 ^ 32).
  destruct (Z.ltb_spec k 32).
  - by rewrite Z.mod_pow2_bits_low, Z.lnot_spec, andb_true_r by lia.
  - by rewrite Z.mod_pow2_bits_high, andb_false_r by lia.
Qed.

Lemma u32_bits_high v k : 0 <= v < 4294967296 -> 32 <= k -> Z.testbit v k = false.
Proof.
  intros Hv Hk. rewrite <- (Z.mod_small v (2 ^ 32)) by done. by apply Z.mod_pow2_bits_high.
Qed.

(** The directed broadcast address of a network. *)
Lemma directed_broadcast addr ip nm :
  0 <= addr < 4294967296 -> 0 <= ip < 4294967296 -> 0 <= nm < 4294967296 ->
  Z.land addr nm = Z.land ip nm /\ Z.land addr (unot nm) = Z.land IPADDR_BROADCAST (unot nm) <->
  addr = Z.lor (Z.land ip nm) (unot nm).
Proof.
  intros Ha Hi Hn.
  assert (forall k, 0 <= k -> Z.testbit IPADDR_BROADCAST k = (k <? 32)) as Hb.
  { intros k Hk. change IPADDR_BROADCAST with (Z.ones 32). destruct (Z.ltb_spec k 32).
    - by rewrite Z.ones_spec_low. - by rewrite Z.ones_spec_high. }
  split.
  - intros [H1 H2]. apply Z.bits_inj'. intros k Hk.
    apply (f_equal (fun z => Z.testbit z k)) in H1, H2.
    rewrite !Z.land_spec in H1, H2. rewrite Z.lor_spec, Z.land_spec.
    rewrite unot_bits in * by done. rewrite Hb in H2 by done.
    destruct (Z.ltb_spec k 32); [|rewrite (u32_bits_high addr), (u32_bits_high ip) by done; by destruct (Z.testbit nm k)].
    destruct (Z.testbit nm k), (Z.testbit addr k), (Z.testbit ip k); simpl in *; congruence.
  - intros ->. split; apply Z.bits_inj'; intros k Hk;
      rewrite !Z.land_spec, Z.lor_spec, Z.land_spec, unot_bits, ?Hb by done;
      by destruct (Z.testbit nm k), (Z.testbit ip k), (k <? 32).
Qed.

(** ** Printing and parsing *)

Lemma put_chars_run cs : forall len buflen out,
  put_chars cs len buflen out =
    if (len + lenZ cs <=? buflen) || bool_decide (cs = []) then Some (len + lenZ cs, out ++ cs) else None.
Proof.
  induction cs as [|c cs IH]; intros len buflen out; cbn [put_chars].
  - rewrite orb_true_r, app_nil_r. simpl. by rewrite Z.add_0_r.
  - rewrite orb_false_r, length_cons, Nat2Z.inj_succ. destruct (Z.leb_spec buflen len).
    + by rewrite (proj2 (Z.leb_gt _ _)) by lia.
    + rewrite IH, <- app_assoc. simpl. replace (len + 1 + lenZ cs) with (len + Z.succ (lenZ cs)) by lia.
      destruct (Z.leb_spec (len + Z.succ (lenZ cs)) buflen); [done|]. simpl.
      case_bool_decide; [subst; simpl in *; lia|done].
Qed.

Lemma byte_digits_cases v :
  is_byte v ->
  byte_digits 3 v [] =
    if v <? 10 then [48 + v]
    else if v <? 100 then [48 + v / 10; 48 + v mod 10]
    else [48 + v / 100; 48 + v / 10 mod 10; 48 + v mod 10].
Proof.
  unfold is_byte. intros Hv. cbn [byte_digits].
  assert (0 <= v / 10 < 26 /\ 0 <= v / 10 / 10 < 3) as [? ?] by (Z.to_euclidean_division_equations; lia).
  destruct (Z.ltb_spec v 10).
  - rewrite (Z.div_small v), (Z.mod_small v) by lia. done.
  - rewrite (proj2 (Z.eqb_neq (v / 10) 0)) by (Z.to_euclidean_division_equations; lia). simpl negb.
    destruct (Z.ltb_spec v 100).
    + rewrite (Z.div_small (v / 10)), (Z.mod_small (v / 10)) by (Z.to_euclidean_division_equations; lia). done.
    + rewrite (proj2 (Z.eqb_neq (v / 10 / 10) 0)) by (Z.to_euclidean_division_equations; lia). simpl negb.
      rewrite (Z.mod_small (v / 10 / 10)) by lia. rewrite (Z.div_div v 10 10) by lia.
      change (10 * 10) with 100. by rewrite (Z.div_small (v / 100)) by (Z.to_euclidean_division_equations; lia).
Qed.

Lemma length_byte_digits v : is_byte v -> 1 <= lenZ (byte_digits 3 v []) <= 3.
Proof. intros Hv. rewrite byte_digits_cases by done. repeat case_if; simpl; lia. Qed.

Arguments byte_digits : simpl never.

(** The dotted notation of four bytes. *)
Definition dotted (a b c d : Z) : list Z :=
  byte_digits 3 a [] ++ [46] ++ byte_digits 3 b [] ++ [46] ++ byte_digits 3 c [] ++ [46] ++ byte_digits 3 d [].

Lemma st32_bytes a b c d :
  is_byte a -> is_byte b -> is_byte c -> is_byte d -> st32 (of_bytes4 a b c d) = [a; b; c; d].
Proof.
  intros Ha Hb Hc Hd. destruct (of_bytes4_digits a b c d) as (Hn & E1 & E2 & E3 & E4); try done.
  set (n := of_bytes4 a b c d) in *. unfold st32, st16. simpl.
  assert (n / 65536 / 256 = n / 16777216) as E5 by (by rewrite Z.div_div by lia).
  assert ((n mod 65536) mod 256 = n mod 256) as -> by ulia.
  assert ((n mod 65536) / 256 mod 256 = (n / 256) mod 256) as -> by ulia.
  rewrite E5, E1, E2, E3, E4. unfold is_byte in Hd. by rewrite (Z.mod_small d) by lia.
Qed.

Definition ntoa_str (aps : list Z) : list Z := concat ((fun ap => byte_digits 3 ap [] ++ [46]) <$> aps).

Lemma ntoa_bytes_run aps : forall len buflen out,
  len <= buflen ->
  ntoa_bytes aps len buflen out =
    if len + lenZ (ntoa_str aps) <=? buflen then Some (len + lenZ (ntoa_str aps), out ++ ntoa_str aps) else None.
Proof.
  induction aps as [|ap aps IH]; intros len buflen out Hl; cbn [ntoa_bytes].
  - unfold ntoa_str. simpl. rewrite Z.add_0_r, app_nil_r. by rewrite (proj2 (Z.leb_le _ _)).
  - rewrite put_chars_run, bool_decide_false by (by destruct (byte_digits 3 ap [])). rewrite orb_false_r.
    change (ntoa_str (ap :: aps)) with ((byte_digits 3 ap [] ++ [46]) ++ ntoa_str aps).
    rewrite (length_app (byte_digits 3 ap [] ++ [46])), Nat2Z.inj_add.
    set (s := byte_digits 3 ap [] ++ [46]). destruct (Z.leb_spec (len + lenZ s) buflen) as [Hle|].
    + rewrite IH by done. rewrite Z.add_assoc. case_if; [by rewrite app_assoc|done].
    + by rewrite (proj2 (Z.leb_gt _ _)) by lia.
Qed.

Lemma ntoa_str_dotted a b c d : ntoa_str [a; b; c; d] = dotted a b c d ++ [46].
Proof. unfold ntoa_str, dotted. cbn [fmap list_fmap concat]. rewrite app_nil_r. by rewrite <- !app_assoc. Qed.

Lemma ntoa_run a b c d buflen :
  is_byte a -> is_byte b -> is_byte c -> is_byte d -> 0 <= buflen ->
  ip4addr_ntoa_r (of_bytes4 a b c d) buflen =
    if lenZ (dotted a b c d) + 1 <=? buflen then Some (dotted a b c d) else None.
Proof.
  intros Ha Hb Hc Hd Hbl. unfold ip4addr_ntoa_r. rewrite st32_bytes, ntoa_bytes_run by done.
  rewrite ntoa_str_dotted, length_app, Nat2Z.inj_add. simpl (lenZ [46]). simpl (0 + _).
  change (Z.of_nat 1) with 1. rewrite Z.add_0_l. case_if; [|done].
  rewrite app_nil_l. by rewrite removelast_last.
Qed.

Lemma length_dotted a b c d :
  is_byte a -> is_byte b -> is_byte c -> is_byte d -> 7 <= lenZ (dotted a b c d) <= 15.
Proof.
  intros Ha Hb Hc Hd. pose proof (length_byte_digits a Ha). pose proof (length_byte_digits b Hb).
  pose proof (length_byte_digits c Hc). pose proof (length_byte_digits d Hd).
  unfold dotted. rewrite !length_app. simpl. lia.
Qed.

Lemma aton_digit d r val :
  0 <= d < 10 -> 0 <= val -> val * 10 + d < 4294967296 ->
  aton_digits (48 + d :: r) 10 val = aton_digits r 10 (val * 10 + d).
Proof.
  intros. cbn [aton_digits]. unfold lwip_isdigit, lwip_in_range. rewrite u8_small by lia.
  rewrite (proj2 (Z.leb_le _ _)), (proj2 (Z.leb_le _ _)) by lia. simpl andb. cbv iota.
  rewrite (u32_small (val * 10)), u32_small by lia. f_equal. lia.
Qed.

(** What may follow a number. *)
Definition ends_number (r : list Z) : Prop := chr r = 46 \/ r = [].

Lemma aton_digits_end r base val :
  ends_number r -> base <> 16 -> aton_digits r base val = (val, r).
Proof.
  intros [Hc| ->] Hb; [|done]. destruct r as [|c r]; [done|]. simpl in Hc. subst c.
  cbn [aton_digits]. change (lwip_isdigit 46) with false. cbv iota.
  by rewrite (proj2 (Z.eqb_neq base 16) Hb).
Qed.

Lemma aton_number_byte v r :
  is_byte v -> ends_number r -> aton_number (byte_digits 3 v [] ++ r) = Some (v, r).
Proof.
  intros Hv Hr. rewrite byte_digits_cases by done. unfold is_byte in Hv.
  assert (forall d, 0 <= d < 10 -> lwip_isdigit (48 + d) = true) as Hdig.
  { intros d Hd. unfold lwip_isdigit, lwip_in_range. rewrite u8_small by lia.
    by rewrite (proj2 (Z.leb_le _ _)), (proj2 (Z.leb_le _ _)) by lia. }
  assert (0 <= v / 10 < 26 /\ 0 <= v / 100 < 3 /\ 0 <= v mod 10 < 10 /\ 0 <= v / 10 mod 10 < 10)
    as (? & ? & ? & ?) by (Z.to_euclidean_division_equations; lia).
  destruct (Z.ltb_spec v 10); [|destruct (Z.ltb_spec v 100)]; unfold aton_number; simpl chr; simpl tail.
  - rewrite Hdig by lia. cbn [negb]. destruct (Z.eqb_spec (48 + v) 48) as [E|E].
    + replace v with 0 by lia. simpl app.
      assert ((chr r =? 120) || (chr r =? 88) = false) as -> by by destruct Hr as [->| ->].
      cbv iota. by rewrite aton_digits_end.
    + simpl app. rewrite aton_digit by lia. rewrite aton_digits_end by done. do 2 f_equal.
  - rewrite Hdig by (Z.to_euclidean_division_equations; lia). cbn [negb].
    rewrite (proj2 (Z.eqb_neq _ _)) by (Z.to_euclidean_division_equations; lia). simpl app.
    rewrite aton_digit by (Z.to_euclidean_division_equations; lia).
    rewrite aton_digit by (Z.to_euclidean_division_equations; lia).
    rewrite aton_digits_end by done. do 2 f_equal. Z.to_euclidean_division_equations; lia.
  - rewrite Hdig by (Z.to_euclidean_division_equations; lia). cbn [negb].
    rewrite (proj2 (Z.eqb_neq _ _)) by (Z.to_euclidean_division_equations; lia). simpl app.
    rewrite aton_digit by (Z.to_euclidean_division_equations; lia).
    rewrite aton_digit by (Z.to_euclidean_division_equations; lia).
    rewrite aton_digit by (Z.to_euclidean_division_equations; lia).
    rewrite aton_digits_end by done. do 2 f_equal. Z.to_euclidean_division_equations; lia.
Qed.

Lemma aton_dotted a b c d :
  is_byte a -> is_byte b -> is_byte c -> is_byte d ->
  ip4addr_aton (dotted a b c d) = Some (of_bytes4 a b c d).
Proof.
  intros Ha Hb Hc Hd. unfold ip4addr_aton, dotted.
  assert (forall r, ends_number (46 :: r)) as Hdot by (by left).
  cbn [aton_parts app]. do 3 (rewrite aton_number_byte by done; cbn [chr tail app]; cbn [Z.eqb Pos.eqb]).
  rewrite <- (app_nil_r (byte_digits 3 d [])), aton_number_byte by (done || by right).
  cbn [chr app]. cbn [Z.eqb Pos.eqb negb andb]. unfold is_byte in *.
  rewrite !(proj2 (Z.ltb_ge 255 _)) by lia. cbn [orb].
  rewrite !(u32_small (Z.shiftl _ _)) by (rewrite Z.shiftl_mul_pow2 by lia; simpl; lia).
  f_equal.
  assert (Z.lor d (Z.lor (Z.lor (Z.shiftl a 24) (Z.shiftl b 16)) (Z.shiftl c 8)) = of_bytes4 d c b a) as ->.
  { rewrite Z.lor_comm, (Z.shiftl_mul_pow2 b 16), (Z.shiftl_mul_pow2 c 8) by lia.
    change (2 ^ 16) with 65536. change (2 ^ 8) with 256.
    rewrite (lor_shiftl_add a) by (change (2 ^ 24) with 16777216; lia). change (2 ^ 24) with 16777216.
    replace (a * 16777216 + b * 65536) with (Z.shiftl (a * 256 + b) 16)
      by (rewrite Z.shiftl_mul_pow2 by lia; change (2 ^ 16) with 65536; lia).
    rewrite (lor_shiftl_add _ (c * 256)) by (change (2 ^ 16) with 65536; lia). change (2 ^ 16) with 65536.
    replace ((a * 256 + b) * 65536 + c * 256) with (Z.shiftl ((a * 256 + b) * 256 + c) 8)
      by (rewrite Z.shiftl_mul_pow2 by lia; change (2 ^ 8) with 256; lia).
    rewrite lor_shiftl_add by (change (2 ^ 8) with 256; lia). change (2 ^ 8) with 256.
    unfold of_bytes4. lia. }
  by apply lwip_htonl_bytes.
Qed.
