(* ===== verification/Node.v ===== *)
(** * The store of the stack's functions

    The packet buffers, the network interfaces, and the rest of the state [X]
    the functions at hand work on. *)
From S2P Require Import Prelude Pbuf Netif.

Record node (X : Type) := Node { n_heap : heap; n_netifs : netifs; n_ext : X }.
Arguments Node {X} n_heap n_netifs n_ext.
Arguments n_heap {X} n.
Arguments n_netifs {X} n.
Arguments n_ext {X} n.

Section Parts.
Context {X : Type}.

#[export] Program Instance heap_part : part (node X) heap := {
  get_part := n_heap;
  set_part h s := Node h (n_netifs s) (n_ext s);
}.
Solve Obligations with done.
Next Obligation. by intros []. Qed.

#[export] Program Instance netifs_part : part (node X) netifs := {
  get_part := n_netifs;
  set_part g s := Node (n_heap s) g (n_ext s);
}.
Solve Obligations with done.
Next Obligation. by intros []. Qed.

(** Functions on the rest of the state, and on a part of it. *)
Definition ext {A} (m : M X A) : M (node X) A := fun s =>
  match m (n_ext s) with
  | Some (a, x) => Some (a, Node (n_heap s) (n_netifs s) x)
  | None => None
  end.

Lemma heap_run {A} (m : M heap A) h g x a h' :
  m h = Some (a, h') -> zoom m (Node h g x) = Some (a, Node h' g x).
Proof. intros H. unfold zoom. simpl. by rewrite H. Qed.

Lemma ext_run {A} (m : M X A) h g x a x' :
  m x = Some (a, x') -> ext m (Node h g x) = Some (a, Node h g x').
Proof. intros H. unfold ext. simpl. by rewrite H. Qed.

Lemma get_netif_run h g x i n : nif g !! i = Some n -> get_netif i (Node h g x) = Some (n, Node h g x).
Proof. intros H. unfold get_netif, mbind, M_bind, zoom, get, lift. simpl. by rewrite H. Qed.

Lemma upd_netif_run h g x i n f :
  nif g !! i = Some n -> upd_netif i f (Node h g x) = Some (tt, Node h (set_nif (<[i := f n]> (nif g)) g) x).
Proof. intros H. unfold upd_netif, mbind, M_bind, zoom, get, put, lift. simpl. by rewrite H. Qed.

End Parts.

(** The heap's functions inside a node. *)
Notation onheap m := (zoom (P := heap) m) (only parsing).
