(* ===== verification/SysArch.v ===== *)
(** * The operating system layer: lwip_arch_xilinx/sys_arch.c

    The mailbox of the tcpip thread and the clock, as wrappers of FreeRTOS
    calls.  FreeRTOS itself is a parameter. *)
From S2P Require Import Prelude.

(** FreeRTOS, seen through the handle of the one mailbox (a queue of [msg]):
    [O] is its state.  A call that waits for ever has no result. *)
Class FreeRTOS (O msg : Type) := {
  configTICK_RATE_HZ : Z;
  xTaskGetTickCount : O -> Z * O;
  xInsideISR : O -> bool;
  xQueueSend : msg -> O -> bool * O;
  xQueueSendFromISR : msg -> O -> bool * O;
  xQueueSendToBack : msg -> O -> option O;
  xQueueReceive : Z -> O -> option (option msg * O);
  xQueueReceiveFromISR : O -> option msg * O;
}.
Arguments xTaskGetTickCount {O msg FreeRTOS}.
Arguments configTICK_RATE_HZ O msg {FreeRTOS}.

Definition portMAX_DELAY := 0xffffffff.
Definition SYS_ARCH_TIMEOUT := 0xffffffff.
Definition SYS_MBOX_EMPTY := SYS_ARCH_TIMEOUT.

Section SysArch.
Context {O msg : Type} {F : FreeRTOS O msg}.

Definition os {A} (f : O -> A * O) : M O A := fun o => Some (f o).

Definition portTICK_RATE_MS : Z := 1000 / configTICK_RATE_HZ O msg.

(** The tick count is a 32-bit word, and so is the product. *)
Definition sys_now : M O Z :=
  t ← os (xTaskGetTickCount (msg := msg)); mret (u32 (t * 1000) / configTICK_RATE_HZ O msg).

Definition sys_mbox_post (m : msg) : M O unit :=
  o ← get;
  if xInsideISR o then os (xQueueSendFromISR m);; mret tt
  else fun o => o' ← xQueueSendToBack m o; Some (tt, o').

Definition sys_mbox_trypost (m : msg) : M O err_t :=
  o ← get;
  r ← (if xInsideISR o then os (xQueueSendFromISR m) else os (xQueueSend m));
  mret (if r : bool then ERR_OK else ERR_MEM).

(** The message, if one came, and what the C function returns. *)
Definition sys_arch_mbox_fetch (timeout : Z) : M O (option msg * Z) :=
  start ← os (xTaskGetTickCount (msg := msg));
  o ← get;
  if negb (timeout =? 0) then
    r ← (if xInsideISR o then os xQueueReceiveFromISR else xQueueReceive (timeout / portTICK_RATE_MS));
    match r with
    | Some m => stop ← os (xTaskGetTickCount (msg := msg)); mret (Some m, u32 (u32 (stop - start) * portTICK_RATE_MS))
    | None => mret (None, SYS_ARCH_TIMEOUT)
    end
  else
    r ← (if xInsideISR o then os xQueueReceiveFromISR else xQueueReceive portMAX_DELAY);
    stop ← os (xTaskGetTickCount (msg := msg));
    let elapsed := u32 (u32 (stop - start) * portTICK_RATE_MS) in
    mret (r, if elapsed =? 0 then 1 else elapsed).

Definition sys_arch_mbox_tryfetch : M O (option msg * Z) :=
  o ← get;
  r ← (if xInsideISR o then os xQueueReceiveFromISR else xQueueReceive 0);
  mret (r, match r with Some _ => 0 | None => SYS_MBOX_EMPTY end).

End SysArch.

(** What FreeRTOS documents: a queue is a fifo of bounded length; its calls
    change nothing else, and a wait lets nothing else happen to the queue (a
    message that arrives during a wait is one that arrives before it). *)
Class FreeRTOSLaws (O msg : Type) {F : FreeRTOS O msg} := {
  waiting : O -> list msg;
  q_length : nat;
  ticks_waiting o : waiting (xTaskGetTickCount (msg := msg) o).2 = waiting o;
  send_waiting m o : waiting (xQueueSend m o).2 = if (xQueueSend m o).1 then waiting o ++ [m] else waiting o;
  send_room m o : (xQueueSend m o).1 = bool_decide (length (waiting o) < q_length)%nat;
  send_isr_waiting m o : waiting (xQueueSendFromISR m o).2 =
    if (xQueueSendFromISR m o).1 then waiting o ++ [m] else waiting o;
  send_isr_room m o : (xQueueSendFromISR m o).1 = bool_decide (length (waiting o) < q_length)%nat;
  post_waiting m o o' : xQueueSendToBack m o = Some o' -> waiting o' = waiting o ++ [m];
  receive_waiting t o :
    match waiting o with
    | m :: ms => exists o', xQueueReceive t o = Some (Some m, o') /\ waiting o' = ms
    | [] => t = portMAX_DELAY \/ exists o', xQueueReceive t o = Some (None, o') /\ waiting o' = []
    end;
  receive_isr_waiting o :
    (xQueueReceiveFromISR o).1 = head (waiting o) /\ waiting (xQueueReceiveFromISR o).2 = tail (waiting o);
}.
