(* ===== verification/Timeouts.v ===== *)
(** * Timeouts: core/timeouts.c

    The list of pending timeouts, ordered by 32-bit times that wrap around, and
    the stack's cyclic timers.  LWIP_TCP 1; DHCP, AutoIP, IGMP, DNS and IPv6
    have no timers in this configuration; LWIP_TESTMODE and
    LWIP_DEBUG_TIMERNAMES are off. *)
From S2P Require Import Prelude Triple.

Definition LWIP_MAX_TIMEOUT := 0x7fffffff.
Definition SYS_TIMEOUTS_SLEEPTIME_INFINITE := 0xFFFFFFFF.
Definition MEMP_NUM_SYS_TIMEOUT := 8.
Definition TCP_TMR_INTERVAL := 250.
Definition IP_TMR_INTERVAL := 1000.
Definition ARP_TMR_INTERVAL := 1000.

Definition TIME_LESS_THAN (t compare_to : Z) : bool := LWIP_MAX_TIMEOUT <? u32 (t - compare_to).

(** The functions a timeout can call: the two of this file, with what their
    argument points to, and the users' (a function and its argument). *)
Inductive cyclic_handler := Tcp_tmr | Ip_reass_tmr | Etharp_tmr.
#[export] Instance cyclic_handler_eq_dec : EqDecision cyclic_handler.
Proof. solve_decision. Defined.

Record lwip_cyclic := Cyclic { interval_ms : Z; c_handler : cyclic_handler }.
#[export] Instance lwip_cyclic_eq_dec : EqDecision lwip_cyclic.
Proof. solve_decision. Defined.

Definition lwip_cyclic_timers : list lwip_cyclic :=
  [Cyclic TCP_TMR_INTERVAL Tcp_tmr; Cyclic IP_TMR_INTERVAL Ip_reass_tmr; Cyclic ARP_TMR_INTERVAL Etharp_tmr].

Inductive timeout_handler :=
  | Tcpip_tcp_timer
  | Lwip_cyclic_timer (arg : lwip_cyclic)
  | User_timer (handler arg : Z).
#[export] Instance timeout_handler_eq_dec : EqDecision timeout_handler.
Proof. solve_decision. Defined.

(** struct sys_timeo; a NULL handler is [None]. *)
Record sys_timeo := Timeo { tmo_time : Z; tmo_h : option timeout_handler }.

(** The file's variables, and the free elements of MEMP_SYS_TIMEOUT. *)
Record timers := Timers {
  next_timeout : list sys_timeo;
  current_timeout_due_time : Z;
  tcpip_tcp_timer_active : bool;
  timeo_free : Z;
}.
Definition set_next_timeout v t := Timers v (current_timeout_due_time t) (tcpip_tcp_timer_active t) (timeo_free t).
Definition set_due v t := Timers (next_timeout t) v (tcpip_tcp_timer_active t) (timeo_free t).
Definition set_tcp_active v t := Timers (next_timeout t) (current_timeout_due_time t) v (timeo_free t).
Definition set_timeo_free v t := Timers (next_timeout t) (current_timeout_due_time t) (tcpip_tcp_timer_active t) v.
Definition timers_init : timers := Timers [] 0 false MEMP_NUM_SYS_TIMEOUT.

(** What the timers call: the clock, the handlers of the cyclic timers and of
    the users, and whether TCP has work ([tcp_active_pcbs || tcp_tw_pcbs]). *)
Class TimerEnv (S : Type) := {
  read_now : M S Z;
  call_cyclic : cyclic_handler -> M S unit;
  call_user : Z -> Z -> M S unit;
  tcp_busy : M S bool;
}.

(** The list's insertion: in front of the first entry that is due later. *)
Fixpoint insert_timeout (n : sys_timeo) (l : list sys_timeo) : list sys_timeo :=
  match l with
  | [] => [n]
  | t :: l => if TIME_LESS_THAN (tmo_time n) (tmo_time t) then n :: t :: l else t :: insert_timeout n l
  end.

Section Timeouts.
Context {S : Type} {TP : part S timers} {TE : TimerEnv S}.

Notation ontimers m := (zoom (P := timers) m).

(** An empty pool loses the timeout: only an assertion, off in this port. *)
Definition sys_timeout_abs (abs_time : Z) (handler : option timeout_handler) : M S unit :=
  t ← ontimers get;
  if timeo_free t =? 0 then mret tt
  else ontimers (put (set_timeo_free (timeo_free t - 1)
         (set_next_timeout (insert_timeout (Timeo abs_time handler) (next_timeout t)) t))).

Definition sys_timeout (msecs : Z) (handler : option timeout_handler) : M S unit :=
  now ← read_now;
  sys_timeout_abs (u32 (now + msecs)) handler.

Definition tcpip_tcp_timer : M S unit :=
  call_cyclic Tcp_tmr;;
  busy ← tcp_busy;
  if (busy : bool) then sys_timeout TCP_TMR_INTERVAL (Some Tcpip_tcp_timer)
  else ontimers (modify (set_tcp_active false)).

Definition tcp_timer_needed : M S unit :=
  t ← ontimers get;
  busy ← tcp_busy;
  if negb (tcpip_tcp_timer_active t) && busy then
    ontimers (modify (set_tcp_active true));;
    sys_timeout TCP_TMR_INTERVAL (Some Tcpip_tcp_timer)
  else mret tt.

Definition lwip_cyclic_timer (cyclic : lwip_cyclic) : M S unit :=
  call_cyclic (c_handler cyclic);;
  now ← read_now;
  t ← ontimers get;
  let next_timeout_time := u32 (current_timeout_due_time t + interval_ms cyclic) in
  if TIME_LESS_THAN next_timeout_time now
  then sys_timeout_abs (u32 (now + interval_ms cyclic)) (Some (Lwip_cyclic_timer cyclic))
  else sys_timeout_abs next_timeout_time (Some (Lwip_cyclic_timer cyclic)).

Fixpoint start_timers (l : list lwip_cyclic) : M S unit :=
  match l with
  | [] => mret tt
  | c :: l => sys_timeout (interval_ms c) (Some (Lwip_cyclic_timer c));; start_timers l
  end.
Definition sys_timeouts_init : M S unit := start_timers (drop 1 lwip_cyclic_timers).

(** The list without its first entry for [handler], if there is one. *)
Fixpoint unlink_timeout (handler : timeout_handler) (l : list sys_timeo) : option (list sys_timeo) :=
  match l with
  | [] => None
  | t :: l => if bool_decide (tmo_h t = Some handler) then Some l
              else match unlink_timeout handler l with Some l => Some (t :: l) | None => None end
  end.
Definition sys_untimeout (handler : timeout_handler) : M S unit :=
  t ← ontimers get;
  match unlink_timeout handler (next_timeout t) with
  | Some l => ontimers (put (set_timeo_free (timeo_free t + 1) (set_next_timeout l t)))
  | None => mret tt
  end.

Definition call_handler (handler : timeout_handler) : M S unit :=
  match handler with
  | Tcpip_tcp_timer => tcpip_tcp_timer
  | Lwip_cyclic_timer c => lwip_cyclic_timer c
  | User_timer f a => call_user f a
  end.

(** The loop of sys_check_timeouts. *)
Fixpoint check_timeouts_loop (fuel : nat) (now : Z) : M S unit :=
  t ← ontimers get;
  match next_timeout t with
  | [] => mret tt
  | tmptimeout :: rest =>
    if TIME_LESS_THAN now (tmo_time tmptimeout) then mret tt
    else match fuel with
    | O => stuck
    | Datatypes.S fuel =>
      ontimers (put (set_timeo_free (timeo_free t + 1) (set_due (tmo_time tmptimeout) (set_next_timeout rest t))));;
      (match tmo_h tmptimeout with Some handler => call_handler handler | None => mret tt end);;
      check_timeouts_loop fuel now
    end
  end.
(** [fuel]: the number of timeouts one call may process. *)
Definition sys_check_timeouts (fuel : nat) : M S unit :=
  now ← read_now; check_timeouts_loop fuel now.

Definition sys_restart_timeouts : M S unit :=
  t ← ontimers get;
  match next_timeout t with
  | [] => mret tt
  | first :: _ =>
      now ← read_now;
      ontimers (put (set_next_timeout
        ((fun e => Timeo (u32 (u32 (tmo_time e - tmo_time first) + now)) (tmo_h e)) <$> next_timeout t) t))
  end.

Definition sys_timeouts_sleeptime : M S Z :=
  t ← ontimers get;
  match next_timeout t with
  | [] => mret SYS_TIMEOUTS_SLEEPTIME_INFINITE
  | first :: _ =>
      now ← read_now;
      mret (if TIME_LESS_THAN (tmo_time first) now then 0 else u32 (tmo_time first - now))
  end.

End Timeouts.
