(* ===== verification/TimeoutsFacts.v ===== *)
(** * Timeouts: the abstract timeout queue and its implementation

    The abstract queue has unbounded times.  The 32-bit list implements it while
    every pending time is within [W] = 2^30 ms (twelve days) of the clock. *)
From Stdlib Require Import Sorting.Sorted.
From S2P Require Import Prelude Triple Timeouts.

(** ** Wrapping times *)

Definition W := 1073741824.

Lemma time_less_than a b : a - b < 2 * W -> b - a <= 2 * W -> TIME_LESS_THAN (u32 a) (u32 b) = (a <? b).
Proof.
  intros H1 H2. unfold TIME_LESS_THAN, LWIP_MAX_TIMEOUT, u32, W in *.
  rewrite <- Zminus_mod. destruct (a <? b) eqn:Hab; b2p.
  - apply Z.ltb_lt. rewrite <- (Z_mod_plus_full _ 1), Z.mod_small; lia.
  - apply Z.ltb_ge. rewrite Z.mod_small; lia.
Qed.
Lemma u32_add_l a b : u32 (u32 a + b) = u32 (a + b).
Proof. unfold u32. by rewrite Zplus_mod_idemp_l. Qed.

(** ** The abstract queue *)

Record alarm := Alarm { due : Z; a_handler : option timeout_handler }.

Fixpoint a_insert (n : alarm) (A : list alarm) : list alarm :=
  match A with
  | [] => [n]
  | e :: A => if due n <? due e then n :: e :: A else e :: a_insert n A
  end.

Definition due_le (a b : alarm) : Prop := due a <= due b.
Notation in_order := (StronglySorted due_le).
Definition fits (b : Z) (A : list alarm) : Prop := Forall (fun e => b - W < due e <= b + W) A.
Definition wrap (e : alarm) : sys_timeo := Timeo (u32 (due e)) (a_handler e).

Lemma a_insert_perm n A : a_insert n A ≡ₚ n :: A.
Proof.
  induction A as [|e A IH]; [done|]. simpl. case_match; [done|]. by rewrite IH, Permutation_swap.
Qed.
Lemma a_insert_order n A : in_order A -> in_order (a_insert n A).
Proof.
  induction 1 as [|e A Hs IH He]; simpl; [by repeat constructor|]. case_match; b2p; unfold due_le in *.
  - constructor; [by constructor|]. constructor; [unfold due_le; lia|].
    eapply Forall_impl; [exact He|]. intros x. unfold due_le. lia.
  - constructor; [done|]. rewrite a_insert_perm. constructor; [unfold due_le; lia|done].
Qed.
Lemma a_insert_fits b n A : fits b A -> b - W < due n <= b + W -> fits b (a_insert n A).
Proof. intros HA Hn. unfold fits. rewrite a_insert_perm. by constructor. Qed.
(** Timeouts that are due at the same time keep their order. *)
Lemma a_insert_before n A1 A2 :
  Forall (fun e => due e <= due n) A1 -> Forall (fun e => due n < due e) A2 ->
  a_insert n (A1 ++ A2) = A1 ++ n :: A2.
Proof.
  intros H1 H2. induction H1 as [|e A1 He H1 IH]; simpl.
  - destruct H2 as [|e A2 He H2]; [done|]. simpl. by rewrite (proj2 (Z.ltb_lt _ _)).
  - rewrite (proj2 (Z.ltb_ge _ _)) by done. by rewrite IH.
Qed.

Lemma insert_wrap b n A :
  fits b A -> b - W < due n <= b + W -> insert_timeout (wrap n) (wrap <$> A) = wrap <$> a_insert n A.
Proof.
  intros HA Hn. induction HA as [|e A He HA IH]; [done|]. cbn [fmap list_fmap insert_timeout a_insert].
  simpl tmo_time. rewrite time_less_than by lia. case_match; [done|]. by rewrite IH.
Qed.

Fixpoint a_remove (hd : timeout_handler) (A : list alarm) : option (list alarm) :=
  match A with
  | [] => None
  | e :: A => if bool_decide (a_handler e = Some hd) then Some A
              else match a_remove hd A with Some A => Some (e :: A) | None => None end
  end.
Lemma unlink_wrap hd (A : list alarm) :
  unlink_timeout hd (wrap <$> A) = (match a_remove hd A with Some l => Some (wrap <$> l) | None => None end).
Proof.
  induction A as [|e A IH]; [done|]. cbn [fmap list_fmap unlink_timeout a_remove]. simpl tmo_h.
  case_bool_decide; [done|]. rewrite IH. by destruct (a_remove hd A).
Qed.
Lemma a_remove_spec hd A :
  match a_remove hd A with
  | Some A' => exists A1 e A2, A = A1 ++ e :: A2 /\ A' = A1 ++ A2 /\ a_handler e = Some hd /\
                 Forall (fun x => a_handler x <> Some hd) A1
  | None => Forall (fun x => a_handler x <> Some hd) A
  end.
Proof.
  induction A as [|e A IH]; simpl; [constructor|]. case_bool_decide as Hh.
  - exists [], e, A. split_and!; (done || constructor).
  - destruct (a_remove hd A) as [A'|]; [|by constructor].
    destruct IH as (A1 & x & A2 & -> & -> & ? & ?). exists (e :: A1), x, A2. split_and!; try done. by constructor.
Qed.

(** ** What the handlers and the clock do

    [effects cs s s']: from [s] to [s'] the handlers [cs] of cyclic timers were
    called, and nothing else happened that the rest of the program cares about. *)
Definition slack := 16777216.

Class TimerWorld (S : Type) := {
  stack_inv : S -> Prop;
  clock : S -> Z;
  effects : list cyclic_handler -> S -> S -> Prop;
}.

(** A call that lets time pass, keeps the invariant and leaves the timers alone. *)
Definition later {S} {TP : part S timers} {TW : TimerWorld S} (cs : list cyclic_handler) (s s' : S) : Prop :=
  stack_inv s' /\ get_part (P := timers) s' = get_part s /\ clock s <= clock s' <= clock s + slack /\ effects cs s s'.

Class TimerLaws (S : Type) {TP : part S timers} {TE : TimerEnv S} {TW : TimerWorld S} := {
  inv_timers (t : timers) s : stack_inv s -> stack_inv (set_part t s);
  clock_timers (t : timers) s : clock (set_part t s) = clock s;
  effects_timers (t : timers) s : effects [] s (set_part t s);
  effects_app cs cs' s s1 s' : effects cs s s1 -> effects cs' s1 s' -> effects (cs ++ cs') s s';
  read_now_returns s : stack_inv s -> exists s', read_now s = Some (u32 (clock s), s') /\ later [] s s';
  call_cyclic_returns c s : stack_inv s -> exists s', call_cyclic c s = Some (tt, s') /\ later [c] s s';
  call_user_returns f a s : stack_inv s -> exists s', call_user f a s = Some (tt, s') /\ later [] s s';
  tcp_busy_returns s : stack_inv s -> exists b s', tcp_busy s = Some (b, s') /\ later [] s s';
}.

(** ** sys_check_timeouts on the abstract queue *)

(** What the handler of [e] puts back at the time [T]: a cyclic timer comes
    again one interval after it was due, or after [T] if that has passed; TCP's
    timer one interval after [T] as long as TCP is [busy]. *)
Definition next_due (e : alarm) (c : lwip_cyclic) (T : Z) : Z :=
  if due e + interval_ms c <? T then T + interval_ms c else due e + interval_ms c.
Definition rearm (e : alarm) (T : Z) (busy : bool) (A : list alarm) : list alarm :=
  match a_handler e with
  | Some (Lwip_cyclic_timer c) => a_insert (Alarm (next_due e c T) (a_handler e)) A
  | Some Tcpip_tcp_timer => if busy then a_insert (Alarm (T + TCP_TMR_INTERVAL) (a_handler e)) A else A
  | _ => A
  end.

(** [a_check now till A hs A']: between the times [now] and [till] the handlers
    [hs] are called, and [A] becomes [A'], where nothing is due at [now]. *)
Inductive a_check (now till : Z) : list alarm -> list (option timeout_handler) -> list alarm -> Prop :=
  | check_done A : Forall (fun e => now < due e) A -> a_check now till A [] A
  | check_fire e A T busy hs A' :
      due e <= now -> now <= T <= till ->
      a_check now till (rearm e T busy A) hs A' -> a_check now till (e :: A) (a_handler e :: hs) A'.

(** The cyclic timers' handlers among them. *)
Definition cyclic_of (hd : option timeout_handler) : list cyclic_handler :=
  match hd with
  | Some (Lwip_cyclic_timer c) => [c_handler c]
  | Some Tcpip_tcp_timer => [Tcp_tmr]
  | _ => []
  end.
Definition cyclics (hs : list (option timeout_handler)) : list cyclic_handler := concat (cyclic_of <$> hs).

(** The intervals of the cyclic timers. *)
Definition regular (hd : option timeout_handler) : Prop :=
  forall c, hd = Some (Lwip_cyclic_timer c) -> 0 < interval_ms c <= 1000.
Definition all_regular (A : list alarm) : Prop := Forall (fun e => regular (a_handler e)) A.

(** How often an entry can still be called: twice if it is overdue, once if it
    is due right now. *)
Definition weight (now : Z) (e : alarm) : nat := if due e <? now then 2 else if due e =? now then 1 else 0.
Definition weights (now : Z) (A : list alarm) : nat := sum_list_with (weight now) A.

Lemma weights_perm now A A' : A ≡ₚ A' -> weights now A = weights now A'.
Proof. unfold weights. induction 1; simpl in *; lia. Qed.
Lemma weights_bound now A : (weights now A <= 2 * length A)%nat.
Proof.
  assert (forall e, weight now e <= 2)%nat as Hw by (intros e; unfold weight; destruct (due e <? now), (due e =? now); lia).
  unfold weights. induction A as [|e A IH]; simpl; [lia|]. specialize (Hw e). lia.
Qed.

Lemma rearm_cases e T busy A :
  rearm e T busy A = A \/ exists d, rearm e T busy A = a_insert (Alarm d (a_handler e)) A /\
    (d = T + TCP_TMR_INTERVAL \/ exists c, a_handler e = Some (Lwip_cyclic_timer c) /\ d = next_due e c T).
Proof.
  unfold rearm. destruct (a_handler e) as [[|c|f a]|]; [destruct busy; [right|by left]|right|by left|by left];
    (eexists; split; [done|]); [by left|right; by exists c].
Qed.
(** The entry comes back at the check's time or later, and earlier than one
    interval after [T]. *)
Lemma rearm_due e T now busy A d :
  regular (a_handler e) -> due e <= now -> now <= T ->
  rearm e T busy A = a_insert (Alarm d (a_handler e)) A -> 
  (d = T + TCP_TMR_INTERVAL \/ exists c, a_handler e = Some (Lwip_cyclic_timer c) /\ d = next_due e c T) ->
  now <= d <= T + 1000 /\ (due e = now -> now < d).
Proof.
  unfold TCP_TMR_INTERVAL. intros Hr Hd HT _ [->|(c & Hc & ->)]; [lia|]. specialize (Hr c Hc).
  unfold next_due. case_match; b2p; lia.
Qed.
Lemma rearm_weights e T now busy A :
  regular (a_handler e) -> due e <= now -> now <= T -> (weights now (rearm e T busy A) < weights now (e :: A))%nat.
Proof.
  intros Hr Hd HT. assert (1 <= weight now e)%nat as H1 by (unfold weight; repeat case_match; b2p; lia).
  destruct (rearm_cases e T busy A) as [-> |(d & E & Hc)]; [unfold weights; simpl; lia|].
  destruct (rearm_due e T now busy A d Hr Hd HT E Hc) as [Hn Hs]. rewrite E, (weights_perm _ _ _ (a_insert_perm _ _)).
  unfold weights. simpl. enough (weight now (Alarm d (a_handler e)) < weight now e)%nat by lia.
  unfold weight in *. simpl. repeat case_match; b2p; lia.
Qed.
Lemma rearm_regular e T busy A : regular (a_handler e) -> all_regular A -> all_regular (rearm e T busy A).
Proof.
  intros Hr HA. destruct (rearm_cases e T busy A) as [-> |(d & -> & _)]; [done|].
  unfold all_regular. rewrite a_insert_perm. by constructor.
Qed.
Lemma rearm_order e T busy A : in_order A -> in_order (rearm e T busy A).
Proof. intros HA. destruct (rearm_cases e T busy A) as [-> |(d & -> & _)]; [done|]. by apply a_insert_order. Qed.
Lemma rearm_length e T busy A : (length (rearm e T busy A) <= length (e :: A))%nat.
Proof. destruct (rearm_cases e T busy A) as [-> |(d & -> & _)]; [simpl; lia|]. by rewrite a_insert_perm. Qed.

Section Refines.
Context {S : Type} {TP : part S timers} {TE : TimerEnv S} {TW : TimerWorld S} {TL : TimerLaws S}.

(** The list stands for the queue [A], seen from the time [b]. *)
Record repr (b : Z) (A : list alarm) (t : timers) : Prop := {
  repr_list : next_timeout t = wrap <$> A;
  repr_fits : fits b A;
  repr_order : in_order A;
  repr_free : 0 <= timeo_free t;
  repr_count : timeo_free t + lenZ A = MEMP_NUM_SYS_TIMEOUT;
}.

Definition at_queue (b : Z) (A : list alarm) (s : S) : Prop := stack_inv s /\ repr b A (get_part s).

Lemma repr_later b A cs s s' : at_queue b A s -> later cs s s' -> at_queue b A s'.
Proof. intros [_ Hr] (Hi & Ht & _). split; [done|]. by rewrite Ht. Qed.

(** Changing the list and nothing else. *)
Lemma run_timers {A} (m : M timers A) a t s :
  m (get_part s) = Some (a, t) -> zoom m s = Some (a, set_part t s).
Proof. apply zoom_run. Qed.

Lemma sys_timeout_abs_refines b A n s :
  at_queue b A s -> b - W < due n <= b + W ->
  exists s', sys_timeout_abs (u32 (due n)) (a_handler n) s = Some (tt, s') /\ clock s' = clock s /\ effects [] s s' /\
    at_queue b (if lenZ A =? MEMP_NUM_SYS_TIMEOUT then A else a_insert n A) s'.
Proof.
  intros [Hi [Hl Hf Ho H0 Hc]] Hn. unfold sys_timeout_abs.
  mrun (run_timers get _ _ s eq_refl). rewrite set_get_part.
  destruct (timeo_free (get_part s) =? 0) eqn:Hz; b2p.
  - exists s. rewrite (proj2 (Z.eqb_eq _ _)) by lia. split; [done|]. split; [done|]. split; [|by split].
    rewrite <- (set_get_part s) at 2. apply effects_timers.
  - rewrite (proj2 (Z.eqb_neq (lenZ A) _)) by lia. eexists. split; [by apply run_timers|].
    split; [apply clock_timers|]. split; [apply effects_timers|]. split; [by apply inv_timers|].
    rewrite get_set_part. split; simpl.
    + rewrite Hl. change (Timeo _ _) with (wrap n). by eapply insert_wrap.
    + by apply a_insert_fits.
    + by apply a_insert_order.
    + lia.
    + rewrite a_insert_perm. simpl. lia.
Qed.

(** One call and then another. *)
Lemma effects_nil_l cs s s1 s' : effects [] s s1 -> effects cs s1 s' -> effects cs s s'.
Proof. apply (effects_app []). Qed.
Lemma effects_nil_r cs s s1 s' : effects cs s s1 -> effects [] s1 s' -> effects cs s s'.
Proof. intros H1 H2. rewrite <- (app_nil_r cs). by eapply effects_app. Qed.

Lemma sys_timeout_refines b A ms hd s :
  at_queue b A s -> b - W < clock s + ms <= b + W ->
  exists s', sys_timeout ms hd s = Some (tt, s') /\ clock s <= clock s' <= clock s + slack /\ effects [] s s' /\
    at_queue b (if lenZ A =? MEMP_NUM_SYS_TIMEOUT then A else a_insert (Alarm (clock s + ms) hd) A) s'.
Proof.
  intros Hq Hn. unfold sys_timeout. destruct (read_now_returns s (proj1 Hq)) as (s1 & Hr & Hl). mrun Hr.
  rewrite u32_add_l. destruct (sys_timeout_abs_refines b A (Alarm (clock s + ms) hd) s1) as (s' & Hrun & Hc & He & Hq').
  - by eapply repr_later.
  - done.
  - exists s'. split; [exact Hrun|]. destruct Hl as (_ & _ & Hcl & Hel). split; [lia|]. split; [|done]. by eapply effects_nil_l.
Qed.

Lemma a_remove_sub hd A A' : a_remove hd A = Some A' -> exists e, A ≡ₚ e :: A'.
Proof.
  intros H. pose proof (a_remove_spec hd A) as Hs. rewrite H in Hs. destruct Hs as (A1 & e & A2 & -> & -> & _).
  exists e. by rewrite Permutation_middle.
Qed.
Lemma sorted_remove A1 e A2 : in_order (A1 ++ e :: A2) -> in_order (A1 ++ A2).
Proof.
  induction A1 as [|x A1 IH]; simpl; intros Hs; apply StronglySorted_inv in Hs as [Hs Hx]; [done|].
  constructor; [by apply IH|]. apply Forall_app in Hx as [? Hx]. apply Forall_cons in Hx as [_ ?]. by apply Forall_app.
Qed.

Lemma sys_untimeout_refines b A hd s :
  at_queue b A s ->
  exists s', sys_untimeout hd s = Some (tt, s') /\ clock s' = clock s /\ effects [] s s' /\
    at_queue b (match a_remove hd A with Some A' => A' | None => A end) s'.
Proof.
  intros [Hi [Hl Hf Ho H0 Hc]]. unfold sys_untimeout. mrun (run_timers get _ _ s eq_refl). rewrite set_get_part.
  rewrite Hl, unlink_wrap. pose proof (a_remove_spec hd A) as Hs. destruct (a_remove hd A) as [A'|] eqn:HA; simpl.
  - destruct Hs as (A1 & e & A2 & -> & -> & _). eexists. split; [by apply run_timers|]. split; [apply clock_timers|].
    split; [apply effects_timers|]. split; [by apply inv_timers|]. rewrite get_set_part.
    unfold fits in Hf. rewrite <- Permutation_middle in Hf. apply Forall_cons in Hf as [_ Hf].
    rewrite <- Permutation_middle in Hc. simpl in Hc.
    split; simpl; [done|done|by eapply sorted_remove|lia|lia].
  - exists s. split; [done|]. split; [done|]. split; [|by split].
    rewrite <- (set_get_part s) at 2. apply effects_timers.
Qed.

(** The thread sleeps exactly until the first timeout is due. *)
Lemma sys_timeouts_sleeptime_refines A s :
  at_queue (clock s) A s ->
  exists s', sys_timeouts_sleeptime s =
      Some (match A with [] => SYS_TIMEOUTS_SLEEPTIME_INFINITE | e :: _ => Z.max 0 (due e - clock s) end, s') /\
    clock s <= clock s' <= clock s + slack /\ effects [] s s' /\ at_queue (clock s) A s'.
Proof.
  intros Hq. pose proof Hq as [Hi [Hl Hf Ho H0 Hc]]. unfold sys_timeouts_sleeptime.
  mrun (run_timers get _ _ s eq_refl). rewrite set_get_part, Hl.
  assert (effects [] s s) as Hrefl by (rewrite <- (set_get_part s) at 2; apply effects_timers).
  destruct A as [|e A]; cbn [fmap list_fmap].
  - exists s. split; [done|]. unfold slack. split; [lia|]. by split.
  - destruct (read_now_returns s Hi) as (s1 & Hr & Hlt). mrun Hr. apply Forall_cons in Hf as [He Hf].
    exists s1. split; [|split; [apply Hlt|split; [apply Hlt|by eapply repr_later]]].
    unfold mret, M_ret. do 2 f_equal. simpl tmo_time. rewrite time_less_than by lia. unfold u32, W in *. rewrite <- Zminus_mod.
    destruct (due e <? clock s) eqn:Hd; b2p; [lia|]. rewrite Z.mod_small; lia.
Qed.

Lemma repr_room b A s : at_queue b A s -> (length A <= 8)%nat.
Proof. intros [_ [_ _ _ H0 Hc]]. unfold MEMP_NUM_SYS_TIMEOUT in Hc. lia. Qed.

Lemma later_refl s : stack_inv s -> later [] s s.
Proof.
  intros Hi. split; [done|]. split; [done|]. unfold slack. split; [lia|].
  rewrite <- (set_get_part s) at 2. apply effects_timers.
Qed.

(** A handler that has been taken off the list. *)
Lemma call_handler_refines b A e hd s :
  at_queue b A s -> (length A < 8)%nat -> a_handler e = Some hd -> regular (Some hd) ->
  current_timeout_due_time (get_part s) = u32 (due e) -> b - W < due e <= b ->
  b <= clock s -> clock s + 2 * slack + 1000 <= b + W ->
  exists T busy s', call_handler hd s = Some (tt, s') /\ clock s <= T <= clock s' /\ clock s' <= clock s + 3 * slack /\
    effects (cyclic_of (Some hd)) s s' /\ at_queue b (rearm e T busy A) s'.
Proof.
  intros Hq Hroom He Hreg Hdue Hwin Hb Hend. pose proof (proj1 Hq) as Hi. unfold rearm. rewrite He.
  assert (0 <= slack) as Hsl by (unfold slack; lia).
  assert ((lenZ A =? MEMP_NUM_SYS_TIMEOUT) = false) as Hfull by (apply Z.eqb_neq; unfold MEMP_NUM_SYS_TIMEOUT; lia).
  destruct hd as [|c|f a]; cbn [call_handler cyclic_of].
  - unfold tcpip_tcp_timer. destruct (call_cyclic_returns Tcp_tmr s Hi) as (s1 & Hr1 & L1). mrun Hr1.
    destruct (tcp_busy_returns s1 (proj1 L1)) as (busy & s2 & Hr2 & L2). mrun Hr2.
    pose proof (repr_later _ _ _ _ _ (repr_later _ _ _ _ _ Hq L1) L2) as Hq2.
    destruct L1 as (I1 & T1 & C1 & E1), L2 as (I2 & T2 & C2 & E2). exists (clock s2), busy. destruct busy.
    + destruct (sys_timeout_refines b A TCP_TMR_INTERVAL (Some Tcpip_tcp_timer) s2 Hq2) as (s' & Hr & Hc & Hef & Hq').
      { unfold TCP_TMR_INTERVAL. lia. }
      rewrite Hfull in Hq'. exists s'. split; [exact Hr|]. split; [lia|]. split; [lia|]. split; [|done].
      eapply effects_nil_r; [|exact Hef]. by eapply effects_nil_r.
    + eexists. split; [by apply run_timers|]. rewrite clock_timers. split; [lia|]. split; [lia|]. split.
      * eapply effects_nil_r; [|apply effects_timers]. by eapply effects_nil_r.
      * destruct Hq2 as [Hi2 [? ? ? ? ?]]. split; [by apply inv_timers|]. rewrite get_set_part. by split.
  - unfold lwip_cyclic_timer. destruct (call_cyclic_returns (c_handler c) s Hi) as (s1 & Hr1 & L1). mrun Hr1.
    destruct (read_now_returns s1 (proj1 L1)) as (s2 & Hr2 & L2). mrun Hr2.
    pose proof (repr_later _ _ _ _ _ (repr_later _ _ _ _ _ Hq L1) L2) as Hq2.
    destruct L1 as (I1 & T1 & C1 & E1), L2 as (I2 & T2 & C2 & E2).
    mrun (run_timers get _ _ s2 eq_refl). rewrite set_get_part. cbv zeta.
    rewrite T2, T1, Hdue, u32_add_l, u32_add_l. specialize (Hreg c eq_refl).
    rewrite time_less_than by (unfold W in *; lia).
    destruct (sys_timeout_abs_refines b A (Alarm (next_due e c (clock s1)) (Some (Lwip_cyclic_timer c))) s2 Hq2)
      as (s' & Hr & Hc & Hef & Hq').
    { simpl. unfold next_due. case_match; b2p; lia. }
    rewrite Hfull in Hq'. exists (clock s1), true, s'. split; [|split; [lia|split; [lia|]]].
    + rewrite <- Hr. simpl. unfold next_due. by case_match.
    + split; [|done]. eapply effects_nil_r; [|exact Hef]. by eapply effects_nil_r.
  - destruct (call_user_returns f a s Hi) as (s1 & Hr1 & L1). exists (clock s), true, s1.
    pose proof (repr_later _ _ _ _ _ Hq L1) as Hq1. destruct L1 as (I1 & T1 & C1 & E1).
    split; [done|]. split; [lia|]. split; [lia|]. by split.
Qed.

(** Taking the first entry off. *)
Lemma pop_refines b e A s :
  at_queue b (e :: A) s ->
  let t := get_part (P := timers) s in
  let s1 := set_part (set_timeo_free (timeo_free t + 1) (set_due (u32 (due e)) (set_next_timeout (wrap <$> A) t))) s in
  at_queue b A s1 /\ (length A < 8)%nat /\ current_timeout_due_time (get_part s1) = u32 (due e).
Proof.
  intros Hq t s1. pose proof (repr_room _ _ _ Hq) as Hroom. simpl in Hroom. destruct Hq as [Hi [Hl Hf Ho H0 Hc]].
  unfold s1. split; [|split; [lia|by rewrite get_set_part]].
  apply Forall_cons in Hf as [_ Hf]. apply StronglySorted_inv in Ho as [Ho _]. simpl in Hc.
  split; [by apply inv_timers|]. rewrite get_set_part. split; simpl; [done|done|done|unfold t; lia|unfold t; lia].
Qed.

Lemma in_order_later e A now : in_order (e :: A) -> now < due e -> Forall (fun x => now < due x) (e :: A).
Proof.
  intros Ho Hn. apply StronglySorted_inv in Ho as [_ Ho]. constructor; [done|].
  eapply Forall_impl; [exact Ho|]. intros x. unfold due_le. lia.
Qed.

(** The loop ends within [weights] turns, and does what [a_check] says. *)
Lemma check_loop_refines fuel : forall now A s,
  at_queue now A s -> all_regular A -> (weights now A <= fuel)%nat ->
  now <= clock s -> clock s + 3 * Z.of_nat fuel * slack + 1000 <= now + W ->
  exists hs A' s', check_timeouts_loop fuel (u32 now) s = Some (tt, s') /\ a_check now (clock s') A hs A' /\
    clock s <= clock s' <= clock s + 3 * Z.of_nat fuel * slack /\ effects (cyclics hs) s s' /\
    at_queue now A' s' /\ all_regular A'.
Proof.
  assert (0 < slack) as Hsl by done.
  induction fuel as [|fuel IH]; intros now A s Hq Hreg Hw Hn Hend; cbn [check_timeouts_loop];
    mrun (run_timers get _ _ s eq_refl); rewrite set_get_part;
    pose proof Hq as [Hi [Hl Hf Ho H0 Hc]]; rewrite Hl.
  all: destruct A as [|e A]; cbn [fmap list_fmap];
    [exists [], [], s; split; [done|]; split; [by constructor|]; split; [lia|]; split; [by apply later_refl|done]|].
  all: apply Forall_cons in Hreg as [He Hreg]; apply Forall_cons in Hf as [Hfe Hf]; change (tmo_time (wrap e)) with (u32 (due e));
    rewrite time_less_than by lia; destruct (now <? due e) eqn:Hd; b2p.
  all: try (exists [], (e :: A), s; split; [done|]; split; [by constructor; apply in_order_later|]; split; [lia|];
    split; [by apply later_refl|]; split; [done|]; by constructor).
  { exfalso. unfold weights in Hw. simpl in Hw. unfold weight in Hw.
    destruct (due e <? now) eqn:?, (due e =? now) eqn:?; b2p; lia. }
  destruct (pop_refines now e A s Hq) as (Hq1 & Hroom & Hdue). simpl in Hq1, Hdue.
  set (s1 := set_part _ s) in *.
  rewrite (bind_run _ _ s tt s1); [|by apply run_timers]. cbv beta.
  assert (clock s1 = clock s) as Hcl by apply clock_timers.
  assert (exists T busy s2, (match a_handler e with Some handler => call_handler handler | None => mret tt end) s1 = Some (tt, s2) /\
    clock s1 <= T <= clock s2 /\ clock s2 <= clock s1 + 3 * slack /\ effects (cyclic_of (a_handler e)) s1 s2 /\
    at_queue now (rearm e T busy A) s2) as (T & busy & s2 & Hrun & HT & Hc2 & Hef & Hq2).
  { destruct (a_handler e) as [hd|] eqn:Hh.
    - eapply (call_handler_refines now A e hd); try done; lia.
    - exists (clock s1), true, s1. split; [done|]. split; [lia|]. split; [lia|].
      split; [apply later_refl, Hq1|]. unfold rearm. by rewrite Hh. }
  change (tmo_h (wrap e)) with (a_handler e). mrun Hrun.
  pose proof (rearm_weights e T now busy A He ltac:(lia) ltac:(lia)) as Hlt.
  destruct (IH now (rearm e T busy A) s2 Hq2) as (hs & A' & s' & Hr & Hch & Hc' & Hef' & Hq' & Hreg').
  - by apply rearm_regular.
  - lia.
  - lia.
  - lia.
  - exists (a_handler e :: hs), A', s'. split; [exact Hr|]. split.
    { eapply (check_fire _ _ _ _ T busy); [done|lia|exact Hch]. }
    split; [lia|]. split; [|done]. unfold cyclics. cbn [fmap list_fmap concat].
    apply effects_nil_l with s1; [apply effects_timers|]. eapply effects_app; [exact Hef|exact Hef'].
Qed.

(** How many timeouts one check may have to process: the pool holds eight, and
    each is called at most twice. *)
Definition max_checks : nat := 16.

Lemma sys_check_timeouts_refines A s :
  at_queue (clock s) A s -> all_regular A ->
  exists hs A' s', sys_check_timeouts max_checks s = Some (tt, s') /\ a_check (clock s) (clock s') A hs A' /\
    clock s <= clock s' <= clock s + 49 * slack /\ effects (cyclics hs) s s' /\
    at_queue (clock s) A' s' /\ all_regular A'.
Proof.
  intros Hq Hreg. unfold sys_check_timeouts. destruct (read_now_returns s (proj1 Hq)) as (s1 & Hr & Hl). mrun Hr.
  pose proof (repr_later _ _ _ _ _ Hq Hl) as Hq1. destruct Hl as (_ & _ & Hc & He).
  pose proof (weights_bound (clock s) A) as Hw. pose proof (repr_room _ _ _ Hq) as Hroom.
  destruct (check_loop_refines max_checks (clock s) A s1 Hq1 Hreg) as (hs & A' & s' & Hrun & Hch & Hcl & Hef & Hq' & Hreg').
  - unfold max_checks. lia.
  - lia.
  - change (Z.of_nat max_checks) with 16. unfold slack, W in *. lia.
  - exists hs, A', s'. split; [exact Hrun|]. split; [done|]. change (Z.of_nat max_checks) with 16 in Hcl. split; [lia|].
    split; [by eapply effects_nil_l|done].
Qed.

End Refines.
