(* ===== verification/TimeoutsProps.v ===== *)
(** * Timeouts: the properties of core/timeouts.c, and of its clock *)
From S2P Require Import Prelude Triple SysArch Timeouts TimeoutsFacts.

(** ** One check of the timeouts *)

Definition of_handler (hd : timeout_handler) (A : list alarm) : list alarm :=
  filter (fun e => a_handler e = Some hd) A.
Definition calls (hd : timeout_handler) (hs : list (option timeout_handler)) : nat :=
  length (filter (fun x => x = Some hd) hs).

#[export] Instance of_handler_proper hd : Proper ((≡ₚ) ==> (≡ₚ)) (of_handler hd).
Proof. intros A A' HA. unfold of_handler. by rewrite HA. Qed.

Lemma of_handler_cons hd e A :
  of_handler hd (e :: A) = if decide (a_handler e = Some hd) then e :: of_handler hd A else of_handler hd A.
Proof. unfold of_handler. by rewrite filter_cons. Qed.
Lemma of_handler_insert hd e A :
  of_handler hd (a_insert e A) ≡ₚ if decide (a_handler e = Some hd) then e :: of_handler hd A else of_handler hd A.
Proof. by rewrite a_insert_perm, of_handler_cons. Qed.

(** A cyclic timer goes back to the queue, other handlers do not touch it. *)
Lemma of_handler_rearm c e T busy A :
  of_handler (Lwip_cyclic_timer c) (rearm e T busy A) ≡ₚ
    if decide (a_handler e = Some (Lwip_cyclic_timer c)) then Alarm (next_due e c T) (a_handler e) :: of_handler (Lwip_cyclic_timer c) A
    else of_handler (Lwip_cyclic_timer c) A.
Proof.
  unfold rearm. destruct (a_handler e) as [[|c'|f a]|].
  - rewrite decide_False by done. destruct busy; [|done]. rewrite of_handler_insert. by rewrite decide_False.
  - rewrite of_handler_insert. simpl. case_decide as Hd; [|done]. injection Hd as ->. done.
  - by rewrite decide_False.
  - by rewrite decide_False.
Qed.

Lemma check_nothing_due now till A hs A' : a_check now till A hs A' -> Forall (fun e => now < due e) A'.
Proof. by induction 1. Qed.

(** No cyclic timer gets lost. *)
Lemma check_keeps_cyclic now till A hs A' c :
  a_check now till A hs A' -> length (of_handler (Lwip_cyclic_timer c) A') = length (of_handler (Lwip_cyclic_timer c) A).
Proof.
  induction 1 as [|e A T busy hs A' Hd HT _ IH]; [done|]. rewrite IH, of_handler_rearm, of_handler_cons.
  by case_decide.
Qed.

(** Whoever is due is called, and nobody else. *)
Lemma check_calls now till A hs A' hd :
  a_check now till A hs A' ->
  (forall e, e ∈ A -> a_handler e = hd -> due e <= now -> hd ∈ hs) /\
  (hd ∈ hs -> exists e, e ∈ A /\ a_handler e = hd /\ due e <= now).
Proof.
  induction 1 as [A Hl|e A T busy hs A' Hd HT _ [IH1 IH2]].
  - rewrite Forall_forall in Hl. split; [|by intros ?%not_elem_of_nil]. intros e He _ Hn. specialize (Hl e He). lia.
  - split.
    + intros x [->|Hx]%elem_of_cons Hh Hn; [apply elem_of_cons; by left|]. apply elem_of_cons. right.
      apply (IH1 x); [|done|done]. destruct (rearm_cases e T busy A) as [-> |(d & -> & _)]; [done|].
      rewrite a_insert_perm. apply elem_of_cons. by right.
    + intros [->|Hin]%elem_of_cons; [exists e; split; [apply elem_of_cons; by left|done]|].
      destruct (IH2 Hin) as (x & Hx & Hh & Hn). destruct (rearm_cases e T busy A) as [E|(d & E & _)]; rewrite E in Hx.
      * exists x. split; [apply elem_of_cons; by right|done].
      * rewrite a_insert_perm in Hx. apply elem_of_cons in Hx as [->|Hx]; [|exists x; split; [apply elem_of_cons; by right|done]].
        exists e. split; [apply elem_of_cons; by left|]. by split.
Qed.

(** A cyclic timer that is checked on time is called once for its due time and
    moves by exactly one interval: it does not drift. *)
Definition on_time (now till : Z) (c : lwip_cyclic) (A : list alarm) : Prop :=
  Forall (fun e => due e <= now -> now < due e + interval_ms c /\ till <= due e + interval_ms c) (of_handler (Lwip_cyclic_timer c) A).
Definition overdue (now : Z) (A : list alarm) : nat := length (filter (fun e => due e <= now) A).

Lemma overdue_cons now e A : overdue now (e :: A) = ((if decide (due e <= now)%Z then 1 else 0) + overdue now A)%nat.
Proof. unfold overdue. rewrite filter_cons. by case_decide. Qed.
#[export] Instance overdue_proper now : Proper ((≡ₚ) ==> eq) (overdue now).
Proof. intros A A' HA. unfold overdue. by rewrite HA. Qed.
Lemma overdue_none now A : Forall (fun e => now < due e) A -> overdue now A = 0%nat.
Proof. induction 1 as [|e A He _ IH]; [done|]. rewrite overdue_cons, IH, decide_False by lia. done. Qed.

Definition stepped (now : Z) (c : lwip_cyclic) (e : alarm) : Z :=
  if decide (due e <= now) then due e + interval_ms c else due e.

Lemma stepped_none now c A : Forall (fun e => now < due e) A -> due <$> A = stepped now c <$> A.
Proof.
  induction 1 as [|e A He _ IH]; [done|]. rewrite !fmap_cons, IH. f_equal. unfold stepped. by rewrite decide_False by lia.
Qed.

Lemma check_no_drift now till A hs A' c :
  a_check now till A hs A' -> on_time now till c A ->
  calls (Lwip_cyclic_timer c) hs = overdue now (of_handler (Lwip_cyclic_timer c) A) /\
  due <$> of_handler (Lwip_cyclic_timer c) A' ≡ₚ stepped now c <$> of_handler (Lwip_cyclic_timer c) A.
Proof.
  induction 1 as [A Hl|e A T busy hs A' Hd HT _ IH]; intros Hot.
  - assert (Forall (fun e => now < due e) (of_handler (Lwip_cyclic_timer c) A)) as Hf.
    { apply Forall_forall. intros x [_ Hx]%list_elem_of_filter. rewrite Forall_forall in Hl. by apply Hl. }
    split; [by rewrite overdue_none|]. by rewrite <- stepped_none.
  - unfold on_time in *. rewrite of_handler_cons in Hot |- *. unfold calls. rewrite filter_cons.
    fold (calls (Lwip_cyclic_timer c) hs). pose proof (of_handler_rearm c e T busy A) as Hre. case_decide as Hh.
    + apply Forall_cons in Hot as [He Hot]. specialize (He Hd).
      assert (next_due e c T = due e + interval_ms c) as Hnext by (unfold next_due; rewrite (proj2 (Z.ltb_ge _ _)); lia).
      destruct IH as [IH1 IH2].
      { rewrite Hre. constructor; [|done]. simpl. rewrite Hnext. lia. }
      rewrite Hre in IH1, IH2. rewrite overdue_cons in IH1 |- *. simpl in IH1. rewrite Hnext in IH1.
      rewrite decide_False in IH1 by lia. rewrite (decide_True (P := due e <= now)) by done. simpl.
      unfold calls in IH1. rewrite IH1. split; [done|]. rewrite IH2. simpl. unfold stepped at 1 3. simpl.
      rewrite Hnext, decide_False, decide_True by lia. done.
    + destruct IH as [IH1 IH2]; [by rewrite Hre|]. rewrite Hre in IH1, IH2. split; [exact IH1|exact IH2].
Qed.

Section Props.
Context {S : Type} {TP : part S timers} {TE : TimerEnv S} {TW : TimerWorld S} {TL : TimerLaws S}.

(** C7: The list of timeouts, kept in 32-bit times that wrap around, is a queue of
    alarms at unbounded times: sys_timeout inserts an alarm behind those that are
    due no later (or loses it when all eight elements are in use), sys_untimeout
    removes the first one of a handler, and sys_timeouts_sleeptime is the time to
    the first alarm, 0 when it is late and "infinite" when there is none. *)
Theorem timeouts_refine (A : list alarm) (s : S) :
  at_queue (clock s) A s ->
  (forall ms hd, 0 <= ms <= W ->
     exists s', sys_timeout ms hd s = Some (tt, s') /\ effects [] s s' /\
       at_queue (clock s) (if lenZ A =? MEMP_NUM_SYS_TIMEOUT then A else a_insert (Alarm (clock s + ms) hd) A) s') /\
  (forall hd, exists s', sys_untimeout hd s = Some (tt, s') /\ effects [] s s' /\
     at_queue (clock s) (match a_remove hd A with Some A' => A' | None => A end) s') /\
  (exists s', sys_timeouts_sleeptime s =
     Some (match A with [] => SYS_TIMEOUTS_SLEEPTIME_INFINITE | e :: _ => Z.max 0 (due e - clock s) end, s') /\
     at_queue (clock s) A s').
Proof.
  intros Hq. split; [|split].
  - intros ms hd Hms. destruct (sys_timeout_refines (clock s) A ms hd s Hq) as (s' & ? & ? & ? & ?);
      [unfold W in *; lia|by exists s'].
  - intros hd. destruct (sys_untimeout_refines _ _ hd _ Hq) as (s' & ? & ? & ? & ?). by exists s'.
  - destruct (sys_timeouts_sleeptime_refines _ _ Hq) as (s' & ? & ? & ? & ?). by exists s'.
Qed.


End Props.

(** ** The clock *)

(** C28: The clock of the Xilinx port is wrong after 2^32 / 1000 ticks: sys_now
    multiplies the tick count by 1000 in 32 bits, so the time jumps back although
    no 32-bit millisecond count has wrapped, and a timeout that was one second
    away looks as if it were not due for all the time in between - about 12 hours
    at 100 Hz. *)
Theorem sys_now_jumps_back {O msg : Type} {F : FreeRTOS O msg} (o1 o2 o1' o2' : O) (t2 : Z) :
  10 <= configTICK_RATE_HZ O msg <= 1000 ->
  xTaskGetTickCount (msg := msg) o1 = (4294967, o1') -> xTaskGetTickCount (msg := msg) o2 = (t2, o2') ->
  4294967 < t2 < 2 * 4294967 ->
  exists n1 n2, sys_now (msg := msg) o1 = Some (n1, o1') /\ sys_now (msg := msg) o2 = Some (n2, o2') /\
    n2 < n1 /\ TIME_LESS_THAN n2 (u32 (n1 + 1000)) = true.
Proof.
  intros Hhz H1 H2 Ht. unfold sys_now, os, mbind, M_bind. rewrite H1, H2. eexists _, _. split; [done|]. split; [done|].
  change (u32 (4294967 * 1000)) with 4294967000.
  assert (u32 (t2 * 1000) = t2 * 1000 - 4294967296) as -> by (unfold u32; Z.to_euclidean_division_equations; lia).
  set (hz := configTICK_RATE_HZ O msg) in *.
  assert ((t2 * 1000 - 4294967296) / hz < 4294967000 / hz) as Hlt.
  { apply Z.lt_le_trans with ((4294967000 - hz) / hz + 1); [|replace (4294967000 - hz) with (4294967000 + (-1) * hz) by lia; rewrite Z.div_add by lia; lia].
    apply Z.lt_succ_r, Z.div_le_mono; lia. }
  assert (0 <= (t2 * 1000 - 4294967296) / hz) by (apply Z.div_pos; lia).
  assert (4294967000 / hz <= 429496700) by (Z.to_euclidean_division_equations; nia).
  split; [done|]. rewrite <- (u32_small ((t2 * 1000 - 4294967296) / hz)) by lia.
  rewrite time_less_than by (unfold W; lia). apply Z.ltb_lt. lia.
Qed.

(** ** Witnesses *)

(** A world with timers, a clock that moves one millisecond at each reading, and
    the handlers called. *)
Record lab := Lab { lab_timers : timers; lab_clock : Z; lab_calls : list cyclic_handler }.
#[export] Program Instance lab_part : part lab timers := {
  get_part := lab_timers;
  set_part t s := Lab t (lab_clock s) (lab_calls s);
}.
Solve Obligations with done.
Next Obligation. by intros []. Qed.
#[export] Instance lab_env : TimerEnv lab := {
  read_now s := Some (u32 (lab_clock s), Lab (lab_timers s) (lab_clock s + 1) (lab_calls s));
  call_cyclic c s := Some (tt, Lab (lab_timers s) (lab_clock s) (lab_calls s ++ [c]));
  call_user _ _ := mret tt;
  tcp_busy := mret false;
}.
#[export] Instance lab_world : TimerWorld lab := {
  stack_inv _ := True;
  clock := lab_clock;
  effects cs s s' := lab_calls s' = lab_calls s ++ cs;
}.
#[export] Instance lab_laws : TimerLaws lab.
Proof.
  assert (forall s : lab, lab_calls s = lab_calls s ++ []) as Hnil by (intros s; by rewrite app_nil_r).
  split; try done; try (intros; apply Hnil).
  - intros cs cs' s s1 s' H1 H2. simpl in *. by rewrite H2, H1, app_assoc.
  - intros s _. eexists. split; [done|]. unfold later, slack. simpl. split_and!; (done || lia || apply Hnil).
  - intros c s _. eexists. split; [done|]. unfold later, slack. simpl. split_and!; (done || lia).
  - intros f a s _. eexists. split; [done|]. unfold later, slack. simpl. split_and!; (done || lia || apply Hnil).
  - intros s _. eexists false, s. split; [done|]. unfold later, slack. simpl. split_and!; (done || lia || apply Hnil).
Qed.

(** The two cyclic timers, one of them due, around the wrap of the clock. *)
Definition ip_timer : lwip_cyclic := Cyclic IP_TMR_INTERVAL Ip_reass_tmr.
Definition arp_timer : lwip_cyclic := Cyclic ARP_TMR_INTERVAL Etharp_tmr.
Definition lab_queue : list alarm :=
  [Alarm 4294967290 (Some (Lwip_cyclic_timer ip_timer)); Alarm 4294967400 (Some (Lwip_cyclic_timer arp_timer))].
Definition lab_start : lab := Lab (Timers (wrap <$> lab_queue) 0 false 6) 4294967300 [].

Lemma lab_at_queue : at_queue (clock lab_start) lab_queue lab_start.
Proof.
  split; [done|]. split; [done| | |done|done].
  - repeat constructor; unfold W; simpl; lia.
  - repeat constructor; unfold due_le; simpl; lia.
Qed.

Lemma timeouts_refine_witness :
  at_queue (clock lab_start) lab_queue lab_start /\
  exists s', sys_timeouts_sleeptime lab_start = Some (0, s') /\ at_queue (clock lab_start) lab_queue s'.
Proof.
  split; [exact lab_at_queue|]. destruct (timeouts_refine lab_queue lab_start lab_at_queue) as (_ & _ & s' & Hr & Hq).
  exists s'. split; [exact Hr|exact Hq].
Defined.


(** FreeRTOS with 100 ticks per second and an empty mailbox, at a given tick. *)
#[local] Instance tick_os : FreeRTOS Z unit := {
  configTICK_RATE_HZ := 100;
  xTaskGetTickCount t := (t, t);
  xInsideISR _ := false;
  xQueueSend _ t := (false, t);
  xQueueSendFromISR _ t := (false, t);
  xQueueSendToBack _ _ := None;
  xQueueReceive _ t := Some (None, t);
  xQueueReceiveFromISR t := (None, t);
}.

(** Seven hours later, and the timeout of one second is still not due. *)
Lemma sys_now_jumps_back_witness :
  exists n1 n2, sys_now (O := Z) (msg := unit) 4294967 = Some (n1, 4294967) /\
    sys_now (O := Z) (msg := unit) (4294967 + 7 * 360000) = Some (n2, 6814967) /\
    n2 < n1 /\ TIME_LESS_THAN n2 (u32 (n1 + 1000)) = true.
Proof.
  apply (sys_now_jumps_back (msg := unit) 4294967 6814967 4294967 6814967 6814967); simpl; try reflexivity; lia.
Defined.
