(* ===== verification/Tcpip.v ===== *)
(** * The tcpip thread: api/tcpip.c

    The messages other threads post for the thread, the mailbox they travel in
    (sys_arch.c), and the thread's loop.  LWIP_TCPIP_CORE_LOCKING 1,
    LWIP_TCPIP_CORE_LOCKING_INPUT 0, LWIP_TCPIP_TIMEOUT 0: the thread handles
    packets and callbacks; the core lock is held for the whole of a turn, so a
    turn is one step. *)
From S2P Require Import Prelude Triple Pbuf Netif Node SysArch Timeouts.

Definition MEMP_NUM_TCPIP_MSG_API := 16.
Definition MEMP_NUM_TCPIP_MSG_INPKT := 64.
Definition TCPIP_MBOX_SIZE := 200.

(** The input functions a packet message can carry. *)
Inductive input_function := Ethernet_input | Ip_input.
#[export] Instance input_function_eq_dec : EqDecision input_function.
Proof. solve_decision. Defined.

(** The functions a callback can call: the two of this file, and the users'. *)
Inductive callback_fn :=
  | Pbuf_free_int (p : positive)
  | Mem_free (m : Z)
  | User_callback (function ctx : Z).

(** struct tcpip_msg, by its type *)
Inductive tcpip_msg :=
  | TCPIP_MSG_INPKT (p netif : positive) (input_fn : input_function)
  | TCPIP_MSG_CALLBACK (function : callback_fn)
  | TCPIP_MSG_CALLBACK_STATIC (function : callback_fn).

(** The free elements of MEMP_TCPIP_MSG_INPKT and MEMP_TCPIP_MSG_API. *)
Record msg_pools := MsgPools { inpkt_free : Z; api_free : Z }.
Definition set_inpkt_free v m := MsgPools v (api_free m).
Definition set_api_free v m := MsgPools (inpkt_free m) v.
Definition pools_init : msg_pools := MsgPools MEMP_NUM_TCPIP_MSG_INPKT MEMP_NUM_TCPIP_MSG_API.

(** What the thread calls: the input functions, and the callbacks of others. *)
Class TcpipEnv (X : Type) := {
  call_input : input_function -> positive -> positive -> M (node X) err_t;
  call_mem_free : Z -> M (node X) unit;
  call_callback : Z -> Z -> M (node X) unit;
}.

Section Tcpip.
Context {E : PbufEnv} {X O : Type} {F : FreeRTOS O tcpip_msg} {TE : TcpipEnv X}.
Context {OP : part X O} {MP : part X msg_pools} {TP : part (node X) timers} {TM : TimerEnv (node X)}.

Definition onos {A} (m : M O A) : M (node X) A := ext (zoom m).
Definition onpools {A} (m : M msg_pools A) : M (node X) A := ext (zoom m).

Definition memp_malloc_inpkt : M (node X) bool :=
  m ← onpools get;
  if inpkt_free m =? 0 then mret false else onpools (put (set_inpkt_free (inpkt_free m - 1) m));; mret true.
Definition memp_free_inpkt : M (node X) unit :=
  onpools (modify (fun m => set_inpkt_free (inpkt_free m + 1) m)).
Definition memp_malloc_api : M (node X) bool :=
  m ← onpools get;
  if api_free m =? 0 then mret false else onpools (put (set_api_free (api_free m - 1) m));; mret true.
Definition memp_free_api : M (node X) unit :=
  onpools (modify (fun m => set_api_free (api_free m + 1) m)).

Definition tcpip_inpkt (p inp : positive) (input_fn : input_function) : M (node X) err_t :=
  ok ← memp_malloc_inpkt;
  if negb ok then mret ERR_MEM
  else
    r ← onos (sys_mbox_trypost (TCPIP_MSG_INPKT p inp input_fn));
    if negb (bool_decide (r = ERR_OK)) then memp_free_inpkt;; mret ERR_MEM
    else mret ERR_OK.

Definition tcpip_input (p inp : positive) : M (node X) err_t :=
  n ← get_netif inp;
  if negb (Z.land (Netif.flags n) (Z.lor NETIF_FLAG_ETHARP NETIF_FLAG_ETHERNET) =? 0)
  then tcpip_inpkt p inp Ethernet_input
  else tcpip_inpkt p inp Ip_input.

Definition tcpip_callback (function : callback_fn) : M (node X) err_t :=
  ok ← memp_malloc_api;
  if negb ok then mret ERR_MEM
  else onos (sys_mbox_post (TCPIP_MSG_CALLBACK function));; mret ERR_OK.

Definition tcpip_try_callback (function : callback_fn) : M (node X) err_t :=
  ok ← memp_malloc_api;
  if negb ok then mret ERR_MEM
  else
    r ← onos (sys_mbox_trypost (TCPIP_MSG_CALLBACK function));
    if negb (bool_decide (r = ERR_OK)) then memp_free_api;; mret ERR_MEM
    else mret ERR_OK.

(** The message is made once and posted as often as the user likes. *)
Definition tcpip_callbackmsg_new (function : callback_fn) : M (node X) (option tcpip_msg) :=
  ok ← memp_malloc_api;
  mret (if (ok : bool) then Some (TCPIP_MSG_CALLBACK_STATIC function) else None).
Definition tcpip_callbackmsg_delete : M (node X) unit := memp_free_api.
Definition tcpip_callbackmsg_trycallback (msg : tcpip_msg) : M (node X) err_t :=
  onos (sys_mbox_trypost msg).

Definition pbuf_free_callback (p : positive) : M (node X) err_t := tcpip_try_callback (Pbuf_free_int p).
Definition mem_free_callback (m : Z) : M (node X) err_t := tcpip_try_callback (Mem_free m).

Definition run_callback (function : callback_fn) : M (node X) unit :=
  match function with
  | Pbuf_free_int q => onheap (pbuf_free (Some q));; mret tt
  | Mem_free m => call_mem_free m
  | User_callback f ctx => call_callback f ctx
  end.

Definition tcpip_thread_handle_msg (msg : tcpip_msg) : M (node X) unit :=
  match msg with
  | TCPIP_MSG_INPKT p netif input_fn =>
      r ← call_input input_fn p netif;
      (if negb (bool_decide (r = ERR_OK)) then onheap (pbuf_free (Some p));; mret tt else mret tt);;
      memp_free_inpkt
  | TCPIP_MSG_CALLBACK function => run_callback function;; memp_free_api
  | TCPIP_MSG_CALLBACK_STATIC function => run_callback function
  end.

(** tcpip_timeouts_mbox_fetch up to the next [goto again] ([None]) or the
    message; [fuel] is for sys_check_timeouts. *)
Definition mbox_fetch_turn (fuel : nat) : M (node X) (option tcpip_msg) :=
  sleeptime ← sys_timeouts_sleeptime;
  if sleeptime =? SYS_TIMEOUTS_SLEEPTIME_INFINITE then
    r ← onos (sys_arch_mbox_fetch 0); mret r.1
  else if sleeptime =? 0 then sys_check_timeouts fuel;; mret None
  else
    r ← onos (sys_arch_mbox_fetch sleeptime);
    if r.2 =? SYS_ARCH_TIMEOUT then sys_check_timeouts fuel;; mret None
    else mret r.1.

(** One turn of the thread: timeouts, or one message. *)
Definition tcpip_thread_turn (fuel : nat) : M (node X) unit :=
  msg ← mbox_fetch_turn fuel;
  match msg with
  | Some msg => tcpip_thread_handle_msg msg
  | None => mret tt
  end.

(** The thread itself, for [n] turns. *)
Fixpoint tcpip_thread (n fuel : nat) : M (node X) unit :=
  match n with
  | Datatypes.O => mret tt
  | Datatypes.S n => tcpip_thread_turn fuel;; tcpip_thread n fuel
  end.

End Tcpip.
