(* ===== verification/RpmsgFreeRTOS.v ===== *)
(** * The FreeRTOS side: freertos/rpmsg_eth.c and freertos/network.c *)
From S2P Require Import Prelude Def Pbuf PbufFacts PbufWrite PbufAlloc PbufPool Netif Node Ip4Addr.

Definition RPMSG_SIZE := 496.
Definition MTU_RPMSG := RPMSG_SIZE - 6 - 6 - 2.
Definition IFNAME0 := 101.
Definition IFNAME1 := 110.
Definition ETHTYPE_IP := 0x0800.
Definition ETHTYPE_ARP := 0x0806.
Definition ERR_MEM_value := -1.
Definition RPMSG_SUCCESS := 0.

(** ** What the driver relies on: OpenAMP and the stack's input function

    [X]: everything outside the pbufs and netifs. *)
Class OpenAmp (X : Type) := {
  rpmsg_send : list Z -> X -> Z * X;
  rpmsg_create_ept : list Z -> X -> Z * X;
  mem_malloc_priv : X -> bool * X;
  tcpip_input : positive -> positive -> M (node X) err_t;
  lwip_init : M (node X) unit;
}.

Section Driver.
Context {E : PbufEnv} {X : Type} {OA : OpenAmp X}.

Definition send (msg : list Z) : M X Z := fun x => Some (rpmsg_send msg x).

(** low_level_output: the for loop over the chain. *)
Fixpoint low_level_output_loop (fuel : nat) (q : option positive) : M (node X) err_t :=
  match q with
  | None => mret ERR_OK
  | Some i =>
    match fuel with
    | O => stuck
    | S fuel =>
      b ← onheap (get_pbuf i);
      d ← onheap (load (payload b) 0 (len b));
      r ← ext (send d);
      if r <? 0 then mret ERR_BUF else low_level_output_loop fuel (next b)
    end
  end.

Definition low_level_output (p : option positive) : M (node X) err_t :=
  h ← onheap get; low_level_output_loop (chain_fuel h) p.

(** rpmsg_endpoint_cb: the message [data], received for the netif [i]; [len] is
    a size_t that pbuf_alloc and pbuf_take take as u16_t. *)
Definition rpmsg_endpoint_cb (data : list Z) (i : positive) : M (node X) Z :=
  let l := u16 (lenZ data) in
  p ← onheap (pbuf_alloc PBUF_RAW l PBUF_POOL);
  match p with
  | None => mret ERR_MEM_value
  | Some p =>
      onheap (pbuf_take (Some p) (Some data) l);;
      b ← onheap (get_pbuf p);
      ty ← onheap (load (payload b) 12 2);
      let type := lwip_htons (ld16 ty 0) in
      (if (type =? ETHTYPE_IP) || (type =? ETHTYPE_ARP) then
         r ← tcpip_input p i;
         if negb (bool_decide (r = ERR_OK)) then onheap (pbuf_free (Some p));; mret tt
         else mret tt
       else onheap (pbuf_free (Some p));; mret tt);;
      mret RPMSG_SUCCESS
  end.

(** "rpmsg-eth" *)
Definition ept_name : list Z := [114; 112; 109; 115; 103; 45; 101; 116; 104].

(** rpmsg_eth_init; [priv] stands for the address of the mailboxif struct,
    which netif->state then holds. *)
Definition rpmsg_eth_init (priv : Z) (i : positive) : M (node X) err_t :=
  ok ← ext (fun x => Some (mem_malloc_priv x));
  if negb ok then mret ERR_MEM
  else
    upd_netif i (fun n =>
      let hwaddr := [0xAA; 0xBB; 0xCC; 0xDD; 0xEE; Z.lxor 0xFF 1] in
      let flags := Z.lor (Z.lor (Z.lor NETIF_FLAG_BROADCAST NETIF_FLAG_ETHARP) NETIF_FLAG_IGMP)
                     NETIF_FLAG_LINK_UP in
      Netif (ip_addr n) (netmask n) (gw n) (input n) etharp_output_fn low_level_output_fn priv
        MTU_RPMSG hwaddr 6 flags (IFNAME0, IFNAME1) (num n));;
    status ← ext (fun x => Some (rpmsg_create_ept ept_name x));
    if negb (status =? 0) then mret ERR_IF else mret ERR_OK.

(** network_init: the static [server_netif] is netif 1. *)
Definition server_netif : positive := 1%positive.
Definition network_init {D : NetifDeps (node X)} (rdev priv : Z) : M (node X) Z :=
  lwip_init;;
  netif_add (Some server_netif) (Some (IP4_ADDR 10 43 0 3)) (Some (IP4_ADDR 255 255 0 0))
    (Some (IP4_ADDR 10 43 0 1)) rdev (Some (rpmsg_eth_init priv)) tcpip_input_fn;;
  netif_set_default (Some server_netif);;
  netif_set_up (Some server_netif);;
  mret 0.

(** ** Sending *)

(** Sending a list of messages until one fails. *)
Fixpoint send_all (msgs : list (list Z)) (x : X) : err_t * X :=
  match msgs with
  | [] => (ERR_OK, x)
  | m :: msgs => let '(r, x) := rpmsg_send m x in
                 if r <? 0 then (ERR_BUF, x) else send_all msgs x
  end.

Lemma low_level_output_loop_run h g l : forall fuel p x,
  packet h p l -> (length l <= fuel)%nat ->
  low_level_output_loop fuel p (Node h g x) =
    (let '(r, x') := send_all ((fun ib => pdata h ib.2) <$> l) x in Some (r, Node h g x')).
Proof.
  induction l as [|[i b] l IH]; intros fuel p x Hp Hf.
  - rewrite (chain_nil_inv _ _ (packet_chain _ _ _ Hp)). by destruct fuel.
  - apply packet_cons_inv in Hp as (-> & Hi & Hp & Hl & _ & Hpl & _ & _).
    destruct fuel as [|fuel]; simpl in Hf; [lia|]. cbn [low_level_output_loop].
    mrun (heap_run _ _ g x _ _ (get_pbuf_run _ _ _ Hi)).
    mrun (heap_run _ _ g x _ _ (load_all h b Hpl Hl)).
    cbn [fmap list_fmap send_all]. simpl.
    destruct (rpmsg_send (pdata h b) x) as [r x'] eqn:Es.
    mrun (ext_run (send (pdata h b)) h g x r x' ltac:(unfold send; by rewrite Es)).
    destruct (r <? 0); [done|]. apply IH; [done|lia].
Qed.

Lemma low_level_output_run h g x p l :
  packet h p l ->
  low_level_output p (Node h g x) =
    (let '(r, x') := send_all ((fun ib => pdata h ib.2) <$> l) x in Some (r, Node h g x')).
Proof.
  intros Hp. unfold low_level_output. mrun (heap_run get h g x h h eq_refl).
  apply low_level_output_loop_run; [done|]. pose proof (packet_fuel _ _ _ Hp). lia.
Qed.

(** ** Receiving *)

(** The pbuf a message of [n] bytes gets, and the heap that holds it. *)
Definition rx_pbuf (h : heap) (n : Z) : pbuf := pool_pbuf (h_next h) n 0.
Definition rx_heap (h : heap) (n : Z) : heap :=
  with_new h (SIZEOF_STRUCT_PBUF + PBUF_POOL_BUFSIZE_ALIGNED) (rx_pbuf h n) 1 0.

Lemma alloc_one h n :
  h_pool h <> 0 -> 0 <= n <= 1728 ->
  pbuf_alloc PBUF_RAW n PBUF_POOL h = Some (Some (h_next h), rx_heap h n).
Proof.
  intros Hp Hn. unfold pbuf_alloc. simpl layer_offset.
  rewrite pool_loop_step by (done || lia). change (pool_cap 0) with 1728. cbv zeta.
  rewrite Z.min_l by lia. by rewrite Z.sub_diag.
Qed.

Lemma rx_packet h n :
  0 <= n <= 1728 -> packet (rx_heap h n) (Some (h_next h)) [(h_next h, rx_pbuf h n)].
Proof.
  intros Hn. apply packet_cons; simpl.
  - by rewrite lookup_insert_eq.
  - apply packet_nil.
  - change (pool_cap 0) with 1728. lia.
  - change (pool_cap 0) with 1728. lia.
  - right. eexists _, _, _. split; [done|]. simpl. rewrite lookup_insert_eq. split; [done|].
    change (pool_cap 0) with 1728. change (LWIP_MEM_ALIGN_SIZE 0) with 0.
    change (SIZEOF_STRUCT_PBUF + PBUF_POOL_BUFSIZE_ALIGNED) with 1792.
    rewrite length_junk_block by lia. lia.
  - change (pool_cap 0) with 1728. lia.
Qed.

(** The first bytes of the message, once it is in the pbuf. *)
Definition frame_type (data : list Z) : Z := 256 * byte_at data 12 + byte_at data 13.

Record received (h : heap) (data : list Z) (h2 : heap) : Prop := {
  rcv_writes : writes [h_next h] (rx_heap h (lenZ data)) h2;
  rcv_packet : packet h2 (Some (h_next h)) [(h_next h, rx_pbuf h (lenZ data))];
  rcv_data : chain_data h2 [(h_next h, rx_pbuf h (lenZ data))] = data;
}.

Lemma rx_take h data :
  lenZ data <= 1728 ->
  exists h2, pbuf_take (Some (h_next h)) (Some data) (lenZ data) (rx_heap h (lenZ data)) = Some (ERR_OK, h2) /\
    received h data h2.
Proof.
  intros Hn. pose proof (rx_packet h (lenZ data) ltac:(lia)) as Hp.
  assert (sum_len [(h_next h, rx_pbuf h (lenZ data))] = lenZ data) as Hsum.
  { simpl. change (pool_cap 0) with 1728. lia. }
  destruct (pbuf_take_run _ _ _ data (lenZ data) Hp) as (h2 & Hrun & Hw & Hd & _); try lia.
  { unfold blks. simpl. apply NoDup_singleton. }
  exists h2. split; [done|]. assert (packet h2 (Some (h_next h)) [(h_next h, rx_pbuf h (lenZ data))]) as Hp2.
  { destruct Hw as [Hpb Hnx _ _ Hl Hfr]. eapply packet_frame; [| |exact Hp].
    - intros. by rewrite Hpb.
    - intros j b Hin Hok. apply list_elem_of_singleton in Hin. simplify_eq.
      destruct Hok as [?|(blk & o & bs & ? & Hbs & ? & ?)]; [by left|].
      right. specialize (Hl blk). rewrite Hbs in Hl. destruct (h_mem h2 !! blk) as [bs'|] eqn:Eb; [|done].
      exists blk, o, bs'. split; [done|]. split; [done|]. split; [done|]. simpl in Hl. simplify_eq. lia. }
  split; [exact Hw|exact Hp2|]. rewrite Hd.
  pose proof (length_chain_data _ _ _ Hp) as Hlen. rewrite Hsum in Hlen.
  rewrite slice_full by done. unfold overwrite. rewrite take_0, drop_ge by lia. by rewrite app_nil_r.
Qed.

Lemma rx_type h data h2 :
  13 <= lenZ data <= 1728 -> received h data h2 ->
  exists ty, load (payload (rx_pbuf h (lenZ data))) 12 2 h2 = Some (ty, h2) /\ lenZ ty = 2 /\
    byte_at ty 0 = byte_at data 12 /\ (14 <= lenZ data -> byte_at ty 1 = byte_at data 13) /\
    (mem_ok h2 -> bytes_ok ty).
Proof.
  intros Hn [Hw Hp Hd]. simpl. change (64 + LWIP_MEM_ALIGN_SIZE 0) with 64.
  pose proof (writes_len _ _ _ Hw (h_next h)) as Hl. simpl in Hl. rewrite lookup_insert_eq in Hl. simpl in Hl.
  destruct (h_mem h2 !! h_next h) as [bs|] eqn:Hbs; [|done]. simpl in Hl. injection Hl as Hl.
  assert (lenZ bs = 1792) as Hlen.
  { rewrite Hl. exact (length_junk_block (h_next h) 1792 ltac:(lia)). }
  unfold chain_data, pdata in Hd. simpl in Hd. change (64 + LWIP_MEM_ALIGN_SIZE 0) with 64 in Hd.
  rewrite Hbs, app_nil_r in Hd. simpl in Hd. change (pool_cap 0) with 1728 in Hd. rewrite Z.min_l in Hd by lia.
  assert (forall k, 0 <= k < lenZ data -> byte_at data k = byte_at bs (64 + k)) as Hbyte.
  { intros k Hk. unfold byte_at. rewrite <- Hd. pose proof (lookup_slice bs 64 (lenZ data) k ltac:(lia) Hk) as Hs.
    rewrite Hd in Hs |- *. rewrite (lookup_lenZ data k Hk) in Hs. symmetry in Hs.
    by rewrite (nth_lookup_Some _ _ _ _ Hs), (nth_lookup_Some _ _ _ _ (lookup_lenZ data k Hk)). }
  assert (forall k, 0 <= k < 2 -> byte_at (slice bs 76 2) k = byte_at bs (76 + k)) as Hty.
  { intros k Hk. pose proof (lookup_slice bs 76 2 k ltac:(lia) Hk) as Hs.
    rewrite (lookup_lenZ bs (76 + k)) in Hs by lia. by apply byte_at_lookup. }
  exists (slice bs 76 2). split.
  { unfold load. simpl. rewrite Hbs. rewrite (proj2 (Z.leb_le _ _)) by lia. done. }
  split; [by rewrite length_slice by lia|].
  split; [rewrite (Hty 0), (Hbyte 12) by lia; done|].
  split; [intros; rewrite (Hty 1), (Hbyte 13) by lia; done|].
  intros Hok. apply bytes_ok_slice. by apply (Hok _ _ Hbs).
Qed.

Lemma htons_ld16 ty : bytes_ok ty -> lwip_htons (ld16 ty 0) = 256 * byte_at ty 0 + byte_at ty 1.
Proof.
  intros Hok. pose proof (ld16_bound ty 0 Hok). pose proof (byte_at_ok ty 0 Hok). pose proof (byte_at_ok ty 1 Hok).
  rewrite lwip_htons_eq by done. unfold ld16, is_byte in *. change (0 + 1) with 1 in *.
  set (a := byte_at ty 0) in *. set (b := byte_at ty 1) in *. Z.to_euclidean_division_equations. lia.
Qed.

(** Up to the dispatch on the type. *)
Lemma endpoint_run h g x data i :
  h_pool h <> 0 -> 13 <= lenZ data <= 1728 -> mem_ok h -> bytes_ok data ->
  exists h2 ty, received h data h2 /\ mem_ok h2 /\ bytes_ok ty /\ byte_at ty 0 = byte_at data 12 /\
    (14 <= lenZ data -> byte_at ty 1 = byte_at data 13) /\
    rpmsg_endpoint_cb data i (Node h g x) =
      ((if (256 * byte_at ty 0 + byte_at ty 1 =? ETHTYPE_IP) || (256 * byte_at ty 0 + byte_at ty 1 =? ETHTYPE_ARP) then
         r ← tcpip_input (h_next h) i;
         if negb (bool_decide (r = ERR_OK)) then onheap (pbuf_free (Some (h_next h)));; mret tt
         else mret tt
       else onheap (pbuf_free (Some (h_next h)));; mret tt);; mret RPMSG_SUCCESS) (Node h2 g x).
Proof.
  intros Hpool Hlen Hmem Hdata. unfold rpmsg_endpoint_cb. rewrite u16_small by lia.
  mrun (heap_run _ _ g x _ _ (alloc_one h (lenZ data) Hpool ltac:(lia))).
  destruct (rx_take h data ltac:(lia)) as (h2 & Htake & Hrcv).
  mrun (heap_run _ _ g x _ _ Htake).
  destruct (rx_type h data h2 Hlen Hrcv) as (ty & Hload & _ & Hb0 & Hb1 & Hok).
  assert (mem_ok h2) as Hmem2.
  { pose proof (rx_packet h (lenZ data) ltac:(lia)) as Hp.
    destruct (pbuf_take_run _ _ _ data (lenZ data) Hp) as (h2' & Htake' & _ & _ & Hm); try lia.
    { unfold blks. simpl. apply NoDup_singleton. }
    { simpl. change (pool_cap 0) with 1728. lia. }
    rewrite Htake in Htake'. simplify_eq. apply Hm; [done|].
    intros j bs. simpl. rewrite lookup_insert_Some. intros [[<- <-]|[_ ?]]; [apply junk_block_ok|by eapply Hmem]. }
  pose proof (packet_cons_inv _ _ _ _ _ (rcv_packet _ _ _ Hrcv)) as (_ & Hi & _).
  mrun (heap_run _ _ g x _ _ (get_pbuf_run _ _ _ Hi)). mrun (heap_run _ _ g x _ _ Hload).
  rewrite htons_ld16 by auto. exists h2, ty. do 5 (split; [by auto|]). done.
Qed.

(** Freeing a frame that was not wanted leaves the pool as it was. *)
Lemma rx_drop h data h2 :
  heap_wf h -> received h data h2 ->
  exists h3, pbuf_free (Some (h_next h)) h2 = Some (1, h3) /\
    h_pbufs h3 = h_pbufs h /\ h_mem h3 = h_mem h /\ h_pool h3 = h_pool h /\ h_ref h3 = h_ref h.
Proof.
  intros Hwf [Hw Hp Hd]. pose proof (packet_chain _ _ _ Hp) as Hc.
  destruct (Hwf (h_next h) ltac:(lia)) as [Hn1 Hn2].
  pose proof (pbuf_free_run h2 (h_next h) [(h_next h, rx_pbuf h (lenZ data))] []) as Hfree.
  rewrite app_nil_r in Hfree. rewrite Hfree; [|done| |done].
  - eexists. split; [done|]. simpl. pose proof (writes_pbufs _ _ _ Hw) as Hpb. simpl in Hpb.
    split; [rewrite Hpb; simpl; by rewrite delete_insert_id|].
    split.
    { apply map_eq. intros j. destruct (decide (j = h_next h)) as [->|Hj]; [by rewrite lookup_delete_eq|].
      rewrite lookup_delete_ne by done. rewrite (writes_frame _ _ _ Hw) by set_solver.
      simpl. by rewrite lookup_insert_ne. }
    rewrite (writes_pool _ _ _ Hw), (writes_ref _ _ _ Hw). simpl. lia.
  - apply Forall_cons_2; [|apply Forall_nil_2]. split; [done|]. split; [done|]. simpl.
    pose proof (writes_len _ _ _ Hw (h_next h)) as Hl. simpl in Hl. rewrite lookup_insert_eq in Hl.
    destruct (h_mem h2 !! h_next h); [eauto|done].
Qed.

End Driver.
