(* ===== verification/Examples.v ===== *)
(** * Concrete environments and stores for evaluating the definitions *)
From S2P Require Import Prelude Pbuf PbufFacts PbufAlloc Netif Node RpmsgFreeRTOS.

(** Fresh memory holds 0xA5; the heap has room for 100 blocks. *)
#[export] Program Instance demo_env : PbufEnv := {
  junk _ _ := 0xA5;
  heap_admits m n := (Z.of_nat (size m) <? 100);
  tcpip_try_callback_ok n := n <? 4;
  custom_free _ _ := mret tt;
}.
Next Obligation. done. Qed.

Definition empty_heap : heap := Heap ∅ ∅ 1 256 16 false 0.
Definition small_heap : heap := Heap ∅ ∅ 1 2 16 false 0.

Lemma empty_heap_wf : heap_wf empty_heap.
Proof. done. Qed.
Lemma small_heap_wf : heap_wf small_heap.
Proof. done. Qed.
Lemma empty_heap_mem_ok : mem_ok empty_heap.
Proof. apply map_Forall_empty. Qed.

(** Evaluate a run. *)
Definition result {S A} (r : option (A * S)) : option A := fst <$> r.
Definition final {S A} (r : option (A * S)) (s : S) : S := match r with Some (_, s') => s' | None => s end.

(** OpenAMP as a script of send results, the messages sent, and the pbufs given
    to the stack, with the error it returns for each. *)
Record link := Link { l_results : list Z; l_sent : list (list Z); l_input : list positive; l_inerr : err_t }.

#[export] Instance demo_amp : OpenAmp link := {
  rpmsg_send d x :=
    match l_results x with
    | [] => (lenZ d, Link [] (l_sent x ++ [d]) (l_input x) (l_inerr x))
    | r :: rs => (r, Link rs (if r <? 0 then l_sent x else l_sent x ++ [d]) (l_input x) (l_inerr x))
    end;
  rpmsg_create_ept _ x := (0, x);
  mem_malloc_priv x := (true, x);
  tcpip_input p _ := fun s =>
    Some (l_inerr (n_ext s), Node (n_heap s) (n_netifs s)
      (Link (l_results (n_ext s)) (l_sent (n_ext s)) (l_input (n_ext s) ++ [p]) (l_inerr (n_ext s))));
  lwip_init := mret tt;
}.

#[export] Instance demo_deps : NetifDeps (node link) := {
  etharp_gratuitous _ := mret tt;
  etharp_cleanup_netif _ := mret tt;
  tcp_netif_ip_addr_changed _ _ := mret tt;
  udp_netif_ip_addr_changed _ _ := mret tt;
}.

Definition idle_link : link := Link [] [] [] ERR_OK.
Definition blank_netif : netif :=
  Netif 0 0 0 tcpip_input_fn netif_null_output_ip4 no_linkoutput 0 0 [] 0 0 (0, 0) 0.
Definition no_netifs : netifs := Netifs {[server_netif := blank_netif]} [] None 0.
Definition demo_node : node link := Node empty_heap no_netifs idle_link.

(** An ARP frame and the driver's first message. *)
Definition arp_frame : list Z :=
  [255; 255; 255; 255; 255; 255; 0; 0; 0; 0; 0; 1; 8; 6; 0; 1; 8; 0; 6; 4; 0; 1].
Definition dummy_payload : list Z := [100; 117; 109; 109; 121; 95; 112; 97; 121; 108; 111; 97; 100].

Lemma bytes_ok_dec (l : list Z) : forallb (fun b => (0 <=? b) && (b <? 256)) l = true -> bytes_ok l.
Proof.
  induction l as [|b l IH]; intros H; [apply Forall_nil_2|]. simpl in H. b2p.
  apply Forall_cons_2; [|by apply IH]. unfold is_byte. lia.
Qed.

Example cb_accepts_arp :
  result (rpmsg_endpoint_cb arp_frame server_netif demo_node) = Some 0 /\
  l_input (n_ext (final (rpmsg_endpoint_cb arp_frame server_netif demo_node) demo_node)) = [1%positive].
Proof. by vm_compute. Qed.
Example cb_drops_dummy :
  h_pool (n_heap (final (rpmsg_endpoint_cb dummy_payload server_netif demo_node) demo_node)) = 256.
Proof. by vm_compute. Qed.
