(* ===== verification/PbufProps.v ===== *)
(** * Packet buffers: the properties of core/pbuf.c *)
From S2P Require Import Prelude Def Pbuf PbufFacts PbufWrite PbufAlloc PbufPool PbufChain PbufRef Netif Node Examples.

(** ** Clients of the reference-count discipline

    A client holds references; it may pass on or give up only those it holds. *)
Inductive buf_op :=
  | OpAlloc (layer : pbuf_layer) (n : Z) (type : pbuf_type)
  | OpRef (i : positive) | OpFree (i : positive)
  | OpCat (p t : positive) | OpChain (p t : positive) | OpDechain (p : positive).

Section Clients.
Context {E : PbufEnv}.

(** What an operation does to the heap and to the references held. *)
Definition perform (o : buf_op) (H : list positive) : M heap (list positive) :=
  match o with
  | OpAlloc layer n type => r ← pbuf_alloc layer n type; mret (option_list r ++ H)
  | OpRef i => pbuf_ref (Some i);; mret (i :: H)
  | OpFree i => pbuf_free (Some i);; mret (yields i H)
  | OpCat p t => pbuf_cat (Some p) (Some t);; mret (yields t H)
  | OpChain p t => pbuf_chain (Some p) (Some t);; mret H
  | OpDechain p => pbuf_dechain (Some p);; mret H
  end.

(** When a client may ask for it: the references are its own, the two chains of
    a concatenation are different packets, and no count reaches 256. *)
Definition allowed (o : buf_op) (H : list positive) (h : heap) : Prop :=
  match o with
  | OpAlloc _ n _ => 0 <= n < 65536
  | OpRef i => i ∈ H /\ forall b, h_pbufs h !! i = Some b -> ref b < 255
  | OpFree i => i ∈ H
  | OpCat p t => p ∈ H /\ t ∈ H /\ disjoint_chains h p t
  | OpChain p t => p ∈ H /\ t ∈ H /\ disjoint_chains h p t /\ forall b, h_pbufs h !! t = Some b -> ref b < 255
  | OpDechain p => p ∈ H
  end.

Definition client_step (s s' : heap * list positive) : Prop :=
  exists o, allowed o s.2 s.1 /\ perform o s.2 s.1 = Some (s'.2, s'.1).

Lemma perform_good n o h H :
  good n h H -> allowed o H h -> exists H' h', perform o H h = Some (H', h') /\ good n h' H'.
Proof.
  intros Hg. pose proof Hg as [Hco Hwf Hpt].
  assert (forall i, i ∈ H -> exists b, h_pbufs h !! i = Some b) as Hlive by (intros i; by apply counted_live).
  destruct o as [layer m type|i|i|p t|p t|p]; cbn [perform allowed].
  - intros Hm. destruct (pbuf_alloc_counted h H layer m type Hwf Hco Hm) as (r & h' & Hr & ? & ? & ?). mrun Hr.
    eexists _, h'. split; [done|]. split; [done|done|congruence].
  - intros [Hi Hr]. destruct (Hlive i Hi) as [b Hb]. destruct (pbuf_ref_counted h H i b Hco Hb (Hr b Hb)) as [Hrun Hc'].
    mrun Hrun. eexists _, _. split; [done|]. split; [done|by eapply upd_wf|].
    by rewrite (upd_pool h i b).
  - intros Hi. pose proof (give_up_Permutation i H Hi) as Hperm. rewrite Hperm in Hco.
    destruct (pbuf_free_counted h _ i Hco) as (c & h' & Hr & Hc' & Hs & Hp'). mrun Hr.
    eexists _, h'. split; [done|]. split; [done|by eapply survives_wf|congruence].
  - intros (Hp & Ht & Hd). pose proof (give_up_Permutation t H Ht) as Hperm. rewrite Hperm in Hco.
    destruct (pbuf_cat_counted h _ p t Hwf Hco (Hlive p Hp) Hd) as (h' & Hr & Hc' & Hw' & Hp' & _). mrun Hr.
    eexists _, h'. split; [done|]. split; [done|done|congruence].
  - intros (Hp & Ht & Hd & Hr). destruct (Hlive t Ht) as [b Hb].
    pose proof (give_up_Permutation t H Ht) as Hperm.
    destruct (pbuf_chain_good n h (yields t H) p t b) as (h' & Hrun & [Hc' Hw' Hp']); try done.
    + split; [by rewrite <- Hperm|done|done].
    + exact (Hlive p Hp).
    + by apply Hr.
    + mrun Hrun. exists H, h'. split; [done|]. split; [by rewrite Hperm|done|done].
  - intros Hp. destruct (Hlive p Hp) as [b Hb]. destruct (pbuf_dechain_good n h H p b Hg Hb) as (r & h' & Hr & Hg').
    mrun Hr. by exists H, h'.
Qed.

Lemma good_empty h : heap_wf h -> h_pbufs h = ∅ -> good (h_pool h) h [].
Proof.
  intros Hwf He. split; [|done|].
  - split; intros i; rewrite ?He; try (intros b; by rewrite lookup_empty). by intros ?%not_elem_of_nil.
  - unfold pool_total, pool_used. rewrite He, map_filter_empty, map_size_empty. lia.
Qed.

(** C2: Memory safety of pbuf.c's reference counting.  A client that starts with
    no pbufs and calls pbuf_alloc, pbuf_ref, pbuf_free, pbuf_cat, pbuf_chain and
    pbuf_dechain in any order, passing only references it holds, never makes
    them use a freed pbuf or free one twice: in every state it can reach every
    allowed call returns, every reference count equals the number of pointers to
    its pbuf, every pointer leads to a live pbuf, and the pool elements in use
    and free add up.  When it has given up all its references, no pbuf is left
    and the pool is full again. *)
Theorem references_are_safe (h0 h : heap) (H : list positive) :
  heap_wf h0 -> h_pbufs h0 = ∅ -> rtc client_step (h0, []) (h, H) ->
  counted h H /\ pool_total h = h_pool h0 /\
  (forall o, allowed o H h -> is_Some (perform o H h)) /\
  (H = [] -> h_pbufs h = ∅ /\ h_pool h = h_pool h0).
Proof.
  intros Hwf He Hsteps.
  assert (good (h_pool h0) h H) as Hg.
  { apply (rtc_ind_r (fun s => good (h_pool h0) s.1 s.2)) in Hsteps; [done|by apply good_empty|].
    intros [h1 H1] [h2 H2] _ (o & Hal & Hr) Hg. simpl in *.
    destruct (perform_good _ _ _ _ Hg Hal) as (H' & h' & Hr' & Hg'). rewrite Hr in Hr'. by simplify_eq. }
  split; [apply Hg|]. split; [apply Hg|]. split.
  - intros o Hal. destruct (perform_good _ _ _ _ Hg Hal) as (H' & h' & -> & _). by eexists.
  - intros ->. pose proof (counted_nil h (good_counted _ _ _ Hg)) as Hnil. split; [done|].
    pose proof (good_pool _ _ _ Hg) as Hp. unfold pool_total, pool_used in Hp.
    rewrite Hnil, map_filter_empty, map_size_empty in Hp. lia.
Qed.

End Clients.

(** Two pbufs of 2000 bytes together, shared once, given up twice. *)
Definition demo_h1 : heap := final (perform (OpAlloc PBUF_RAW 2000 PBUF_POOL) [] empty_heap) empty_heap.
Definition demo_h2 : heap := final (perform (OpRef 1) [1%positive] demo_h1) empty_heap.
Definition demo_h3 : heap := final (perform (OpFree 1) [1%positive; 1%positive] demo_h2) empty_heap.
Definition demo_h4 : heap := final (perform (OpFree 1) [1%positive] demo_h3) empty_heap.

Lemma references_are_safe_witness :
  rtc client_step (empty_heap, []) (demo_h4, []) /\ h_pool demo_h1 = 254 /\
  h_pbufs demo_h4 = ∅ /\ h_pool demo_h4 = 256.
Proof.
  assert (rtc client_step (empty_heap, []) (demo_h4, [])) as Hsteps.
  { eapply rtc_l with (demo_h1, [1%positive]).
    { exists (OpAlloc PBUF_RAW 2000 PBUF_POOL). split; [split; lia|]. vm_compute. reflexivity. }
    eapply rtc_l with (demo_h2, [1%positive; 1%positive]).
    { exists (OpRef 1). split; [split; [apply elem_of_cons; left; reflexivity|]|vm_compute; reflexivity].
      intros b Hb. vm_compute in Hb. injection Hb as <-. vm_compute. reflexivity. }
    eapply rtc_l with (demo_h3, [1%positive]).
    { exists (OpFree 1). split; [apply elem_of_cons; left; reflexivity|vm_compute; reflexivity]. }
    eapply rtc_l with (demo_h4, []).
    { exists (OpFree 1). split; [apply elem_of_cons; left; reflexivity|vm_compute; reflexivity]. }
    apply rtc_refl. }
  split; [exact Hsteps|]. split; [vm_compute; reflexivity|].
  destruct (references_are_safe empty_heap demo_h4 [] empty_heap_wf eq_refl Hsteps) as (_ & _ & _ & H).
  exact (H eq_refl).
Defined.

(** ** Allocation *)
Section Alloc.
Context {E : PbufEnv}.

(** C19: Pool allocation is all or nothing.  pbuf_alloc(layer, n, PBUF_POOL) takes
    exactly the elements n bytes need: with enough of them free it returns a
    packet of n bytes made of new pbufs with one reference each, and touches
    nothing older; with fewer it returns NULL, and every pbuf, every byte and the
    pool are as before. *)
Theorem pool_alloc_all_or_nothing (h : heap) (layer : pbuf_layer) (n : Z) :
  heap_wf h -> 0 <= n < 65536 -> 0 <= h_pool h ->
  let need := pool_need n (layer_offset layer) in
  exists h', if decide (need <= h_pool h)
    then exists l, pbuf_alloc layer n PBUF_POOL h = Some (Some (h_next h), h') /\
      packet h' (Some (h_next h)) l /\ sum_len l = n /\ lenZ l = need /\ h_pool h' = h_pool h - need /\
      Forall (fresh_pool (h_next h)) l /\
      (forall i, (i < h_next h)%positive -> h_mem h' !! i = h_mem h !! i /\ h_pbufs h' !! i = h_pbufs h !! i)
    else pbuf_alloc layer n PBUF_POOL h = Some (None, h') /\
      h_pbufs h' = h_pbufs h /\ h_mem h' = h_mem h /\ h_pool h' = h_pool h /\ h_ref h' = h_ref h.
Proof.
  intros Hwf Hn Hp need. case_decide as Hd.
  - destruct (pbuf_alloc_pool_run h layer n Hwf Hn Hd) as (h' & l & Hr & []). exists h', l.
    split_and!; try done. intros i Hi. split; [by auto|by rewrite pr_pbufs].
  - destruct (pbuf_alloc_pool_fail h layer n Hwf Hn ltac:(lia)) as (h' & Hr & H). by exists h'.
Qed.

(** ** Bytes *)

(** C29: pbuf_take and pbuf_copy_partial are a faithful pair whatever the chain
    is split into: taking [n] bytes of [data] into a packet succeeds, changes
    nothing but the packet's first [n] bytes, and any window of the packet read
    back is the window of the updated bytes; in particular the bytes taken come
    back unchanged. *)
Theorem take_then_copy_partial (h : heap) (i : positive) (l : list (positive * pbuf)) (data : list Z) (n off m : Z) :
  packet h (Some i) l -> NoDup (blks l) -> 0 <= n <= sum_len l -> n <= lenZ data ->
  0 <= off < 65536 -> 0 <= m < 65536 ->
  exists h', pbuf_take (Some i) (Some data) n h = Some (ERR_OK, h') /\ writes (blks l) h h' /\
    (let d := overwrite (chain_data h l) 0 (slice data 0 n) in
     pbuf_copy_partial (Some i) true m off h' = Some ((lenZ (slice d off m), slice d off m), h')) /\
    pbuf_copy_partial (Some i) true n 0 h' = Some ((n, slice data 0 n), h').
Proof.
  intros Hp Hnd Hn Hd Hoff Hm.
  destruct (pbuf_take_run h i l data n Hp Hnd ltac:(lia) ltac:(lia) Hd) as (h' & Hr & W & Hcd & _).
  pose proof (writes_packet _ _ _ _ _ W Hp) as Hp'. pose proof (packet_small _ _ _ Hp).
  exists h'. split; [done|]. split; [done|]. split.
  - rewrite (pbuf_copy_partial_run h' i l m off Hp' Hm Hoff). by rewrite Hcd.
  - rewrite (pbuf_copy_partial_run h' i l n 0 Hp' ltac:(lia) ltac:(lia)), Hcd.
    assert (lenZ (slice data 0 n) = n) as Hlen by (apply length_slice; lia).
    pose proof (length_chain_data h (Some i) l Hp).
    assert (slice (overwrite (chain_data h l) 0 (slice data 0 n)) 0 n = slice data 0 n) as ->; [|by rewrite Hlen].
    rewrite <- Hlen at 2. apply slice_overwrite; lia.
Qed.

(** The byte accessors are those of one array: pbuf_get_at and pbuf_put_at
    read and write byte [off] of the packet, whichever pbuf it lies in, a read
    behind the end gives 0 and a write there changes nothing. *)
Theorem get_put_at (h : heap) (p : option positive) (l : list (positive * pbuf)) (off v off' : Z) :
  mem_ok h -> packet h p l -> NoDup (blks l) -> 0 <= off < 65536 -> 0 <= off' < 65536 -> is_byte v ->
  exists h', pbuf_put_at p off v h = Some (tt, h') /\ writes (blks l) h h' /\
    chain_data h' l = <[Z.to_nat off := v]> (chain_data h l) /\
    pbuf_get_at p off' h =
      Some (if off' <? sum_len l then byte_at (chain_data h l) off' else 0, h).
Proof.
  intros Hm Hp Hnd Ho Ho' Hv. destruct (pbuf_put_at_run h p l off v Hp Hnd Ho) as (h' & Hr & W & Hd).
  exists h'. split; [done|]. split; [done|]. split; [done|].
  rewrite (pbuf_get_at_run h p l off' Hm Hp Ho'). pose proof (length_chain_data _ _ _ Hp) as Hl.
  case_if.
  - rewrite lookup_lenZ by lia. done.
  - rewrite (proj2 (lookup_ge_None (chain_data h l) (Z.to_nat off'))) by lia. done.
Qed.

(** Searching a packet: pbuf_memfind returns the first offset from [start] on
    at which the bytes of [mem] stand, across pbuf boundaries, and 0xFFFF
    exactly if there is none; pbuf_memcmp is 0 exactly if the packet's window
    equals the buffer. *)
Theorem memfind_memcmp (h : heap) (p : positive) (l : list (positive * pbuf)) (mem : list Z) (start : Z) :
  mem_ok h -> packet h (Some p) l -> sum_len l < 0xFFFF -> 0 <= start ->
  (exists r, pbuf_memfind (Some p) mem (lenZ mem) start h = Some (r, h) /\
     first_occurrence (chain_data h l) mem start r) /\
  (start + lenZ mem <= sum_len l ->
   exists r, pbuf_memcmp (Some p) start mem (lenZ mem) h = Some (r, h) /\
     (r = 0 <-> slice (chain_data h l) start (lenZ mem) = mem)).
Proof.
  intros Hm Hp Hs Hst. split; [by apply pbuf_memfind_run|]. intros Hle.
  eexists. split; [apply (pbuf_memcmp_run h p l start mem (lenZ mem)); try done; lia|].
  pose proof (length_chain_data _ _ _ Hp) as Hl. rewrite (slice_full mem) by done.
  apply first_diff_0; [lia|].
  pose proof (length_slice (chain_data h l) start (lenZ mem) Hst ltac:(lia) ltac:(lia)). lia.
Qed.

End Alloc.

Section Headers.
Context {E : PbufEnv}.

(** Removing a header and putting it back is the identity: pbuf_remove_header
    drops the first [n] bytes of a packet - the following pbufs and all memory
    are untouched - and pbuf_add_header then restores the very same heap. *)
Theorem remove_add_header (h : heap) (p : positive) (b : pbuf) (r : list (positive * pbuf)) (o n : Z) :
  packet h (Some p) ((p, b) :: r) -> payload b = Some (Ptr p o) ->
  Z.land (type_internal b) PBUF_TYPE_FLAG_STRUCT_DATA_CONTIGUOUS <> 0 ->
  SIZEOF_STRUCT_PBUF <= o -> 0 < n <= len b ->
  exists h1 b1, pbuf_remove_header (Some p) n h = Some (false, h1) /\ h_mem h1 = h_mem h /\
    packet h1 (Some p) ((p, b1) :: r) /\
    chain_data h1 ((p, b1) :: r) = drop (Z.to_nat n) (chain_data h ((p, b) :: r)) /\
    pbuf_add_header (Some p) n h1 = Some (false, h).
Proof.
  intros Hp Hpl Hc Ho Hn. pose proof (packet_cons_inv _ _ _ _ _ Hp) as (_ & Hi & _ & ? & Ht & _ & ? & ?).
  rewrite (pbuf_remove_header_run h p b p o n Hi Hpl ltac:(lia) ltac:(lia) ltac:(lia)).
  destruct (remove_header_packet h p b r p o n Hp Hpl ltac:(lia) ltac:(lia)) as [Hp1 Hd1].
  set (b1 := move_payload b p o (- n)) in *. eexists _, b1. split; [done|]. split; [done|]. split; [done|].
  split; [done|].
  assert (payload b1 = Some (Ptr p (o + n))) as Hpl1 by (unfold b1; simpl; do 2 f_equal; lia).
  assert (tot_len b1 = tot_len b - n) as Ht1 by (unfold b1; simpl; rewrite u16_small; lia).
  rewrite (pbuf_add_header_run _ p b1 (o + n) n); [|apply lookup_insert_eq|done|done|lia|lia|lia|lia].
  do 2 f_equal. simpl. unfold set_pbufs. simpl. rewrite insert_insert_eq.
  assert (move_payload b1 p (o + n) n = b) as ->; [|rewrite insert_id by done; by destruct h].
  unfold move_payload, b1. destruct b; simpl in *.
  rewrite !(u16_small (_ + - n)) by lia. rewrite !u16_small by lia.
  rewrite Hpl. do 3 f_equal; lia.
Qed.

(** Pbuf_add_header never runs into the pbuf's own struct or wraps: for a
    contiguous pbuf it succeeds, moving the payload back by [n], exactly when
    [n] bytes lie between the struct and the payload and the packet stays below
    64 KiB; otherwise it reports failure and changes nothing. *)
Theorem add_header_exact (h : heap) (p : positive) (b : pbuf) (o n : Z) :
  h_pbufs h !! p = Some b -> payload b = Some (Ptr p o) ->
  Z.land (type_internal b) PBUF_TYPE_FLAG_STRUCT_DATA_CONTIGUOUS <> 0 ->
  0 <= len b <= tot_len b -> tot_len b < 65536 -> 0 < n ->
  pbuf_add_header (Some p) n h =
    Some (if (SIZEOF_STRUCT_PBUF + n <=? o) && (tot_len b + n <=? 0xFFFF)
          then (false, set_pbufs (<[p := move_payload b p o n]> (h_pbufs h)) h) else (true, h)).
Proof.
  intros Hi Hpl Hc Hl Ht Hn. destruct ((_ <=? _) && _) eqn:Hok; b2p.
  - by rewrite (pbuf_add_header_run h p b o n) by (done || lia).
  - unfold pbuf_add_header, pbuf_add_header_impl. rewrite (proj2 (Z.eqb_neq n 0)) by lia.
    destruct (0xFFFF <? n) eqn:Hbig; [done|]. b2p. mrun (get_pbuf_run _ _ _ Hi).
    rewrite (u16_small n) by lia. destruct (u16 (n + tot_len b) <? n) eqn:Hov; [done|]. b2p.
    rewrite Hpl. rewrite (proj2 (Z.eqb_neq _ 0) Hc). cbn [negb]. rewrite decide_True by done.
    destruct (_ <? _) eqn:Hroom; [done|]. b2p. exfalso.
    apply andb_false_iff in Hok as [Hk|Hk]; b2p; [lia|].
    assert (u16 (n + tot_len b) = n + tot_len b - 65536) by ulia. lia.
Qed.

(** Pbuf_cat concatenates: two packets that share no pbuf become one packet
    whose bytes are those of the first followed by those of the second, without
    a byte being moved. *)
Theorem cat_concatenates (h : heap) (p t : positive) (l lt : list (positive * pbuf)) :
  packet h (Some p) l -> packet h (Some t) lt -> (forall k, k ∈ l.*1 -> k ∉ lt.*1) ->
  sum_len l + sum_len lt < 65536 ->
  exists h' l', pbuf_cat (Some p) (Some t) h = Some (tt, h') /\ packet h' (Some p) l' /\
    chain_data h' l' = chain_data h l ++ chain_data h lt /\ l'.*1 = l.*1 ++ lt.*1 /\
    h_mem h' = h_mem h /\ forall k, k ∉ l.*1 -> h_pbufs h' !! k = h_pbufs h !! k.
Proof.
  intros Hp Ht Hd Hs. destruct (pbuf_cat_run h p t l lt Hp Ht Hd Hs) as (h' & l' & Hr & Hp' & Hd' & Hf & Hm & _ & Ho).
  exists h', (l' ++ lt). split; [done|]. split; [done|]. split; [|split; [by rewrite fmap_app, Hf|done]].
  rewrite chain_data_app, Hd'. by rewrite (chain_data_mem h h').
Qed.

(** Pbuf_realloc truncates: afterwards the packet holds its first [n] bytes
    (all of them, if it was shorter), is again well-formed, and nothing outside
    its pbufs has changed - wherever the cut falls, and whether or not the rest
    of the chain is shared. *)
Theorem realloc_truncates (h : heap) (i : positive) (l : list (positive * pbuf)) (n : Z) :
  packet h (Some i) l -> Forall (owned h) l -> 0 <= n ->
  exists h' l', pbuf_realloc (Some i) n h = Some (tt, h') /\ packet h' (Some i) l' /\
    chain_data h' l' = take (Z.to_nat n) (chain_data h l) /\ sum_len l' = Z.min n (sum_len l) /\
    (forall j, j ∉ l.*1 -> h_pbufs h' !! j = h_pbufs h !! j /\ h_mem h' !! j = h_mem h !! j).
Proof.
  intros Hp Ho Hn. destruct (pbuf_realloc_run h i l n Hp Ho Hn) as (h' & l' & Hr & Hp' & Hd & Hout).
  exists h', l'. split_and!; try done.
  pose proof (length_chain_data _ _ _ Hp') as H1. pose proof (length_chain_data _ _ _ Hp) as H2.
  rewrite Hd, length_take in H1. lia.
Qed.

(** Pbuf_clone makes one contiguous copy: with memory for it the result is a
    single new PBUF_RAM pbuf with the bytes of the whole chain, and no older
    pbuf or block is touched. *)
Theorem clone_copies (h : heap) (i : positive) (l : list (positive * pbuf)) (layer : pbuf_layer) :
  heap_wf h -> packet h (Some i) l -> all_pos l ->
  LWIP_MEM_ALIGN_SIZE (layer_offset layer) + LWIP_MEM_ALIGN_SIZE (sum_len l) < 65536 ->
  heap_admits (h_mem h) (ram_size layer (sum_len l)) = true ->
  exists h' b, pbuf_clone layer PBUF_RAM (Some i) h = Some (Some (h_next h), h') /\
    packet h' (Some (h_next h)) [(h_next h, b)] /\ ref b = 1 /\
    chain_data h' [(h_next h, b)] = chain_data h l /\ extends h h'.
Proof.
  intros Hwf Hp Hpos Hs Ha. destruct (pbuf_clone_run h i l layer Hwf Hp Hpos Hs Ha) as (h' & Hr & Hx & Hp' & Hd).
  exists h', (ram_pbuf (h_next h) layer (sum_len l)). by split_and!.
Qed.

End Headers.

(** ** Witnesses: a packet of 2000 bytes in two pool pbufs *)
Definition demo_l : list (positive * pbuf) :=
  [(1%positive, Pbuf (Some 2%positive) (Some (Ptr 1 64)) 2000 1728 0x82 0 1 0 None);
   (2%positive, Pbuf None (Some (Ptr 2 64)) 272 272 0x82 0 1 0 None)].

(** Closed facts by evaluation. *)
Local Ltac eval_done := vm_compute; first [reflexivity | discriminate | (split; (reflexivity || discriminate))].

Lemma demo_payload (i : positive) (b : pbuf) :
  (i, b) ∈ demo_l -> exists bs, h_mem demo_h1 !! i = Some bs /\ lenZ bs = 1792.
Proof.
  intros [H|[H|[]%not_elem_of_nil]%elem_of_cons]%elem_of_cons; injection H as -> ->;
    eexists; (split; [vm_compute; reflexivity|vm_compute; reflexivity]).
Qed.

Lemma demo_packet : packet demo_h1 (Some 1%positive) demo_l.
Proof.
  assert (forall i b, (i, b) ∈ demo_l -> payload_ok demo_h1 b) as Hok.
  { intros i b Hi. destruct (demo_payload i b Hi) as (bs & Hbs & Hl). right. exists i, 64, bs.
    apply elem_of_cons in Hi as [H|[H|[]%not_elem_of_nil]%elem_of_cons]; injection H as -> ->;
      (split; [reflexivity|]; split; [exact Hbs|]; split; [lia|]; rewrite Hl; simpl; lia). }
  apply packet_cons; [eval_done| |simpl; lia|reflexivity| |simpl; lia].
  - apply packet_cons; [eval_done|apply packet_nil|simpl; lia|reflexivity| |simpl; lia].
    apply (Hok 2%positive). apply elem_of_cons. right. apply elem_of_cons. by left.
  - apply (Hok 1%positive). apply elem_of_cons. by left.
Qed.

Lemma demo_blks : NoDup (blks demo_l).
Proof. change (blks demo_l) with [1%positive; 2%positive]. by repeat constructor; set_solver. Qed.

Lemma demo_mem_ok : mem_ok demo_h1.
Proof.
  intros i bs Hi. apply bytes_ok_dec.
  assert (map_Forall (fun _ bs => forallb (fun b => (0 <=? b) && (b <? 256)) bs = true) (h_mem demo_h1)) as H; [|exact (H i bs Hi)].
  apply (bool_decide_unpack _). vm_compute. exact I.
Qed.

Lemma demo_wf : heap_wf demo_h1.
Proof.
  destruct (pbuf_alloc_counted empty_heap [] PBUF_RAW 2000 PBUF_POOL empty_heap_wf
    (good_counted _ _ _ (good_empty empty_heap empty_heap_wf eq_refl)) ltac:(lia)) as (r & h' & Hr & _ & Hwf & _).
  assert (h' = demo_h1) as ->; [|exact Hwf]. unfold demo_h1. cbn [perform]. by rewrite (bind_run _ _ _ _ _ Hr).
Qed.

Lemma take_then_copy_partial_witness :
  exists h', pbuf_take (Some 1%positive) (Some [10; 20; 30]) 3 demo_h1 = Some (ERR_OK, h') /\
    pbuf_copy_partial (Some 1%positive) true 3 0 h' = Some ((3, [10; 20; 30]), h').
Proof.
  destruct (take_then_copy_partial demo_h1 1%positive demo_l [10; 20; 30] 3 0 3) as (h' & Hr & _ & _ & Hc).
  - exact demo_packet.
  - exact demo_blks.
  - simpl. lia.
  - simpl. lia.
  - lia.
  - lia.
  - exists h'. split; [exact Hr|exact Hc].
Defined.

Lemma get_put_at_witness :
  exists h', pbuf_put_at (Some 1%positive) 1800 7 demo_h1 = Some (tt, h') /\
    chain_data h' demo_l = <[1800%nat := 7]> (chain_data demo_h1 demo_l).
Proof.
  destruct (get_put_at demo_h1 (Some 1%positive) demo_l 1800 7 0) as (h' & Hr & _ & Hd & _).
  - exact demo_mem_ok.
  - exact demo_packet.
  - exact demo_blks.
  - lia.
  - lia.
  - split; lia.
  - exists h'. split; [exact Hr|exact Hd].
Defined.

Lemma memfind_memcmp_witness :
  exists r, pbuf_memfind (Some 1%positive) [0xA5; 0xA5] 2 1727 demo_h1 = Some (r, demo_h1) /\
    first_occurrence (chain_data demo_h1 demo_l) [0xA5; 0xA5] 1727 r.
Proof.
  apply (memfind_memcmp demo_h1 1%positive demo_l [0xA5; 0xA5] 1727).
  - exact demo_mem_ok.
  - exact demo_packet.
  - simpl. lia.
  - lia.
Defined.

Lemma remove_add_header_witness :
  exists h1 b1, pbuf_remove_header (Some 1%positive) 14 demo_h1 = Some (false, h1) /\
    packet h1 (Some 1%positive) ((1%positive, b1) :: tail demo_l) /\
    pbuf_add_header (Some 1%positive) 14 h1 = Some (false, demo_h1).
Proof.
  destruct (remove_add_header demo_h1 1%positive (Pbuf (Some 2%positive) (Some (Ptr 1 64)) 2000 1728 0x82 0 1 0 None)
    (tail demo_l) 64 14) as (h1 & b1 & Hr & _ & Hp & _ & Ha).
  - exact demo_packet.
  - reflexivity.
  - vm_compute. discriminate.
  - vm_compute. discriminate.
  - simpl. lia.
  - exists h1, b1. split; [exact Hr|]. split; [exact Hp|exact Ha].
Defined.

Lemma add_header_exact_witness :
  pbuf_add_header (Some 1%positive) 14 demo_h1 = Some (true, demo_h1).
Proof.
  rewrite (add_header_exact demo_h1 1%positive (Pbuf (Some 2%positive) (Some (Ptr 1 64)) 2000 1728 0x82 0 1 0 None) 64 14).
  - reflexivity.
  - vm_compute. reflexivity.
  - reflexivity.
  - vm_compute. discriminate.
  - simpl. lia.
  - simpl. lia.
  - lia.
Defined.

Lemma realloc_truncates_witness :
  exists h' l', pbuf_realloc (Some 1%positive) 100 demo_h1 = Some (tt, h') /\ packet h' (Some 1%positive) l' /\
    sum_len l' = 100.
Proof.
  destruct (realloc_truncates demo_h1 1%positive demo_l 100) as (h' & l' & Hr & Hp & _ & Hs & _).
  - exact demo_packet.
  - repeat apply Forall_cons_2; [| |apply Forall_nil_2];
      (split; [split; [reflexivity|vm_compute; split; discriminate]|]; split; [vm_compute; eexists; reflexivity|];
       split; [simpl; lia|]; exists 64; split; [reflexivity|lia]).
  - lia.
  - exists h', l'. split; [exact Hr|]. split; [exact Hp|exact Hs].
Defined.

Lemma pool_alloc_all_or_nothing_witness :
  exists h', pbuf_alloc PBUF_RAW 4000 PBUF_POOL small_heap = Some (None, h') /\ h_pool h' = 2.
Proof.
  destruct (pool_alloc_all_or_nothing small_heap PBUF_RAW 4000) as (h' & H).
  - exact small_heap_wf.
  - lia.
  - vm_compute. discriminate.
  - rewrite decide_False in H by (vm_compute; intros Hc; exact (Hc eq_refl)).
    destruct H as (Hr & _ & _ & Hp & _). exists h'. split; [exact Hr|exact Hp].
Defined.

Lemma clone_copies_witness :
  exists h' b, pbuf_clone PBUF_IP PBUF_RAM (Some 1%positive) demo_h1 = Some (Some 3%positive, h') /\
    packet h' (Some 3%positive) [(3%positive, b)] /\ chain_data h' [(3%positive, b)] = chain_data demo_h1 demo_l.
Proof.
  destruct (clone_copies demo_h1 1%positive demo_l PBUF_IP) as (h' & b & Hr & Hp & _ & Hd & _).
  - exact demo_wf.
  - exact demo_packet.
  - repeat apply Forall_cons_2; [simpl; lia|simpl; lia|apply Forall_nil_2].
  - vm_compute. reflexivity.
  - vm_compute. reflexivity.
  - exists h', b. split; [exact Hr|]. split; [exact Hp|exact Hd].
Defined.

(** A second packet: 20 bytes in a PBUF_RAM pbuf. *)
Definition demo_ram : heap := with_new demo_h1 (ram_size PBUF_RAW 20) (ram_pbuf 3 PBUF_RAW 20) 0 0.

Lemma cat_concatenates_witness :
  exists h' l', pbuf_cat (Some 1%positive) (Some 3%positive) demo_ram = Some (tt, h') /\
    packet h' (Some 1%positive) l' /\ sum_len l' = 2020.
Proof.
  destruct (cat_concatenates demo_ram 1%positive 3%positive demo_l [(3%positive, ram_pbuf 3 PBUF_RAW 20)])
    as (h' & l' & Hr & Hp & Hd & _).
  - apply (extends_packet demo_h1); [exact demo_wf|apply with_new_extends|exact demo_packet].
  - apply (ram_packet demo_h1 PBUF_RAW 20 demo_wf). lia.
  - set_solver.
  - simpl. lia.
  - exists h', l'. split; [exact Hr|]. split; [exact Hp|].
    pose proof (length_chain_data _ _ _ Hp) as Hl. rewrite Hd, length_app in Hl.
    assert (lenZ (chain_data demo_ram demo_l) = 2000) as H1 by (vm_compute; reflexivity).
    assert (lenZ (chain_data demo_ram [(3%positive, ram_pbuf 3 PBUF_RAW 20)]) = 20) as H2 by (vm_compute; reflexivity).
    lia.
Defined.
