(* ===== verification/InetChksumProps.v ===== *)
(** * Internet checksums: the properties of core/inet_chksum.c and core/def.c *)
From S2P Require Import Prelude Def Pbuf PbufFacts PbufProps InetChksum Examples.

(** C35: The three versions of lwip_standard_chksum are one function.  On any
    buffer an IP packet can hold, at any address - odd, even, 4-byte aligned or
    not - each computes RFC 1071's one's complement sum of the 16-bit words, in
    the byte order of memory: none of the 32-bit accumulators overflows in a way
    that shows, and the odd-address byte swaps cancel. *)
Theorem chksum_versions_agree (addr : Z) (d : list Z) :
  bytes_ok d -> lenZ d <= 65536 ->
  lwip_standard_chksum addr d = ocsum (osum d) /\ lwip_standard_chksum2 addr d = ocsum (osum d) /\
  lwip_standard_chksum1 d = ocsum (osum d).
Proof.
  intros Hb Hl. split; [by apply chksum3_spec|]. split; [apply chksum2_spec; [done|lia]|].
  apply chksum1_spec; [done|lia].
Qed.


(** A checksum inserted verifies.  Compute inet_chksum over a buffer whose
    checksum field - two bytes at an even offset - is zero and store the result
    there: inet_chksum over the whole buffer, wherever it then lies, is 0, which
    is the test every receiver makes. *)
Theorem inserted_checksum_verifies (addr addr' : Z) (a b : list Z) :
  bytes_ok a -> bytes_ok b -> Z.even (lenZ a) = true -> lenZ a + 2 + lenZ b <= 65536 ->
  inet_chksum addr' (a ++ st16 (inet_chksum addr (a ++ [0; 0] ++ b)) ++ b) = 0.
Proof. apply inserted_verifies. Qed.

(** Htons and htonl are byte swaps: involutions on their machine words whose
    result, stored by the little-endian CPU, has the most significant byte
    first. *)
Theorem byte_order (n : Z) :
  (0 <= n < 65536 -> lwip_htons (lwip_htons n) = n /\ st16 (lwip_htons n) = [n / 256; n mod 256]) /\
  (0 <= n < 4294967296 -> lwip_htonl (lwip_htonl n) = n /\
    st32 (lwip_htonl n) = [n / 16777216; (n / 65536) mod 256; (n / 256) mod 256; n mod 256]).
Proof.
  split; intros Hn.
  - split; [by apply lwip_htons_involutive|]. rewrite lwip_htons_eq by done. unfold st16. f_equal; [|f_equal]; ulia.
  - split; [by apply lwip_htonl_involutive|].
    destruct (of_bytes4_surj n Hn) as (a & b & c & d & Ha & Hb & Hc & Hd & ->).
    rewrite lwip_htonl_bytes by done. destruct (of_bytes4_digits a b c d Ha Hb Hc Hd) as (_ & -> & -> & -> & ->).
    destruct (of_bytes4_digits d c b a Hd Hc Hb Ha) as (? & H1 & H2 & H3 & H4).
    unfold st32, st16. set (m := of_bytes4 d c b a) in *. simpl.
    rewrite <- H1, <- H2, <- H3, <- H4. repeat (apply (f_equal2 cons); [ulia|]). done.
Qed.

(** ** Witnesses *)
Lemma chksum_versions_agree_witness :
  lwip_standard_chksum 1 [1; 2; 3; 4; 5] = 1545 /\ ocsum (osum [1; 2; 3; 4; 5]) = 1545.
Proof.
  split; [|vm_compute; reflexivity].
  rewrite (proj1 (chksum_versions_agree 1 [1; 2; 3; 4; 5] ltac:(apply bytes_ok_dec; vm_compute; reflexivity) ltac:(simpl; lia))).
  vm_compute. reflexivity.
Defined.


Lemma inserted_checksum_verifies_witness :
  inet_chksum 0 [1; 2; 0; 0; 3] = 65019 /\ inet_chksum 1 ([1; 2] ++ st16 65019 ++ [3]) = 0.
Proof.
  split; [vm_compute; reflexivity|].
  apply (inserted_checksum_verifies 0 1 [1; 2] [3]);
    [apply bytes_ok_dec; vm_compute; reflexivity|apply bytes_ok_dec; vm_compute; reflexivity|reflexivity|simpl; lia].
Defined.

Lemma byte_order_witness : lwip_htons 0x0800 = 8 /\ st16 (lwip_htons 0x0800) = [8; 0].
Proof. split; [reflexivity|]. apply (proj2 (proj1 (byte_order 0x0800) ltac:(lia))). Defined.
