(* ===== verification/NetProps.v ===== *)
(** * Interfaces and addresses: the properties of core/netif.c and
    core/ipv4/ip4_addr.c *)
From S2P Require Import Prelude Triple Def Pbuf Netif NetifInv Ip4Addr Node RpmsgFreeRTOS Examples.

(** ** Interfaces *)
Section Netifs.
Context {S : Type} {P : part S netifs} {D : NetifDeps S} {PD : PoliteDeps}.

Lemma nums_inj tab l j k n n' :
  NoDup l -> NoDup (nums tab l) -> j ∈ l -> k ∈ l -> tab !! j = Some n -> tab !! k = Some n' -> num n = num n' -> j = k.
Proof.
  intros Hl Hn. induction l as [|i l IH]; [by intros ?%not_elem_of_nil|]. intros Hj Hk Ej Ek Heq.
  apply NoDup_cons in Hl as [Hi Hl].
  assert (forall m x, m ∈ l -> tab !! m = Some x -> num x ∈ nums tab l) as Hin.
  { intros m x Hm Ex. unfold nums. apply list_elem_of_omap. exists m. split; [done|]. by rewrite Ex. }
  unfold nums in Hn. csimpl in Hn.
  apply elem_of_cons in Hj as [->|Hj], Hk as [->|Hk]; [done|..].
  - rewrite Ej in Hn. simpl in Hn. apply NoDup_cons in Hn as [Hn _]. destruct Hn. rewrite Heq. by apply (Hin k n').
  - rewrite Ek in Hn. simpl in Hn. apply NoDup_cons in Hn as [Hn _]. destruct Hn. rewrite <- Heq. by apply (Hin j n).
  - apply IH; try done. destruct (num <$> tab !! i); [by apply NoDup_cons in Hn as [_ Hn]|done].
Qed.

Lemma get_by_index_run s j n :
  netifs_ok (get_part s) -> j ∈ netif_list (get_part s) -> nif (get_part s) !! j = Some n ->
  netif_get_by_index (netif_get_index n) s = Some (Some j, s).
Proof.
  intros [Hl Hd Hn Hr Hx] Hj Ej. set (g := get_part s) in *.
  assert (forall k x, k ∈ netif_list g -> nif g !! k = Some x -> 0 <= num x <= 254) as Hrange.
  { intros k x Hk Ex. rewrite Forall_forall in Hr. apply Hr. apply list_elem_of_omap. exists k. split; [done|]. by rewrite Ex. }
  pose proof (Hrange j n Hj Ej) as Hnj.
  unfold netif_get_by_index, netif_get_index, NETIF_NO_INDEX. rewrite u8_small by lia.
  rewrite (proj2 (Z.eqb_neq (num n + 1) 0)) by lia. cbn [negb].
  unfold mbind, M_bind, zoom, get, mret, M_ret. rewrite set_get_part. fold g. do 2 f_equal.
  destruct (find_netif _ _ _) as [k|] eqn:Hf.
  - apply find_netif_Some in Hf as (Hk & x & Ex & Hix). b2p. pose proof (Hrange k x Hk Ex).
    unfold netif_get_index in Hix. rewrite u8_small in Hix by lia. f_equal. eapply nums_inj; [exact Hd|exact Hn|exact Hk|exact Hj|exact Ex|exact Ej|lia].
  - exfalso. pose proof (find_netif_None _ _ _ j n Hl Hf Hj Ej) as Hix. unfold netif_get_index in Hix.
    rewrite u8_small in Hix by lia. b2p. lia.
Qed.

(** Netif_add gives every interface a number of its own.  With at most 254
    interfaces in use and a driver init function that only fills in its netif,
    netif_add returns - the search for a free number ends -, the new netif heads
    the list exactly if init succeeded, the other interfaces keep their numbers,
    and afterwards every listed interface has an index between 1 and 255 by
    which netif_get_by_index finds that interface and no other. *)
Theorem netif_add_numbers (s : S) (i : positive) (a m w : option Z) (st : Z)
    (init : positive -> M S err_t) (inp : input_fn) :
  netifs_ok (get_part s) -> is_Some (nif (get_part s) !! i) -> i ∉ netif_list (get_part s) ->
  (length (netif_list (get_part s)) <= 254)%nat -> fills_in i init ->
  exists r s', netif_add (Some i) a m w st (Some init) inp s = Some (r, s') /\
    netif_list (get_part s') = (match r with Some _ => [i] | None => [] end) ++ netif_list (get_part s) /\
    netifs_ok (get_part s') /\
    forall j n, j ∈ netif_list (get_part s') -> nif (get_part s') !! j = Some n ->
      1 <= netif_get_index n <= 255 /\ netif_get_by_index (netif_get_index n) s' = Some (Some j, s').
Proof.
  intros Ho Hi Hni Hlen Hinit.
  destruct (add_total (get_part s) i a m w st init inp Ho Hi Hni Hlen Hinit s eq_refl) as (r & s' & Hr & Ho' & _ & Hm).
  exists r, s'. split; [done|]. split; [destruct r as [j|]; [by destruct Hm as (_ & -> & _)|by rewrite Hm]|].
  split; [done|]. intros j n Hj Ej. split; [|by apply get_by_index_run].
  pose proof (netifs_range _ Ho') as Hrg. rewrite Forall_forall in Hrg.
  assert (0 <= num n <= 254).
  { apply Hrg, list_elem_of_omap. exists j. split; [done|]. by rewrite Ej. }
  unfold netif_get_index. rewrite u8_small by lia. lia.
Qed.

(** Netif_remove takes an interface out for good: it returns, the interface
    is off the list and no longer the default, the others stay in order with
    their numbers, and no index leads to it any more. *)
Theorem netif_remove_forgets (s : S) (i : positive) :
  netifs_ok (get_part s) -> is_Some (nif (get_part s) !! i) ->
  exists s', netif_remove (Some i) s = Some (tt, s') /\ netifs_ok (get_part s') /\
    i ∉ netif_list (get_part s') /\ netif_list (get_part s') `sublist_of` netif_list (get_part s) /\
    netif_default (get_part s') <> Some i /\
    forall idx, exists r, netif_get_by_index idx s' = Some (r, s') /\ r <> Some i.
Proof.
  intros Ho Hi. destruct (remove_total (get_part s) i Ho Hi s eq_refl) as ([] & s' & Hr & Ho' & Hl & Hd).
  assert (i ∉ netif_list (get_part s')) as Hni.
  { rewrite Hl. apply remove_first_NoDup. apply Ho. }
  exists s'. split; [done|]. split; [done|]. split; [done|]. split; [|split].
  - rewrite Hl. generalize (netif_list (get_part s)). intros l. induction l as [|k l IH]; [done|]. simpl.
    destruct (decide (i = k)); [by constructor|by apply sublist_skip].
  - rewrite Hd. destruct (decide _); congruence.
  - intros idx. unfold netif_get_by_index. destruct (negb _).
    + unfold mbind, M_bind, zoom, get, mret, M_ret. rewrite set_get_part. eexists. split; [done|].
      intros [Hin _]%find_netif_Some. done.
    + by eexists.
Qed.

End Netifs.

(** ** Addresses *)

(** Ip4_addr_netmask_valid accepts exactly the 33 netmasks: ones followed by
    zeros in network byte order. *)
Theorem netmask_valid_exact (nm : Z) :
  0 <= nm < 4294967296 ->
  ip4_addr_netmask_valid nm = true <-> exists r, 0 <= r <= 32 /\ lwip_htonl nm = 2 ^ 32 - 2 ^ r.
Proof.
  intros Hnm. unfold ip4_addr_netmask_valid. pose proof (lwip_htonl_bound nm) as Hb.
  set (h := lwip_htonl nm) in *.
  pose proof (skip_ones_spec 32 h) as (Hr & Hh & Hlt). set (k := skip_ones 32 h) in *. cbv zeta in *.
  change (2 ^ Z.of_nat 32) with 4294967296 in *. rewrite (Z.mod_small h 4294967296) in Hh by done.
  rewrite no_ones_spec. change (2 ^ 32) with 4294967296.
  pose proof (Z.mod_pos_bound h (2 ^ Z.of_nat k) ltac:(lia)). split.
  - intros H0. exists (Z.of_nat k). lia.
  - intros (r & Hr' & He).
    assert (2 ^ r = 2 ^ Z.of_nat k - h mod 2 ^ Z.of_nat k) as Hpow by lia.
    destruct (decide (k = O)) as [->|Hk]; [by rewrite Z.mod_1_r|].
    specialize (Hlt Hk). destruct (Z.lt_trichotomy r (Z.of_nat k)) as [?|[->|?]]; [|lia|].
    + assert (2 ^ r <= 2 ^ (Z.of_nat k - 1)) by (apply Z.pow_le_mono_r; lia).
      assert (2 ^ Z.of_nat k = 2 * 2 ^ (Z.of_nat k - 1)) by (rewrite <- Z.pow_succ_r by lia; f_equal; lia).
      lia.
    + assert (2 ^ Z.of_nat k < 2 ^ r) by (apply Z.pow_lt_mono_r; lia). lia.
Qed.

(** An address is a broadcast address on an interface exactly if it is all
    zeros, all ones, or the interface can broadcast and it is the interface's
    own network with all host bits set - unless that is the interface's own
    address. *)
Theorem broadcast_exact (addr : Z) (n : netif) :
  0 <= addr < 4294967296 -> 0 <= ip_addr n < 4294967296 -> 0 <= netmask n < 4294967296 ->
  ip4_addr_isbroadcast_u32 addr n = true <->
  addr = 0 \/ addr = 0xffffffff \/
  (has_flag n NETIF_FLAG_BROADCAST = true /\ addr <> ip_addr n /\
   addr = Z.lor (Z.land (ip_addr n) (netmask n)) (unot (netmask n))).
Proof.
  intros Ha Hi Hn. unfold ip4_addr_isbroadcast_u32, has_flag, ip4_addr_netcmp, IPADDR_ANY.
  rewrite unot_eq by done. pose proof (directed_broadcast addr (ip_addr n) (netmask n) Ha Hi Hn) as Hd.
  destruct (Z.eqb_spec (4294967295 - addr) 0); [simpl; lia|].
  destruct (Z.eqb_spec addr 0); [simpl; lia|]. simpl.
  destruct (Z.land (flags n) NETIF_FLAG_BROADCAST =? 0); simpl; [naive_solver lia|].
  destruct (Z.eqb_spec addr (ip_addr n)); [naive_solver lia|].
  destruct (Z.eqb_spec (Z.land addr (netmask n)) (Z.land (ip_addr n) (netmask n))),
    (Z.eqb_spec (Z.land addr (unot (netmask n))) (Z.land IPADDR_BROADCAST (unot (netmask n))));
    simpl; naive_solver lia.
Qed.

(** Printing and parsing addresses: ip4addr_ntoa writes at most 15
    characters and the terminator, never past its buffer, fails exactly when the
    buffer is too short, and ip4addr_aton reads its output back to the same
    address - for every address. *)
Theorem ntoa_aton (addr buflen : Z) :
  0 <= addr < 4294967296 -> 0 <= buflen ->
  exists str, lenZ str <= 15 /\
    ip4addr_ntoa_r addr buflen = (if lenZ str + 1 <=? buflen then Some str else None) /\
    ip4addr_ntoa addr = Some str /\ ip4addr_aton str = Some addr.
Proof.
  intros Ha Hb. destruct (of_bytes4_surj addr Ha) as (a & b & c & d & ? & ? & ? & ? & ->).
  pose proof (length_dotted a b c d) as Hl. exists (dotted a b c d).
  split; [by apply Hl|]. split; [by apply ntoa_run|]. split; [|by apply aton_dotted].
  unfold ip4addr_ntoa, IP4ADDR_STRLEN_MAX. rewrite ntoa_run by (done || lia).
  specialize (Hl ltac:(done) ltac:(done) ltac:(done) ltac:(done)).
  by rewrite (proj2 (Z.leb_le _ _)) by lia.
Qed.

(** ** Witnesses *)

#[export] Instance demo_polite : PoliteDeps (S := node link).
Proof. split; intros; by apply total_ret. Qed.

Lemma no_netifs_ok : netifs_ok no_netifs.
Proof. split; try done; apply NoDup_nil_2 || apply Forall_nil_2. Qed.

(** The driver's init function only fills in its netif. *)
Lemma rpmsg_eth_init_fills (priv : Z) (i : positive) :
  fills_in (S := node link) i (rpmsg_eth_init priv).
Proof.
  intros g n Hn [h g' x] Hg. simpl in Hg. subst g'.
  eexists _, _. split.
  - unfold rpmsg_eth_init, upd_netif, ext, mbind, M_bind, zoom, get, put, lift. simpl. rewrite Hn. reflexivity.
  - by eexists.
Qed.

Lemma netif_add_numbers_witness :
  exists r s', netif_add (Some server_netif) (Some (IP4_ADDR 10 43 0 3)) (Some (IP4_ADDR 255 255 0 0))
      (Some (IP4_ADDR 10 43 0 1)) 0 (Some (rpmsg_eth_init 77)) tcpip_input_fn demo_node = Some (r, s') /\
    netif_list (n_netifs s') = match r with Some _ => [server_netif] | None => [] end.
Proof.
  destruct (netif_add_numbers demo_node server_netif (Some (IP4_ADDR 10 43 0 3)) (Some (IP4_ADDR 255 255 0 0))
    (Some (IP4_ADDR 10 43 0 1)) 0 (rpmsg_eth_init 77) tcpip_input_fn) as (r & s' & Hr & Hl & _).
  - apply no_netifs_ok.
  - by eexists.
  - apply not_elem_of_nil.
  - vm_compute. lia.
  - apply rpmsg_eth_init_fills.
  - exists r, s'. split; [exact Hr|]. etransitivity; [exact Hl|]. apply app_nil_r.
Defined.

Definition two_netifs : netifs :=
  Netifs {[1%positive := blank_netif; 2%positive := nf_num 5 blank_netif]} [2%positive; 1%positive] (Some 2%positive) 6.
Lemma two_netifs_ok : netifs_ok two_netifs.
Proof. split; try done; apply (bool_decide_unpack _); by vm_compute. Qed.

Lemma netif_remove_forgets_witness :
  exists s', netif_remove (Some 2%positive) (Node empty_heap two_netifs idle_link) = Some (tt, s') /\
    2%positive ∉ netif_list (n_netifs s').
Proof.
  destruct (netif_remove_forgets (Node empty_heap two_netifs idle_link) 2%positive) as (s' & Hr & _ & Hn & _).
  - apply two_netifs_ok.
  - by eexists.
  - exists s'. split; [exact Hr|exact Hn].
Defined.

Lemma netmask_valid_exact_witness :
  exists r, 0 <= r <= 32 /\ lwip_htonl (IP4_ADDR 255 255 0 0) = 2 ^ 32 - 2 ^ r.
Proof. apply (netmask_valid_exact (IP4_ADDR 255 255 0 0)); [vm_compute; split; congruence|reflexivity]. Defined.

Lemma broadcast_exact_witness :
  ip4_addr_isbroadcast_u32 (IP4_ADDR 10 43 255 255)
    (Netif (IP4_ADDR 10 43 0 3) (IP4_ADDR 255 255 0 0) 0 tcpip_input_fn netif_null_output_ip4 no_linkoutput 0 0 []
      0 NETIF_FLAG_BROADCAST (0, 0) 0) = true.
Proof.
  apply broadcast_exact; [vm_compute; split; congruence..|]. right. right.
  split; [reflexivity|]. split; [vm_compute; congruence|reflexivity].
Defined.

Lemma ntoa_aton_witness :
  exists str, lenZ str <= 15 /\ ip4addr_ntoa (IP4_ADDR 10 43 0 3) = Some str /\
    ip4addr_aton str = Some (IP4_ADDR 10 43 0 3).
Proof.
  destruct (ntoa_aton (IP4_ADDR 10 43 0 3) 16) as (str & Hl & _ & H1 & H2); [vm_compute; split; congruence|lia|].
  exists str. split; [exact Hl|]. split; [exact H1|exact H2].
Defined.
