(* ===== verification/NetTypes.v ===== *)
(** * Network interfaces: the fields of core/netif.c keep their types

    What the program that uses lwIP does with its interfaces is a sequence of
    calls; the list, the numbers, the default and every field stay in order. *)
From S2P Require Import Prelude Triple Def Pbuf Netif NetifInv Ip4Addr Node RpmsgFreeRTOS Examples NetProps.

Definition is_u8 (v : Z) : Prop := 0 <= v < 256.
Definition is_u16 (v : Z) : Prop := 0 <= v < 65536.
Definition is_u32 (v : Z) : Prop := 0 <= v < 4294967296.

(** Every field of a struct netif holds a value of its C type. *)
Record netif_typed (n : netif) : Prop := {
  typed_ip_addr : is_u32 (ip_addr n);
  typed_netmask : is_u32 (netmask n);
  typed_gw : is_u32 (gw n);
  typed_mtu : is_u16 (mtu n);
  typed_hwaddr : bytes_ok (hwaddr n) /\ lenZ (hwaddr n) <= 6;
  typed_hwaddr_len : is_u8 (hwaddr_len n);
  typed_flags : is_u8 (flags n);
  typed_num : is_u8 (num n);
}.

(** So does the number of the next one, and the default interface is a struct. *)
Record fields_ok (g : netifs) : Prop := {
  fields_typed : map_Forall (fun _ n => netif_typed n) (nif g);
  fields_next : is_u8 (netif_num g);
  fields_default d : netif_default g = Some d -> is_Some (nif g !! d);
}.

Lemma fields_ok_upd g i n n' : nif g !! i = Some n -> netif_typed n' -> fields_ok g -> fields_ok (set_nif (<[i := n']> (nif g)) g).
Proof.
  intros Hn Ht [Hall Hx Hd]. split; simpl; [by apply map_Forall_insert_2|done|].
  intros d Hdd. destruct (decide (i = d)) as [<-|]; [by rewrite lookup_insert_eq|]. rewrite lookup_insert_ne by done. by apply Hd.
Qed.

Lemma is_u8_u8 v : is_u8 (u8 v).
Proof. apply u8_bound. Qed.

(** ** Calls *)
Section Calls.
Context {S : Type} {P : part S netifs} {D : NetifDeps S} {PD : PoliteDeps}.
Notation view := (get_part (S := S) (P := netifs)).

Inductive netif_call :=
  | Add (i : positive) (ipaddr nm gwa : option Z) (st : Z) (init : positive -> M S err_t) (inp : input_fn)
  | Remove (i : positive)
  | Set_addr (i : positive) (ipaddr nm gwa : option Z)
  | Set_ipaddr (i : positive) (ipaddr : option Z)
  | Set_netmask (i : positive) (nm : option Z)
  | Set_gw (i : positive) (gwa : option Z)
  | Set_default (i : option positive)
  | Set_up (i : positive)
  | Set_down (i : positive)
  | Set_link_up (i : positive)
  | Set_link_down (i : positive).

Definition make_call (c : netif_call) : M S unit :=
  match c with
  | Add i a m w st init inp => netif_add (Some i) a m w st (Some init) inp;; mret tt
  | Remove i => netif_remove (Some i)
  | Set_addr i a m w => netif_set_addr i a m w
  | Set_ipaddr i a => netif_set_ipaddr (Some i) a
  | Set_netmask i m => netif_set_netmask (Some i) m
  | Set_gw i w => netif_set_gw (Some i) w
  | Set_default i => netif_set_default i
  | Set_up i => netif_set_up (Some i)
  | Set_down i => netif_set_down (Some i)
  | Set_link_up i => netif_set_link_up (Some i)
  | Set_link_down i => netif_set_link_down (Some i)
  end.

Definition words (l : list (option Z)) : Prop := Forall (fun o => is_u32 (default IPADDR_ANY o)) l.

(** A run keeps the fields in order. *)
Definition typing {A} (m : M S A) : Prop := triple view fields_ok m (fun _ => fields_ok).

(** What a call needs: the struct is there, the arguments are addresses; for
    netif_add also that the struct is not in use, that a number is free, and
    that the driver's init function only fills in its netif. *)
Definition call_ok (c : netif_call) (g : netifs) : Prop :=
  match c with
  | Add i a m w st init inp =>
      is_Some (nif g !! i) /\ i ∉ netif_list g /\ (length (netif_list g) <= 254)%nat /\ words [a; m; w] /\
      fills_in i init /\ typing (init i)
  | Set_addr i a m w => is_Some (nif g !! i) /\ words [a; m; w]
  | Set_ipaddr i a | Set_netmask i a | Set_gw i a => is_Some (nif g !! i) /\ words [a]
  | Set_default i => forall d, i = Some d -> is_Some (nif g !! d)
  | Remove i | Set_up i | Set_down i | Set_link_up i | Set_link_down i => is_Some (nif g !! i)
  end.

Definition call_step (s s' : S) : Prop := exists c, call_ok c (view s) /\ make_call c s = Some (tt, s').

Lemma typing_ret {A} (a : A) : typing (mret a).
Proof. intros s r s' Hs [= _ <-]. exact Hs. Qed.
Lemma typing_bind {A B} (m : M S A) (f : A -> M S B) : typing m -> (forall a, typing (f a)) -> typing (m ≫= f).
Proof. intros Hm Hf. eapply triple_bind; [exact Hm|exact Hf]. Qed.
Lemma typing_polite {A} (m : M S A) : (forall g, Triple.total view (eq g) m (fun _ => eq g)) -> typing m.
Proof.
  intros Hm s r s' Hs Hr. destruct (Hm (view s) s eq_refl) as (r1 & s1 & Hr1 & E). rewrite Hr in Hr1. injection Hr1 as <- <-. by rewrite <- E.
Qed.
Lemma typing_get i : typing (get_netif i).
Proof.
  intros s r s' Hs. unfold get_netif, mbind, M_bind, zoom, get, lift. rewrite set_get_part. by destruct (nif _ !! i); [intros [= _ <-]|].
Qed.
Lemma typing_upd i f : (forall n, netif_typed n -> netif_typed (f n)) -> typing (upd_netif i f).
Proof.
  intros Hf s r s' Hs. unfold upd_netif, mbind, M_bind, zoom, get, lift, put. rewrite set_get_part. destruct (nif (view s) !! i) as [n|] eqn:Hn; [|done].
  intros [= _ <-]. rewrite get_set_part. eapply fields_ok_upd; [exact Hn| |exact Hs]. apply Hf. by apply (fields_typed _ Hs i).
Qed.
Lemma typing_modify (f : netifs -> netifs) : (forall g, fields_ok g -> fields_ok (f g)) -> typing (zoom (modify f)).
Proof. intros Hf. apply triple_zoom. intros g r g' Hg [= _ <-]. by apply Hf. Qed.

(** A step that only looks, with what it finds. *)
Lemma typing_look {A B} (F : A -> Prop) (m : M S A) (f : A -> M S B) :
  quiet view m -> (forall s a s', fields_ok (view s) -> m s = Some (a, s') -> F a) -> (forall a, F a -> typing (f a)) -> typing (m ≫= f).
Proof.
  intros Hq HF Hf s r s' Hs (a & s1 & H1 & H2)%bind_Some. eapply (Hf a); [by eapply HF| |exact H2]. by rewrite (Hq _ _ _ H1).
Qed.
Lemma typing_zoom_get {B} (f : netifs -> M S B) : (forall g, fields_ok g -> typing (f g)) -> typing (zoom get ≫= f).
Proof.
  apply typing_look; [|intros s g s' Hs [= <- _]; exact Hs]. intros s g s' [= _ <-]. by rewrite set_get_part.
Qed.
Lemma typing_get_netif {B} i (f : netif -> M S B) : (forall n, netif_typed n -> typing (f n)) -> typing (get_netif i ≫= f).
Proof.
  assert (forall s n s', get_netif i s = Some (n, s') -> nif (view s) !! i = Some n /\ s' = s) as Hg.
  { intros s n s'. unfold get_netif, mbind, M_bind, zoom, get, lift. rewrite set_get_part. by destruct (nif _ !! i); [intros [= <- <-]|]. }
  apply typing_look; [by intros s n s' [_ ->]%Hg|]. intros s n s' Hs [Hn _]%Hg. by apply (fields_typed _ Hs i).
Qed.

Lemma typed_set_flags f n : netif_typed n -> netif_typed (set_flags f n).
Proof. intros []. split; try done. apply is_u8_u8. Qed.
Lemma typed_clear_flags f n : netif_typed n -> netif_typed (clear_flags f n).
Proof. intros []. split; try done. apply is_u8_u8. Qed.

Hint Resolve typing_ret typing_get typed_set_flags typed_clear_flags : netif_types.
Ltac typing_tac :=
  repeat first
    [ solve [eauto with netif_types]
    | apply typing_upd; [intros ? []; by split]
    | apply typing_upd; solve [eauto with netif_types]
    | lazymatch goal with |- typing (zoom get ≫= _) => apply typing_zoom_get; intros end
    | lazymatch goal with |- typing (get_netif _ ≫= _) => apply typing_get_netif; intros end
    | apply typing_bind; [|intros]
    | apply typing_polite; intros; solve [apply gratuitous_polite | apply cleanup_polite | apply tcp_polite | apply udp_polite]
    | match goal with |- typing (match ?x with _ => _ end) => destruct x end ].

Lemma set_ipaddr_typing i a : is_u32 a -> typing (netif_do_set_ipaddr i a).
Proof. intros Ha. unfold netif_do_set_ipaddr, netif_do_ip_addr_changed, netif_issue_reports. typing_tac. Qed.
Lemma set_netmask_typing i a : is_u32 a -> typing (netif_do_set_netmask i a).
Proof. intros Ha. unfold netif_do_set_netmask. typing_tac. Qed.
Lemma set_gw_typing i a : is_u32 a -> typing (netif_do_set_gw i a).
Proof. intros Ha. unfold netif_do_set_gw. typing_tac. Qed.
Hint Resolve set_ipaddr_typing set_netmask_typing set_gw_typing : netif_types.
Lemma set_addr_typing i a m w : words [a; m; w] -> typing (netif_set_addr i a m w).
Proof. intros (?&(?&(?&_)%Forall_cons)%Forall_cons)%Forall_cons. unfold netif_set_addr. typing_tac. Qed.
Lemma find_num_u8 fuel tab l v r : is_u8 v -> find_num fuel tab l v = Some r -> is_u8 r.
Proof.
  revert v. induction fuel as [|fuel IH]; [done|]. intros v Hv. cbn [find_num].
  assert (is_u8 (if v =? 255 then 0 else v)) as Hw by (by destruct (v =? 255)).
  destruct (num_taken _ _ _) as [[|]|]; [apply IH, is_u8_u8|by intros [= <-]|done].
Qed.

Lemma netif_add_typing i a m w st init inp : words [a; m; w] -> typing (init i) -> typing (netif_add (Some i) a m w st (Some init) inp).
Proof.
  intros Hw Hinit. unfold netif_add. apply typing_zoom_get. intros gs Hgs. apply typing_bind; [|intros _].
  { apply typing_upd. intros n []. split; try done. apply (fields_next _ Hgs). }
  apply typing_bind; [apply set_addr_typing; unfold words in *; rewrite !Forall_cons in *; tauto|intros _]. apply typing_bind; [exact Hinit|]. intros r. destruct (negb _); [apply typing_ret|].
  apply typing_zoom_get. intros gs' Hgs'. apply typing_get_netif. intros n Hn.
  apply (typing_look is_u8); [apply quiet_lift| |].
  { intros s v s' _. unfold lift. destruct (find_num _ _ _ _) as [v'|] eqn:Hv; [|done]. intros [= <- _]. eapply find_num_u8; [|exact Hv]. apply (typed_num _ Hn). }
  intros v Hv. apply typing_bind; [apply typing_upd; intros n' []; by split|]. intros _.
  apply typing_bind; [apply typing_modify; intros g []; split; try done; simpl; case_match; [done|apply is_u8_u8]|]. intros _.
  apply typing_bind; [apply typing_modify; by intros g []|]. intros _. apply typing_ret.
Qed.

Lemma netif_remove_typing i : typing (netif_remove (Some i)).
Proof.
  unfold netif_remove, netif_do_ip_addr_changed, netif_set_down, netif_set_default. typing_tac; apply typing_modify; intros ? []; by split.
Qed.

Lemma default_typing g i : (forall d, i = Some d -> is_Some (nif g !! d)) -> triple view (fun g' => g = g' /\ fields_ok g') (netif_set_default i) (fun _ => fields_ok).
Proof. intros Hd. apply triple_zoom. intros g' r g2 [<- []] [= _ <-]. by split. Qed.

Lemma call_typing c g : call_ok c g -> triple view (fun g' => g = g' /\ fields_ok g') (make_call c) (fun _ => fields_ok).
Proof.
  intros Hc. assert ((forall i, c <> Set_default i) -> typing (make_call c)) as Ht; [|destruct c as [| | | | | |i| | | |];
    first [by apply default_typing | by intros s r s' [_ Hs] Hr; eapply Ht]].
  intros Hnd. destruct c; revert Hc; cbn [call_ok make_call]; intros Hc.
  - apply typing_bind; [|intros; apply typing_ret]. destruct Hc as (_ & _ & _ & Hw & _ & Hi). by apply netif_add_typing.
  - apply netif_remove_typing.
  - apply set_addr_typing, Hc.
  - destruct Hc as [_ [? _]%Forall_cons]. unfold netif_set_ipaddr. typing_tac.
  - destruct Hc as [_ [? _]%Forall_cons]. unfold netif_set_netmask. typing_tac.
  - destruct Hc as [_ [? _]%Forall_cons]. unfold netif_set_gw. typing_tac.
  - by destruct (Hnd i).
  - unfold netif_set_up, netif_issue_reports. typing_tac.
  - unfold netif_set_down. typing_tac.
  - unfold netif_set_link_up, netif_issue_reports. typing_tac.
  - unfold netif_set_link_down. typing_tac.
Qed.

(** ** Every call returns *)
Lemma kept_ok {A} g (m : M S A) : netifs_ok g -> keeps g m -> Triple.total view (eq g) m (fun _ => netifs_ok).
Proof. intros Hg Hm. eapply total_conseq; [exact Hm|by intros ? <-|]. intros r g2 Hs. by eapply same_ok. Qed.
Lemma default_ok g i : netifs_ok g -> Triple.total view (eq g) (netif_set_default i) (fun _ => netifs_ok).
Proof. intros []. apply total_zoom. intros g' <-. by eexists _, _. Qed.

Lemma call_total g c : netifs_ok g -> call_ok c g -> Triple.total view (eq g) (make_call c) (fun _ => netifs_ok).
Proof.
  intros Hg. destruct c; cbn [call_ok make_call]; intros Hc.
  - destruct Hc as (Hi & Hl & Hn & _ & Hf & _). eapply total_skip; [|intros _; by apply total_ret].
    eapply total_post; [by apply add_total|]. by intros r g' [? _].
  - eapply total_post; [by apply remove_total|]. by intros r g' [? _].
  - apply kept_ok; [done|]. apply set_addr_keeps, Hc.
  - apply kept_ok; [done|]. apply set_ipaddr_keeps, Hc.
  - apply kept_ok; [done|]. apply set_netmask_keeps, Hc.
  - apply kept_ok; [done|]. apply set_gw_keeps, Hc.
  - by apply default_ok.
  - apply kept_ok; [done|]. by apply set_up_keeps.
  - apply kept_ok; [done|]. by apply set_down_keeps.
  - apply kept_ok; [done|]. by apply set_link_up_keeps.
  - apply kept_ok; [done|]. by apply set_link_down_keeps.
Qed.

Lemma call_steps s s' :
  rtc call_step s s' -> netifs_ok (view s) -> fields_ok (view s) -> netifs_ok (view s') /\ fields_ok (view s').
Proof.
  induction 1 as [|s1 s2 s3 (c & Hc & Hr) _ IH]; [done|]. intros Hn Hf. apply IH.
  - destruct (call_total _ c Hn Hc s1 eq_refl) as (r & s' & Hr' & Hok). rewrite Hr in Hr'. by injection Hr' as _ <-.
  - by apply (call_typing c _ Hc s1 tt s2).
Qed.

(** C37: Whatever sequence of calls to netif.c a program makes, every field of
    every interface holds a value of its C type, the default interface is a
    struct, the listed interfaces are distinct structs with numbers of their own
    below 255, and the next call returns. *)
Theorem netifs_stay_typed (s0 s : S) :
  netifs_ok (view s0) -> fields_ok (view s0) -> rtc call_step s0 s ->
  netifs_ok (view s) /\ fields_ok (view s) /\ forall c, call_ok c (view s) -> exists s', make_call c s = Some (tt, s').
Proof.
  intros Hn Hf Hs. destruct (call_steps _ _ Hs Hn Hf) as [Hn' Hf']. split; [done|]. split; [done|].
  intros c Hc. destruct (call_total _ c Hn' Hc s eq_refl) as ([] & s' & Hr & _). by exists s'.
Qed.
End Calls.

(** ** The link of this repository *)

(** What network.c passes to netif_add is such an init function. *)
Lemma rpmsg_eth_init_typing {E : PbufEnv} {X : Type} {A : OpenAmp X} priv i : typing (S := node X) (rpmsg_eth_init priv i).
Proof.
  assert (forall (B : Type) (m : M X B), typing (S := node X) (ext m)) as Hext.
  { intros B m. apply triple_quiet. intros s r s'. unfold ext. destruct (m (n_ext s)) as [[]|]; [by intros [= _ <-]|done]. }
  unfold rpmsg_eth_init. apply typing_bind; [apply Hext|]. intros ok. destruct (negb ok); [apply typing_ret|].
  apply typing_bind; [|intros _; apply typing_bind; [apply Hext|intros st; destruct (negb _); apply typing_ret]].
  apply typing_upd. intros n []. split; try done; by repeat constructor.
Qed.

Lemma blank_typed : netif_typed blank_netif.
Proof. by repeat constructor. Qed.

(** Adding and configuring it: the calls of network_init. *)
Definition add_link : netif_call (S := node link) :=
  Add server_netif (Some (IP4_ADDR 10 43 0 3)) (Some (IP4_ADDR 255 255 0 0)) (Some (IP4_ADDR 10 43 0 1)) 0 (rpmsg_eth_init 77) tcpip_input_fn.
Definition link_added : node link := final (make_call add_link demo_node) demo_node.
Definition link_up : node link := final (make_call (Set_up server_netif) link_added) link_added.

Lemma netifs_stay_typed_witness :
  netif_list (n_netifs link_up) = [server_netif] /\ fields_ok (n_netifs link_up) /\
  exists s', make_call (Set_down server_netif) link_up = Some (tt, s').
Proof.
  split; [vm_compute; reflexivity|]. destruct (netifs_stay_typed demo_node link_up) as (_ & Hf & Hn).
  - apply no_netifs_ok.
  - split; [apply map_Forall_singleton; exact blank_typed|vm_compute; split; discriminate || reflexivity|intros d Hd; discriminate Hd].
  - apply (rtc_l _ _ link_added); [exists add_link; split; [|vm_compute; reflexivity]|].
    2:{ apply rtc_once. exists (Set_up server_netif). split; [vm_compute; eexists; reflexivity|vm_compute; reflexivity]. }
    split; [exists blank_netif; reflexivity|]. split; [apply not_elem_of_nil|]. split; [vm_compute; repeat constructor|].
    split; [repeat constructor; vm_compute; discriminate || reflexivity|]. split; [apply rpmsg_eth_init_fills|apply rpmsg_eth_init_typing].
  - split; [exact Hf|]. apply Hn. vm_compute. eexists. reflexivity.
Defined.
