(* ===== verification/RpmsgFreeRTOSProps.v ===== *)
(** * The FreeRTOS side: its properties *)
From S2P Require Import Prelude Def Pbuf PbufFacts PbufWrite PbufAlloc PbufPool Netif Node Ip4Addr.
From S2P Require Import RpmsgFreeRTOS Examples.

Section Props.
Context {E : PbufEnv} {X : Type} {OA : OpenAmp X}.

(** C30: A received IP or ARP frame reaches the stack intact: with a free pool
    element, rpmsg_endpoint_cb puts the message into one pbuf that holds exactly
    its bytes, calls netif->input on it once, frees the pbuf exactly when input
    refuses it, and reports success. *)
Theorem endpoint_delivers (h : heap) (g : netifs) (x : X) (data : list Z) (i : positive) :
  h_pool h <> 0 -> 14 <= lenZ data <= 1728 -> mem_ok h -> bytes_ok data ->
  (frame_type data = ETHTYPE_IP \/ frame_type data = ETHTYPE_ARP) ->
  exists h2, received h data h2 /\
    rpmsg_endpoint_cb data i (Node h g x) =
      (r ← tcpip_input (h_next h) i;
       (if negb (bool_decide (r = ERR_OK)) then onheap (pbuf_free (Some (h_next h)));; mret tt else mret tt);;
       mret RPMSG_SUCCESS) (Node h2 g x).
Proof.
  intros Hp Hn Hm Hd Ht. destruct (endpoint_run h g x data i Hp ltac:(lia) Hm Hd)
    as (h2 & ty & Hr & _ & _ & Hb0 & Hb1 & Hrun). exists h2. split; [done|]. rewrite Hrun.
  rewrite Hb0, Hb1 by lia. fold (frame_type data).
  assert ((frame_type data =? ETHTYPE_IP) || (frame_type data =? ETHTYPE_ARP) = true) as ->.
  { destruct Ht as [-> | ->]; done. }
  by rewrite bind_assoc.
Qed.


(** C36: low_level_output sends every pbuf of the chain as an RPMsg of its own,
    in order, and stops with ERR_BUF at the first that cannot be sent; the
    pbufs are not changed.  So a frame in one pbuf is exactly one message, but a
    frame in two pbufs never arrives as one frame at the other side. *)
Theorem low_level_output_sends (h : heap) (g : netifs) (x : X) (p : positive) (l : list (positive * pbuf)) :
  packet h (Some p) l ->
  low_level_output (Some p) (Node h g x) =
    Some ((send_all ((fun ib => pdata h ib.2) <$> l) x).1,
          Node h g (send_all ((fun ib => pdata h ib.2) <$> l) x).2) /\
  (forall b, l = [(p, b)] ->
    low_level_output (Some p) (Node h g x) =
      Some (if (rpmsg_send (chain_data h l) x).1 <? 0 then ERR_BUF else ERR_OK,
            Node h g (rpmsg_send (chain_data h l) x).2)).
Proof.
  intros Hp. rewrite (low_level_output_run _ _ _ _ _ Hp). split; [by destruct (send_all _ _)|].
  intros b ->. simpl. unfold chain_data. simpl. rewrite app_nil_r.
  destruct (rpmsg_send (pdata h b) x) as [r x']. simpl. by destruct (r <? 0).
Qed.

(** Rpmsg_eth_init sets the interface up for the link: MTU 482 (so that a
    full frame with its 14 header bytes is one 496-byte RPMsg), the fixed MAC
    address ending in 0xFE, ARP output over the driver's linkoutput, link up;
    the number and the addresses stay.  It fails with ERR_MEM, leaving the
    interface alone, or with ERR_IF. *)
Theorem rpmsg_eth_init_result (h : heap) (g : netifs) (x : X) (priv : Z) (i : positive) (n : netif) :
  nif g !! i = Some n ->
  exists r n' x', rpmsg_eth_init priv i (Node h g x) = Some (r, Node h (set_nif (<[i := n']> (nif g)) g) x') /\
    (mem_malloc_priv x).1 = bool_decide (r <> ERR_MEM) /\
    (r = ERR_MEM -> n' = n) /\
    (r <> ERR_MEM -> mtu n' + 14 = RPMSG_SIZE /\ hwaddr n' = [0xAA; 0xBB; 0xCC; 0xDD; 0xEE; 0xFE] /\
      hwaddr_len n' = 6 /\ output n' = etharp_output_fn /\ linkoutput n' = low_level_output_fn /\
      netif_is_link_up n' = true /\ netif_is_up n' = false /\ num n' = num n /\ ip_addr n' = ip_addr n /\
      netmask n' = netmask n /\ gw n' = gw n).
Proof.
  intros Hi. unfold rpmsg_eth_init.
  destruct (mem_malloc_priv x) as [ok x1] eqn:Em.
  mrun (ext_run (fun x => Some (mem_malloc_priv x)) h g x ok x1 ltac:(cbv beta; by rewrite Em)). destruct ok; cbn [negb]; cbv iota.
  - rewrite (bind_run _ _ _ _ _ (upd_netif_run h g x1 i n _ Hi)). cbv beta.
    destruct (rpmsg_create_ept ept_name x1) as [st x2] eqn:Ec.
    rewrite (bind_run _ _ _ st _ (ext_run (fun x => Some (rpmsg_create_ept ept_name x)) h _ x1 st x2
      ltac:(cbv beta; by rewrite Ec))). cbv beta iota.
    eexists (if negb (st =? 0) then ERR_IF else ERR_OK), _, x2.
    split; [by destruct (negb (st =? 0))|]. split; [by destruct (negb (st =? 0))|].
    split; [by destruct (negb (st =? 0))|]. done.
  - exists ERR_MEM, n, x1. split; [|done]. rewrite insert_id by done. by destruct g.
Qed.

End Props.

(** ** Witnesses *)

Lemma endpoint_delivers_witness :
  exists h2, received empty_heap arp_frame h2 /\
    rpmsg_endpoint_cb arp_frame server_netif demo_node =
      (r ← tcpip_input 1%positive server_netif;
       (if negb (bool_decide (r = ERR_OK)) then onheap (pbuf_free (Some 1%positive));; mret tt else mret tt);;
       mret RPMSG_SUCCESS) (Node h2 no_netifs idle_link).
Proof.
  apply (endpoint_delivers empty_heap no_netifs idle_link arp_frame server_netif).
  - vm_compute. discriminate.
  - vm_compute. split; discriminate.
  - exact empty_heap_mem_ok.
  - apply bytes_ok_dec. vm_compute. reflexivity.
  - right. vm_compute. reflexivity.
Defined.


(** A link that takes everything. *)
Lemma send_all_ok msgs : forall sent,
  send_all msgs (Link [] sent [] ERR_OK) = (ERR_OK, Link [] (sent ++ msgs) [] ERR_OK).
Proof.
  induction msgs as [|m msgs IH]; intros sent; cbn [send_all]; [by rewrite app_nil_r|].
  simpl. rewrite (proj2 (Z.ltb_ge _ 0)) by lia. rewrite IH. by rewrite <- app_assoc.
Qed.

(** Two pbufs of 2000 bytes together. *)
Definition two_pbufs : heap := final (pbuf_alloc PBUF_RAW 2000 PBUF_POOL empty_heap) empty_heap.

Lemma low_level_output_sends_witness :
  exists l, packet two_pbufs (Some 1%positive) l /\ length l = 2%nat /\
    low_level_output (Some 1%positive) (Node two_pbufs no_netifs idle_link) =
      Some (ERR_OK, Node two_pbufs no_netifs (Link [] ((fun ib => pdata two_pbufs ib.2) <$> l) [] ERR_OK)).
Proof.
  destruct (pbuf_alloc_pool_run empty_heap PBUF_RAW 2000 empty_heap_wf ltac:(lia) ltac:(vm_compute; discriminate))
    as (h' & l & Hrun & Hres).
  assert (h' = two_pbufs) as -> by (unfold two_pbufs; rewrite Hrun; reflexivity).
  pose proof (pr_packet _ _ _ _ _ _ _ Hres) as Hp.
  exists l. split; [exact Hp|]. pose proof (pr_length _ _ _ _ _ _ _ Hres) as Hl.
  change (pool_need 2000 (layer_offset PBUF_RAW)) with 2 in Hl. split; [lia|].
  rewrite (proj1 (low_level_output_sends two_pbufs no_netifs idle_link 1 l Hp)).
  unfold idle_link. rewrite send_all_ok. reflexivity.
Defined.

Lemma rpmsg_eth_init_result_witness :
  exists r n' x', rpmsg_eth_init 77 server_netif demo_node =
    Some (r, Node empty_heap (set_nif (<[server_netif := n']> (nif no_netifs)) no_netifs) x') /\
    r = ERR_OK /\ mtu n' = 482.
Proof.
  destruct (rpmsg_eth_init_result empty_heap no_netifs idle_link 77 server_netif blank_netif)
    as (r & n' & x' & Hrun & _); [reflexivity|].
  exists r, n', x'. split; [exact Hrun|]. vm_compute in Hrun. inversion Hrun. split; reflexivity.
Defined.
