(* ===== verification/Ethernet.v ===== *)
(** * Ethernet frames: netif/ethernet.c

    No VLAN support and no padding word in this configuration. *)
From S2P Require Import Prelude Def Pbuf PbufFacts PbufWrite PbufAlloc PbufPool PbufChain Netif Node Ip4Addr.

Definition ETH_HWADDR_LEN := 6.
Definition SIZEOF_ETH_HDR := 14.
Definition ETHTYPE_IP := 0x0800.
Definition ETHTYPE_ARP := 0x0806.
Definition LL_IP4_MULTICAST_ADDR_0 := 0x01.
Definition LL_IP4_MULTICAST_ADDR_1 := 0x00.
Definition LL_IP4_MULTICAST_ADDR_2 := 0x5e.
Definition ethbroadcast : list Z := [255; 255; 255; 255; 255; 255].
Definition ethzero : list Z := [0; 0; 0; 0; 0; 0].

(** The driver below, and IP above. *)
Class LinkLayer (X : Type) := linkoutput_call : positive -> positive -> M (node X) err_t.
Class IpLayer (X : Type) := ip4_input_call : positive -> positive -> M (node X) err_t.

(** Link-layer multicast and broadcast marks. *)
Definition ll_flags (dest : list Z) (flg : Z) : Z :=
  if negb (Z.land (byte_at dest 0) 1 =? 0) then
    if byte_at dest 0 =? LL_IP4_MULTICAST_ADDR_0 then
      if (byte_at dest 1 =? LL_IP4_MULTICAST_ADDR_1) && (byte_at dest 2 =? LL_IP4_MULTICAST_ADDR_2)
      then u8 (Z.lor flg PBUF_FLAG_LLMCAST) else flg
    else if bool_decide (dest = ethbroadcast) then u8 (Z.lor flg PBUF_FLAG_LLBCAST)
    else flg
  else flg.

Section Ethernet.
Context {E : PbufEnv} {X : Type} {LL : LinkLayer X} {IL : IpLayer X}.

(** ethernet_input; [etharp_input] is core/ipv4/etharp.c's.  It always returns
    ERR_OK: the pbuf is consumed. *)
Definition ethernet_input (etharp_input : positive -> positive -> M (node X) unit)
    (p i : positive) : M (node X) err_t :=
  let free_and_return : M (node X) err_t := onheap (pbuf_free (Some p));; mret ERR_OK in
  b ← onheap (get_pbuf p);
  if len b <=? SIZEOF_ETH_HDR then free_and_return
  else
    n ← get_netif i;
    (if if_idx b =? NETIF_NO_INDEX then onheap (upd_pbuf p (set_if_idx (netif_get_index n))) else mret tt);;
    hdr ← onheap (load (payload b) 0 SIZEOF_ETH_HDR);
    let type := ld16 hdr 12 in
    onheap (upd_pbuf p (fun b => Pbuf.set_flags (ll_flags (slice hdr 0 6) (Pbuf.flags b)) b));;
    if type =? PP_HTONS ETHTYPE_IP then
      if negb (has_flag n NETIF_FLAG_ETHARP) then free_and_return
      else
        r ← onheap (pbuf_remove_header (Some p) SIZEOF_ETH_HDR);
        if (r : bool) then free_and_return
        else ip4_input_call p i;; mret ERR_OK
    else if type =? PP_HTONS ETHTYPE_ARP then
      if negb (has_flag n NETIF_FLAG_ETHARP) then free_and_return
      else
        r ← onheap (pbuf_remove_header (Some p) SIZEOF_ETH_HDR);
        if (r : bool) then free_and_return
        else etharp_input p i;; mret ERR_OK
    else free_and_return.

Definition ethernet_output (i p : positive) (src dst : list Z) (eth_type : Z) : M (node X) err_t :=
  let eth_type_be := lwip_htons eth_type in
  r ← onheap (pbuf_add_header (Some p) SIZEOF_ETH_HDR);
  if (r : bool) then mret ERR_BUF
  else
    b ← onheap (get_pbuf p);
    onheap (store (payload b) 12 (st16 eth_type_be));;
    onheap (store (payload b) 0 dst);;
    onheap (store (payload b) 6 src);;
    linkoutput_call i p.

End Ethernet.
