(* ===== verification/EthernetFacts.v ===== *)
(** * Ethernet frames: the runs of netif/ethernet.c *)
From S2P Require Import Prelude Def Pbuf PbufFacts PbufWrite PbufAlloc PbufPool PbufChain Netif Node Ip4Addr Ethernet.

(** The 14 header bytes. *)
Definition eth_header (dst src : list Z) (type : Z) : list Z := dst ++ src ++ [type / 256; type mod 256].

(** Room in front of the payload of a pbuf that lives in one block with it. *)
Record room (h : heap) (p : positive) (b : pbuf) (n : Z) : Prop := {
  room_contiguous : Z.land (type_internal b) PBUF_TYPE_FLAG_STRUCT_DATA_CONTIGUOUS <> 0;
  room_place : exists o bs, payload b = Some (Ptr p o) /\ h_mem h !! p = Some bs /\
    SIZEOF_STRUCT_PBUF + n <= o /\ o + len b <= lenZ bs;
}.

(** The heap of a run, apart from the contents of one packet and its head. *)
Record rewrites (p : positive) (bl : list positive) (h h' : heap) : Prop := {
  rewrites_pbufs i : i <> p -> h_pbufs h' !! i = h_pbufs h !! i;
  rewrites_next : h_next h' = h_next h;
  rewrites_pool : h_pool h' = h_pool h;
  rewrites_ref : h_ref h' = h_ref h;
  rewrites_len k : length <$> h_mem h' !! k = length <$> h_mem h !! k;
  rewrites_mem k : k ∉ bl -> h_mem h' !! k = h_mem h !! k;
}.

Lemma writes_rewrites p bl h1 h h' :
  h_mem h1 = h_mem h -> h_next h1 = h_next h -> h_pool h1 = h_pool h -> h_ref h1 = h_ref h ->
  (forall i, i <> p -> h_pbufs h1 !! i = h_pbufs h !! i) -> writes bl h1 h' -> rewrites p bl h h'.
Proof.
  intros Em En Ep Er Hp [Wp Wn Wo Wr Wl Wf]. split; try congruence.
  - intros i Hi. rewrite Wp. by apply Hp.
  - intros k Hk. by rewrite Wf, Em.
Qed.

Section Ethernet.
Context {E : PbufEnv} {X : Type} {LL : LinkLayer X}.

Lemma overwrite_header (j D dst src ty : list Z) :
  length j = 14%nat -> length dst = 6%nat -> length src = 6%nat -> length ty = 2%nat ->
  overwrite (overwrite (overwrite (j ++ D) 12 ty) 0 dst) 6 src = dst ++ src ++ ty ++ D.
Proof.
  intros Hj Hd Hs Ht.
  do 6 (destruct dst as [|? dst]; [done|]). destruct dst; [|done].
  do 6 (destruct src as [|? src]; [done|]). destruct src; [|done].
  do 2 (destruct ty as [|? ty]; [done|]). destruct ty; [|done].
  do 14 (destruct j as [|? j]; [done|]). destruct j; [|done].
  reflexivity.
Qed.

(** ethernet_output on a packet with room for the header: linkoutput is called
    on the same pbuf, which now holds the frame. *)
Lemma ethernet_output_run h g x i p b r src dst ty :
  packet h (Some p) ((p, b) :: r) -> room h p b SIZEOF_ETH_HDR -> NoDup (blks ((p, b) :: r)) ->
  sum_len ((p, b) :: r) + SIZEOF_ETH_HDR < 65536 ->
  length src = 6%nat -> length dst = 6%nat -> 0 <= ty < 65536 ->
  exists h' b', ethernet_output i p src dst ty (Node h g x) = linkoutput_call i p (Node h' g x) /\
    packet h' (Some p) ((p, b') :: r) /\
    chain_data h' ((p, b') :: r) = eth_header dst src ty ++ chain_data h ((p, b) :: r) /\
    rewrites p [p] h h' /\ ref b' = ref b /\ type_internal b' = type_internal b /\ Pbuf.flags b' = Pbuf.flags b /\
    next b' = next b /\ blk_of b' = blk_of b.
Proof.
  intros Hp [Hc (o & bs & Hpl & Hbs & Ho & Hob)] Hnd Hs Hsrc Hdst Hty.
  pose proof (packet_cons_inv _ _ _ _ _ Hp) as (_ & Hi & Hr & ? & Ht & Hok & ? & ?).
  rewrite sum_len_cons in Hs. unfold SIZEOF_ETH_HDR, SIZEOF_STRUCT_PBUF in *.
  unfold ethernet_output, SIZEOF_ETH_HDR.
  rewrite (bind_run _ _ _ _ _ (heap_run _ _ _ _ _ _
    (pbuf_add_header_run h p b o 14 Hi Hpl Hc ltac:(lia) ltac:(unfold SIZEOF_STRUCT_PBUF; lia) ltac:(lia) ltac:(lia)))).
  cbv iota.
  destruct (add_header_packet h p b r o 14 bs Hp Hpl Hbs ltac:(lia) ltac:(lia) ltac:(lia)
    ltac:(rewrite sum_len_cons; lia)) as [Hp1 Hd1].
  set (b' := move_payload b p o 14) in *. set (h1 := set_pbufs _ h) in *.
  assert (blk_of b' = blk_of b) as Hblk by (unfold b', move_payload, blk_of; by rewrite Hpl).
  assert (blk_of b' = Some p) as Hblk' by (rewrite Hblk; unfold blk_of; by rewrite Hpl).
  assert (NoDup (blks ((p, b') :: r))) as Hnd1.
  { rewrite (blks_cons_Some p b' r p) by done. rewrite (blks_cons_Some p b r p) in Hnd by congruence. done. }
  assert (len b' = len b + 14) as Hlen by (unfold b'; simpl; rewrite u16_small; lia).
  assert (h_pbufs h1 !! p = Some b') as Hi1 by apply lookup_insert_eq.
  rewrite (bind_run _ _ _ _ _ (heap_run _ _ g x _ _ (get_pbuf_run _ _ _ Hi1))). cbv beta.
  destruct (store_head h1 p b' r 12 (st16 (lwip_htons ty)) Hp1 Hnd1 ltac:(lia) ltac:(change (lenZ (st16 (lwip_htons ty))) with 2; lia))
    as (h2 & Hs2 & _ & W2 & _ & _ & Hd2).
  rewrite (bind_run _ _ _ _ _ (heap_run _ _ g x _ _ Hs2)). cbv beta.
  destruct (store_head h2 p b' r 0 dst (writes_packet _ _ _ _ _ W2 Hp1) Hnd1 ltac:(lia) ltac:(lia))
    as (h3 & Hs3 & _ & W3 & _ & _ & Hd3).
  rewrite (bind_run _ _ _ _ _ (heap_run _ _ g x _ _ Hs3)). cbv beta.
  pose proof (writes_packet _ _ _ _ _ (transitivity W2 W3) Hp1) as Hp3.
  destruct (store_head h3 p b' r 6 src Hp3 Hnd1 ltac:(lia) ltac:(lia)) as (h4 & Hs4 & _ & W4 & _ & _ & Hd4).
  rewrite (bind_run _ _ _ _ _ (heap_run _ _ g x _ _ Hs4)). cbv beta.
  pose proof (transitivity (transitivity W2 W3) W4) as W.
  exists h4, b'. split; [done|]. split; [by eapply writes_packet|]. split; [|split; [|done]].
  - rewrite Hd4, Hd3, Hd2, Hd1. rewrite st16_htons by done. unfold eth_header. rewrite <- !app_assoc.
    apply overwrite_header; try done. assert (lenZ (slice bs (o - 14) 14) = 14); [|lia].
    apply length_slice; lia.
  - rewrite Hblk' in W. eapply writes_rewrites; [..|exact W]; try done.
    intros j Hj. simpl. by rewrite lookup_insert_ne.
Qed.

End Ethernet.
