(* ===== verification/Etharp.v ===== *)
(** * The ARP cache: core/ipv4/etharp.c

    ARP_TABLE_SIZE 10, ARP_QUEUEING with queues of at most ARP_QUEUE_LEN 3
    packets out of MEMP_NUM_ARP_QUEUE 30 queue entries, entries match their
    netif, no static entries, LWIP_DEBUG defined (freed entries are cleared). *)
From S2P Require Import Prelude Def Pbuf PbufFacts PbufWrite PbufAlloc PbufPool PbufChain Netif Node Ip4Addr Ethernet.

Definition ARP_TABLE_SIZE := 10.
Definition ARP_MAXAGE := 300.
Definition ARP_AGE_REREQUEST_USED_UNICAST := ARP_MAXAGE - 30.
Definition ARP_AGE_REREQUEST_USED_BROADCAST := ARP_MAXAGE - 15.
Definition ARP_MAXPENDING := 5.
Definition ARP_QUEUE_LEN := 3.
Definition MEMP_NUM_ARP_QUEUE := 30.
Definition SIZEOF_ETHARP_HDR := 28.
Definition LWIP_IANA_HWTYPE_ETHERNET := 1.
Definition ARP_REQUEST := 1.
Definition ARP_REPLY := 2.
Definition ETHARP_FLAG_TRY_HARD := 1.
Definition ETHARP_FLAG_FIND_ONLY := 2.

(** enum etharp_state *)
Inductive etharp_state :=
  | ETHARP_STATE_EMPTY | ETHARP_STATE_PENDING | ETHARP_STATE_STABLE
  | ETHARP_STATE_STABLE_REREQUESTING_1 | ETHARP_STATE_STABLE_REREQUESTING_2.
#[export] Instance etharp_state_eq_dec : EqDecision etharp_state.
Proof. solve_decision. Defined.

(** [state >= ETHARP_STATE_STABLE] *)
Definition stable (s : etharp_state) : bool :=
  match s with ETHARP_STATE_EMPTY | ETHARP_STATE_PENDING => false | _ => true end.

(** struct etharp_entry; the queue is the list of its packets. *)
Record etharp_entry := Entry {
  q : list positive;
  ipaddr : Z;
  e_netif : option positive;
  ethaddr : list Z;
  ctime : Z;
  e_state : etharp_state;
}.
Definition set_q v e := Entry v (ipaddr e) (e_netif e) (ethaddr e) (ctime e) (e_state e).
Definition set_ipaddr v e := Entry (q e) v (e_netif e) (ethaddr e) (ctime e) (e_state e).
Definition set_e_netif v e := Entry (q e) (ipaddr e) v (ethaddr e) (ctime e) (e_state e).
Definition set_ethaddr v e := Entry (q e) (ipaddr e) (e_netif e) v (ctime e) (e_state e).
Definition set_ctime v e := Entry (q e) (ipaddr e) (e_netif e) (ethaddr e) v (e_state e).
Definition set_state v e := Entry (q e) (ipaddr e) (e_netif e) (ethaddr e) (ctime e) v.
Definition empty_entry : etharp_entry := Entry [] 0 None ethzero 0 ETHARP_STATE_EMPTY.

(** etharp.c's variables and the free MEMP_ARP_QUEUE elements. *)
Record arp := Arp {
  arp_table : list etharp_entry;
  etharp_cached_entry : Z;
  arp_queue_free : Z;
}.
Definition set_table v a := Arp v (etharp_cached_entry a) (arp_queue_free a).
Definition set_cached v a := Arp (arp_table a) v (arp_queue_free a).
Definition set_queue_free v a := Arp (arp_table a) (etharp_cached_entry a) v.
Definition arp_init : arp := Arp (replicate 10 empty_entry) 0 MEMP_NUM_ARP_QUEUE.

(** The search of etharp_find_entry over the entries from [i] on: what it
    remembers, or the entry that matches. *)
Record candidates := Cand {
  c_empty : Z; c_old_stable : Z; c_old_pending : Z; c_old_queue : Z;
  age_queue : Z; age_pending : Z; age_stable : Z;
}.
Definition no_candidates : candidates := Cand 10 10 10 10 0 0 0.

Definition entry_matches (ip : option Z) (nif : option positive) (e : etharp_entry) : bool :=
  match ip with
  | Some ip => (ip =? ipaddr e) && (bool_decide (nif = None) || bool_decide (nif = e_netif e))
  | None => false
  end.

Definition note_entry (i : Z) (e : etharp_entry) (c : candidates) : candidates :=
  match e_state e with
  | ETHARP_STATE_EMPTY => if c_empty c =? ARP_TABLE_SIZE
      then Cand i (c_old_stable c) (c_old_pending c) (c_old_queue c) (age_queue c) (age_pending c) (age_stable c)
      else c
  | ETHARP_STATE_PENDING =>
      match q e with
      | _ :: _ => if age_queue c <=? ctime e
          then Cand (c_empty c) (c_old_stable c) (c_old_pending c) i (ctime e) (age_pending c) (age_stable c)
          else c
      | [] => if age_pending c <=? ctime e
          then Cand (c_empty c) (c_old_stable c) i (c_old_queue c) (age_queue c) (ctime e) (age_stable c)
          else c
      end
  | _ => if age_stable c <=? ctime e
      then Cand (c_empty c) i (c_old_pending c) (c_old_queue c) (age_queue c) (age_pending c) (ctime e)
      else c
  end.

Fixpoint search (tab : list etharp_entry) (i : Z) (ip : option Z) (nif : option positive)
    (c : candidates) : Z + candidates :=
  match tab with
  | [] => inr c
  | e :: tab =>
      if negb (bool_decide (e_state e = ETHARP_STATE_EMPTY)) && entry_matches ip nif e then inl i
      else search tab (i + 1) ip nif (note_entry i e c)
  end.

(** The entry to take: [None] for ERR_MEM, else its index and whether it has to
    be freed first. *)
Definition choose (flags : Z) (c : candidates) : option (Z * bool) :=
  if negb (Z.land flags ETHARP_FLAG_FIND_ONLY =? 0)
     || ((c_empty c =? ARP_TABLE_SIZE) && (Z.land flags ETHARP_FLAG_TRY_HARD =? 0)) then None
  else if c_empty c <? ARP_TABLE_SIZE then Some (c_empty c, false)
  else if c_old_stable c <? ARP_TABLE_SIZE then Some (c_old_stable c, true)
  else if c_old_pending c <? ARP_TABLE_SIZE then Some (c_old_pending c, true)
  else if c_old_queue c <? ARP_TABLE_SIZE then Some (c_old_queue c, true)
  else None.

Section Etharp.
Context {E : PbufEnv} {X : Type} {LL : LinkLayer X} {AP : part X arp}.

Definition onarp {A} (m : M arp A) : M (node X) A := ext (zoom m).

Definition get_entry (i : Z) : M (node X) etharp_entry :=
  a ← onarp get; if 0 <=? i then lift (arp_table a !! Z.to_nat i) else stuck.
Definition upd_entry (i : Z) (f : etharp_entry -> etharp_entry) : M (node X) unit :=
  e ← get_entry i;
  onarp (modify (fun a => set_table (<[Z.to_nat i := f e]> (arp_table a)) a)).

(** memp_malloc and memp_free of MEMP_ARP_QUEUE *)
Definition memp_malloc_arpq : M (node X) bool :=
  a ← onarp get;
  if arp_queue_free a =? 0 then mret false
  else onarp (put (set_queue_free (arp_queue_free a - 1) a));; mret true.
Definition memp_free_arpq : M (node X) unit :=
  onarp (modify (fun a => set_queue_free (arp_queue_free a + 1) a)).

Fixpoint free_etharp_q (l : list positive) : M (node X) unit :=
  match l with
  | [] => mret tt
  | p :: l => onheap (pbuf_free (Some p));; memp_free_arpq;; free_etharp_q l
  end.

Definition etharp_free_entry (i : Z) : M (node X) unit :=
  e ← get_entry i;
  free_etharp_q (q e);;
  upd_entry i (fun _ => empty_entry).

(** etharp_find_entry: the index, or [None] for ERR_MEM. *)
Definition etharp_find_entry (ip : option Z) (flags : Z) (nif : option positive) : M (node X) (option Z) :=
  a ← onarp get;
  match search (arp_table a) 0 ip nif no_candidates with
  | inl i => mret (Some i)
  | inr c =>
      match choose flags c with
      | None => mret None
      | Some (i, recycle) =>
          (if (recycle : bool) then etharp_free_entry i else mret tt);;
          (match ip with Some ip => upd_entry i (set_ipaddr ip) | None => mret tt end);;
          upd_entry i (set_ctime 0);;
          upd_entry i (set_e_netif nif);;
          mret (Some i)
      end
  end.

(** etharp_raw *)
Definition etharp_raw (i : positive) (ethsrc_addr ethdst_addr hwsrc_addr : list Z) (ipsrc_addr : Z)
    (hwdst_addr : list Z) (ipdst_addr opcode : Z) : M (node X) err_t :=
  p ← onheap (pbuf_alloc PBUF_LINK SIZEOF_ETHARP_HDR PBUF_RAM);
  match p with
  | None => mret ERR_MEM
  | Some p =>
      b ← onheap (get_pbuf p);
      onheap (store (payload b) 6 (st16 (lwip_htons opcode)));;
      onheap (store (payload b) 8 hwsrc_addr);;
      onheap (store (payload b) 18 hwdst_addr);;
      onheap (store (payload b) 14 (st32 ipsrc_addr));;
      onheap (store (payload b) 24 (st32 ipdst_addr));;
      onheap (store (payload b) 0 (st16 (PP_HTONS LWIP_IANA_HWTYPE_ETHERNET)));;
      onheap (store (payload b) 2 (st16 (PP_HTONS ETHTYPE_IP)));;
      onheap (store (payload b) 4 [ETH_HWADDR_LEN]);;
      onheap (store (payload b) 5 [4]);;
      ethernet_output i p ethsrc_addr ethdst_addr ETHTYPE_ARP;;
      onheap (pbuf_free (Some p));;
      mret ERR_OK
  end.

Definition etharp_request_dst (i : positive) (ip : Z) (hw_dst_addr : list Z) : M (node X) err_t :=
  n ← get_netif i;
  etharp_raw i (hwaddr n) hw_dst_addr (hwaddr n) (ip_addr n) ethzero ip ARP_REQUEST.
Definition etharp_request (i : positive) (ip : Z) : M (node X) err_t :=
  etharp_request_dst i ip ethbroadcast.

(** etharp_gratuitous (etharp.h) *)
Definition etharp_gratuitous (i : positive) : M (node X) err_t :=
  n ← get_netif i; etharp_request i (ip_addr n).

(** One entry's turn in etharp_tmr. *)
Definition etharp_tmr_entry (i : Z) : M (node X) unit :=
  e ← get_entry i;
  if bool_decide (e_state e = ETHARP_STATE_EMPTY) then mret tt
  else
    upd_entry i (fun e => set_ctime (u16 (ctime e + 1)) e);;
    e ← get_entry i;
    if (ARP_MAXAGE <=? ctime e)
       || (bool_decide (e_state e = ETHARP_STATE_PENDING) && (ARP_MAXPENDING <=? ctime e))
    then etharp_free_entry i
    else match e_state e with
    | ETHARP_STATE_STABLE_REREQUESTING_1 => upd_entry i (set_state ETHARP_STATE_STABLE_REREQUESTING_2)
    | ETHARP_STATE_STABLE_REREQUESTING_2 => upd_entry i (set_state ETHARP_STATE_STABLE)
    | ETHARP_STATE_PENDING =>
        match e_netif e with
        | Some n => etharp_request n (ipaddr e);; mret tt
        | None => stuck
        end
    | _ => mret tt
    end.

Fixpoint for_entries (k : nat) (i : Z) (f : Z -> M (node X) unit) : M (node X) unit :=
  match k with
  | O => mret tt
  | S k => f i;; for_entries k (i + 1) f
  end.
Definition etharp_tmr : M (node X) unit := for_entries 10 0 etharp_tmr_entry.

Definition etharp_cleanup_netif (nif : positive) : M (node X) unit :=
  for_entries 10 0 (fun i =>
    e ← get_entry i;
    if negb (bool_decide (e_state e = ETHARP_STATE_EMPTY)) && bool_decide (e_netif e = Some nif)
    then etharp_free_entry i else mret tt).

(** The while loop of etharp_update_arp_entry; an entry holds at most
    MEMP_NUM_ARP_QUEUE packets. *)
Fixpoint send_queue (fuel : nat) (i : Z) (nif : positive) (eth : list Z) : M (node X) unit :=
  e ← get_entry i;
  match q e with
  | [] => mret tt
  | p :: qs =>
    match fuel with
    | O => stuck
    | S fuel =>
      upd_entry i (set_q qs);;
      memp_free_arpq;;
      n ← get_netif nif;
      ethernet_output nif p (hwaddr n) eth ETHTYPE_IP;;
      onheap (pbuf_free (Some p));;
      send_queue fuel i nif eth
    end
  end.

Definition etharp_update_arp_entry (nif : positive) (ip : Z) (eth : list Z) (flags : Z) : M (node X) err_t :=
  n ← get_netif nif;
  if ip4_addr_isany_val ip || ip4_addr_isbroadcast_u32 ip n || ip4_addr_ismulticast ip then mret ERR_ARG
  else
    i ← etharp_find_entry (Some ip) flags (Some nif);
    match i with
    | None => mret ERR_MEM
    | Some i =>
        upd_entry i (set_state ETHARP_STATE_STABLE);;
        upd_entry i (set_e_netif (Some nif));;
        upd_entry i (set_ethaddr eth);;
        upd_entry i (set_ctime 0);;
        e ← get_entry i;
        send_queue (length (q e)) i nif eth;;
        mret ERR_OK
    end.

Definition etharp_find_addr (nif : option positive) (ip : Z) : M (node X) (option (Z * list Z * Z)) :=
  i ← etharp_find_entry (Some ip) ETHARP_FLAG_FIND_ONLY nif;
  match i with
  | Some i => e ← get_entry i;
              mret (if stable (e_state e) then Some (i, ethaddr e, ipaddr e) else None)
  | None => mret None
  end.

Definition etharp_get_entry (i : Z) : M (node X) (option (Z * option positive * list Z)) :=
  if i <? ARP_TABLE_SIZE then
    e ← get_entry i;
    mret (if stable (e_state e) then Some (ipaddr e, e_netif e, ethaddr e) else None)
  else mret None.

(** etharp_input; the 28 header bytes are read without a look at [p->len]. *)
Definition etharp_input (p nif : positive) : M (node X) unit :=
  b ← onheap (get_pbuf p);
  hdr ← onheap (load (payload b) 0 SIZEOF_ETHARP_HDR);
  if negb (ld16 hdr 0 =? PP_HTONS LWIP_IANA_HWTYPE_ETHERNET) || negb (byte_at hdr 4 =? ETH_HWADDR_LEN)
     || negb (byte_at hdr 5 =? 4) || negb (ld16 hdr 2 =? PP_HTONS ETHTYPE_IP)
  then onheap (pbuf_free (Some p));; mret tt
  else
    let sipaddr := ld32 hdr 14 in
    let dipaddr := ld32 hdr 24 in
    let shwaddr := slice hdr 8 6 in
    n ← get_netif nif;
    let for_us := if ip4_addr_isany_val (ip_addr n) then false else dipaddr =? ip_addr n in
    etharp_update_arp_entry nif sipaddr shwaddr
      (if for_us then ETHARP_FLAG_TRY_HARD else ETHARP_FLAG_FIND_ONLY);;
    (if ld16 hdr 6 =? PP_HTONS ARP_REQUEST then
       if for_us then
         n ← get_netif nif;
         etharp_raw nif (hwaddr n) shwaddr (hwaddr n) (ip_addr n) shwaddr sipaddr ARP_REPLY;; mret tt
       else mret tt
     else mret tt);;
    onheap (pbuf_free (Some p));; mret tt.

Definition etharp_output_to_arp_index (nif p : positive) (arp_idx : Z) : M (node X) err_t :=
  e ← get_entry arp_idx;
  (if bool_decide (e_state e = ETHARP_STATE_STABLE) then
     if ARP_AGE_REREQUEST_USED_BROADCAST <=? ctime e then
       r ← etharp_request nif (ipaddr e);
       if bool_decide (r = ERR_OK) then upd_entry arp_idx (set_state ETHARP_STATE_STABLE_REREQUESTING_1)
       else mret tt
     else if ARP_AGE_REREQUEST_USED_UNICAST <=? ctime e then
       r ← etharp_request_dst nif (ipaddr e) (ethaddr e);
       if bool_decide (r = ERR_OK) then upd_entry arp_idx (set_state ETHARP_STATE_STABLE_REREQUESTING_1)
       else mret tt
     else mret tt
   else mret tt);;
  n ← get_netif nif;
  e ← get_entry arp_idx;
  ethernet_output nif p (hwaddr n) (ethaddr e) ETHTYPE_IP.

(** PBUF_NEEDS_COPY over a chain. *)
Fixpoint needs_copy (fuel : nat) (p : option positive) : M heap bool :=
  match p with
  | None => mret false
  | Some i =>
    match fuel with
    | O => stuck
    | S fuel =>
      b ← get_pbuf i;
      if negb (Z.land (type_internal b) PBUF_TYPE_FLAG_DATA_VOLATILE =? 0) then mret true
      else needs_copy fuel (next b)
    end
  end.

(** The queueing part of etharp_query. *)
Definition queue_packet (i : Z) (p : positive) : M (node X) err_t :=
  ok ← memp_malloc_arpq;
  if negb ok then onheap (pbuf_free (Some p));; mret ERR_MEM
  else
    e ← get_entry i;
    let qlen := lenZ (q e) in
    upd_entry i (set_q (q e ++ [p]));;
    (if ARP_QUEUE_LEN <=? qlen then
       e ← get_entry i;
       match q e with
       | old :: qs => upd_entry i (set_q qs);; onheap (pbuf_free (Some old));; memp_free_arpq
       | [] => stuck
       end
     else mret tt);;
    mret ERR_OK.

Definition etharp_query (nif : positive) (ip : Z) (p : option positive) : M (node X) err_t :=
  n ← get_netif nif;
  if ip4_addr_isbroadcast_u32 ip n || ip4_addr_ismulticast ip || ip4_addr_isany_val ip then mret ERR_ARG
  else
    i ← etharp_find_entry (Some ip) ETHARP_FLAG_TRY_HARD (Some nif);
    match i with
    | None => mret ERR_MEM
    | Some i =>
        e ← get_entry i;
        let is_new_entry := bool_decide (e_state e = ETHARP_STATE_EMPTY) in
        (if is_new_entry then
           upd_entry i (set_state ETHARP_STATE_PENDING);;
           upd_entry i (set_e_netif (Some nif))
         else mret tt);;
        result ← (if is_new_entry || bool_decide (p = None) then etharp_request nif ip else mret ERR_MEM);
        match p with
        | None => mret result
        | Some p =>
            e ← get_entry i;
            if stable (e_state e) then
              onarp (modify (set_cached i));;
              n ← get_netif nif;
              ethernet_output nif p (hwaddr n) (ethaddr e) ETHTYPE_IP
            else if bool_decide (e_state e = ETHARP_STATE_PENDING) then
              h ← onheap get;
              copy_needed ← onheap (needs_copy (chain_fuel h) (Some p));
              p' ← (if (copy_needed : bool) then onheap (pbuf_clone PBUF_LINK PBUF_RAM (Some p))
                    else onheap (pbuf_ref (Some p));; mret (Some p));
              match p' with
              | None => mret ERR_MEM
              | Some p' => queue_packet i p'
              end
            else mret result
        end
    end.

(** The search for a stable entry in etharp_output. *)
Fixpoint find_stable (tab : list etharp_entry) (i : Z) (nif : positive) (dst : Z) : option Z :=
  match tab with
  | [] => None
  | e :: tab =>
      if stable (e_state e) && bool_decide (e_netif e = Some nif) && (dst =? ipaddr e) then Some i
      else find_stable tab (i + 1) nif dst
  end.

Definition etharp_output (nif p : positive) (ip : Z) : M (node X) err_t :=
  n ← get_netif nif;
  if ip4_addr_isbroadcast_u32 ip n then ethernet_output nif p (hwaddr n) ethbroadcast ETHTYPE_IP
  else if ip4_addr_ismulticast ip then
    let mcastaddr := [LL_IP4_MULTICAST_ADDR_0; LL_IP4_MULTICAST_ADDR_1; LL_IP4_MULTICAST_ADDR_2;
      Z.land (byte_at (st32 ip) 1) 0x7f; byte_at (st32 ip) 2; byte_at (st32 ip) 3] in
    ethernet_output nif p (hwaddr n) mcastaddr ETHTYPE_IP
  else
    let outside := negb (ip4_addr_netcmp ip (ip_addr n) (netmask n)) && negb (ip4_addr_islinklocal ip) in
    if outside && ip4_addr_isany_val (gw n) then mret ERR_RTE
    else
      let dst_addr := if outside then gw n else ip in
      a ← onarp get;
      c ← get_entry (etharp_cached_entry a);
      if stable (e_state c) && bool_decide (e_netif c = Some nif) && (dst_addr =? ipaddr c)
      then etharp_output_to_arp_index nif p (etharp_cached_entry a)
      else match find_stable (arp_table a) 0 nif dst_addr with
      | Some i => onarp (modify (set_cached i));; etharp_output_to_arp_index nif p i
      | None => etharp_query nif dst_addr (Some p)
      end.

End Etharp.
