(* ===== verification/Ip4.v ===== *)
(** * IPv4: routing and output, core/ipv4/ip4.c

    CHECKSUM_GEN_IP 1, computed in line with the header; IP_FRAG 1; no options
    in what is sent, no forwarding, no loopback, no hooks.  core/ipv4/ip4_frag.c
    is an interface, [IpFragments]. *)
From S2P Require Import Prelude Def Pbuf Netif Node Ip4Addr Ethernet Etharp.

Definition IP_HLEN := 20.
Definition IP_PROTO_ICMP := 1.
Definition IP_PROTO_TCP := 6.
Definition IP_PROTO_UDP := 17.
Definition IP_DF := 0x4000.
Definition IP_MF := 0x2000.
Definition IP_OFFMASK := 0x1fff.
Definition IPH_V (v_hl : Z) : Z := Z.shiftr v_hl 4.
Definition IPH_HL_BYTES (v_hl : Z) : Z := u8 (Z.land v_hl 0x0f * 4).

(** struct ip_globals; the header of the packet at hand is a pointer into a
    pbuf. *)
Record ip_globals := IpData {
  current_netif : option positive;
  current_input_netif : option positive;
  current_ip4_header : option ptr;
  current_ip_header_tot_len : Z;
  current_iphdr_src : Z;
  current_iphdr_dest : Z;
}.

(** The variables of ip.c and ip4.c. *)
Record ip_state := IpState { ip_id : Z; ip_data : ip_globals }.
Definition ip_data_init : ip_globals := IpData None None None 0 IPADDR_ANY IPADDR_ANY.
Definition set_ip_id v s := IpState v (ip_data s).
Definition set_ip_data v s := IpState (ip_id s) v.
Definition set_current_iphdr_dest v d :=
  IpData (current_netif d) (current_input_netif d) (current_ip4_header d) (current_ip_header_tot_len d) (current_iphdr_src d) v.
Definition set_current_iphdr_src v d :=
  IpData (current_netif d) (current_input_netif d) (current_ip4_header d) (current_ip_header_tot_len d) v (current_iphdr_dest d).

(** The fields of a header in memory. *)
Definition load8 (q : option ptr) (i : Z) : M heap Z := d ← load q i 1; mret (byte_at d 0).
Definition load16 (q : option ptr) (i : Z) : M heap Z := d ← load q i 2; mret (ld16 d 0).
Definition load32 (q : option ptr) (i : Z) : M heap Z := d ← load q i 4; mret (ld32 d 0).

(** Fragmentation and reassembly. *)
Class IpFragments (X : Type) := {
  ip4_frag : positive -> positive -> Z -> M (node X) err_t;
  ip4_reass : positive -> M (node X) (option positive);
}.

(** The netifs ip4_route takes without further ado. *)
Definition route_match (dest : Z) (n : netif) : bool :=
  netif_is_up n && netif_is_link_up n && negb (ip4_addr_isany_val (ip_addr n)) &&
  (ip4_addr_netcmp dest (ip_addr n) (netmask n) ||
   (negb (has_flag n NETIF_FLAG_BROADCAST) && (dest =? gw n))).

(** The header ip4_output_if_src writes, field by field, and the sum it takes
    along: proto and ttl, dest, tos and version, length, id, src; then folded and
    complemented. *)
Definition header_chksum (len ttl tos proto id src dest : Z) : Z :=
  let chk_sum := u32 (0 + PP_HTONS (Z.lor proto (Z.shiftl ttl 8))) in
  let chk_sum := u32 (chk_sum + Z.land dest 0xFFFF) in
  let chk_sum := u32 (chk_sum + Z.shiftr dest 16) in
  let chk_sum := u32 (chk_sum + PP_HTONS (Z.lor tos (Z.shiftl (u8 (Z.lor (Z.shiftl 4 4) (IP_HLEN / 4))) 8))) in
  let chk_sum := u32 (chk_sum + lwip_htons len) in
  let chk_sum := u32 (chk_sum + lwip_htons id) in
  let chk_sum := u32 (chk_sum + Z.land src 0xFFFF) in
  let chk_sum := u32 (chk_sum + Z.shiftr src 16) in
  let chk_sum := u32 (Z.shiftr chk_sum 16 + Z.land chk_sum 0xFFFF) in
  let chk_sum := u32 (Z.shiftr chk_sum 16 + chk_sum) in
  u16 (Z.lnot chk_sum).

Section Ip4.
Context {E : PbufEnv} {X : Type} {LL : LinkLayer X} {AP : part X arp} {IP : part X ip_state} {FR : IpFragments X}.

Definition onip {A} (m : M ip_state A) : M (node X) A := ext (zoom m).

Definition ip4_route (dest : Z) : M (node X) (option positive) :=
  g ← zoom get;
  match find_netif (route_match dest) (nif g) (netif_list g) with
  | Some i => mret (Some i)
  | None =>
      match netif_default g with
      | None => mret None
      | Some d =>
          n ← get_netif d;
          if negb (netif_is_up n) || negb (netif_is_link_up n) || ip4_addr_isany_val (ip_addr n)
             || ip4_addr_isloopback dest
          then mret None else mret (Some d)
      end
  end.

(** [netif->output] *)
Definition netif_output (i p : positive) (ip : Z) : M (node X) err_t :=
  n ← get_netif i;
  match output n with
  | etharp_output_fn => etharp_output i p ip
  | netif_null_output_ip4 => mret ERR_IF
  end.

(** The end of ip4_output_if_src: fragment, or hand on to the interface. *)
Definition ip4_transmit (p : positive) (dest : Z) (i : positive) : M (node X) err_t :=
  n ← get_netif i;
  b ← onheap (get_pbuf p);
  if negb (mtu n =? 0) && (mtu n <? tot_len b) then ip4_frag p i dest
  else netif_output i p dest.

(** [dest] is [None] for LWIP_IP_HDRINCL, [src] for a NULL pointer. *)
Definition ip4_output_if_src (p : positive) (src dest : option Z) (ttl tos proto : Z) (i : positive)
    : M (node X) err_t :=
  match dest with
  | Some dest =>
      r ← onheap (pbuf_add_header (Some p) IP_HLEN);
      if (r : bool) then mret ERR_BUF
      else
        b ← onheap (get_pbuf p);
        let iphdr := payload b in
        onheap (store iphdr 8 [ttl]);;
        onheap (store iphdr 9 [proto]);;
        onheap (store iphdr 16 (st32 dest));;
        onheap (store iphdr 0 [u8 (Z.lor (Z.shiftl 4 4) (IP_HLEN / 4))]);;
        onheap (store iphdr 1 [tos]);;
        onheap (store iphdr 2 (st16 (lwip_htons (tot_len b))));;
        onheap (store iphdr 6 (st16 0));;
        s ← onip get;
        onheap (store iphdr 4 (st16 (lwip_htons (ip_id s))));;
        onip (put (set_ip_id (u16 (ip_id s + 1)) s));;
        let src := default IPADDR_ANY src in
        onheap (store iphdr 12 (st32 src));;
        onheap (store iphdr 10 (st16 (header_chksum (tot_len b) ttl tos proto (ip_id s) src dest)));;
        ip4_transmit p dest i
  | None =>
      b ← onheap (get_pbuf p);
      if len b <? IP_HLEN then mret ERR_BUF
      else
        dest_addr ← onheap (load32 (payload b) 16);
        ip4_transmit p dest_addr i
  end.

Definition ip4_output_if (p : positive) (src dest : option Z) (ttl tos proto : Z) (i : positive)
    : M (node X) err_t :=
  n ← get_netif i;
  let src_used := match dest with
    | Some _ => if ip4_addr_isany_val (default IPADDR_ANY src) then Some (ip_addr n) else src
    | None => src
    end in
  ip4_output_if_src p src_used dest ttl tos proto i.

Definition ip4_output (p : positive) (src : option Z) (dest : Z) (ttl tos proto : Z) : M (node X) err_t :=
  i ← ip4_route dest;
  match i with
  | None => mret ERR_RTE
  | Some i => ip4_output_if p src (Some dest) ttl tos proto i
  end.

End Ip4.
