(* ===== verification/Icmp.v ===== *)
(** * ICMP: core/ipv4/icmp.c

    CHECKSUM_CHECK_ICMP and CHECKSUM_GEN_ICMP 1, LWIP_ICMP_ECHO_CHECK_INPUT_PBUF_LEN
    1, no answers to broadcast and multicast pings; the counters are left out. *)
From S2P Require Import Prelude Def Pbuf Netif Node Ip4Addr InetChksum Ethernet Etharp Ip4.

Definition ICMP_ER := 0.
Definition ICMP_DUR := 3.
Definition ICMP_ECHO := 8.
Definition ICMP_TE := 11.
Definition ICMP_DUR_PROTO := 2.
Definition ICMP_DUR_PORT := 3.
Definition ICMP_TTL := 255.
Definition SIZEOF_ICMP_ECHO_HDR := 8.
Definition ICMP_DEST_UNREACH_DATASIZE := 8.

(** The address of a byte of a block. *)
Class Addresses := addr_of : ptr -> Z.

Section Icmp.
Context {E : PbufEnv} {X : Type} {LL : LinkLayer X} {AP : part X arp} {IP : part X ip_state} {FR : IpFragments X}.
Context {AD : Addresses}.

(** inet_chksum over [n] bytes in memory. *)
Definition chksum_at (q : option ptr) (n : Z) : M heap Z :=
  d ← load q 0 n;
  mret (inet_chksum (match q with Some q => addr_of q | None => 0 end) d).

(** The pbuf icmp_input answers in: [p] itself when there is room in front of it
    for the headers, else a copy; [None] when [p] was given up. *)
Definition icmp_echo_pbuf (p : positive) (iphdr_in : option ptr) (hlen : Z) : M heap (option positive) :=
  let icmperr : M heap (option positive) := pbuf_free (Some p);; mret None in
  x ← pbuf_add_header (Some p) (hlen + PBUF_LINK_HLEN);
  if (x : bool) then
    b ← get_pbuf p;
    let alloc_len := u16 (tot_len b + hlen) in
    if alloc_len <? tot_len b then icmperr
    else
      r ← pbuf_alloc PBUF_LINK alloc_len PBUF_RAM;
      match r with
      | None => icmperr
      | Some r =>
          br ← get_pbuf r;
          if len br <? hlen + SIZEOF_ICMP_ECHO_HDR then pbuf_free (Some r);; icmperr
          else
            d ← load iphdr_in 0 hlen;
            store (payload br) 0 d;;
            x ← pbuf_remove_header (Some r) hlen;
            if (x : bool) then pbuf_free (Some r);; icmperr
            else
              e ← pbuf_copy (Some r) (Some p);
              if negb (bool_decide (e = ERR_OK)) then pbuf_free (Some r);; icmperr
              else pbuf_free (Some p);; mret (Some r)
      end
  else
    x ← pbuf_remove_header (Some p) (hlen + PBUF_LINK_HLEN);
    if (x : bool) then icmperr else mret (Some p).

(** The checksum after the type changes from ICMP_ECHO to ICMP_ER. *)
Definition adjust_chksum (chksum : Z) : Z :=
  if PP_HTONS (0xffff - Z.shiftl ICMP_ECHO 8) <? chksum then u16 (chksum + PP_HTONS (Z.shiftl ICMP_ECHO 8) + 1)
  else u16 (chksum + PP_HTONS (Z.shiftl ICMP_ECHO 8)).

(** The answer in place: addresses swapped, type, checksums and TTL set. *)
Definition icmp_echo_reply (p inp : positive) (src dest hlen : Z) : M (node X) unit :=
  b ← onheap (get_pbuf p);
  let iecho := payload b in
  x ← onheap (pbuf_add_header (Some p) hlen);
  if (x : bool) then mret tt
  else
    b ← onheap (get_pbuf p);
    let iphdr := payload b in
    onheap (store iphdr 12 (st32 src));;
    onheap (store iphdr 16 (st32 dest));;
    onheap (store iecho 0 [ICMP_ER]);;
    c ← onheap (load16 iecho 2);
    onheap (store iecho 2 (st16 (adjust_chksum c)));;
    onheap (store iphdr 8 [ICMP_TTL]);;
    onheap (store iphdr 10 (st16 0));;
    c ← onheap (chksum_at iphdr hlen);
    onheap (store iphdr 10 (st16 c));;
    ip4_output_if p (Some src) None ICMP_TTL 0 IP_PROTO_ICMP inp;;
    mret tt.

Definition icmp_input (p inp : positive) : M (node X) unit :=
  let give_back : M (node X) unit := onheap (pbuf_free (Some p));; mret tt in
  s ← onip get;
  let d := ip_data s in
  let iphdr_in := current_ip4_header d in
  v_hl ← onheap (load8 iphdr_in 0);
  let hlen := IPH_HL_BYTES v_hl in
  if hlen <? IP_HLEN then give_back
  else
    b ← onheap (get_pbuf p);
    if len b <? 4 then give_back
    else
      type ← onheap (load8 (payload b) 0);
      code ← onheap (load8 (payload b) 1);
      if type =? ICMP_ER then give_back
      else if type =? ICMP_ECHO then
        let src := current_iphdr_dest d in
        if ip4_addr_ismulticast src then give_back
        else
          j ← lift (current_netif d);
          n ← get_netif j;
          if ip4_addr_isbroadcast_u32 src n then give_back
          else if tot_len b <? SIZEOF_ICMP_ECHO_HDR then give_back
          else
            c ← onheap (inet_chksum_pbuf addr_of (Some p));
            if negb (c =? 0) then give_back
            else
              r ← onheap (icmp_echo_pbuf p iphdr_in hlen);
              match r with
              | None => mret tt
              | Some p =>
                  icmp_echo_reply p inp src (current_iphdr_src d) hlen;;
                  onheap (pbuf_free (Some p));; mret tt
              end
      else give_back.

(** The 28 bytes of the packet are copied without a look at its length. *)
Definition icmp_send_response (p : positive) (type code : Z) : M (node X) unit :=
  q ← onheap (pbuf_alloc PBUF_IP (SIZEOF_ICMP_ECHO_HDR + IP_HLEN + ICMP_DEST_UNREACH_DATASIZE) PBUF_RAM);
  match q with
  | None => mret tt
  | Some q =>
      b ← onheap (get_pbuf p);
      let iphdr := payload b in
      bq ← onheap (get_pbuf q);
      let icmphdr := payload bq in
      onheap (store icmphdr 0 [type]);;
      onheap (store icmphdr 1 [code]);;
      onheap (store icmphdr 4 (st16 0));;
      onheap (store icmphdr 6 (st16 0));;
      d ← onheap (load iphdr 0 (IP_HLEN + ICMP_DEST_UNREACH_DATASIZE));
      onheap (store icmphdr SIZEOF_ICMP_ECHO_HDR d);;
      iphdr_src ← onheap (load32 iphdr 12);
      i ← ip4_route iphdr_src;
      (match i with
       | None => mret tt
       | Some i =>
           onheap (store icmphdr 2 (st16 0));;
           c ← onheap (chksum_at icmphdr (len bq));
           onheap (store icmphdr 2 (st16 c));;
           ip4_output_if q None (Some iphdr_src) ICMP_TTL 0 IP_PROTO_ICMP i;;
           mret tt
       end);;
      onheap (pbuf_free (Some q));; mret tt
  end.

Definition icmp_dest_unreach (p : positive) (t : Z) : M (node X) unit := icmp_send_response p ICMP_DUR t.
Definition icmp_time_exceeded (p : positive) (t : Z) : M (node X) unit := icmp_send_response p ICMP_TE t.

End Icmp.
