(* ===== verification/IpReass.v ===== *)
(** * Reassembly: the first half of core/ipv4/ip4_frag.c

    IP_REASS_CHECK_OVERLAP and IP_REASS_FREE_OLDEST 1, IP_REASS_MAX_PBUFS 128,
    MEMP_NUM_REASSDATA 5; the counters are left out.  A struct ip_reassdata is named
    by a number that is never used again, and the list of them is a list of numbers.

    A queued pbuf has a struct ip_reass_helper over the start of its header.  Its
    bytes are written to the payload; what it says - in particular which pbuf the
    address in it is that of - is kept beside, in [helpers], and read from there:
    nobody else refers to a queued pbuf. *)
From S2P Require Import Prelude Def Pbuf InetChksum Netif Node Ip4Addr Ethernet Etharp Ip4 Icmp.

Record ip_reass_helper := Helper { next_pbuf : option positive; start : Z; end_ : Z }.
Definition set_next_pbuf v t := Helper v (start t) (end_ t).

Record ip_reassdata := ReassData {
  rd_p : option positive;
  rd_iphdr : list Z;
  datagram_len : Z;
  rd_flags : Z;
  rd_timer : Z;
}.
Definition set_rd_p v d := ReassData v (rd_iphdr d) (datagram_len d) (rd_flags d) (rd_timer d).
Definition set_rd_iphdr v d := ReassData (rd_p d) v (datagram_len d) (rd_flags d) (rd_timer d).
Definition set_last v d := ReassData (rd_p d) (rd_iphdr d) v (u8 (Z.lor (rd_flags d) 0x01)) (rd_timer d).
Definition set_rd_timer v d := ReassData (rd_p d) (rd_iphdr d) (datagram_len d) (rd_flags d) v.

Definition IP_REASS_FLAG_LASTFRAG := 0x01.
Definition IP_REASS_MAX_PBUFS := 128.
Definition IP_REASS_MAXAGE := 15.
Definition MEMP_NUM_REASSDATA := 5.
Definition ICMP_TE_FRAG := 1.

(** The variables, and the structs in use. *)
Record reass := Reass {
  reassdatagrams : list positive;
  reass_tab : gmap positive ip_reassdata;
  ip_reass_pbufcount : Z;
  reassdata_free : Z;
  reassdata_next : positive;
  helpers : gmap positive ip_reass_helper;
}.
Definition reass_start : reass := Reass [] ∅ 0 MEMP_NUM_REASSDATA 1 ∅.
Definition set_reassdatagrams v s := Reass v (reass_tab s) (ip_reass_pbufcount s) (reassdata_free s) (reassdata_next s) (helpers s).
Definition set_reass_tab v s := Reass (reassdatagrams s) v (ip_reass_pbufcount s) (reassdata_free s) (reassdata_next s) (helpers s).
Definition set_pbufcount v s := Reass (reassdatagrams s) (reass_tab s) v (reassdata_free s) (reassdata_next s) (helpers s).
Definition set_helpers v s := Reass (reassdatagrams s) (reass_tab s) (ip_reass_pbufcount s) (reassdata_free s) (reassdata_next s) v.

(** The results of ip_reass_chain_frag_into_datagram_and_validate. *)
Inductive validated := IP_REASS_VALIDATE_TELEGRAM_FINISHED | IP_REASS_VALIDATE_PBUF_QUEUED | IP_REASS_VALIDATE_PBUF_DROPPED.

Definition IP_ADDRESSES_AND_ID_MATCH (a b : list Z) : bool :=
  (ld32 a 12 =? ld32 b 12) && (ld32 a 16 =? ld32 b 16) && (ld16 a 4 =? ld16 b 4).
(** IPH_OFFSET_BYTES and whether MF is clear. *)
Definition IPH_OFFSET_BYTES (hdr : list Z) : Z := u16 (Z.land (lwip_htons (ld16 hdr 6)) IP_OFFMASK * 8).
Definition no_more (hdr : list Z) : bool := Z.land (ld16 hdr 6) (PP_HTONS IP_MF) =? 0.

(** The list behind [i], and prev->next = ipr->next. *)
Fixpoint behind (i : positive) (l : list positive) : list positive :=
  match l with
  | [] => []
  | j :: r => if decide (j = i) then r else behind i r
  end.
Fixpoint relink (prev ipr : positive) (l : list positive) : list positive :=
  match l with
  | [] => []
  | j :: r => if decide (j = prev) then j :: behind ipr r else j :: relink prev ipr r
  end.
(** The entry before [i]. *)
Fixpoint before (i : positive) (l : list positive) : option positive :=
  match l with
  | j :: (k :: _) as r => if decide (k = i) then Some j else before i r
  | _ => None
  end.

Section Reass.
Context {E : PbufEnv} {X : Type} {LL : LinkLayer X} {AP : part X arp} {IP : part X ip_state} {FR : IpFragments X} {AD : Addresses}.
Context {RP : part X reass}.

Definition onreass {A} (m : M reass A) : M (node X) A := ext (zoom m).
Definition get_rd (i : positive) : M (node X) ip_reassdata := s ← onreass get; lift (reass_tab s !! i).
Definition upd_rd (i : positive) (f : ip_reassdata -> ip_reassdata) : M (node X) unit :=
  d ← get_rd i; onreass (modify (fun s => set_reass_tab (<[i := f d]> (reass_tab s)) s)).

(** ** The helper structs *)

Definition get_helper (q : positive) : M (node X) ip_reass_helper := s ← onreass get; lift (helpers s !! q).
Definition put_helper (q : positive) (t : ip_reass_helper) : M (node X) unit :=
  onreass (modify (fun s => set_helpers (<[q := t]> (helpers s)) s)).
(** A pointer to a pbuf as it lies in memory. *)
Definition pbuf_word (v : option positive) : Z := match v with Some q => u32 (addr_of (Ptr q 0)) | None => 0 end.
(** iprh->next_pbuf = v *)
Definition link_helper (q : positive) (v : option positive) : M (node X) unit :=
  t ← get_helper q;
  b ← onheap (get_pbuf q);
  onheap (store (payload b) 0 (st32 (pbuf_word v)));;
  put_helper q (set_next_pbuf v t).
(** The helper struct over the header of a new fragment. *)
Definition new_helper (q : positive) (s e : Z) : M (node X) unit :=
  b ← onheap (get_pbuf q);
  onheap (store (payload b) 0 (st32 (pbuf_word None)));;
  onheap (store (payload b) 4 (st16 s));;
  onheap (store (payload b) 6 (st16 e));;
  put_helper q (Helper None s e).

(** ** Giving up *)

Definition ip_reass_dequeue_datagram (ipr : positive) (prev : option positive) : M (node X) unit :=
  s ← onreass get;
  l ← (if decide (head (reassdatagrams s) = Some ipr) then mret (tail (reassdatagrams s))
       else prev ← lift prev; mret (relink prev ipr (reassdatagrams s)));
  onreass (put (Reass l (delete ipr (reass_tab s)) (ip_reass_pbufcount s) (reassdata_free s + 1) (reassdata_next s) (helpers s))).

(** The while loop that frees the fragments from [p] on. *)
Fixpoint free_fragments (fuel : nat) (p : option positive) (pbufs_freed : Z) : M (node X) Z :=
  match p with
  | None => mret pbufs_freed
  | Some pcur =>
      match fuel with
      | O => stuck
      | S fuel =>
          t ← get_helper pcur;
          clen ← onheap (pbuf_clen (Some pcur));
          onheap (pbuf_free (Some pcur));;
          free_fragments fuel (next_pbuf t) (u16 (pbufs_freed + clen))
      end
  end.
(** A list of queued pbufs is not longer than there are helper structs. *)
Definition helper_fuel (s : reass) : nat := S (size (helpers s)).

Definition ip_reass_free_complete_datagram (ipr : positive) (prev : option positive) : M (node X) Z :=
  d ← get_rd ipr;
  p ← lift (rd_p d);
  t ← get_helper p;
  pbufs_freed ←
    (if start t =? 0 then
       upd_rd ipr (set_rd_p (next_pbuf t));;
       b ← onheap (get_pbuf p);
       onheap (store (payload b) 0 (rd_iphdr d));;
       icmp_time_exceeded p ICMP_TE_FRAG;;
       clen ← onheap (pbuf_clen (Some p));
       onheap (pbuf_free (Some p));;
       mret (u16 (0 + clen))
     else mret 0);
  d ← get_rd ipr;
  s ← onreass get;
  pbufs_freed ← free_fragments (helper_fuel s) (rd_p d) pbufs_freed;
  ip_reass_dequeue_datagram ipr prev;;
  onreass (modify (fun s => set_pbufcount (u16 (ip_reass_pbufcount s - pbufs_freed)) s));;
  mret pbufs_freed.

(** The loop of ip_reass_tmr: [l] is the list from r on. *)
Fixpoint reass_tmr_loop (l : list positive) (prev : option positive) : M (node X) unit :=
  match l with
  | [] => mret tt
  | r :: l =>
      d ← get_rd r;
      if 0 <? rd_timer d then upd_rd r (set_rd_timer (u8 (rd_timer d - 1)));; reass_tmr_loop l (Some r)
      else ip_reass_free_complete_datagram r prev;; reass_tmr_loop l prev
  end.
Definition ip_reass_tmr : M (node X) unit := s ← onreass get; reass_tmr_loop (reassdatagrams s) None.

(** The search for the oldest other datagram: it with the entry before it, and how
    many others there are. *)
Fixpoint find_oldest (fraghdr : list Z) (tab : gmap positive ip_reassdata) (l : list positive) (prev : option positive)
    (oldest : option (positive * option positive * Z)) (other : Z) : option (option (positive * option positive * Z) * Z) :=
  match l with
  | [] => Some (oldest, other)
  | r :: l =>
      match tab !! r with
      | None => None
      | Some d =>
          let prev' := match l with [] => prev | _ => Some r end in
          if IP_ADDRESSES_AND_ID_MATCH (rd_iphdr d) fraghdr then find_oldest fraghdr tab l prev' oldest other
          else
            let oldest := match oldest with
              | None => Some (r, prev, rd_timer d)
              | Some (o, op, ot) => if rd_timer d <=? ot then Some (r, prev, rd_timer d) else Some (o, op, ot)
              end in
            find_oldest fraghdr tab l prev' oldest (other + 1)
      end
  end.
Fixpoint remove_oldest_loop (fuel : nat) (fraghdr : list Z) (pbufs_needed pbufs_freed : Z) : M (node X) Z :=
  match fuel with
  | O => stuck
  | S fuel =>
      s ← onreass get;
      '(oldest, other_datagrams) ← lift (find_oldest fraghdr (reass_tab s) (reassdatagrams s) None None 0);
      pbufs_freed ← match oldest with
        | Some (o, prev, _) => n ← ip_reass_free_complete_datagram o prev; mret (pbufs_freed + n)
        | None => mret pbufs_freed
        end;
      if (pbufs_freed <? pbufs_needed) && (1 <? other_datagrams) then remove_oldest_loop fuel fraghdr pbufs_needed pbufs_freed
      else mret pbufs_freed
  end.
(** Every round but the last frees a datagram. *)
Definition ip_reass_remove_oldest_datagram (fraghdr : list Z) (pbufs_needed : Z) : M (node X) Z :=
  s ← onreass get; remove_oldest_loop (S (length (reassdatagrams s))) fraghdr pbufs_needed 0.

(** ** Queueing *)

(** memp_malloc(MEMP_REASSDATA) *)
Definition memp_malloc_reassdata : M (node X) (option positive) :=
  s ← onreass get;
  if reassdata_free s =? 0 then mret None
  else
    let i := reassdata_next s in
    onreass (put (Reass (reassdatagrams s) (<[i := ReassData None [] 0 0 0]> (reass_tab s)) (ip_reass_pbufcount s) (reassdata_free s - 1) (Pos.succ i) (helpers s)));;
    mret (Some i).

Definition ip_reass_enqueue_new_datagram (fraghdr : list Z) (clen : Z) : M (node X) (option positive) :=
  ipr ← memp_malloc_reassdata;
  ipr ← match ipr with
    | Some i => mret (Some i)
    | None => n ← ip_reass_remove_oldest_datagram fraghdr clen; if clen <=? n then memp_malloc_reassdata else mret None
    end;
  match ipr with
  | None => mret None
  | Some i =>
      upd_rd i (fun _ => ReassData None fraghdr 0 0 IP_REASS_MAXAGE);;
      onreass (modify (fun s => set_reassdatagrams (i :: reassdatagrams s) s));;
      mret (Some i)
  end.

(** The first loop of ip_reass_chain_frag_into_datagram_and_validate and what
    follows when it comes to the end of the list: the fragment [p], from [s] to [e],
    is put before [q] or further behind; [None] when it is dropped, else whether
    there is no hole up to it. *)
Fixpoint chain_frag (fuel : nat) (ipr p : positive) (s e : Z) (q iprh_prev : option positive) (valid : bool) : M (node X) (option bool) :=
  match q with
  | None =>
      match iprh_prev with
      | Some pr => link_helper pr (Some p);; tp ← get_helper pr; mret (Some (valid && (end_ tp =? s)))
      | None => upd_rd ipr (set_rd_p (Some p));; mret (Some valid)
      end
  | Some q =>
      match fuel with
      | O => stuck
      | S fuel =>
          t ← get_helper q;
          if s <? start t then
            link_helper p (Some q);;
            match iprh_prev with
            | Some pr =>
                tp ← get_helper pr;
                if (s <? end_ tp) || (start t <? e) then mret None
                else link_helper pr (Some p);; mret (Some (valid && (end_ tp =? s)))
            | None => if start t <? e then mret None else upd_rd ipr (set_rd_p (Some p));; mret (Some valid)
            end
          else if s =? start t then mret None
          else if s <? end_ t then mret None
          else
            valid ← match iprh_prev with
              | Some pr => tp ← get_helper pr; mret (valid && (end_ tp =? start t))
              | None => mret valid
              end;
            chain_frag fuel ipr p s e (next_pbuf t) (Some q) valid
      end
  end.

(** The loop over the list behind [iprh]: no holes there. *)
Fixpoint no_holes (fuel : nat) (iprh : positive) : M (node X) bool :=
  t ← get_helper iprh;
  match next_pbuf t, fuel with
  | None, _ => mret true
  | Some _, O => stuck
  | Some q, S fuel => tq ← get_helper q; if end_ t =? start tq then no_holes fuel q else mret false
  end.

Definition ip_reass_chain_frag_into_datagram_and_validate (ipr new_p : positive) (is_last : bool) : M (node X) validated :=
  b ← onheap (get_pbuf new_p);
  fraghdr ← onheap (load (payload b) 0 IP_HLEN);
  let len := lwip_htons (ld16 fraghdr 2) in
  let hlen := IPH_HL_BYTES (byte_at fraghdr 0) in
  if len <? hlen then mret IP_REASS_VALIDATE_PBUF_DROPPED
  else
    let len := u16 (len - hlen) in
    let offset := IPH_OFFSET_BYTES fraghdr in
    let end_ := u16 (offset + len) in
    new_helper new_p offset end_;;
    if end_ <? offset then mret IP_REASS_VALIDATE_PBUF_DROPPED
    else
      d ← get_rd ipr;
      s ← onreass get;
      placed ← chain_frag (helper_fuel s) ipr new_p offset end_ (rd_p d) None true;
      match placed with
      | None => mret IP_REASS_VALIDATE_PBUF_DROPPED
      | Some valid =>
          d ← get_rd ipr;
          if is_last || negb (Z.land (rd_flags d) IP_REASS_FLAG_LASTFRAG =? 0) then
            valid ← (if (valid : bool) then
                       match rd_p d with
                       | None => mret false
                       | Some p0 => t ← get_helper p0; if negb (start t =? 0) then mret false else no_holes (helper_fuel s) new_p
                       end
                     else mret false);
            mret (if (valid : bool) then IP_REASS_VALIDATE_TELEGRAM_FINISHED else IP_REASS_VALIDATE_PBUF_QUEUED)
          else mret IP_REASS_VALIDATE_PBUF_QUEUED
      end.

(** ** ip4_reass *)

(** The loop that chains the fragments from [r] on behind [p]. *)
Fixpoint chain_pbufs (fuel : nat) (p : positive) (r : option positive) : M (node X) unit :=
  match r with
  | None => mret tt
  | Some r =>
      match fuel with
      | O => stuck
      | S fuel =>
          onheap (pbuf_remove_header (Some r) IP_HLEN);;
          onheap (pbuf_cat (Some p) (Some r));;
          t ← get_helper r;
          chain_pbufs fuel p (next_pbuf t)
      end
  end.

(** The datagram is complete. *)
Definition reass_finish (ipr : positive) : M (node X) (option positive) :=
  d ← get_rd ipr;
  let len := u16 (datagram_len d + IP_HLEN) in
  p ← lift (rd_p d);
  t ← get_helper p;
  b ← onheap (get_pbuf p);
  let fraghdr := payload b in
  onheap (store fraghdr 0 (rd_iphdr d));;
  onheap (store fraghdr 2 (st16 (lwip_htons len)));;
  onheap (store fraghdr 6 (st16 0));;
  onheap (store fraghdr 10 (st16 0));;
  c ← onheap (chksum_at fraghdr IP_HLEN);
  onheap (store fraghdr 10 (st16 c));;
  s ← onreass get;
  chain_pbufs (helper_fuel s) p (next_pbuf t);;
  s ← onreass get;
  let ipr_prev := if decide (head (reassdatagrams s) = Some ipr) then None else before ipr (reassdatagrams s) in
  ip_reass_dequeue_datagram ipr ipr_prev;;
  clen ← onheap (pbuf_clen (Some p));
  onreass (modify (fun s => set_pbufcount (u16 (ip_reass_pbufcount s - clen)) s));;
  mret (Some p).

(** The entry of the datagram the fragment belongs to. *)
Fixpoint find_datagram (fraghdr : list Z) (tab : gmap positive ip_reassdata) (l : list positive) : option (option (positive * ip_reassdata)) :=
  match l with
  | [] => Some None
  | i :: l =>
      match tab !! i with
      | None => None
      | Some d => if IP_ADDRESSES_AND_ID_MATCH (rd_iphdr d) fraghdr then Some (Some (i, d)) else find_datagram fraghdr tab l
      end
  end.

Definition nullreturn (p : positive) : M (node X) (option positive) := onheap (pbuf_free (Some p));; mret None.
Definition nullreturn_ipr (p ipr : positive) : M (node X) (option positive) :=
  d ← get_rd ipr;
  match rd_p d with
  | None => ip_reass_dequeue_datagram ipr None;; nullreturn p
  | Some _ => nullreturn p
  end.

(** The fragment is put into its datagram. *)
Definition reass_add (ipr p : positive) (fraghdr : list Z) (offset len clen : Z) : M (node X) (option positive) :=
  let is_last := no_more fraghdr in
  let dlen := u16 (offset + len) in
  if is_last && ((dlen <? offset) || (0xFFFF - IP_HLEN <? dlen)) then nullreturn_ipr p ipr
  else
    valid ← ip_reass_chain_frag_into_datagram_and_validate ipr p is_last;
    match valid with
    | IP_REASS_VALIDATE_PBUF_DROPPED => nullreturn_ipr p ipr
    | _ =>
        onreass (modify (fun s => set_pbufcount (u16 (ip_reass_pbufcount s + clen)) s));;
        (if is_last then upd_rd ipr (set_last dlen) else mret tt);;
        match valid with
        | IP_REASS_VALIDATE_TELEGRAM_FINISHED => reass_finish ipr
        | _ => mret None
        end
    end.

Definition ip4_reass (p : positive) : M (node X) (option positive) :=
  b ← onheap (get_pbuf p);
  v_hl ← onheap (load8 (payload b) 0);
  if negb (IPH_HL_BYTES v_hl =? IP_HLEN) then nullreturn p
  else
    fraghdr ← onheap (load (payload b) 0 IP_HLEN);
    let offset := IPH_OFFSET_BYTES fraghdr in
    let len := lwip_htons (ld16 fraghdr 2) in
    let hlen := IPH_HL_BYTES v_hl in
    if len <? hlen then nullreturn p
    else
      let len := u16 (len - hlen) in
      clen ← onheap (pbuf_clen (Some p));
      s ← onreass get;
      room ← (if IP_REASS_MAX_PBUFS <? ip_reass_pbufcount s + clen then
                n ← ip_reass_remove_oldest_datagram fraghdr clen;
                s ← onreass get;
                mret (negb (n =? 0) && negb (IP_REASS_MAX_PBUFS <? ip_reass_pbufcount s + clen))
              else mret true);
      if negb (room : bool) then nullreturn p
      else
        s ← onreass get;
        found ← lift (find_datagram fraghdr (reass_tab s) (reassdatagrams s));
        ipr ← match found with
          | None => ip_reass_enqueue_new_datagram fraghdr clen
          | Some (i, d) =>
              (if (Z.land (lwip_htons (ld16 fraghdr 6)) IP_OFFMASK =? 0) && negb (Z.land (lwip_htons (ld16 (rd_iphdr d) 6)) IP_OFFMASK =? 0)
               then upd_rd i (set_rd_iphdr fraghdr) else mret tt);;
              mret (Some i)
          end;
        match ipr with
        | None => nullreturn p
        | Some ipr => reass_add ipr p fraghdr offset len clen
        end.

End Reass.
