(* ===== verification/IpReassSpec.v ===== *)
(** * Reassembly: the abstract machine

    A datagram being put together is a [dgram], the variables are the list of them;
    [reass_step] is what ip4_reass does with a fragment while there is room.  Whatever
    the order the fragments of a datagram come in, the last one completes it. *)
From S2P Require Import Prelude Def Pbuf InetChksum Node Ip4 IpReass.

(** ** Fragments *)

(** A queued fragment: its first pbuf, its place in the datagram and its data. *)
Record piece := Piece { pc_p : positive; pc_start : Z; pc_data : list Z }.
Definition pc_end (x : piece) : Z := pc_start x + lenZ (pc_data x).
Definition head_p (l : list piece) : option positive := pc_p <$> head l.

(** The list with [x] at its place, unless it overlaps. *)
Fixpoint place (x : piece) (l : list piece) : option (list piece) :=
  match l with
  | [] => Some [x]
  | y :: r =>
      if pc_start x <? pc_start y then (if pc_start y <? pc_end x then None else Some (x :: y :: r))
      else if pc_start x =? pc_start y then None
      else if pc_start x <? pc_end y then None
      else cons y <$> place x r
  end.
(** Each fragment ends where the next one starts. *)
Fixpoint gapless (l : list piece) : bool :=
  match l with
  | x :: (y :: _) as r => (pc_end x =? pc_start y) && gapless r
  | _ => true
  end.
Arguments gapless : simpl never.

Lemma gapless_cons x y r : gapless (x :: y :: r) = (pc_end x =? pc_start y) && gapless (y :: r).
Proof. done. Qed.
Lemma gapless_app l x r : gapless (l ++ x :: r) = gapless (l ++ [x]) && gapless (x :: r).
Proof.
  induction l as [|y [|z l] IH]; simpl app in *.
  - by destruct r.
  - rewrite !gapless_cons. unfold gapless at 2. by rewrite andb_true_r.
  - rewrite !(gapless_cons y), IH. by rewrite andb_assoc.
Qed.
Lemma gapless_snoc l x y : gapless ((l ++ [x]) ++ [y]) = gapless (l ++ [x]) && (pc_end x =? pc_start y).
Proof. rewrite <- app_assoc. simpl. rewrite gapless_app. f_equal. by rewrite gapless_cons, andb_true_r. Qed.

(** ** Datagrams *)

Record dgram := Dgram {
  dg_hdr : list Z;
  dg_len : Z;
  dg_last : bool;
  dg_timer : Z;
  dg_pieces : list piece;
}.
Inductive outcome := Dropped | Waiting | Complete (g : dgram).

Definition at_front (hdr : list Z) : bool := Z.land (lwip_htons (ld16 hdr 6)) IP_OFFMASK =? 0.
Definition matches (hdr : list Z) (g : dgram) : bool := IP_ADDRESSES_AND_ID_MATCH (dg_hdr g) hdr.
Definition starts (l : list piece) : bool := match l with x :: _ => pc_start x =? 0 | [] => false end.

Definition new_dgram (hdr : list Z) : dgram := Dgram hdr 0 false IP_REASS_MAXAGE [].
(** The header of the first fragment is kept. *)
Definition take_header (hdr : list Z) (g : dgram) : dgram :=
  if at_front hdr && negb (at_front (dg_hdr g)) then Dgram hdr (dg_len g) (dg_last g) (dg_timer g) (dg_pieces g) else g.
Definition add_piece (hdr : list Z) (x : piece) (g : dgram) : option dgram :=
  if (no_more hdr && (0xFFFF - IP_HLEN <? pc_end x)) || (65536 <=? pc_end x) then None
  else (fun Q => Dgram (dg_hdr g) (if no_more hdr then pc_end x else dg_len g) (no_more hdr || dg_last g) (dg_timer g) Q)
         <$> place x (dg_pieces g).
Definition finished (g : dgram) : bool := dg_last g && (starts (dg_pieces g) && gapless (dg_pieces g)).

(** A fragment of one of the datagrams [l]. *)
Fixpoint step_in (hdr : list Z) (x : piece) (l : list dgram) : option (outcome * list dgram) :=
  match l with
  | [] => None
  | g :: r =>
      if matches hdr g then
        let g := take_header hdr g in
        Some match add_piece hdr x g with
          | None => (Dropped, g :: r)
          | Some g' => if finished g' then (Complete g', r) else (Waiting, g' :: r)
          end
      else (fun q => (q.1, g :: q.2)) <$> step_in hdr x r
  end.
Definition reass_step (hdr : list Z) (x : piece) (l : list dgram) : outcome * list dgram :=
  match step_in hdr x l with
  | Some q => q
  | None =>
      match add_piece hdr x (new_dgram hdr) with
      | None => (Dropped, l)
      | Some g => if finished g then (Complete g, l) else (Waiting, g :: l)
      end
  end.
(** Each fragment finds an entry. *)
Fixpoint room_for (fs : list (list Z * piece)) (l : list dgram) : Prop :=
  match fs with
  | [] => True
  | (hdr, x) :: fs => (lenZ l < MEMP_NUM_REASSDATA \/ Exists (fun g => matches hdr g = true) l) /\ room_for fs (reass_step hdr x l).2
  end.
Fixpoint reass_steps (fs : list (list Z * piece)) (l : list dgram) : list outcome * list dgram :=
  match fs with
  | [] => ([], l)
  | (hdr, x) :: fs => let '(o, l) := reass_step hdr x l in let '(os, l) := reass_steps fs l in (o :: os, l)
  end.

(** What comes out. *)
Definition reass_header (hdr : list Z) (len : Z) : list Z :=
  let c := overwrite (overwrite (overwrite hdr 2 (st16 (lwip_htons (u16 (len + IP_HLEN))))) 6 (st16 0)) 10 (st16 0) in
  overwrite c 10 (st16 (inet_chksum 0 c)).
Definition dg_data (g : dgram) : list Z := concat (pc_data <$> dg_pieces g).
Definition out_header (g : dgram) : list Z :=
  reass_header (dg_hdr g) (dg_len g).

(** ** Fragments in any order *)

Lemma gapless_tail x l : gapless (x :: l) = true -> gapless l = true.
Proof. destruct l; [done|]. rewrite gapless_cons. by intros [_ ?]%andb_true_iff. Qed.
Lemma starts_from x l : gapless (x :: l) = true -> Forall (fun y => 0 < lenZ (pc_data y)) (x :: l) -> Forall (fun y => pc_end x <= pc_start y) l.
Proof.
  revert x. induction l as [|y l IH]; intros x Hg Hp; [done|]. rewrite gapless_cons in Hg. apply andb_true_iff in Hg as [He%Z.eqb_eq Hg].
  apply Forall_cons in Hp as [_ Hp]. constructor; [lia|]. specialize (IH y Hg Hp). apply Forall_cons in Hp as [Hy _].
  eapply Forall_impl; [exact IH|]. intros z. unfold pc_end in *. lia.
Qed.

(** A fragment put among others of the same cut. *)
Lemma place_sublist Q : gapless Q = true -> Forall (fun y => 0 < lenZ (pc_data y)) Q ->
  forall x P, P `sublist_of` Q -> x ∈ Q -> x ∉ P -> exists P', place x P = Some P' /\ P' `sublist_of` Q /\ P' ≡ₚ x :: P.
Proof.
  induction Q as [|y Q IH]; intros Hg Hpos x P Hs Hx Hnp; [by apply elem_of_nil in Hx|].
  pose proof (starts_from _ _ Hg Hpos) as Hst. rewrite Forall_forall in Hst. pose proof Hpos as Hpos'. apply Forall_cons in Hpos as [Hy Hpos]. apply gapless_tail in Hg.
  apply elem_of_cons in Hx as [->|Hx].
  - assert (P `sublist_of` Q) as HP.
    { apply sublist_cons_r in Hs as [?|(P1 & -> & _)]; [done|]. exfalso. apply Hnp. left. }
    exists (y :: P). split; [|split; [by apply sublist_skip|done]]. destruct P as [|z P]; [done|]. cbn [place].
    assert (pc_end y <= pc_start z) by (apply Hst; eapply elem_of_sublist; [|exact HP]; left).
    rewrite (proj2 (Z.ltb_lt _ _)) by (unfold pc_end in *; lia). by rewrite (proj2 (Z.ltb_ge _ _)) by lia.
  - apply sublist_cons_r in Hs as [Hs|(P1 & -> & Hs)].
    + destruct (IH Hg Hpos x P Hs Hx Hnp) as (P' & ? & ? & ?). exists P'. split; [done|]. split; [by apply sublist_cons|done].
    + destruct (IH Hg Hpos x P1 Hs Hx) as (P' & E & Hs' & Hp'); [by intros ?; apply Hnp; right|].
      pose proof (Hst x Hx). exists (y :: P'). cbn [place].
      rewrite (proj2 (Z.ltb_ge _ _)), (proj2 (Z.eqb_neq _ _)), (proj2 (Z.ltb_ge _ _)) by (unfold pc_end in *; lia).
      rewrite E. split; [done|]. split; [by apply sublist_skip|]. rewrite Hp'. by rewrite Permutation_swap.
Qed.

(** Part of a cut with nothing missing is the whole. *)
Lemma gapless_whole Q : gapless Q = true -> Forall (fun y => 0 < lenZ (pc_data y)) Q -> forall P,
  P `sublist_of` Q -> gapless P = true -> pc_start <$> head P = pc_start <$> head Q -> last P = last Q -> P = Q.
Proof.
  induction Q as [|y Q IH]; intros Hg Hpos P Hs HgP Hh Hl; [by apply sublist_nil_r in Hs|].
  pose proof (starts_from _ _ Hg Hpos) as Hst. rewrite Forall_forall in Hst. pose proof Hpos as Hpos'. apply Forall_cons in Hpos as [Hy Hpos].
  apply sublist_cons_r in Hs as [Hs|(P1 & -> & Hs)].
  { destruct P as [|z P]; [done|]. injection Hh as Hh. assert (pc_end y <= pc_start z) by (apply Hst; eapply elem_of_sublist; [|exact Hs]; left). unfold pc_end in *. lia. }
  f_equal. apply IH; try done; [by eapply gapless_tail|by eapply gapless_tail| |].
  - destruct Q as [|q Q]; [by apply sublist_nil_r in Hs as ->|]. destruct P1 as [|z P1].
    + assert (last (q :: Q) = Some y) as Hq by done. apply last_Some_elem_of in Hq. specialize (Hst y Hq). unfold pc_end in *. lia.
    + rewrite gapless_cons in Hg, HgP. apply andb_true_iff in Hg as [?%Z.eqb_eq _], HgP as [?%Z.eqb_eq _]. simpl. f_equal. lia.
  - destruct Q as [|q Q]; [by apply sublist_nil_r in Hs as ->|]. destruct P1 as [|z P1]; [|done].
    assert (last (q :: Q) = Some y) as Hq by done. apply last_Some_elem_of in Hq. specialize (Hst y Hq). unfold pc_end in *. lia.
Qed.
Lemma sublist_full {A} (P Q : list A) : P `sublist_of` Q -> length P = length Q -> P = Q.
Proof. induction 1 as [|x P Q _ IH|x P Q Hs _]; simpl; intros Hl; [done|f_equal; apply IH; lia|]. apply sublist_length in Hs. lia. Qed.
Lemma sublist_last {A} (P Q : list A) z : NoDup Q -> P `sublist_of` Q -> last Q = Some z -> z ∈ P -> last P = Some z.
Proof.
  intros Hnd Hs (Q1 & ->)%last_Some Hz. apply sublist_app_r in Hs as (k1 & k2 & -> & H1 & H2). apply NoDup_app in Hnd as (_ & Hd & _).
  apply sublist_cons_r in H2 as [->%sublist_nil_r|(? & -> & ->%sublist_nil_r)]; [|apply last_snoc].
  rewrite app_nil_r in *. destruct (Hd z); [by eapply elem_of_sublist|left].
Qed.
Lemma gapless_NoDup Q : gapless Q = true -> Forall (fun y => 0 < lenZ (pc_data y)) Q -> NoDup Q.
Proof.
  induction Q as [|x Q IH]; intros Hg Hp; constructor.
  - intros Hx. pose proof (starts_from _ _ Hg Hp) as Hst. rewrite Forall_forall in Hst. specialize (Hst x Hx). apply Forall_cons in Hp as [? _]. unfold pc_end in *. lia.
  - apply IH; [by eapply gapless_tail|by apply Forall_cons in Hp as [_ ?]].
Qed.
Lemma gapless_end x Q : gapless (x :: Q) = true -> Forall (fun y => 0 < lenZ (pc_data y)) (x :: Q) ->
  let e := pc_start x + lenZ (concat (pc_data <$> x :: Q)) in
  (forall z, last (x :: Q) = Some z -> pc_end z = e) /\ (forall z, z ∈ x :: Q -> pc_end z <= e /\ pc_start x <= pc_start z).
Proof.
  revert x. induction Q as [|y Q IH]; intros x Hg Hp e.
  - subst e. csimpl. rewrite app_nil_r. split; [by intros z [= <-]|]. intros z ->%list_elem_of_singleton. unfold pc_end. lia.
  - rewrite gapless_cons in Hg. apply andb_true_iff in Hg as [He%Z.eqb_eq Hg]. apply Forall_cons in Hp as [Hx Hp]. destruct (IH y Hg Hp) as [H1 H2].
    assert (pc_start y + lenZ (concat (pc_data <$> y :: Q)) = e) as Ee.
    { subst e. rewrite <- He. change (concat (pc_data <$> x :: y :: Q)) with (pc_data x ++ concat (pc_data <$> y :: Q)). rewrite length_app. unfold pc_end. lia. }
    rewrite Ee in H1, H2. split; [intros z Hz; by apply H1|]. intros z [->|Hz]%elem_of_cons.
    + destruct (H2 y); [left|]. unfold pc_end in *. lia.
    + destruct (H2 z Hz). unfold pc_end in *. lia.
Qed.

(** [data] under the header [hdr0] cut into the fragments [fs]. *)
Record cut (hdr0 data : list Z) (fs : list (list Z * piece)) : Prop := {
  cut_first : exists x0 r, fs = (hdr0, x0) :: r /\ pc_start x0 = 0;
  cut_gapless : gapless fs.*2 = true;
  cut_pos : Forall (fun y => 0 < lenZ (pc_data y)) fs.*2;
  cut_data : concat (pc_data <$> fs.*2) = data;
  cut_small : lenZ data <= 0xFFFF - IP_HLEN;
  cut_hdrs : Forall (fun f => pc_start f.2 = IPH_OFFSET_BYTES f.1 /\ IP_ADDRESSES_AND_ID_MATCH hdr0 f.1 = true) fs;
  cut_last : forall f, f ∈ fs -> no_more f.1 = true <-> last fs = Some f;
}.

Lemma match_key a b : IP_ADDRESSES_AND_ID_MATCH a b = true <-> ld32 a 12 = ld32 b 12 /\ ld32 a 16 = ld32 b 16 /\ ld16 a 4 = ld16 b 4.
Proof. unfold IP_ADDRESSES_AND_ID_MATCH. rewrite !andb_true_iff, !Z.eqb_eq. tauto. Qed.
Lemma at_front_start hdr : at_front hdr = (IPH_OFFSET_BYTES hdr =? 0).
Proof.
  unfold at_front, IPH_OFFSET_BYTES. set (v := lwip_htons _). change IP_OFFMASK with (Z.ones 13). rewrite Z.land_ones by lia.
  pose proof (Z.mod_pos_bound v (2 ^ 13) ltac:(lia)) as Hb. change (2 ^ 13) with 8192 in *. rewrite u16_small by lia.
  destruct (Z.eqb_spec (v mod 8192) 0), (Z.eqb_spec (v mod 8192 * 8) 0); lia || done.
Qed.

Section Cut.
Context (hdr0 data : list Z) (fs : list (list Z * piece)) (C : cut hdr0 data fs).

Lemma cut_NoDup : NoDup fs.*2.
Proof. apply gapless_NoDup; [apply (cut_gapless _ _ _ C)|apply (cut_pos _ _ _ C)]. Qed.
Lemma cut_bounds f : f ∈ fs -> 0 <= pc_start f.2 /\ pc_end f.2 <= lenZ data /\ (no_more f.1 = true -> pc_end f.2 = lenZ data).
Proof.
  intros Hf. destruct (cut_first _ _ _ C) as (x0 & r & E & Hx0).
  destruct (gapless_end x0 r.*2) as [H1 H2]; [by rewrite <- (cut_gapless _ _ _ C), E|pose proof (cut_pos _ _ _ C) as Hp; by rewrite E in Hp|].
  assert (concat (pc_data <$> x0 :: r.*2) = data) as Ed by (by rewrite <- (cut_data _ _ _ C), E). rewrite Ed, Hx0 in H1, H2.
  assert (f.2 ∈ x0 :: r.*2) as Hin. { change (f.2 ∈ ((hdr0, x0) :: r).*2). rewrite <- E. by apply list_elem_of_fmap_2. }
  destruct (H2 _ Hin). split; [lia|]. split; [lia|]. intros Hl%(cut_last _ _ _ C); [|done]. rewrite (H1 f.2); [lia|].
  change (x0 :: r.*2) with (((hdr0, x0) :: r).*2). rewrite <- E, fmap_last, Hl. done.
Qed.
Lemma cut_front f : f ∈ fs -> at_front f.1 = true <-> pc_start f.2 = 0.
Proof. intros Hf. pose proof (cut_hdrs _ _ _ C) as H. rewrite Forall_forall in H. rewrite at_front_start, Z.eqb_eq. by rewrite (proj1 (H f Hf)). Qed.
Lemma cut_front_hdr f : f ∈ fs -> at_front f.1 = true -> f.1 = hdr0.
Proof.
  intros Hf Ha. apply cut_front in Ha; [|done]. destruct (cut_first _ _ _ C) as (x0 & r & E & Hx0). pose proof (cut_gapless _ _ _ C) as Hg. pose proof (cut_pos _ _ _ C) as Hp.
  rewrite E in Hf, Hg, Hp. apply elem_of_cons in Hf as [->|Hf]; [done|]. csimpl in *. pose proof (starts_from _ _ Hg Hp) as Hst. rewrite Forall_forall in Hst.
  specialize (Hst f.2 (list_elem_of_fmap_2 _ _ _ Hf)). apply Forall_cons in Hp as [? _]. unfold pc_end in *. lia.
Qed.

(** The fragments [S] have come. *)
Record so_far (S : list (list Z * piece)) (g : dgram) : Prop := {
  sf_sub : dg_pieces g `sublist_of` fs.*2;
  sf_perm : dg_pieces g ≡ₚ S.*2;
  sf_last : dg_last g = true <-> exists f, f ∈ S /\ no_more f.1 = true;
  sf_len : dg_last g = true -> dg_len g = lenZ data;
}.

Lemma so_far_add S g f : so_far S g -> S ⊆ fs -> f ∈ fs -> f.2 ∉ S.*2 ->
  exists g', add_piece f.1 f.2 g = Some g' /\ so_far (f :: S) g' /\ dg_hdr g' = dg_hdr g.
Proof.
  intros [Hs Hp Hl Hlen] HS Hf Hni. destruct (cut_bounds f Hf) as (H0 & He & Hlast). pose proof (cut_small _ _ _ C) as Hsm. unfold IP_HLEN in Hsm.
  destruct (place_sublist fs.*2 (cut_gapless _ _ _ C) (cut_pos _ _ _ C) f.2 (dg_pieces g) Hs) as (Q & EQ & HQ & HpQ); [by apply list_elem_of_fmap_2|by rewrite Hp|].
  unfold add_piece. rewrite (proj2 (Z.ltb_ge _ (pc_end f.2))) by (unfold IP_HLEN; lia). rewrite andb_false_r. rewrite (proj2 (Z.leb_gt 65536 _)) by lia. simpl orb. cbv iota.
  rewrite EQ. eexists. split; [done|]. split; [|done]. split; simpl; [done|by rewrite HpQ, Hp| |].
  - rewrite orb_true_iff, Hl. split.
    + intros [Hn|(f' & ? & ?)]; [exists f; split; [left|done]|exists f'; split; [by right|done]].
    + intros (f' & [->|Hf']%elem_of_cons & Hn); [by left|right; by exists f'].
  - intros Hor. destruct (no_more f.1) eqn:En; [by apply Hlast|by apply Hlen].
Qed.

Lemma so_far_finished S g : so_far S g -> S ⊆ fs -> finished g = true <-> dg_pieces g = fs.*2.
Proof.
  intros [Hs Hp Hl Hlen] HS. destruct (cut_first _ _ _ C) as (x0 & r & E & Hx0). unfold finished. rewrite !andb_true_iff, Hl. split.
  - intros ((f & Hf & Hn) & Hst & Hg). apply gapless_whole; [apply (cut_gapless _ _ _ C)|apply (cut_pos _ _ _ C)|done|done| |].
    + rewrite E. csimpl. rewrite Hx0. destruct (dg_pieces g); [done|]. simpl in *. f_equal. by apply Z.eqb_eq.
    + assert (last fs.*2 = Some f.2) as El. { rewrite fmap_last. apply (cut_last _ _ _ C) in Hn; [|by apply HS]. by rewrite Hn. }
      rewrite El. eapply sublist_last; [exact cut_NoDup|done|done|]. rewrite Hp. by apply list_elem_of_fmap_2.
  - intros Ep. split; [|rewrite Ep; split; [rewrite E; simpl; by apply Z.eqb_eq|apply (cut_gapless _ _ _ C)]].
    destruct (last fs) as [f|] eqn:El; [|by rewrite E in El; apply last_None in El].
    assert (f ∈ fs) as Hf by (by apply last_Some_elem_of in El). exists f. split; [|by apply (cut_last _ _ _ C)].
    assert (f.2 ∈ S.*2) as (f' & Ef & Hf')%list_elem_of_fmap. { rewrite <- Hp, Ep. by apply list_elem_of_fmap_2. }
    assert (f = f') as ->; [|done]. pose proof cut_NoDup as Hnd. apply HS in Hf'.
    apply list_elem_of_lookup in Hf as [i Hi], Hf' as [j Hj]. assert (i = j) as ->; [|congruence].
    eapply NoDup_lookup; [exact Hnd|by rewrite list_lookup_fmap, Hi|by rewrite list_lookup_fmap, Hj, Ef].
Qed.

(** The header kept while the fragments [S] have come. *)
Record header_of (S : list (list Z * piece)) (hdr : list Z) : Prop := {
  ho_from : hdr ∈ S.*1;
  ho_first : (exists f, f ∈ S /\ at_front f.1 = true) -> hdr = hdr0;
}.
Lemma header_add S g f : header_of S (dg_hdr g) -> S ⊆ fs -> f ∈ fs -> header_of (f :: S) (dg_hdr (take_header f.1 g)).
Proof.
  intros [Hf Hfirst] HS Hfs. unfold take_header. destruct (at_front f.1) eqn:Ea; simpl.
  - destruct (at_front (dg_hdr g)) eqn:Eg; simpl.
    + split; [by right|]. intros _. apply list_elem_of_fmap in Hf as (f' & E & Hf'). rewrite E in Eg |- *. apply cut_front_hdr; [by apply HS|done].
    + split; [left|]. intros _. by apply cut_front_hdr.
  - split; [by right|]. intros (f' & [->|Hf']%elem_of_cons & Ha); [congruence|]. apply Hfirst. by exists f'.
Qed.
Lemma header_matches S hdr f : header_of S hdr -> S ⊆ fs -> f ∈ fs -> IP_ADDRESSES_AND_ID_MATCH hdr f.1 = true.
Proof.
  intros [(f' & -> & Hf')%list_elem_of_fmap _] HS Hf. pose proof (cut_hdrs _ _ _ C) as Hh. rewrite Forall_forall in Hh.
  pose proof (proj2 (Hh f Hf)) as H1. pose proof (proj2 (Hh f' (HS _ Hf'))) as H2. rewrite match_key in *. intuition congruence.
Qed.
Lemma others_skip f l : f ∈ fs -> Forall (fun g => matches hdr0 g = false) l -> step_in f.1 f.2 l = None.
Proof.
  intros Hf H. induction H as [|g l Hg _ IH]; [done|]. cbn [step_in]. rewrite IH.
  pose proof (cut_hdrs _ _ _ C) as Hh. rewrite Forall_forall in Hh. pose proof (proj2 (Hh f Hf)) as H1.
  replace (matches f.1 g) with false; [done|]. symmetry. apply not_true_is_false. apply not_true_iff_false in Hg. intros Hm. apply Hg.
  unfold matches in *. rewrite match_key in *. intuition congruence.
Qed.

Definition whole_out (g : dgram) : Prop := dg_pieces g = fs.*2 /\ dg_hdr g = hdr0 /\ dg_len g = lenZ data.
Lemma finished_whole S g : so_far S g -> header_of S (dg_hdr g) -> S ⊆ fs -> finished g = true -> whole_out g.
Proof.
  intros Hs Hh HS Hfin. split; [by eapply so_far_finished|]. split.
  - apply (ho_first _ _ Hh). destruct (cut_first _ _ _ C) as (x0 & r & E & Hx0). pose proof (proj1 (so_far_finished S g Hs HS) Hfin) as Ep.
    assert (x0 ∈ S.*2) as (f & -> & Hf)%list_elem_of_fmap. { rewrite <- (sf_perm _ _ Hs), Ep, E. left. }
    exists f. split; [done|]. apply cut_front; [by apply HS|done].
  - apply (sf_len _ _ Hs). unfold finished in Hfin. by apply andb_true_iff in Hfin as [? _].
Qed.

Lemma all_here S g rest : so_far S g -> S ++ rest ≡ₚ fs -> finished g = bool_decide (rest = []).
Proof.
  intros Hs Hp. assert (S ⊆ fs) as HS by (intros f Hf; rewrite <- Hp; apply elem_of_app; by left).
  apply eq_true_iff_eq. rewrite bool_decide_eq_true, (so_far_finished S g Hs HS).
  assert (length (dg_pieces g) = length S) as El by (by rewrite (sf_perm _ _ Hs), length_fmap).
  apply Permutation_length in Hp. rewrite length_app in Hp. split.
  - intros Ep. rewrite Ep, length_fmap in El. apply nil_length_inv. lia.
  - intros ->. simpl in Hp. apply sublist_full; [apply (sf_sub _ _ Hs)|]. rewrite length_fmap. lia.
Qed.

Lemma step_more S g f l rest : so_far S g -> header_of S (dg_hdr g) -> S ++ f :: rest ≡ₚ fs ->
  exists g', reass_step f.1 f.2 (g :: l) = (if decide (rest = []) then (Complete g', l) else (Waiting, g' :: l)) /\
    so_far (f :: S) g' /\ header_of (f :: S) (dg_hdr g') /\ (rest = [] -> whole_out g').
Proof.
  intros Hs Hh Hp. assert (S ⊆ fs) as HS by (intros y Hy; rewrite <- Hp; apply elem_of_app; by left).
  assert (f ∈ fs) as Hf by (rewrite <- Hp; apply elem_of_app; right; left).
  assert (f.2 ∉ S.*2) as Hni. { pose proof cut_NoDup as Hnd. rewrite <- Hp, fmap_app, NoDup_app in Hnd. destruct Hnd as (_ & Hd & _). intros Hin. apply (Hd _ Hin). left. }
  assert (so_far S (take_header f.1 g)) as Hs' by (unfold take_header; destruct (_ && _); [destruct Hs; by split|done]).
  pose proof (header_add S g f Hh HS Hf) as Hh'.
  destruct (so_far_add S _ f Hs' HS Hf Hni) as (g' & Ea & Hs2 & Ehdr). rewrite <- Ehdr in Hh'.
  assert (f :: S ++ rest ≡ₚ fs) as Hp' by (by rewrite Permutation_middle).
  exists g'. split; [|split; [done|split; [done|]]].
  - unfold reass_step. cbn [step_in]. unfold matches. rewrite (header_matches S) by done. cbv zeta. rewrite Ea, (all_here (f :: S) g' rest) by done.
    by destruct (decide (rest = [])); [rewrite bool_decide_eq_true_2|rewrite bool_decide_eq_false_2].
  - intros ->. apply (finished_whole (f :: S)); [done|done| |].
    + intros y Hy. rewrite <- Hp'. by rewrite app_nil_r.
    + rewrite (all_here (f :: S) g' []) by done. by apply bool_decide_eq_true.
Qed.
Lemma step_first f l rest : f :: rest ≡ₚ fs -> Forall (fun g => matches hdr0 g = false) l ->
  exists g', reass_step f.1 f.2 l = (if decide (rest = []) then (Complete g', l) else (Waiting, g' :: l)) /\
    so_far [f] g' /\ header_of [f] (dg_hdr g') /\ (rest = [] -> whole_out g').
Proof.
  intros Hp Hl. assert (f ∈ fs) as Hf by (rewrite <- Hp; left).
  assert (so_far [] (new_dgram f.1)) as Hs.
  { split; simpl; [apply sublist_nil_l|done| |done]. split; [done|]. by intros (? & ?%elem_of_nil & _). }
  destruct (so_far_add [] _ f Hs) as (g' & Ea & Hs2 & Ehdr); [apply list_subseteq_nil|done|apply not_elem_of_nil|].
  assert (header_of [f] (dg_hdr g')) as Hh.
  { rewrite Ehdr. split; [left|]. intros (f' & ->%list_elem_of_singleton & Ha). by apply cut_front_hdr. }
  exists g'. split; [|split; [done|split; [done|]]].
  - unfold reass_step. rewrite others_skip by done. rewrite Ea, (all_here [f] g' rest) by done.
    by destruct (decide (rest = [])); [rewrite bool_decide_eq_true_2|rewrite bool_decide_eq_false_2].
  - intros ->. apply (finished_whole [f]); [done|done| |].
    + intros y Hy. by rewrite <- Hp.
    + rewrite (all_here [f] g' []) by done. by apply bool_decide_eq_true.
Qed.

Lemma steps_more rest : forall S g l, so_far S g -> header_of S (dg_hdr g) -> S ++ rest ≡ₚ fs -> rest <> [] ->
  exists g', reass_steps rest (g :: l) = (replicate (pred (length rest)) Waiting ++ [Complete g'], l) /\ whole_out g' /\ room_for rest (g :: l).
Proof.
  induction rest as [|[hdr x] rest IH]; intros S g l Hs Hh Hp Hne; [done|].
  destruct (step_more S g (hdr, x) l rest Hs Hh Hp) as (g' & E & Hs' & Hh' & Hw). simpl in E. cbn [reass_steps room_for]. rewrite E.
  assert (Exists (fun g => matches hdr g = true) (g :: l)) as Hm.
  { constructor. apply (header_matches S _ (hdr, x) Hh); [intros y Hy; rewrite <- Hp; apply elem_of_app; by left|rewrite <- Hp; apply elem_of_app; right; left]. }
  destruct (decide (rest = [])) as [->|Hr]; [exists g'; split_and!; [done|by apply Hw|by right|done]|].
  destruct (IH ((hdr, x) :: S) g' l Hs' Hh') as (g2 & E2 & Hw2 & Hroom); [by rewrite <- Hp, <- Permutation_middle|done|]. rewrite E2. exists g2.
  split_and!; [by destruct rest|done|by right|done].
Qed.
End Cut.

(** Whatever order the fragments of a datagram come in, ip4_reass waits until the last
    of them and then has the datagram, with the first fragment's header. *)
Lemma any_order_spec hdr0 data fs fs' l : cut hdr0 data fs -> fs' ≡ₚ fs -> Forall (fun g => matches hdr0 g = false) l -> lenZ l < MEMP_NUM_REASSDATA ->
  exists g, reass_steps fs' l = (replicate (pred (length fs)) Waiting ++ [Complete g], l) /\
    dg_hdr g = hdr0 /\ dg_data g = data /\ dg_len g = lenZ data /\ room_for fs' l.
Proof.
  intros C Hp Hl Hroom. assert (exists g, reass_steps fs' l = (replicate (pred (length fs')) Waiting ++ [Complete g], l) /\ whole_out hdr0 data fs g /\ room_for fs' l) as (g & E & (Hw1 & Hw2 & Hw3) & Hr).
  { destruct fs' as [|[hdr x] rest].
    { destruct (cut_first _ _ _ C) as (? & ? & -> & _). by apply Permutation_nil_l in Hp. }
    destruct (step_first hdr0 data fs C (hdr, x) l rest Hp Hl) as (g' & E & Hs' & Hh' & Hw). simpl in E. cbn [reass_steps room_for]. rewrite E.
    destruct (decide (rest = [])) as [->|Hr]; [exists g'; split_and!; [done|by apply Hw|by left|done]|].
    destruct (steps_more hdr0 data fs C rest [(hdr, x)] g' l Hs' Hh') as (g2 & E2 & Hw2 & Hr2); [done|done|]. rewrite E2. exists g2.
    split_and!; [by destruct rest|done|by left|done]. }
  exists g. rewrite <- (Permutation_length Hp). split_and!; try done. unfold dg_data. rewrite Hw1. apply (cut_data _ _ _ C).
Qed.
