(* ===== verification/IpReassFacts.v ===== *)
(** * Reassembly: the queues

    [repr s A]: the variables of ip4_frag.c and the pbufs that are queued hold the
    datagrams [J], each with its fragments in order. *)
From S2P Require Import Prelude Triple Def Pbuf PbufFacts PbufWrite PbufAlloc PbufChain InetChksum Netif Node Ip4Addr Ethernet Etharp Ip4 Icmp IpReass IpReassSpec.

(** ** Runs on the heap and the variables of reassembly *)

Section Runs.
Context {E : PbufEnv} {X : Type} {RP : part X reass}.

Definition holds_at (h : heap) (v : reass) (s : node X) : Prop := n_heap s = h /\ get_part (n_ext s) = v.
Definition runs {A} (h : heap) (v : reass) (m : M (node X) A) (a : A) (h' : heap) (v' : reass) : Prop :=
  forall s, holds_at h v s -> exists s', m s = Some (a, s') /\ holds_at h' v' s' /\ n_netifs s' = n_netifs s.

Lemma runs_ret {A} (a : A) h v : runs h v (mret a) a h v.
Proof. intros s Hs. by exists s. Qed.
Lemma runs_bind {A B} (m : M (node X) A) (f : A -> M (node X) B) h v a h1 v1 b h2 v2 :
  runs h v m a h1 v1 -> runs h1 v1 (f a) b h2 v2 -> runs h v (m ≫= f) b h2 v2.
Proof.
  intros Hm Hf s Hs. destruct (Hm s Hs) as (s1 & Hr & Hs1 & E1). destruct (Hf s1 Hs1) as (s2 & Hr2 & Hs2 & E2).
  exists s2. rewrite (bind_run _ _ _ _ _ Hr). split; [done|]. split; [done|congruence].
Qed.
Lemma runs_heap {A} (m : M heap A) h v a h' : m h = Some (a, h') -> runs h v (onheap m) a h' v.
Proof. intros Hm [h0 g x] [<- <-]. exists (Node h' g x). split; [by apply heap_run|]. done. Qed.
Lemma runs_reass {A} (m : M reass A) h v a v' : m v = Some (a, v') -> runs h v (onreass m) a h v'.
Proof.
  intros Hm [h0 g x] [<- <-]. exists (Node h0 g (set_part v' x)). split; [|split; [split; [done|apply get_set_part]|done]].
  unfold onreass. apply ext_run. by apply zoom_run.
Qed.
Lemma runs_lift {A} (o : option A) a h v : o = Some a -> runs h v (lift o) a h v.
Proof. intros -> s Hs. by exists s. Qed.

Lemma runs_get_rd i d h v : reass_tab v !! i = Some d -> runs h v (get_rd i) d h v.
Proof. intros Hi. eapply runs_bind; [by apply runs_reass|by apply runs_lift]. Qed.
Lemma runs_upd_rd i d f h v : reass_tab v !! i = Some d -> runs h v (upd_rd i f) tt h (set_reass_tab (<[i := f d]> (reass_tab v)) v).
Proof. intros Hi. eapply runs_bind; [by apply runs_get_rd|]. by apply runs_reass. Qed.
Lemma runs_get_helper q t h v : helpers v !! q = Some t -> runs h v (get_helper q) t h v.
Proof. intros Hq. eapply runs_bind; [by apply runs_reass|by apply runs_lift]. Qed.
End Runs.

(** ** Queued pbufs *)

(** A pbuf nobody else refers to, with its bytes behind it. *)
Definition sole (h : heap) (ib : positive * pbuf) : Prop := last_ref h ib /\ blk_of ib.2 = Some ib.1.
(** The fragment [x.1] in the pbufs [x.2]: 20 bytes for the header, and its data. *)
Record queued (h : heap) (x : piece * list (positive * pbuf)) : Prop := {
  q_packet : packet h (Some (pc_p x.1)) x.2;
  q_sole : Forall (sole h) x.2;
  q_head : exists b r, x.2 = (pc_p x.1, b) :: r /\ IP_HLEN <= len b;
  q_data : drop 20 (chain_data h x.2) = pc_data x.1;
}.
Definition ids (L : list (piece * list (positive * pbuf))) : list positive := L ≫= fun x => x.2.*1.
Definition pbufs_ok (h : heap) (L : list (piece * list (positive * pbuf))) : Prop := Forall (queued h) L /\ NoDup (ids L).

Lemma ids_app L1 L2 : ids (L1 ++ L2) = ids L1 ++ ids L2.
Proof. apply bind_app. Qed.
#[export] Instance ids_perm : Proper ((≡ₚ) ==> (≡ₚ)) ids.
Proof. intros L1 L2 H. unfold ids. by rewrite H. Qed.
#[export] Instance pbufs_ok_perm h : Proper ((≡ₚ) ==> iff) (pbufs_ok h).
Proof. intros L1 L2 H. unfold pbufs_ok. by rewrite H. Qed.

Lemma pbufs_ok_cons h x L : pbufs_ok h (x :: L) <-> queued h x /\ pbufs_ok h L /\ (forall i, i ∈ x.2.*1 -> i ∉ ids L).
Proof.
  unfold pbufs_ok. rewrite Forall_cons. change (ids (x :: L)) with (x.2.*1 ++ ids L). rewrite NoDup_app. split; [naive_solver|].
  intros (Hx & [H1 H2] & Hd). split_and!; try done. by eapply packet_NoDup, q_packet.
Qed.
Lemma elem_of_ids L i : i ∈ ids L <-> exists x, x ∈ L /\ i ∈ x.2.*1.
Proof. unfold ids. rewrite list_elem_of_bind. naive_solver. Qed.

Lemma sole_blks h l : Forall (sole h) l -> blks l = l.*1.
Proof. induction 1 as [|[i b] l [_ Hb] _ IH]; [done|]. rewrite (blks_cons_Some _ _ _ _ Hb), IH. done. Qed.
Lemma queued_head h x : queued h x -> exists b r, x.2 = (pc_p x.1, b) :: r /\ h_pbufs h !! pc_p x.1 = Some b /\ IP_HLEN <= len b /\ payload_ok h b /\ len b < 65536.
Proof.
  intros [Hp _ (b & r & E & Hl) _]. exists b, r. rewrite E in Hp. apply packet_cons_inv in Hp as (_ & ? & _ & ? & ? & ? & ? & ?).
  split_and!; try done. lia.
Qed.

Lemma writes_sole bl h h' ib : writes bl h h' -> sole h ib -> sole h' ib.
Proof.
  intros W [(Hr & Hp & [bs Hm]) Hb]. split; [|done]. split; [done|]. split; [done|]. pose proof (writes_len _ _ _ W ib.1) as Hl.
  rewrite Hm in Hl. destruct (h_mem h' !! ib.1); [by eexists|done].
Qed.
Lemma writes_queued bl h h' x : writes bl h h' -> (forall i, i ∈ x.2.*1 -> i ∉ bl) -> queued h x -> queued h' x.
Proof.
  intros W Hd [Hp Hs Hh Hdat]. split; [by eapply writes_packet|eapply Forall_impl; [exact Hs|]; intros ib; by apply writes_sole with bl|done|].
  rewrite <- Hdat. f_equal. apply (writes_chain_data bl); [done|]. by rewrite (sole_blks h).
Qed.

(** A store into the header of a queued pbuf. *)
Lemma store_queued h L x b r i v :
  pbufs_ok h L -> x ∈ L -> x.2 = (pc_p x.1, b) :: r -> 0 <= i -> i + lenZ v <= IP_HLEN ->
  exists h', store (payload b) i v h = Some (tt, h') /\ writes [pc_p x.1] h h' /\ pbufs_ok h' L /\
    chain_data h' x.2 = overwrite (chain_data h x.2) i v.
Proof.
  intros [Hq Hnd] Hx E Hi Hv. rewrite Forall_forall in Hq. pose proof (Hq x Hx) as [Hp Hs (b' & r' & E' & Hlen) Hdat].
  rewrite E in E'. simplify_eq. pose proof Hp as Hp'. rewrite E in Hp'. pose proof (packet_NoDup _ _ _ Hp) as Hndx.
  destruct (store_head h (pc_p x.1) b' r' i v Hp') as (h' & Hrun & _ & W & _ & _ & Hcd); [|done|lia|].
  { rewrite <- E, (sole_blks h) by done. done. }
  assert (blk_of b' = Some (pc_p x.1)) as Eb. { rewrite E in Hs. by apply Forall_cons in Hs as [[_ ?] _]. }
  rewrite Eb in W. simpl in W. exists h'. split; [done|]. split; [done|]. rewrite <- E in Hcd. split; [|done]. split; [|done].
  apply Forall_forall. intros y Hy. destruct (decide (pc_p x.1 ∈ y.2.*1)) as [Hin|Hni].
  - assert (y = x) as ->.
    { apply list_elem_of_split in Hx as (l1 & l2 & ->). unfold ids in Hnd. rewrite bind_app, NoDup_app in Hnd. destruct Hnd as (_ & H1 & Hnd).
      change ((x :: l2) ≫= fun x => x.2.*1) with (x.2.*1 ++ ids l2) in H1, Hnd. apply NoDup_app in Hnd as (_ & H2 & _).
      assert (pc_p x.1 ∈ x.2.*1) as Hin0 by (rewrite E; left).
      apply elem_of_app in Hy as [Hy|[->|Hy]%elem_of_cons]; [|done|].
      - destruct (H1 (pc_p x.1)); [apply elem_of_ids; by exists y|apply elem_of_app; by left].
      - destruct (H2 (pc_p x.1)); [done|apply elem_of_ids; by exists y]. }
    split; [by eapply writes_packet|eapply Forall_impl; [exact Hs|]; intros ib; by eapply writes_sole|by exists b', r'|].
    rewrite Hcd, <- Hdat. unfold overwrite. unfold IP_HLEN in Hv, Hlen.
    assert (IP_HLEN <= lenZ (chain_data h x.2)) as Hl.
    { rewrite (length_chain_data _ _ _ Hp), E. simpl. apply packet_cons_inv in Hp' as (_ & _ & _ & _ & _ & _ & _ & ?). unfold IP_HLEN. lia. }
    unfold IP_HLEN in Hl. rewrite app_assoc, drop_app_ge by (rewrite length_app, length_take; lia). rewrite drop_drop. f_equal.
    rewrite length_app, length_take. lia.
  - apply (writes_queued [pc_p x.1] h); [done| |by apply Hq]. intros j Hj ->%list_elem_of_singleton. done.
Qed.

Section Links.
Context {E : PbufEnv} {X : Type} {RP : part X reass} {AD : Addresses}.

Lemma link_helper_runs h v L x t w :
  pbufs_ok h L -> x ∈ L -> helpers v !! pc_p x.1 = Some t ->
  exists h', runs h v (link_helper (X := X) (pc_p x.1) w) tt h' (set_helpers (<[pc_p x.1 := set_next_pbuf w t]> (helpers v)) v) /\
    writes [pc_p x.1] h h' /\ pbufs_ok h' L.
Proof.
  intros Hok Hx Ht. pose proof Hok as [Hq _]. rewrite Forall_forall in Hq. destruct (queued_head h x (Hq x Hx)) as (b & r & Ex & Hb & _).
  destruct (store_queued h L x b r 0 (st32 (pbuf_word w)) Hok Hx Ex ltac:(lia)) as (h' & Hst & W & Hok' & _); [done|].
  exists h'. split; [|done]. eapply runs_bind; [by apply runs_get_helper|]. eapply runs_bind; [apply runs_heap; by apply get_pbuf_run|].
  eapply runs_bind; [by apply runs_heap|]. by apply runs_reass.
Qed.
End Links.

(** ** The list of a datagram *)

Definition first_or (l : list piece) (nxt : option positive) : option positive :=
  match l with [] => nxt | y :: _ => Some (pc_p y) end.
(** The helper structs link the fragments [l], the last one to [nxt]. *)
Fixpoint hseg (hs : gmap positive ip_reass_helper) (l : list piece) (nxt : option positive) : Prop :=
  match l with
  | [] => True
  | x :: r => hs !! pc_p x = Some (Helper (first_or r nxt) (pc_start x) (pc_end x)) /\ hseg hs r nxt
  end.
Lemma head_first l : head_p l = first_or l None.
Proof. by destruct l. Qed.
Lemma first_or_app l1 l2 nxt : first_or (l1 ++ l2) nxt = first_or l1 (first_or l2 nxt).
Proof. by destruct l1. Qed.
Lemma hseg_app hs l1 l2 nxt : hseg hs (l1 ++ l2) nxt <-> hseg hs l1 (first_or l2 nxt) /\ hseg hs l2 nxt.
Proof. induction l1 as [|x l1 IH]; simpl; [tauto|]. rewrite IH, first_or_app. tauto. Qed.
Lemma hseg_frame hs hs' l nxt : (forall x, x ∈ l -> hs' !! pc_p x = hs !! pc_p x) -> hseg hs l nxt -> hseg hs' l nxt.
Proof.
  induction l as [|x l IH]; simpl; [done|]. intros Hf [H1 H2]. split; [rewrite Hf by left; done|]. apply IH; [|done]. intros y Hy. apply Hf. by right.
Qed.

(** A fragment put between [dn] and [r]. *)
Lemma hseg_insert hs l y x r nxt : NoDup (pc_p <$> (l ++ [y]) ++ x :: r) -> hseg hs ((l ++ [y]) ++ r) nxt ->
  hs !! pc_p x = Some (Helper (first_or r nxt) (pc_start x) (pc_end x)) ->
  hseg (<[pc_p y := Helper (Some (pc_p x)) (pc_start y) (pc_end y)]> hs) ((l ++ [y]) ++ x :: r) nxt.
Proof.
  intros Hnd H Hx. rewrite <- app_assoc in H, Hnd. simpl in H, Hnd. rewrite <- app_assoc. simpl.
  apply hseg_app in H as [H1 [H2 H3]]. rewrite fmap_app in Hnd. simpl in Hnd. apply NoDup_app in Hnd as (_ & Hl & [Hy [Hxr _]%NoDup_cons]%NoDup_cons).
  apply hseg_app. split; [|split; [|split]].
  - eapply hseg_frame; [|exact H1]. intros z Hz. apply lookup_insert_ne. intros E. apply (Hl (pc_p z)); [by apply list_elem_of_fmap_2|rewrite <- E; left].
  - by rewrite lookup_insert_eq.
  - rewrite lookup_insert_ne; [done|]. intros E. apply Hy. rewrite E. left.
  - eapply hseg_frame; [|exact H3]. intros z Hz. apply lookup_insert_ne. intros E. apply Hy. rewrite E. right. by apply list_elem_of_fmap_2.
Qed.

Section Chain.
Context {E : PbufEnv} {X : Type} {RP : part X reass} {AD : Addresses}.

(** The variables after a fragment was put into the list of [ipr]. *)
Definition with_list (ipr : positive) (d : ip_reassdata) (l : list piece) (hs : gmap positive ip_reass_helper) (v : reass) : reass :=
  set_reass_tab (<[ipr := set_rd_p (head_p l) d]> (reass_tab v)) (set_helpers hs v).
Lemma set_rd_p_same d : set_rd_p (rd_p d) d = d.
Proof. by destruct d. Qed.

(** The helpers of others. *)
Definition same_but (P : list positive) (hs hs' : gmap positive ip_reass_helper) : Prop := forall j, j ∉ P -> hs' !! j = hs !! j.

Lemma chain_frag_runs ipr d x L h v rest : forall dn fuel,
  pbufs_ok h L -> (forall y, y ∈ x :: dn ++ rest -> exists l, (y, l) ∈ L) -> NoDup (pc_p <$> x :: dn ++ rest) ->
  hseg (helpers v) (dn ++ rest) None -> helpers v !! pc_p x = Some (Helper None (pc_start x) (pc_end x)) ->
  reass_tab v !! ipr = Some d -> rd_p d = head_p (dn ++ rest) ->
  (forall l y, dn = l ++ [y] -> pc_end y <= pc_start x) -> (length rest <= fuel)%nat ->
  exists h' res v', runs h v (chain_frag (X := X) fuel ipr (pc_p x) (pc_start x) (pc_end x) (head_p rest) (pc_p <$> last dn) (gapless dn)) res h' v' /\
    writes (pc_p <$> x :: dn ++ rest) h h' /\ pbufs_ok h' L /\
    match place x rest with
    | None => res = None /\ exists hs, v' = set_helpers hs v /\ same_but [pc_p x] (helpers v) hs
    | Some rest' => exists r1 r2 hs, rest = r1 ++ r2 /\ rest' = r1 ++ x :: r2 /\ res = Some (gapless (dn ++ r1 ++ [x])) /\
        v' = with_list ipr d (dn ++ rest') hs v /\ hseg hs (dn ++ rest') None /\ same_but (pc_p <$> x :: dn ++ rest) (helpers v) hs
    end.
Proof.
  induction rest as [|y rest IH]; intros dn fuel Hok HL Hnd Hseg Hx Hipr Hd Hlast Hf.
  - rewrite app_nil_r in *. destruct dn as [|y dn _] using rev_ind.
    + exists h, (Some true), (set_reass_tab (<[ipr := set_rd_p (Some (pc_p x)) d]> (reass_tab v)) v). split; [|split; [done|split; [done|]]].
      * destruct fuel; simpl;
          (eapply runs_bind; [by apply (runs_upd_rd ipr d)|apply runs_ret]).
      * simpl. exists [], [], (helpers v). split_and!; try done.
    + rewrite last_snoc. simpl. destruct (HL y) as [ly Hly]; [set_solver|].
      pose proof Hseg as Hseg'. apply hseg_app in Hseg as [_ [Hy _]]. simpl in Hy.
      destruct (link_helper_runs h v L (y, ly) _ (Some (pc_p x)) Hok Hly Hy) as (h' & Hrun & W & Hok'). simpl in Hrun, W.
      eexists h', _, _. split; [|split; [|split; [done|]]].
      * destruct fuel; simpl;
          (eapply runs_bind; [exact Hrun|]; eapply runs_bind; [apply runs_get_helper; apply lookup_insert_eq|]; apply runs_ret).
      * eapply writes_mono; [|exact W]. intros j ->%list_elem_of_singleton. right. apply list_elem_of_fmap_2. set_solver.
      * exists [], [], (<[pc_p y := Helper (Some (pc_p x)) (pc_start y) (pc_end y)]> (helpers v)). split; [done|]. split; [done|]. split; [|split; [|split]].
        -- simpl. by rewrite gapless_snoc.
        -- unfold with_list. rewrite head_first, first_or_app. simpl.
           assert (first_or (dn ++ [y]) (Some (pc_p x)) = rd_p d) as -> by (rewrite Hd, head_first, !first_or_app; done).
           rewrite set_rd_p_same, (insert_id (reass_tab v)) by done. reflexivity.
        -- apply (hseg_insert (helpers v) dn y x [] None); [|by rewrite app_nil_r|done].
           rewrite fmap_app. simpl in *. apply NoDup_cons in Hnd as [? ?]. apply NoDup_app. split; [done|]. split; [|apply NoDup_singleton]. set_solver.
        -- intros j Hj. apply lookup_insert_ne. intros <-. apply Hj. right. apply list_elem_of_fmap_2. set_solver.
  - destruct fuel as [|fuel]; simpl in Hf; [lia|]. change (head_p (y :: rest)) with (Some (pc_p y)). cbn [chain_frag].
    destruct (HL x) as [lx Hlx]; [set_solver|]. pose proof Hseg as Hseg'. apply hseg_app in Hseg as [Hs1 [Hy Hs2]]. simpl in Hs1.
    assert (pc_p x ∉ pc_p <$> dn ++ y :: rest) as Hxn by by apply NoDup_cons in Hnd as [? _].
    assert (forall z, z ∈ dn ++ y :: rest -> pc_p x <> pc_p z) as Hne by (intros z Hz E0; apply Hxn; rewrite E0; by apply list_elem_of_fmap_2).
    simpl place. destruct (Z.ltb_spec (pc_start x) (pc_start y)) as [Hlt|Hge].
    + destruct (link_helper_runs h v L (x, lx) _ (Some (pc_p y)) Hok Hlx Hx) as (h1 & Hrun1 & W1 & Hok1). simpl in Hrun1, W1.
      set (hs1 := <[pc_p x := _]> (helpers v)) in Hrun1. set (v1 := set_helpers hs1 v) in Hrun1.
      assert (forall z, z ∈ dn ++ y :: rest -> hs1 !! pc_p z = helpers v !! pc_p z) as Hhs1 by (intros z Hz; apply lookup_insert_ne; by apply Hne).
      assert (same_but [pc_p x] (helpers v) hs1) as Hsb1 by (intros j Hj; apply lookup_insert_ne; set_solver).
      assert (writes (pc_p <$> x :: dn ++ y :: rest) h h1) as W1' by (eapply writes_mono; [|exact W1]; set_solver).
      destruct dn as [|pr dn _] using rev_ind.
      * simpl last. simpl fmap. destruct (Z.ltb_spec (pc_start y) (pc_end x)) as [Hov|Hno].
        -- exists h1, None, v1. split; [|split; [done|split; [done|split; [done|by exists hs1]]]].
           eapply runs_bind; [by apply runs_get_helper|]. simpl. rewrite (proj2 (Z.ltb_lt _ _) Hlt). eapply runs_bind; [exact Hrun1|].
           rewrite (proj2 (Z.ltb_lt _ _) Hov). apply runs_ret.
        -- exists h1, (Some true), (set_reass_tab (<[ipr := set_rd_p (Some (pc_p x)) d]> (reass_tab v)) v1). split; [|split; [done|split; [done|]]].
           ++ eapply runs_bind; [by apply runs_get_helper|]. simpl. rewrite (proj2 (Z.ltb_lt _ _) Hlt). eapply runs_bind; [exact Hrun1|].
              rewrite (proj2 (Z.ltb_ge _ _) Hno). eapply runs_bind; [by apply (runs_upd_rd ipr d)|apply runs_ret].
           ++ exists [], (y :: rest), hs1. split; [done|]. split; [done|]. split; [done|]. split; [done|]. split.
              ** split; [apply lookup_insert_eq|]. eapply hseg_frame; [|exact Hseg']. done.
              ** intros j Hj. apply Hsb1. set_solver.
      * rewrite last_snoc. simpl fmap. pose proof (Hlast dn pr eq_refl) as Hpr.
        apply hseg_app in Hs1 as [_ [Hpr2 _]]. simpl in Hpr2.
        assert (helpers v1 !! pc_p pr = Some (Helper (Some (pc_p y)) (pc_start pr) (pc_end pr))) as Hpr1 by (simpl; rewrite Hhs1; [done|set_solver]).
        destruct (Z.ltb_spec (pc_start y) (pc_end x)) as [Hov|Hno].
        -- exists h1, None, v1. split; [|split; [done|split; [done|split; [done|by exists hs1]]]].
           eapply runs_bind; [by apply runs_get_helper|]. simpl. rewrite (proj2 (Z.ltb_lt _ _) Hlt). eapply runs_bind; [exact Hrun1|].
           eapply runs_bind; [by apply runs_get_helper|]. simpl. rewrite (proj2 (Z.ltb_lt _ _) Hov), orb_true_r. apply runs_ret.
        -- destruct (HL pr) as [lp Hlp]; [set_solver|].
           destruct (link_helper_runs h1 v1 L (pr, lp) _ (Some (pc_p x)) Hok1 Hlp Hpr1) as (h2 & Hrun2 & W2 & Hok2). simpl in Hrun2, W2.
           eexists h2, _, _. split; [|split; [|split; [done|]]].
           ++ eapply runs_bind; [by apply runs_get_helper|]. simpl. rewrite (proj2 (Z.ltb_lt _ _) Hlt). eapply runs_bind; [exact Hrun1|].
              eapply runs_bind; [by apply runs_get_helper|]. simpl. rewrite (proj2 (Z.ltb_ge _ _) Hpr), (proj2 (Z.ltb_ge _ _) Hno). simpl.
              eapply runs_bind; [exact Hrun2|]. apply runs_ret.
           ++ transitivity h1; [done|]. eapply writes_mono; [|exact W2]. set_solver.
           ++ exists [], (y :: rest), (<[pc_p pr := Helper (Some (pc_p x)) (pc_start pr) (pc_end pr)]> hs1). split; [done|]. split; [done|]. split; [by rewrite app_nil_l, gapless_snoc|]. split; [|split].
              ** unfold with_list. rewrite head_first, !first_or_app. simpl.
                 assert (first_or dn (Some (pc_p pr)) = rd_p d) as -> by (rewrite Hd, head_first, !first_or_app; done).
                 rewrite set_rd_p_same, (insert_id (reass_tab v)) by done. reflexivity.
              ** apply (hseg_insert hs1 dn pr x (y :: rest) None); [|by eapply hseg_frame; [|exact Hseg']|apply lookup_insert_eq].
                 eapply NoDup_Permutation_proper; [|exact Hnd]. apply fmap_Permutation. by rewrite Permutation_middle.
              ** intros j Hj. rewrite lookup_insert_ne; [apply Hsb1; set_solver|]. intros <-. apply Hj. set_solver.
    + destruct (Z.eqb_spec (pc_start x) (pc_start y)) as [Heq|Hneq].
      { exists h, None, v. split; [|split; [done|split; [done|split; [done|exists (helpers v); by destruct v]]]].
        eapply runs_bind; [by apply runs_get_helper|]. simpl. rewrite (proj2 (Z.ltb_ge _ _) Hge), (proj2 (Z.eqb_eq _ _) Heq). apply runs_ret. }
      destruct (Z.ltb_spec (pc_start x) (pc_end y)) as [Hov|Hno].
      { exists h, None, v. split; [|split; [done|split; [done|split; [done|exists (helpers v); by destruct v]]]].
        eapply runs_bind; [by apply runs_get_helper|]. simpl. rewrite (proj2 (Z.ltb_ge _ _) Hge), (proj2 (Z.eqb_neq _ _) Hneq), (proj2 (Z.ltb_lt _ _) Hov). apply runs_ret. }
      destruct (IH (dn ++ [y]) fuel Hok) as (h' & res & v' & Hrun & W & Hok' & Hres); rewrite <- ?app_assoc; try done.
      { intros l z Ez. apply app_inj_tail in Ez as [_ <-]. done. }
      { lia. }
      rewrite last_snoc in Hrun. simpl fmap in Hrun. rewrite <- app_assoc in W, Hres. simpl app in W, Hres.
      exists h', res, v'. split; [|split; [done|split; [done|]]].
      * eapply runs_bind; [by apply runs_get_helper|]. simpl. rewrite (proj2 (Z.ltb_ge _ _) Hge), (proj2 (Z.eqb_neq _ _) Hneq), (proj2 (Z.ltb_ge _ _) Hno).
        eapply runs_bind; [|rewrite head_first in Hrun; exact Hrun]. destruct dn as [|pr dn _] using rev_ind; [apply runs_ret|].
        rewrite last_snoc. simpl fmap. rewrite gapless_snoc. apply hseg_app in Hs1 as [_ [Hpr2 _]].
        eapply runs_bind; [by apply runs_get_helper|]. apply runs_ret.
      * destruct (place x rest) as [rest'|]; simpl; [|exact Hres].
        destruct Hres as (r1 & r2 & hs & -> & -> & -> & -> & ? & ?). exists (y :: r1), r2, hs. rewrite <- !(app_assoc dn [y]) in *. by split_and!.
Qed.

(** *** Without holes *)

Lemma no_holes_runs h v r : forall x fuel, hseg (helpers v) (x :: r) None -> (length r <= fuel)%nat ->
  runs h v (no_holes (X := X) fuel (pc_p x)) (gapless (x :: r)) h v.
Proof.
  induction r as [|y r IH]; intros x fuel [Hx Hr] Hf.
  - destruct fuel; simpl; (eapply runs_bind; [by apply runs_get_helper|apply runs_ret]).
  - destruct fuel as [|fuel]; simpl in Hf; [lia|]. cbn [no_holes]. eapply runs_bind; [by apply runs_get_helper|]. simpl.
    pose proof Hr as [Hy _]. eapply runs_bind; [by apply runs_get_helper|]. rewrite gapless_cons. simpl.
    destruct (pc_end x =? pc_start y); simpl; [|apply runs_ret]. apply IH; [done|lia].
Qed.
Lemma hseg_size hs l nxt : hseg hs l nxt -> NoDup (pc_p <$> l) -> (length l <= size hs)%nat.
Proof.
  intros Hs Hnd. rewrite <- (length_fmap pc_p), <- (size_list_to_set (C := gset positive)) by done. rewrite <- size_dom. apply subseteq_size.
  intros i (x & -> & Hx)%elem_of_list_to_set%list_elem_of_fmap. apply elem_of_dom. clear Hnd.
  induction l as [|y l IH]; [by apply elem_of_nil in Hx|]. destruct Hs as [Hy Hs]. apply elem_of_cons in Hx as [->|Hx]; [by eexists|by apply IH].
Qed.

(** *** A fragment comes *)

(** [x] in the pbufs [l], as ip4_input hands it over: with the header [hdr] of 20
    bytes, and cut to the length the header gives. *)
Record arrives (h : heap) (x : piece) (l : list (positive * pbuf)) (hdr : list Z) : Prop := {
  ar_queued : queued h (x, l);
  ar_hdr : take 20 (chain_data h l) = hdr;
  ar_hl : IPH_HL_BYTES (byte_at hdr 0) = IP_HLEN;
  ar_len : lwip_htons (ld16 hdr 2) = IP_HLEN + lenZ (pc_data x);
  ar_start : pc_start x = IPH_OFFSET_BYTES hdr;
  ar_bytes : bytes_ok hdr;
}.

Lemma load_header h x l n : queued h (x, l) -> 0 <= n <= IP_HLEN -> exists b r, l = (pc_p x, b) :: r /\ h_pbufs h !! pc_p x = Some b /\
  load (payload b) 0 n h = Some (take (Z.to_nat n) (chain_data h l), h).
Proof.
  intros Hq Hn. destruct (queued_head h _ Hq) as (b & r & Ex & Hb & Hl & Hok & _). simpl in *. exists b, r. split; [done|]. split; [done|].
  rewrite load_pdata by (done || lia). do 2 f_equal. rewrite Ex, chain_data_cons. unfold slice. simpl.
  assert (lenZ (pdata h b) = len b) as El by (apply length_pdata; [lia|done]). rewrite drop_0, take_app_le by lia. done.
Qed.

Lemma arrives_start h x l hdr : arrives h x l hdr -> 0 <= pc_start x < 65536 /\ lenZ (pc_data x) < 65536.
Proof.
  intros [_ _ _ Hl Hs _]. rewrite Hs. split; [apply u16_bound|]. assert (lwip_htons (ld16 hdr 2) < 65536); [|unfold IP_HLEN in *; lia].
  unfold lwip_htons, PP_HTONS. apply u16_bound.
Qed.

Lemma new_helper_runs h v L x l s e :
  pbufs_ok h L -> (x, l) ∈ L ->
  exists h', runs h v (new_helper (X := X) (pc_p x) s e) tt h' (set_helpers (<[pc_p x := Helper None s e]> (helpers v)) v) /\ writes [pc_p x] h h' /\ pbufs_ok h' L.
Proof.
  intros Hok Hx. pose proof Hok as [Hq _]. rewrite Forall_forall in Hq. destruct (queued_head h _ (Hq _ Hx)) as (b & r & Ex & Hb & _). simpl in *.
  destruct (store_queued h L (x, l) b r 0 (st32 (pbuf_word None)) Hok Hx Ex ltac:(lia)) as (h1 & Hst1 & W1 & Hok1 & _); [done|].
  destruct (store_queued h1 L (x, l) b r 4 (st16 s) Hok1 Hx Ex ltac:(lia)) as (h2 & Hst2 & W2 & Hok2 & _); [done|].
  destruct (store_queued h2 L (x, l) b r 6 (st16 e) Hok2 Hx Ex ltac:(lia)) as (h3 & Hst3 & W3 & Hok3 & _); [done|].
  exists h3. split; [|split; [by transitivity h1; [|transitivity h2]|done]].
  eapply runs_bind; [apply runs_heap; by apply get_pbuf_run|]. eapply runs_bind; [by apply runs_heap|]. eapply runs_bind; [by apply runs_heap|].
  eapply runs_bind; [by apply runs_heap|]. by apply runs_reass.
Qed.

Lemma validate_runs ipr d Q x l hdr L h v is_last :
  pbufs_ok h L -> (x, l) ∈ L -> (forall y, y ∈ Q -> exists l, (y, l) ∈ L) -> NoDup (pc_p <$> x :: Q) ->
  arrives h x l hdr -> hseg (helpers v) Q None -> reass_tab v !! ipr = Some d -> rd_p d = head_p Q ->
  exists h' res v', runs h v (ip_reass_chain_frag_into_datagram_and_validate (X := X) ipr (pc_p x) is_last) res h' v' /\
    writes (pc_p <$> x :: Q) h h' /\ pbufs_ok h' L /\
    match (if pc_end x <? 65536 then place x Q else None) with
    | None => res = IP_REASS_VALIDATE_PBUF_DROPPED /\ exists hs, v' = set_helpers hs v /\ same_but [pc_p x] (helpers v) hs
    | Some Q' => exists hs, v' = with_list ipr d Q' hs v /\ hseg hs Q' None /\ same_but (pc_p <$> x :: Q) (helpers v) hs /\
        res = if (is_last || negb (Z.land (rd_flags d) IP_REASS_FLAG_LASTFRAG =? 0)) && (starts Q' && gapless Q')
              then IP_REASS_VALIDATE_TELEGRAM_FINISHED else IP_REASS_VALIDATE_PBUF_QUEUED
    end.
Proof.
  intros Hok Hx HQ Hnd Har Hseg Hipr Hd. destruct (arrives_start _ _ _ _ Har) as [Hs1 Hs2]. pose proof Har as [Hq Hh Hhl Hlen Hst _].
  destruct (load_header h x l IP_HLEN Hq ltac:(done)) as (b & r & El & Hb & Hld). change (Z.to_nat IP_HLEN) with 20%nat in Hld. rewrite Hh in Hld.
  set (v1 := set_helpers (<[pc_p x := Helper None (pc_start x) (u16 (pc_end x))]> (helpers v)) v).
  destruct (new_helper_runs h v L x l (pc_start x) (u16 (pc_end x)) Hok Hx) as (h1 & Hnew & W1 & Hok1). fold v1 in Hnew.
  assert (same_but [pc_p x] (helpers v) (helpers v1)) as Hsb by (intros j Hj; apply lookup_insert_ne; set_solver).
  assert (writes (pc_p <$> x :: Q) h h1) as W1' by (eapply writes_mono; [|exact W1]; set_solver).
  assert (forall res h' v',
    (pc_end x < 65536 -> runs h1 v1 (s ← onreass get; placed ← chain_frag (helper_fuel s) ipr (pc_p x) (pc_start x) (pc_end x) (rd_p d) None true;
      match placed with
      | None => mret IP_REASS_VALIDATE_PBUF_DROPPED
      | Some valid =>
          d ← get_rd ipr;
          if is_last || negb (Z.land (rd_flags d) IP_REASS_FLAG_LASTFRAG =? 0) then
            valid ← (if (valid : bool) then
                       match rd_p d with
                       | None => mret false
                       | Some p0 => t ← get_helper p0; if negb (start t =? 0) then mret false else no_holes (helper_fuel s) (pc_p x)
                       end
                     else mret false);
            mret (if (valid : bool) then IP_REASS_VALIDATE_TELEGRAM_FINISHED else IP_REASS_VALIDATE_PBUF_QUEUED)
          else mret IP_REASS_VALIDATE_PBUF_QUEUED
      end) res h' v') ->
    (65536 <= pc_end x -> res = IP_REASS_VALIDATE_PBUF_DROPPED /\ h' = h1 /\ v' = v1) ->
    runs h v (ip_reass_chain_frag_into_datagram_and_validate ipr (pc_p x) is_last) res h' v') as Hstart.
  { intros res h' v' Hin Hout. unfold ip_reass_chain_frag_into_datagram_and_validate. eapply runs_bind; [apply runs_heap; by apply get_pbuf_run|].
    eapply runs_bind; [by apply runs_heap|]. rewrite Hlen, Hhl. rewrite (proj2 (Z.ltb_ge _ _)) by lia.
    replace (IP_HLEN + lenZ (pc_data x) - IP_HLEN) with (lenZ (pc_data x)) by lia. rewrite (u16_small (lenZ _)) by lia. rewrite <- Hst. fold (pc_end x).
    eapply runs_bind; [exact Hnew|]. destruct (Z.lt_ge_cases (pc_end x) 65536) as [Hlt|Hge].
    - rewrite u16_small by (unfold pc_end in *; lia). rewrite (proj2 (Z.ltb_ge _ _)) by (unfold pc_end; lia).
      eapply runs_bind; [by apply (runs_get_rd ipr d)|]. by apply Hin.
    - destruct (Hout Hge) as (-> & -> & ->). rewrite (proj2 (Z.ltb_lt _ _)) by (unfold pc_end in *; ulia). apply runs_ret. }
  destruct (Z.ltb_spec (pc_end x) 65536) as [Hlt|Hge].
  2: { exists h1, IP_REASS_VALIDATE_PBUF_DROPPED, v1. split; [apply Hstart; [lia|done]|]. split; [done|]. split; [done|]. split; [done|]. by exists (helpers v1). }
  assert (hseg (helpers v1) Q None) as Hseg1.
  { eapply hseg_frame; [|exact Hseg]. intros y Hy. apply lookup_insert_ne. intros E0. apply NoDup_cons in Hnd as [Hni _]. apply Hni. rewrite E0. by apply list_elem_of_fmap_2. }
  assert (helpers v1 !! pc_p x = Some (Helper None (pc_start x) (pc_end x))) as Hx1.
  { unfold v1. simpl. rewrite lookup_insert_eq, u16_small by (unfold pc_end in *; lia). done. }
  pose proof Hnd as HndQ. apply NoDup_cons in HndQ as [Hni HndQ].
  pose proof (hseg_size _ _ _ Hseg1 HndQ) as Hsz.
  destruct (chain_frag_runs ipr d x L h1 v1 Q [] (helper_fuel v1) Hok1) as (h2 & res & v2 & Hrun & W2 & Hok2 & Hres); try done.
  { intros y [->|Hy]%elem_of_cons; [by exists l|by apply HQ]. }
  { by intros [|? [|]] ?. }
  { unfold helper_fuel. lia. }
  rewrite <- Hd in Hrun. simpl in Hrun. change (gapless []) with true in Hrun.
  assert (writes (pc_p <$> x :: Q) h h2) as W12 by (transitivity h1; [done|exact W2]).
  destruct (place x Q) as [Q'|] eqn:EQ.
  2: { destruct Hres as [-> (hs & -> & Hsb2)]. exists h2, IP_REASS_VALIDATE_PBUF_DROPPED, (set_helpers hs v1). split; [apply Hstart; [intros _|lia]|].
    - eapply runs_bind; [by apply runs_reass|]. eapply runs_bind; [exact Hrun|]. apply runs_ret.
    - split; [done|]. split; [done|]. split; [done|]. exists hs. split; [done|]. intros j Hj. by rewrite (Hsb2 j Hj), Hsb. }
  destruct Hres as (r1 & r2 & hs & -> & -> & -> & -> & Hseg2 & Hsb2). simpl app in *.
  set (Q' := r1 ++ x :: r2) in *. set (v2 := with_list ipr d Q' hs v1) in *.
  assert (reass_tab v2 !! ipr = Some (set_rd_p (head_p Q') d)) as Hipr2 by apply lookup_insert_eq.
  eexists h2, _, v2. split; [apply Hstart; [intros _|lia]|split; [done|split; [done|]]].
  - eapply runs_bind; [by apply runs_reass|]. eapply runs_bind; [exact Hrun|]. eapply runs_bind; [by apply runs_get_rd|].
    change (rd_flags (set_rd_p (head_p Q') d)) with (rd_flags d). change (rd_p (set_rd_p (head_p Q') d)) with (head_p Q').
    instantiate (1 := if (is_last || negb (Z.land (rd_flags d) IP_REASS_FLAG_LASTFRAG =? 0)) && (starts Q' && gapless Q')
              then IP_REASS_VALIDATE_TELEGRAM_FINISHED else IP_REASS_VALIDATE_PBUF_QUEUED).
    destruct (_ || _); [|apply runs_ret]. simpl andb.
    assert (hseg hs (x :: r2) None) as Hseg3 by (by apply hseg_app in Hseg2 as [_ ?]).
    assert (runs h2 v2 (if gapless (r1 ++ [x]) then
        match head_p Q' with
        | None => mret false
        | Some p0 => t ← get_helper p0; if negb (start t =? 0) then mret false else no_holes (helper_fuel v1) (pc_p x)
        end else mret false) (starts Q' && gapless Q') h2 v2) as Hv.
    { assert (gapless Q' = gapless (r1 ++ [x]) && gapless (x :: r2)) as Eg by apply gapless_app. rewrite Eg.
      destruct (gapless (r1 ++ [x])); [|rewrite andb_false_l, andb_false_r; apply runs_ret]. rewrite andb_true_l.
      assert (exists z r, Q' = z :: r) as (z & r' & Ez) by (unfold Q'; destruct r1; eauto). fold Q'. rewrite Ez in *. cbn [head_p head starts].
      destruct Hseg2 as [Hz _]. change (head_p (z :: r')) with (Some (pc_p z)). cbv iota. eapply runs_bind; [by apply runs_get_helper|]. cbn [start].
      destruct (pc_start z =? 0); cbn [negb]; [|apply runs_ret]. rewrite andb_true_l.
      apply no_holes_runs; [done|unfold helper_fuel; rewrite length_app in Hsz; lia]. }
    eapply runs_bind; [exact Hv|]. apply runs_ret.
  - exists hs. split; [|split; [done|split; [|done]]].
    + unfold v2, with_list. reflexivity.
    + intros j Hj. rewrite (Hsb2 j Hj). apply Hsb. set_solver.
Qed.
End Chain.
