(* ===== verification/IpReassRun.v ===== *)
(** * Reassembly: ip4_reass follows the abstract machine

    [repr]: what the variables, the helper structs and the queued pbufs say is a list
    of datagrams.  ip4_reass takes a fragment the way [reass_step] does, and what it
    gives out has the bytes of the datagram. *)
From S2P Require Import Prelude Triple Def Pbuf PbufFacts PbufWrite PbufAlloc PbufChain InetChksum Netif Node Ip4Addr Ethernet Etharp Ip4 Icmp IpReass IpReassSpec IpReassFacts.

(** ** Pbufs elsewhere *)

Definition frames (P : list positive) (h h' : heap) : Prop :=
  forall j, j ∉ P -> h_pbufs h' !! j = h_pbufs h !! j /\ h_mem h' !! j = h_mem h !! j.

Definition gone (h : heap) (P : list positive) : Prop := Forall (fun j => h_pbufs h !! j = None) P.

#[export] Instance frames_refl P : Reflexive (frames P).
Proof. by intros h j. Qed.
#[export] Instance frames_trans P : Transitive (frames P).
Proof. intros h1 h2 h3 H1 H2 j Hj. destruct (H1 j Hj), (H2 j Hj). split; congruence. Qed.
Lemma frames_mono P P' h h' : P ⊆ P' -> frames P h h' -> frames P' h h'.
Proof. intros Hs H j Hj. apply H. set_solver. Qed.
Lemma writes_frames bl h h' : writes bl h h' -> frames bl h h'.
Proof. intros W j Hj. split; [by rewrite (writes_pbufs _ _ _ W)|by apply (writes_frame _ _ _ W)]. Qed.
Lemma frames_pbufs P h h' : h_mem h' = h_mem h -> (forall j, j ∉ P -> h_pbufs h' !! j = h_pbufs h !! j) -> frames P h h'.
Proof. intros Hm Hp j Hj. split; [by apply Hp|by rewrite Hm]. Qed.

Lemma frames_queued P h h' x : frames P h h' -> (forall i, i ∈ x.2.*1 -> i ∉ P) -> queued h x ->
  queued h' x /\ chain_data h' x.2 = chain_data h x.2.
Proof.
  intros F Hd [Hp Hs Hh Hdat]. rewrite Forall_forall in Hs.
  assert (forall i b, (i, b) ∈ x.2 -> i ∈ x.2.*1) as Hin by (intros i b Hib; change i with (i, b).1; by apply list_elem_of_fmap_2).
  assert (forall i b, (i, b) ∈ x.2 -> h_mem h' !! i = h_mem h !! i) as Hm by (intros i b Hib; apply F, Hd; by eapply Hin).
  assert (chain_data h' x.2 = chain_data h x.2) as Ecd.
  { unfold chain_data. f_equal. apply list_fmap_ext. intros k [i b] Hib%list_elem_of_lookup_2. specialize (Hs _ Hib) as [_ Hb]. simpl in *. unfold pdata, blk_of in *.
    destruct (payload b) as [[blk o]|]; [|done]. simpl in Hb. simplify_eq. by rewrite (Hm i b Hib). }
  split; [|done]. split; [|apply Forall_forall; intros [i b] Hib|done|by rewrite Ecd].
  - eapply packet_frame; [| |exact Hp]; [intros i Hi; apply F; by apply Hd|]. intros i b Hib [?|(blk & o & bs & E1 & E2 & ?)]; [by left|right].
    specialize (Hs _ Hib) as [_ Hb]. unfold blk_of in Hb. simpl in Hb. rewrite E1 in Hb. simpl in Hb. simplify_eq. exists i, o, bs. rewrite (Hm i b Hib). done.
  - specialize (Hs _ Hib) as [(? & ? & ?) ?]. split; [|done]. split; [done|]. split; [done|]. simpl in *. by rewrite (Hm i b Hib).
Qed.
Lemma queued_length h x : queued h x -> lenZ (chain_data h x.2) = IP_HLEN + lenZ (pc_data x.1) /\ sum_len x.2 = IP_HLEN + lenZ (pc_data x.1).
Proof.
  intros Hq. pose proof (q_packet _ _ Hq) as Hp. pose proof (length_chain_data _ _ _ Hp) as El. destruct (queued_head h x Hq) as (b & r & Ex & _ & Hl & _).
  pose proof (q_data _ _ Hq) as <-. rewrite length_drop. assert (IP_HLEN <= sum_len x.2); [|unfold IP_HLEN in *; lia].
  rewrite Ex in *. apply packet_cons_inv in Hp as (_ & _ & _ & _ & _ & _ & _ & ?). simpl. unfold IP_HLEN in *. lia.
Qed.
Lemma frames_ok P h h' L : frames P h h' -> (forall i, i ∈ ids L -> i ∉ P) -> pbufs_ok h L -> pbufs_ok h' L.
Proof.
  intros F Hd [Hq Hnd]. split; [|done]. rewrite Forall_forall in Hq |- *. intros x Hx. apply (frames_queued P h); [done| |by apply Hq].
  intros i Hi. apply Hd. apply elem_of_ids. by exists x.
Qed.
Lemma frames_arrives P h h' x l hdr : frames P h h' -> (forall i, i ∈ l.*1 -> i ∉ P) -> arrives h x l hdr -> arrives h' x l hdr.
Proof. intros F Hd [Hq ? ? ? ? ?]. destruct (frames_queued P h h' (x, l) F Hd Hq) as [? E]. split; try done. simpl in E. by rewrite E. Qed.

Lemma pieces_NoDup h L : pbufs_ok h L -> NoDup (pc_p <$> L.*1).
Proof.
  induction L as [|x L IH]; [by constructor|]. intros (Hx & Hok & Hd)%pbufs_ok_cons. csimpl. constructor; [|by apply IH].
  destruct (queued_head h x Hx) as (b & r & Ex & _). intros (y & Ey & (z & -> & Hz)%list_elem_of_fmap)%list_elem_of_fmap.
  apply (Hd (pc_p x.1)); [rewrite Ex; left|]. apply elem_of_ids. exists z. split; [done|]. destruct Hok as [Hq _]. rewrite Forall_forall in Hq.
  destruct (queued_head h z (Hq z Hz)) as (b' & r' & -> & _). rewrite Ey. left.
Qed.
Lemma free_queued `{PbufEnv} h x : queued h x -> exists n h', pbuf_free (Some (pc_p x.1)) h = Some (n, h') /\ frames x.2.*1 h h' /\ gone h' x.2.*1.
Proof.
  intros [Hp Hs _ _]. eexists _, _. split; [|split].
  - apply (pbuf_free_run h (pc_p x.1) x.2 []); [rewrite app_nil_r; apply (packet_chain _ _ _ Hp)| |done]. eapply Forall_impl; [exact Hs|]. by intros ib [? _].
  - intros j Hj. by apply release_all_other.
  - apply Forall_forall. intros j Hj. by apply release_all_gone.
Qed.

Lemma pbuf_clen_run h p l : chain h p l -> lenZ l < 65536 -> pbuf_clen p h = Some (lenZ l, h).
Proof.
  intros Hc Hl. unfold pbuf_clen. rewrite bind_get. pose proof (chain_fuel_enough _ _ _ Hc) as Hf.
  assert (forall fuel l p k, chain h p l -> (length l <= fuel)%nat -> 0 <= k -> k + lenZ l < 65536 -> pbuf_clen_loop fuel p k h = Some (k + lenZ l, h)) as Hloop.
  { clear. induction fuel as [|fuel IH]; intros l p k Hc Hf Hk Hs.
    - destruct l; [|simpl in Hf; lia]. apply chain_nil_inv in Hc as ->. simpl. by rewrite Z.add_0_r.
    - destruct l as [|[i b] l]; [apply chain_nil_inv in Hc as ->; simpl; by rewrite Z.add_0_r|]. apply chain_inv' in Hc as (-> & Hi & Hc). cbn [pbuf_clen_loop].
      mrun (get_pbuf_run _ _ _ Hi). simpl in Hf, Hs. rewrite u16_small by lia. rewrite (IH l) by (done || lia). do 2 f_equal. simpl. lia. }
  rewrite (Hloop _ l) by (done || lia). done.
Qed.

Lemma runs_assoc {X : Type} `{RP : part X reass} {A B C} (m : M (node X) A) (f : A -> M (node X) B) (g : B -> M (node X) C) h v c h' v' :
  runs h v ((m ≫= f) ≫= g) c h' v' -> runs h v (m ≫= (fun a => f a ≫= g)) c h' v'.
Proof. intros H s Hs. destruct (H s Hs) as (s' & Hr & ?). exists s'. split; [|done]. by rewrite <- bind_assoc. Qed.

Section Finish.
Context {E : PbufEnv} {X : Type} {RP : part X reass} {AD : Addresses}.

(** *** Chaining the fragments *)

Lemma chain_one h p A x : packet h (Some p) A -> queued h x -> (forall i, i ∈ A.*1 -> i ∉ x.2.*1) -> sum_len A + lenZ (pc_data x.1) < 65536 ->
  exists h0 h' A', pbuf_remove_header (Some (pc_p x.1)) IP_HLEN h = Some (false, h0) /\ pbuf_cat (Some p) (Some (pc_p x.1)) h0 = Some (tt, h') /\
    packet h' (Some p) A' /\ A'.*1 = A.*1 ++ x.2.*1 /\ chain_data h' A' = chain_data h A ++ pc_data x.1 /\ frames (A.*1 ++ x.2.*1) h h'.
Proof.
  intros Hp Hq Hd Hsum. destruct (queued_head h x Hq) as (b & r & Ex & Hb & Hl & _ & Hl2). pose proof Hq as [Hpx Hs _ Hdat]. rewrite Ex in Hpx, Hs, Hdat.
  apply Forall_cons in Hs as [[_ Hblk] _]. unfold blk_of in Hblk. simpl in Hblk. destruct (payload b) as [[blk o]|] eqn:Epl; [|done]. simpl in Hblk. simplify_eq.
  pose proof (pbuf_remove_header_run h (pc_p x.1) b (pc_p x.1) o IP_HLEN Hb Epl ltac:(done) Hl Hl2) as Hrm.
  destruct (remove_header_packet h (pc_p x.1) b r (pc_p x.1) o IP_HLEN Hpx Epl ltac:(done) Hl) as [Hp1 Hcd1].
  set (h1 := set_pbufs _ h) in *. set (lt := (pc_p x.1, move_payload b (pc_p x.1) o (- IP_HLEN)) :: r) in *.
  change (Z.to_nat IP_HLEN) with 20%nat in Hcd1. rewrite Hdat in Hcd1.
  assert (lt.*1 = x.2.*1) as Eids by (by rewrite Ex).
  assert (packet h1 (Some p) A) as HpA.
  { apply (packet_frame_pbufs h); [|done|exact Hp]. intros i Hi. simpl. apply lookup_insert_ne. intros <-. apply (Hd _ Hi). rewrite Ex. left. }
  pose proof (length_chain_data _ _ _ Hp1) as Hlt. rewrite Hcd1 in Hlt.
  destruct (pbuf_cat_run h1 p (pc_p x.1) A lt HpA Hp1) as (h2 & A' & Hcat & Hp2 & Hcd2 & EA & Hm2 & _ & Hf2); [by rewrite Eids|lia|].
  exists h1, h2, (A' ++ lt). split; [done|]. split; [done|]. split; [done|]. split; [by rewrite fmap_app, EA, Eids|]. split.
  - rewrite chain_data_app, Hcd2. f_equal. rewrite <- Hcd1. by apply chain_data_mem.
  - apply frames_pbufs; [by rewrite Hm2|]. intros j Hj. rewrite Hf2 by set_solver. simpl. apply lookup_insert_ne. intros <-. apply Hj. apply elem_of_app. right. rewrite Ex. left.
Qed.

Lemma chain_pbufs_runs v p LR : forall h A fuel,
  packet h (Some p) A -> pbufs_ok h LR -> (forall i, i ∈ A.*1 -> i ∉ ids LR) -> hseg (helpers v) LR.*1 None ->
  sum_len A + lenZ (concat (pc_data <$> LR.*1)) < 65536 -> (length LR <= fuel)%nat ->
  exists h' A', runs h v (chain_pbufs (X := X) fuel p (first_or LR.*1 None)) tt h' v /\ packet h' (Some p) A' /\ A'.*1 = A.*1 ++ ids LR /\
    chain_data h' A' = chain_data h A ++ concat (pc_data <$> LR.*1) /\ frames (A.*1 ++ ids LR) h h'.
Proof.
  induction LR as [|x LR IH]; intros h A fuel Hp Hok Hd Hseg Hsum Hf.
  { exists h, A. split; [destruct fuel; apply runs_ret|]. split; [done|]. change (ids []) with (@nil positive). rewrite !app_nil_r. done. }
  destruct fuel as [|fuel]; [simpl in Hf; lia|]. apply pbufs_ok_cons in Hok as (Hx & Hok & Hdx). change (ids (x :: LR)) with (x.2.*1 ++ ids LR) in *.
  csimpl in Hseg. destruct Hseg as [Hhx Hseg]. csimpl in Hsum. rewrite length_app in Hsum.
  destruct (chain_one h p A x Hp Hx) as (h0 & h1 & A1 & Hrm & Hrun1 & Hp1 & EA1 & Hcd1 & F1); [set_solver|lia|].
  destruct (IH h1 A1 fuel Hp1) as (h2 & A2 & Hrun2 & Hp2 & EA2 & Hcd2 & F2).
  - eapply frames_ok; [exact F1| |done]. set_solver.
  - rewrite EA1. set_solver.
  - done.
  - rewrite <- (length_chain_data _ _ _ Hp1), Hcd1, length_app. pose proof (length_chain_data _ _ _ Hp). lia.
  - simpl in Hf. lia.
  - exists h2, A2. split; [|split; [done|split; [|split]]].
    + csimpl. cbn [chain_pbufs first_or]. eapply runs_bind; [apply runs_heap; exact Hrm|]. eapply runs_bind; [apply runs_heap; exact Hrun1|].
      eapply runs_bind; [by apply runs_get_helper|]. exact Hrun2.
    + by rewrite EA2, EA1, <- app_assoc.
    + rewrite Hcd2, Hcd1, <- app_assoc. done.
    + transitivity h1; [eapply frames_mono; [|exact F1]; set_solver|eapply frames_mono; [|exact F2]; rewrite EA1; set_solver].
Qed.

(** *** The header of the datagram *)

Lemma put_header h L x hd dat hdr len : pbufs_ok h L -> x ∈ L -> chain_data h x.2 = hd ++ dat -> lenZ hd = 20 -> lenZ hdr = 20 -> bytes_ok hdr ->
  let c := overwrite (overwrite (overwrite hdr 2 (st16 len)) 6 (st16 0)) 10 (st16 0) in
  exists b r h', x.2 = (pc_p x.1, b) :: r /\ h_pbufs h !! pc_p x.1 = Some b /\ writes [pc_p x.1] h h' /\ pbufs_ok h' L /\
    chain_data h' x.2 = overwrite c 10 (st16 (inet_chksum 0 c)) ++ dat /\
    forall v B (k : M (node X) B) o h2 v2, runs h' v k o h2 v2 ->
      runs h v (onheap (store (payload b) 0 hdr);; onheap (store (payload b) 2 (st16 len));; onheap (store (payload b) 6 (st16 0));;
        onheap (store (payload b) 10 (st16 0));; c ← onheap (chksum_at (payload b) IP_HLEN); onheap (store (payload b) 10 (st16 c));; k) o h2 v2.
Proof.
  intros Hok Hx Hcd Hhd Hhdr Hb c. pose proof Hok as [Hq _]. rewrite Forall_forall in Hq. destruct (queued_head h x (Hq x Hx)) as (b & r & Ex & Hpb & _).
  assert (forall w, lenZ (st16 w) = 2) as Hst by done. unfold IP_HLEN in *.
  destruct (store_queued h L x b r 0 hdr Hok Hx Ex ltac:(lia)) as (h1 & Hs1 & W1 & Hok1 & Hcd1); [unfold IP_HLEN; lia|].
  destruct (store_queued h1 L x b r 2 (st16 len) Hok1 Hx Ex ltac:(lia)) as (h2 & Hs2 & W2 & Hok2 & Hcd2); [done|].
  destruct (store_queued h2 L x b r 6 (st16 0) Hok2 Hx Ex ltac:(lia)) as (h3 & Hs3 & W3 & Hok3 & Hcd3); [done|].
  destruct (store_queued h3 L x b r 10 (st16 0) Hok3 Hx Ex ltac:(lia)) as (h4 & Hs4 & W4 & Hok4 & Hcd4); [done|].
  assert (chain_data h1 x.2 = hdr ++ dat) as E1.
  { rewrite Hcd1, Hcd, overwrite_app_l by lia. f_equal. unfold overwrite. rewrite take_0, drop_ge by lia. by rewrite app_nil_r. }
  rewrite E1, overwrite_app_l in Hcd2 by (rewrite ?Hst; lia).
  assert (lenZ (overwrite hdr 2 (st16 len)) = 20) as L2 by (rewrite length_overwrite; rewrite ?Hst; lia).
  rewrite Hcd2, overwrite_app_l in Hcd3 by (rewrite ?Hst; lia).
  assert (lenZ (overwrite (overwrite hdr 2 (st16 len)) 6 (st16 0)) = 20) as L3 by (rewrite length_overwrite; rewrite ?Hst; lia).
  rewrite Hcd3, overwrite_app_l in Hcd4 by (rewrite ?Hst; lia). fold c in Hcd4.
  assert (lenZ c = 20) as L4 by (unfold c; rewrite length_overwrite; rewrite ?Hst; lia).
  assert (forall w, bytes_ok (st16 w)) as Hst2 by (intros w; by repeat (apply Forall_cons_2; [apply Z.mod_pos_bound; lia|])).
  assert (bytes_ok c) as Hbc by (unfold c; auto 10 with lwip).
  destruct (store_queued h4 L x b r 10 (st16 (inet_chksum 0 c)) Hok4 Hx Ex ltac:(lia)) as (h5 & Hs5 & W5 & Hok5 & Hcd5); [done|].
  exists b, r, h5. split; [done|]. split; [done|]. split; [by transitivity h1; [|transitivity h2; [|transitivity h3; [|transitivity h4]]]|].
  split; [done|]. split; [rewrite Hcd5, Hcd4, overwrite_app_l by (rewrite ?Hst; lia); done|].
  pose proof Hok4 as [Hq4 _]. rewrite Forall_forall in Hq4. assert (queued h4 (x.1, x.2)) as Hq4x by (destruct x; by apply Hq4).
  destruct (load_header h4 x.1 x.2 IP_HLEN Hq4x ltac:(done)) as (b' & r' & Ex' & _ & Hld). rewrite Ex in Ex'. injection Ex' as <- <-.
  rewrite Hcd4 in Hld. change (Z.to_nat IP_HLEN) with 20%nat in Hld. rewrite take_app_le, take_ge in Hld by lia.
  intros v B k o h6 v6 Hk. do 4 (eapply runs_bind; [by apply runs_heap|]). eapply runs_bind.
  { apply runs_heap. unfold chksum_at. by mrun Hld. }
  rewrite (inet_chksum_eq (match payload b with Some q => addr_of q | None => 0 end)), <- (inet_chksum_eq 0) by (done || lia).
  eapply runs_bind; [by apply runs_heap|done].
Qed.

(** *** Leaving the list *)

Lemma before_last i l1 l2 : NoDup (l1 ++ i :: l2) -> before i (l1 ++ i :: l2) = if decide (l1 = []) then before i (i :: l2) else last l1.
Proof.
  induction l1 as [|j l1 IH]; intros Hnd; [done|]. rewrite decide_False by done. simpl in Hnd. apply NoDup_cons in Hnd as [_ Hnd]. specialize (IH Hnd).
  destruct l1 as [|k l1].
  - simpl. by rewrite decide_True.
  - change ((j :: k :: l1) ++ i :: l2) with (j :: k :: (l1 ++ i :: l2)). cbn [before]. rewrite decide_False; [|intros ->; simpl in Hnd; apply NoDup_cons in Hnd as [Hk _]; apply Hk; set_solver].
    by rewrite decide_False in IH.
Qed.
Lemma relink_last pr i l1 l2 : NoDup ((l1 ++ [pr]) ++ i :: l2) -> relink pr i ((l1 ++ [pr]) ++ i :: l2) = (l1 ++ [pr]) ++ l2.
Proof.
  induction l1 as [|j l1 IH]; intros Hnd.
  - cbn. rewrite decide_True by done. by rewrite decide_True.
  - simpl in Hnd. apply NoDup_cons in Hnd as [Hj Hnd]. cbn. rewrite decide_False by set_solver. f_equal. by apply IH.
Qed.

(** The variables without the datagram [i]. *)
Definition without (i : positive) (l : list positive) (v : reass) : reass :=
  Reass l (delete i (reass_tab v)) (ip_reass_pbufcount v) (reassdata_free v + 1) (reassdata_next v) (helpers v).
Lemma dequeue_runs h v i l1 l2 : reassdatagrams v = l1 ++ i :: l2 -> NoDup (l1 ++ i :: l2) ->
  runs h v (ip_reass_dequeue_datagram (X := X) i (last l1)) tt h (without i (l1 ++ l2) v).
Proof.
  intros El Hnd. eapply runs_bind; [by apply runs_reass|]. rewrite El. destruct l1 as [|pr l1 _] using rev_ind.
  - simpl app. rewrite decide_True by done. eapply runs_bind; [apply runs_ret|]. by apply runs_reass.
  - rewrite decide_False.
    + eapply runs_bind; [eapply runs_bind; [apply runs_lift; apply last_snoc|apply runs_ret]|]. rewrite relink_last by done. by apply runs_reass.
    + intros Eh. assert (i ∈ l1 ++ [pr]) as Hin by (destruct l1; simpl in Eh; injection Eh as ->; left). apply NoDup_app in Hnd as (_ & Hd & _). apply (Hd i Hin). left.
Qed.
Lemma prev_of i l1 l2 : NoDup (l1 ++ i :: l2) ->
  (if decide (head (l1 ++ i :: l2) = Some i) then None else before i (l1 ++ i :: l2)) = last l1.
Proof.
  intros Hnd. rewrite before_last by done. destruct l1 as [|j l1]; [by rewrite decide_True|]. rewrite decide_False; [by rewrite decide_False|].
  simpl. intros [= ->]. simpl in Hnd. apply NoDup_cons in Hnd as [Hj _]. set_solver.
Qed.

(** *** The datagram is complete *)

Definition rd_of (g : dgram) : ip_reassdata := ReassData (head_p (dg_pieces g)) (dg_hdr g) (dg_len g) (bool_to_Z (dg_last g)) (dg_timer g).

Lemma finish_runs h v i g LG O l1 l2 :
  reass_tab v !! i = Some (rd_of g) -> LG.*1 = dg_pieces g -> dg_pieces g <> [] -> hseg (helpers v) (dg_pieces g) None ->
  pbufs_ok h (LG ++ O) -> lenZ (dg_hdr g) = 20 -> bytes_ok (dg_hdr g) -> IP_HLEN + lenZ (dg_data g) < 65536 ->
  reassdatagrams v = l1 ++ i :: l2 -> NoDup (l1 ++ i :: l2) -> lenZ (ids LG) < 65536 ->
  exists p h' A v', runs h v (reass_finish (X := X) i) (Some p) h' v' /\ packet h' (Some p) A /\ A.*1 = ids LG /\
    chain_data h' A = out_header g ++ dg_data g /\ frames (ids LG) h h' /\
    v' = set_pbufcount (u16 (ip_reass_pbufcount v - lenZ (ids LG))) (without i (l1 ++ l2) v).
Proof.
  intros Hi ELG Hne Hseg Hok Hhl Hhb Hsz El Hnd Hcnt. destruct LG as [|x LR]; [by rewrite <- ELG in Hne|]. unfold dg_data in *. rewrite <- ELG in *. csimpl in *.
  assert (x ∈ (x :: LR) ++ O) as Hx by left. pose proof Hok as [Hq _]. rewrite Forall_forall in Hq. pose proof (Hq x Hx) as Hqx.
  destruct Hseg as [Hhx Hseg].
  destruct (queued_length h x Hqx) as [Elen _].
  destruct (put_header h ((x :: LR) ++ O) x (take 20 (chain_data h x.2)) (pc_data x.1) (dg_hdr g) (lwip_htons (u16 (dg_len g + IP_HLEN))) Hok Hx)
    as (b & r & h1 & Ex & Hb & W1 & Hok1 & Hcd1 & Hst); [by rewrite <- (q_data _ _ Hqx), take_drop|rewrite length_take; unfold IP_HLEN in *; lia|done|done|].
  fold (out_header g) in Hcd1.
  pose proof Hok1 as [Hq1 _]. rewrite Forall_forall in Hq1. pose proof (Hq1 x Hx) as Hqx1. pose proof (q_packet _ _ Hqx1) as Hp1.
  change ((x :: LR) ++ O) with (x :: LR ++ O) in Hok1. apply pbufs_ok_cons in Hok1 as (_ & Hok1 & Hd1).
  assert (pbufs_ok h1 LR) as HokR.
  { destruct Hok1 as [H1 H2]. apply Forall_app in H1 as [H1 _]. rewrite ids_app in H2. apply NoDup_app in H2 as (H2 & _ & _). by split. }
  destruct (chain_pbufs_runs v (pc_p x.1) LR h1 x.2 (helper_fuel v) Hp1 HokR) as (h2 & A & Hrun & HpA & EA & HcdA & FA).
  { set_solver. }
  { done. }
  { destruct (queued_length h1 x Hqx1) as [_ ->]. rewrite length_app in Hsz. lia. }
  { pose proof (hseg_size _ _ _ Hseg (pieces_NoDup _ _ HokR)) as Hsize. rewrite length_fmap in Hsize. unfold helper_fuel. lia. }
  assert (frames (ids (x :: LR)) h h2) as F.
  { change (ids (x :: LR)) with (x.2.*1 ++ ids LR). transitivity h1; [|exact FA]. eapply frames_mono; [|by apply writes_frames]. rewrite Ex. set_solver. }
  assert (head_p (dg_pieces g) = Some (pc_p x.1)) as Ehp by (by rewrite <- ELG).
  eexists (pc_p x.1), h2, A, _. split; [|split; [done|split; [done|split; [|split; [done|reflexivity]]]]].
  2: { rewrite HcdA, Hcd1, <- app_assoc. done. }
  eapply runs_bind; [by apply runs_get_rd|]. cbv zeta. change (rd_p (rd_of g)) with (head_p (dg_pieces g)). rewrite Ehp. eapply runs_bind; [by apply runs_lift|].
  eapply runs_bind; [by apply runs_get_helper|]. eapply runs_bind; [apply runs_heap; by apply get_pbuf_run|]. apply Hst.
  eapply runs_bind; [by apply runs_reass|]. cbn [next_pbuf]. eapply runs_bind; [exact Hrun|]. eapply runs_bind; [by apply runs_reass|].
  rewrite El, prev_of by done. eapply runs_bind; [by apply dequeue_runs|].
  eapply runs_bind; [apply runs_heap; apply pbuf_clen_run; [apply (packet_chain _ _ _ HpA)|]|].
  { rewrite <- (length_fmap fst), EA. done. }
  eapply runs_bind; [by apply runs_reass|]. rewrite <- (length_fmap fst), EA. apply runs_ret.
Qed.

(** ** The variables hold the datagrams *)

(** The structs [J.*1] hold the datagrams [J.*2], whose fragments are in the pbufs of
    [L]; [O] are other fragments around. *)
Notation pieces J := (J ≫= (fun j : positive * dgram => dg_pieces j.2)).
Record repr (h : heap) (v : reass) (J : list (positive * dgram)) (L O : list (piece * list (positive * pbuf))) : Prop := {
  rp_list : reassdatagrams v = J.*1;
  rp_nodup : NoDup J.*1;
  rp_tab : forall i g, (i, g) ∈ J -> reass_tab v !! i = Some (rd_of g) /\ hseg (helpers v) (dg_pieces g) None;
  rp_fresh : forall i, i ∈ J.*1 -> (i < reassdata_next v)%positive;
  rp_free : reassdata_free v = MEMP_NUM_REASSDATA - lenZ J;
  rp_pbufs : pbufs_ok h (L ++ O);
  rp_pieces : L.*1 ≡ₚ pieces J;
  rp_count : ip_reass_pbufcount v = lenZ (ids L) /\ lenZ (ids L) <= IP_REASS_MAX_PBUFS;
  rp_hdrs : Forall (fun j => lenZ (dg_hdr j.2) = 20 /\ bytes_ok (dg_hdr j.2)) J;
}.

Lemma pieces_split J1 (i : positive) g J2 : pieces (J1 ++ (i, g) :: J2) ≡ₚ dg_pieces g ++ pieces (J1 ++ J2).
Proof. rewrite !bind_app. change (((i, g) :: J2) ≫= (fun j => dg_pieces j.2)) with (dg_pieces g ++ pieces J2). by rewrite Permutation_app_swap_app. Qed.

Lemma pbufs_ok_app h L1 L2 : pbufs_ok h (L1 ++ L2) -> pbufs_ok h L1 /\ pbufs_ok h L2 /\ (forall i, i ∈ ids L1 -> i ∉ ids L2).
Proof. intros [H1 H2]. rewrite ids_app in H2. apply Forall_app in H1 as [? ?]. apply NoDup_app in H2 as (? & ? & ?). by split_and!. Qed.

(** The fragments of a representation, with the one that comes. *)
Lemma repr_distinct h v J L x l O : repr h v J L ((x, l) :: O) -> NoDup (pc_p <$> x :: pieces J).
Proof.
  intros R. rewrite <- (rp_pieces _ _ _ _ _ R). change (x :: L.*1) with (((x, l) :: L).*1). apply (pieces_NoDup h).
  pose proof (rp_pbufs _ _ _ _ _ R) as Hok. change (L ++ (x, l) :: O) with (L ++ [(x, l)] ++ O) in Hok. rewrite app_assoc in Hok. apply pbufs_ok_app in Hok as (Hok & _).
  by rewrite Permutation_app_comm in Hok.
Qed.

(** Only helpers of other pbufs and other parts of the heap change. *)
Lemma repr_change h h' v hs J L O O' : repr h v J L O -> (forall x, x ∈ pieces J -> hs !! pc_p x = helpers v !! pc_p x) -> pbufs_ok h' (L ++ O') ->
  repr h' (set_helpers hs v) J L O'.
Proof.
  intros [] Hh Hok. split; simpl; try done. intros i g Hi. destruct (rp_tab0 i g Hi) as [? Hs]. split; [done|]. eapply hseg_frame; [|exact Hs].
  intros y Hy. apply Hh. apply list_elem_of_bind. by exists (i, g).
Qed.

Lemma repr_without h v i g l1 l2 L O : repr h v (l1 ++ (i, g) :: l2) L O -> dg_pieces g = [] -> repr h (without i (l1.*1 ++ l2.*1) v) (l1 ++ l2) L O.
Proof.
  intros [El Hnd Ht Hf Hfree Hok Hp Hc Hh] Hg. rewrite fmap_app in Hnd. csimpl in Hnd. pose proof Hnd as Hnd'. rewrite <- Permutation_middle in Hnd'. apply NoDup_cons in Hnd' as [Hi Hnd'].
  split; simpl; try done.
  - by rewrite fmap_app.
  - by rewrite fmap_app.
  - intros j k Hj. rewrite lookup_delete_ne; [apply Ht; set_solver|]. intros <-. apply Hi. rewrite <- fmap_app. by apply (list_elem_of_fmap_2 fst) in Hj.
  - intros j Hj. apply Hf. set_solver.
  - rewrite Hfree, !length_app. simpl. lia.
  - by rewrite Hp, pieces_split, Hg.
  - apply Forall_app in Hh as [? [_ ?]%Forall_cons]. by apply Forall_app.
Qed.

Lemma drop_fragment h v J L x l O : repr h v J L ((x, l) :: O) -> exists h', runs h v (nullreturn (X := X) (pc_p x)) None h' v /\ frames l.*1 h h' /\ gone h' l.*1 /\ repr h' v J L O.
Proof.
  intros R. pose proof (rp_pbufs _ _ _ _ _ R) as Hok. rewrite <- Permutation_middle in Hok. apply pbufs_ok_cons in Hok as (Hq & Hok & Hd).
  destruct (free_queued h (x, l) Hq) as (n & h' & Hf & F & Hgone). simpl in Hf, F, Hgone. exists h'. split; [|split; [done|split; [done|]]].
  - eapply runs_bind; [by apply runs_heap|]. apply runs_ret.
  - replace v with (set_helpers (helpers v) v) by (by destruct v). apply (repr_change h h' v _ J L ((x, l) :: O)); [done|done|].
    eapply frames_ok; [exact F| |done]. intros i Hi Hl. by apply (Hd i).
Qed.
Lemma abandon h v J1 i g J2 L x l O : repr h v (J1 ++ (i, g) :: J2) L ((x, l) :: O) -> (dg_pieces g = [] -> J1 = []) ->
  exists h' v', runs h v (nullreturn_ipr (X := X) (pc_p x) i) None h' v' /\ frames l.*1 h h' /\ gone h' l.*1 /\
    repr h' v' (J1 ++ (if decide (dg_pieces g = []) then [] else [(i, g)]) ++ J2) L O.
Proof.
  intros R Hg. destruct (rp_tab _ _ _ _ _ R i g) as [Hi _]; [set_solver|]. destruct (decide (dg_pieces g = [])) as [Eg|Eg].
  - rewrite (Hg Eg) in *. simpl app in *. pose proof (repr_without h v i g [] J2 L _ R Eg) as R'. simpl app in R'.
    destruct (drop_fragment _ _ _ _ _ _ _ R') as (h' & Hrun & F & Hgone & R2). exists h', (without i J2.*1 v). split; [|done].
    eapply runs_bind; [by apply runs_get_rd|]. change (rd_p (rd_of g)) with (head_p (dg_pieces g)). rewrite Eg. change (head_p []) with (@None positive).
    eapply runs_bind; [apply (dequeue_runs h v i [] J2.*1); [apply (rp_list _ _ _ _ _ R)|apply (rp_nodup _ _ _ _ _ R)]|]. exact Hrun.
  - destruct (drop_fragment _ _ _ _ _ _ _ R) as (h' & Hrun & F & Hgone & R2). exists h', v. split; [|split; [done|split; [done|exact R2]]].
    eapply runs_bind; [by apply runs_get_rd|]. change (rd_p (rd_of g)) with (head_p (dg_pieces g)). destruct (dg_pieces g) as [|y r]; [done|]. exact Hrun.
Qed.

Lemma repr_split_pieces h v J1 i g J2 L O : repr h v (J1 ++ (i, g) :: J2) L O ->
  exists LG LO, L ≡ₚ LG ++ LO /\ LG.*1 = dg_pieces g /\ LO.*1 = pieces (J1 ++ J2).
Proof.
  intros R. pose proof (rp_pieces _ _ _ _ _ R) as Hp. rewrite pieces_split in Hp. symmetry in Hp.
  apply Permutation_map_inv in Hp as (L' & E' & HL). symmetry in E'. apply fmap_app_inv in E' as (LG & LO & -> & -> & ->). by exists LG, LO.
Qed.

Lemma repr_done h h' v J1 i g J2 L O LG LO : repr h v (J1 ++ (i, g) :: J2) L O -> L ≡ₚ LG ++ LO -> LO.*1 = pieces (J1 ++ J2) -> frames (ids LG) h h' ->
  repr h' (set_pbufcount (u16 (ip_reass_pbufcount v - lenZ (ids LG))) (without i (J1.*1 ++ J2.*1) v)) (J1 ++ J2) LO O.
Proof.
  intros [El Hnd Ht Hf Hfree Hok Hp Hc Hh] HL HLO F. rewrite fmap_app in Hnd. csimpl in Hnd. pose proof Hnd as Hnd'. rewrite <- Permutation_middle in Hnd'. apply NoDup_cons in Hnd' as [Hi Hnd'].
  rewrite HL, <- app_assoc in Hok. apply pbufs_ok_app in Hok as (_ & Hok & Hd).
  assert (lenZ (ids L) = lenZ (ids LG) + lenZ (ids LO)) as Elen by (rewrite HL, ids_app, length_app; lia). unfold IP_REASS_MAX_PBUFS in *.
  split; simpl; try done.
  - by rewrite fmap_app.
  - by rewrite fmap_app.
  - intros j k Hj. rewrite lookup_delete_ne; [apply Ht; set_solver|]. intros <-. apply Hi. rewrite <- fmap_app. by apply (list_elem_of_fmap_2 fst) in Hj.
  - intros j Hj. apply Hf. set_solver.
  - rewrite Hfree, !length_app. simpl. lia.
  - eapply frames_ok; [exact F| |done]. intros j Hj Hl. by apply (Hd j).
  - by rewrite HLO.
  - unfold IP_REASS_MAX_PBUFS. rewrite u16_small by lia. lia.
  - apply Forall_app in Hh as [? [_ ?]%Forall_cons]. by apply Forall_app.
Qed.

(** *** A fragment is put into its datagram *)

Definition queued_vars (i : positive) (g' : dgram) (n : Z) (hs : gmap positive ip_reass_helper) (v : reass) : reass :=
  Reass (reassdatagrams v) (<[i := rd_of g']> (reass_tab v)) (ip_reass_pbufcount v + n) (reassdata_free v) (reassdata_next v) hs.
Definition placed (hdr : list Z) (x : piece) (Q : list piece) (g : dgram) : dgram :=
  Dgram (dg_hdr g) (if no_more hdr then pc_end x else dg_len g) (no_more hdr || dg_last g) (dg_timer g) Q.

Lemma count_runs h v i g x Q hs hdr n : 0 <= ip_reass_pbufcount v + n < 65536 -> 0 <= pc_end x < 65536 ->
  runs h (with_list i (rd_of g) Q hs v) (onreass (modify (fun s => set_pbufcount (u16 (ip_reass_pbufcount s + n)) s));;
     if no_more hdr then upd_rd (X := X) i (set_last (u16 (pc_end x))) else mret tt) tt h (queued_vars i (placed hdr x Q g) n hs v).
Proof.
  intros Hn He. eapply runs_bind; [by apply runs_reass|]. unfold with_list at 2. cbn [set_reass_tab set_helpers ip_reass_pbufcount]. rewrite !u16_small by done.
  unfold queued_vars, placed. destruct (no_more hdr).
  - assert (queued_vars i (Dgram (dg_hdr g) (pc_end x) true (dg_timer g) Q) n hs v =
      let w := set_pbufcount (ip_reass_pbufcount v + n) (with_list i (rd_of g) Q hs v) in
      set_reass_tab (<[i := set_last (pc_end x) (set_rd_p (head_p Q) (rd_of g))]> (reass_tab w)) w) as Ev.
    { unfold queued_vars, with_list. simpl. rewrite insert_insert_eq. f_equal. f_equal. unfold set_last, rd_of. simpl. by destruct (dg_last g). }
    unfold queued_vars in Ev. simpl orb. rewrite Ev. apply runs_upd_rd. apply lookup_insert_eq.
  - apply runs_ret.
Qed.

Lemma repr_queued h h' v J1 i g J2 L x l O hs Q hdr : repr h v (J1 ++ (i, g) :: J2) L ((x, l) :: O) -> pbufs_ok h' (L ++ (x, l) :: O) ->
  place x (dg_pieces g) = Some Q -> hseg hs Q None -> same_but (pc_p <$> x :: dg_pieces g) (helpers v) hs -> lenZ l + lenZ (ids L) <= IP_REASS_MAX_PBUFS ->
  repr h' (queued_vars i (placed hdr x Q g) (lenZ l) hs v) (J1 ++ (i, placed hdr x Q g) :: J2) ((x, l) :: L) O.
Proof.
  intros R Hok HQ Hseg Hsb Hroom. pose proof (repr_distinct _ _ _ _ _ _ _ R) as Hdis. rewrite pieces_split in Hdis.
  destruct R as [El Hnd Ht Hf Hfree _ Hp [Hc _] Hh]. pose proof Hnd as Hnd'. rewrite <- Permutation_middle in Hnd'. csimpl in Hnd'. apply NoDup_cons in Hnd' as [Hi _].
  assert (Q ≡ₚ x :: dg_pieces g) as HpQ.
  { clear - HQ. revert Q HQ. induction (dg_pieces g) as [|y r IH]; intros Q HQ; simpl in HQ; [by simplify_eq|]. repeat (case_match; simplify_eq; [done|] || (case_match; simplify_eq)); try done.
    all: apply fmap_Some in HQ as (Q1 & HQ & ->); rewrite (IH Q1 HQ); by rewrite Permutation_swap. }
  split; simpl; try done.
  - rewrite El, !fmap_app. done.
  - rewrite fmap_app in *. done.
  - intros j k [Hj|[[= -> ->]|Hj]%elem_of_cons]%elem_of_app; [| |].
    2: { rewrite lookup_insert_eq. done. }
    all: assert ((j, k) ∈ J1 ++ J2) as Hjk by set_solver; assert (j ≠ i) as Hne by (intros ->; apply Hi; by apply (list_elem_of_fmap_2 fst) in Hjk).
    all: rewrite lookup_insert_ne by done; destruct (Ht j k) as [? Hsk]; [set_solver|]; split; [done|]; eapply hseg_frame; [|exact Hsk].
    all: intros y Hy; apply Hsb; intros Hin; change (x :: dg_pieces g ++ pieces (J1 ++ J2)) with ((x :: dg_pieces g) ++ pieces (J1 ++ J2)) in Hdis;
      rewrite fmap_app in Hdis; apply NoDup_app in Hdis as (_ & Hdis & _); apply (Hdis _ Hin); apply list_elem_of_fmap_2; apply list_elem_of_bind; by exists (j, k).
  - intros j Hj. apply Hf. rewrite fmap_app in *. done.
  - rewrite Hfree, !length_app. done.
  - by rewrite Permutation_middle.
  - rewrite Hp, !pieces_split. simpl. by rewrite HpQ.
  - change (ids ((x, l) :: L)) with (l.*1 ++ ids L). rewrite Hc, length_app, length_fmap. lia.
  - apply Forall_app in Hh as [? [? ?]%Forall_cons]. apply Forall_app. split; [done|]. by constructor.
Qed.

Lemma add_piece_cases hdr x l h g : arrives h x l hdr ->
  let dlen := u16 (IPH_OFFSET_BYTES hdr + lenZ (pc_data x)) in
  let early := no_more hdr && ((dlen <? IPH_OFFSET_BYTES hdr) || (0xFFFF - IP_HLEN <? dlen)) in
  add_piece hdr x g = if early then None else (fun Q => placed hdr x Q g) <$> (if pc_end x <? 65536 then place x (dg_pieces g) else None).
Proof.
  intros Har dlen early. destruct (arrives_start _ _ _ _ Har) as [H1 H2]. pose proof (ar_start _ _ _ _ Har) as Es. unfold add_piece, early, dlen. rewrite <- Es. fold (pc_end x).
  assert (((u16 (pc_end x) <? pc_start x) || (0xFFFF - IP_HLEN <? u16 (pc_end x))) = (0xFFFF - IP_HLEN <? pc_end x)) as ->.
  { unfold IP_HLEN, pc_end in *. apply eq_true_iff_eq. rewrite orb_true_iff, !Z.ltb_lt. ulia. }
  clear. destruct (no_more hdr && (0xFFFF - IP_HLEN <? pc_end x)); [reflexivity|]. rewrite orb_false_l, Z.leb_antisym. by destruct (pc_end x <? 65536).
Qed.

Lemma add_runs h v J1 i g J2 L x l O hdr :
  repr h v (J1 ++ (i, g) :: J2) L ((x, l) :: O) -> arrives h x l hdr -> (dg_pieces g = [] -> J1 = []) ->
  lenZ l + lenZ (ids L) <= IP_REASS_MAX_PBUFS ->
  (forall g', add_piece hdr x g = Some g' -> finished g' = true -> IP_HLEN + lenZ (dg_data g') < 65536) ->
  exists r h' v', runs h v (reass_add (X := X) i (pc_p x) hdr (IPH_OFFSET_BYTES hdr) (lenZ (pc_data x)) (lenZ l)) r h' v' /\
    frames (ids ((x, l) :: L)) h h' /\
    match add_piece hdr x g with
    | None => r = None /\ gone h' l.*1 /\ repr h' v' (J1 ++ (if decide (dg_pieces g = []) then [] else [(i, g)]) ++ J2) L O
    | Some g' =>
        if finished g' then exists p A L', r = Some p /\ repr h' v' (J1 ++ J2) L' O /\ packet h' (Some p) A /\
          chain_data h' A = out_header g' ++ dg_data g' /\ A.*1 ++ ids L' ≡ₚ ids ((x, l) :: L)
        else r = None /\ repr h' v' (J1 ++ (i, g') :: J2) ((x, l) :: L) O
    end.
Proof.
  intros R Har Hg Hroom Hfits. rewrite (add_piece_cases hdr x l h g Har) in *. cbv zeta in *. unfold reass_add. destruct (arrives_start _ _ _ _ Har) as [H1 H2].
  assert (l.*1 ⊆ ids ((x, l) :: L)) as Hsub by (change (ids ((x, l) :: L)) with (l.*1 ++ ids L); set_solver).
  destruct (no_more hdr && _) eqn:Eearly.
  { destruct (abandon h v J1 i g J2 L x l O R Hg) as (h' & v' & Hrun & F & Hgone & R'). exists None, h', v'. split; [exact Hrun|]. split; [by eapply frames_mono|done]. }
  clear Eearly. rewrite <- (ar_start _ _ _ _ Har). fold (pc_end x). pose proof (rp_pbufs _ _ _ _ _ R) as Hok. pose proof (repr_distinct _ _ _ _ _ _ _ R) as Hdis. rewrite pieces_split in Hdis.
  destruct (rp_tab _ _ _ _ _ R i g) as [Hi Hseg]; [set_solver|].
  assert (forall y, y ∈ dg_pieces g -> exists m, (y, m) ∈ L) as HinL.
  { intros y Hy. assert (y ∈ L.*1) as ([y' m] & -> & ?)%list_elem_of_fmap; [|by exists m]. rewrite (rp_pieces _ _ _ _ _ R), pieces_split. set_solver. }
  destruct (validate_runs i (rd_of g) (dg_pieces g) x l hdr (L ++ (x, l) :: O) h v (no_more hdr) Hok) as (h1 & res & v1 & Hrun1 & W1 & Hok1 & Hres); try done.
  { set_solver. }
  { intros y Hy. destruct (HinL y Hy) as [m ?]. exists m. set_solver. }
  { change (x :: dg_pieces g ++ ?r) with ((x :: dg_pieces g) ++ r) in Hdis. rewrite fmap_app in Hdis. by apply NoDup_app in Hdis as (? & _ & _). }
  assert (pc_p <$> x :: dg_pieces g ⊆ ids ((x, l) :: L)) as Hsub2.
  { intros j (y & -> & Hy)%list_elem_of_fmap. apply elem_of_ids. assert (exists m, (y, m) ∈ (x, l) :: L) as [m Hm].
    { apply elem_of_cons in Hy as [->|Hy]; [exists l; left|]. destruct (HinL y Hy) as [m ?]. exists m. by right. }
    exists (y, m). split; [done|]. destruct Hok as [Hq _]. rewrite Forall_forall in Hq. destruct (queued_head h (y, m) (Hq (y, m) ltac:(set_solver))) as (b & r & Ex & _). simpl in *. rewrite Ex. left. }
  assert (frames (ids ((x, l) :: L)) h h1) as F1 by (eapply frames_mono; [exact Hsub2|]; by apply writes_frames).
  destruct (if pc_end x <? 65536 then place x (dg_pieces g) else None) as [Q|] eqn:EQ.
  2: { destruct Hres as [-> (hs & -> & Hsb)].
    assert (repr h1 (set_helpers hs v) (J1 ++ (i, g) :: J2) L ((x, l) :: O)) as R1.
    { apply (repr_change h h1 v hs _ L ((x, l) :: O)); [done| |done]. intros y Hy. apply Hsb. intros ->%list_elem_of_singleton || intros E1%list_elem_of_singleton.
      rewrite pieces_split in Hy. csimpl in Hdis. apply NoDup_cons in Hdis as [Hni _]. apply Hni. rewrite <- E1. by apply list_elem_of_fmap_2. }
    destruct (abandon h1 _ J1 i g J2 L x l O R1 Hg) as (h' & v' & Hrun & F & Hgone & R'). exists None, h', v'. split; [|split; [|done]].
    - eapply runs_bind; [exact Hrun1|]. exact Hrun.
    - transitivity h1; [done|]. by apply (frames_mono l.*1). }
  destruct (Z.ltb_spec (pc_end x) 65536) as [Hend|]; [|done]. destruct Hres as (hs & -> & HsegQ & Hsb & ->).
  simpl fmap in *. set (g' := placed hdr x Q g) in *.
  pose proof (repr_queued h h1 v J1 i g J2 L x l O hs Q hdr R Hok1 EQ HsegQ Hsb Hroom) as R1. fold g' in R1.
  assert (0 <= pc_end x < 65536) as Hend' by (unfold pc_end in *; lia).
  pose proof (proj1 (rp_count _ _ _ _ _ R)) as Hcnt. unfold IP_REASS_MAX_PBUFS in Hroom.
  pose proof (count_runs h1 v i g x Q hs hdr (lenZ l) ltac:(lia) Hend') as Hrun2. fold g' in Hrun2.
  assert ((no_more hdr || negb (Z.land (rd_flags (rd_of g)) IP_REASS_FLAG_LASTFRAG =? 0)) && (starts Q && gapless Q) = finished g') as Efin.
  { unfold finished. simpl. by destruct (dg_last g). }
  rewrite Efin in Hrun1. cbv beta iota in Hfits |- *. fold g' in Hfits |- *. destruct (finished g') eqn:Ef; rewrite ?Ef.
  2: { eexists None, h1, _. split; [|split; [exact F1|split; [done|exact R1]]]. eapply runs_bind; [exact Hrun1|]. cbv iota.
    apply runs_assoc. eapply runs_bind; [exact Hrun2|apply runs_ret]. }
  destruct (repr_split_pieces _ _ _ _ _ _ _ _ R1) as (LG & LO & HL & ELG & ELO).
  destruct (rp_tab _ _ _ _ _ R1 i g') as [Hi1 Hseg1]; [set_solver|].
  pose proof (rp_hdrs _ _ _ _ _ R1) as Hhd. rewrite Forall_forall in Hhd. destruct (Hhd (i, g') ltac:(set_solver)) as [Hh1 Hh2].
  pose proof (rp_pbufs _ _ _ _ _ R1) as Hokr. rewrite HL, <- app_assoc in Hokr.
  pose proof (rp_list _ _ _ _ _ R1) as El. pose proof (rp_nodup _ _ _ _ _ R1) as Hnd. rewrite fmap_app in El, Hnd.
  assert (lenZ (ids ((x, l) :: L)) = lenZ (ids LG) + lenZ (ids LO)) as Elen by (rewrite HL, ids_app, length_app; lia).
  pose proof (rp_count _ _ _ _ _ R1) as [_ Hmax]. unfold IP_REASS_MAX_PBUFS in Hmax.
  destruct (finish_runs h1 _ i g' LG (LO ++ O) J1.*1 J2.*1 Hi1 ELG) as (p & h2 & A & v2 & Hrun3 & HpA & EA & HcdA & F2 & ->); try done.
  { unfold finished in Ef. simpl in Ef. destruct Q; [by rewrite andb_false_r in Ef|done]. }
  { by apply Hfits. }
  { lia. }
  pose proof (repr_done h1 h2 _ J1 i g' J2 _ O LG LO R1 HL ELO F2) as R2.
  eexists (Some p), h2, _. split; [|split; [|exists p, A, LO; split; [done|split; [exact R2|split; [done|split; [done|]]]]]].
  - eapply runs_bind; [exact Hrun1|]. cbv iota. apply runs_assoc. eapply runs_bind; [exact Hrun2|]. exact Hrun3.
  - transitivity h1; [done|]. eapply frames_mono; [|exact F2]. rewrite HL, ids_app. set_solver.
  - by rewrite EA, HL, ids_app.
Qed.

(** *** The datagram of a fragment *)

Lemma find_split hdr (J : list (positive * dgram)) : Forall (fun j => matches hdr j.2 = false) J \/
  exists J1 i g J2, J = J1 ++ (i, g) :: J2 /\ Forall (fun j => matches hdr j.2 = false) J1 /\ matches hdr g = true.
Proof.
  induction J as [|[i g] J [IH|(J1 & j & k & J2 & -> & H1 & H2)]]; [by left| |].
  - destruct (matches hdr g) eqn:Em; [right; by exists [], i, g, J|left; by constructor].
  - destruct (matches hdr g) eqn:Em; right; [by exists [], i, g, (J1 ++ (j, k) :: J2)|]. exists ((i, g) :: J1), j, k, J2. split; [done|]. split; [by constructor|done].
Qed.
Lemma find_none hdr tab (J : list (positive * dgram)) : (forall i g, (i, g) ∈ J -> tab !! i = Some (rd_of g)) -> Forall (fun j => matches hdr j.2 = false) J -> find_datagram hdr tab J.*1 = Some None.
Proof.
  intros Ht H. induction H as [|[i g] J Hm _ IH]; [done|]. csimpl. cbn [find_datagram]. rewrite (Ht i g) by left. unfold matches in Hm. simpl in *. rewrite Hm. apply IH.
  intros j k Hj. apply Ht. by right.
Qed.
Lemma find_some hdr tab (J1 : list (positive * dgram)) i g J2 : (forall j k, (j, k) ∈ J1 ++ (i, g) :: J2 -> tab !! j = Some (rd_of k)) -> Forall (fun j => matches hdr j.2 = false) J1 -> matches hdr g = true ->
  find_datagram hdr tab (J1 ++ (i, g) :: J2).*1 = Some (Some (i, rd_of g)).
Proof.
  intros Ht H Hg. induction H as [|[j k] J Hm _ IH]; csimpl; cbn [find_datagram].
  - rewrite (Ht i g) by left. unfold matches in Hg. simpl. by rewrite Hg.
  - rewrite (Ht j k) by left. unfold matches in Hm. simpl in *. rewrite Hm. apply IH. intros j' k' Hj. apply Ht. by right.
Qed.
Lemma step_in_none hdr x l : Forall (fun g => matches hdr g = false) l -> step_in hdr x l = None.
Proof. induction 1 as [|g l Hg _ IH]; [done|]. cbn [step_in]. by rewrite Hg, IH. Qed.
Lemma step_in_some hdr x l1 g l2 : Forall (fun g => matches hdr g = false) l1 -> matches hdr g = true ->
  step_in hdr x (l1 ++ g :: l2) = Some (match add_piece hdr x (take_header hdr g) with
    | None => (Dropped, l1 ++ take_header hdr g :: l2)
    | Some g' => if finished g' then (Complete g', l1 ++ l2) else (Waiting, l1 ++ g' :: l2)
    end).
Proof.
  intros H Hg. induction H as [|k l1 Hk _ IH]; simpl app; cbn [step_in].
  - rewrite Hg. cbv zeta. by destruct (add_piece _ _ _) as [g'|]; [destruct (finished g')|].
  - rewrite Hk, IH. simpl. destruct (add_piece _ _ _) as [g'|]; [destruct (finished g')|]; done.
Qed.

Lemma repr_header h v J1 i g J2 L O hdr : repr h v (J1 ++ (i, g) :: J2) L O -> lenZ hdr = 20 -> bytes_ok hdr ->
  exists v', runs (X := X) h v (if at_front hdr && negb (at_front (dg_hdr g)) then upd_rd i (set_rd_iphdr hdr) else mret tt) tt h v' /\
    repr h v' (J1 ++ (i, take_header hdr g) :: J2) L O.
Proof.
  intros R Hl Hb. unfold take_header. destruct (at_front hdr && _); [|exists v; split; [apply runs_ret|done]].
  pose proof R as [El Hnd Ht Hf Hfree Hok Hp Hc Hh]. destruct (Ht i g) as [Hi Hs]; [set_solver|]. eexists. split; [by apply runs_upd_rd|].
  pose proof Hnd as Hnd'. rewrite fmap_app in Hnd'. csimpl in Hnd'. rewrite <- Permutation_middle, <- fmap_app in Hnd'. apply NoDup_cons in Hnd' as [Hni _].
  split; simpl; try done.
  - rewrite El, !fmap_app. done.
  - rewrite fmap_app in *. done.
  - intros j k [Hj|[[= -> ->]|Hj]%elem_of_cons]%elem_of_app; [| |].
    2: { by rewrite lookup_insert_eq. }
    all: assert ((j, k) ∈ J1 ++ J2) as Hjk by set_solver; rewrite lookup_insert_ne; [apply Ht; set_solver|]; intros <-; apply Hni; by apply (list_elem_of_fmap_2 fst) in Hjk.
  - intros j Hj. apply Hf. rewrite fmap_app in *. done.
  - rewrite Hfree, !length_app. done.
  - by rewrite Hp, !pieces_split.
  - apply Forall_app in Hh as [? [? ?]%Forall_cons]. apply Forall_app. split; [done|]. by constructor.
Qed.

End Finish.

Section Step.
Context {E : PbufEnv} {X : Type} {LL : LinkLayer X} {AP : part X arp} {IP : part X ip_state} {FR : IpFragments X} {AD : Addresses}.
Context {RP : part X reass}.

Lemma enqueue_runs h v J L O hdr n : repr h v J L O -> lenZ hdr = 20 -> bytes_ok hdr -> lenZ J < MEMP_NUM_REASSDATA ->
  exists i v', runs (X := X) h v (ip_reass_enqueue_new_datagram hdr n) (Some i) h v' /\ repr h v' ((i, new_dgram hdr) :: J) L O /\
    ip_reass_pbufcount v' = ip_reass_pbufcount v.
Proof.
  intros [El Hnd Ht Hf Hfree Hok Hp Hc Hh] Hl Hb Hroom. set (i := reassdata_next v). eexists i, _. split.
  - unfold ip_reass_enqueue_new_datagram, memp_malloc_reassdata. eapply runs_bind.
    { eapply runs_bind; [by apply runs_reass|]. rewrite (proj2 (Z.eqb_neq (reassdata_free v) 0)) by lia. eapply runs_bind; [by apply runs_reass|apply runs_ret]. }
    eapply runs_bind; [apply runs_ret|]. eapply runs_bind; [apply runs_upd_rd; simpl; apply lookup_insert_eq|]. eapply runs_bind; [by apply runs_reass|apply runs_ret].
  - assert (i ∉ J.*1) as Hi by (intros Hi; specialize (Hf _ Hi); unfold i in *; lia). split; [|done]. split; simpl; try done.
    + by rewrite El.
    + by constructor.
    + intros j k [[= -> ->]|Hj]%elem_of_cons; [split; [by rewrite lookup_insert_eq|done]|].
      assert (j ≠ i) as Hne by (intros ->; apply Hi; by apply (list_elem_of_fmap_2 fst) in Hj). rewrite !lookup_insert_ne by done. by apply Ht.
    + intros j [->|Hj]%elem_of_cons; [unfold i; lia|]. specialize (Hf _ Hj). lia.
    + rewrite Hfree. lia.
    + by constructor.
Qed.

(** *** ip4_reass *)

Definition result_is (h : heap) (o : outcome) (r : option positive) (x : piece) (l : list (positive * pbuf)) (L L' : list (piece * list (positive * pbuf))) : Prop :=
  match o with
  | Dropped => r = None /\ L' = L /\ gone h l.*1
  | Waiting => r = None /\ L' = (x, l) :: L
  | Complete g => exists p A, r = Some p /\ packet h (Some p) A /\ chain_data h A = out_header g ++ dg_data g /\ A.*1 ++ ids L' ≡ₚ ids ((x, l) :: L)
  end.
Definition fits (o : outcome) : Prop := match o with Complete g => IP_HLEN + lenZ (dg_data g) < 65536 | _ => True end.
Notation queues J := (Forall (fun j : positive * dgram => dg_pieces j.2 <> []) J).

Lemma arrives_hdr h x l hdr : arrives h x l hdr -> lenZ hdr = 20.
Proof.
  intros Har. destruct (queued_length h (x, l) (ar_queued _ _ _ _ Har)) as [Hl _]. rewrite <- (ar_hdr _ _ _ _ Har), length_take. simpl in Hl. unfold IP_HLEN in *. lia.
Qed.

Lemma add_piece_pieces hdr x g g' : add_piece hdr x g = Some g' -> dg_pieces g' <> [].
Proof.
  unfold add_piece. destruct (_ || _); [done|]. destruct (place x (dg_pieces g)) as [Q|] eqn:EQ; [|done]. intros [= <-]. simpl. intros ->.
  destruct (dg_pieces g) as [|y r]; simpl in EQ; [done|]. repeat (case_match; simplify_eq). by destruct (place x r).
Qed.

(** The step for a datagram there is an entry for. *)
Lemma step_added h v J1 i g J2 L x l O hdr : repr h v (J1 ++ (i, g) :: J2) L ((x, l) :: O) -> arrives h x l hdr -> queues (J1 ++ J2) -> (dg_pieces g = [] -> J1 = []) ->
  lenZ l + lenZ (ids L) <= IP_REASS_MAX_PBUFS ->
  let q := match add_piece hdr x g with
    | None => (Dropped, J1.*2 ++ (if decide (dg_pieces g = []) then [] else [g]) ++ J2.*2)
    | Some g' => if finished g' then (Complete g', J1.*2 ++ J2.*2) else (Waiting, J1.*2 ++ g' :: J2.*2)
    end in
  fits q.1 ->
  exists r h' v' J' L', runs h v (reass_add (X := X) i (pc_p x) hdr (IPH_OFFSET_BYTES hdr) (lenZ (pc_data x)) (lenZ l)) r h' v' /\
    frames (ids ((x, l) :: L)) h h' /\ J'.*2 = q.2 /\ queues J' /\ repr h' v' J' L' O /\ result_is h' q.1 r x l L L'.
Proof.
  intros R Har HJ Hg Hroom q Hfit. apply Forall_app in HJ as [HJ1 HJ2].
  destruct (add_runs h v J1 i g J2 L x l O hdr R Har Hg Hroom) as (r & h' & v' & Hrun & F & Hres).
  { intros g' Eg Ef. unfold q in Hfit. by rewrite Eg, Ef in Hfit. }
  unfold q in *. destruct (add_piece hdr x g) as [g'|] eqn:Eg; [destruct (finished g') eqn:Ef|].
  - destruct Hres as (p & A & L' & -> & R' & HpA & Hcd & Hperm). exists (Some p), h', v', (J1 ++ J2), L'. split_and!; try done; [by rewrite fmap_app|by apply Forall_app|by exists p, A].
  - destruct Hres as [-> R']. eexists None, h', v', _, _. split_and!; [exact Hrun|done| | |exact R'|done]; [by rewrite fmap_app|].
    apply Forall_app. split; [done|]. constructor; [by eapply add_piece_pieces|done].
  - destruct Hres as (-> & Hgone & R'). eexists None, h', v', _, _. split_and!; [exact Hrun|done| | |exact R'|done].
    + rewrite !fmap_app. by destruct (decide _).
    + rewrite !Forall_app. split_and!; try done. destruct (decide _); [constructor|]. by constructor.
Qed.

Lemma reass_runs h v J L x l O hdr : repr h v J L ((x, l) :: O) -> queues J -> arrives h x l hdr ->
  lenZ l + lenZ (ids L) <= IP_REASS_MAX_PBUFS ->
  (lenZ J < MEMP_NUM_REASSDATA \/ Exists (fun j => matches hdr j.2 = true) J) -> fits (reass_step hdr x J.*2).1 ->
  exists r h' v' J' L', runs h v (ip4_reass (X := X) (pc_p x)) r h' v' /\ frames (ids ((x, l) :: L)) h h' /\
    J'.*2 = (reass_step hdr x J.*2).2 /\ queues J' /\ repr h' v' J' L' O /\ result_is h' (reass_step hdr x J.*2).1 r x l L L'.
Proof.
  intros R HJ Har Hroom Hentry Hfit. pose proof (arrives_hdr _ _ _ _ Har) as Hhl. pose proof (ar_queued _ _ _ _ Har) as Hq.
  destruct (load_header h x l 1 Hq ltac:(unfold IP_HLEN; lia)) as (b & r0 & El & Hb & Hld1).
  destruct (load_header h x l IP_HLEN Hq ltac:(done)) as (b' & r0' & El' & _ & Hld). rewrite El in El'. injection El' as <- <-.
  change (Z.to_nat IP_HLEN) with 20%nat in Hld. rewrite (ar_hdr _ _ _ _ Har) in Hld.
  assert (byte_at (take (Z.to_nat 1) (chain_data h l)) 0 = byte_at hdr 0) as Eb.
  { rewrite <- (ar_hdr _ _ _ _ Har). unfold byte_at. simpl. destruct (queued_length h (x, l) Hq) as [Hl _]. simpl in Hl. destruct (chain_data h l); done. }
  assert (lenZ l < 65536) as Hll by (unfold IP_REASS_MAX_PBUFS in *; lia).
  destruct (arrives_start _ _ _ _ Har) as [H1 H2]. pose proof (rp_count _ _ _ _ _ R) as [Hcnt _].
  pose proof (pbuf_clen_run h _ l (packet_chain _ _ _ (q_packet _ _ Hq)) Hll) as Hclen. simpl in Hclen.
  assert (forall r h' v', runs (X := X) h v
      (s ← onreass get; found ← lift (find_datagram hdr (reass_tab s) (reassdatagrams s));
       ipr ← match found with
        | None => ip_reass_enqueue_new_datagram hdr (lenZ l)
        | Some (i, d) =>
            (if (Z.land (lwip_htons (ld16 hdr 6)) IP_OFFMASK =? 0) && negb (Z.land (lwip_htons (ld16 (rd_iphdr d) 6)) IP_OFFMASK =? 0)
             then upd_rd i (set_rd_iphdr hdr) else mret tt);; mret (Some i)
        end;
       match ipr with
       | None => nullreturn (pc_p x)
       | Some ipr => reass_add ipr (pc_p x) hdr (IPH_OFFSET_BYTES hdr) (lenZ (pc_data x)) (lenZ l)
       end) r h' v' -> runs h v (ip4_reass (X := X) (pc_p x)) r h' v') as Hall.
  { intros r h' v' Htail. unfold ip4_reass. eapply runs_bind; [apply runs_heap; by apply get_pbuf_run|].
    eapply runs_bind; [apply runs_heap; unfold load8; by mrun Hld1|]. rewrite Eb, (ar_hl _ _ _ _ Har). simpl negb. cbv iota.
    eapply runs_bind; [by apply runs_heap|]. rewrite (ar_len _ _ _ _ Har). cbv zeta. rewrite (proj2 (Z.ltb_ge _ _)) by lia.
    replace (IP_HLEN + lenZ (pc_data x) - IP_HLEN) with (lenZ (pc_data x)) by lia. rewrite (u16_small (lenZ (pc_data x))) by lia.
    eapply runs_bind; [apply runs_heap; exact Hclen|]. eapply runs_bind; [by apply runs_reass|]. rewrite Hcnt, (proj2 (Z.ltb_ge IP_REASS_MAX_PBUFS (lenZ (ids L) + lenZ l))) by lia.
    eapply runs_bind; [apply runs_ret|]. exact Htail. }
  assert (forall i g, (i, g) ∈ J -> reass_tab v !! i = Some (rd_of g)) as Htab by (intros i g Hi; by apply (rp_tab _ _ _ _ _ R i g)).
  destruct (find_split hdr J) as [Hnone|(J1 & i & g & J2 & -> & HJ1 & Hg)].
  - destruct Hentry as [Hentry|He]; [|exfalso; rewrite Exists_exists in He; destruct He as (j & Hj & Hm); rewrite Forall_forall in Hnone; by rewrite Hnone in Hm].
    destruct (enqueue_runs h v J L ((x, l) :: O) hdr (lenZ l) R Hhl (ar_bytes _ _ _ _ Har) Hentry) as (i & v1 & Henq & R1 & _).
    assert (Forall (fun g => matches hdr g = false) J.*2) as Hnone2 by (by apply Forall_fmap).
    unfold reass_step in *. rewrite (step_in_none hdr x J.*2 Hnone2) in *.
    destruct (step_added h v1 [] i (new_dgram hdr) J L x l O hdr R1 Har HJ ltac:(done) Hroom) as (r & h' & v' & J' & L' & Hrun & Hrest).
    { by destruct (add_piece _ _ _) as [g'|]; [destruct (finished g')|]. }
    exists r, h', v', J', L'. split.
    + apply Hall. eapply runs_bind; [by apply runs_reass|]. eapply runs_bind; [apply runs_lift; rewrite (rp_list _ _ _ _ _ R); by apply find_none|].
      eapply runs_bind; [exact Henq|]. exact Hrun.
    + by destruct (add_piece _ _ _) as [g'|]; [destruct (finished g')|].
  - destruct (repr_header h v J1 i g J2 L _ hdr R Hhl (ar_bytes _ _ _ _ Har)) as (v1 & Hhd & R1).
    assert (Forall (fun g => matches hdr g = false) J1.*2) as HJ12 by (by apply Forall_fmap).
    unfold reass_step in *. rewrite fmap_app in *. csimpl in *. rewrite (step_in_some hdr x J1.*2 g J2.*2 HJ12 Hg) in *.
    assert (dg_pieces (take_header hdr g) = dg_pieces g) as Ep by (unfold take_header; by destruct (_ && _)).
    pose proof HJ as HJ'. apply Forall_app in HJ' as [HJa [Hgp HJb]%Forall_cons].
    destruct (step_added h v1 J1 i (take_header hdr g) J2 L x l O hdr R1 Har) as (r & h' & v' & J' & L' & Hrun & Hrest); [by apply Forall_app|by rewrite Ep|done| |].
    { by destruct (add_piece _ _ _) as [g'|]; [destruct (finished g')|]. }
    exists r, h', v', J', L'. split.
    + apply Hall. eapply runs_bind; [by apply runs_reass|]. eapply runs_bind; [apply runs_lift; rewrite (rp_list _ _ _ _ _ R); apply (find_some hdr _ J1 i g J2 Htab HJ1 Hg)|].
      cbv iota. eapply runs_bind; [eapply runs_bind; [exact Hhd|apply runs_ret]|]. exact Hrun.
    + rewrite Ep, decide_False in Hrest by done. by destruct (add_piece _ _ _) as [g'|]; [destruct (finished g')|].
Qed.
End Step.
