(* ===== verification/IpReassTimer.v ===== *)
(** * Reassembly: giving up

    ip_reass_tmr takes one from the timers, and the datagrams whose timer is 0 leave
    with their pbufs; here for datagrams without their first fragment, about which no
    ICMP message is sent. *)
From S2P Require Import Prelude Triple Def Pbuf PbufFacts PbufWrite PbufAlloc PbufChain InetChksum Netif Node Ip4Addr Ethernet Etharp Ip4 Icmp IpReass IpReassSpec IpReassFacts IpReassRun.

Definition tick (g : dgram) : option dgram :=
  if 0 <? dg_timer g then Some (Dgram (dg_hdr g) (dg_len g) (dg_last g) (dg_timer g - 1) (dg_pieces g)) else None.

Section Timer.
Context {E : PbufEnv} {X : Type} {LL : LinkLayer X} {AP : part X arp} {IP : part X ip_state} {FR : IpFragments X} {AD : Addresses}.
Context {RP : part X reass}.

Lemma frames_gone P h h' l : frames P h h' -> (forall i, i ∈ l -> i ∉ P) -> gone h l -> gone h' l.
Proof. intros F Hd H. unfold gone in *. rewrite Forall_forall in H |- *. intros i Hi. rewrite (proj1 (F i (Hd i Hi))). by apply H. Qed.

Lemma free_fragments_runs v LG : forall h fuel n, pbufs_ok h LG -> hseg (helpers v) LG.*1 None -> (length LG <= fuel)%nat ->
  0 <= n -> n + lenZ (ids LG) < 65536 ->
  exists h', runs h v (free_fragments (X := X) fuel (first_or LG.*1 None) n) (n + lenZ (ids LG)) h' v /\ frames (ids LG) h h' /\ gone h' (ids LG).
Proof.
  induction LG as [|x LG IH]; intros h fuel n Hok Hseg Hf Hn Hsum.
  { exists h. split; [|by split; [|constructor]]. change (lenZ (ids [])) with 0. rewrite Z.add_0_r. destruct fuel; apply runs_ret. }
  destruct fuel as [|fuel]; simpl in Hf; [lia|]. apply pbufs_ok_cons in Hok as (Hx & Hok & Hd). change (ids (x :: LG)) with (x.2.*1 ++ ids LG) in *.
  rewrite length_app, length_fmap in *. csimpl in Hseg. destruct Hseg as [Hh Hseg].
  destruct (free_queued h x Hx) as (m & h1 & Hfree & F1 & G1).
  assert (pbufs_ok h1 LG) as Hok1 by (eapply frames_ok; [exact F1| |done]; set_solver).
  destruct (IH h1 fuel (n + lenZ x.2) Hok1 Hseg) as (h2 & Hrun2 & F2 & G2); [lia|lia|lia|].
  exists h2. split; [|split].
  - csimpl. cbn [free_fragments first_or]. eapply runs_bind; [by apply runs_get_helper|].
    eapply runs_bind; [apply runs_heap; apply pbuf_clen_run; [apply (packet_chain _ _ _ (q_packet _ _ Hx))|lia]|].
    eapply runs_bind; [by apply runs_heap|]. rewrite u16_small by lia. replace (n + Z.of_nat (length x.2 + length (ids LG))) with (n + lenZ x.2 + lenZ (ids LG)) by lia. exact Hrun2.
  - transitivity h1; eapply frames_mono; [|exact F1| |exact F2]; set_solver.
  - apply Forall_app. split; [|done]. by eapply frames_gone; [exact F2| |exact G1].
Qed.

Lemma free_complete_runs h v J1 i g J2 L O : repr h v (J1 ++ (i, g) :: J2) L O -> dg_pieces g <> [] -> starts (dg_pieces g) = false ->
  exists h' v' LG LO, runs h v (ip_reass_free_complete_datagram (X := X) i (last J1.*1)) (lenZ (ids LG)) h' v' /\ repr h' v' (J1 ++ J2) LO O /\
    L ≡ₚ LG ++ LO /\ frames (ids LG) h h' /\ gone h' (ids LG).
Proof.
  intros R Hne Hst. destruct (repr_split_pieces _ _ _ _ _ _ _ _ R) as (LG & LO & HL & ELG & ELO).
  destruct (rp_tab _ _ _ _ _ R i g) as [Hi Hseg]; [set_solver|]. pose proof (rp_pbufs _ _ _ _ _ R) as Hok. rewrite HL, <- app_assoc in Hok. apply pbufs_ok_app in Hok as (Hok & _ & _).
  pose proof (rp_count _ _ _ _ _ R) as [_ Hc]. rewrite HL, ids_app, length_app in Hc. unfold IP_REASS_MAX_PBUFS in Hc.
  rewrite <- ELG in Hseg. pose proof (hseg_size _ _ _ Hseg (pieces_NoDup _ _ Hok)) as Hsize. rewrite length_fmap in Hsize.
  destruct (free_fragments_runs v LG h (helper_fuel v) 0 Hok Hseg) as (h' & Hrun & F & G); [unfold helper_fuel; lia|lia|lia|]. rewrite Z.add_0_l in Hrun.
  pose proof (rp_list _ _ _ _ _ R) as El. pose proof (rp_nodup _ _ _ _ _ R) as Hnd. rewrite fmap_app in El, Hnd. csimpl in *.
  eexists h', _, LG, LO. split; [|split; [by apply (repr_done h h' v J1 i g J2 L O LG LO)|done]].
  destruct (dg_pieces g) as [|y r] eqn:Ep; [done|]. rewrite ELG in Hrun, Hseg. simpl in Hst.
  assert (rd_p (rd_of g) = Some (pc_p y)) as Ehp by (unfold rd_of; simpl; by rewrite Ep).
  eapply runs_bind; [by apply runs_get_rd|]. rewrite Ehp. eapply runs_bind; [by apply runs_lift|].
  destruct Hseg as [Hy _]. eapply runs_bind; [by apply runs_get_helper|]. cbn [start]. rewrite Hst. eapply runs_bind; [apply runs_ret|].
  eapply runs_bind; [by apply runs_get_rd|]. rewrite Ehp. eapply runs_bind; [by apply runs_reass|]. eapply runs_bind; [exact Hrun|].
  eapply runs_bind; [by apply dequeue_runs|]. eapply runs_bind; [by apply runs_reass|]. apply runs_ret.
Qed.

Lemma repr_tick h v J1 i g g' J2 L O : repr h v (J1 ++ (i, g) :: J2) L O -> tick g = Some g' -> dg_timer g < 256 ->
  exists v', runs h v (upd_rd (X := X) i (set_rd_timer (u8 (dg_timer g - 1)))) tt h v' /\ repr h v' (J1 ++ (i, g') :: J2) L O.
Proof.
  unfold tick. intros R Ht Hb. destruct (Z.ltb_spec 0 (dg_timer g)) as [Hp|]; [|done]. injection Ht as <-.
  pose proof R as [El Hnd Ht Hf Hfree Hok Hps Hc Hh]. destruct (Ht i g) as [Hi Hs]; [set_solver|]. eexists. split; [by apply runs_upd_rd|].
  pose proof Hnd as Hnd'. rewrite fmap_app in Hnd'. csimpl in Hnd'. rewrite <- Permutation_middle, <- fmap_app in Hnd'. apply NoDup_cons in Hnd' as [Hni _].
  assert (u8 (dg_timer g - 1) = dg_timer g - 1) as -> by (unfold u8; ulia).
  split; simpl; try done.
  - rewrite El, !fmap_app. done.
  - rewrite fmap_app in *. done.
  - intros j k [Hj|[[= -> ->]|Hj]%elem_of_cons]%elem_of_app; [| |].
    2: { by rewrite lookup_insert_eq. }
    all: assert ((j, k) ∈ J1 ++ J2) as Hjk by set_solver; rewrite lookup_insert_ne; [apply Ht; set_solver|]; intros <-; apply Hni; by apply (list_elem_of_fmap_2 fst) in Hjk.
  - intros j Hj. apply Hf. rewrite fmap_app in *. done.
  - rewrite Hfree, !length_app. done.
  - by rewrite Hps, !pieces_split.
  - apply Forall_app in Hh as [? [? ?]%Forall_cons]. apply Forall_app. split; [done|]. by constructor.
Qed.

(** Datagrams the timer can take. *)
Record mute (j : positive * dgram) : Prop := {
  mute_ne : dg_pieces j.2 <> [];
  mute_timer : 0 <= dg_timer j.2 < 256;
  mute_first : dg_timer j.2 = 0 -> starts (dg_pieces j.2) = false;
}.

Lemma tmr_loop_runs O Jr : forall Jd h v L, repr h v (Jd ++ Jr) L O -> Forall mute Jr ->
  exists h' v' J' LG L', runs h v (reass_tmr_loop (X := X) Jr.*1 (last Jd.*1)) tt h' v' /\ repr h' v' (Jd ++ J') L' O /\ J'.*2 = omap tick Jr.*2 /\
    L ≡ₚ LG ++ L' /\ frames (ids LG) h h' /\ gone h' (ids LG).
Proof.
  induction Jr as [|[i g] Jr IH]; intros Jd h v L R Hm.
  { exists h, v, [], [], L. split; [apply runs_ret|]. split_and!; try done; constructor. }
  apply Forall_cons in Hm as [[Hne Ht Hfirst] Hm]. simpl in *. destruct (rp_tab _ _ _ _ _ R i g) as [Hi _]; [set_solver|]. csimpl. cbn [reass_tmr_loop].
  destruct (Z.ltb_spec 0 (dg_timer g)) as [Hpos|Hzero].
  - assert (exists g', tick g = Some g') as [g' Eg] by (unfold tick; rewrite (proj2 (Z.ltb_lt _ _) Hpos); by eexists).
    destruct (repr_tick h v Jd i g g' Jr L O R Eg ltac:(lia)) as (v1 & Hupd & R1).
    destruct (IH (Jd ++ [(i, g')]) h v1 L) as (h' & v' & J' & LG & L' & Hrun & R' & EJ & HL & F & G); [by rewrite <- app_assoc|done|].
    exists h', v', ((i, g') :: J'), LG, L'. rewrite <- app_assoc in R'. split_and!; try done.
    + eapply runs_bind; [by apply runs_get_rd|]. change (rd_timer (rd_of g)) with (dg_timer g). rewrite (proj2 (Z.ltb_lt _ _) Hpos). eapply runs_bind; [exact Hupd|].
      rewrite fmap_app in Hrun. csimpl in Hrun. by rewrite last_snoc in Hrun.
    + csimpl. by rewrite Eg, EJ.
  - destruct (free_complete_runs h v Jd i g Jr L O R Hne) as (h1 & v1 & LG & LO & Hfree & R1 & HL & F & G); [apply Hfirst; lia|].
    destruct (IH Jd h1 v1 LO R1 Hm) as (h' & v' & J' & LG' & L' & Hrun & R' & EJ & HL' & F' & G').
    exists h', v', J', (LG ++ LG'), L'. pose proof (rp_pbufs _ _ _ _ _ R) as Hok. rewrite HL, HL', <- !app_assoc in Hok. apply pbufs_ok_app in Hok as (_ & _ & Hd). rewrite ids_app in Hd.
    rewrite ids_app. split_and!; try done.
    + eapply runs_bind; [by apply runs_get_rd|]. change (rd_timer (rd_of g)) with (dg_timer g). rewrite (proj2 (Z.ltb_ge _ _) Hzero).
      eapply runs_bind; [exact Hfree|]. exact Hrun.
    + rewrite EJ. csimpl. unfold tick at 2. by rewrite (proj2 (Z.ltb_ge _ _) Hzero).
    + by rewrite HL, HL', app_assoc.
    + transitivity h1; eapply frames_mono; [|exact F| |exact F']; set_solver.
    + apply Forall_app. split; [|done]. eapply frames_gone; [exact F'| |exact G]. intros j Hj Hj'. apply (Hd j Hj). set_solver.
Qed.
End Timer.
