(* ===== verification/IpReassProps.v ===== *)
(** * Reassembly: properties

    One call of ip4_reass is one step of the abstract machine; the fragments of a
    datagram, in any order, give the datagram back; the timer takes what is too old. *)
From S2P Require Import Prelude Triple Def Pbuf PbufFacts PbufWrite PbufAlloc PbufChain InetChksum Netif Node Ip4Addr Ethernet Etharp Ip4 Icmp IpReass IpReassSpec IpReassFacts IpReassRun IpReassTimer Examples.

Section Reass.
Context {E : PbufEnv} {X : Type} {LL : LinkLayer X} {AP : part X arp} {IP : part X ip_state} {FR : IpFragments X} {AD : Addresses}.
Context {RP : part X reass}.

Notation queues J := (Forall (fun j : positive * dgram => dg_pieces j.2 <> []) J).
(** A fragment in memory: its header, its place and its pbufs. *)
Notation fragment := (list Z * (piece * list (positive * pbuf)))%type.
Notation frags F := ((fun f : fragment => (f.1, f.2.1)) <$> F).
Notation pbuf_of := (fun f : fragment => pc_p f.2.1).
Definition has_come (h : heap) (f : fragment) : Prop := arrives h f.2.1 f.2.2 f.1.

Lemma frames_come P h h' F : frames P h h' -> (forall i, i ∈ ids (F.*2) -> i ∉ P) -> Forall (has_come h) F -> Forall (has_come h') F.
Proof.
  intros Fr Hd H. rewrite Forall_forall in H |- *. intros f Hf. apply (frames_arrives P h); [done| |by apply H]. intros i Hi. apply Hd. apply elem_of_ids.
  exists f.2. split; [by apply list_elem_of_fmap_2|done].
Qed.
Lemma repr_apart h v J L x l O i : repr h v J L ((x, l) :: O) -> i ∈ ids O -> i ∉ ids ((x, l) :: L).
Proof.
  intros R Hi Hin. pose proof (rp_pbufs _ _ _ _ _ R) as Hok. change (L ++ (x, l) :: O) with (L ++ [(x, l)] ++ O) in Hok. rewrite app_assoc in Hok.
  apply pbufs_ok_app in Hok as (_ & _ & Hd). apply (Hd i); [|done]. rewrite Permutation_app_comm. exact Hin.
Qed.

(** All the fragments [F], one after the other: they wait, and the last one completes a datagram. *)
Lemma waiting_runs F : forall h v J L g l, repr h v J L F.*2 -> queues J -> Forall (has_come h) F ->
  lenZ (ids F.*2) + lenZ (ids L) <= IP_REASS_MAX_PBUFS -> room_for (frags F) J.*2 -> F <> [] ->
  reass_steps (frags F) J.*2 = (replicate (pred (length F)) Waiting ++ [Complete g], l) -> IP_HLEN + lenZ (dg_data g) < 65536 ->
  exists p A h' v' J' L', runs h v (mapM (ip4_reass (X := X)) (pbuf_of <$> F)) (replicate (pred (length F)) None ++ [Some p]) h' v' /\
    packet h' (Some p) A /\ chain_data h' A = out_header g ++ dg_data g /\ J'.*2 = l /\ repr h' v' J' L' [] /\ A.*1 ++ ids L' ≡ₚ ids (F.*2 ++ L).
Proof.
  induction F as [|[hdr [x q]] F IH]; intros h v J L g l R HJ HF Hcnt Hroom Hne Hst Hfit; [done|]. clear Hne. csimpl in *.
  change (ids ((x, q) :: F.*2)) with (q.*1 ++ ids F.*2) in Hcnt. rewrite length_app, length_fmap in Hcnt.
  apply Forall_cons in HF as [Hx HF]. unfold has_come in Hx. simpl in Hx. cbn [reass_steps room_for] in *. destruct Hroom as [Hentry Hroom].
  assert (lenZ J < MEMP_NUM_REASSDATA \/ Exists (fun j => matches hdr j.2 = true) J) as Hentry'.
  { destruct Hentry as [He|He]; [left; by rewrite length_fmap in He|right]. by apply Exists_fmap in He. }
  destruct F as [|f F].
  - simpl in Hst. destruct (reass_step hdr x J.*2) as [o l1] eqn:Es. injection Hst as -> ->.
    destruct (reass_runs h v J L x q [] hdr R HJ Hx) as (r & h' & v' & J' & L' & Hrun & F1 & HJ' & _ & R' & Hres); [unfold IP_REASS_MAX_PBUFS in *; lia|done|by rewrite Es|].
    rewrite Es in HJ', Hres. destruct Hres as (p & A & -> & HpA & Hcd & Hperm). exists p, A, h', v', J', L'. split_and!; try done.
    cbn [mapM fmap list_fmap]. eapply runs_bind; [exact Hrun|]. eapply runs_bind; [apply runs_ret|]. apply runs_ret.
  - destruct (reass_step hdr x J.*2) as [o l1] eqn:Es. cbn [snd] in Hroom.
    destruct (reass_steps (frags (f :: F)) l1) as [os l2] eqn:Es2. simpl in Hst. injection Hst as -> -> ->.
    destruct (reass_runs h v J L x q ((f :: F).*2) hdr R HJ Hx) as (r & h' & v' & J' & L' & Hrun & F1 & HJ' & HqJ & R' & Hres); [unfold IP_REASS_MAX_PBUFS in *; lia|done|by rewrite Es|].
    rewrite Es in HJ', Hres. simpl in HJ', Hres. destruct Hres as [-> ->].
    destruct (IH h' v' J' ((x, q) :: L) g l R' HqJ) as (p & A & h2 & v2 & J2 & L2 & Hrun2 & HpA & Hcd & HJ2 & R2 & Hperm).
    + eapply frames_come; [exact F1| |done]. intros i Hi. by eapply repr_apart.
    + change (ids ((x, q) :: L)) with (q.*1 ++ ids L). rewrite length_app, length_fmap. lia.
    + by rewrite HJ'.
    + done.
    + rewrite HJ'. exact Es2.
    + done.
    + exists p, A, h2, v2, J2, L2. split_and!; try done.
      * cbn [mapM fmap list_fmap]. eapply runs_bind; [exact Hrun|]. eapply runs_bind; [exact Hrun2|]. apply runs_ret.
      * etransitivity; [exact Hperm|]. change (q.*1 ++ ids ((f :: F).*2 ++ L)) with (ids ((x, q) :: (f :: F).*2 ++ L)). refine (ids_perm _ _ _). symmetry. apply (Permutation_middle ((f :: F).*2)).
Qed.

(** The header that goes in front: a length, no fragment bits, a checksum that holds. *)
Lemma reass_header_fields addr hdr len : lenZ hdr = 20 -> bytes_ok hdr -> 0 <= len -> len + IP_HLEN < 65536 ->
  let H := reass_header hdr len in
  lenZ H = 20 /\ lwip_htons (ld16 H 2) = len + IP_HLEN /\ ld16 H 6 = 0 /\ inet_chksum addr H = 0 /\
  slice H 0 2 = slice hdr 0 2 /\ slice H 4 2 = slice hdr 4 2 /\ slice H 8 2 = slice hdr 8 2 /\ slice H 12 8 = slice hdr 12 8.
Proof.
  intros Hl Hb H0 Hs H. do 20 (destruct hdr as [|? hdr]; [done|]). destruct hdr; [|simpl in Hl; lia]. clear Hl.
  set (n := len + IP_HLEN). assert (0 <= n < 65536) as Hn by (unfold n, IP_HLEN in *; lia).
  set (a := [z; z0; n / 256; n mod 256; z3; z4; 0; 0; z7; z8]). set (b := [z11; z12; z13; z14; z15; z16; z17; z18]).
  assert (H = a ++ st16 (inet_chksum 0 (a ++ [0; 0] ++ b)) ++ b) as EH.
  { unfold H, reass_header. fold n. rewrite u16_small, st16_htons by done. reflexivity. }
  unfold bytes_ok in Hb. repeat match goal with Hb : Forall is_byte (_ :: _) |- _ => apply Forall_cons in Hb as [? Hb] end.
  assert (bytes_ok b) as Hbb by (unfold b; repeat (apply Forall_cons_2; [assumption|]); constructor).
  assert (bytes_ok a) as Hba by (unfold a; repeat (apply Forall_cons_2; [assumption || (unfold is_byte; ulia)|]); constructor).
  split_and!; try (by rewrite EH).
  - rewrite EH. change (ld16 _ 2) with (n / 256 + 256 * (n mod 256)). rewrite lwip_htons_eq by ulia. fold n. ulia.
  - rewrite EH. by apply inserted_verifies.
Qed.

(** C13: One call of ip4_reass with a fragment, while there is room for it (at most 128
    pbufs are queued with it, and its datagram has an entry or there is a free one), is
    a step of the abstract machine: the variables, the list of entries and the queued
    pbufs hold the new list of datagrams again.  A fragment that overlaps, comes twice or
    reaches too far is freed, one that waits is kept, and one that completes its
    datagram gives out a chain of all the datagram's pbufs with the first fragment's
    header, made over, and the data of the fragments; no pbuf is lost, and the rest of
    the heap is left alone. *)
Theorem ip4_reass_refines h v J L x l O hdr :
  repr h v J L ((x, l) :: O) -> queues J -> arrives h x l hdr -> lenZ l + lenZ (ids L) <= IP_REASS_MAX_PBUFS ->
  (lenZ J < MEMP_NUM_REASSDATA \/ Exists (fun j => matches hdr j.2 = true) J) -> fits (reass_step hdr x J.*2).1 ->
  exists r h' v' J' L', runs h v (ip4_reass (X := X) (pc_p x)) r h' v' /\ frames (ids ((x, l) :: L)) h h' /\
    J'.*2 = (reass_step hdr x J.*2).2 /\ queues J' /\ repr h' v' J' L' O /\ result_is h' (reass_step hdr x J.*2).1 r x l L L'.
Proof. apply reass_runs. Qed.

(** C12: Cut a datagram into fragments and give them to ip4_reass in any order, beside
    other datagrams: all calls but the last return NULL, and the last one returns a chain
    of pbufs with the datagram's data behind the first fragment's header, in which the
    length is the whole length, the fragment bits are clear and the checksum holds.  The
    entry is free again, the other datagrams are as they were, and the chain and the
    queues have exactly the pbufs there were. *)
Theorem reass_any_order h v J L hdr0 data fs F :
  cut hdr0 data fs -> frags F ≡ₚ fs -> repr h v J L F.*2 -> queues J -> Forall (has_come h) F ->
  Forall (fun j => matches hdr0 j.2 = false) J -> lenZ J < MEMP_NUM_REASSDATA -> lenZ (ids F.*2) + lenZ (ids L) <= IP_REASS_MAX_PBUFS ->
  let H := reass_header hdr0 (lenZ data) in
  exists p A h' v' J' L', runs h v (mapM (ip4_reass (X := X)) (pbuf_of <$> F)) (replicate (pred (length F)) None ++ [Some p]) h' v' /\
    packet h' (Some p) A /\ chain_data h' A = H ++ data /\
    lwip_htons (ld16 H 2) = lenZ data + IP_HLEN /\ ld16 H 6 = 0 /\ (forall addr, inet_chksum addr H = 0) /\
    J'.*2 = J.*2 /\ repr h' v' J' L' [] /\ A.*1 ++ ids L' ≡ₚ ids (F.*2 ++ L).
Proof.
  intros C Hp R HJ HF Hother Hentry Hcnt H.
  destruct (any_order_spec hdr0 data fs (frags F) J.*2 C Hp) as (g & Hst & Eh & Ed & El & Hroom); [by apply Forall_fmap|by rewrite length_fmap|].
  rewrite <- (Permutation_length Hp), length_fmap in Hst. pose proof (cut_small _ _ _ C) as Hsm.
  assert (lenZ hdr0 = 20 /\ bytes_ok hdr0) as [Hl Hb].
  { destruct (cut_first _ _ _ C) as (x0 & r & Efs & _). assert ((hdr0, x0) ∈ frags F) as (f & Ef & Hf)%list_elem_of_fmap by (rewrite Hp, Efs; left).
    injection Ef as -> _. rewrite Forall_forall in HF. split; [eapply arrives_hdr; by apply HF|eapply ar_bytes; by apply HF]. }
  destruct (waiting_runs F h v J L g J.*2 R HJ HF Hcnt Hroom) as (p & A & h' & v' & J' & L' & Hrun & HpA & Hcd & EJ & R' & Hperm).
  { intros ->. destruct (cut_first _ _ _ C) as (x0 & r & -> & _). by apply Permutation_nil_l in Hp. }
  { done. }
  { rewrite Ed. unfold IP_HLEN in *. lia. }
  exists p, A, h', v', J', L'. unfold out_header in Hcd. rewrite Eh, Ed, El in Hcd.
  assert (0 <= lenZ data /\ lenZ data + IP_HLEN < 65536) as [H0 H1] by (unfold IP_HLEN in *; lia).
  split_and!; try done; by apply (reass_header_fields 0 hdr0 (lenZ data) Hl Hb H0 H1) || (intros addr; by apply (reass_header_fields addr hdr0 (lenZ data) Hl Hb H0 H1)).
Qed.

(** C26: ip_reass_tmr takes one second from every datagram's timer, and the datagrams that
    have no time left are taken off the list with their entries free again and all their
    pbufs freed, when their first fragment never came (about the others an ICMP message
    is sent).  The others stay in their order, and nothing else in the heap changes. *)
Theorem ip_reass_tmr_expires h v J L O :
  repr h v J L O -> Forall mute J ->
  exists h' v' J' LG L', runs h v (ip_reass_tmr (X := X)) tt h' v' /\ repr h' v' J' L' O /\ J'.*2 = omap tick J.*2 /\
    L ≡ₚ LG ++ L' /\ gone h' (ids LG) /\ frames (ids LG) h h'.
Proof.
  intros R Hm. destruct (tmr_loop_runs O J [] h v L R Hm) as (h' & v' & J' & LG & L' & Hrun & R' & EJ & HL & F & G). exists h', v', J', LG, L'. split; [|done].
  eapply runs_bind; [by apply runs_reass|]. rewrite (rp_list _ _ _ _ _ R). exact Hrun.
Qed.
End Reass.

(** A fragment behind the last one is taken: the datagram comes out with a length field
    of 36 and 44 bytes of data and header. *)
Example beyond_the_last :
  let hdr off len := [0x45; 0; 0; len; 0; 1; off / 256; off mod 256; 64; 17; 0; 0; 10; 0; 0; 1; 10; 0; 0; 2] in
  let last := Piece 1 8 (replicate 8 1) in let beyond := Piece 2 16 (replicate 8 2) in let first := Piece 3 0 (replicate 8 0) in
  exists g, (reass_steps [(hdr 1 28, last); (hdr 0x2002 28, beyond); (hdr 0x2000 28, first)] []).1 = [Waiting; Waiting; Complete g] /\
    dg_len g = 16 /\ lenZ (dg_data g) = 24.
Proof. eexists. split; [reflexivity|]. by split. Qed.

(** ** Witnesses *)

(** Reassembly over a link that takes every frame. *)
Record reass_lab := ReassLab { lab_arp : arp; lab_ip : ip_state; lab_reass : reass }.
#[local] Program Instance lab_arp_part : part reass_lab arp := { get_part := lab_arp; set_part a l := ReassLab a (lab_ip l) (lab_reass l) }.
Solve Obligations with by intros; repeat match goal with l : reass_lab |- _ => destruct l end.
#[local] Program Instance lab_ip_part : part reass_lab ip_state := { get_part := lab_ip; set_part i l := ReassLab (lab_arp l) i (lab_reass l) }.
Solve Obligations with by intros; repeat match goal with l : reass_lab |- _ => destruct l end.
#[local] Program Instance lab_reass_part : part reass_lab reass := { get_part := lab_reass; set_part r l := ReassLab (lab_arp l) (lab_ip l) r }.
Solve Obligations with by intros; repeat match goal with l : reass_lab |- _ => destruct l end.
#[local] Instance lab_link : LinkLayer reass_lab := fun _ _ => mret ERR_OK.
#[local] Instance lab_fragments : IpFragments reass_lab := { ip4_frag _ _ _ := mret ERR_OK; ip4_reass _ := mret None }.
#[local] Instance lab_addresses : Addresses := p_off.

(** Two fragments, the second one first: 8 and 3 bytes of a datagram of 31 bytes. *)
Definition frag_hdr (off len : Z) : list Z := [0x45; 0; 0; len; 0; 1; off / 256; off mod 256; 64; 17; 0; 0; 10; 0; 0; 1; 10; 0; 0; 2].
Definition one_pbuf (i : positive) (n : Z) : pbuf := Pbuf None (Some (Ptr i 0)) n n 0x280 0 1 0 None.
Definition lab_piece1 : piece := Piece 1 0 [1; 2; 3; 4; 5; 6; 7; 8].
Definition lab_piece2 : piece := Piece 2 8 [9; 10; 11].
Definition lab_heap : heap :=
  Heap {[1%positive := one_pbuf 1 28; 2%positive := one_pbuf 2 23]}
    {[1%positive := frag_hdr 0x2000 28 ++ pc_data lab_piece1; 2%positive := frag_hdr 1 23 ++ pc_data lab_piece2]} 3 16 16 false 0.
Definition lab_frag1 : list Z * (piece * list (positive * pbuf)) := (frag_hdr 0x2000 28, (lab_piece1, [(1%positive, one_pbuf 1 28)])).
Definition lab_frag2 : list Z * (piece * list (positive * pbuf)) := (frag_hdr 1 23, (lab_piece2, [(2%positive, one_pbuf 2 23)])).

Lemma one_queued h i n bs s : h_pbufs h !! i = Some (one_pbuf i n) -> h_mem h !! i = Some bs -> lenZ bs = n -> IP_HLEN <= n < 65536 ->
  queued h (Piece i s (drop 20 bs), [(i, one_pbuf i n)]) /\ chain_data h [(i, one_pbuf i n)] = bs.
Proof.
  intros Hp Hm Hl Hn. unfold IP_HLEN in Hn. assert (chain_data h [(i, one_pbuf i n)] = bs) as Ecd.
  { unfold chain_data, pdata. simpl. rewrite Hm. simpl. unfold slice. rewrite drop_0, take_ge by lia. apply app_nil_r. }
  split; [split|done]; simpl.
  - apply packet_cons; simpl; [done|apply packet_nil|lia|lia| |lia]. right. exists i, 0, bs. simpl. split_and!; try done; lia.
  - constructor; [|constructor]. split; [|done]. split; [done|]. split; [|by exists bs]. split; [done|]. by vm_compute.
  - exists (one_pbuf i n), []. split; [done|]. simpl. unfold IP_HLEN. lia.
  - by rewrite Ecd.
Qed.
Lemma lab_queued1 : queued lab_heap lab_frag1.2 /\ chain_data lab_heap lab_frag1.2.2 = frag_hdr 0x2000 28 ++ pc_data lab_piece1.
Proof. apply (one_queued lab_heap 1 28 (frag_hdr 0x2000 28 ++ pc_data lab_piece1) 0); by vm_compute. Qed.
Lemma lab_queued2 : queued lab_heap lab_frag2.2 /\ chain_data lab_heap lab_frag2.2.2 = frag_hdr 1 23 ++ pc_data lab_piece2.
Proof. apply (one_queued lab_heap 2 23 (frag_hdr 1 23 ++ pc_data lab_piece2) 8); by vm_compute. Qed.
Lemma lab_come : Forall (has_come lab_heap) [lab_frag2; lab_frag1].
Proof.
  destruct lab_queued1 as [Q1 D1], lab_queued2 as [Q2 D2].
  repeat apply Forall_cons_2; [| |constructor]; (split; [done|first [by rewrite D1|by rewrite D2]|reflexivity|reflexivity|reflexivity|by apply bytes_ok_dec; vm_compute]).
Qed.
Lemma lab_repr : repr lab_heap reass_start [] [] [lab_frag2.2; lab_frag1.2].
Proof.
  destruct lab_queued1 as [Q1 _], lab_queued2 as [Q2 _]. split; [done|constructor|by intros i g ?%elem_of_nil|by intros i ?%elem_of_nil|done| |done|done|constructor].
  split; [by repeat apply Forall_cons_2|]. change (NoDup [2%positive; 1%positive]). apply NoDup_cons. split; [set_solver|apply NoDup_singleton].
Qed.
Lemma lab_cut : cut (frag_hdr 0x2000 28) [1; 2; 3; 4; 5; 6; 7; 8; 9; 10; 11] [(frag_hdr 0x2000 28, lab_piece1); (frag_hdr 1 23, lab_piece2)].
Proof.
  split; try done.
  - by exists lab_piece1, [(frag_hdr 1 23, lab_piece2)].
  - by repeat constructor.
  - by repeat constructor.
  - intros f [->|[->|Hf%elem_of_nil]%elem_of_cons]%elem_of_cons; done.
Qed.

Lemma reass_any_order_witness : exists p A h' v',
  runs (X := reass_lab) lab_heap reass_start (mapM IpReass.ip4_reass [2%positive; 1%positive]) [None; Some p] h' v' /\ packet h' (Some p) A /\
  chain_data h' A = [0x45; 0; 0; 31; 0; 1; 0; 0; 64; 17; 0x66; 0xcb; 10; 0; 0; 1; 10; 0; 0; 2] ++ [1; 2; 3; 4; 5; 6; 7; 8; 9; 10; 11].
Proof.
  destruct (reass_any_order lab_heap reass_start [] [] _ _ _ [lab_frag2; lab_frag1] lab_cut (perm_swap _ _ _) lab_repr ltac:(constructor) lab_come ltac:(constructor)
    ltac:(vm_compute; reflexivity) ltac:(vm_compute; discriminate)) as (p & A & h' & v' & _ & _ & Hrun & HA & Hcd & _).
  exists p, A, h', v'. split; [exact Hrun|]. split; [exact HA|]. rewrite Hcd. vm_compute. reflexivity.
Defined.

Lemma ip4_reass_refines_witness : exists h' v' J' L',
  runs (X := reass_lab) lab_heap reass_start (IpReass.ip4_reass 2) None h' v' /\ repr h' v' J' L' [lab_frag1.2] /\
  J'.*2 = [Dgram (frag_hdr 1 23) 11 true 15 [lab_piece2]].
Proof.
  destruct (ip4_reass_refines lab_heap reass_start [] [] lab_piece2 [(2%positive, one_pbuf 2 23)] [lab_frag1.2] (frag_hdr 1 23) lab_repr ltac:(constructor)
    ltac:(exact (Forall_inv lab_come)) ltac:(vm_compute; discriminate) ltac:(left; vm_compute; reflexivity) I) as (r & h' & v' & J' & L' & Hrun & _ & EJ & _ & R' & Er & _).
  exists h', v', J', L'. subst r. split; [exact Hrun|]. split; [exact R'|]. rewrite EJ. vm_compute. reflexivity.
Defined.

(** The second fragment waits, and its datagram has no time left. *)
Definition late_dgram : dgram := Dgram (frag_hdr 1 23) 11 true 0 [lab_piece2].
Definition late_vars : reass := Reass [1%positive] {[1%positive := rd_of late_dgram]} 1 4 2 {[2%positive := Helper None 8 11]}.
Lemma late_repr : repr lab_heap late_vars [(1%positive, late_dgram)] [lab_frag2.2] [].
Proof.
  destruct lab_queued2 as [Q2 _]. split; [done|apply NoDup_singleton| | |done| |done|done|].
  - by intros i g [= -> ->]%list_elem_of_singleton.
  - by intros i ->%list_elem_of_singleton.
  - split; [by repeat apply Forall_cons_2|apply NoDup_singleton].
  - constructor; [|constructor]. split; [done|]. by apply bytes_ok_dec; vm_compute.
Qed.
Lemma ip_reass_tmr_expires_witness : exists h' v' J' L',
  runs (X := reass_lab) lab_heap late_vars ip_reass_tmr tt h' v' /\ repr h' v' J' L' [] /\ J' = [].
Proof.
  destruct (ip_reass_tmr_expires lab_heap late_vars [(1%positive, late_dgram)] [lab_frag2.2] [] late_repr) as (h' & v' & J' & LG & L' & Hrun & R' & EJ & _).
  { constructor; [|constructor]. split; [discriminate|vm_compute; split; [discriminate|reflexivity]|reflexivity]. }
  exists h', v', J', L'. split; [exact Hrun|]. split; [exact R'|]. destruct J' as [|j J']; [reflexivity|discriminate EJ].
Defined.
