(* ===== verification/Udp.v ===== *)
(** * UDP: core/udp.c

    IPv4 only; LWIP_UDPLITE, SO_REUSE, IP_SOF_BROADCAST(_RECV),
    LWIP_MULTICAST_TX_OPTIONS and LWIP_CHECKSUM_ON_COPY 0, CHECKSUM_GEN_UDP 1,
    CHECKSUM_CHECK_UDP 0; the counters are left out.  A pcb is named by a number;
    [udp_pcbs] is the list the code threads through their [next] fields.  What the
    users of the stack do in their receive functions is an interface, [UdpUser]. *)
From S2P Require Import Prelude Def Pbuf Netif Node Ip4Addr InetChksum Ethernet Etharp Ip4 Icmp.

Definition UDP_HLEN := 8.
Definition UDP_TTL := 255.
Definition MEMP_NUM_UDP_PCB := 4.
Definition UDP_FLAGS_NOCHKSUM := 0x01.
Definition UDP_FLAGS_CONNECTED := 0x04.
Definition UDP_LOCAL_PORT_RANGE_START := 0xc000.
Definition UDP_LOCAL_PORT_RANGE_END := 0xffff.
Definition UDP_ENSURE_LOCAL_PORT_RANGE (port : Z) : Z :=
  u16 (Z.land port (u16 (Z.lnot UDP_LOCAL_PORT_RANGE_START)) + UDP_LOCAL_PORT_RANGE_START).

(** struct udp_pcb, with the IP_PCB members first. *)
Record udp_pcb := UdpPcb {
  local_ip : Z;
  remote_ip : Z;
  netif_idx : Z;
  so_options : Z;
  tos : Z;
  ttl : Z;
  udp_flags : Z;
  local_port : Z;
  remote_port : Z;
  recv : option Z;
  recv_arg : Z;
}.
Definition set_local_ip v c := UdpPcb v (remote_ip c) (netif_idx c) (so_options c) (tos c) (ttl c) (udp_flags c) (local_port c) (remote_port c) (recv c) (recv_arg c).
Definition set_local v p c := UdpPcb v (remote_ip c) (netif_idx c) (so_options c) (tos c) (ttl c) (udp_flags c) p (remote_port c) (recv c) (recv_arg c).
Definition set_remote v p c := UdpPcb (local_ip c) v (netif_idx c) (so_options c) (tos c) (ttl c) (udp_flags c) (local_port c) p (recv c) (recv_arg c).
Definition set_netif_idx v c := UdpPcb (local_ip c) (remote_ip c) v (so_options c) (tos c) (ttl c) (udp_flags c) (local_port c) (remote_port c) (recv c) (recv_arg c).
Definition set_udp_flags v c := UdpPcb (local_ip c) (remote_ip c) (netif_idx c) (so_options c) (tos c) (ttl c) v (local_port c) (remote_port c) (recv c) (recv_arg c).
Definition set_recv f a c := UdpPcb (local_ip c) (remote_ip c) (netif_idx c) (so_options c) (tos c) (ttl c) (udp_flags c) (local_port c) (remote_port c) f a.

(** The variables of udp.c, and the pool of pcbs. *)
Record udp_state := UdpState {
  udp_port : Z;
  udp_tab : gmap positive udp_pcb;
  udp_pcbs : list positive;
  udp_free : Z;
  udp_next : positive;
}.
Definition set_udp_port v s := UdpState v (udp_tab s) (udp_pcbs s) (udp_free s) (udp_next s).
Definition set_udp_tab v s := UdpState (udp_port s) v (udp_pcbs s) (udp_free s) (udp_next s).
Definition set_udp_pcbs v s := UdpState (udp_port s) (udp_tab s) v (udp_free s) (udp_next s).
Definition udp_state_init : udp_state := UdpState UDP_LOCAL_PORT_RANGE_START ∅ [] MEMP_NUM_UDP_PCB 1.

Definition get_pcb (i : positive) : M udp_state udp_pcb := s ← get; lift (udp_tab s !! i).
Definition upd_pcb (i : positive) (f : udp_pcb -> udp_pcb) : M udp_state unit :=
  c ← get_pcb i;
  modify (fun s => set_udp_tab (<[i := f c]> (udp_tab s)) s).

(** The first listed pcb that passes a test; [None] for a dangling entry. *)
Fixpoint any_pcb (f : positive -> udp_pcb -> bool) (tab : gmap positive udp_pcb) (l : list positive) : option bool :=
  match l with
  | [] => Some false
  | j :: l => match tab !! j with
              | Some c => if f j c then Some true else any_pcb f tab l
              | None => None
              end
  end.

(** udp_init: [rand] is what LWIP_RAND() gives. *)
Definition udp_init (rand : Z) : M udp_state unit :=
  modify (set_udp_port (UDP_ENSURE_LOCAL_PORT_RANGE (u32 rand))).

(** The loop of udp_new_port, [n] the number of conflicts so far. *)
Fixpoint udp_new_port_loop (fuel : nat) (n : Z) : M udp_state Z :=
  match fuel with
  | O => stuck
  | S fuel =>
      s ← get;
      let port := if udp_port s =? UDP_LOCAL_PORT_RANGE_END then UDP_LOCAL_PORT_RANGE_START else u16 (udp_port s + 1) in
      modify (set_udp_port port);;
      used ← lift (any_pcb (fun _ c => local_port c =? port) (udp_tab s) (udp_pcbs s));
      if (used : bool) then
        let n := u16 (n + 1) in
        if UDP_LOCAL_PORT_RANGE_END - UDP_LOCAL_PORT_RANGE_START <? n then mret 0
        else udp_new_port_loop fuel n
      else mret port
  end.
(** At most as many rounds as there are ports. *)
Definition port_fuel : nat := Z.to_nat 16384.
Definition udp_new_port : M udp_state Z := udp_new_port_loop port_fuel 0.

(** The test of udp_bind against another pcb of the list. *)
Definition bind_conflict (i : positive) (ipaddr port : Z) (j : positive) (c : udp_pcb) : bool :=
  bool_decide (i <> j) && (local_port c =? port) &&
  ((local_ip c =? ipaddr) || ip4_addr_isany_val ipaddr || ip4_addr_isany_val (local_ip c)).

Definition udp_bind (pcb : option positive) (ipaddr : option Z) (port : Z) : M udp_state err_t :=
  let ipaddr := default IPADDR_ANY ipaddr in
  match pcb with
  | None => mret ERR_ARG
  | Some i =>
      s ← get;
      let rebind := bool_decide (i ∈ udp_pcbs s) in
      let set (port : Z) : M udp_state err_t :=
        upd_pcb i (set_local ipaddr port);;
        (if rebind then mret tt else modify (fun s => set_udp_pcbs (i :: udp_pcbs s) s));;
        mret ERR_OK in
      if port =? 0 then
        port ← udp_new_port;
        if port =? 0 then mret ERR_USE else set port
      else
        used ← lift (any_pcb (bind_conflict i ipaddr port) (udp_tab s) (udp_pcbs s));
        if (used : bool) then mret ERR_USE else set port
  end.

Definition udp_bind_netif (i : positive) (n : option netif) : M udp_state unit :=
  upd_pcb i (set_netif_idx (match n with Some n => netif_get_index n | None => NETIF_NO_INDEX end)).

Definition udp_connect (pcb : option positive) (ipaddr : option Z) (port : Z) : M udp_state err_t :=
  match pcb, ipaddr with
  | None, _ | _, None => mret ERR_ARG
  | Some i, Some ipaddr =>
      c ← get_pcb i;
      r ← (if local_port c =? 0 then udp_bind (Some i) (Some (local_ip c)) (local_port c) else mret ERR_OK);
      if negb (bool_decide (r = ERR_OK)) then mret r
      else
        upd_pcb i (fun c => set_udp_flags (u8 (Z.lor (udp_flags c) UDP_FLAGS_CONNECTED)) (set_remote ipaddr port c));;
        s ← get;
        (if bool_decide (i ∈ udp_pcbs s) then mret tt else modify (fun s => set_udp_pcbs (i :: udp_pcbs s) s));;
        mret ERR_OK
  end.

Definition udp_disconnect (pcb : option positive) : M udp_state unit :=
  match pcb with
  | None => mret tt
  | Some i => upd_pcb i (fun c => set_udp_flags (u8 (Z.land (udp_flags c) (u8 (Z.land (Z.lnot UDP_FLAGS_CONNECTED) 0xff))))
                (set_netif_idx NETIF_NO_INDEX (set_remote IPADDR_ANY 0 c)))
  end.

Definition udp_recv (pcb : option positive) (f : option Z) (arg : Z) : M udp_state unit :=
  match pcb with
  | None => mret tt
  | Some i => upd_pcb i (set_recv f arg)
  end.

Definition udp_remove (pcb : option positive) : M udp_state unit :=
  match pcb with
  | None => mret tt
  | Some i =>
      get_pcb i;;
      modify (fun s => UdpState (udp_port s) (delete i (udp_tab s)) (remove_first i (udp_pcbs s)) (udp_free s + 1) (udp_next s))
  end.

(** memp_malloc(MEMP_UDP_PCB) and the struct zeroed. *)
Definition udp_new : M udp_state (option positive) :=
  s ← get;
  if udp_free s =? 0 then mret None
  else
    let i := udp_next s in
    put (UdpState (udp_port s) (<[i := UdpPcb 0 0 0 0 0 UDP_TTL 0 0 0 None 0]> (udp_tab s)) (udp_pcbs s) (udp_free s - 1) (Pos.succ i));;
    mret (Some i).
Definition udp_new_ip_type (type : Z) : M udp_state (option positive) := udp_new.

Definition move_bound (old_addr new_addr : Z) (c : udp_pcb) : udp_pcb :=
  if local_ip c =? old_addr then set_local_ip new_addr c else c.
Fixpoint move_all (f : udp_pcb -> udp_pcb) (l : list positive) : M udp_state unit :=
  match l with
  | [] => mret tt
  | j :: l => upd_pcb j f;; move_all f l
  end.
Definition udp_netif_ip_addr_changed (old_addr : Z) (new_addr : option Z) : M udp_state unit :=
  match new_addr with
  | Some new_addr =>
      if negb (ip4_addr_isany_val old_addr) && negb (ip4_addr_isany_val new_addr) then
        s ← get; move_all (move_bound old_addr new_addr) (udp_pcbs s)
      else mret tt
  | None => mret tt
  end.

(** ** Input *)

(** udp_input_local_match: [idx] is the index of the netif the datagram came in
    on, [n] the netif [inp]; [None] if the index is asked for and there is none. *)
Definition udp_input_local_match (c : udp_pcb) (idx : option Z) (n : netif) (broadcast : bool) (dest : Z) : option bool :=
  let here := if broadcast then
      ip4_addr_isany_val (local_ip c) || (dest =? IPADDR_BROADCAST) || ip4_addr_netcmp (local_ip c) dest (netmask n)
    else ip4_addr_isany_val (local_ip c) || (local_ip c =? dest) in
  if negb (netif_idx c =? NETIF_NO_INDEX) then
    k ← idx;
    Some (if negb (netif_idx c =? k) then false else here)
  else Some here.

(** A datagram: ports in host byte order. *)
Record datagram := Datagram { d_src : Z; d_sport : Z; d_dest : Z; d_dport : Z; d_bcast : bool }.

(** The pcb that takes the first place among the unconnected ones. *)
Definition udp_uncon (n : netif) (d : datagram) (uncon : option (positive * udp_pcb)) (j : positive) (c : udp_pcb)
    : option (positive * udp_pcb) :=
  if Z.land (udp_flags c) UDP_FLAGS_CONNECTED =? 0 then
    match uncon with
    | None => Some (j, c)
    | Some (_, u) =>
        if d_bcast d && (d_dest d =? IPADDR_BROADCAST) then
          if negb (local_ip u =? ip_addr n) && (local_ip c =? ip_addr n) then Some (j, c) else uncon
        else uncon
    end
  else uncon.
Definition remote_match (d : datagram) (c : udp_pcb) : bool :=
  (remote_port c =? d_sport d) && (ip4_addr_isany_val (remote_ip c) || (remote_ip c =? d_src d)).

(** The loop over udp_pcbs: the fully matching pcb and the first unconnected one. *)
Fixpoint udp_find (tab : gmap positive udp_pcb) (idx : option Z) (n : netif) (d : datagram)
    (uncon : option (positive * udp_pcb)) (l : list positive) : option (option positive * option positive) :=
  match l with
  | [] => Some (None, fst <$> uncon)
  | j :: l =>
      c ← tab !! j;
      m ← (if local_port c =? d_dport d then udp_input_local_match c idx n (d_bcast d) (d_dest d) else Some false);
      if (m : bool) then
        let uncon := udp_uncon n d uncon j c in
        if remote_match d c then Some (Some j, fst <$> uncon) else udp_find tab idx n d uncon l
      else udp_find tab idx n d uncon l
  end.

(** A pcb found behind others moves to the front of the list. *)
Definition to_front (i : positive) (l : list positive) : list positive :=
  match l with
  | j :: _ => if decide (i = j) then l else i :: remove_first i l
  | [] => l
  end.

(** A user's receive function: function, argument, pcb, packet, sender. *)
Class UdpUser (X : Type) := udp_recv_call : Z -> Z -> positive -> positive -> Z -> Z -> M (node X) unit.

Section Udp.
Context {E : PbufEnv} {X : Type} {LL : LinkLayer X} {AP : part X arp} {IP : part X ip_state} {FR : IpFragments X}.
Context {AD : Addresses} {UD : part X udp_state} {UU : UdpUser X}.

Definition onudp {A} (m : M udp_state A) : M (node X) A := ext (zoom m).

Definition udp_input (p inp : positive) : M (node X) unit :=
  let give_back : M (node X) unit := onheap (pbuf_free (Some p));; mret tt in
  b ← onheap (get_pbuf p);
  if len b <? UDP_HLEN then give_back
  else
    s ← onip get;
    let ipd := ip_data s in
    let dest_ip := current_iphdr_dest ipd in
    cur ← lift (current_netif ipd);
    ncur ← get_netif cur;
    let broadcast := ip4_addr_isbroadcast_u32 dest_ip ncur in
    src ← onheap (load16 (payload b) 0);
    dest ← onheap (load16 (payload b) 2);
    let d := Datagram (current_iphdr_src ipd) (lwip_htons src) dest_ip (lwip_htons dest) broadcast in
    n ← get_netif inp;
    g ← zoom get;
    let idx := k ← current_input_netif ipd; netif_get_index <$> nif g !! k in
    u ← onudp get;
    '(found, uncon) ← lift (udp_find (udp_tab u) idx n d None (udp_pcbs u));
    (match found with
     | Some i => onudp (modify (set_udp_pcbs (to_front i (udp_pcbs u))))
     | None => mret tt
     end);;
    let pcb := match found with Some i => Some i | None => uncon end in
    let for_us := match pcb with Some _ => true | None => ip_addr n =? dest_ip end in
    if for_us then
      x ← onheap (pbuf_remove_header (Some p) UDP_HLEN);
      if (x : bool) then give_back
      else
        match pcb with
        | Some i =>
            c ← onudp (get_pcb i);
            match recv c with
            | Some f => udp_recv_call f (recv_arg c) i p (d_src d) (d_sport d)
            | None => give_back
            end
        | None =>
            (if negb broadcast && negb (ip4_addr_ismulticast dest_ip) then
               onheap (pbuf_header_force (Some p) (current_ip_header_tot_len ipd + UDP_HLEN));;
               icmp_dest_unreach p ICMP_DUR_PORT
             else mret tt);;
            give_back
        end
    else give_back.

(** ** Output *)

(** The pbuf that is sent: [p] with the header in front, or a new pbuf for the
    header with [p] behind; [None] when there is no memory. *)
Definition udp_header_pbuf (p : positive) : M heap (option positive) :=
  x ← pbuf_add_header (Some p) UDP_HLEN;
  if (x : bool) then
    q ← pbuf_alloc PBUF_IP UDP_HLEN PBUF_RAM;
    match q with
    | None => mret None
    | Some q =>
        b ← get_pbuf p;
        (if negb (tot_len b =? 0) then pbuf_chain (Some q) (Some p) else mret tt);;
        mret (Some q)
    end
  else mret (Some p).

Definition udp_sendto_if_src (pcb p : positive) (dst_ip dst_port : Z) (netif : positive) (src_ip : Z) : M (node X) err_t :=
  c ← onudp (get_pcb pcb);
  r ← (if local_port c =? 0 then onudp (udp_bind (Some pcb) (Some (local_ip c)) (local_port c)) else mret ERR_OK);
  if negb (bool_decide (r = ERR_OK)) then mret r
  else
    b ← onheap (get_pbuf p);
    if u16 (tot_len b + UDP_HLEN) <? tot_len b then mret ERR_MEM
    else
      q ← onheap (udp_header_pbuf p);
      match q with
      | None => mret ERR_MEM
      | Some q =>
          bq ← onheap (get_pbuf q);
          let udphdr := payload bq in
          c ← onudp (get_pcb pcb);
          onheap (store udphdr 0 (st16 (lwip_htons (local_port c))));;
          onheap (store udphdr 2 (st16 (lwip_htons dst_port)));;
          onheap (store udphdr 6 (st16 0));;
          onheap (store udphdr 4 (st16 (lwip_htons (tot_len bq))));;
          (if Z.land (udp_flags c) UDP_FLAGS_NOCHKSUM =? 0 then
             k ← onheap (ip_chksum_pseudo addr_of (Some q) IP_PROTO_UDP (tot_len bq) src_ip dst_ip);
             onheap (store udphdr 6 (st16 (if k =? 0 then 0xffff else k)))
           else mret tt);;
          err ← ip4_output_if_src q (Some src_ip) (Some dst_ip) (ttl c) (tos c) IP_PROTO_UDP netif;
          (if bool_decide (q <> p) then onheap (pbuf_free (Some q));; mret tt else mret tt);;
          mret err
      end.

Definition udp_sendto_if (pcb p : positive) (dst_ip dst_port : Z) (netif : positive) : M (node X) err_t :=
  c ← onudp (get_pcb pcb);
  n ← get_netif netif;
  if ip4_addr_isany_val (local_ip c) || ip4_addr_ismulticast (local_ip c) then
    udp_sendto_if_src pcb p dst_ip dst_port netif (ip_addr n)
  else if negb (local_ip c =? ip_addr n) then mret ERR_RTE
  else udp_sendto_if_src pcb p dst_ip dst_port netif (local_ip c).

Definition udp_sendto (pcb p : option positive) (dst_ip : option Z) (dst_port : Z) : M (node X) err_t :=
  match pcb, p, dst_ip with
  | Some pcb, Some p, Some dst_ip =>
      c ← onudp (get_pcb pcb);
      netif ← (if negb (netif_idx c =? NETIF_NO_INDEX) then netif_get_by_index (netif_idx c) else ip4_route dst_ip);
      match netif with
      | None => mret ERR_RTE
      | Some i => udp_sendto_if pcb p dst_ip dst_port i
      end
  | _, _, _ => mret ERR_ARG
  end.

Definition udp_send (pcb p : option positive) : M (node X) err_t :=
  match pcb, p with
  | Some i, Some _ =>
      c ← onudp (get_pcb i);
      udp_sendto pcb p (Some (remote_ip c)) (remote_port c)
  | _, _ => mret ERR_ARG
  end.

End Udp.
