(* ===== verification/UdpFacts.v ===== *)
(** * UDP: the pcbs in order *)
From S2P Require Import Prelude Triple Def Pbuf Netif NetifInv Node Ip4Addr Icmp Udp.

(** The list and the pool are in order: listed pcbs exist and are the bound ones,
    and none of the pool is lost. *)
Record udp_ok (s : udp_state) : Prop := {
  udp_nodup : NoDup (udp_pcbs s);
  udp_bound i c : udp_tab s !! i = Some c -> i ∈ udp_pcbs s <-> local_port c <> 0;
  udp_listed i : i ∈ udp_pcbs s -> is_Some (udp_tab s !! i);
  udp_fresh i : (udp_next s <= i)%positive -> udp_tab s !! i = None;
  udp_pool : 0 <= udp_free s /\ udp_free s + Z.of_nat (size (udp_tab s)) = MEMP_NUM_UDP_PCB;
  udp_range : UDP_LOCAL_PORT_RANGE_START <= udp_port s <= UDP_LOCAL_PORT_RANGE_END;
}.

(** Two bound pcbs with the same port have different addresses of their own. *)
Definition exclusive (s : udp_state) : Prop :=
  forall i j ci cj, i ∈ udp_pcbs s -> j ∈ udp_pcbs s -> i <> j -> udp_tab s !! i = Some ci -> udp_tab s !! j = Some cj ->
    local_port ci = local_port cj -> local_ip ci <> local_ip cj /\ local_ip ci <> IPADDR_ANY /\ local_ip cj <> IPADDR_ANY.

(** Some bound pcb passes the test. *)
Definition some_pcb (f : positive -> udp_pcb -> bool) (s : udp_state) : Prop :=
  exists j c, j ∈ udp_pcbs s /\ udp_tab s !! j = Some c /\ f j c = true.

Lemma any_pcb_run f tab l :
  (forall j, j ∈ l -> is_Some (tab !! j)) ->
  exists b, any_pcb f tab l = Some b /\ (b = true <-> exists j c, j ∈ l /\ tab !! j = Some c /\ f j c = true).
Proof.
  induction l as [|j l IH]; intros Hl.
  - exists false. split; [done|]. split; [done|]. by intros (j & c & []%not_elem_of_nil & _).
  - destruct (Hl j ltac:(by left)) as [c Hc]. cbn [any_pcb]. rewrite Hc. destruct (f j c) eqn:Hf.
    + exists true. split; [done|]. split; [|done]. intros _. exists j, c. split; [by left|done].
    + destruct IH as (b & Hb & Hiff); [intros k Hk; apply Hl; by right|]. exists b. split; [done|]. rewrite Hiff. split.
      * intros (k & x & Hk & ?). exists k, x. split; [by right|done].
      * intros (k & x & [->|Hk]%elem_of_cons & Hx & Hfx); [|by exists k, x]. congruence.
Qed.
Lemma some_pcb_run f s :
  udp_ok s -> exists b, any_pcb f (udp_tab s) (udp_pcbs s) = Some b /\ (b = true <-> some_pcb f s).
Proof. intros Hs. apply any_pcb_run, (udp_listed _ Hs). Qed.

Lemma get_pcb_run s i c : udp_tab s !! i = Some c -> get_pcb i s = Some (c, s).
Proof. intros Hc. unfold get_pcb, mbind, M_bind, get, lift. by rewrite Hc. Qed.
Lemma upd_pcb_run s i c f : udp_tab s !! i = Some c -> upd_pcb i f s = Some (tt, set_udp_tab (<[i := f c]> (udp_tab s)) s).
Proof. intros Hc. unfold upd_pcb. by mrun (get_pcb_run s i c Hc). Qed.

(** ** A free port *)
Definition port_used (s : udp_state) (port : Z) : Prop := some_pcb (fun _ c => local_port c =? port) s.
Definition local_range (port : Z) : Prop := UDP_LOCAL_PORT_RANGE_START <= port <= UDP_LOCAL_PORT_RANGE_END.
(** The port [k] rounds after [port]. *)
Definition round_port (port k : Z) : Z := UDP_LOCAL_PORT_RANGE_START + (port - UDP_LOCAL_PORT_RANGE_START + k) mod 16384.

Lemma udp_ok_port s p : udp_ok s -> local_range p -> udp_ok (set_udp_port p s).
Proof. by intros [] ?. Qed.

Lemma new_port_loop_run fuel : forall n s,
  udp_ok s -> 0 <= n -> n + Z.of_nat (S fuel) = 16384 ->
  exists r p, udp_new_port_loop (S fuel) n s = Some (r, set_udp_port p s) /\ local_range p /\
    ((r = p /\ ~ port_used s p) \/ (r = 0 /\ forall k, 1 <= k <= Z.of_nat (S fuel) -> port_used s (round_port (udp_port s) k))).
Proof.
  induction fuel as [|fuel IH]; intros n s Hs Hn Hf; cbn [udp_new_port_loop]; rewrite bind_get;
    pose proof (udp_range _ Hs) as Hr; unfold UDP_LOCAL_PORT_RANGE_START, UDP_LOCAL_PORT_RANGE_END in *;
    set (p := if udp_port s =? 0xffff then 0xc000 else u16 (udp_port s + 1));
    assert (p = round_port (udp_port s) 1) as Ep by
      (unfold p, round_port, UDP_LOCAL_PORT_RANGE_START; destruct (Z.eqb_spec (udp_port s) 0xffff); ulia);
    assert (local_range p) as Hp by (rewrite Ep; unfold local_range, round_port, UDP_LOCAL_PORT_RANGE_START, UDP_LOCAL_PORT_RANGE_END; ulia);
    rewrite (bind_run (modify _) _ s tt (set_udp_port p s) eq_refl); cbv beta;
    destruct (some_pcb_run (fun _ c => local_port c =? p) s Hs) as (b & Hb & Hiff); rewrite Hb;
    change (lift (Some b)) with (mret b : M udp_state bool); rewrite bind_ret; fold (port_used s p) in Hiff;
    (destruct b; [|exists p, p; split; [done|]; split; [done|]; left; split; [done|]; by intros ?%Hiff]).
  - exists 0, p. rewrite u16_small by lia. rewrite (proj2 (Z.ltb_lt _ _)) by lia. split; [done|]. split; [done|]. right. split; [done|].
    intros k Hk. assert (k = 1) as -> by lia. rewrite <- Ep. by apply Hiff.
  - rewrite u16_small by lia. rewrite (proj2 (Z.ltb_ge _ _)) by lia.
    destruct (IH (n + 1) (set_udp_port p s) (udp_ok_port s p Hs Hp) ltac:(lia) ltac:(lia)) as (r & q & Hrun & Hq & Hres).
    exists r, q. split; [exact Hrun|]. split; [done|]. destruct Hres as [Hfree|[-> Hall]]; [by left|]. right. split; [done|].
    intros k Hk. destruct (decide (k = 1)) as [->|Hk1]; [rewrite <- Ep; by apply Hiff|].
    specialize (Hall (k - 1) ltac:(lia)). change (udp_port (set_udp_port p s)) with p in Hall.
    replace (round_port (udp_port s) k) with (round_port p (k - 1)); [exact Hall|].
    rewrite Ep. unfold round_port, UDP_LOCAL_PORT_RANGE_START. ulia.
Qed.

Lemma new_port_run s :
  udp_ok s -> exists r p, udp_new_port s = Some (r, set_udp_port p s) /\ local_range p /\
    ((r = p /\ ~ port_used s p) \/ (r = 0 /\ forall q, local_range q -> port_used s q)).
Proof.
  intros Hs. unfold udp_new_port, port_fuel. destruct (Z.to_nat 16384) as [|fuel] eqn:Hf; [lia|].
  destruct (new_port_loop_run fuel 0 s Hs ltac:(lia) ltac:(lia)) as (r & p & Hrun & Hp & Hres). exists r, p. split; [done|]. split; [done|].
  destruct Hres as [?|[-> Hall]]; [by left|]. right. split; [done|]. intros q Hq. pose proof (udp_range _ Hs).
  unfold local_range, UDP_LOCAL_PORT_RANGE_START, UDP_LOCAL_PORT_RANGE_END in *.
  specialize (Hall (if udp_port s <? q then q - udp_port s else q - udp_port s + 16384)).
  replace (round_port (udp_port s) _) with q in Hall; [apply Hall; destruct (Z.ltb_spec (udp_port s) q); lia|].
  unfold round_port, UDP_LOCAL_PORT_RANGE_START. destruct (Z.ltb_spec (udp_port s) q); ulia.
Qed.

#[local] Opaque udp_new_port port_fuel.

(** Fewer pcbs than ports: one is free. *)
Lemma ports_enough s : udp_ok s -> ~ forall q, local_range q -> port_used s q.
Proof.
  intros Hs Hall. pose proof (udp_pool _ Hs) as [Hf Hsz]. unfold MEMP_NUM_UDP_PCB in Hsz.
  set (ports := omap (fun j => local_port <$> udp_tab s !! j) (udp_pcbs s)).
  assert (forall q, local_range q -> q ∈ ports) as Hin.
  { intros q Hq. destruct (Hall q Hq) as (j & c & Hj & Hc & Hqc). b2p. apply list_elem_of_omap. exists j. by rewrite Hc; simpl; subst. }
  assert (seqZ 0xc000 5 ⊆+ ports) as Hsub.
  { apply NoDup_submseteq; [apply NoDup_seqZ|]. intros q Hq%elem_of_seqZ. apply Hin.
    unfold local_range, UDP_LOCAL_PORT_RANGE_START, UDP_LOCAL_PORT_RANGE_END. lia. }
  apply submseteq_length in Hsub. rewrite length_seqZ in Hsub.
  assert (length ports <= length (udp_pcbs s))%nat as H1.
  { unfold ports. clear. induction (udp_pcbs s) as [|j l IH]; [done|]. csimpl. destruct (udp_tab s !! j); simpl; lia. }
  assert (length (udp_pcbs s) <= size (udp_tab s))%nat as H2; [|lia].
  rewrite <- size_dom, <- (size_list_to_set (C := gset positive) (udp_pcbs s)) by apply (udp_nodup _ Hs).
  apply subseteq_size. intros j Hj%elem_of_list_to_set. apply elem_of_dom. by apply (udp_listed _ Hs).
Qed.

(** ** Binding *)

(** The pcb [i] bound. *)
Definition with_bound (i : positive) (c : udp_pcb) (ip port : Z) (s : udp_state) : udp_state :=
  UdpState (udp_port s) (<[i := set_local ip port c]> (udp_tab s)) (if bool_decide (i ∈ udp_pcbs s) then udp_pcbs s else i :: udp_pcbs s)
    (udp_free s) (udp_next s).

Definition clash (s : udp_state) (i : positive) (ip port : Z) : Prop :=
  exists j c, j ∈ udp_pcbs s /\ udp_tab s !! j = Some c /\ i <> j /\ local_port c = port /\
    (local_ip c = ip \/ ip = IPADDR_ANY \/ local_ip c = IPADDR_ANY).

Lemma clash_iff s i ip port : some_pcb (bind_conflict i ip port) s <-> clash s i ip port.
Proof.
  unfold some_pcb, clash, bind_conflict, ip4_addr_isany_val.
  split; intros (j & c & Hj & Hc & H); exists j, c; (split; [done|]); (split; [done|]); revert H;
    rewrite !andb_true_iff, !orb_true_iff, bool_decide_eq_true, !Z.eqb_eq; tauto.
Qed.

Lemma same_pcb s i c f :
  udp_ok s -> udp_tab s !! i = Some c -> local_port (f c) = local_port c -> udp_ok (set_udp_tab (<[i := f c]> (udp_tab s)) s).
Proof.
  intros [Hd Hb Hl Hf Hp Hr] Hc Hport. split; simpl; try done.
  - intros j x. destruct (decide (i = j)) as [<-|Hne]; [rewrite lookup_insert_eq; intros [= <-]; rewrite Hport; by apply Hb|].
    rewrite lookup_insert_ne by done. apply Hb.
  - intros j Hj%Hl. destruct (decide (i = j)) as [<-|Hne]; [by rewrite lookup_insert_eq|by rewrite lookup_insert_ne].
  - intros j Hj. rewrite lookup_insert_ne; [by apply Hf|]. intros <-. rewrite (Hf i Hj) in Hc. done.
  - by rewrite map_size_insert_Some by (by eexists).
Qed.

Lemma with_bound_ok s i c ip port :
  udp_ok s -> udp_tab s !! i = Some c -> port <> 0 -> udp_ok (with_bound i c ip port s).
Proof.
  intros [Hd Hb Hl Hf Hp Hr] Hc Hport. unfold with_bound. case_bool_decide as Hi; split; simpl; try done.
  - intros j x. destruct (decide (i = j)) as [<-|Hne]; [rewrite lookup_insert_eq; by intros [= <-]|]. rewrite lookup_insert_ne by done. apply Hb.
  - intros j Hj%Hl. destruct (decide (i = j)) as [<-|Hne]; [by rewrite lookup_insert_eq|by rewrite lookup_insert_ne].
  - intros j Hj. rewrite lookup_insert_ne; [by apply Hf|]. intros <-. rewrite (Hf i Hj) in Hc. done.
  - by rewrite map_size_insert_Some by (by eexists).
  - by apply NoDup_cons.
  - intros j x. destruct (decide (i = j)) as [<-|Hne]; [rewrite lookup_insert_eq; intros [= <-]; split; [done|by left]|].
    rewrite lookup_insert_ne by done. intros Hx. rewrite elem_of_cons. rewrite <- (Hb j x Hx). split; [by intros [->|?]|by right].
  - intros j Hj. destruct (decide (i = j)) as [<-|Hne]; [by rewrite lookup_insert_eq|]. rewrite lookup_insert_ne by done.
    apply Hl. apply elem_of_cons in Hj as [->|?]; done.
  - intros j Hj. rewrite lookup_insert_ne; [by apply Hf|]. intros <-. rewrite (Hf i Hj) in Hc. done.
  - by rewrite map_size_insert_Some by (by eexists).
Qed.

Lemma with_bound_exclusive s i c ip port :
  exclusive s -> ~ clash s i ip port -> exclusive (with_bound i c ip port s).
Proof.
  intros He Hno.
  assert (forall j cj, j <> i -> j ∈ udp_pcbs (with_bound i c ip port s) -> udp_tab (with_bound i c ip port s) !! j = Some cj ->
    j ∈ udp_pcbs s /\ udp_tab s !! j = Some cj) as Hold.
  { intros j cj Hne Hj. unfold with_bound in *. simpl in *. rewrite lookup_insert_ne by done. intros Hcj. split; [|done].
    revert Hj. case_bool_decide; [done|]. by intros [->|?]%elem_of_cons. }
  assert (udp_tab (with_bound i c ip port s) !! i = Some (set_local ip port c)) as Hi by apply lookup_insert_eq.
  assert (forall j cj, j <> i -> j ∈ udp_pcbs (with_bound i c ip port s) -> udp_tab (with_bound i c ip port s) !! j = Some cj -> port = local_port cj ->
    ip <> local_ip cj /\ ip <> IPADDR_ANY /\ local_ip cj <> IPADDR_ANY) as Hnew.
  { intros j cj Hne Hj Hcj Hp. destruct (Hold j cj Hne Hj Hcj) as [Hj' Hcj'].
    split_and!; intros E; destruct Hno; exists j, cj; (split; [done|]); (split; [done|]); (split; [done|]); (split; [done|]); auto. }
  intros j k cj ck Hj Hk Hne Hcj Hck Hp.
  destruct (decide (j = i)) as [->|Hji], (decide (k = i)) as [->|Hki]; [done|..].
  - rewrite Hi in Hcj. injection Hcj as <-. by apply (Hnew k ck).
  - rewrite Hi in Hck. injection Hck as <-. destruct (Hnew j cj Hji Hj Hcj) as (? & ? & ?); [done|]. by split_and!.
  - destruct (Hold j cj Hji Hj Hcj), (Hold k ck Hki Hk Hck). by apply (He j k).
Qed.

(** udp_bind to a port of the caller's choice. *)
Lemma bind_port_run s i c ip port :
  udp_ok s -> udp_tab s !! i = Some c -> port <> 0 ->
  (clash s i (default IPADDR_ANY ip) port /\ udp_bind (Some i) ip port s = Some (ERR_USE, s)) \/
  (~ clash s i (default IPADDR_ANY ip) port /\ udp_bind (Some i) ip port s = Some (ERR_OK, with_bound i c (default IPADDR_ANY ip) port s)).
Proof.
  intros Hs Hc Hp. unfold udp_bind. rewrite bind_get, (proj2 (Z.eqb_neq port 0)) by done.
  destruct (some_pcb_run (bind_conflict i (default IPADDR_ANY ip) port) s Hs) as (b & Hb & Hiff). rewrite Hb, clash_iff in *.
  change (lift (Some b)) with (mret b : M udp_state bool). rewrite bind_ret. destruct b; [left; by split; [apply Hiff|]|].
  right. split; [by intros ?%Hiff|]. mrun (upd_pcb_run s i c (set_local (default IPADDR_ANY ip) port) Hc).
  unfold with_bound. by case_bool_decide.
Qed.
(** And to any port. *)
Lemma bind_any_run s i c ip :
  udp_ok s -> udp_tab s !! i = Some c ->
  exists p, local_range p /\ ~ port_used s p /\
    udp_bind (Some i) ip 0 s = Some (ERR_OK, with_bound i c (default IPADDR_ANY ip) p (set_udp_port p s)).
Proof.
  intros Hs Hc. unfold udp_bind. rewrite bind_get. cbn [Z.eqb]. destruct (new_port_run s Hs) as (r & p & Hr & Hp & [[-> Hno]|[_ Hall]]).
  2:{ by destruct (ports_enough s Hs). }
  exists p. split; [done|]. split; [done|]. mrun Hr.
  rewrite (proj2 (Z.eqb_neq p 0)) by (unfold local_range, UDP_LOCAL_PORT_RANGE_START in Hp; lia).
  mrun (upd_pcb_run (set_udp_port p s) i c (set_local (default IPADDR_ANY ip) p) Hc). unfold with_bound.
  change (udp_pcbs (set_udp_port p s)) with (udp_pcbs s). by case_bool_decide.
Qed.

Lemma unused_no_clash s i ip p q : ~ port_used s p -> ~ clash (set_udp_port q s) i ip p.
Proof. intros Hno (j & c & Hj & Hc & _ & Hp & _). apply Hno. exists j, c. split; [done|]. split; [done|]. by apply Z.eqb_eq. Qed.

(** In short. *)
Lemma bind_total s i c ip port :
  udp_ok s -> udp_tab s !! i = Some c ->
  exists r s', udp_bind (Some i) ip port s = Some (r, s') /\ udp_ok s' /\ (exclusive s -> exclusive s') /\
    dom (udp_tab s') = dom (udp_tab s) /\
    (r = ERR_USE /\ s' = s \/ r = ERR_OK /\ exists p, udp_tab s' !! i = Some (set_local (default IPADDR_ANY ip) p c) /\ p <> 0 /\ (port <> 0 -> p = port)).
Proof.
  intros Hs Hc. destruct (decide (port = 0)) as [->|Hp].
  - destruct (bind_any_run s i c ip Hs Hc) as (p & Hp & Hno & Hr). assert (p <> 0) as Hp0 by (unfold local_range, UDP_LOCAL_PORT_RANGE_START in Hp; lia).
    eexists _, _. split; [exact Hr|]. split; [by apply with_bound_ok; [apply udp_ok_port| |]|]. split; [intros He; apply with_bound_exclusive; [done|by apply unused_no_clash]|].
    split; [simpl; rewrite dom_insert_L; apply elem_of_dom_2 in Hc; set_solver|]. right. split; [done|]. exists p. split; [apply lookup_insert_eq|done].
  - destruct (bind_port_run s i c ip port Hs Hc Hp) as [[_ Hr]|[Hno Hr]]; eexists _, _; (split; [exact Hr|]); [by split_and!; auto|].
    split; [by apply with_bound_ok|]. split; [intros He; by apply with_bound_exclusive|].
    split; [simpl; rewrite dom_insert_L; apply elem_of_dom_2 in Hc; set_solver|]. right. split; [done|]. exists port. split; [apply lookup_insert_eq|done].
Qed.

(** ** Everything a user can do *)
Inductive udp_call :=
| New
| Bind (i : positive) (ip : option Z) (port : Z)
| Bind_netif (i : positive) (n : option netif)
| Connect (i : positive) (ip : option Z) (port : Z)
| Disconnect (i : positive)
| Recv (i : positive) (f : option Z) (arg : Z)
| Remove (i : positive).
Definition make_udp_call (c : udp_call) : M udp_state unit :=
  match c with
  | New => udp_new;; mret tt
  | Bind i ip port => udp_bind (Some i) ip port;; mret tt
  | Bind_netif i n => udp_bind_netif i n
  | Connect i ip port => udp_connect (Some i) ip port;; mret tt
  | Disconnect i => udp_disconnect (Some i)
  | Recv i f arg => udp_recv (Some i) f arg
  | Remove i => udp_remove (Some i)
  end.
(** The pcb of a call is one that udp_new gave and udp_remove did not take. *)
Definition call_pcb (c : udp_call) : option positive :=
  match c with
  | New => None
  | Bind i _ _ | Bind_netif i _ | Connect i _ _ | Disconnect i | Recv i _ _ | Remove i => Some i
  end.
Definition valid_call (s : udp_state) (c : udp_call) : Prop := forall i, call_pcb c = Some i -> is_Some (udp_tab s !! i).
Definition udp_step (s s' : udp_state) : Prop := exists c, valid_call s c /\ make_udp_call c s = Some (tt, s').

(** Changes that leave the pcb's own port and address alone. *)
Lemma same_local s i c f :
  exclusive s -> udp_tab s !! i = Some c -> local_port (f c) = local_port c -> local_ip (f c) = local_ip c ->
  exclusive (set_udp_tab (<[i := f c]> (udp_tab s)) s).
Proof.
  intros He Hc Hp Hip.
  assert (forall j x, <[i := f c]> (udp_tab s) !! j = Some x ->
    exists y, udp_tab s !! j = Some y /\ local_port y = local_port x /\ local_ip y = local_ip x) as Hold.
  { intros j x. destruct (decide (i = j)) as [<-|Hne]; [rewrite lookup_insert_eq; intros [= <-]; by exists c|].
    rewrite lookup_insert_ne by done. intros Hx. by exists x. }
  intros j k cj ck Hj Hk Hne Hcj Hck Hport. destruct (Hold j cj Hcj) as (yj & Hyj & Hpj & Hij), (Hold k ck Hck) as (yk & Hyk & Hpk & Hik).
  rewrite <- Hij, <- Hik. apply (He j k yj yk); (done || congruence).
Qed.
Lemma edit_call s i f :
  udp_ok s -> is_Some (udp_tab s !! i) -> (forall c, local_port (f c) = local_port c /\ local_ip (f c) = local_ip c) ->
  exists s', upd_pcb i f s = Some (tt, s') /\ udp_ok s' /\ (exclusive s -> exclusive s').
Proof.
  intros Hs [c Hc] Hf. destruct (Hf c) as [Hp Hip]. eexists. split; [by apply upd_pcb_run|].
  split; [by apply same_pcb|]. intros He. by apply same_local.
Qed.

Lemma connect_total s i c ip port :
  udp_ok s -> udp_tab s !! i = Some c ->
  exists r s', udp_connect (Some i) ip port s = Some (r, s') /\ udp_ok s' /\ (exclusive s -> exclusive s') /\ dom (udp_tab s') = dom (udp_tab s).
Proof.
  intros Hs Hc. unfold udp_connect. destruct ip as [ip|]; [|by eexists _, s]. mrun (get_pcb_run s i c Hc).
  assert (exists r s1, (if local_port c =? 0 then udp_bind (Some i) (Some (local_ip c)) (local_port c) else mret ERR_OK) s = Some (r, s1) /\
    udp_ok s1 /\ (exclusive s -> exclusive s1) /\ dom (udp_tab s1) = dom (udp_tab s) /\
    (r = ERR_OK -> exists c1, udp_tab s1 !! i = Some c1 /\ local_port c1 <> 0)) as (r & s1 & Hr & Hs1 & He1 & Hd1 & Hok).
  { destruct (Z.eqb_spec (local_port c) 0) as [E|E]; [|exists ERR_OK, s; split_and!; [done..|by exists c]].
    destruct (bind_total s i c (Some (local_ip c)) (local_port c) Hs Hc) as (r & s1 & Hr & Hs1 & He & Hd & Hres).
    exists r, s1. split_and!; try done. intros ->. destruct Hres as [[? _]|(_ & p & Hp & Hp0 & _)]; [done|]. by eexists. }
  mrun Hr. destruct (decide (r = ERR_OK)) as [->|Hne].
  2:{ rewrite bool_decide_eq_false_2 by done. by eexists _, _. }
  destruct (Hok eq_refl) as (c1 & Hc1 & Hp1). rewrite bool_decide_eq_true_2 by done. cbn [negb].
  set (f := fun c => set_udp_flags _ _). mrun (upd_pcb_run s1 i c1 f Hc1). rewrite bind_get.
  rewrite bool_decide_eq_true_2 by (by apply (udp_bound _ Hs1 i c1 Hc1)).
  eexists _, _. split; [done|]. split; [by apply same_pcb|]. split; [intros He; apply same_local; by auto|].
  simpl. rewrite dom_insert_L, <- Hd1. apply elem_of_dom_2 in Hc1. set_solver.
Qed.

Lemma remove_first_in i l : NoDup l -> forall j, j ∈ remove_first i l <-> j ∈ l /\ j <> i.
Proof.
  intros Hd j. induction Hd as [|k l Hk Hd IH]; [cbn; set_solver|]. cbn [remove_first]. destruct (decide (i = k)) as [->|Hne].
  - set_solver.
  - rewrite !elem_of_cons, IH. split; [intros [->|[? ?]]; auto|tauto].
Qed.

Lemma udp_remove_total s i c :
  udp_ok s -> udp_tab s !! i = Some c ->
  exists s', udp_remove (Some i) s = Some (tt, s') /\ udp_ok s' /\ (exclusive s -> exclusive s').
Proof.
  intros [Hd Hb Hl Hf Hp Hr] Hc. unfold udp_remove. mrun (get_pcb_run s i c Hc). eexists. split; [done|].
  assert (forall j x, delete i (udp_tab s) !! j = Some x -> j <> i /\ udp_tab s !! j = Some x) as Hdel
    by (intros j x; rewrite lookup_delete_Some; intros [? ?]; by split).
  assert (forall j, j ∈ remove_first i (udp_pcbs s) <-> j ∈ udp_pcbs s /\ j <> i) as Hrem by (by apply remove_first_in).
  split; [split; simpl|].
  - by apply remove_first_NoDup.
  - intros j x [Hne Hx]%Hdel. rewrite Hrem, (Hb j x Hx). tauto.
  - intros j [Hj Hne]%Hrem. rewrite lookup_delete_ne by done. by apply Hl.
  - intros j Hj. apply lookup_delete_None. right. by apply Hf.
  - rewrite map_size_delete_Some by (by eexists). assert (size (udp_tab s) <> 0%nat) by (intros H0%map_size_empty_inv; by rewrite H0 in Hc). lia.
  - done.
  - intros He j k cj ck [Hj _]%Hrem [Hk _]%Hrem Hne [_ Hcj]%Hdel [_ Hck]%Hdel. by apply (He j k).
Qed.

Lemma new_total s :
  udp_ok s ->
  exists r s', udp_new s = Some (r, s') /\ udp_ok s' /\ (exclusive s -> exclusive s') /\
    (r = None <-> udp_free s = 0) /\ forall i, r = Some i -> udp_tab s !! i = None /\ is_Some (udp_tab s' !! i).
Proof.
  intros [Hd Hb Hl Hf Hp Hr]. unfold udp_new. rewrite bind_get. destruct (Z.eqb_spec (udp_free s) 0) as [E|E].
  { exists None, s. by split_and!. }
  set (i := udp_next s). assert (udp_tab s !! i = None) as Hi by (apply Hf; unfold i; lia).
  assert (i ∉ udp_pcbs s) as Hni by (intros Hin%Hl; rewrite Hi in Hin; by apply is_Some_None in Hin).
  eexists (Some i), _. split; [done|]. split; [split; simpl|].
  - done.
  - intros j x. destruct (decide (i = j)) as [<-|Hne]; [rewrite lookup_insert_eq; intros [= <-]; simpl; split; [done|lia]|].
    rewrite lookup_insert_ne by done. apply Hb.
  - intros j Hj. rewrite lookup_insert_ne by (intros ->; done). by apply Hl.
  - intros j Hj. fold i in Hj. rewrite lookup_insert_ne by (intros <-; unfold i in Hj; lia). apply Hf. unfold i in Hj. lia.
  - rewrite map_size_insert_None by done. lia.
  - done.
  - split; [|split; [done|]]; simpl.
    + intros He j k cj ck Hj Hk Hne. simpl in *. rewrite !lookup_insert_ne by (intros <-; done). by apply (He j k).
    + intros j [= <-]. split; [done|]. rewrite lookup_insert_eq. by eexists.
Qed.

Lemma udp_call_total s c :
  udp_ok s -> valid_call s c -> exists s', make_udp_call c s = Some (tt, s') /\ udp_ok s' /\ (exclusive s -> exclusive s').
Proof.
  intros Hs Hc. destruct c as [|i ip port|i n|i ip port|i|i f a|i]; unfold valid_call in Hc; simpl in Hc;
    try specialize (Hc i eq_refl); unfold make_udp_call.
  - destruct (new_total s Hs) as (r & s' & Hr & ? & ? & _). exists s'. by mrun Hr.
  - destruct Hc as [c Hc]. destruct (bind_total s i c ip port Hs Hc) as (r & s' & Hr & ? & ? & _). exists s'. by mrun Hr.
  - by apply edit_call.
  - destruct Hc as [c Hc]. destruct (connect_total s i c ip port Hs Hc) as (r & s' & Hr & ? & ? & _). exists s'. by mrun Hr.
  - by apply edit_call.
  - by apply edit_call.
  - destruct Hc as [c Hc]. by apply (udp_remove_total s i c).
Qed.

Lemma udp_init_ok : udp_ok udp_state_init /\ exclusive udp_state_init.
Proof.
  split; [split; simpl|].
  - apply NoDup_nil_2.
  - intros i c. by rewrite lookup_empty.
  - by intros i ?%not_elem_of_nil.
  - intros i _. apply lookup_empty.
  - done.
  - done.
  - by intros i j ci cj ?%not_elem_of_nil.
Qed.
Lemma seeded_ok s rand : udp_ok s -> exists s', udp_init rand s = Some (tt, s') /\ udp_ok s' /\ (exclusive s -> exclusive s').
Proof.
  intros Hs. eexists. split; [done|]. split; [|done]. apply udp_ok_port; [done|].
  unfold local_range, UDP_ENSURE_LOCAL_PORT_RANGE, UDP_LOCAL_PORT_RANGE_START, UDP_LOCAL_PORT_RANGE_END.
  change (u16 (Z.lnot 0xc000)) with (Z.ones 14). rewrite Z.land_ones by done. ulia.
Qed.

(** ** An interface changes its address *)
Lemma move_all_run f : (forall c, local_port (f c) = local_port c) -> forall l s,
  udp_ok s -> NoDup l -> (forall j, j ∈ l -> is_Some (udp_tab s !! j)) ->
  exists s', move_all f l s = Some (tt, s') /\ udp_ok s' /\ udp_pcbs s' = udp_pcbs s /\
    forall i, udp_tab s' !! i = if decide (i ∈ l) then f <$> udp_tab s !! i else udp_tab s !! i.
Proof.
  intros Hf. induction l as [|j l IH]; intros s Hs Hd Hl; cbn [move_all].
  { exists s. split; [done|]. split; [done|]. split; [done|]. intros i. by rewrite decide_False by apply not_elem_of_nil. }
  apply NoDup_cons in Hd as [Hj Hd]. destruct (Hl j ltac:(by left)) as [c Hc]. mrun (upd_pcb_run s j c f Hc).
  destruct (IH (set_udp_tab (<[j := f c]> (udp_tab s)) s)) as (s' & Hr & Hs' & Hp & Ht); [by apply same_pcb|done| |].
  { intros i Hi. simpl. rewrite lookup_insert_ne by (by intros ->). apply Hl. by right. }
  exists s'. split; [done|]. split; [done|]. split; [done|]. intros i. rewrite Ht. simpl.
  destruct (decide (i = j)) as [->|Hne].
  - rewrite decide_False by done. rewrite lookup_insert_eq, decide_True by (by left). by rewrite Hc.
  - rewrite lookup_insert_ne by done. destruct (decide (i ∈ l)) as [Hi|Hi]; [rewrite decide_True by (by right)|rewrite decide_False by (by intros [?|?]%elem_of_cons)]; done.
Qed.
