(* ===== verification/Ip4Input.v ===== *)
(** * IPv4: input, core/ipv4/ip4.c

    CHECKSUM_CHECK_IP 0, IP_FORWARD 0, IP_REASSEMBLY 1, IP_OPTIONS_ALLOWED 0,
    LWIP_RAW 0, LWIP_IGMP 0, UDP, TCP and ICMP enabled; the counters are left
    out.  core/udp.c and core/tcp_in.c are an interface, [Transport]. *)
From S2P Require Import Prelude Def Pbuf Netif Node Ip4Addr InetChksum Ethernet Etharp Ip4 Icmp.

Class Transport (X : Type) := {
  udp_input_call : positive -> positive -> M (node X) unit;
  tcp_input_call : positive -> positive -> M (node X) unit;
}.

(** ip4_input_accept: [dest] is ip4_current_dest_addr(). *)
Definition ip4_input_accept (dest : Z) (n : netif) : bool :=
  netif_is_up n && negb (ip4_addr_isany_val (ip_addr n)) &&
  ((dest =? ip_addr n) || ip4_addr_isbroadcast_u32 dest n).

(** The netif that takes a packet for [dest] that came in on [inp], whose struct
    is [n]. *)
Definition accepting_netif (g : netifs) (inp : positive) (n : netif) (dest : Z) : option positive :=
  if ip4_addr_ismulticast dest then
    if netif_is_up n && negb (ip4_addr_isany_val (ip_addr n)) then Some inp else None
  else if ip4_input_accept dest n then Some inp
  else if ip4_addr_isloopback dest then None
  else find_netif (ip4_input_accept dest) (nif g) (filter (fun j => j <> inp) (netif_list g)).

Section Input.
Context {E : PbufEnv} {X : Type} {LL : LinkLayer X} {AP : part X arp} {IP : part X ip_state} {FR : IpFragments X}.
Context {AD : Addresses} {TR : Transport X}.

Definition modify_ip_data (f : ip_globals -> ip_globals) : M (node X) unit :=
  onip (modify (fun s => set_ip_data (f (ip_data s)) s)).

(** The end of ip4_input: the packet [p] for [netif] goes up. *)
Definition ip4_deliver (p inp netif : positive) (iphdr : option ptr) (iphdr_hlen : Z) : M (node X) err_t :=
  v_hl ← onheap (load8 iphdr 0);
  modify_ip_data (fun d => IpData (Some netif) (Some inp) iphdr (IPH_HL_BYTES v_hl)
    (current_iphdr_src d) (current_iphdr_dest d));;
  onheap (pbuf_remove_header (Some p) iphdr_hlen);;
  proto ← onheap (load8 iphdr 9);
  (if proto =? IP_PROTO_UDP then udp_input_call p inp
   else if proto =? IP_PROTO_TCP then tcp_input_call p inp
   else if proto =? IP_PROTO_ICMP then icmp_input p inp
   else
     s ← onip get;
     let dest := current_iphdr_dest (ip_data s) in
     n ← get_netif netif;
     (if negb (ip4_addr_isbroadcast_u32 dest n) && negb (ip4_addr_ismulticast dest) then
        onheap (pbuf_header_force (Some p) iphdr_hlen);;
        icmp_dest_unreach p ICMP_DUR_PROTO
      else mret tt);;
     onheap (pbuf_free (Some p));; mret tt);;
  modify_ip_data (fun _ => ip_data_init);;
  mret ERR_OK.

(** The first two header fields are read before any length is checked. *)
Definition ip4_input (p inp : positive) : M (node X) err_t :=
  let drop (p : positive) : M (node X) err_t := onheap (pbuf_free (Some p));; mret ERR_OK in
  b ← onheap (get_pbuf p);
  let iphdr := payload b in
  v_hl ← onheap (load8 iphdr 0);
  if negb (IPH_V v_hl =? 4) then drop p
  else
    let iphdr_hlen := IPH_HL_BYTES v_hl in
    l ← onheap (load16 iphdr 2);
    let iphdr_len := lwip_htons l in
    (if iphdr_len <? tot_len b then onheap (pbuf_realloc (Some p) iphdr_len) else mret tt);;
    b ← onheap (get_pbuf p);
    if (len b <? iphdr_hlen) || (tot_len b <? iphdr_len) || (iphdr_hlen <? IP_HLEN) then drop p
    else
      dest ← onheap (load32 iphdr 16);
      modify_ip_data (set_current_iphdr_dest dest);;
      src ← onheap (load32 iphdr 12);
      modify_ip_data (set_current_iphdr_src src);;
      n ← get_netif inp;
      g ← zoom get;
      let netif := accepting_netif g inp n dest in
      if ip4_addr_isbroadcast_u32 src n || ip4_addr_ismulticast src then drop p
      else
        match netif with
        | None => drop p
        | Some netif =>
            off ← onheap (load16 iphdr 6);
            whole ← (if negb (Z.land off (PP_HTONS (Z.lor IP_OFFMASK IP_MF)) =? 0) then
                       r ← ip4_reass p;
                       match r with
                       | None => mret None
                       | Some p => b ← onheap (get_pbuf p); mret (Some (p, payload b))
                       end
                     else mret (Some (p, iphdr)));
            match whole with
            | None => mret ERR_OK
            | Some (p, iphdr) =>
                if IP_HLEN <? iphdr_hlen then drop p
                else ip4_deliver p inp netif iphdr iphdr_hlen
            end
        end.

End Input.
