(* ===== verification/EtharpFacts.v ===== *)
(** * The ARP cache: what its search and its operations do *)
From S2P Require Import Prelude Def Pbuf PbufFacts PbufWrite PbufAlloc PbufPool PbufChain Netif Node Ip4Addr.
From S2P Require Import Ethernet EthernetFacts Etharp.

(** ** The search

    The entries by what recycling them destroys: 0 for an empty entry, 1 for a
    stable one, 2 for a pending one, 3 for a pending one with packets queued. *)
Definition loss (e : etharp_entry) : Z :=
  match e_state e with
  | ETHARP_STATE_EMPTY => 0
  | ETHARP_STATE_PENDING => match q e with [] => 2 | _ => 3 end
  | _ => 1
  end.

(** The entry etharp_find_entry looks for. *)
Definition resolves (ip : option Z) (nif : option positive) (e : etharp_entry) : Prop :=
  e_state e <> ETHARP_STATE_EMPTY /\ entry_matches ip nif e = true.

(** [i] is an oldest entry of class [c] in [tab], of age [age]; 10 if there is
    none. *)
Definition oldest (c : Z) (tab : list etharp_entry) (i age : Z) : Prop :=
  (i = ARP_TABLE_SIZE /\ age = 0 /\ forall k e, tab !! k = Some e -> loss e <> c) \/
  (0 <= i < lenZ tab /\ exists e, tab !! Z.to_nat i = Some e /\ loss e = c /\ age = ctime e /\
   forall k e', tab !! k = Some e' -> loss e' = c -> ctime e' <= age).
(** And the first empty one. *)
Definition first_empty (tab : list etharp_entry) (i : Z) : Prop :=
  (i = ARP_TABLE_SIZE /\ forall k e, tab !! k = Some e -> loss e <> 0) \/
  (0 <= i < lenZ tab /\ exists e, tab !! Z.to_nat i = Some e /\ loss e = 0 /\
   forall k e', tab !! k = Some e' -> (k < Z.to_nat i)%nat -> loss e' <> 0).

Record noted (tab : list etharp_entry) (c : candidates) : Prop := {
  noted_empty : first_empty tab (c_empty c);
  noted_stable : oldest 1 tab (c_old_stable c) (age_stable c);
  noted_pending : oldest 2 tab (c_old_pending c) (age_pending c);
  noted_queue : oldest 3 tab (c_old_queue c) (age_queue c);
}.

Lemma loss_empty e : loss e = 0 <-> e_state e = ETHARP_STATE_EMPTY.
Proof. unfold loss. destruct (e_state e), (q e); split; (done || congruence). Qed.

Lemma lookup_snoc_cases {A} (l : list A) x k e :
  (l ++ [x]) !! k = Some e -> l !! k = Some e \/ (k = length l /\ e = x).
Proof.
  intros H. destruct (decide (k < length l)%nat) as [Hk|Hk].
  - rewrite lookup_app_l in H by done. by left.
  - rewrite lookup_app_r in H by lia. right. destruct (k - length l)%nat eqn:Hd; [|done].
    simpl in H. split; [lia|congruence].
Qed.

(** An entry of another class changes nothing; one of the class takes over when
    it is at least as old. *)
Lemma oldest_other c tab i age e : oldest c tab i age -> loss e <> c -> oldest c (tab ++ [e]) i age.
Proof.
  intros [(-> & -> & H)|(Hi & e0 & He & Hl & Ha & H)] Hne; [left|right].
  - split; [done|]. split; [done|]. intros k e' [Hk|[_ ->]]%lookup_snoc_cases; [by eapply H|done].
  - split; [rewrite length_app; lia|]. exists e0. rewrite lookup_app_l by lia.
    split; [done|]. split; [done|]. split; [done|].
    intros k e' [Hk|[_ ->]]%lookup_snoc_cases Hc; [by eapply H|done].
Qed.

Lemma oldest_newer c tab i age e :
  oldest c tab i age -> loss e = c -> 0 <= ctime e -> age <= ctime e ->
  oldest c (tab ++ [e]) (lenZ tab) (ctime e).
Proof.
  intros Ho Hc He Ha. right. split; [rewrite length_app; simpl; lia|]. exists e.
  split; [by rewrite Nat2Z.id, list_lookup_middle|]. split; [done|]. split; [done|].
  intros k e' [Hk|[_ ->]]%lookup_snoc_cases Hc'; [|lia].
  destruct Ho as [(_ & _ & H)|(_ & e0 & _ & _ & _ & H)]; [by destruct (H k e' Hk)|].
  specialize (H k e' Hk Hc'). lia.
Qed.

Lemma oldest_younger c tab i age e :
  oldest c tab i age -> loss e = c -> 0 <= ctime e -> ctime e < age -> oldest c (tab ++ [e]) i age.
Proof.
  intros [(_ & -> & _)|(Hi & e0 & He & Hl & Ha & H)] Hc H0 Hlt; [lia|]. right.
  split; [rewrite length_app; lia|]. exists e0. rewrite lookup_app_l by lia.
  split; [done|]. split; [done|]. split; [done|].
  intros k e' [Hk|[_ ->]]%lookup_snoc_cases Hc'; [by eapply H|lia].
Qed.

Lemma first_empty_other tab i e : first_empty tab i -> loss e <> 0 -> first_empty (tab ++ [e]) i.
Proof.
  intros [(-> & H)|(Hi & e0 & He & Hl & H)] Hne; [left|right].
  - split; [done|]. intros k e' [Hk|[_ ->]]%lookup_snoc_cases; [by eapply H|done].
  - split; [rewrite length_app; lia|]. exists e0. rewrite lookup_app_l by lia.
    split; [done|]. split; [done|]. intros k e' [Hk|[-> ->]]%lookup_snoc_cases Hlt; [by eapply H|done].
Qed.

Lemma first_empty_later tab i e : first_empty tab i -> i <> ARP_TABLE_SIZE -> first_empty (tab ++ [e]) i.
Proof.
  intros [(-> & H)|(Hi & e0 & He & Hl & H)] Hne; [done|right].
  split; [rewrite length_app; lia|]. exists e0. rewrite lookup_app_l by lia.
  split; [done|]. split; [done|]. intros k e' [Hk|[-> ->]]%lookup_snoc_cases Hlt; [by eapply H|lia].
Qed.

Lemma first_empty_new tab e : first_empty tab ARP_TABLE_SIZE -> lenZ tab < ARP_TABLE_SIZE -> loss e = 0 -> first_empty (tab ++ [e]) (lenZ tab).
Proof.
  intros [(_ & H)|(Hi & _)] Hlen Hl; [|lia]. right.
  split; [rewrite length_app; simpl; lia|]. exists e. split; [by rewrite Nat2Z.id, list_lookup_middle|].
  split; [done|]. intros k e' [Hk|[-> ->]]%lookup_snoc_cases Hlt; [by eapply H|lia].
Qed.

Lemma oldest_step c tab i age e :
  oldest c tab i age -> 0 <= ctime e ->
  oldest c (tab ++ [e]) (if (loss e =? c) && (age <=? ctime e) then lenZ tab else i)
    (if (loss e =? c) && (age <=? ctime e) then ctime e else age).
Proof.
  intros Ho H0. destruct (loss e =? c) eqn:Hc; b2p; simpl; [|by apply oldest_other].
  destruct (age <=? ctime e) eqn:Ha; b2p; [by eapply oldest_newer|by eapply oldest_younger].
Qed.

Lemma first_empty_step tab i e :
  first_empty tab i -> lenZ tab < ARP_TABLE_SIZE ->
  first_empty (tab ++ [e]) (if (loss e =? 0) && (i =? ARP_TABLE_SIZE) then lenZ tab else i).
Proof.
  intros Ho Hlen. destruct (loss e =? 0) eqn:Hc; b2p; simpl; [|by apply first_empty_other].
  destruct (i =? ARP_TABLE_SIZE) eqn:Hi; b2p; [subst; by apply first_empty_new|by apply first_empty_later].
Qed.

(** Noting one more entry. *)
Lemma note_entry_eq i e c :
  note_entry i e c = Cand
    (if (loss e =? 0) && (c_empty c =? ARP_TABLE_SIZE) then i else c_empty c)
    (if (loss e =? 1) && (age_stable c <=? ctime e) then i else c_old_stable c)
    (if (loss e =? 2) && (age_pending c <=? ctime e) then i else c_old_pending c)
    (if (loss e =? 3) && (age_queue c <=? ctime e) then i else c_old_queue c)
    (if (loss e =? 3) && (age_queue c <=? ctime e) then ctime e else age_queue c)
    (if (loss e =? 2) && (age_pending c <=? ctime e) then ctime e else age_pending c)
    (if (loss e =? 1) && (age_stable c <=? ctime e) then ctime e else age_stable c).
Proof.
  unfold note_entry, loss. destruct c, (e_state e), (q e); simpl; by try case_if.
Qed.

Lemma note_entry_noted tab e c :
  noted tab c -> lenZ tab < ARP_TABLE_SIZE -> 0 <= ctime e ->
  noted (tab ++ [e]) (note_entry (lenZ tab) e c).
Proof.
  intros [He Hs Hp Hq] Hlen H0. rewrite note_entry_eq.
  split; simpl; auto using oldest_step, first_empty_step.
Qed.

Lemma noted_nil : noted [] no_candidates.
Proof. by split; left; split_and!; try done; intros k e; rewrite lookup_nil. Qed.

(** The whole search: the first entry that matches, or the candidates. *)
Lemma search_from ip nif tab : forall pre c,
  noted pre c -> lenZ (pre ++ tab) <= ARP_TABLE_SIZE -> Forall (fun e => 0 <= ctime e) tab ->
  match search tab (lenZ pre) ip nif c with
  | inl i => exists k e, i = lenZ pre + Z.of_nat k /\ tab !! k = Some e /\ resolves ip nif e /\
      forall k' e', (k' < k)%nat -> tab !! k' = Some e' -> ~ resolves ip nif e'
  | inr c' => noted (pre ++ tab) c' /\ Forall (fun e => ~ resolves ip nif e) tab
  end.
Proof.
  induction tab as [|e tab IH]; intros pre c Hc Hlen Ht; cbn [search].
  { by rewrite app_nil_r. }
  apply Forall_cons in Ht as [He Ht]. rewrite length_app in Hlen. simpl in Hlen.
  assert (resolves ip nif e <-> negb (bool_decide (e_state e = ETHARP_STATE_EMPTY)) && entry_matches ip nif e = true) as Hr.
  { unfold resolves. rewrite andb_true_iff, negb_true_iff, bool_decide_eq_false. done. }
  destruct (negb _ && _) eqn:Eb.
  - exists 0%nat, e. split; [lia|]. split; [done|]. split; [by apply Hr|]. lia.
  - assert (~ resolves ip nif e) as Hne by (rewrite Hr; done).
    specialize (IH (pre ++ [e]) (note_entry (lenZ pre) e c)).
    replace (lenZ (pre ++ [e])) with (lenZ pre + 1) in IH by (rewrite length_app; simpl; lia).
    rewrite <- app_assoc in IH. simpl in IH.
    specialize (IH ltac:(apply note_entry_noted; (done || lia)) ltac:(rewrite length_app; simpl; lia) Ht).
    destruct (search _ _ _ _ _) as [i|c'].
    + destruct IH as (k & e0 & -> & Hk & Hres & Hfst). exists (S k), e0.
      split; [lia|]. split; [done|]. split; [done|]. intros [|k'] e' Hlt Hk'; [injection Hk' as <-; done|].
      apply (Hfst k'); [lia|done].
    + destruct IH as [Hn Hf]. split; [done|]. by apply Forall_cons.
Qed.

Definition find_only (flags : Z) : Prop := Z.land flags ETHARP_FLAG_FIND_ONLY <> 0.
Definition try_hard (flags : Z) : Prop := Z.land flags ETHARP_FLAG_TRY_HARD <> 0.

(** [e] is a cheapest entry to recycle: no entry is of a cheaper class, and
    none of its class is older. *)
Definition cheapest (tab : list etharp_entry) (e : etharp_entry) : Prop :=
  forall k e', tab !! k = Some e' ->
    loss e <= loss e' /\ (loss e' = loss e -> loss e <> 0 -> ctime e' <= ctime e).

Lemma loss_bound e : 0 <= loss e <= 3.
Proof. unfold loss. destruct (e_state e), (q e); lia. Qed.

Lemma oldest_none c tab age : lenZ tab <= ARP_TABLE_SIZE -> oldest c tab ARP_TABLE_SIZE age ->
  forall k e, tab !! k = Some e -> loss e <> c.
Proof. intros Hl [(_ & _ & H)|(? & _)]; [done|lia]. Qed.

Lemma oldest_some c tab i age : lenZ tab <= ARP_TABLE_SIZE -> oldest c tab i age -> i < ARP_TABLE_SIZE ->
  (forall k e, tab !! k = Some e -> c <= loss e) -> 0 < c ->
  0 <= i /\ exists e, tab !! Z.to_nat i = Some e /\ loss e = c /\ cheapest tab e.
Proof.
  intros Hl [(-> & _)|(? & e & He & <- & -> & H)] Hi Hc ?; [lia|]. split; [lia|]. exists e.
  split; [done|]. split; [done|]. intros k e' Hk. split; [by apply (Hc k)|]. intros Hle _. by apply (H k).
Qed.

Lemma choose_spec flags tab c :
  lenZ tab = ARP_TABLE_SIZE -> noted tab c ->
  match choose flags c with
  | None => find_only flags \/ (~ try_hard flags /\ forall k e, tab !! k = Some e -> e_state e <> ETHARP_STATE_EMPTY)
  | Some (i, recycle) => ~ find_only flags /\ 0 <= i < ARP_TABLE_SIZE /\
      exists e, tab !! Z.to_nat i = Some e /\ cheapest tab e /\
        recycle = negb (bool_decide (e_state e = ETHARP_STATE_EMPTY)) /\ (recycle = true -> try_hard flags)
  end.
Proof.
  intros Hlen [He Hs Hp Hq]. unfold choose, find_only, try_hard.
  destruct (negb (Z.land flags ETHARP_FLAG_FIND_ONLY =? 0)) eqn:Ef; b2p; simpl; [by left|].
  destruct He as [(Ee & He)|(Hi & e & Hie & Hle & He)].
  - assert (forall k e, tab !! k = Some e -> 1 <= loss e) as H1.
    { intros k e Hk. pose proof (He k e Hk). pose proof (loss_bound e). lia. }
    rewrite Ee, Z.eqb_refl. simpl. case_if.
    { right. split; [lia|]. intros k e Hk. rewrite <- loss_empty. by apply (He k). }
    assert (forall c i age, oldest c tab i age -> i < ARP_TABLE_SIZE -> (forall k e, tab !! k = Some e -> c <= loss e) -> 0 < c ->
      ~ (Z.land flags ETHARP_FLAG_FIND_ONLY <> 0) /\ 0 <= i < ARP_TABLE_SIZE /\
      exists e, tab !! Z.to_nat i = Some e /\ cheapest tab e /\
        true = negb (bool_decide (e_state e = ETHARP_STATE_EMPTY)) /\
        (true = true -> Z.land flags ETHARP_FLAG_TRY_HARD <> 0)) as Hwin.
    { intros cl i age Ho Hlt Hmin Hpos. destruct (oldest_some cl tab i age ltac:(lia) Ho Hlt Hmin Hpos) as (? & e & Hie & Hl & Hch).
      split; [lia|]. split; [lia|]. exists e. split; [done|]. split; [done|]. split; [|done].
      rewrite bool_decide_eq_false_2; [done|]. rewrite <- loss_empty. lia. }
    assert (forall cl i age, oldest cl tab i age -> (i <? ARP_TABLE_SIZE) = false -> forall k e, tab !! k = Some e -> loss e <> cl) as Hno.
    { intros cl i age Ho Hge. b2p. apply (oldest_none cl tab age ltac:(lia)).
      destruct Ho as [(-> & ?)|(? & ?)]; [by left|lia]. }
    destruct (c_old_stable c <? ARP_TABLE_SIZE) eqn:E1; [b2p; by eapply (Hwin 1)|].
    pose proof (Hno _ _ _ Hs E1) as H2.
    destruct (c_old_pending c <? ARP_TABLE_SIZE) eqn:E2.
    { b2p. eapply (Hwin 2); [done|done| |lia]. intros k e Hk. specialize (H1 k e Hk). specialize (H2 k e Hk). lia. }
    pose proof (Hno _ _ _ Hp E2) as H3.
    destruct (c_old_queue c <? ARP_TABLE_SIZE) eqn:E3.
    { b2p. eapply (Hwin 3); [done|done| |lia]. intros k e Hk.
      specialize (H1 k e Hk). specialize (H2 k e Hk). specialize (H3 k e Hk). lia. }
    pose proof (Hno _ _ _ Hq E3) as H4. exfalso.
    destruct tab as [|e tab]; [done|]. specialize (H1 0%nat e eq_refl). specialize (H2 0%nat e eq_refl).
    specialize (H3 0%nat e eq_refl). specialize (H4 0%nat e eq_refl). pose proof (loss_bound e). lia.
  - rewrite Hlen in Hi. rewrite (proj2 (Z.eqb_neq (c_empty c) ARP_TABLE_SIZE)) by lia. simpl.
    rewrite (proj2 (Z.ltb_lt _ _)) by lia. split; [lia|]. split; [lia|]. exists e. split; [done|]. split.
    + intros k e' Hk. pose proof (loss_bound e'). split; [lia|]. intros _ ?. lia.
    + rewrite bool_decide_eq_true_2 by by apply loss_empty. done.
Qed.
