(* ===== verification/EtharpFrame.v ===== *)
(** * The ARP cache: what its operations leave alone

    A part of the store that is neither the pbufs nor the cache, and that the
    driver and IP do not change, is not changed by any operation of etharp.c. *)
From S2P Require Import Prelude Triple Def Pbuf Netif Node Ip4Addr Ethernet Etharp.

Section Frame.
Context {E : PbufEnv} {X : Type} {LL : LinkLayer X} {IL : IpLayer X} {AP : part X arp}.
Context {V : Type} (v : node X -> V).
Hypothesis v_heap : forall A (m : M heap A), quiet v (onheap m).
Hypothesis v_arp : forall A (m : M arp A), quiet v (onarp m).
Hypothesis v_netif : forall i, quiet v (get_netif i).
Hypothesis v_link : forall i p, quiet v (linkoutput_call i p).
Hypothesis v_ip : forall p i, quiet v (ip4_input_call p i).
#[local] Hint Resolve v_heap v_arp v_netif v_link v_ip : quiet.

Lemma frame_get_entry i : quiet v (get_entry i). Proof. unfold get_entry; quiet_tac. Qed.
#[local] Hint Resolve frame_get_entry : quiet.
Lemma frame_upd_entry i f : quiet v (upd_entry i f). Proof. unfold upd_entry; quiet_tac. Qed.
Lemma frame_malloc : quiet v memp_malloc_arpq. Proof. unfold memp_malloc_arpq; quiet_tac. Qed.
Lemma frame_free : quiet v memp_free_arpq. Proof. apply v_arp. Qed.
#[local] Hint Resolve frame_upd_entry frame_malloc frame_free : quiet.
Lemma frame_free_q l : quiet v (free_etharp_q l).
Proof. induction l; cbn [free_etharp_q]; quiet_tac. Qed.
#[local] Hint Resolve frame_free_q : quiet.
Lemma frame_free_entry i : quiet v (etharp_free_entry i). Proof. unfold etharp_free_entry; quiet_tac. Qed.
#[local] Hint Resolve frame_free_entry : quiet.
Lemma frame_find_entry ip flags nif : quiet v (etharp_find_entry ip flags nif).
Proof. unfold etharp_find_entry; quiet_tac. Qed.
#[local] Hint Resolve frame_find_entry : quiet.
Lemma frame_ethernet_output i p src dst ty : quiet v (ethernet_output i p src dst ty).
Proof. unfold ethernet_output; quiet_tac. Qed.
#[local] Hint Resolve frame_ethernet_output : quiet.
Lemma frame_raw i a b c d e f g : quiet v (etharp_raw i a b c d e f g).
Proof. unfold etharp_raw; quiet_tac. Qed.
#[local] Hint Resolve frame_raw : quiet.
Lemma frame_request_dst i ip d : quiet v (etharp_request_dst i ip d).
Proof. unfold etharp_request_dst; quiet_tac. Qed.
#[local] Hint Resolve frame_request_dst : quiet.
Lemma frame_request i ip : quiet v (etharp_request i ip).
Proof. apply frame_request_dst. Qed.
#[local] Hint Resolve frame_request : quiet.
Lemma frame_for_entries k : forall i f, (forall i, quiet v (f i)) -> quiet v (for_entries k i f).
Proof. induction k; intros i f Hf; cbn [for_entries]; quiet_tac. Qed.
Lemma frame_tmr : quiet v etharp_tmr.
Proof. apply frame_for_entries. intros i. unfold etharp_tmr_entry; quiet_tac. Qed.
Lemma frame_cleanup nif : quiet v (etharp_cleanup_netif nif).
Proof. apply frame_for_entries. intros i. quiet_tac. Qed.
Lemma frame_send_queue fuel : forall i nif eth, quiet v (send_queue fuel i nif eth).
Proof. induction fuel; intros i nif eth; cbn [send_queue]; quiet_tac. Qed.
#[local] Hint Resolve frame_send_queue : quiet.
Lemma frame_update nif ip eth flags : quiet v (etharp_update_arp_entry nif ip eth flags).
Proof. unfold etharp_update_arp_entry; quiet_tac. Qed.
#[local] Hint Resolve frame_update : quiet.
Lemma frame_input p nif : quiet v (etharp_input p nif).
Proof. unfold etharp_input; quiet_tac. Qed.
#[local] Hint Resolve frame_input : quiet.
Lemma frame_ethernet_input p i : quiet v (ethernet_input etharp_input p i).
Proof. unfold ethernet_input; quiet_tac. Qed.
Lemma frame_queue_packet i p : quiet v (queue_packet i p).
Proof. unfold queue_packet; quiet_tac. Qed.
#[local] Hint Resolve frame_queue_packet : quiet.
Lemma frame_query nif ip p : quiet v (etharp_query nif ip p).
Proof. unfold etharp_query; quiet_tac. Qed.
#[local] Hint Resolve frame_query : quiet.
Lemma frame_output_to_arp_index nif p i : quiet v (etharp_output_to_arp_index nif p i).
Proof. unfold etharp_output_to_arp_index; quiet_tac. Qed.
#[local] Hint Resolve frame_output_to_arp_index : quiet.
Lemma frame_output nif p ip : quiet v (etharp_output nif p ip).
Proof. unfold etharp_output; quiet_tac. Qed.

End Frame.
