(* ===== verification/EtharpInv.v ===== *)
(** * The ARP cache: its invariant, kept by every operation *)
From S2P Require Import Prelude Triple Def Pbuf PbufFacts PbufWrite PbufAlloc PbufPool PbufChain Netif Node Ip4Addr.
From S2P Require Import Ethernet EthernetFacts Etharp EtharpFacts.

(** ** The invariant *)

Notation nonempty e := (e_state e <> ETHARP_STATE_EMPTY).
Notation same_key e e' := (ipaddr e = ipaddr e' /\ e_netif e = e_netif e').

Record entry_ok (e : etharp_entry) : Prop := {
  entry_ctime : 0 <= ctime e < ARP_MAXAGE;
  entry_addr : length (ethaddr e) = 6%nat;
  entry_netif : nonempty e -> is_Some (e_netif e);
  entry_queue : if bool_decide (e_state e = ETHARP_STATE_PENDING) then lenZ (q e) <= ARP_QUEUE_LEN else q e = [];
}.

Definition queued (tab : list etharp_entry) : Z := foldr (fun e n => lenZ (q e) + n) 0 tab.

(** [arp_ok_but n a]: the invariant, with entry [n] possibly in the middle of a
    change. *)
Record arp_ok_but (n : nat) (a : arp) : Prop := {
  but_length : length (arp_table a) = 10%nat;
  but_others k e : arp_table a !! k = Some e -> k <> n -> entry_ok e;
  but_unique k k' e e' : arp_table a !! k = Some e -> arp_table a !! k' = Some e' ->
    nonempty e -> nonempty e' -> same_key e e' -> k = k';
  but_free : 0 <= arp_queue_free a;
  but_count : arp_queue_free a + queued (arp_table a) = MEMP_NUM_ARP_QUEUE;
  but_cached : 0 <= etharp_cached_entry a < ARP_TABLE_SIZE;
}.

(** The table has its ten entries, at most one per address and interface; an
    entry knows its interface, is younger than ARP_MAXAGE and has packets
    queued (at most ARP_QUEUE_LEN) only while it is pending; every element of
    the MEMP_ARP_QUEUE pool is free or on one queue. *)
Record arp_ok (a : arp) : Prop := {
  ok_but : arp_ok_but 0 a;
  ok_entries k e : arp_table a !! k = Some e -> entry_ok e;
}.

Lemma arp_ok_but_of n a : arp_ok a -> arp_ok_but n a.
Proof. intros [[] He]. split; try done. intros k e Hk _. by eapply He. Qed.

Lemma arp_ok_close n a e :
  arp_ok_but n a -> arp_table a !! n = Some e -> entry_ok e -> arp_ok a.
Proof.
  intros [] Hn He. split; [split; try done|].
  - intros k e' Hk _. destruct (decide (k = n)) as [->|]; [by simplify_eq|by eauto].
  - intros k e' Hk. destruct (decide (k = n)) as [->|]; [by simplify_eq|by eauto].
Qed.

Lemma arp_init_ok : arp_ok arp_init.
Proof.
  assert (forall k e, arp_table arp_init !! k = Some e -> e = empty_entry) as Hall.
  { intros k e Hk. apply list_elem_of_lookup_2 in Hk. by apply elem_of_replicate in Hk as [-> _]. }
  assert (entry_ok empty_entry) as He by (split; by vm_compute).
  split; [split|]; try done.
  - intros k e Hk _. by rewrite (Hall k e Hk).
  - intros k k' e e' Hk _ Hne. by rewrite (Hall k e Hk) in Hne.
  - intros k e Hk. by rewrite (Hall k e Hk).
Qed.

(** Replacing one entry. *)
Lemma queued_insert tab n e e' :
  tab !! n = Some e -> queued (<[n := e']> tab) = queued tab - lenZ (q e) + lenZ (q e').
Proof.
  revert n. induction tab as [|x tab IH]; intros [|n] Hn; simpl in *; [done|done|simplify_eq; lia|].
  rewrite (IH n Hn). lia.
Qed.
Lemma queued_nonneg tab : 0 <= queued tab.
Proof. induction tab; simpl; lia. Qed.
Lemma queued_ge tab n e : tab !! n = Some e -> lenZ (q e) <= queued tab.
Proof.
  revert n. induction tab as [|x tab IH]; intros [|n] Hn; simpl in *; [done|done| |].
  - simplify_eq. pose proof (queued_nonneg tab). lia.
  - specialize (IH n Hn). lia.
Qed.

(** Nobody but entry [n] holds the address on that interface. *)
Definition alone (a : arp) (n : nat) (ip : Z) (nif : option positive) : Prop :=
  forall k e, arp_table a !! k = Some e -> k <> n -> nonempty e -> ~ (ipaddr e = ip /\ e_netif e = nif).

Definition put_entry (n : nat) (e : etharp_entry) (free : Z) (a : arp) : arp :=
  Arp (<[n := e]> (arp_table a)) (etharp_cached_entry a) free.

Lemma put_entry_but n a e e' free :
  arp_ok_but n a -> arp_table a !! n = Some e ->
  (nonempty e' -> alone a n (ipaddr e') (e_netif e')) ->
  0 <= free -> free + lenZ (q e') = arp_queue_free a + lenZ (q e) ->
  arp_ok_but n (put_entry n e' free a).
Proof.
  intros [Hl Ho Hu Hf Hc Hca] Hn Hal Hfree Hcnt. split; simpl; try done.
  - by rewrite length_insert.
  - intros k x Hk Hkn.
    rewrite list_lookup_insert_ne in Hk by done. by eapply Ho.
  - assert (n < length (arp_table a))%nat as Hlt by (apply lookup_lt_is_Some_1; by exists e).
    intros k k' x x' Hk Hk' Hx Hx' [Hip Hnif]. destruct (decide (k = n)) as [->|Hkn], (decide (k' = n)) as [->|Hkn'].
    + done.
    + rewrite list_lookup_insert_eq in Hk by done. rewrite list_lookup_insert_ne in Hk' by done.
      injection Hk as <-. by destruct (Hal Hx k' x' Hk' Hkn' Hx').
    + rewrite list_lookup_insert_eq in Hk' by done. rewrite list_lookup_insert_ne in Hk by done.
      injection Hk' as <-. by destruct (Hal Hx' k x Hk Hkn Hx).
    + rewrite !list_lookup_insert_ne in Hk, Hk' by done. by eapply Hu.
  - rewrite (queued_insert _ _ e) by done. lia.
Qed.

Lemma alone_put a n e free ip nif : alone a n ip nif -> alone (put_entry n e free a) n ip nif.
Proof.
  intros H k x Hk Hkn. simpl in Hk. rewrite list_lookup_insert_ne in Hk by done. by apply (H k).
Qed.

Lemma alone_own a n e : arp_ok_but n a -> arp_table a !! n = Some e -> nonempty e -> alone a n (ipaddr e) (e_netif e).
Proof. intros Ho Hn Hne k x Hk Hkn Hx Hkey. apply Hkn. by eapply (but_unique _ _ Ho k n x e). Qed.

(** ** Runs seen through the ARP cache *)
Section Triples.
Context {E : PbufEnv} {X : Type} {LL : LinkLayer X} {AP : part X arp}.

Definition arp_of (s : node X) : arp := get_part (n_ext s).

Notation triple := (Triple.triple arp_of).
Notation quiet := (Triple.quiet arp_of).

(** The driver below does not touch the cache either. *)
Class QuietLink := link_quiet i p : quiet (linkoutput_call i p).

Lemma quiet_heap {A} (m : M heap A) : quiet (onheap m).
Proof.
  intros s r s'. unfold zoom. destruct (m _) as [[a h]|]; [|done]. intros [= <- <-]. done.
Qed.
Lemma quiet_netif i : quiet (get_netif i).
Proof.
  intros s r s'. unfold get_netif, zoom, mbind, M_bind, get, lift. simpl.
  destruct (_ !! i); [|done]. intros [= <- <-]. by destruct s.
Qed.

(** Reading and changing the cache. *)
Lemma onarp_run {A} (m : M arp A) s r s' :
  onarp m s = Some (r, s') -> exists a, m (arp_of s) = Some (r, a) /\ arp_of s' = a.
Proof.
  unfold onarp, ext, zoom. change (get_part (n_ext s)) with (arp_of s).
  destruct (m (arp_of s)) as [[r1 a]|]; [|done]. intros [= <- <-]. exists a. split; [done|].
  apply get_set_part.
Qed.

Lemma triple_onarp {A} P Q (m : M arp A) :
  (forall a r a', P a -> m a = Some (r, a') -> Q r a') -> triple P (onarp m) Q.
Proof. intros H s r s' HP (a & Hm & <-)%onarp_run. by eapply H. Qed.

Lemma triple_get {B} a0 (f : arp -> M (node X) B) Q :
  triple (eq a0) (f a0) Q -> triple (eq a0) (onarp get ≫= f) Q.
Proof.
  intros Hf. eapply triple_bind with (R := fun r a => r = a0 /\ a = a0).
  - apply triple_onarp. intros a r a' <- [= <- <-]. done.
  - intros r s x s' [-> HP] Hr. by eapply Hf.
Qed.

Lemma triple_get_entry {B} a0 i (f : etharp_entry -> M (node X) B) Q :
  (forall e, 0 <= i -> arp_table a0 !! Z.to_nat i = Some e -> triple (eq a0) (f e) Q) ->
  triple (eq a0) (get_entry i ≫= f) Q.
Proof.
  intros Hf. unfold get_entry. intros s r s' Hs Hr. rewrite bind_assoc in Hr. revert s r s' Hs Hr.
  change (triple (eq a0) (onarp get ≫= (fun a => (if 0 <=? i then lift (arp_table a !! Z.to_nat i) else stuck) ≫= f)) Q).
  apply triple_get. intros s r s' Hs Hr. destruct (0 <=? i) eqn:Hi; b2p; [|done].
  destruct (arp_table a0 !! Z.to_nat i) as [e|] eqn:He; [|done]. by eapply (Hf e).
Qed.

Lemma triple_upd_entry a0 i f (Q : unit -> arp -> Prop) :
  (forall e, 0 <= i -> arp_table a0 !! Z.to_nat i = Some e ->
     Q tt (put_entry (Z.to_nat i) (f e) (arp_queue_free a0) a0)) ->
  triple (eq a0) (upd_entry i f) Q.
Proof.
  intros HQ. unfold upd_entry. apply triple_get_entry. intros e Hi He.
  apply triple_onarp. intros a r a' <- [= <- <-]. by apply HQ.
Qed.

Lemma triple_upd_entry_bind {B} a0 i f (k : unit -> M (node X) B) Q :
  (forall e, 0 <= i -> arp_table a0 !! Z.to_nat i = Some e ->
     triple (eq (put_entry (Z.to_nat i) (f e) (arp_queue_free a0) a0)) (k tt) Q) ->
  triple (eq a0) (upd_entry i f ≫= k) Q.
Proof.
  intros Hk. eapply triple_bind; [apply (triple_upd_entry a0 i f (fun _ a => exists e, 0 <= i /\
    arp_table a0 !! Z.to_nat i = Some e /\ a = put_entry (Z.to_nat i) (f e) (arp_queue_free a0) a0)); eauto|].
  intros [] s r s' (e & Hi & He & Ha) Hr. by eapply (Hk e).
Qed.

Lemma put_put n e e' f f' a : put_entry n e' f' (put_entry n e f a) = put_entry n e' f' a.
Proof. unfold put_entry. simpl. by rewrite list_insert_insert_eq. Qed.
Lemma put_lookup n e f a : (n < length (arp_table a))%nat -> arp_table (put_entry n e f a) !! n = Some e.
Proof. intros. by apply list_lookup_insert_eq. Qed.

End Triples.

#[export] Hint Resolve quiet_heap quiet_netif link_quiet : quiet.
Notation triple := (Triple.triple arp_of).
Notation quiet := (Triple.quiet arp_of).

Section Ops.
Context {E : PbufEnv} {X : Type} {LL : LinkLayer X} {AP : part X arp} {QL : QuietLink}.

(** ** What leaves the cache alone *)

Lemma quiet_ethernet_output i p src dst ty : quiet (ethernet_output i p src dst ty).
Proof. unfold ethernet_output. quiet_tac. Qed.
#[local] Hint Resolve quiet_ethernet_output : quiet.

Lemma quiet_raw i a b c d e f g : quiet (etharp_raw i a b c d e f g).
Proof. unfold etharp_raw. quiet_tac. Qed.
#[local] Hint Resolve quiet_raw : quiet.
Lemma quiet_request_dst i ip d : quiet (etharp_request_dst i ip d).
Proof. unfold etharp_request_dst. quiet_tac. Qed.
#[local] Hint Resolve quiet_request_dst : quiet.
Lemma quiet_request i ip : quiet (etharp_request i ip).
Proof. apply quiet_request_dst. Qed.
#[local] Hint Resolve quiet_request : quiet.

(** ** Freeing *)

Lemma triple_free_q l : forall a0,
  triple (eq a0) (free_etharp_q l) (fun _ a => a = set_queue_free (arp_queue_free a0 + lenZ l) a0).
Proof.
  induction l as [|p l IH]; intros a0; cbn [free_etharp_q].
  - intros s r s' -> [= <- <-]. simpl. rewrite Z.add_0_r. by destruct (arp_of s).
  - apply triple_quiet_bind; [apply quiet_heap|]. intros _.
    eapply triple_bind with (R := fun _ a => a = set_queue_free (arp_queue_free a0 + 1) a0).
    + apply triple_onarp. intros a r a' <- [= <- <-]. done.
    + intros [] s r s' Hs Hr. rewrite (IH _ s r s' (eq_sym Hs) Hr). unfold set_queue_free. simpl. f_equal. lia.
Qed.

Lemma put_set_queue n e f f' a : put_entry n e f (set_queue_free f' a) = put_entry n e f a.
Proof. done. Qed.

Lemma triple_free_entry a0 i :
  triple (eq a0) (etharp_free_entry i) (fun _ a => exists e, 0 <= i /\ arp_table a0 !! Z.to_nat i = Some e /\
    a = put_entry (Z.to_nat i) empty_entry (arp_queue_free a0 + lenZ (q e)) a0).
Proof.
  unfold etharp_free_entry. apply triple_get_entry. intros e Hi He.
  eapply triple_bind; [apply triple_free_q|]. intros [].
  apply triple_pure. intros a1 ->. apply triple_upd_entry. intros e1 _ He1. by exists e.
Qed.

Lemma free_entry_but n a e :
  arp_ok_but n a -> arp_table a !! n = Some e ->
  arp_ok (put_entry n empty_entry (arp_queue_free a + lenZ (q e)) a).
Proof.
  intros Ho He. assert (n < length (arp_table a))%nat as Hlt by (apply lookup_lt_is_Some_1; by exists e).
  eapply (arp_ok_close n); [|by apply put_lookup|split; by vm_compute].
  eapply put_entry_but; [done|done|done| |simpl; lia]. pose proof (but_free _ _ Ho). lia.
Qed.

(** ** etharp_find_entry *)

(** What a caller of etharp_find_entry can rely on: entry [n] is there for the
    address on the interface, found or new, and no other is. *)
Record found (n : nat) (ip : Z) (nif : positive) (a : arp) : Prop := {
  found_ok : arp_ok a;
  found_entry : exists e, arp_table a !! n = Some e /\ ipaddr e = ip /\ e_netif e = Some nif;
  found_alone : alone a n ip (Some nif);
}.

Lemma resolves_key ip nif e : resolves (Some ip) (Some nif) e <-> nonempty e /\ ipaddr e = ip /\ e_netif e = Some nif.
Proof.
  unfold resolves, entry_matches. rewrite (bool_decide_eq_false_2 (Some nif = None)) by done. simpl.
  rewrite andb_true_iff, bool_decide_eq_true, Z.eqb_eq. naive_solver.
Qed.

Lemma lookup_range (tab : list etharp_entry) (i : Z) :
  length tab = 10%nat -> 0 <= i < ARP_TABLE_SIZE -> is_Some (tab !! Z.to_nat i).
Proof. intros Hl Hi. apply lookup_lt_is_Some_2. unfold ARP_TABLE_SIZE in Hi. lia. Qed.

Lemma ok_ctimes a : arp_ok a -> Forall (fun e => 0 <= ctime e) (arp_table a).
Proof. intros Ho. apply Forall_lookup. intros k e Hk. pose proof (entry_ctime _ (ok_entries _ Ho k e Hk)). lia. Qed.

Lemma ok_length a : arp_ok a -> length (arp_table a) = 10%nat.
Proof. intros Ho. apply (but_length _ _ (ok_but _ Ho)). Qed.

(** The search over the whole table. *)
Lemma search_table a ip nif :
  arp_ok a ->
  match search (arp_table a) 0 ip nif no_candidates with
  | inl i => 0 <= i < ARP_TABLE_SIZE /\ exists e, arp_table a !! Z.to_nat i = Some e /\ resolves ip nif e
  | inr c => noted (arp_table a) c /\ Forall (fun e => ~ resolves ip nif e) (arp_table a)
  end.
Proof.
  intros Ho. pose proof (ok_length _ Ho) as Hl.
  pose proof (search_from ip nif (arp_table a) [] no_candidates noted_nil
    ltac:(simpl; unfold ARP_TABLE_SIZE; lia) (ok_ctimes _ Ho)) as Hs. simpl in Hs.
  destruct (search _ _ _ _ _) as [i|c]; [|done]. destruct Hs as (k & e & -> & Hk & Hr & _).
  pose proof (lookup_lt_Some _ _ _ Hk). split; [unfold ARP_TABLE_SIZE; lia|]. exists e.
  by replace (Z.to_nat _) with k by lia.
Qed.

Lemma triple_find_entry ip flags nif :
  triple arp_ok (etharp_find_entry (Some ip) flags (Some nif))
    (fun r a => match r with
                | Some i => 0 <= i < ARP_TABLE_SIZE /\ found (Z.to_nat i) ip nif a
                | None => arp_ok a
                end).
Proof.
  apply triple_pure. intros a0 Ho. unfold etharp_find_entry. apply triple_get.
  pose proof (search_table a0 (Some ip) (Some nif) Ho) as Hs. pose proof (ok_length _ Ho) as Hl.
  destruct (search _ _ _ _ _) as [i|c].
  - destruct Hs as (Hi & e & He & Hr%resolves_key). destruct Hr as (Hne & Hip & Hnif).
    apply triple_ret_eq. split; [done|]. split; [done| |].
    + by exists e.
    + rewrite <- Hip, <- Hnif. apply alone_own; [by apply arp_ok_but_of|done|done].
  - destruct Hs as [Hn Hno]. pose proof (choose_spec flags (arp_table a0) c ltac:(unfold ARP_TABLE_SIZE; lia) Hn) as Hc.
    destruct (choose flags c) as [[i recycle]|].
    2:{ by apply triple_ret_eq. }
    destruct Hc as (_ & Hi & e & He & _ & Hrec & _). set (n := Z.to_nat i) in *.
    assert (n < length (arp_table a0))%nat as Hlt by (apply lookup_lt_is_Some_1; by exists e).
    assert (alone a0 n ip (Some nif)) as Hal.
    { intros k x Hk Hkn Hx Hkey. rewrite Forall_lookup in Hno. apply (Hno k x Hk). by apply resolves_key. }
    eapply triple_bind with (R := fun _ a => exists e1 free, a = put_entry n e1 free a0 /\
      arp_ok a /\ e_state e1 = ETHARP_STATE_EMPTY /\ entry_ok e1).
    + destruct recycle.
      * eapply triple_conseq; [apply triple_free_entry|intros a <-; reflexivity|].
        intros [] a (e1 & _ & He1 & ->). fold n in He1. rewrite He in He1. injection He1 as <-. fold n.
        eexists empty_entry, _. split; [done|]. split; [apply free_entry_but; [by apply arp_ok_but_of|done]|].
        split; [done|]. split; by vm_compute.
      * apply triple_ret_eq.
        exists e, (arp_queue_free a0). split.
        { unfold put_entry. rewrite list_insert_id by done. by destruct a0. }
        split; [done|]. split; [|by apply (ok_entries _ Ho n)].
        symmetry in Hrec. by apply negb_false_iff, bool_decide_eq_true in Hrec.
    + intros []. apply triple_pure. intros a1 (e1 & free & -> & Ho1 & Hst & Hok1). simpl.
      apply triple_upd_entry_bind. fold n. intros e2 _ He2. rewrite put_lookup in He2 by done. injection He2 as <-. rewrite put_put.
      apply triple_upd_entry_bind. fold n. intros e2 _ He2. rewrite put_lookup in He2 by done. injection He2 as <-. rewrite put_put.
      apply triple_upd_entry_bind. fold n. intros e2 _ He2. rewrite put_lookup in He2 by done. injection He2 as <-. rewrite put_put.
      simpl. apply triple_ret_eq.
      assert (arp_ok (put_entry n (set_e_netif (Some nif) (set_ctime 0 (set_ipaddr ip e1))) free a0)) as Ho2.
      { pose proof (arp_ok_but_of n _ Ho1) as Hb1.
        pose proof (put_entry_but n _ e1 (set_e_netif (Some nif) (set_ctime 0 (set_ipaddr ip e1))) free Hb1
          (put_lookup n e1 free a0 Hlt) ltac:(done) (but_free _ _ Hb1) ltac:(done)) as Hb2.
        rewrite put_put in Hb2. eapply arp_ok_close; [exact Hb2|by apply put_lookup|].
        destruct Hok1 as [Hc1 Ha1 Hn1 Hq1]. split; simpl; try done. }
      split; [done|]. split; [done| |by apply alone_put].
      eexists. split; [by apply put_lookup|]. done.
Qed.

Lemma triple_find_only a0 ip nif :
  arp_ok a0 ->
  triple (eq a0) (etharp_find_entry ip ETHARP_FLAG_FIND_ONLY nif)
    (fun r a => a = a0 /\ match r with Some i => 0 <= i < ARP_TABLE_SIZE | None => True end).
Proof.
  intros Ho. unfold etharp_find_entry. apply triple_get. pose proof (search_table a0 ip nif Ho) as Hs.
  destruct (search _ _ _ _ _) as [i|c].
  - apply triple_ret_eq. split; [done|]. apply Hs.
  - by apply triple_ret_eq.
Qed.

(** ** etharp_update_arp_entry *)

(** An entry whose queue can be anything, on its way to stable. *)
Lemma triple_send_queue fuel i nif eth : forall a0 e n,
  n = Z.to_nat i -> 0 <= i -> arp_table a0 !! n = Some e -> arp_ok_but n a0 -> (nonempty e -> alone a0 n (ipaddr e) (e_netif e)) ->
  triple (eq a0) (send_queue fuel i nif eth) (fun _ a => exists free, a = put_entry n (set_q [] e) free a0 /\ arp_ok_but n a).
Proof.
  induction fuel as [|fuel IH]; intros a0 e n -> Hi He Hb Hal; cbn [send_queue];
    apply triple_get_entry; intros e' _ He'; rewrite He in He'; injection He' as <-;
    (assert (Z.to_nat i < length (arp_table a0))%nat as Hlt by (apply lookup_lt_is_Some_1; by exists e)).
  - destruct (q e) eqn:Hq; [|by intros s r s' _]. apply triple_ret_eq. exists (arp_queue_free a0).
    replace (set_q [] e) with e by (unfold set_q; rewrite <- Hq; by destruct e).
    unfold put_entry. rewrite list_insert_id by done. by destruct a0.
  - destruct (q e) as [|p qs] eqn:Hq.
    + apply triple_ret_eq. exists (arp_queue_free a0).
      replace (set_q [] e) with e by (unfold set_q; rewrite <- Hq; by destruct e).
      unfold put_entry. rewrite list_insert_id by done. by destruct a0.
    + apply triple_upd_entry_bind. intros e' _ He'. rewrite He in He'. injection He' as <-.
      set (a1 := put_entry _ (set_q qs e) _ a0).
      eapply triple_bind with (R := fun _ a => a = set_queue_free (arp_queue_free a1 + 1) a1).
      { apply triple_onarp. intros a r a' <- [= <- <-]. done. }
      intros []. apply triple_quiet_bind; [apply quiet_netif|]. intros n.
      apply triple_quiet_bind; [eauto with quiet|]. intros _. apply triple_quiet_bind; [eauto with quiet|]. intros _.
      set (a2 := set_queue_free _ _).
      assert (a2 = put_entry (Z.to_nat i) (set_q qs e) (arp_queue_free a0 + 1) a0) as Ea2 by done.
      assert (arp_ok_but (Z.to_nat i) a2) as Hb2.
      { rewrite Ea2. eapply put_entry_but; [done|done|done| |]; [pose proof (but_free _ _ Hb); lia|].
        rewrite Hq. simpl. lia. }
      eapply triple_conseq; [apply (IH a2 (set_q qs e) _ eq_refl Hi)|intros a ->; reflexivity|].
      * rewrite Ea2. by apply put_lookup.
      * done.
      * intros Hne. rewrite Ea2. apply alone_put. by apply Hal.
      * intros [] a (free & -> & Hbf). exists free. rewrite Ea2, put_put in Hbf |- *. done.
Qed.

(** What an entry looks like once an address was learned. *)
Definition learned (ip : Z) (nif : positive) (eth : list Z) (e : etharp_entry) : Prop :=
  e_state e = ETHARP_STATE_STABLE /\ ipaddr e = ip /\ e_netif e = Some nif /\ ethaddr e = eth /\ ctime e = 0 /\ q e = [].

Lemma triple_update_found a0 i nif ip eth :
  length eth = 6%nat -> 0 <= i -> found (Z.to_nat i) ip nif a0 ->
  triple (eq a0)
    (upd_entry i (set_state ETHARP_STATE_STABLE);; upd_entry i (set_e_netif (Some nif));; upd_entry i (set_ethaddr eth);;
     upd_entry i (set_ctime 0);; e ← get_entry i; send_queue (length (q e)) i nif eth;; mret ERR_OK)
    (fun r a => r = ERR_OK /\ arp_ok a /\ exists e, arp_table a = <[Z.to_nat i := e]> (arp_table a0) /\ learned ip nif eth e).
Proof.
  intros Heth Hi [Ho (e & He & Hip & Hnif) Hal]. set (n := Z.to_nat i) in *.
  assert (n < length (arp_table a0))%nat as Hlt by (apply lookup_lt_is_Some_1; by exists e).
  do 4 (apply triple_upd_entry_bind; fold n; intros ? _ Hx; rewrite ?put_put in *;
    first [rewrite He in Hx|rewrite put_lookup in Hx by done]; injection Hx as <-).
  set (e1 := set_ctime 0 _). apply triple_get_entry. fold n. intros x _ Hx.
  rewrite put_lookup in Hx by done. injection Hx as <-.
  assert (arp_ok_but n (put_entry n e1 (arp_queue_free a0) a0)) as Hb.
  { pose proof (arp_ok_but_of n _ Ho) as Hb. eapply put_entry_but; [done|done| |by eapply but_free|done].
    intros _. simpl. by rewrite Hip. }
  eapply triple_bind.
  { eapply (triple_send_queue _ i nif eth _ e1 n); [done|lia|by apply put_lookup|done|].
    intros _. apply alone_put. simpl. by rewrite Hip. }
  intros []. apply triple_pure. intros a1 (free & -> & Hb1). rewrite put_put in *.
  apply triple_ret_eq. split; [done|]. split.
  - eapply arp_ok_close; [exact Hb1|by apply put_lookup|]. by split.
  - by exists (set_q [] e1).
Qed.

Lemma triple_update_arp_entry nif ip eth flags :
  length eth = 6%nat ->
  triple arp_ok (etharp_update_arp_entry nif ip eth flags) (fun _ => arp_ok).
Proof.
  intros Heth. unfold etharp_update_arp_entry. apply triple_quiet_bind; [apply quiet_netif|]. intros n0.
  case_if; [apply triple_pure; intros a0 Ho; by apply triple_ret_eq|].
  eapply triple_bind; [apply triple_find_entry|]. intros [i|]; [|apply triple_pure; intros a0 Ho; by apply triple_ret_eq].
  apply triple_pure. intros a0 [Hi Hf].
  eapply triple_conseq; [apply (triple_update_found a0 i nif ip eth Heth); [lia|done]|done|by intros r a (_ & ? & _)].
Qed.

(** ** etharp_query *)

Lemma triple_queue_packet i p :
  triple (fun a => arp_ok a /\ exists e, arp_table a !! Z.to_nat i = Some e /\ e_state e = ETHARP_STATE_PENDING)
    (queue_packet i p) (fun _ => arp_ok).
Proof.
  apply triple_pure. intros a0 [Ho (e & He & Hst)]. set (n := Z.to_nat i) in *.
  assert (n < length (arp_table a0))%nat as Hlt by (apply lookup_lt_is_Some_1; by exists e).
  pose proof (ok_entries _ Ho n e He) as Hok. pose proof (arp_ok_but_of n _ Ho) as Hb.
  unfold queue_packet.
  eapply triple_bind with (R := fun (r : bool) a =>
    if r then a = set_queue_free (arp_queue_free a0 - 1) a0 /\ arp_queue_free a0 <> 0 else a = a0).
  { unfold memp_malloc_arpq. apply triple_get. case_if; [by apply triple_ret_eq|].
    eapply triple_bind with (R := fun _ a => a = set_queue_free (arp_queue_free a0 - 1) a0).
    - apply triple_onarp. intros a r a' <- [= <- <-]. done.
    - intros []. eapply triple_pure. intros a ->. by apply triple_ret_eq. }
  intros [|]; apply triple_pure; simpl.
  2:{ intros a ->. apply triple_quiet_bind; [apply quiet_heap|]. intros _. by apply triple_ret_eq. }
  intros a [-> Hf0]. apply triple_get_entry. fold n. intros x Hi Hx. simpl in Hx. rewrite He in Hx. injection Hx as <-.
  apply triple_upd_entry_bind. fold n. intros x _ Hx. simpl in Hx. rewrite He in Hx. injection Hx as <-.
  simpl. rewrite put_set_queue.
  pose proof (entry_queue _ Hok) as Hq. rewrite bool_decide_eq_true_2 in Hq by done.
  pose proof (but_free _ _ Hb) as Hf.
  set (e1 := set_q (q e ++ [p]) e).
  assert (arp_ok_but n (put_entry n e1 (arp_queue_free a0 - 1) a0)) as Hb1.
  { eapply put_entry_but; [done|done| |lia|].
    - intros _. apply (alone_own a0 n e); [done|done|by rewrite Hst].
    - unfold e1. simpl. rewrite length_app. simpl. lia. }
  destruct (ARP_QUEUE_LEN <=? lenZ (q e)) eqn:Hfull; b2p.
  - eapply triple_bind with (R := fun _ => arp_ok); [|intros []; apply triple_pure; intros a Ha; by apply triple_ret_eq].
    apply triple_get_entry. fold n. intros x _ Hx. rewrite put_lookup in Hx by done. injection Hx as <-.
    unfold e1 at 1. simpl. destruct (q e) as [|old qs] eqn:Eq; [unfold ARP_QUEUE_LEN in Hfull; simpl in Hfull; lia|]. simpl.
    apply triple_upd_entry_bind. fold n. intros x _ Hx. rewrite put_lookup in Hx by done. injection Hx as <-.
    rewrite put_put. apply triple_quiet_bind; [apply quiet_heap|]. intros _.
    apply triple_onarp. intros a r a' <- [= <- <-]. simpl.
    set (e2 := set_q (qs ++ [p]) e1).
    change (arp_ok (put_entry n e2 (arp_queue_free a0 - 1 + 1) a0)).
    eapply arp_ok_close; [|by apply put_lookup|].
    + eapply put_entry_but; [done|done| |lia|].
      * intros _. apply (alone_own a0 n e); [done|done|by rewrite Hst].
      * unfold e2. simpl. rewrite length_app, Eq. simpl. lia.
    + destruct Hok as [Hc Ha Hn _]. split; simpl; try done. rewrite bool_decide_eq_true_2 by done.
      rewrite length_app. simpl in *. lia.
  - apply triple_quiet_bind; [apply quiet_ret|]. intros _. apply triple_ret_eq.
    eapply arp_ok_close; [exact Hb1|by apply put_lookup|].
    destruct Hok as [Hc Ha Hn _]. split; simpl; try done. rewrite bool_decide_eq_true_2 by done.
    rewrite length_app. simpl. unfold ARP_QUEUE_LEN in *. lia.
Qed.

Lemma set_cached_ok i a : 0 <= i < ARP_TABLE_SIZE -> arp_ok a -> arp_ok (set_cached i a).
Proof. intros Hi [[] He]. split; [by split|done]. Qed.

Lemma quiet_needs_copy p : quiet (h ← onheap get; onheap (needs_copy (chain_fuel h) p)).
Proof. quiet_tac. Qed.

Lemma triple_query nif ip p : triple arp_ok (etharp_query nif ip p) (fun _ => arp_ok).
Proof.
  unfold etharp_query. apply triple_quiet_bind; [apply quiet_netif|]. intros n0.
  case_if; [apply triple_pure; intros a0 Ho; by apply triple_ret_eq|].
  eapply triple_bind; [apply triple_find_entry|]. intros [i|]; [|apply triple_pure; intros a0 Ho; by apply triple_ret_eq].
  apply triple_pure. intros a0 [Hi [Ho (e & He & Hip & Hnif) Hal]].
  set (n := Z.to_nat i) in *.
  assert (n < length (arp_table a0))%nat as Hlt by (apply lookup_lt_is_Some_1; by exists e).
  pose proof (ok_entries _ Ho n e He) as Hok.
  apply triple_get_entry. fold n. intros x _ Hx. rewrite He in Hx. injection Hx as <-.
  eapply triple_bind with (R := fun _ a => arp_ok a).
  { case_if.
    - apply triple_upd_entry_bind. fold n. intros x _ Hx. rewrite He in Hx. injection Hx as <-.
      apply triple_upd_entry. fold n. intros x _ Hx. rewrite put_lookup in Hx by done. injection Hx as <-. rewrite put_put.
      apply bool_decide_eq_true in E0. destruct Hok as [Hc Ha Hn Hq]. rewrite E0 in Hq. simpl in Hq.
      eapply arp_ok_close; [|by apply put_lookup|].
      + eapply put_entry_but; [by apply arp_ok_but_of|done| |exact (but_free _ _ (arp_ok_but_of n _ Ho))|done].
        intros _. simpl. by rewrite Hip.
      + split; simpl; try done. rewrite Hq. done.
    - by apply triple_ret_eq. }
  intros []. apply triple_quiet_bind; [destruct (_ || _); eauto with quiet|]. intros r.
  destruct p as [p|]; [|apply triple_pure; intros a Ha; by apply triple_ret_eq].
  apply triple_pure. intros a1 Ho1. apply triple_get_entry. intros e1 _ He1.
  case_if.
  - eapply triple_bind with (R := fun _ => arp_ok).
    + apply triple_onarp. intros a r' a' <- [= <- <-]. by apply set_cached_ok.
    + intros []. apply triple_quiet_bind; [apply quiet_netif|]. intros. apply triple_quiet. apply quiet_ethernet_output.
  - case_if; [|by apply triple_ret_eq].
    apply triple_quiet_bind; [apply quiet_heap|]. intros h. apply triple_quiet_bind; [apply quiet_heap|]. intros copy.
    apply triple_quiet_bind; [destruct copy; quiet_tac|]. intros [p'|]; [|by apply triple_ret_eq].
    eapply triple_conseq; [apply triple_queue_packet| |done]. intros a <-. split; [done|].
    exists e1. split; [done|]. by match goal with H : bool_decide _ = true |- _ => apply bool_decide_eq_true in H end.
Qed.

(** ** Sending through the cache *)

Lemma ok_restate a n e st :
  arp_ok a -> arp_table a !! n = Some e -> stable (e_state e) = true -> stable st = true ->
  arp_ok (put_entry n (set_state st e) (arp_queue_free a) a).
Proof.
  intros Ho He Hs Hst. assert (n < length (arp_table a))%nat as Hlt by (apply lookup_lt_is_Some_1; by exists e).
  pose proof (arp_ok_but_of n _ Ho) as Hb.
  assert (nonempty e) as Hne by (by destruct (e_state e)).
  destruct (ok_entries _ Ho n e He) as [Hc Ha Hn Hq].
  eapply arp_ok_close; [|by apply put_lookup|].
  - eapply put_entry_but; [done|done| |by eapply but_free|done]. intros _. by apply (alone_own a n e).
  - split; simpl; try done; [by intros; apply Hn|]. rewrite bool_decide_eq_false_2 by (by destruct st).
    rewrite bool_decide_eq_false_2 in Hq by (by destruct (e_state e)). done.
Qed.

Lemma triple_output_to_arp_index nif p i : triple arp_ok (etharp_output_to_arp_index nif p i) (fun _ => arp_ok).
Proof.
  apply triple_pure. intros a0 Ho. unfold etharp_output_to_arp_index. apply triple_get_entry. intros e Hi He.
  assert (triple (eq a0) (upd_entry i (set_state ETHARP_STATE_STABLE_REREQUESTING_1)) (fun _ => arp_ok) \/ e_state e <> ETHARP_STATE_STABLE) as Hu.
  { destruct (decide (e_state e = ETHARP_STATE_STABLE)) as [Hs|Hs]; [left|by right].
    apply triple_upd_entry. intros x _ Hx. rewrite He in Hx. injection Hx as <-. apply ok_restate; [done|done|by rewrite Hs|done]. }
  eapply triple_bind with (R := fun _ => arp_ok).
  { case_bool_decide as Hs; [|by apply triple_ret_eq]. destruct Hu as [Hu|?]; [|done].
    case_if; [|case_if; [|by apply triple_ret_eq]]; (apply triple_quiet_bind; [eauto with quiet|]; intros r;
      case_bool_decide; [done|by apply triple_ret_eq]). }
  intros []. apply triple_pure. intros a1 Ho1. apply triple_quiet_bind; [apply quiet_netif|]. intros n.
  apply triple_get_entry. intros. apply triple_quiet_eq; [apply quiet_ethernet_output|done].
Qed.

Lemma find_stable_range tab nif dst : forall i j,
  find_stable tab i nif dst = Some j ->
  exists k e, j = i + Z.of_nat k /\ tab !! k = Some e /\ stable (e_state e) = true /\ e_netif e = Some nif /\ dst = ipaddr e.
Proof.
  induction tab as [|e tab IH]; intros i j; cbn [find_stable]; [done|]. case_if.
  - intros [= <-]. exists 0%nat, e. split; [lia|]. split; [done|]. split; [done|]. split; [|done].
    by match goal with H : bool_decide _ = true |- _ => apply bool_decide_eq_true in H end.
  - intros H. apply IH in H as (k & e' & -> & Hk & H). exists (S k), e'. split; [lia|]. done.
Qed.

Lemma triple_output nif p ip : triple arp_ok (etharp_output nif p ip) (fun _ => arp_ok).
Proof.
  unfold etharp_output. apply triple_quiet_bind; [apply quiet_netif|]. intros n. cbv zeta.
  case_if; [apply triple_quiet, quiet_ethernet_output|]. case_if; [apply triple_quiet, quiet_ethernet_output|].
  case_if; [apply triple_pure; intros; by apply triple_ret_eq|].
  apply triple_pure. intros a0 Ho. apply triple_get. apply triple_get_entry. intros c Hc Hce.
  case_if.
  { eapply triple_conseq; [apply triple_output_to_arp_index|by intros a <-|done]. }
  destruct (find_stable _ _ _ _) as [i|] eqn:Hf.
  - apply find_stable_range in Hf as (k & e & -> & Hk & _). pose proof (lookup_lt_Some _ _ _ Hk). pose proof (ok_length _ Ho).
    eapply triple_bind with (R := fun _ => arp_ok).
    + apply triple_onarp. intros a r a' <- [= <- <-]. apply set_cached_ok; [unfold ARP_TABLE_SIZE; lia|done].
    + intros _. apply triple_output_to_arp_index.
  - eapply triple_conseq; [apply triple_query|by intros a <-|done].
Qed.

(** ** etharp_input *)

Lemma load_length q i n d h h' : 0 <= n -> load q i n h = Some (d, h') -> lenZ d = n.
Proof.
  intros Hn. unfold load. destruct (n =? 0) eqn:H0; b2p; [intros [= <- <-]; simpl; lia|].
  destruct q as [[b o]|]; [|done]. destruct (h_mem h !! b) as [bs|]; [|done].
  destruct (_ && _) eqn:Hr; b2p; [|done]. intros [= <- <-]. apply length_slice; lia.
Qed.

Lemma triple_input p nif : triple arp_ok (etharp_input p nif) (fun _ => arp_ok).
Proof.
  unfold etharp_input. apply triple_quiet_bind; [apply quiet_heap|]. intros b.
  apply triple_quiet_fact with (F := fun hdr => lenZ hdr = SIZEOF_ETHARP_HDR); [apply quiet_heap| |].
  { intros s hdr s'. unfold zoom. destruct (load _ _ _ _) as [[d h]|] eqn:Hld; [|done]. intros [= <- _].
    by apply load_length in Hld. }
  intros hdr Hlen. cbv zeta.
  case_if; [apply triple_quiet; quiet_tac|].
  apply triple_quiet_bind; [apply quiet_netif|]. intros n.
  eapply triple_bind with (R := fun _ => arp_ok).
  { apply triple_update_arp_entry. assert (lenZ (slice hdr 8 6) = 6); [|lia].
    apply length_slice; unfold SIZEOF_ETHARP_HDR in Hlen; lia. }
  intros _. apply triple_quiet. apply quiet_bind; [|intros; quiet_tac].
  destruct (_ =? _); [|quiet_tac]. match goal with |- quiet (if ?b then _ else _) => destruct b end; [|quiet_tac].
  apply quiet_bind; [apply quiet_netif|]. intros. apply quiet_bind; [apply quiet_raw|]. intros. quiet_tac.
Qed.

(** ** etharp_tmr and etharp_cleanup_netif: each entry's turn *)

(** What a tick of the timer makes of an entry. *)
Definition aged (e : etharp_entry) : etharp_entry :=
  if bool_decide (e_state e = ETHARP_STATE_EMPTY) then e
  else
    let e := set_ctime (ctime e + 1) e in
    if (ARP_MAXAGE <=? ctime e)
       || (bool_decide (e_state e = ETHARP_STATE_PENDING) && (ARP_MAXPENDING <=? ctime e))
    then empty_entry
    else match e_state e with
    | ETHARP_STATE_STABLE_REREQUESTING_1 => set_state ETHARP_STATE_STABLE_REREQUESTING_2 e
    | ETHARP_STATE_STABLE_REREQUESTING_2 => set_state ETHARP_STATE_STABLE e
    | _ => e
    end.

(** What etharp_cleanup_netif makes of an entry. *)
Definition cleaned (nif : positive) (e : etharp_entry) : etharp_entry :=
  if bool_decide (e_state e <> ETHARP_STATE_EMPTY) && bool_decide (e_netif e = Some nif) then empty_entry else e.

(** One turn replaces one entry and keeps the invariant. *)
Definition turns (g : etharp_entry -> etharp_entry) (i : Z) (a0 a : arp) : Prop :=
  arp_ok a /\ etharp_cached_entry a = etharp_cached_entry a0 /\
  exists e, arp_table a0 !! Z.to_nat i = Some e /\ arp_table a = <[Z.to_nat i := g e]> (arp_table a0).

Lemma turns_id i a e : arp_ok a -> arp_table a !! Z.to_nat i = Some e -> forall g, g e = e -> turns g i a a.
Proof. intros Ho He g Hg. split; [done|]. split; [done|]. exists e. split; [done|]. by rewrite Hg, list_insert_id. Qed.

Lemma triple_free_entry_turn a0 i e :
  arp_ok_but (Z.to_nat i) a0 -> arp_table a0 !! Z.to_nat i = Some e ->
  triple (eq a0) (etharp_free_entry i) (fun _ a => arp_ok a /\ etharp_cached_entry a = etharp_cached_entry a0 /\
    arp_table a = <[Z.to_nat i := empty_entry]> (arp_table a0)).
Proof.
  intros Hb He. eapply triple_conseq; [apply triple_free_entry|done|].
  intros [] a (e' & _ & He' & ->). rewrite He in He'. injection He' as <-.
  split; [by apply free_entry_but|]. done.
Qed.

Lemma triple_tmr_entry a0 i :
  arp_ok a0 -> triple (eq a0) (etharp_tmr_entry i) (fun _ => turns aged i a0).
Proof.
  intros Ho. unfold etharp_tmr_entry. apply triple_get_entry. intros e Hi He. set (n := Z.to_nat i) in *.
  assert (n < length (arp_table a0))%nat as Hlt by (apply lookup_lt_is_Some_1; by exists e).
  pose proof (ok_entries _ Ho n e He) as [Hc Ha Hn Hq].
  destruct (decide (e_state e = ETHARP_STATE_EMPTY)) as [Hst|Hst].
  { rewrite (bool_decide_eq_true_2 _ Hst). apply triple_ret_eq. eapply turns_id; [done|done|].
    unfold aged. by rewrite bool_decide_eq_true_2. }
  rewrite (bool_decide_eq_false_2 _ Hst).
  apply triple_upd_entry_bind. fold n. intros x _ Hx. rewrite He in Hx. injection Hx as <-.
  apply triple_get_entry. fold n. intros x _ Hx. rewrite put_lookup in Hx by done. injection Hx as <-.
  unfold ARP_MAXAGE in Hc. rewrite u16_small by lia. set (e1 := set_ctime (ctime e + 1) e).
  assert (alone a0 n (ipaddr e) (e_netif e)) as Hal by (apply (alone_own a0 n e); [by apply arp_ok_but_of|done|done]).
  pose proof (arp_ok_but_of n _ Ho) as Hb.
  assert (forall st, arp_ok_but n (put_entry n (set_state st e1) (arp_queue_free a0) a0)) as Hb1.
  { intros st. eapply put_entry_but; [done|done|done| |done]. by eapply but_free. }
  assert (aged e = if (ARP_MAXAGE <=? ctime e1)
       || (bool_decide (e_state e1 = ETHARP_STATE_PENDING) && (ARP_MAXPENDING <=? ctime e1))
    then empty_entry
    else match e_state e1 with
    | ETHARP_STATE_STABLE_REREQUESTING_1 => set_state ETHARP_STATE_STABLE_REREQUESTING_2 e1
    | ETHARP_STATE_STABLE_REREQUESTING_2 => set_state ETHARP_STATE_STABLE e1
    | _ => e1
    end) as Hag by (unfold aged; by rewrite bool_decide_eq_false_2).
  assert (set_state (e_state e) e1 = e1) as Hself by done.
  destruct ((ARP_MAXAGE <=? ctime e1) || _) eqn:Hold.
  - eapply triple_conseq; [eapply (triple_free_entry_turn _ i e1)|done|].
    + rewrite <- Hself. apply Hb1.
    + by apply put_lookup.
    + intros [] a (Hoa & Hca & Hta). split; [done|]. split; [done|]. exists e. fold n. split; [done|].
      rewrite Hta, Hag. fold n. simpl. by rewrite list_insert_insert_eq.
  - b2p. assert (forall st, stable st = stable (e_state e) -> (st = ETHARP_STATE_PENDING <-> e_state e = ETHARP_STATE_PENDING) ->
      aged e = set_state st e1 -> turns aged i a0 (put_entry n (set_state st e1) (arp_queue_free a0) a0)) as Hturn.
    { intros st Hs1 Hs2 Hage. split; [|split; [done|]].
      - eapply arp_ok_close; [apply Hb1|by apply put_lookup|].
        split; simpl in *; [unfold ARP_MAXAGE in *; lia|done|by intros; apply Hn|].
        erewrite bool_decide_ext; [exact Hq|done].
      - exists e. fold n. split; [done|]. by rewrite Hage. }
    change (e_state e1) with (e_state e) in *. change (e_netif e1) with (e_netif e).
    destruct (e_state e) eqn:Est; [done|..].
    + destruct (e_netif e) as [nn|]; [|by intros s r s' _].
      apply triple_quiet_bind; [apply quiet_request|]. intros _. apply triple_ret_eq.
      rewrite <- Hself. apply Hturn; [done|done|]. by rewrite Hag.
    + apply triple_ret_eq. rewrite <- Hself. apply Hturn; [done|done|]. by rewrite Hag.
    + apply triple_upd_entry. fold n. intros x _ Hx. rewrite put_lookup in Hx by done. injection Hx as <-.
      rewrite put_put. apply Hturn; [done|done|]. by rewrite Hag.
    + apply triple_upd_entry. fold n. intros x _ Hx. rewrite put_lookup in Hx by done. injection Hx as <-.
      rewrite put_put. apply Hturn; [done|done|]. by rewrite Hag.
Qed.

(** The loop over the table. *)
Lemma triple_for_entries g f :
  (forall a0 i, arp_ok a0 -> triple (eq a0) (f i) (fun _ => turns g i a0)) ->
  forall k i a0, arp_ok a0 -> 0 <= i ->
  triple (eq a0) (for_entries k i f) (fun _ a => arp_ok a /\ etharp_cached_entry a = etharp_cached_entry a0 /\
    forall j, arp_table a !! j = if decide (Z.to_nat i <= j < Z.to_nat i + k)%nat
                                 then g <$> arp_table a0 !! j else arp_table a0 !! j).
Proof.
  intros Hf. induction k as [|k IH]; intros i a0 Ho Hi; cbn [for_entries].
  - apply triple_ret_eq. split; [done|]. split; [done|]. intros j. rewrite decide_False by lia. done.
  - eapply triple_bind; [by apply Hf|]. intros []. apply triple_pure. intros a1 (Ho1 & Hc1 & e & He & Ht).
    eapply triple_conseq; [apply (IH (i + 1) a1 Ho1 ltac:(lia))|done|].
    intros [] a (Hoa & Hca & Hl). split; [done|]. split; [congruence|]. intros j. rewrite Hl, Ht.
    pose proof (lookup_lt_Some _ _ _ He).
    destruct (decide (j = Z.to_nat i)) as [->|Hj].
    + rewrite decide_False by lia. rewrite decide_True by lia. rewrite list_lookup_insert_eq by done. by rewrite He.
    + rewrite list_lookup_insert_ne by done. repeat case_decide; try lia; done.
Qed.

Lemma triple_all_entries g f a0 :
  (forall a0 i, arp_ok a0 -> triple (eq a0) (f i) (fun _ => turns g i a0)) -> arp_ok a0 ->
  triple (eq a0) (for_entries 10 0 f) (fun _ a => arp_ok a /\ arp_table a = g <$> arp_table a0).
Proof.
  intros Hf Ho. eapply triple_conseq; [by apply (triple_for_entries g f Hf 10 0 a0)|done|].
  intros [] a (Hoa & _ & Hl). split; [done|]. apply list_eq. intros j. rewrite Hl, list_lookup_fmap.
  case_decide as Hd; [done|]. rewrite (proj2 (lookup_ge_None (arp_table a0) j)); [done|].
  rewrite (ok_length _ Ho). simpl in Hd. lia.
Qed.

Lemma triple_tmr a0 :
  arp_ok a0 -> triple (eq a0) etharp_tmr (fun _ a => arp_ok a /\ arp_table a = aged <$> arp_table a0).
Proof. intros Ho. apply triple_all_entries; [|done]. intros a i Ha. by apply triple_tmr_entry. Qed.

Lemma triple_cleanup a0 nif :
  arp_ok a0 -> triple (eq a0) (etharp_cleanup_netif nif)
    (fun _ a => arp_ok a /\ arp_table a = cleaned nif <$> arp_table a0).
Proof.
  intros Ho. apply triple_all_entries; [|done]. clear a0 Ho. intros a0 i Ho.
  apply triple_get_entry. intros e Hi He.
  destruct (negb _ && _) eqn:Hc.
  - assert (cleaned nif e = empty_entry) as Hcl.
    { unfold cleaned. rewrite bool_decide_not, Hc. done. }
    eapply triple_conseq; [apply (triple_free_entry_turn a0 i e); [by apply arp_ok_but_of|done]|done|].
    intros [] a (Hoa & Hca & Hta). split; [done|]. split; [done|]. exists e. split; [done|]. by rewrite Hta, Hcl.
  - apply triple_ret_eq. eapply turns_id; [done|done|]. unfold cleaned. by rewrite bool_decide_not, Hc.
Qed.

Lemma triple_find_addr a0 nif ip :
  arp_ok a0 -> triple (eq a0) (etharp_find_addr nif ip) (fun _ a => a = a0).
Proof.
  intros Ho. unfold etharp_find_addr. eapply triple_bind; [by apply triple_find_only|].
  intros [i|]; apply triple_pure; intros a [-> _]; [|by apply triple_ret_eq].
  apply triple_get_entry. intros e _ _. by apply triple_ret_eq.
Qed.

End Ops.
