(* ===== verification/EtharpSend.v ===== *)
(** * The ARP cache: the packets it sends

    Against the interface [FrameLink]: a driver that sends the bytes of a
    packet's pbufs and leaves the packet alone. *)
From S2P Require Import Prelude Def Pbuf PbufFacts PbufWrite PbufAlloc PbufPool PbufChain Netif Node Ip4Addr.
From S2P Require Import Ethernet EthernetFacts Etharp.

Class FrameLink (X : Type) `{LL : LinkLayer X} := {
  transmit : list (list Z) -> X -> err_t * X;
  linkoutput_transmits i p l h g x :
    packet h (Some p) l ->
    linkoutput_call i p (Node h g x) =
      Some ((transmit ((fun ib => pdata h ib.2) <$> l) x).1,
            Node h g (transmit ((fun ib => pdata h ib.2) <$> l) x).2);
}.

(** The 28 bytes of an ARP packet for Ethernet and IPv4 (RFC 826). *)
Definition arp_packet (op : Z) (sha : list Z) (spa : Z) (tha : list Z) (tpa : Z) : list Z :=
  [0; 1; 8; 0; 6; 4; op / 256; op mod 256] ++ sha ++ st32 spa ++ tha ++ st32 tpa.

Lemma length_st32 v : length (st32 v) = 4%nat.
Proof. done. Qed.

Lemma arp_stores (j sha tha spa tpa op : list Z) :
  length j = 28%nat -> length sha = 6%nat -> length tha = 6%nat -> length spa = 4%nat ->
  length tpa = 4%nat -> length op = 2%nat ->
  overwrite (overwrite (overwrite (overwrite (overwrite (overwrite (overwrite (overwrite
    (overwrite j 6 op) 8 sha) 18 tha) 14 spa) 24 tpa) 0 [0; 1]) 2 [8; 0]) 4 [6]) 5 [4] =
  [0; 1; 8; 0; 6; 4] ++ op ++ sha ++ spa ++ tha ++ tpa.
Proof.
  intros Hj Hs Ht Hsp Htp Ho.
  do 6 (destruct sha as [|? sha]; [done|]). destruct sha; [|done].
  do 6 (destruct tha as [|? tha]; [done|]). destruct tha; [|done].
  do 4 (destruct spa as [|? spa]; [done|]). destruct spa; [|done].
  do 4 (destruct tpa as [|? tpa]; [done|]). destruct tpa; [|done].
  do 2 (destruct op as [|? op]; [done|]). destruct op; [|done].
  do 28 (destruct j as [|? j]; [done|]). destruct j; [|done].
  reflexivity.
Qed.

Section Send.
Context {E : PbufEnv} {X : Type} {LL : LinkLayer X} {FL : FrameLink X}.

(** One store into a packet that is one pbuf. *)
Lemma store_single h g (x : X) p b o v :
  packet h (Some p) [(p, b)] -> 0 <= o -> o + lenZ v <= len b ->
  exists h', onheap (store (payload b) o v) (Node h g x) = Some (tt, Node h' g x) /\
    writes (option_list (blk_of b)) h h' /\ packet h' (Some p) [(p, b)] /\
    chain_data h' [(p, b)] = overwrite (chain_data h [(p, b)]) o v.
Proof.
  intros Hp Ho Hv. assert (NoDup (blks [(p, b)])) as Hnd.
  { destruct (blk_of b) as [k|] eqn:Hb; [rewrite (blks_cons_Some _ _ _ _ Hb)|rewrite (blks_cons_None _ _ _ Hb)];
      [apply NoDup_singleton|apply NoDup_nil_2]. }
  destruct (store_head h p b [] o v Hp Hnd Ho Hv) as (h' & Hs & _ & W & _ & _ & Hd).
  exists h'. split; [by apply heap_run|]. split; [done|]. split; [by eapply writes_packet|done].
Qed.

(** ethernet_output on a packet with room: the driver is given the header and
    the packet's bytes. *)
Lemma ethernet_output_sends h g (x : X) i p b src dst ty :
  packet h (Some p) [(p, b)] -> room h p b SIZEOF_ETH_HDR ->
  len b + SIZEOF_ETH_HDR < 65536 -> length src = 6%nat -> length dst = 6%nat -> 0 <= ty < 65536 ->
  exists h' b', ethernet_output i p src dst ty (Node h g x) =
      (let r := transmit [eth_header dst src ty ++ chain_data h [(p, b)]] x in Some (r.1, Node h' g r.2)) /\
    packet h' (Some p) [(p, b')] /\
    chain_data h' [(p, b')] = eth_header dst src ty ++ chain_data h [(p, b)] /\
    rewrites p [p] h h' /\ ref b' = ref b /\ type_internal b' = type_internal b /\ Pbuf.flags b' = Pbuf.flags b.
Proof.
  intros Hp Hroom Hs Hsrc Hdst Hty. pose proof (packet_cons_inv _ _ _ _ _ Hp) as (_ & _ & _ & ? & _).
  destruct (ethernet_output_run h g x i p b [] src dst ty Hp Hroom) as (h' & b' & Hrun & Hp' & Hd & Hrw & Hr & Ht & Hf & _ & _).
  - destruct Hroom as [_ (o & bs & Hpl & _)]. rewrite (blks_cons_Some _ _ _ p); [apply NoDup_singleton|].
    unfold blk_of. by rewrite Hpl.
  - rewrite sum_len_cons. simpl. lia.
  - done.
  - done.
  - done.
  - exists h', b'. rewrite Hrun, (linkoutput_transmits i p _ h' g x Hp').
    assert (pdata h' b' = chain_data h' [(p, b')]) as Hpd by (rewrite chain_data_cons; unfold chain_data; simpl; by rewrite app_nil_r).
    simpl. rewrite Hpd, Hd. done.
Qed.

(** Store the bytes [v] at offset [o] of the packet being built. *)
Local Ltac put_bytes Hp o v h1 W Hp' D :=
  let Hs := fresh "Hs" in
  match type of Hp with packet ?h _ [(?q, ?b)] =>
    match goal with |- context [Node h ?g ?x] =>
      destruct (store_single h g x q b o v Hp ltac:(lia) ltac:(lia)) as (h1 & Hs & W & Hp' & D);
      rewrite (bind_run _ _ _ _ _ Hs); cbv beta; clear Hs
    end
  end.

(** etharp_raw with memory for its packet: one frame goes out, and the memory is
    back as it was. *)
Lemma etharp_raw_sends h g (x : X) i src dst sha spa tha tpa op :
  heap_wf h -> heap_admits (h_mem h) (ram_size PBUF_LINK 28) = true ->
  length src = 6%nat -> length dst = 6%nat -> length sha = 6%nat -> length tha = 6%nat -> 0 <= op < 65536 ->
  exists h', etharp_raw i src dst sha spa tha tpa op (Node h g x) =
      Some (ERR_OK, Node h' g (transmit [eth_header dst src ETHTYPE_ARP ++ arp_packet op sha spa tha tpa] x).2) /\
    heap_wf h' /\ h_pbufs h' = h_pbufs h /\ h_mem h' = h_mem h /\ h_pool h' = h_pool h /\ h_ref h' = h_ref h.
Proof.
  intros Hwf Had Hsrc Hdst Hsha Htha Hop. set (q := h_next h).
  destruct (Hwf q ltac:(unfold q; lia)) as [Hq Hqm].
  set (h0 := with_new h (ram_size PBUF_LINK 28) (ram_pbuf q PBUF_LINK 28) 0 0).
  set (b := ram_pbuf q PBUF_LINK 28).
  pose proof (ram_packet h PBUF_LINK 28 Hwf ltac:(lia)) as [Hp0 _].
  change (packet h0 (Some q) [(q, b)]) in Hp0.
  unfold etharp_raw, SIZEOF_ETHARP_HDR.
  assert (pbuf_alloc PBUF_LINK 28 PBUF_RAM h = Some (Some q, h0)) as Halloc.
  { rewrite pbuf_alloc_ram_run by lia. rewrite decide_True by (by vm_compute). by rewrite Had. }
  rewrite (bind_run _ _ _ _ _ (heap_run _ _ g x _ _ Halloc)). cbv beta iota.
  assert (h_pbufs h0 !! q = Some b) as Hqb by apply lookup_insert_eq.
  rewrite (bind_run _ _ _ _ _ (heap_run _ _ g x _ _ (get_pbuf_run _ _ _ Hqb))). cbv beta.
  assert (len b = 28) as Hlen by done.
  assert (lenZ (st16 (lwip_htons op)) = 2) as L1 by done.
  assert (lenZ (st32 spa) = 4) as L2 by done. assert (lenZ (st32 tpa) = 4) as L3 by done.
  assert (lenZ (st16 (PP_HTONS LWIP_IANA_HWTYPE_ETHERNET)) = 2) as L4 by done.
  assert (lenZ (st16 (PP_HTONS ETHTYPE_IP)) = 2) as L5 by done.
  assert (lenZ [ETH_HWADDR_LEN] = 1) as L6 by done. assert (lenZ [4] = 1) as L7 by done.
  put_bytes Hp0 6 (st16 (lwip_htons op)) h1 W1 Hp1 D1.
  put_bytes Hp1 8 sha h2 W2 Hp2 D2. put_bytes Hp2 18 tha h3 W3 Hp3 D3.
  put_bytes Hp3 14 (st32 spa) h4 W4 Hp4 D4. put_bytes Hp4 24 (st32 tpa) h5 W5 Hp5 D5.
  put_bytes Hp5 0 (st16 (PP_HTONS LWIP_IANA_HWTYPE_ETHERNET)) h6 W6 Hp6 D6.
  put_bytes Hp6 2 (st16 (PP_HTONS ETHTYPE_IP)) h7 W7 Hp7 D7.
  put_bytes Hp7 4 [ETH_HWADDR_LEN] h8 W8 Hp8 D8. put_bytes Hp8 5 [4] h9 W9 Hp9 D9.
  assert (chain_data h9 [(q, b)] = arp_packet op sha spa tha tpa) as D.
  { rewrite D9, D8, D7, D6, D5, D4, D3, D2, D1, st16_htons by done.
    change (st16 (PP_HTONS LWIP_IANA_HWTYPE_ETHERNET)) with [0; 1]. change (st16 (PP_HTONS ETHTYPE_IP)) with [8; 0].
    change [ETH_HWADDR_LEN] with [6]. apply arp_stores; try done.
    pose proof (length_chain_data _ _ _ Hp0) as HL. rewrite sum_len_cons in HL. simpl in HL. lia. }
  assert (writes [q] h0 h9) as W.
  { change [q] with (option_list (blk_of b)). repeat (etrans; [eassumption|]). reflexivity. }
  clear W1 W2 W3 W4 W5 W6 W7 W8 W9 D1 D2 D3 D4 D5 D6 D7 D8 D9 Hp1 Hp2 Hp3 Hp4 Hp5 Hp6 Hp7 Hp8.
  assert (room h9 q b SIZEOF_ETH_HDR) as Hroom.
  { split; [by vm_compute|]. pose proof (writes_len _ _ _ W q) as Hwl. unfold h0, with_new in Hwl. cbn [h_mem] in Hwl.
    fold q in Hwl. rewrite lookup_insert_eq in Hwl.
    destruct (h_mem h9 !! q) as [bs|] eqn:Hbs; [|done].
    injection Hwl as Hwl. exists 128, bs. split; [done|]. split; [done|]. split; [by vm_compute|].
    rewrite Hwl, Hlen. by vm_compute. }
  destruct (ethernet_output_sends h9 g x i q b src dst ETHTYPE_ARP Hp9 Hroom ltac:(rewrite Hlen; by vm_compute) Hsrc Hdst
    ltac:(unfold ETHTYPE_ARP; lia)) as (h10 & b' & Hrun & Hp10 & D10 & Rw & Hr' & Ht' & Hf').
  rewrite (bind_run _ _ _ _ _ Hrun). cbv beta. rewrite D.
  assert (h_pbufs h10 !! q = Some b') as Hq10 by by apply packet_cons_inv in Hp10 as (_ & ? & _).
  assert (last_ref h10 (q, b')) as Hlast.
  { split; [simpl; by rewrite Hr'|]. split; [unfold plain, pbuf_get_allocsrc; simpl; by rewrite Hf', Ht'|]. simpl.
    pose proof (rewrites_len _ _ _ _ Rw q) as Hl. destruct (room_place _ _ _ _ Hroom) as (o & bs & _ & Hbs & _).
    rewrite Hbs in Hl. by destruct (h_mem h10 !! q). }
  pose proof (pbuf_free_run h10 q [(q, b')] [] (packet_chain _ _ _ Hp10) ltac:(by constructor) I) as Hfree.
  rewrite (bind_run _ _ _ _ _ (heap_run _ _ g _ _ _ Hfree)). cbv beta. simpl.
  eexists. split; [reflexivity|].
  destruct W as [Wp Wn Wo Wr Wl Wm], Rw as [Rp Rn Ro Rr Rl Rm].
  assert (pbuf_get_allocsrc b' = 0) as Hsrc' by (unfold pbuf_get_allocsrc; by rewrite Ht').
  assert (forall j, delete q (h_pbufs h10) !! j = h_pbufs h !! j) as Hpj.
  { intros j. destruct (decide (j = q)) as [->|Hj]; [by rewrite lookup_delete_eq, Hq|].
    rewrite lookup_delete_ne by done. rewrite Rp by done. rewrite Wp. simpl. by rewrite lookup_insert_ne. }
  assert (forall j, delete q (h_mem h10) !! j = h_mem h !! j) as Hmj.
  { intros j. destruct (decide (j = q)) as [->|Hj]; [by rewrite lookup_delete_eq, Hqm|].
    rewrite lookup_delete_ne by done. rewrite Rm, Wm by (by intros ->%list_elem_of_singleton).
    simpl. by rewrite lookup_insert_ne. }
  unfold release, heap_wf. simpl. rewrite Hsrc'. simpl.
  split; [|split; [by apply map_eq|split; [by apply map_eq|]]].
  - intros j Hj. rewrite Hpj, Hmj. apply Hwf. rewrite Rn, Wn in Hj. simpl in Hj. lia.
  - rewrite Ro, Wo, Rr, Wr. simpl. lia.
Qed.
End Send.
