(* ===== verification/Ip4Facts.v ===== *)
(** * IPv4: the runs of ip4_route, ip4_input and ip4_output_if_src *)
From S2P Require Import Prelude Triple Def Pbuf PbufFacts PbufWrite PbufAlloc PbufPool PbufChain PbufRef PbufOwn PbufEdit.
From S2P Require Import Netif Node Ip4Addr InetChksum Ethernet Etharp Ip4 Icmp Ip4Input.

(** ** Fields *)

(** The block of a pbuf from its payload on. *)
Definition from (bs : list Z) (o : Z) : list Z := drop (Z.to_nat o) bs.

Lemma byte_at_slice l i n k : 0 <= i -> 0 <= k < n -> byte_at (slice l i n) k = byte_at l (i + k).
Proof.
  intros Hi Hk. unfold byte_at. pose proof (lookup_slice l i n k Hi Hk) as Hl. rewrite !nth_lookup. by rewrite Hl.
Qed.
Lemma byte_at_from l o k : 0 <= o -> 0 <= k -> byte_at (from l o) k = byte_at l (o + k).
Proof. intros Ho Hk. unfold byte_at, from. rewrite !nth_lookup, lookup_drop. do 2 f_equal. lia. Qed.
Lemma ld16_slice l i n k : 0 <= i -> 0 <= k -> k + 1 < n -> ld16 (slice l i n) k = ld16 l (i + k).
Proof. intros. unfold ld16. rewrite !byte_at_slice by lia. by rewrite Z.add_assoc. Qed.
Lemma ld16_from l o k : 0 <= o -> 0 <= k -> ld16 (from l o) k = ld16 l (o + k).
Proof. intros. unfold ld16. rewrite !byte_at_from by lia. by rewrite Z.add_assoc. Qed.

Lemma load_run h q o bs i n :
  h_mem h !! q = Some bs -> 0 <= o + i -> 0 <= n -> o + i + n <= lenZ bs ->
  load (Some (Ptr q o)) i n h = Some (slice bs (o + i) n, h).
Proof.
  intros Hq Hi Hn Hl. unfold load. destruct (n =? 0) eqn:E0; b2p; [by subst|]. rewrite Hq.
  by rewrite (proj2 (Z.leb_le 0 (o + i))), (proj2 (Z.leb_le 0 n)), (proj2 (Z.leb_le (o + i + n) _)) by lia.
Qed.

Section Fields.
Context (h : heap) (q : positive) (o : Z) (bs : list Z).
Hypothesis Hq : h_mem h !! q = Some bs.
Hypothesis Ho : 0 <= o.

Lemma load8_run i : 0 <= i -> o + i + 1 <= lenZ bs -> load8 (Some (Ptr q o)) i h = Some (byte_at (from bs o) i, h).
Proof.
  intros Hi Hl. unfold load8. mrun (load_run h q o bs i 1 Hq ltac:(lia) ltac:(lia) Hl).
  by rewrite byte_at_slice, Z.add_0_r, byte_at_from by lia.
Qed.
Lemma load16_run i : 0 <= i -> o + i + 2 <= lenZ bs -> load16 (Some (Ptr q o)) i h = Some (ld16 (from bs o) i, h).
Proof.
  intros Hi Hl. unfold load16. mrun (load_run h q o bs i 2 Hq ltac:(lia) ltac:(lia) Hl).
  by rewrite ld16_slice, Z.add_0_r, ld16_from by lia.
Qed.
Lemma load32_run i : 0 <= i -> o + i + 4 <= lenZ bs -> load32 (Some (Ptr q o)) i h = Some (ld32 (from bs o) i, h).
Proof.
  intros Hi Hl. unfold load32. mrun (load_run h q o bs i 4 Hq ltac:(lia) ltac:(lia) Hl).
  unfold ld32. rewrite !ld16_slice, !ld16_from by lia. by rewrite Z.add_0_r, Z.add_0_l, Z.add_assoc.
Qed.
End Fields.

(** ** The decision ip4_input takes *)

(** What becomes of a packet: dropped, reassembled, or delivered, the latter two
    for an interface.  [hd] is the memory from the header on, [l] the length of
    the packet, [n] the struct of the interface [inp]. *)
Inductive ip4_fate := Dropped | Fragment (netif : positive) | Delivered (netif : positive).
#[export] Instance ip4_fate_eq_dec : EqDecision ip4_fate.
Proof. solve_decision. Defined.

Definition ip4_fate_of (g : netifs) (inp : positive) (n : netif) (hd : list Z) (l : Z) : ip4_fate :=
  let hlen := IPH_HL_BYTES (byte_at hd 0) in
  let iplen := lwip_htons (ld16 hd 2) in
  let src := ld32 hd 12 in
  if negb (IPH_V (byte_at hd 0) =? 4) then Dropped
  else if (Z.min l iplen <? hlen) || (l <? iplen) || (hlen <? IP_HLEN) then Dropped
  else if ip4_addr_isbroadcast_u32 src n || ip4_addr_ismulticast src then Dropped
  else match accepting_netif g inp n (ld32 hd 16) with
    | None => Dropped
    | Some i =>
        if negb (Z.land (ld16 hd 6) (PP_HTONS (Z.lor IP_OFFMASK IP_MF)) =? 0) then Fragment i
        else if IP_HLEN <? hlen then Dropped else Delivered i
    end.

Section Facts.
Context {E : PbufEnv} {X : Type} {LL : LinkLayer X} {AP : part X arp} {IP : part X ip_state} {FR : IpFragments X}.
Context {AD : Addresses} {TR : Transport X}.

Definition ip_of (s : node X) : ip_state := get_part (n_ext s).
Definition upd_ip (f : ip_globals -> ip_globals) (x : X) : X :=
  set_part (set_ip_data (f (ip_data (get_part x))) (get_part x)) x.

Lemma onip_get_run h g x : onip get (Node h g x) = Some (get_part x, Node h g x).
Proof. unfold onip, ext, zoom. simpl. by rewrite set_get_part. Qed.
Lemma onip_put_run i h g x : onip (put i) (Node h g x) = Some (tt, Node h g (set_part i x)).
Proof. done. Qed.
Lemma modify_ip_data_run f h g x : modify_ip_data f (Node h g x) = Some (tt, Node h g (upd_ip f x)).
Proof. done. Qed.

(** Routing only looks. *)
Lemma ip4_route_state dest (s : node X) r s' : ip4_route dest s = Some (r, s') -> s' = s.
Proof.
  destruct s as [h g x]. unfold ip4_route. assert ((zoom get : M (node X) netifs) (Node h g x) = Some (g, Node h g x)) as Hg by done. mrun Hg.
  destruct (find_netif _ _ _); [by intros [= _ <-]|]. destruct (netif_default g) as [d|]; [|by intros [= _ <-]].
  intros (n & s1 & Hn & Hr)%bind_Some. unfold get_netif, mbind, M_bind, zoom, get, lift in Hn. simpl in Hn.
  destruct (nif g !! d); [|done]. injection Hn as <- <-. by destruct (_ || _); injection Hr as _ <-.
Qed.

(** The addresses ip4_input takes from the header. *)
Definition addressed (hd : list Z) (x : X) : X :=
  upd_ip (set_current_iphdr_src (ld32 hd 12)) (upd_ip (set_current_iphdr_dest (ld32 hd 16)) x).

Definition drop_packet (p : positive) : M (node X) err_t := onheap (pbuf_free (Some p));; mret ERR_OK.
Definition reass_deliver (p inp netif : positive) (hlen : Z) : M (node X) err_t :=
  r ← ip4_reass p;
  match r with
  | None => mret ERR_OK
  | Some p =>
      b ← onheap (get_pbuf p);
      if IP_HLEN <? hlen then drop_packet p
      else ip4_deliver p inp netif (payload b) hlen
  end.

(** The packet after pbuf_realloc. *)
Definition trimmed (hd : list Z) (b : pbuf) : pbuf :=
  if (IPH_V (byte_at hd 0) =? 4) && (lwip_htons (ld16 hd 2) <? tot_len b) then cut (lwip_htons (ld16 hd 2)) b else b.

Lemma ip4_input_run N w R h g x p inp b o bs n :
  sane N w R h -> p ∈ R -> p ∉ kept N ->
  h_pbufs h !! p = Some b -> payload b = Some (Ptr p o) -> h_mem h !! p = Some bs -> 0 <= o ->
  o + 4 <= lenZ bs -> unshared b -> nif g !! inp = Some n ->
  let hd := from bs o in
  exists h1 x1, sane N w R h1 /\ h_pbufs h1 !! p = Some (trimmed hd b) /\ h_mem h1 !! p = Some bs /\
    ip4_input p inp (Node h g x) =
      match ip4_fate_of g inp n hd (len b) with
      | Dropped => drop_packet p (Node h1 g x1)
      | Fragment i => reass_deliver p inp i (IPH_HL_BYTES (byte_at hd 0)) (Node h1 g x1)
      | Delivered i => ip4_deliver p inp i (Some (Ptr p o)) (IPH_HL_BYTES (byte_at hd 0)) (Node h1 g x1)
      end /\
    (x1 = x \/ x1 = addressed hd x) /\ (ip4_fate_of g inp n hd (len b) <> Dropped -> x1 = addressed hd x).
Proof.
  intros Hs Hp Hnk Hb Hpl Hbs Ho Hl Hun Hn hd. pose proof Hun as (Hr & Hsrc & Htl).
  destruct (sane_own _ _ _ _ Hs p b Hb) as [_ _ Hlb (o' & bs' & Hpl' & Hbs' & _ & Hob)]. simplify_eq.
  unfold ip4_input. mrun (heap_run _ _ g x _ _ (get_pbuf_run _ _ _ Hb)). rewrite Hpl. cbv zeta.
  mrun (heap_run _ _ g x _ _ (load8_run h p o bs Hbs Ho 0 ltac:(lia) ltac:(lia))). fold hd.
  unfold ip4_fate_of, trimmed. cbv zeta. destruct (IPH_V (byte_at hd 0) =? 4) eqn:Ev; cbn [negb andb].
  2:{ exists h, x. split_and!; try done. by left. }
  mrun (heap_run _ _ g x _ _ (load16_run h p o bs Hbs Ho 2 ltac:(lia) ltac:(lia))). fold hd.
  set (il := lwip_htons (ld16 hd 2)). set (hl := IPH_HL_BYTES (byte_at hd 0)).
  pose proof (lwip_htons_bound (ld16 hd 2)) as Hil. fold il in Hil.
  assert (exists h1, sane N w R h1 /\ h_pbufs h1 !! p = Some (if il <? tot_len b then cut il b else b) /\ h_mem h1 !! p = Some bs /\
    (if il <? tot_len b then onheap (pbuf_realloc (Some p) il) else mret tt) (Node h g x) = Some (tt, Node h1 g x))
    as (h1 & Hs1 & Hb1 & Hbs1 & Hrun).
  { destruct (il <? tot_len b) eqn:Et; b2p; [|by exists h].
    destruct (sane_truncate _ _ _ _ _ _ il Hs Hp Hnk Hb Hun ltac:(lia)) as (h1 & Hrun & Hs1 & Hb1 & Hm1).
    exists h1. split; [done|]. split; [done|]. split; [congruence|]. by apply heap_run. }
  mrun Hrun. mrun (heap_run _ _ g x _ _ (get_pbuf_run _ _ _ Hb1)).
  assert (forall b1, b1 = (if il <? tot_len b then cut il b else b) -> len b1 = Z.min (len b) il /\ (tot_len b1 <? il) = (len b <? il)) as Hb1'.
  { intros b1 ->. destruct (il <? tot_len b) eqn:Et; b2p; simpl.
    - split; [lia|]. rewrite (proj2 (Z.ltb_ge il il)), (proj2 (Z.ltb_ge (len b) il)); lia.
    - split; [lia|]. by rewrite Htl. }
  destruct (Hb1' _ eq_refl) as [-> ->]. exists h1.
  destruct (_ || _ || _) eqn:Elen; [exists x; split_and!; try done; by left|]. b2p.
  assert (20 <= len b) as H20. { unfold IP_HLEN in *. lia. }
  mrun (heap_run _ _ g x _ _ (load32_run h1 p o bs Hbs1 Ho 16 ltac:(lia) ltac:(lia))). fold hd.
  rewrite (bind_run _ _ _ _ _ (modify_ip_data_run (set_current_iphdr_dest (ld32 hd 16)) h1 g x)). cbv beta.
  mrun (heap_run _ _ g (upd_ip (set_current_iphdr_dest (ld32 hd 16)) x) _ _ (load32_run h1 p o bs Hbs1 Ho 12 ltac:(lia) ltac:(lia))). fold hd.
  rewrite (bind_run _ _ _ _ _ (modify_ip_data_run (set_current_iphdr_src (ld32 hd 12)) h1 g _)). cbv beta.
  fold (addressed hd x). set (x1 := addressed hd x).
  mrun (get_netif_run h1 g x1 inp n Hn).
  assert ((zoom get : M (node X) netifs) (Node h1 g x1) = Some (g, Node h1 g x1)) as Hg by done. mrun Hg.
  exists x1. destruct (_ || ip4_addr_ismulticast (ld32 hd 12)); [split_and!; try done; by right|].
  destruct (accepting_netif g inp n (ld32 hd 16)) as [i|]; [|split_and!; try done; by right].
  mrun (heap_run _ _ g x1 _ _ (load16_run h1 p o bs Hbs1 Ho 6 ltac:(lia) ltac:(lia))). fold hd.
  split; [done|]. split; [done|]. split; [done|]. split; [|split; [by right|done]].
  destruct (negb (Z.land _ _ =? 0)).
  - rewrite bind_assoc. unfold reass_deliver. unfold mbind, M_bind. destruct (ip4_reass p _) as [[[q|] s]|]; try done.
    destruct (onheap (get_pbuf q) s) as [[bq sq]|]; done.
  - rewrite bind_ret. by destruct (IP_HLEN <? hl).
Qed.

End Facts.
