(* ===== verification/UdpDemux.v ===== *)
(** * UDP: which pcb a datagram is for *)
From S2P Require Import Prelude Triple Def Pbuf PbufFacts PbufWrite PbufAlloc PbufPool PbufChain PbufRef PbufOwn PbufEdit Netif NetifInv Node Ip4Addr Ethernet Etharp Ip4 Icmp Ip4Facts Udp UdpFacts.

(** The pcb takes datagrams for this port and address on interface number [k]. *)
Definition local_ok (k : Z) (n : netif) (d : datagram) (c : udp_pcb) : Prop :=
  local_port c = d_dport d /\ udp_input_local_match c (Some k) n (d_bcast d) (d_dest d) = Some true.
Definition unconnected (c : udp_pcb) : Prop := Z.land (udp_flags c) UDP_FLAGS_CONNECTED = 0.
(** It is not connected, or to the sender. *)
Definition remote_ok (d : datagram) (c : udp_pcb) : Prop := unconnected c \/ remote_match d c = true.

(** The listed pcb [i] takes the datagram. *)
Definition takes (s : udp_state) (k : Z) (n : netif) (d : datagram) (i : positive) : Prop :=
  exists c, i ∈ udp_pcbs s /\ udp_tab s !! i = Some c /\ local_ok k n d c /\ remote_ok d c.

Lemma local_match_total c k n b dest : exists m, udp_input_local_match c (Some k) n b dest = Some m.
Proof. unfold udp_input_local_match. cbv zeta. destruct (negb _); by eexists. Qed.

Lemma match_step c k n d :
  exists m, (if local_port c =? d_dport d then udp_input_local_match c (Some k) n (d_bcast d) (d_dest d) else Some false) = Some m /\
    (m = true <-> local_ok k n d c).
Proof.
  unfold local_ok. destruct (Z.eqb_spec (local_port c) (d_dport d)) as [E|E].
  - destruct (local_match_total c k n (d_bcast d) (d_dest d)) as [m Hm]. exists m. split; [done|]. rewrite Hm. split; [by intros ->|by intros [_ [= ->]]].
  - exists false. split; [done|]. split; [done|tauto].
Qed.

(** What is kept as the first unconnected pcb is one of the candidates. *)
Lemma uncon_cases n d u j c :
  udp_uncon n d u j c = u /\ (u = None -> ~ unconnected c) \/ (udp_uncon n d u j c = Some (j, c) /\ unconnected c).
Proof.
  unfold udp_uncon, unconnected. destruct (Z.eqb_spec (Z.land (udp_flags c) UDP_FLAGS_CONNECTED) 0) as [E|E]; [|by left].
  destruct u as [[i x]|]; [|by right]. destruct (_ && _); [|by left]. destruct (_ && _); [by right|by left].
Qed.

Section Find.
Context (tab : gmap positive udp_pcb) (k : Z) (n : netif) (d : datagram).

Definition candidate (l : list positive) (i : positive) : Prop := exists c, i ∈ l /\ tab !! i = Some c /\ local_ok k n d c.

Lemma udp_find_run l : forall u, (forall j, j ∈ l -> is_Some (tab !! j)) ->
  exists found uncon, udp_find tab (Some k) n d u l = Some (found, uncon) /\
    (forall i, found = Some i -> exists c, i ∈ l /\ tab !! i = Some c /\ local_ok k n d c /\ remote_match d c = true) /\
    (found = None -> forall i c, i ∈ l -> tab !! i = Some c -> local_ok k n d c -> remote_match d c = false) /\
    (forall i, uncon = Some i -> fst <$> u = Some i \/ exists c, i ∈ l /\ tab !! i = Some c /\ local_ok k n d c /\ unconnected c) /\
    (uncon = None -> u = None /\ (found = None -> forall i c, i ∈ l -> tab !! i = Some c -> local_ok k n d c -> ~ unconnected c)).
Proof.
  induction l as [|j l IH]; intros u Hl.
  { exists None, (fst <$> u). split; [done|]. split; [done|]. split; [by intros _ i c ?%not_elem_of_nil|].
    split; [by left|]. intros Hu. split; [by destruct u|]. by intros _ i c ?%not_elem_of_nil. }
  destruct (Hl j ltac:(by left)) as [c Hc]. destruct (match_step c k n d) as (m & Hm & Hiff). cbn [udp_find]. rewrite Hc. simpl.
  rewrite Hm. simpl. assert (forall i, i ∈ l -> is_Some (tab !! i)) as Hl' by (intros i Hi; apply Hl; by right).
  destruct m.
  2:{ destruct (IH u Hl') as (found & uncon & Hr & H1 & H2 & H3 & H4). exists found, uncon. split; [done|].
      assert (~ local_ok k n d c) as Hno by (by intros ?%Hiff).
      split; [intros i Hi; destruct (H1 i Hi) as (x & ? & ?); exists x; split; [by right|done]|].
      split; [intros Hn i x [->|Hi]%elem_of_cons Hx Hok; [congruence|by apply (H2 Hn i x)]|].
      split; [intros i Hi; destruct (H3 i Hi) as [?|(x & ? & ?)]; [by left|right; exists x; split; [by right|done]]|].
      intros Hn. destruct (H4 Hn) as [Hu H5]. split; [done|]. intros Hf i x [->|Hi]%elem_of_cons Hx Hok; [congruence|by apply (H5 Hf i x)]. }
  pose proof (proj1 Hiff eq_refl) as Hok. set (u' := udp_uncon n d u j c). pose proof (uncon_cases n d u j c) as Hu'. fold u' in Hu'.
  assert (forall i, fst <$> u' = Some i -> fst <$> u = Some i \/ exists c, i ∈ j :: l /\ tab !! i = Some c /\ local_ok k n d c /\ unconnected c) as Hcan.
  { intros i Hi. destruct Hu' as [[E _]|[E Hun]]; rewrite E in Hi; [by left|]. injection Hi as <-. right. exists c. split; [by left|done]. }
  assert (u' = None -> u = None /\ ~ unconnected c) as Hnone.
  { intros E. destruct Hu' as [[E' Hun]|[E' _]]; [|congruence]. rewrite E in E'. split; [done|by apply Hun]. }
  destruct (remote_match d c) eqn:Hrem.
  { exists (Some j), (fst <$> u'). split; [done|]. split; [intros i [= <-]; exists c; split; [by left|done]|]. split; [done|].
    split; [done|]. intros Hn. split; [|done]. apply Hnone. by destruct u'. }
  destruct (IH u' Hl') as (found & uncon & Hr & H1 & H2 & H3 & H4). exists found, uncon. split; [done|].
  split; [intros i Hi; destruct (H1 i Hi) as (x & ? & ?); exists x; split; [by right|done]|].
  split; [intros Hn i x [->|Hi]%elem_of_cons Hx Hoki; [congruence|by apply (H2 Hn i x)]|].
  split; [intros i Hi; destruct (H3 i Hi) as [?|(x & ? & ?)]; [by apply Hcan|right; exists x; split; [by right|done]]|].
  intros Hn. destruct (H4 Hn) as [Hu H5]. destruct (Hnone Hu) as [-> Hun]. split; [done|].
  intros Hf i x [->|Hi]%elem_of_cons Hx Hoki; [congruence|by apply (H5 Hf i x)].
Qed.
End Find.

(** The pcb found, else the unconnected one. *)
Definition pick (r : option positive * option positive) : option positive :=
  match r.1 with Some i => Some i | None => r.2 end.

(** A pcb that takes the datagram gets it, if there is one. *)
Lemma pick_takes s k n d :
  udp_ok s -> exists r, udp_find (udp_tab s) (Some k) n d None (udp_pcbs s) = Some r /\
    (forall i, pick r = Some i -> takes s k n d i) /\ (pick r = None -> forall i, ~ takes s k n d i) /\
    (forall i, r.1 = Some i -> i ∈ udp_pcbs s).
Proof.
  intros Hs. destruct (udp_find_run (udp_tab s) k n d (udp_pcbs s) None (udp_listed _ Hs)) as (found & uncon & Hr & H1 & H2 & H3 & H4).
  exists (found, uncon). split; [done|]. unfold pick, takes, remote_ok. simpl. split; [|split].
  - intros i Hi. destruct found as [j|].
    + injection Hi as <-. destruct (H1 j eq_refl) as (c & ? & ? & ? & ?). exists c. by split_and!; auto.
    + destruct (H3 i Hi) as [?|(c & ? & ? & ? & ?)]; [done|]. exists c. by split_and!; auto.
  - intros Hn i (c & Hi & Hc & Hok & Hrem). destruct found as [j|]; [done|]. destruct (H4 Hn) as [_ H5].
    destruct Hrem as [Hun|Hm]; [by apply (H5 eq_refl i c)|]. by rewrite (H2 eq_refl i c) in Hm.
  - intros i Hi. destruct (H1 i Hi) as (c & ? & _). done.
Qed.

(** A datagram for one host is for one pcb at most. *)
Lemma unicast_unique s k n d i j :
  exclusive s -> d_bcast d = false -> takes s k n d i -> takes s k n d j -> i = j.
Proof.
  intros He Hb (ci & Hi & Hci & [Hpi Hmi] & _) (cj & Hj & Hcj & [Hpj Hmj] & _). destruct (decide (i = j)) as [->|Hne]; [done|].
  destruct (He i j ci cj Hi Hj Hne Hci Hcj ltac:(congruence)) as (Hip & Hai & Haj).
  assert (forall c, udp_input_local_match c (Some k) n (d_bcast d) (d_dest d) = Some true -> local_ip c <> IPADDR_ANY -> local_ip c = d_dest d) as Hdest.
  { intros c. rewrite Hb. unfold udp_input_local_match, ip4_addr_isany_val. cbv zeta. intros Hm Hany.
    rewrite (proj2 (Z.eqb_neq _ _) Hany) in Hm. cbn [orb] in Hm. destruct (negb _); simpl in Hm; [destruct (negb _); [done|]|]; injection Hm as Hm; by apply Z.eqb_eq. }
  by rewrite (Hdest ci), (Hdest cj) in Hip.
Qed.

(** ** udp_input *)
Lemma to_front_perm i l : i ∈ l -> to_front i l ≡ₚ l.
Proof.
  destruct l as [|j l]; [done|]. cbn [to_front]. destruct (decide (i = j)) as [->|Hne]; [done|]. intros Hi. cbn [remove_first].
  rewrite decide_False by done. assert (i ∈ l) as Hil by (by apply elem_of_cons in Hi as [?|?]).
  rewrite Permutation_swap. f_equiv. clear -Hil. induction l as [|k l IH]; [by apply not_elem_of_nil in Hil|]. cbn [remove_first].
  destruct (decide (i = k)) as [->|Hne]; [done|]. rewrite Permutation_swap. f_equiv. apply IH. by apply elem_of_cons in Hil as [?|?].
Qed.
Lemma reordered_ok s l : l ≡ₚ udp_pcbs s -> udp_ok s -> udp_ok (set_udp_pcbs l s).
Proof.
  intros Hl [Hd Hb Hli Hf Hp Hr]. split; simpl; try done.
  - by rewrite Hl.
  - intros i c Hc. rewrite Hl. by apply Hb.
  - intros i. rewrite Hl. apply Hli.
Qed.
Lemma reordered_exclusive s l : l ≡ₚ udp_pcbs s -> exclusive s -> exclusive (set_udp_pcbs l s).
Proof. intros Hl He i j ci cj. simpl. rewrite !Hl. apply He. Qed.

Section Input.
Context {E : PbufEnv} {X : Type} {LL : LinkLayer X} {AP : part X arp} {IP : part X ip_state} {FR : IpFragments X}.
Context {AD : Addresses} {UD : part X udp_state} {UU : UdpUser X}.

Definition udp_of (s : node X) : udp_state := get_part (n_ext s).
Definition drop_datagram (p : positive) : M (node X) unit := onheap (pbuf_free (Some p));; mret tt.

(** What becomes of a datagram whose pcb is looked up: it goes to the user, is
    answered that there is none, or is given up. *)
Definition to_user (s : udp_state) (i p : positive) (d : datagram) : M (node X) unit :=
  match c ← udp_tab s !! i; f ← recv c; Some (f, recv_arg c) with
  | Some (f, a) => udp_recv_call f a i p (d_src d) (d_sport d)
  | None => drop_datagram p
  end.
Definition no_user (tot_hlen : Z) (p : positive) (d : datagram) : M (node X) unit :=
  (if negb (d_bcast d) && negb (ip4_addr_ismulticast (d_dest d)) then
     onheap (pbuf_header_force (Some p) (tot_hlen + UDP_HLEN));; icmp_dest_unreach p ICMP_DUR_PORT
   else mret tt);;
  drop_datagram p.

Lemma onudp_get_run h g x : onudp get (Node h g x) = Some (get_part x, Node h g x).
Proof. unfold onudp, ext, zoom. simpl. by rewrite set_get_part. Qed.
Lemma onudp_run {A} (m : M udp_state A) h g x r u :
  m (get_part x) = Some (r, u) -> onudp m (Node h g x) = Some (r, Node h g (set_part u x)).
Proof. intros Hm. unfold onudp, ext, zoom. simpl. by rewrite Hm. Qed.

Lemma onudp_pcb_run i c (s : node X) : udp_tab (udp_of s) !! i = Some c -> onudp (get_pcb i) s = Some (c, s).
Proof.
  destruct s as [h g x]. intros Hc. rewrite (onudp_run (get_pcb i) h g x c (get_part x)) by by apply get_pcb_run. by rewrite set_get_part.
Qed.

(** The datagram at hand: IP's addresses and the ports from the header [hd]. *)
Definition datagram_of (i : ip_state) (hd : list Z) (n : netif) : datagram :=
  let dest := current_iphdr_dest (ip_data i) in
  Datagram (current_iphdr_src (ip_data i)) (lwip_htons (ld16 hd 0)) dest (lwip_htons (ld16 hd 2)) (ip4_addr_isbroadcast_u32 dest n).

Lemma udp_input_run h g x p inp b o bs cur ncur k nk n :
  h_pbufs h !! p = Some b -> payload b = Some (Ptr p o) -> h_mem h !! p = Some bs -> 0 <= o -> o + 8 <= lenZ bs ->
  UDP_HLEN <= len b < 65536 -> UDP_HLEN <= tot_len b -> udp_ok (get_part x) ->
  let ips := get_part x : ip_state in
  current_netif (ip_data ips) = Some cur -> nif g !! cur = Some ncur ->
  current_input_netif (ip_data ips) = Some k -> nif g !! k = Some nk -> nif g !! inp = Some n ->
  let d := datagram_of ips (from bs o) ncur in
  let h1 := patch p (move_payload b p o (- UDP_HLEN)) h in
  exists r u, udp_find (udp_tab (get_part x)) (Some (netif_get_index nk)) n d None (udp_pcbs (get_part x)) = Some r /\
    (exists l, l ≡ₚ udp_pcbs (get_part x) /\ u = set_udp_pcbs l (get_part x)) /\
    udp_input p inp (Node h g x) =
      match pick r with
      | Some i => to_user u i p d (Node h1 g (set_part u x))
      | None =>
          if ip_addr n =? d_dest d then no_user (current_ip_header_tot_len (ip_data ips)) p d (Node h1 g (set_part u x))
          else drop_datagram p (Node h g (set_part u x))
      end.
Proof.
  intros Hb Hpl Hbs Ho Hob Hlb Htl Hu ips Hcur Hncur Hk Hnk Hn d h1. unfold UDP_HLEN in *.
  destruct (pick_takes (get_part x) (netif_get_index nk) n d Hu) as (r & Hr & Hsome & _ & Hfound).
  set (u := match r.1 with Some i => set_udp_pcbs (to_front i (udp_pcbs (get_part x))) (get_part x) | None => get_part x end).
  exists r, u. split; [done|]. split.
  { unfold u. destruct (r.1) as [i|] eqn:Ei; [|exists (udp_pcbs (get_part x)); split; [done|by destruct (get_part x)]].
    eexists. split; [|done]. by apply to_front_perm, Hfound. }
  unfold udp_input. cbv zeta. mrun (heap_run _ _ g x _ _ (get_pbuf_run _ _ _ Hb)). unfold UDP_HLEN. rewrite (proj2 (Z.ltb_ge _ _)) by lia.
  rewrite (bind_run _ _ _ _ _ (onip_get_run h g x)). cbv beta. fold ips. rewrite Hcur.
  rewrite (bind_run (lift (Some cur)) _ (Node h g x) cur (Node h g x) eq_refl). cbv beta.
  mrun (get_netif_run h g x cur ncur Hncur). rewrite Hpl.
  mrun (heap_run _ _ g x _ _ (load16_run h p o bs Hbs Ho 0 ltac:(lia) ltac:(lia))).
  mrun (heap_run _ _ g x _ _ (load16_run h p o bs Hbs Ho 2 ltac:(lia) ltac:(lia))).
  mrun (get_netif_run h g x inp n Hn). assert ((zoom get : M (node X) netifs) (Node h g x) = Some (g, Node h g x)) as Hg by done. mrun Hg. clear Hg.
  rewrite (bind_run _ _ _ _ _ (onudp_get_run h g x)). cbv beta. fold (datagram_of ips (from bs o) ncur). fold d.
  assert ((j ← current_input_netif (ip_data ips); netif_get_index <$> nif g !! j) = Some (netif_get_index nk)) as Hidx by (rewrite Hk; simpl; by rewrite Hnk).
  rewrite Hidx, Hr. rewrite (bind_run (lift (Some r)) _ (Node h g x) r (Node h g x) eq_refl). cbv beta.
  assert ((let '(found, _) := r in match found with Some i => onudp (modify (set_udp_pcbs (to_front i (udp_pcbs (get_part x))))) | None => mret tt end : M (node X) unit) (Node h g x)
    = Some (tt, Node h g (set_part u x))) as Hfront.
  { unfold u. destruct r as [[i|] w]; simpl; [by apply onudp_run|]. by rewrite set_get_part. }
  destruct r as [found uncon]. cbn [fst snd] in *. rewrite (bind_run _ _ _ _ _ Hfront). cbv beta. clear Hfront.
  change (match found with Some i => Some i | None => uncon end) with (pick (found, uncon)).
  pose proof (pbuf_remove_header_run h p b p o 8 Hb Hpl ltac:(lia) ltac:(lia) ltac:(lia)) as Hrm. fold (patch p (move_payload b p o (- 8)) h) in Hrm. fold h1 in Hrm.
  destruct (pick (found, uncon)) as [i|].
  - mrun (heap_run _ _ g (set_part u x) _ _ Hrm). destruct (Hsome i eq_refl) as (c & _ & Hc & _).
    assert (udp_tab u !! i = Some c) as Huc by (unfold u; by destruct found).
    assert (onudp (get_pcb i) (Node h1 g (set_part u x)) = Some (c, Node h1 g (set_part u x))) as Hget.
    { rewrite (onudp_run (get_pcb i) h1 g (set_part u x) c u); [|by rewrite get_set_part; apply get_pcb_run].
      pose proof (set_get_part (set_part u x)) as Hid. rewrite get_set_part in Hid. by rewrite Hid. }
    mrun Hget. unfold to_user. rewrite Huc. simpl. by destruct (recv c).
  - change (current_iphdr_dest (ip_data ips)) with (d_dest d). destruct (ip_addr n =? d_dest d); [|done]. mrun (heap_run _ _ g (set_part u x) _ _ Hrm). unfold no_user. done.
Qed.

(** Too short for a header. *)
Lemma udp_input_short h g x p inp b :
  h_pbufs h !! p = Some b -> len b < UDP_HLEN -> udp_input p inp (Node h g x) = drop_datagram p (Node h g x).
Proof. intros Hb Hl. unfold udp_input. cbv zeta. mrun (heap_run _ _ g x _ _ (get_pbuf_run _ _ _ Hb)). by rewrite (proj2 (Z.ltb_lt _ _)). Qed.

End Input.
