(* ===== verification/UdpHeader.v ===== *)
(** * UDP: the pbuf of a datagram to send

    udp_sendto_if_src puts the header in front of the user's packet, or into a
    pbuf of its own in front of it. *)
From S2P Require Import Prelude Triple Def Pbuf PbufFacts PbufWrite PbufAlloc PbufPool PbufChain PbufRef PbufOwn PbufEdit.
From S2P Require Import Netif Node Ip4Addr Ethernet Etharp Ip4 Icmp Udp.

Section Header.
Context {E : PbufEnv}.

(** The heap after a header pbuf for [p] (the struct [b]) was chained in front. *)
Definition header_chained (h : heap) (p : positive) (b : pbuf) : heap :=
  let q := h_next h in
  patch p (set_ref (ref b + 1) b)
    (patch q (set_next (Some p) (set_tot_len (u16 (8 + tot_len b)) (ram_pbuf q PBUF_IP 8))) (with_new h (ram_size PBUF_IP 8) (ram_pbuf q PBUF_IP 8) 0 0)).

Lemma chain_header_run h p b :
  heap_wf h -> h_pbufs h !! p = Some b -> 0 <= ref b < 255 ->
  pbuf_chain (Some (h_next h)) (Some p) (with_new h (ram_size PBUF_IP 8) (ram_pbuf (h_next h) PBUF_IP 8) 0 0) = Some (tt, header_chained h p b).
Proof.
  intros Hwf Hb Hr. assert (p <> h_next h) as Hne by (intros ->; destruct (Hwf (h_next h)); [lia|congruence]).
  unfold pbuf_chain, pbuf_cat. set (h1 := with_new _ _ _ _ _). set (q := h_next h) in *.
  assert (h_pbufs h1 !! q = Some (ram_pbuf q PBUF_IP 8)) as Hq by apply lookup_insert_eq.
  assert (h_pbufs h1 !! p = Some b) as Hp by (simpl; by rewrite lookup_insert_ne).
  rewrite bind_assoc. rewrite bind_get. unfold chain_fuel at 1. cbn [pbuf_cat_loop]. rewrite !bind_assoc. mrun (get_pbuf_run _ _ _ Hq). cbn [next ram_pbuf].
  rewrite bind_ret. unfold pbuf_cat_link. rewrite !bind_assoc. mrun (get_pbuf_run _ _ _ Hq). rewrite !bind_assoc. mrun (get_pbuf_run _ _ _ Hp).
  rewrite !bind_assoc. mrun (upd_pbuf_run h1 q _ (set_tot_len (u16 (8 + tot_len b))) Hq).
  set (h2 := set_pbufs _ h1). set (bq := set_tot_len _ (ram_pbuf q PBUF_IP 8)) in *.
  assert (h_pbufs h2 !! q = Some bq) as Hq2 by apply lookup_insert_eq.
  mrun (upd_pbuf_run h2 q _ (set_next (Some p)) Hq2). set (h3 := set_pbufs _ h2).
  assert (h_pbufs h3 !! p = Some b) as Hp3 by (simpl; by rewrite !lookup_insert_ne).
  unfold pbuf_ref. rewrite (upd_pbuf_run h3 p b _ Hp3). rewrite u8_small by lia. unfold header_chained. fold q h1. do 3 f_equal.
  unfold h3, h2, patch, set_pbufs. simpl. by rewrite insert_insert_eq.
Qed.

Lemma good_perm n h H H' : H ≡ₚ H' -> good n h H -> good n h H'.
Proof. intros Hp [Hc Hw Ht]. split; [by rewrite <- Hp|done|done]. Qed.

Lemma sane_header_chained N R h p b :
  sane N (Some p) R h -> p ∈ R -> h_pbufs h !! p = Some b ->
  sane N None (h_next h :: R) (with_new h (ram_size PBUF_IP 8) (ram_pbuf (h_next h) PBUF_IP 8) 0 0) ->
  pbuf_chain (Some (h_next h)) (Some p) (with_new h (ram_size PBUF_IP 8) (ram_pbuf (h_next h) PBUF_IP 8) 0 0) = Some (tt, header_chained h p b) /\
  sane N None (h_next h :: R) (header_chained h p b).
Proof.
  intros Hs Hp Hb Hs1. pose proof (sane_good _ _ _ _ Hs) as [Hc Hwf _]. pose proof (sane_low _ _ _ _ Hs p b eq_refl Hb) as Hlow.
  pose proof (counted_ref _ _ Hc p b Hb) as [_ Hr]. pose proof (chain_header_run h p b Hwf Hb ltac:(lia)) as Hrun. split; [exact Hrun|].
  set (h1 := with_new _ _ _ _ _) in *. set (q := h_next h) in *.
  assert (p <> q) as Hne by (intros ->; destruct (Hwf q); [unfold q; lia|congruence]).
  assert (h_pbufs h1 !! p = Some b) as Hp1 by (simpl; by rewrite lookup_insert_ne).
  assert (h_pbufs h1 !! q = Some (ram_pbuf q PBUF_IP 8)) as Hq1 by apply lookup_insert_eq.
  assert (disjoint_chains h1 q p) as Hd.
  { intros lq lp Hlq Hlp i Hi Hi'. apply chain_inv in Hlq as (bq & r & -> & Hbq & Hr'). assert (bq = ram_pbuf q PBUF_IP 8) as -> by congruence.
    apply chain_None in Hr' as ->. simpl in Hi. apply list_elem_of_singleton in Hi as ->.
    destruct (counted_chain _ _ Hc p b Hb) as [l Hl]. pose proof (extends_chain h h1 (Some p) l Hwf (with_new_extends _ _ _ _ _) Hl) as Hl1.
    rewrite (chain_det _ _ _ _ Hlp Hl1) in Hi'. apply list_elem_of_fmap in Hi' as ([j c] & Hj & Hin). simpl in Hj. subst j.
    pose proof (chain_lookup _ _ _ _ _ Hl Hin) as Hqh. destruct (Hwf q); [unfold q; lia|congruence]. }
  pose proof (sane_good _ _ _ _ Hs1) as Hg1.
  assert (p ∈ R ++ backing N) as HpR by (apply elem_of_app; by left). apply give_up_Permutation in HpR as Hperm.
  assert (good (pool_size N) h1 (p :: (q :: yields p (R ++ backing N)))) as Hg2.
  { eapply good_perm; [|exact Hg1]. simpl. rewrite Permutation_swap. f_equiv. exact Hperm. }
  destruct (pbuf_chain_good (pool_size N) h1 (q :: yields p (R ++ backing N)) q p b Hg2 ltac:(by eexists) Hd Hp1 Hlow) as (h2 & Hr2 & Hg3).
  rewrite Hrun in Hr2. injection Hr2 as <-.
  assert (p ∉ kept N /\ q ∉ kept N) as [Hpk Hqk].
  { pose proof (sane_kept _ _ _ _ Hs1) as HK. rewrite Forall_forall in HK. split; intros Hin;
      (eapply (kept_alone h1 (q :: R) N _ FRAME_HEADERS (good_counted _ _ _ Hg1)); [by apply HK|done|]); apply elem_of_cons; auto. }
  split; [| |done|].
  - eapply good_perm; [|exact Hg3]. simpl. rewrite Permutation_swap. f_equiv. by symmetry.
  - apply own_upd; [apply own_upd; [apply (sane_own _ _ _ _ Hs1)|]|].
    + eapply own_ok_eq; [by apply (sane_own _ _ _ _ Hs1)|done..].
    + eapply own_ok_eq; [by apply (sane_own _ _ _ _ Hs1)|done..].
  - assert (h_pbufs (patch q (set_next (Some p) (set_tot_len (u16 (8 + tot_len b)) (ram_pbuf q PBUF_IP 8))) h1) !! p = Some b) as Hp2
      by (simpl; by rewrite !lookup_insert_ne).
    eapply upd_readable; [exact Hp2|by intros|]. eapply upd_readable; [exact Hq1|by intros|]. apply (sane_kept _ _ _ _ Hs1).
Qed.

(** The new reference, if the header has a pbuf of its own. *)
Definition header_ref (q p : positive) : list positive := if decide (q = p) then [] else [q].

Lemma sane_header_pbuf N R h p :
  sane N (Some p) R h -> p ∈ R ->
  exists r h', udp_header_pbuf p h = Some (r, h') /\
    match r with
    | None => sane N None R h'
    | Some q => sane N (Some q) (header_ref q p ++ R) h' /\ readable h' q 8
    end.
Proof.
  intros Hs Hp. destruct (sane_live _ _ _ _ _ Hs Hp) as (b & Hb & Hown). destruct Hown as [_ _ _ (o & bs & Hpl & _)].
  pose proof (good_wf _ _ _ (sane_good _ _ _ _ Hs)) as Hwf.
  unfold udp_header_pbuf. destruct (sane_added N (Some p) R h p b o UDP_HLEN Hs Hp Hb Hpl ltac:(by unfold UDP_HLEN)) as (x & h1 & Hr & Hs1 & Hsame & Hmv & _).
  mrun Hr. destruct x.
  2:{ exists (Some p), h1. split; [done|]. unfold header_ref. rewrite decide_True by done. split; [done|].
      destruct (sane_add_header N (Some p) R h p UDP_HLEN Hs Hp ltac:(by unfold UDP_HLEN)) as (r & h2 & Hr2 & _ & Hrd). rewrite Hr in Hr2. injection Hr2 as <- <-.
      by apply Hrd. }
  rewrite (Hsame eq_refl) in *. clear Hsame Hmv. unfold UDP_HLEN.
  destruct (sane_alloc_ram N (Some p) R h PBUF_IP 8 Hs ltac:(lia)) as ([q|] & h2 & Hal & Hs2 & Heq); mrun Hal.
  2:{ exists None, h2. split; [done|]. by eapply sane_weaken. }
  destruct Heq as [-> ->]. set (q := h_next h) in *. cbn [option_list app] in Hs2.
  assert (p <> q) as Hne by (intros ->; destruct (Hwf q); [unfold q; lia|congruence]).
  set (h2 := with_new _ _ _ _ _) in *. assert (h_pbufs h2 !! p = Some b) as Hb2 by (simpl; by rewrite lookup_insert_ne).
  assert (h_pbufs h2 !! q = Some (ram_pbuf q PBUF_IP 8)) as Hq2 by apply lookup_insert_eq.
  mrun (get_pbuf_run _ _ _ Hb2). exists (Some q). unfold header_ref. rewrite decide_False by done. destruct (negb (tot_len b =? 0)).
  - destruct (sane_header_chained N R h p b Hs Hp Hb ltac:(by eapply sane_weaken)) as [Hrun Hs3]. fold q h2 in Hrun, Hs3. mrun Hrun.
    eexists. split; [done|]. assert (h_pbufs (header_chained h p b) !! q = Some (set_next (Some p) (set_tot_len (u16 (8 + tot_len b)) (ram_pbuf q PBUF_IP 8)))) as Hq3.
    { unfold header_chained, patch. cbn [h_pbufs set_pbufs]. fold q. rewrite lookup_insert_ne by done. by rewrite lookup_insert_eq. }
    split; [eapply sane_watch; [exact Hs3|]|].
    + intros c. rewrite Hq3. by intros [= <-].
    + eexists _, _, _. split; [exact Hq3|]. split; [done|]. split; [apply lookup_insert_eq|]. rewrite length_junk_block by (by vm_compute). by vm_compute.
  - exists h2. split; [done|]. split; [eapply sane_watch; [exact Hs2|]|].
    + intros c. rewrite Hq2. by intros [= <-].
    + eexists _, _, _. split; [exact Hq2|]. split; [done|]. split; [apply lookup_insert_eq|]. rewrite length_junk_block by (by vm_compute). by vm_compute.
Qed.

End Header.
