(* ===== verification/Ip4Frame.v ===== *)
(** * IPv4 and ICMP: what follows from what they are made of

    A property of runs that sequencing preserves, and that the steps of IP have
    - accesses to pbufs, to IP's variables and to the netifs, etharp_output,
    fragments and the transport layers - is a property of ip4_input and of the
    output functions. *)
From S2P Require Import Prelude Triple Def Pbuf Netif Node Ip4Addr InetChksum Ethernet Etharp Ip4 Icmp Ip4Input.

Section Closed.
Context {E : PbufEnv} {X : Type} {LL : LinkLayer X} {AP : part X arp} {IP : part X ip_state} {FR : IpFragments X}.
Context {AD : Addresses} {TR : Transport X}.
Context (K : forall A, M (node X) A -> Prop).
Hypothesis K_ret : forall A (a : A), K A (mret a).
Hypothesis K_bind : forall A B (m : M (node X) A) (f : A -> M (node X) B), K A m -> (forall a, K B (f a)) -> K B (m ≫= f).
Hypothesis K_lift : forall A (o : option A), K A (lift o).
Hypothesis K_heap : forall A (m : M heap A), K A (onheap m).
Hypothesis K_ip : forall A (m : M ip_state A), K A (onip m).
Hypothesis K_netifs : K netifs (zoom get).
Hypothesis K_output : forall i p ip, K err_t (etharp_output i p ip).
Hypothesis K_frag : forall p i ip, K err_t (ip4_frag p i ip).
Create HintDb closed.
#[local] Hint Resolve K_ret K_lift K_heap K_ip K_netifs K_output K_frag : closed.

Ltac closed_tac :=
  repeat first
    [ solve [eauto with closed]
    | apply K_bind; intros
    | match goal with |- K _ (match ?x with _ => _ end) => destruct x end ].

Lemma closed_netif i : K _ (get_netif i).
Proof. unfold get_netif; closed_tac. Qed.
#[local] Hint Resolve closed_netif : closed.
Lemma closed_route dest : K _ (ip4_route dest).
Proof. unfold ip4_route; closed_tac. Qed.
#[local] Hint Resolve closed_route : closed.
Lemma closed_netif_output i p ip : K _ (netif_output i p ip).
Proof. unfold netif_output; closed_tac. Qed.
#[local] Hint Resolve closed_netif_output : closed.
Lemma closed_transmit p dest i : K _ (ip4_transmit p dest i).
Proof. unfold ip4_transmit; closed_tac. Qed.
#[local] Hint Resolve closed_transmit : closed.
Lemma closed_output_if_src p src dest ttl tos proto i : K _ (ip4_output_if_src p src dest ttl tos proto i).
Proof. unfold ip4_output_if_src; closed_tac. Qed.
#[local] Hint Resolve closed_output_if_src : closed.
Lemma closed_output_if p src dest ttl tos proto i : K _ (ip4_output_if p src dest ttl tos proto i).
Proof. unfold ip4_output_if; closed_tac. Qed.
#[local] Hint Resolve closed_output_if : closed.
Lemma closed_ip4_output p src dest ttl tos proto : K _ (ip4_output p src dest ttl tos proto).
Proof. unfold ip4_output; closed_tac. Qed.

Lemma closed_echo_reply p inp src dest hlen : K _ (icmp_echo_reply p inp src dest hlen).
Proof. unfold icmp_echo_reply; closed_tac. Qed.
#[local] Hint Resolve closed_echo_reply : closed.
Lemma closed_icmp_input p inp : K _ (icmp_input p inp).
Proof. unfold icmp_input; closed_tac. Qed.
Lemma closed_send_response p type code : K _ (icmp_send_response p type code).
Proof. unfold icmp_send_response; closed_tac. Qed.

Hypothesis K_reass : forall p, K _ (ip4_reass p).
Hypothesis K_udp : forall p i, K _ (udp_input_call p i).
Hypothesis K_tcp : forall p i, K _ (tcp_input_call p i).
#[local] Hint Resolve K_reass K_udp K_tcp closed_icmp_input closed_send_response : closed.

Lemma closed_deliver p inp i iphdr hlen : K _ (ip4_deliver p inp i iphdr hlen).
Proof. unfold ip4_deliver, modify_ip_data, icmp_dest_unreach; closed_tac. Qed.
#[local] Hint Resolve closed_deliver : closed.
Lemma closed_ip4_input p inp : K _ (ip4_input p inp).
Proof. unfold ip4_input, modify_ip_data; closed_tac. Qed.

End Closed.
