(* ===== verification/UdpFrame.v ===== *)
(** * UDP: what follows from what it is made of

    As Ip4Frame: a property of runs that sequencing preserves and that the steps
    of UDP have is a property of udp_input and of the functions that send. *)
From S2P Require Import Prelude Triple Def Pbuf Netif Node Ip4Addr InetChksum Ethernet Etharp Ip4 Icmp Ip4Frame Udp.

Section Closed.
Context {E : PbufEnv} {X : Type} {LL : LinkLayer X} {AP : part X arp} {IP : part X ip_state} {FR : IpFragments X}.
Context {AD : Addresses} {UD : part X udp_state} {UU : UdpUser X}.
Context (K : forall A, M (node X) A -> Prop).
Hypothesis K_ret : forall A (a : A), K A (mret a).
Hypothesis K_bind : forall A B (m : M (node X) A) (f : A -> M (node X) B), K A m -> (forall a, K B (f a)) -> K B (m ≫= f).
Hypothesis K_lift : forall A (o : option A), K A (lift o).
Hypothesis K_heap : forall A (m : M heap A), K A (onheap m).
Hypothesis K_ip : forall A (m : M ip_state A), K A (onip m).
Hypothesis K_udp : forall A (m : M udp_state A), K A (onudp m).
Hypothesis K_netifs : K netifs (zoom get).
Hypothesis K_output : forall i p ip, K err_t (etharp_output i p ip).
Hypothesis K_frag : forall p i ip, K err_t (ip4_frag p i ip).
#[local] Hint Resolve K_ret K_lift K_heap K_ip K_udp K_netifs K_output K_frag : closed.

Ltac udp_closed_tac :=
  repeat first
    [ solve [eauto with closed]
    | apply K_bind; intros
    | match goal with |- K _ (match ?x with _ => _ end) => destruct x end ].

Lemma udp_closed_netif i : K _ (get_netif i).
Proof. by apply (closed_netif K). Qed.
Lemma udp_closed_route dest : K _ (ip4_route dest).
Proof. by apply (closed_route K). Qed.
Lemma udp_closed_output p src dest ttl tos proto i : K _ (ip4_output_if_src p src dest ttl tos proto i).
Proof. by apply (closed_output_if_src K). Qed.
Lemma udp_closed_unreach p code : K _ (icmp_dest_unreach p code).
Proof. unfold icmp_dest_unreach. by apply (closed_send_response K). Qed.
#[local] Hint Resolve udp_closed_netif udp_closed_route udp_closed_output udp_closed_unreach : closed.

Lemma closed_udp_input (K_recv : forall f a i p src sport, K _ (udp_recv_call f a i p src sport)) p inp : K _ (udp_input p inp).
Proof. unfold udp_input; udp_closed_tac. Qed.

Lemma closed_sendto_if_src pcb p dst port i src : K _ (udp_sendto_if_src pcb p dst port i src).
Proof. unfold udp_sendto_if_src; udp_closed_tac. Qed.
#[local] Hint Resolve closed_sendto_if_src : closed.
Lemma closed_sendto_if pcb p dst port i : K _ (udp_sendto_if pcb p dst port i).
Proof. unfold udp_sendto_if; udp_closed_tac. Qed.
#[local] Hint Resolve closed_sendto_if : closed.
Lemma closed_sendto pcb p dst port : K _ (udp_sendto pcb p dst port).
Proof. unfold udp_sendto, netif_get_by_index; udp_closed_tac. Qed.
#[local] Hint Resolve closed_sendto : closed.
Lemma closed_send pcb p : K _ (udp_send pcb p).
Proof. unfold udp_send; udp_closed_tac. Qed.

End Closed.
