(* ===== verification/Ip4Header.v ===== *)
(** * IPv4: the header ip4_output_if_src writes *)
From S2P Require Import Prelude Triple Def Pbuf PbufFacts PbufWrite PbufAlloc PbufPool PbufChain PbufRef PbufOwn PbufEdit.
From S2P Require Import Netif Node Ip4Addr InetChksum Ethernet Etharp Ip4 Ip4Facts.

(** A header without options, RFC 791: version and length, type of service, total
    length, identification, no flags and offset, TTL, protocol, checksum; the
    addresses are kept in network order. *)
Definition ip_header (tos len id ttl proto c src dest : Z) : list Z :=
  [0x45; tos; len / 256; len mod 256; id / 256; id mod 256; 0; 0; ttl; proto] ++ st16 c ++ st32 src ++ st32 dest.

Record header_ranges (tos len id ttl proto src dest : Z) : Prop := {
  range_tos : 0 <= tos < 256;
  range_len : 0 <= len < 65536;
  range_id : 0 <= id < 65536;
  range_ttl : 0 <= ttl < 256;
  range_proto : 0 <= proto < 256;
  range_src : 0 <= src < 4294967296;
  range_dest : 0 <= dest < 4294967296;
}.

Lemma st16_ok v : bytes_ok (st16 v).
Proof. by repeat (apply Forall_cons_2; [apply Z.mod_pos_bound; lia|]). Qed.

Lemma ip_header_ok tos len id ttl proto c src dest :
  header_ranges tos len id ttl proto src dest -> bytes_ok (ip_header tos len id ttl proto c src dest).
Proof.
  intros [? ? ? ? ? ? ?]. unfold ip_header.
  apply bytes_ok_app. split; [repeat apply Forall_cons_2; unfold is_byte; (done || ulia)|].
  apply bytes_ok_app. split; [apply st16_ok|]. apply bytes_ok_app. by split; apply st32_ok.
Qed.

(** ** The checksum *)

(** When a checksum says that nothing was damaged. *)
Lemma inet_chksum_zero addr d :
  bytes_ok d -> lenZ d <= 65536 -> (inet_chksum addr d = 0 <-> osum d mod 65535 = 0 /\ osum d <> 0).
Proof.
  intros Hd Hl. rewrite inet_chksum_eq by done. pose proof (osum_nonneg d Hd). unfold ocsum.
  destruct (Z.eqb_spec (osum d) 0) as [E|E]; [lia|].
  pose proof (Z.div_mod (osum d - 1) 65535 ltac:(lia)). pose proof (Z.mod_pos_bound (osum d - 1) 65535 ltac:(lia)).
  pose proof (Z.div_mod (osum d) 65535 ltac:(lia)). pose proof (Z.mod_pos_bound (osum d) 65535 ltac:(lia)).
  split; [|intros [? _]; lia]. intros ?. split; [|done].
  assert (osum d = 65535 * ((osum d - 1) / 65535 + 1)) as -> by lia. rewrite Z.mul_comm. apply Z.mod_mul. lia.
Qed.

Lemma PP_HTONS_pair hi lo : 0 <= hi < 256 -> 0 <= lo < 256 -> PP_HTONS (Z.lor lo (Z.shiftl hi 8)) = hi + 256 * lo.
Proof.
  intros Hh Hl. rewrite Z.lor_comm, lor_shiftl_add by (change (2 ^ 8) with 256; lia). change (2 ^ 8) with 256.
  change (PP_HTONS ?x) with (lwip_htons x). rewrite lwip_htons_eq by lia. ulia.
Qed.

Lemma land_low v : Z.land v 0xFFFF = v mod 65536.
Proof. apply land_0xffff. Qed.

Lemma osum_ip_header tos len id ttl proto c src dest :
  header_ranges tos len id ttl proto src dest -> 0 <= c < 65536 ->
  osum (ip_header tos len id ttl proto c src dest) =
    (0x45 + 256 * tos) + lwip_htons len + lwip_htons id + (ttl + 256 * proto) + c +
    (src mod 65536 + src / 65536) + (dest mod 65536 + dest / 65536).
Proof.
  intros [? ? ? ? ? ? ?] Hc. unfold ip_header. rewrite !lwip_htons_eq by done.
  rewrite !(proj1 (osum_app _ _)). change (Z.even (lenZ (_ :: _))) with true.
  change (Z.even (lenZ (st16 c))) with true. change (Z.even (lenZ (st32 src))) with true. cbv iota.
  rewrite !osum_st32 by done. rewrite !land_low, !Z.shiftr_div_pow2 by done. change (2 ^ 16) with 65536.
  rewrite (Z.mod_small (src / 65536)), (Z.mod_small (dest / 65536)) by (split; [apply Z.div_pos|apply Z.div_lt_upper_bound]; lia).
  unfold st16. cbn [osum]. assert (c mod 256 + 256 * ((c / 256) mod 256) = c) by ulia. lia.
Qed.

(** The end of the inline computation: two folds, and the low half of the
    complement. *)
Lemma fold_twice s :
  0 <= s < 4294836225 ->
  u16 (Z.lnot (u32 (Z.shiftr (u32 (Z.shiftr s 16 + Z.land s 0xFFFF)) 16 + u32 (Z.shiftr s 16 + Z.land s 0xFFFF)))) = 65535 - ocsum s.
Proof.
  intros Hs. change (u32 (Z.shiftr s 16 + Z.land s 0xFFFF)) with (FOLD_U32T s).
  pose proof (fold2_bound s Hs) as Hb. destruct (fold_eq s ltac:(lia)) as (Hf & ? & ? & ?).
  pose proof (oc_ocsum _ _ (oc_fold _ _ (oc_fold _ _ (oc_refl s ltac:(lia)) ltac:(lia)) ltac:(lia)) ltac:(lia) Hb) as Ho.
  rewrite <- Ho. destruct (fold_eq (FOLD_U32T s) ltac:(lia)) as (Hf2 & ? & ? & ?). rewrite Hf2 in Hb |- *.
  set (x := FOLD_U32T s) in *. rewrite Z.shiftr_div_pow2 by done. change (2 ^ 16) with 65536. rewrite u32_small by lia.
  unfold Z.lnot, u16. symmetry. apply (Z.mod_unique_pos _ _ (- (x / 65536) - 1)); lia.
Qed.

Lemma header_chksum_spec len ttl tos proto id src dest :
  header_ranges tos len id ttl proto src dest ->
  header_chksum len ttl tos proto id src dest = 65535 - ocsum (osum (ip_header tos len id ttl proto 0 src dest)).
Proof.
  intros Hr. rewrite osum_ip_header by done. pose proof Hr as [? ? ? ? ? ? ?]. unfold header_chksum. cbv zeta.
  change (u8 (Z.lor (Z.shiftl 4 4) (IP_HLEN / 4))) with 0x45. rewrite (PP_HTONS_pair ttl proto), (PP_HTONS_pair 0x45 tos) by lia.
  rewrite !land_low, !(Z.shiftr_div_pow2 src), !(Z.shiftr_div_pow2 dest) by done. change (2 ^ 16) with 65536.
  pose proof (lwip_htons_bound len). pose proof (lwip_htons_bound id).
  assert (forall v, 0 <= v < 4294967296 -> 0 <= v mod 65536 < 65536 /\ 0 <= v / 65536 < 65536) as Hv
    by (intros; split; [apply Z.mod_pos_bound; lia|split; [apply Z.div_pos|apply Z.div_lt_upper_bound]; lia]).
  pose proof (Hv src ltac:(lia)). pose proof (Hv dest ltac:(lia)).
  set (s := u32 (_ + src / 65536)).
  assert (s = 0 + (ttl + 256 * proto) + dest mod 65536 + dest / 65536 + (69 + 256 * tos) + lwip_htons len + lwip_htons id +
    src mod 65536 + src / 65536) as Es.
  { unfold s. repeat match goal with |- context [u32 ?x] =>
      lazymatch x with context [u32 _] => fail | _ => rewrite (u32_small x) by lia end end. done. }
  rewrite <- land_low, fold_twice by lia. do 2 f_equal. lia.
Qed.

(** The header it writes verifies, wherever it is in memory. *)
Lemma ip_header_verifies addr len ttl tos proto id src dest :
  header_ranges tos len id ttl proto src dest ->
  inet_chksum addr (ip_header tos len id ttl proto (header_chksum len ttl tos proto id src dest) src dest) = 0.
Proof.
  intros Hr. pose proof (ip_header_ok tos len id ttl proto 0 src dest Hr) as Hok. pose proof (osum_nonneg _ Hok) as Hs.
  pose proof (ocsum_bound (osum (ip_header tos len id ttl proto 0 src dest))) as Hb.
  rewrite header_chksum_spec by done. set (s := osum (ip_header tos len id ttl proto 0 src dest)) in *.
  rewrite inet_chksum_eq; [|by apply ip_header_ok|simpl; lia].
  assert (osum (ip_header tos len id ttl proto (65535 - ocsum s) src dest) = s + (65535 - ocsum s)) as ->.
  { unfold s. rewrite !osum_ip_header by (done || (fold s; lia)). lia. }
  rewrite ocsum_complement by done. lia.
Qed.

(** ** Writing into the middle of a block *)

Definition with_block (q : positive) (bs : list Z) (h : heap) : heap := set_mem (<[q := bs]> (h_mem h)) h.

Lemma with_block_twice q bs bs' h : with_block q bs (with_block q bs' h) = with_block q bs h.
Proof. unfold with_block, set_mem. simpl. by rewrite insert_insert_eq. Qed.
Lemma with_block_id q bs h : h_mem h !! q = Some bs -> with_block q bs h = h.
Proof. intros Hq. unfold with_block, set_mem. rewrite insert_id by done. by destruct h. Qed.
Lemma with_block_mem q bs h : h_mem (with_block q bs h) !! q = Some bs.
Proof. apply lookup_insert_eq. Qed.

Section Window.
Context (q : positive) (pre post : list Z) (h : heap).

(** The heap with [mid] between [pre] and [post]. *)
Definition window (mid : list Z) : heap := with_block q (pre ++ mid ++ post) h.

Lemma window_store mid o i v :
  o = lenZ pre -> 0 <= i -> i + lenZ v <= lenZ mid ->
  store (Some (Ptr q o)) i v (window mid) = Some (tt, window (overwrite mid i v)).
Proof.
  intros -> Hi Hv. unfold store. destruct (lenZ v =? 0) eqn:E0; b2p.
  { assert (v = []) as -> by (by apply length_zero_iff_nil; lia). by rewrite overwrite_nil. }
  unfold window at 1 2. rewrite with_block_mem, !length_app.
  rewrite (proj2 (Z.leb_le 0 (lenZ pre + i))), (proj2 (Z.leb_le (lenZ pre + i + lenZ v) _)) by lia. cbn [andb].
  rewrite overwrite_app_r by lia. replace (lenZ pre + i - lenZ pre) with i by lia. rewrite overwrite_app_l by lia.
  unfold window, with_block, set_mem. simpl. by rewrite insert_insert_eq.
Qed.
Lemma window_load mid o i n :
  o = lenZ pre -> 0 <= i -> 0 <= n -> i + n <= lenZ mid ->
  load (Some (Ptr q o)) i n (window mid) = Some (slice mid i n, window mid).
Proof.
  intros -> Hi Hn Hl. rewrite (load_run (window mid) q (lenZ pre) (pre ++ mid ++ post) i n); [|apply with_block_mem|lia|lia|rewrite !length_app; lia].
  rewrite slice_app_r by lia. replace (lenZ pre + i - lenZ pre) with i by lia.
  rewrite slice_app_split by lia. rewrite Z.min_l by lia. by rewrite Z.sub_diag, slice_0_0, app_nil_r.
Qed.
End Window.

Lemma window_split h q bs o n :
  h_mem h !! q = Some bs -> 0 <= o -> 0 <= n -> o + n <= lenZ bs ->
  exists pre post, bs = pre ++ slice bs o n ++ post /\ lenZ pre = o /\ h = window q pre post h (slice bs o n).
Proof.
  intros Hq Ho Hn Hl. exists (take (Z.to_nat o) bs), (drop (Z.to_nat (o + n)) bs).
  assert (bs = take (Z.to_nat o) bs ++ slice bs o n ++ drop (Z.to_nat (o + n)) bs) as E by (by rewrite <- drop_slice, take_drop by lia).
  split; [done|]. split; [rewrite length_take; lia|]. unfold window. rewrite <- E. symmetry. by apply with_block_id.
Qed.

(** The bytes of a field. *)
Lemma slice_mid (a b c : list Z) i n : lenZ a = i -> lenZ b = n -> slice (a ++ b ++ c) i n = b.
Proof.
  intros <- <-. rewrite slice_app_r by lia. rewrite Z.sub_diag, slice_app_split by lia. rewrite Z.sub_0_r, Z.min_l by lia.
  by rewrite Z.sub_diag, slice_0_0, app_nil_r, slice_full.
Qed.

Lemma overwrite_mid (a b c v : list Z) i : lenZ a = i -> length v = length b -> overwrite (a ++ b ++ c) i v = a ++ v ++ c.
Proof.
  intros <- Hv. rewrite overwrite_app_r by lia. rewrite Z.sub_diag, overwrite_app_l by lia. do 2 f_equal.
  unfold overwrite. rewrite take_0. simpl. rewrite Hv, drop_all. apply app_nil_r.
Qed.

Section Run.
Context {E : PbufEnv} {X : Type} {LL : LinkLayer X} {AP : part X arp} {IP : part X ip_state} {FR : IpFragments X}.

(** Twenty bytes are written one field after the other. *)
Lemma header_stores mid tos len id ttl proto c src dest :
  lenZ mid = 20 -> 0 <= len < 65536 -> 0 <= id < 65536 ->
  overwrite (overwrite (overwrite (overwrite (overwrite (overwrite (overwrite (overwrite (overwrite (overwrite mid
    8 [ttl]) 9 [proto]) 16 (st32 dest)) 0 [u8 (Z.lor (Z.shiftl 4 4) (IP_HLEN / 4))]) 1 [tos]) 2 (st16 (lwip_htons len))) 6 (st16 0))
    4 (st16 (lwip_htons id))) 12 (st32 src)) 10 (st16 c) = ip_header tos len id ttl proto c src dest.
Proof.
  intros Hm Hl Hi. rewrite !st16_htons by done. do 20 (destruct mid as [|? mid]; [done|]). destruct mid; [|simpl in Hm; lia]. done.
Qed.

(** The next store of the header, by [Hst]. *)
Ltac wstore Hst :=
  match goal with
  | Hm : lenZ ?m = 20 |- (zoom (store _ ?i ?v) ≫= _) (Node (_ ?m) _ ?y) = _ =>
      let Hr := fresh in let Hl := fresh in destruct (Hst m y i v Hm ltac:(lia) ltac:(simpl; lia)) as [Hr Hl]; mrun Hr; clear Hr Hm
  end.

Lemma output_if_src_run h g x p b o bs i ttl tos proto src dest :
  h_pbufs h !! p = Some b -> payload b = Some (Ptr p o) -> h_mem h !! p = Some bs ->
  Z.land (type_internal b) PBUF_TYPE_FLAG_STRUCT_DATA_CONTIGUOUS <> 0 ->
  SIZEOF_STRUCT_PBUF + 20 <= o <= lenZ bs -> 0 <= tot_len b -> tot_len b + 20 < 65536 -> 0 <= ip_id (ip_of (Node h g x)) < 65536 ->
  let id := ip_id (ip_of (Node h g x)) in
  let hd c := ip_header tos (tot_len b + 20) id ttl proto c (default IPADDR_ANY src) dest in
  ip4_output_if_src p src (Some dest) ttl tos proto i (Node h g x) =
    ip4_transmit p dest i
      (Node (with_block p (overwrite bs (o - 20) (hd (header_chksum (tot_len b + 20) ttl tos proto id (default IPADDR_ANY src) dest)))
        (patch p (move_payload b p o 20) h)) g (set_part (set_ip_id (u16 (id + 1)) (get_part x)) x)).
Proof.
  intros Hb Hpl Hbs Hct Ho H0 Ht Hid id hd. unfold SIZEOF_STRUCT_PBUF in Ho. unfold ip4_output_if_src.
  pose proof (pbuf_add_header_run h p b o IP_HLEN Hb Hpl Hct) as Hadd. unfold IP_HLEN, SIZEOF_STRUCT_PBUF in *.
  mrun (heap_run _ _ g x _ _ (Hadd ltac:(done) ltac:(lia) ltac:(lia) ltac:(lia))). clear Hadd.
  set (b1 := move_payload b p o 20). fold (patch p b1 h).
  assert (h_pbufs (patch p b1 h) !! p = Some b1) as Hb1 by apply lookup_insert_eq.
  mrun (heap_run _ _ g x _ _ (get_pbuf_run _ _ _ Hb1)). cbv zeta. change (payload b1) with (Some (Ptr p (o - 20))).
  change (tot_len b1) with (u16 (tot_len b + 20)). rewrite u16_small by lia.
  destruct (window_split (patch p b1 h) p bs (o - 20) 20 Hbs ltac:(lia) ltac:(lia) ltac:(lia)) as (pre & post & Ebs & Hpre & Hw).
  pose proof (length_slice bs (o - 20) 20 ltac:(lia) ltac:(lia) ltac:(lia)) as Hmid. set (mid := slice bs (o - 20) 20) in *.
  assert (forall c, lenZ (hd c) = 20) as Hhd by done.
  assert (forall c, with_block p (overwrite bs (o - 20) (hd c)) (patch p b1 h) = window p pre post (patch p b1 h) (hd c)) as ->.
  { intros c. unfold window. f_equal. rewrite Ebs at 1. apply overwrite_mid; [done|]. pose proof (Hhd c). lia. }
  rewrite Hw at 1. set (W := window p pre post (patch p b1 h)).
  assert (forall m y i v, lenZ m = 20 -> 0 <= i -> i + lenZ v <= 20 ->
    (onheap (store (Some (Ptr p (o - 20))) i v) : M (node X) unit) (Node (W m) g y) = Some (tt, Node (W (overwrite m i v)) g y) /\ lenZ (overwrite m i v) = 20) as Hst.
  { intros m y j v Hm Hj Hv. split; [|rewrite length_overwrite; lia]. apply heap_run. apply window_store; lia. }
  pose proof Hmid as Hmid0. clearbody mid. do 7 wstore Hst. rewrite (bind_run _ _ _ _ _ (onip_get_run _ g x)). cbv beta. wstore Hst.
  rewrite (bind_run _ _ _ _ _ (onip_put_run _ _ g x)). cbv beta. do 2 wstore Hst.
  do 2 f_equal. f_equal. apply header_stores; [done|lia|exact Hid].
Qed.

(** What ip4_transmit decides. *)
Lemma transmit_run h g x p b dest i n :
  nif g !! i = Some n -> h_pbufs h !! p = Some b ->
  ip4_transmit p dest i (Node h g x) =
    (if negb (mtu n =? 0) && (mtu n <? tot_len b) then ip4_frag p i dest else netif_output i p dest) (Node h g x).
Proof.
  intros Hn Hb. unfold ip4_transmit. mrun (get_netif_run h g x i n Hn). mrun (heap_run _ _ g x _ _ (get_pbuf_run _ _ _ Hb)). by destruct (_ && _).
Qed.

End Run.
