(* ===== verification/UdpSend.v ===== *)
(** * UDP: a datagram sent, byte by byte *)
From S2P Require Import Prelude Triple Def Pbuf PbufFacts PbufWrite PbufAlloc PbufPool PbufChain PbufRef PbufOwn PbufEdit.
From S2P Require Import Netif Node Ip4Addr InetChksum Ethernet EthernetFacts Etharp Ip4 Icmp Ip4Facts Ip4Header Udp UdpFacts UdpDemux UdpHeader.

(** The header of RFC 768; the checksum [k] as it is in memory. *)
Definition udp_header (sport dport n k : Z) : list Z :=
  [sport / 256; sport mod 256; dport / 256; dport mod 256; n / 256; n mod 256] ++ st16 k.

(** The checksum that goes with it: never 0, which means none. *)
Definition udp_chksum (src dst sport dport n : Z) (d : list Z) : Z :=
  let k := 65535 - ocsum (osum (pseudo_header src dst IP_PROTO_UDP n ++ udp_header sport dport n 0 ++ d)) in
  if k =? 0 then 0xffff else k.

Lemma udp_stores j d sport dport n k :
  length j = 8%nat -> 0 <= sport < 65536 -> 0 <= dport < 65536 -> 0 <= n < 65536 ->
  overwrite (overwrite (overwrite (overwrite (j ++ d) 0 (st16 (lwip_htons sport))) 2 (st16 (lwip_htons dport))) 6 (st16 0)) 4 (st16 (lwip_htons n))
    = udp_header sport dport n 0 ++ d /\
  overwrite (udp_header sport dport n 0 ++ d) 6 (st16 k) = udp_header sport dport n k ++ d.
Proof.
  intros Hj Hs Hd Hn. rewrite !st16_htons by done. do 8 (destruct j as [|? j]; [done|]). by destruct j.
Qed.

Lemma be16_ok v : 0 <= v < 65536 -> bytes_ok [v / 256; v mod 256].
Proof.
  intros Hv. repeat apply Forall_cons_2; [..|apply Forall_nil_2]; [|apply Z.mod_pos_bound; lia].
  split; [apply Z.div_pos; lia|apply Z.div_lt_upper_bound; lia].
Qed.
Lemma udp_header_ok sport dport n k : 0 <= sport < 65536 -> 0 <= dport < 65536 -> 0 <= n < 65536 -> bytes_ok (udp_header sport dport n k).
Proof.
  intros Hs Hd Hn. change (udp_header sport dport n k) with ([sport / 256; sport mod 256] ++ [dport / 256; dport mod 256] ++ [n / 256; n mod 256] ++ st16 k).
  rewrite !bytes_ok_app. split_and!; try by apply be16_ok. apply st16_ok.
Qed.
Lemma pseudo_header_ok src dst proto n :
  0 <= src < 4294967296 -> 0 <= dst < 4294967296 -> 0 <= proto < 256 -> 0 <= n < 65536 -> bytes_ok (pseudo_header src dst proto n).
Proof.
  intros Hs Hd Hp Hn. unfold pseudo_header. rewrite !bytes_ok_app. split_and!; [by apply st32_ok..|].
  apply (Forall_app_2 _ [0; proto]); [repeat apply Forall_cons_2; (done || apply Forall_nil_2)|by apply be16_ok].
Qed.

(** The receiver's sum over the pseudo header and the datagram is all ones. *)
Lemma udp_chksum_verifies src dst sport dport n d :
  0 <= src < 4294967296 -> 0 <= dst < 4294967296 -> 0 <= sport < 65536 -> 0 <= dport < 65536 -> 0 <= n < 65536 -> bytes_ok d ->
  0 < udp_chksum src dst sport dport n d < 65536 /\
  ocsum (osum (pseudo_header src dst IP_PROTO_UDP n ++ udp_header sport dport n (udp_chksum src dst sport dport n d) ++ d)) = 65535.
Proof.
  intros Hs Hd Hsp Hdp Hn Hok. unfold udp_chksum. cbv zeta.
  set (a := pseudo_header src dst IP_PROTO_UDP n ++ [sport / 256; sport mod 256; dport / 256; dport mod 256; n / 256; n mod 256]).
  assert (forall k, pseudo_header src dst IP_PROTO_UDP n ++ udp_header sport dport n k ++ d = a ++ st16 k ++ d) as Ha
    by (intros k; unfold a, udp_header; by rewrite <- !app_assoc).
  assert (0 <= osum (a ++ st16 0 ++ d)) as H0.
  { apply osum_nonneg. rewrite <- Ha, !bytes_ok_app. split_and!; [by apply pseudo_header_ok|by apply udp_header_ok|done]. }
  rewrite !Ha. change (st16 0) with [0; 0] in *. set (s := osum (a ++ [0; 0] ++ d)) in *.
  pose proof (ocsum_bound s) as Hb. set (k := if 65535 - ocsum s =? 0 then 65535 else 65535 - ocsum s).
  assert (0 < k < 65536) as Hk by (unfold k; destruct (Z.eqb_spec (65535 - ocsum s) 0); lia).
  split; [done|]. rewrite osum_set_field by (done || lia). fold s. unfold k. destruct (Z.eqb_spec (65535 - ocsum s) 0) as [E|E].
  - unfold ocsum in *. destruct (Z.eqb_spec s 0) as [Hs0|Hne]; [lia|]. rewrite (proj2 (Z.eqb_neq (s + 65535) 0)) by lia.
    replace (s + 65535 - 1) with (s - 1 + 1 * 65535) by lia. rewrite Z.mod_add by lia. lia.
  - by apply ocsum_complement.
Qed.

Section Fill.
Context {E : PbufEnv} {X : Type} {LL : LinkLayer X} {AP : part X arp} {IP : part X ip_state} {FR : IpFragments X} {AD : Addresses}.

(** One field written into the head of a packet. *)
Lemma field_run h q b r o v d :
  packet h (Some q) ((q, b) :: r) -> NoDup (blks ((q, b) :: r)) -> mem_ok h -> bytes_ok v -> 0 <= o -> o + lenZ v <= len b ->
  chain_data h ((q, b) :: r) = d ->
  exists h', store (payload b) o v h = Some (tt, h') /\ packet h' (Some q) ((q, b) :: r) /\ mem_ok h' /\
    chain_data h' ((q, b) :: r) = overwrite d o v.
Proof.
  intros Hp Hnd Hm Hv Ho Hl Hd. pose proof (packet_cons_inv _ _ _ _ _ Hp) as (_ & _ & _ & _ & _ & Hok & _ & _).
  destruct (store_run h b o v Hok Ho Hl) as (h1 & Hr1 & _ & _ & Hm1).
  destruct (store_head h q b r o v Hp Hnd Ho Hl) as (h' & Hr & W & _ & _ & _ & Hc). rewrite Hr1 in Hr. injection Hr as <-.
  exists h1. split; [done|]. split; [by eapply writes_packet|]. split; [by apply Hm1|]. by rewrite Hc, Hd.
Qed.

Lemma fill_run {A} h g (x : X) q b r j d sport dport src dst (fl : Z) (k : M (node X) A) :
  packet h (Some q) ((q, b) :: r) -> NoDup (blks ((q, b) :: r)) -> mem_ok h -> 8 <= len b ->
  chain_data h ((q, b) :: r) = j ++ d -> length j = 8%nat -> Z.land fl UDP_FLAGS_NOCHKSUM = 0 ->
  0 <= src < 4294967296 -> 0 <= dst < 4294967296 -> 0 <= sport < 65536 -> 0 <= dport < 65536 ->
  exists h', packet h' (Some q) ((q, b) :: r) /\
    chain_data h' ((q, b) :: r) = udp_header sport dport (tot_len b) (udp_chksum src dst sport dport (tot_len b) d) ++ d /\
    (onheap (store (payload b) 0 (st16 (lwip_htons sport)));;
     onheap (store (payload b) 2 (st16 (lwip_htons dport)));;
     onheap (store (payload b) 6 (st16 0));;
     onheap (store (payload b) 4 (st16 (lwip_htons (tot_len b))));;
     (if Z.land fl UDP_FLAGS_NOCHKSUM =? 0 then
        c ← onheap (ip_chksum_pseudo addr_of (Some q) IP_PROTO_UDP (tot_len b) src dst);
        onheap (store (payload b) 6 (st16 (if c =? 0 then 0xffff else c)))
      else mret tt);;
     k) (Node h g x) = k (Node h' g x).
Proof.
  intros Hp Hnd Hm Hl Hd Hj Hfl Hs Hdst Hsp Hdp.
  pose proof (packet_cons_inv _ _ _ _ _ Hp) as (_ & _ & _ & H0 & Ht & _ & Hs0 & Hsm). set (n := tot_len b) in *.
  assert (0 <= n < 65536) as Hn by lia. destruct (udp_stores j d sport dport n (udp_chksum src dst sport dport n d) Hj Hsp Hdp Hn) as [Hst1 Hst2].
  destruct (field_run h q b r 0 (st16 (lwip_htons sport)) _ Hp Hnd Hm (st16_ok _) ltac:(lia) ltac:(simpl; lia) Hd) as (h1 & Hr1 & Hp1 & Hm1 & Hd1).
  destruct (field_run h1 q b r 2 (st16 (lwip_htons dport)) _ Hp1 Hnd Hm1 (st16_ok _) ltac:(lia) ltac:(simpl; lia) Hd1) as (h2 & Hr2 & Hp2 & Hm2 & Hd2).
  destruct (field_run h2 q b r 6 (st16 0) _ Hp2 Hnd Hm2 (st16_ok _) ltac:(lia) ltac:(simpl; lia) Hd2) as (h3 & Hr3 & Hp3 & Hm3 & Hd3).
  destruct (field_run h3 q b r 4 (st16 (lwip_htons n)) _ Hp3 Hnd Hm3 (st16_ok _) ltac:(lia) ltac:(simpl; lia) Hd3) as (h4 & Hr4 & Hp4 & Hm4 & Hd4).
  rewrite Hst1 in Hd4. set (c := udp_chksum src dst sport dport n d) in *.
  destruct (field_run h4 q b r 6 (st16 c) _ Hp4 Hnd Hm4 (st16_ok _) ltac:(lia) ltac:(simpl; lia) Hd4) as (h5 & Hr5 & Hp5 & _ & Hd5).
  rewrite Hst2 in Hd5. exists h5. split; [done|]. split; [done|].
  mrun (heap_run _ _ g x _ _ Hr1). mrun (heap_run _ _ g x _ _ Hr2). mrun (heap_run _ _ g x _ _ Hr3). mrun (heap_run _ _ g x _ _ Hr4).
  rewrite Hfl. cbn [Z.eqb]. rewrite bind_assoc.
  pose proof (inet_chksum_pseudo_run addr_of h4 (Some q) ((q, b) :: r) IP_PROTO_UDP n src dst Hp4 Hm4 Hs Hdst ltac:(done) Hn) as Hk. rewrite Hd4 in Hk.
  change (inet_chksum_pseudo addr_of) with (ip_chksum_pseudo addr_of) in Hk. mrun (heap_run _ _ g x _ _ Hk).
  by mrun (heap_run _ _ g x _ _ Hr5).
Qed.
End Fill.

(** ** The pbuf with the header *)

(** Where the header goes: in front of the data, or else into a new pbuf. *)
Inductive header_space `{PbufEnv} (h : heap) (p : positive) (b : pbuf) : positive -> Prop :=
  | Space_before : room h p b UDP_HLEN -> header_space h p b p
  | Space_new o :
      Z.land (type_internal b) PBUF_TYPE_FLAG_STRUCT_DATA_CONTIGUOUS <> 0 -> payload b = Some (Ptr p o) ->
      o - UDP_HLEN < SIZEOF_STRUCT_PBUF -> heap_wf h -> heap_admits (h_mem h) (ram_size PBUF_IP UDP_HLEN) = true ->
      0 <= ref b < 255 -> 0 < tot_len b -> header_space h p b (h_next h).

Section HeaderPacket.
Context {E : PbufEnv}.

(** Blocks that exist. *)
Lemma packet_blks_old h p l k : packet h p l -> all_pos l -> heap_wf h -> k ∈ blks l -> (k < h_next h)%positive.
Proof.
  intros [_ _ _ Hm] Hpos Hwf Hk. apply elem_of_blks in Hk as (i & b & Hin & Hb). rewrite Forall_forall in Hm, Hpos.
  pose proof (Hpos _ Hin) as Hlen. simpl in Hlen. destruct (Hm _ Hin) as [Hz|(blk & o & bs & Hpl & Hbs & _)]; simpl in *; [lia|].
  unfold blk_of in Hb. rewrite Hpl in Hb. injection Hb as <-. destruct (decide (blk < h_next h)%positive) as [|Hge]; [done|].
  destruct (Hwf blk ltac:(lia)). congruence.
Qed.

Lemma header_packet h p b r q :
  packet h (Some p) ((p, b) :: r) -> all_pos ((p, b) :: r) -> NoDup (blks ((p, b) :: r)) -> mem_ok h ->
  sum_len ((p, b) :: r) + UDP_HLEN < 65536 -> header_space h p b q ->
  exists h1 bq rq j, udp_header_pbuf p h = Some (Some q, h1) /\ packet h1 (Some q) ((q, bq) :: rq) /\ NoDup (blks ((q, bq) :: rq)) /\ mem_ok h1 /\
    UDP_HLEN <= len bq /\ chain_data h1 ((q, bq) :: rq) = j ++ chain_data h ((p, b) :: r) /\ length j = 8%nat /\
    tot_len bq = tot_len b + UDP_HLEN.
Proof.
  intros Hp Hpos Hnd Hm Hs Hq. unfold UDP_HLEN in *. rewrite sum_len_cons in Hs.
  pose proof (packet_cons_inv _ _ _ _ _ Hp) as (_ & Hb & Hr & H0 & Ht & Hok & Hs0 & Hsm). apply Forall_cons in Hpos as [Hlp Hpos]. simpl in Hlp.
  unfold udp_header_pbuf, UDP_HLEN. inversion Hq as [[Hc (o & bs & Hpl & Hbs & Ho & Hob)]|o Hc Hpl Ho Hwf Hadm Href Htl]; subst q.
  - unfold UDP_HLEN, SIZEOF_STRUCT_PBUF in *. mrun (pbuf_add_header_run h p b o 8 Hb Hpl Hc ltac:(lia) ltac:(unfold SIZEOF_STRUCT_PBUF; lia) ltac:(lia) ltac:(lia)).
    destruct (add_header_packet h p b r o 8 bs Hp Hpl Hbs Hob ltac:(lia) ltac:(lia) ltac:(rewrite sum_len_cons; lia)) as [Hp1 Hd1].
    eexists _, (move_payload b p o 8), r, (slice bs (o - 8) 8). split; [done|]. split; [exact Hp1|]. simpl. rewrite !u16_small by lia.
    split; [|split; [done|split; [lia|split; [exact Hd1|split; [pose proof (length_slice bs (o - 8) 8 ltac:(lia) ltac:(lia) ltac:(lia)); lia|done]]]]].
    assert (blk_of (move_payload b p o 8) = Some p) as Eb by done. rewrite (blks_cons_Some p _ r p Eb).
    by rewrite (blks_cons_Some p b r p) in Hnd by (unfold blk_of; by rewrite Hpl).
  - unfold UDP_HLEN in *. mrun (add_header_full h p b o 8 Hb Hpl Hc ltac:(lia) Ho). pose proof (pbuf_alloc_ram_run h PBUF_IP 8 ltac:(lia)) as Hal.
    rewrite decide_True, Hadm in Hal by (by vm_compute). mrun Hal. set (q := h_next h) in *. set (h2 := with_new _ _ _ _ _).
    assert (p <> q) as Hne by (intros ->; destruct (Hwf q); [unfold q; lia|congruence]).
    assert (h_pbufs h2 !! p = Some b) as Hb2 by (simpl; by rewrite lookup_insert_ne). mrun (get_pbuf_run _ _ _ Hb2).
    rewrite (proj2 (Z.eqb_neq (tot_len b) 0)) by lia. cbn [negb]. mrun (chain_header_run h p b Hwf Hb Href). fold q.
    set (bq := set_next (Some p) (set_tot_len (u16 (8 + tot_len b)) (ram_pbuf q PBUF_IP 8))). set (b' := set_ref (ref b + 1) b).
    assert (extends h h2) as Hx by apply with_new_extends.
    pose proof (extends_packet h h2 (next b) r Hwf Hx Hr) as Hr2. pose proof (extends_payload_ok h h2 b Hwf Hx Hok) as Hok2.
    assert (forall i, i ∈ r.*1 -> i <> p /\ i <> q) as Hfresh.
    { intros i Hi. pose proof (packet_NoDup _ _ _ Hp) as Hnd1. csimpl in Hnd1. apply NoDup_cons in Hnd1 as [Hnp _]. split; [by intros ->|].
      apply list_elem_of_fmap in Hi as ([k c] & -> & Hin). pose proof (chain_lookup _ _ _ _ _ (packet_chain _ _ _ Hr) Hin) as Hk. simpl. intros ->.
      destruct (Hwf q); [unfold q; lia|congruence]. }
    assert (packet (header_chained h p b) (next b') r) as Hr3.
    { apply (packet_frame_pbufs h2); [|done|exact Hr2]. intros i Hi. destruct (Hfresh i Hi). unfold header_chained, patch. cbn [h_pbufs set_pbufs]. fold q.
      by rewrite !lookup_insert_ne. }
    assert (h_mem (header_chained h p b) !! q = Some (junk_block q (ram_size PBUF_IP 8))) as Hmq by apply lookup_insert_eq.
    assert (packet (header_chained h p b) (Some p) ((p, b') :: r)) as Hp3
      by (apply packet_cons; [apply lookup_insert_eq|exact Hr3|done|done|exact Hok2|simpl; lia]).
    assert (h_pbufs (header_chained h p b) !! q = Some bq) as Hq3.
    { unfold header_chained, patch. cbn [h_pbufs set_pbufs]. fold q. rewrite lookup_insert_ne by done. apply lookup_insert_eq. }
    assert (tot_len bq = tot_len b + 8) as Htq by (simpl; rewrite u16_small; lia).
    assert (packet (header_chained h p b) (Some q) ((q, bq) :: (p, b') :: r)) as Hpq.
    { apply packet_cons; [exact Hq3|exact Hp3|done|rewrite sum_len_cons, Htq; simpl; lia| |rewrite sum_len_cons; simpl; lia].
      right. exists q. eexists _, _. split; [reflexivity|]. split; [exact Hmq|]. rewrite length_junk_block by (by vm_compute). by vm_compute. }
    assert (blk_of bq = Some q) as Ebq by done.
    assert (blks ((q, bq) :: (p, b') :: r) = q :: blks ((p, b) :: r)) as Eblk.
    { rewrite (blks_cons_Some q bq _ q Ebq). f_equal. }
    exists (header_chained h p b), bq, ((p, b') :: r). eexists. split; [done|]. split; [exact Hpq|]. rewrite Eblk. split; [|split; [|split; [done|split; [|split; [|done]]]]].
    + apply NoDup_cons. split; [|done]. intros Hin. assert (q < h_next h)%positive; [|unfold q in *; lia].
      eapply packet_blks_old; [exact Hp|by constructor|done|exact Hin].
    + intros k bs Hk. unfold header_chained, patch, with_new in Hk. cbn [h_mem set_pbufs] in Hk. apply lookup_insert_Some in Hk as [[_ <-]|[_ Hk]].
      * apply junk_block_ok.
      * by apply (Hm k).
    + rewrite chain_data_cons. f_equal. rewrite !chain_data_cons. f_equal.
      * change (pdata (header_chained h p b) b') with (pdata h2 b). by apply extends_pdata.
      * rewrite <- (extends_chain_data h h2 (next b) r Hwf Hx Hr). by apply chain_data_mem.
    + pose proof (length_pdata (header_chained h p b) bq ltac:(done)) as Hlq.
      pose proof (packet_cons_inv _ _ _ _ _ Hpq) as (_ & _ & _ & _ & _ & Hokq & _). specialize (Hlq Hokq). change (len bq) with 8 in Hlq. lia.
Qed.
End HeaderPacket.
