(* ===== verification/EtharpLive.v ===== *)
(** * The ARP cache: no operation of it goes wrong

    On a heap of the stack's own pbufs, where the references are the packets
    queued in the cache and those the rest of the program holds, every operation
    of etharp.c returns - it never touches a freed pbuf, frees one twice or
    reads outside a block - and leaves such a heap. *)
From S2P Require Import Prelude Triple Def Pbuf PbufFacts PbufWrite PbufAlloc PbufPool PbufChain PbufRef PbufOwn.
From S2P Require Import Netif Node Ip4Addr Ethernet EthernetFacts Etharp EtharpFacts EtharpInv.

Definition queue_refs (T : list etharp_entry) : list positive := concat (q <$> T).

Lemma queue_refs_insert T n e e' H H' :
  T !! n = Some e -> q e ++ H ≡ₚ q e' ++ H' ->
  queue_refs T ++ H ≡ₚ queue_refs (<[n := e']> T) ++ H'.
Proof.
  intros Hn Hq. unfold queue_refs. revert n Hn. induction T as [|x T IH]; intros [|n] Hn; simplify_eq/=.
  - rewrite <- !app_assoc, !(app_assoc _ _ H), !(app_assoc _ _ H').
    rewrite (Permutation_app_comm (q e)), (Permutation_app_comm (q e')), <- !app_assoc. by rewrite Hq.
  - rewrite <- !app_assoc. by rewrite (IH n Hn).
Qed.

(** The interface can send. *)
Definition ready (g : netifs) (i : positive) : Prop :=
  exists n, nif g !! i = Some n /\ length (hwaddr n) = 6%nat.
(** And so can every interface a packet can be routed to. *)
Record wired (g : netifs) : Prop := {
  wired_list : Forall (ready g) (netif_list g);
  wired_default i : netif_default g = Some i -> ready g i;
}.

(** The layers above keep references and variables of their own, in a part of the
    state that is not ARP's: [held] and what they ask of it, [in_order]. *)
Class Upper (X : Type) `{AP : part X arp} := {
  held : X -> list positive;
  in_order : X -> Prop;
  held_arp (a : arp) (x : X) : held (set_part a x) = held x;
  order_arp (a : arp) (x : X) : in_order x -> in_order (set_part a x);
}.

Record table_ok (g : netifs) (T : list etharp_entry) : Prop := {
  table_length : length T = 10%nat;
  table_addr k e : T !! k = Some e -> length (ethaddr e) = 6%nat;
  table_netif k e : T !! k = Some e -> e_state e = ETHARP_STATE_PENDING ->
    exists i, e_netif e = Some i /\ ready g i;
}.

(** The marks ethernet_input sets leave the custom flag alone. *)
Lemma ll_flags_custom d b :
  Z.land (Pbuf.flags (Pbuf.set_flags (ll_flags d (Pbuf.flags b)) b)) PBUF_FLAG_IS_CUSTOM = Z.land (Pbuf.flags b) PBUF_FLAG_IS_CUSTOM.
Proof.
  cbn [Pbuf.flags Pbuf.set_flags]. generalize (Pbuf.flags b) as v. intros v.
  assert (forall m, Z.land m PBUF_FLAG_IS_CUSTOM = 0 -> Z.land (u8 (Z.lor v m)) PBUF_FLAG_IS_CUSTOM = Z.land v PBUF_FLAG_IS_CUSTOM) as Hm.
  { intros m Hm. unfold u8. rewrite <- land_0xff, <- Z.land_assoc. change (Z.land 255 PBUF_FLAG_IS_CUSTOM) with PBUF_FLAG_IS_CUSTOM.
    by rewrite Z.land_lor_distr_l, Hm, Z.lor_0_r. }
  unfold ll_flags. repeat case_match; try done; by apply Hm.
Qed.

Section Live.
Context {E : PbufEnv} {X : Type} {LL : LinkLayer X} {AP : part X arp} {UP : Upper X}.

Notation returns P m Q := (total (fun s : node X => s) P m Q).

Section Budget.
Context (N : budget).

(** The table is [T], and the references are [R]. *)
Record raw (w : option positive) (g : netifs) (T : list etharp_entry) (R : list positive) (s : node X) : Prop := {
  raw_netifs : n_netifs s = g;
  raw_table : arp_table (arp_of s) = T;
  raw_cached : 0 <= etharp_cached_entry (arp_of s) < ARP_TABLE_SIZE;
  raw_held : held (n_ext s) = others N /\ in_order (n_ext s);
  raw_heap : sane N w R (n_heap s);
}.
(** They are the table's queues and [H]. *)
Definition acc (w : option positive) (g : netifs) (T : list etharp_entry) (H : list positive) : node X -> Prop :=
  raw w g T (queue_refs T ++ H).

Definition live (w : option positive) (g : netifs) (H : list positive) (s : node X) : Prop :=
  exists T, table_ok g T /\ acc w g T H s.

(** What ARP relies on: the driver sends a packet and leaves it alone. *)
Class LiveLink := {
  live_linkoutput w g T H i p : ready g i -> p ∈ H ->
    returns (acc w g T H) (linkoutput_call i p) (fun _ => acc w g T H);
}.
Context {LK : LiveLink}.

(** ** Steps *)

Lemma acc_weaken w g T H s : acc w g T H s -> acc None g T H s.
Proof. intros [? ? ? ? Hs]. split; try done. by eapply sane_weaken. Qed.

Lemma raw_perm w g T R R' s : R ≡ₚ R' -> raw w g T R s -> raw w g T R' s.
Proof. intros Hp [? ? ? Hs]. split; try done. by rewrite <- Hp. Qed.

Lemma raw_onheap {A} w w' g T R (R' : A -> list positive) (m : M heap A) :
  (forall h, sane N w R h -> exists r h', m h = Some (r, h') /\ sane N w' (R' r) h') ->
  returns (raw w g T R) (onheap m) (fun r => raw w' g T (R' r)).
Proof.
  intros Hm s [Hg HT Hc Hh Hs]. destruct (Hm _ Hs) as (r & h' & Hr & Hs').
  exists r, (Node h' (n_netifs s) (n_ext s)). split; [|by split].
  destruct s as [h g0 x]. by apply heap_run.
Qed.

Lemma acc_get_netif w g T H i n :
  nif g !! i = Some n -> returns (acc w g T H) (get_netif i) (fun r s => r = n /\ acc w g T H s).
Proof.
  intros Hn [h g0 x] Hs. pose proof (raw_netifs _ _ _ _ _ Hs) as Hg. simpl in Hg. subst g0.
  exists n, (Node h g x). split; [by apply get_netif_run|done].
Qed.

(** Changing the cache. *)
Lemma raw_onarp {A} w g T T' R (m : M arp A) (F : A -> Prop) :
  (forall a, arp_table a = T -> 0 <= etharp_cached_entry a < ARP_TABLE_SIZE ->
     exists r a', m a = Some (r, a') /\ arp_table a' = T' /\ 0 <= etharp_cached_entry a' < ARP_TABLE_SIZE /\ F r) ->
  returns (raw w g T R) (onarp m) (fun r s => F r /\ raw w g T' R s).
Proof.
  intros Hm [h g0 x] [Hg HT Hc Hh Hs]. unfold arp_of in HT, Hc. simpl in *.
  destruct (Hm _ HT Hc) as (r & a' & Hr & HT' & Hc' & HF).
  eexists r, (Node h g0 (set_part a' x)). split.
  - unfold onarp, ext, zoom. simpl. by rewrite Hr.
  - split; [done|]. split; unfold arp_of; simpl; rewrite ?get_set_part, ?held_arp; try done. split; [apply Hh|apply order_arp, Hh].
Qed.

Lemma raw_get w g T R : returns (raw w g T R) (onarp get)
  (fun a s => (arp_table a = T /\ 0 <= etharp_cached_entry a < ARP_TABLE_SIZE) /\ raw w g T R s).
Proof. apply raw_onarp. intros a Ha Hc. by exists a, a. Qed.

Lemma raw_get_entry w g T R i e :
  0 <= i -> T !! Z.to_nat i = Some e ->
  returns (raw w g T R) (get_entry i) (fun r s => r = e /\ raw w g T R s).
Proof.
  intros Hi He. eapply total_step; [apply raw_get|]. intros a [Ha _]. rewrite (proj2 (Z.leb_le _ _)) by done.
  rewrite Ha, He. by apply total_ret.
Qed.

Lemma raw_upd_entry w g T R i e f :
  0 <= i -> T !! Z.to_nat i = Some e ->
  returns (raw w g T R) (upd_entry i f) (fun _ => raw w g (<[Z.to_nat i := f e]> T) R).
Proof.
  intros Hi He. unfold upd_entry. eapply total_step; [by apply raw_get_entry|]. intros r ->.
  eapply total_post; [apply (raw_onarp _ _ _ (<[Z.to_nat i := f e]> T) _ _ (fun _ => True))|by intros r s [_ ?]].
  intros a Ha Hc. eexists _, _. split; [done|]. simpl. by rewrite Ha.
Qed.

(** With the references that move. *)
Lemma acc_upd_entry w g T H H' i e f :
  0 <= i -> T !! Z.to_nat i = Some e -> q e ++ H ≡ₚ q (f e) ++ H' ->
  returns (acc w g T H) (upd_entry i f) (fun _ => acc w g (<[Z.to_nat i := f e]> T) H').
Proof.
  intros Hi He Hq. eapply total_post; [by apply raw_upd_entry|]. intros r s. apply raw_perm.
  by apply queue_refs_insert with e.
Qed.

(** A change of the cache that leaves the table alone. *)
Lemma raw_onarp_same {A} w g T R (m : M arp A) :
  (forall a, arp_table a = T -> 0 <= etharp_cached_entry a < ARP_TABLE_SIZE ->
     exists r a', m a = Some (r, a') /\ arp_table a' = T /\ 0 <= etharp_cached_entry a' < ARP_TABLE_SIZE) ->
  returns (raw w g T R) (onarp m) (fun _ => raw w g T R).
Proof.
  intros Hm. eapply total_post; [apply (raw_onarp _ _ _ T _ _ (fun _ => True))|by intros r s [_ ?]].
  intros a HT Hc. destruct (Hm a HT Hc) as (r & a' & ? & ? & ?). by exists r, a'.
Qed.

Lemma raw_malloc_arpq w g T R : returns (raw w g T R) memp_malloc_arpq (fun _ => raw w g T R).
Proof.
  eapply total_step; [apply raw_get|]. intros a [Ha Rc]. destruct (_ =? 0); [by apply total_ret|].
  eapply total_skip; [apply raw_onarp_same|intros; by apply total_ret].
  intros a' _ _. by eexists _, _.
Qed.
Lemma raw_free_arpq w g T R : returns (raw w g T R) memp_free_arpq (fun _ => raw w g T R).
Proof. apply raw_onarp_same. intros a Ha Hc. by eexists _, _. Qed.
Lemma raw_set_cached w g T R i :
  0 <= i < ARP_TABLE_SIZE -> returns (raw w g T R) (onarp (modify (set_cached i))) (fun _ => raw w g T R).
Proof. intros Hi. apply raw_onarp_same. intros a Ha Hc. by eexists _, _. Qed.

(** ** The heap's operations *)

Lemma raw_free w g T R p :
  returns (raw w g T (p :: R)) (onheap (pbuf_free (Some p))) (fun _ => raw w g T R).
Proof. apply raw_onheap. intros h Hs. by apply sane_free. Qed.
Lemma acc_free w g T H p :
  returns (acc w g T (p :: H)) (onheap (pbuf_free (Some p))) (fun _ => acc w g T H).
Proof.
  eapply total_pre; [apply raw_free|]. intros s. apply raw_perm. by rewrite Permutation_middle.
Qed.

Lemma acc_ref g T H p :
  p ∈ H -> returns (acc (Some p) g T H) (onheap (pbuf_ref (Some p))) (fun _ => acc None g T (p :: H)).
Proof.
  intros Hp. eapply total_post; [apply (raw_onheap _ None _ _ _ (fun _ => p :: queue_refs T ++ H))|].
  - intros h Hs. destruct (sane_ref _ _ _ _ Hs) as (h' & ? & ?); [apply elem_of_app; by right|]. by exists tt, h'.
  - intros r s. apply raw_perm. by rewrite Permutation_middle.
Qed.

Lemma acc_alloc w g T H layer k :
  0 <= k < 65536 ->
  returns (acc w g T H) (onheap (pbuf_alloc layer k PBUF_RAM)) (fun r => acc w g T (option_list r ++ H)).
Proof.
  intros Hk. eapply total_post; [apply (raw_onheap _ w _ _ _ (fun r => option_list r ++ queue_refs T ++ H))|].
  - intros h Hs. by apply sane_alloc; auto.
  - intros r s. apply raw_perm. by rewrite !app_assoc, (Permutation_app_comm (option_list r)).
Qed.

(** Facts about the pbuf [p] that hold for a while. *)
Definition at_pbuf (w : option positive) (g : netifs) (T : list etharp_entry) (H : list positive)
    (p : positive) (b : pbuf) (k : Z) (s : node X) : Prop :=
  acc w g T H s /\ h_pbufs (n_heap s) !! p = Some b /\ readable (n_heap s) p k.

Lemma acc_store w g T H p b k i v :
  0 <= i -> i + lenZ v <= k ->
  returns (at_pbuf w g T H p b k) (onheap (store (payload b) i v)) (fun _ => at_pbuf w g T H p b k).
Proof.
  intros Hi Hk [h g0 x] ([Hg HT Hc Hh Hs] & Hb & Hr). simpl in *.
  pose proof Hr as (b' & o & bs & Hb' & Hp & Hbs & Ho & Hl).
  assert (b' = b) as -> by congruence.
  destruct (sane_store _ _ _ _ _ _ _ _ v Hs Hb Hp Hi) as (h' & Hrun & Hs' & Hpb & Hlen).
  { exists b, o, bs. split_and!; (done || lia). }
  exists tt, (Node h' g0 x). split; [by apply heap_run|].
  split; [by split|]. simpl. split; [by rewrite Hpb|by eapply readable_same].
Qed.

Lemma acc_get_pbuf w g T H p b k :
  returns (at_pbuf w g T H p b k) (onheap (get_pbuf p)) (fun r s => r = b /\ at_pbuf w g T H p b k s).
Proof.
  intros [h g0 x] Hat. pose proof Hat as (_ & Hb & _). exists b, (Node h g0 x).
  split; [apply heap_run; by apply get_pbuf_run|done].
Qed.

Lemma acc_load w g T H p b k :
  0 <= k ->
  returns (at_pbuf w g T H p b k) (onheap (load (payload b) 0 k)) (fun r => at_pbuf w g T H p b k).
Proof.
  intros Hk [h g0 x] Hat. pose proof Hat as (_ & Hb & Hr).
  destruct (sane_load _ _ _ _ Hb Hr Hk) as [d Hd]. exists d, (Node h g0 x). split; [by apply heap_run|done].
Qed.

Lemma acc_upd_pbuf w g T H p b k f :
  same_refs b (f b) -> payload (f b) = payload b -> len (f b) = len b -> tot_len (f b) = tot_len b ->
  returns (at_pbuf w g T H p b k) (onheap (upd_pbuf p f)) (fun _ => at_pbuf w g T H p (f b) k).
Proof.
  intros Hsr Hp Hl Ht [h g0 x] ([Hg HT Hc Hh Hs] & Hb & (b' & o & bs & Hb' & Hpl & Hbs & Ho & Hk)). simpl in *.
  assert (b' = b) as -> by congruence.
  eexists tt, (Node _ g0 x). split; [apply heap_run; by apply upd_pbuf_run|].
  split; [split; try done|split; [apply lookup_insert_eq|]].
  - simpl. eapply sane_relabel; [exact Hs|by eapply same_links_upd|done|done|done| |].
    + apply own_upd; [apply (sane_own _ _ _ _ Hs)|].
      eapply own_ok_eq; [by apply (sane_own _ _ _ _ Hs)|done|done|apply Hsr|done].
    + eapply upd_readable; [exact Hb|]. intros o1 Ho1 _. split; [|apply same_refs_unshared; [done|congruence]].
      exists o1. rewrite Hp. assert (o1 = o) as -> by congruence. split; [done|lia].
  - exists (f b), o, bs. simpl. rewrite lookup_insert_eq, Hp. by split_and!.
Qed.

(** The pbuf [p] with the payload [pl] and [k] readable bytes there. *)
Definition seen (w : option positive) (g : netifs) (T : list etharp_entry) (H : list positive)
    (p : positive) (pl : option ptr) (k : Z) (s : node X) : Prop :=
  exists b, at_pbuf w g T H p b k s /\ payload b = pl /\ unshared b.

Lemma seen_upd w g T H p pl k f :
  (forall b, same_refs b (f b) /\ payload (f b) = payload b /\ len (f b) = len b /\ tot_len (f b) = tot_len b) ->
  returns (seen w g T H p pl k) (onheap (upd_pbuf p f)) (fun _ => seen w g T H p pl k).
Proof.
  intros Hf s (b & Hat & Hpl & Hun). destruct (Hf b) as (H1 & H2 & H3 & H4).
  destruct (acc_upd_pbuf w g T H p b k f H1 H2 H3 H4 s Hat) as (r & s' & Hr & Hat').
  exists r, s'. split; [done|]. exists (f b). split; [done|]. split; [congruence|].
  eapply same_refs_unshared; [done|congruence|done].
Qed.
Lemma seen_load w g T H p pl k m :
  0 <= m <= k -> returns (seen w g T H p pl k) (onheap (load pl 0 m)) (fun _ => seen w g T H p pl k).
Proof.
  intros Hm s (b & Hat & <- & Hun). destruct (acc_load w g T H p b m ltac:(lia) s) as (d & s' & Hd & _).
  { destruct Hat as (Hs & Hb & (b' & o & bs & ? & ? & ? & ? & ?)). split; [done|]. split; [done|].
    exists b', o, bs. split_and!; (done || lia). }
  exists d, s'. split; [done|]. exists b. split; [|by split]. apply zoom_inv in Hd as (h' & Hd & ->).
  assert (h' = n_heap s) as -> by (clear -Hd; unfold load in Hd; repeat case_match; by simplify_eq). by destruct s.
Qed.
Lemma seen_get_netif w g T H p pl k i n :
  nif g !! i = Some n ->
  returns (seen w g T H p pl k) (get_netif i) (fun r s => r = n /\ seen w g T H p pl k s).
Proof.
  intros Hn [h g0 x] Hs. pose proof Hs as (b & [[Hg _ _ _] _] & _ & _). simpl in Hg. subst g0.
  exists n, (Node h g x). split; [by apply get_netif_run|done].
Qed.
Lemma seen_remove_header w g T H p pl k m :
  p ∈ H -> p ∉ kept N -> 0 < k < 65536 ->
  returns (seen w g T H p pl (k + m)) (onheap (pbuf_remove_header (Some p) k))
    (fun r s => acc w g T H s /\ (r = false -> inbound (n_heap s) p m)).
Proof.
  intros Hp Hnk Hk [h g0 x] (b & ([Hg HT Hc Hh Hs] & Hb & Hrd) & _ & Hun). simpl in *.
  destruct (sane_remove_header _ _ _ _ p k m Hs) as (r & h' & Hr & Hs' & Hrd').
  - apply elem_of_app. by right.
  - done.
  - done.
  - split; [done|]. intros c Hc'. by assert (c = b) as -> by congruence.
  - exists r, (Node h' g0 x). split; [by apply heap_run|]. by split.
Qed.
Lemma seen_acc w g T H p pl k s : seen w g T H p pl k s -> acc w g T H s.
Proof. by intros (b & [? _] & _). Qed.

(** Start and end of looking at a pbuf. *)
Lemma at_pbuf_intro {A} w g T H p k (m : M (node X) A) Q :
  (forall b, returns (at_pbuf w g T H p b k) m Q) ->
  returns (fun s => acc w g T H s /\ readable (n_heap s) p k) m Q.
Proof.
  intros Hm s [Hs Hr]. pose proof Hr as (b & _ & _ & Hb & _). by apply (Hm b).
Qed.
Lemma at_pbuf_acc w g T H p b k s : at_pbuf w g T H p b k s -> acc w g T H s.
Proof. by intros [? _]. Qed.

(** ** Sending *)

Lemma acc_ethernet_output w g T H i p src dst ty :
  ready g i -> p ∈ H -> length src = 6%nat -> length dst = 6%nat ->
  returns (acc w g T H) (ethernet_output i p src dst ty) (fun _ => acc w g T H).
Proof.
  intros Hi Hp Hsrc Hdst. unfold ethernet_output.
  eapply total_bind with (R := fun (r : bool) s => acc w g T H s /\ (r = false -> readable (n_heap s) p SIZEOF_ETH_HDR)).
  { intros [h g0 x] [Hg HT Hc Hh Hs]. simpl in *.
    destruct (sane_add_header _ _ _ _ p SIZEOF_ETH_HDR Hs) as (r & h' & Hr & Hs' & Hrd).
    - apply elem_of_app. by right.
    - by vm_compute.
    - exists r, (Node h' g0 x). split; [by apply heap_run|]. split; [by split|done]. }
  intros [|]; [by apply total_ret; intros s [? _]|].
  eapply total_pre with (fun s => acc w g T H s /\ readable (n_heap s) p SIZEOF_ETH_HDR);
    [|intros s [? Hr]; split; [done|by apply Hr]].
  apply at_pbuf_intro. intros b. unfold SIZEOF_ETH_HDR.
  eapply total_step; [apply acc_get_pbuf|]. intros r ->.
  eapply total_skip; [apply acc_store; [lia|done]|]. intros _.
  eapply total_skip; [apply acc_store; [lia|lia]|]. intros _.
  eapply total_skip; [apply acc_store; [lia|lia]|]. intros _.
  eapply total_pre; [by apply live_linkoutput|apply at_pbuf_acc].
Qed.

(** etharp_raw: its packet is its own. *)
Lemma acc_raw w g T H i src dst sha spa tha tpa op :
  ready g i -> length src = 6%nat -> length dst = 6%nat -> length sha = 6%nat -> length tha = 6%nat ->
  returns (acc w g T H) (etharp_raw i src dst sha spa tha tpa op) (fun _ => acc w g T H).
Proof.
  intros Hi Hsrc Hdst Hsha Htha. unfold etharp_raw, SIZEOF_ETHARP_HDR.
  eapply total_bind with (R := fun (r : option positive) s =>
    match r with Some p => acc w g T (p :: H) s /\ readable (n_heap s) p 28 | None => acc w g T H s end).
  { intros s Hs. destruct (acc_alloc w g T H PBUF_LINK 28 ltac:(lia) s Hs) as (r & s' & Hr & Hs').
    exists r, s'. split; [done|]. destruct r as [p|]; [|done]. simpl in Hs'. split; [done|].
    destruct s as [h g0 x]. unfold zoom in Hr. rewrite pbuf_alloc_ram_run in Hr by lia.
    rewrite decide_True in Hr by (by vm_compute). destruct (heap_admits _ _); simplify_eq. simpl.
    eexists _, _, _. split; [apply lookup_insert_eq|]. split; [done|]. split; [apply lookup_insert_eq|].
    rewrite length_junk_block by (by vm_compute). by vm_compute. }
  intros [p|]; [|by apply total_ret].
  apply at_pbuf_intro. intros b. eapply total_step; [apply acc_get_pbuf|]. intros r ->.
  do 9 (eapply total_skip; [apply acc_store; [lia|(done || (simpl; lia) || lia)]|]; intros _).
  eapply total_skip; [eapply total_pre; [apply acc_ethernet_output; try done; apply elem_of_cons; by left|apply at_pbuf_acc]|].
  intros _. eapply total_skip; [apply acc_free|]. intros _. by apply total_ret.
Qed.

Lemma acc_request_dst w g T H i ip dst :
  ready g i -> length dst = 6%nat -> returns (acc w g T H) (etharp_request_dst i ip dst) (fun _ => acc w g T H).
Proof.
  intros Hi Hd. pose proof Hi as (n & Hn & Hl). unfold etharp_request_dst.
  eapply total_step; [by apply acc_get_netif|]. intros r ->. by apply acc_raw.
Qed.
Lemma acc_request w g T H i ip :
  ready g i -> returns (acc w g T H) (etharp_request i ip) (fun _ => acc w g T H).
Proof. intros Hi. by apply acc_request_dst. Qed.

(** ** The cache's operations *)

Lemma raw_free_q w g T R l :
  returns (raw w g T (l ++ R)) (free_etharp_q l) (fun _ => raw w g T R).
Proof.
  induction l as [|p l IH]; [by apply total_ret|]. cbn [free_etharp_q].
  eapply total_skip; [apply raw_free|]. intros _. eapply total_skip; [apply raw_free_arpq|]. intros _. exact IH.
Qed.

(** While the queue is freed the entry still points to its packets. *)
Lemma acc_free_entry w g T H i e :
  0 <= i -> T !! Z.to_nat i = Some e ->
  returns (acc w g T H) (etharp_free_entry i) (fun _ => acc w g (<[Z.to_nat i := empty_entry]> T) H).
Proof.
  intros Hi He. unfold etharp_free_entry.
  eapply total_step; [by apply raw_get_entry|]. intros r ->.
  eapply total_skip.
  - eapply total_pre; [apply (raw_free_q w g T (queue_refs (<[Z.to_nat i := empty_entry]> T) ++ H))|].
    intros s. apply raw_perm. rewrite (queue_refs_insert T _ e empty_entry H (q e ++ H) He) by done.
    by rewrite !app_assoc, (Permutation_app_comm (q e)).
  - intros _. eapply total_post; [by apply raw_upd_entry|done].
Qed.

(** *** etharp_find_entry *)

Definition nonneg (c : candidates) : Prop :=
  0 <= c_empty c /\ 0 <= c_old_stable c /\ 0 <= c_old_pending c /\ 0 <= c_old_queue c.

Lemma search_range tab ip nif : forall i c, 0 <= i -> nonneg c ->
  match search tab i ip nif c with
  | inl j => i <= j < i + lenZ tab
  | inr c' => nonneg c'
  end.
Proof.
  induction tab as [|e tab IH]; intros i c Hi Hc; [done|]. cbn [search].
  rewrite length_cons, Nat2Z.inj_succ. destruct (_ && _); [lia|].
  specialize (IH (i + 1) (note_entry i e c) ltac:(lia)).
  assert (nonneg (note_entry i e c)) as Hn.
  { unfold nonneg, note_entry in *. destruct (e_state e), (q e); repeat case_match; simpl; lia. }
  specialize (IH Hn). destruct (search _ _ _ _ _); [lia|done].
Qed.

Lemma choose_range flags c i r : nonneg c -> choose flags c = Some (i, r) -> 0 <= i < ARP_TABLE_SIZE.
Proof.
  unfold nonneg, choose. intros Hc. repeat case_match; intros; simplify_eq; b2p; lia.
Qed.

Lemma table_insert g T n e :
  table_ok g T -> length (ethaddr e) = 6%nat ->
  (e_state e = ETHARP_STATE_PENDING -> exists i, e_netif e = Some i /\ ready g i) ->
  table_ok g (<[n := e]> T).
Proof.
  intros [Hl Ha Hn] He Hp. split; [by rewrite length_insert| |].
  - intros k e'. rewrite list_lookup_insert_Some. intros [(-> & <- & _)|[_ ?]]; eauto.
  - intros k e'. rewrite list_lookup_insert_Some. intros [(-> & <- & _)|[_ ?]]; eauto.
Qed.

Lemma table_same g T n e e' :
  table_ok g T -> T !! n = Some e -> ethaddr e' = ethaddr e -> e_netif e' = e_netif e ->
  (e_state e' = ETHARP_STATE_PENDING -> e_state e = ETHARP_STATE_PENDING) -> table_ok g (<[n := e']> T).
Proof.
  intros Ht He Ea En Es. apply table_insert; [done|rewrite Ea; by eapply table_addr|].
  intros Hp. rewrite En. eapply table_netif; eauto.
Qed.

Lemma table_lookup g T i : table_ok g T -> 0 <= i < ARP_TABLE_SIZE -> exists e, T !! Z.to_nat i = Some e.
Proof. intros [Hl _ _] Hi. apply lookup_lt_is_Some_2. rewrite Hl. unfold ARP_TABLE_SIZE in Hi. lia. Qed.

Definition in_range (r : option Z) : Prop := forall i, r = Some i -> 0 <= i < ARP_TABLE_SIZE.

Lemma live_intro w g T H s : table_ok g T -> acc w g T H s -> live w g H s.
Proof. intros Ht Hs. by exists T. Qed.
Lemma live_elim {A} w g H (m : M (node X) A) Q :
  (forall T, table_ok g T -> returns (acc w g T H) m Q) -> returns (live w g H) m Q.
Proof. intros Hm s (T & Ht & Hs). by apply (Hm T). Qed.
Lemma live_elim_fact {A} (F : Prop) w g H (m : M (node X) A) Q :
  (F -> forall T, table_ok g T -> returns (acc w g T H) m Q) -> returns (fun s => F /\ live w g H s) m Q.
Proof. intros Hm. apply total_fact. intros HF. by apply live_elim, Hm. Qed.

Lemma live_get_netif w g H i n :
  nif g !! i = Some n -> returns (live w g H) (get_netif i) (fun r s => r = n /\ live w g H s).
Proof.
  intros Hn. apply live_elim. intros T Ht. eapply total_post; [by apply acc_get_netif|].
  intros r s [-> Hs]. split; [done|by eapply live_intro].
Qed.
Lemma live_weaken w g H s : live w g H s -> live None g H s.
Proof. intros (T & Ht & Hs). apply (live_intro _ _ T); [done|]. by eapply acc_weaken. Qed.

(** A change of an entry that keeps its queue. *)
Lemma acc_edit {B} w g T H i e f (k : unit -> M (node X) B) Q :
  0 <= i < ARP_TABLE_SIZE -> table_ok g T -> q (f e) = q e ->
  returns (acc w g (<[Z.to_nat i := f e]> T) H) (k tt) Q ->
  returns (acc w g (<[Z.to_nat i := e]> T) H) (upd_entry i f ≫= k) Q.
Proof.
  intros Hi Ht Hq Hk. destruct (table_lookup g T i Ht Hi) as [e0 He0].
  assert (Z.to_nat i < length T)%nat as Hlt by (by eapply lookup_lt_Some).
  eapply total_skip; [apply acc_upd_entry with (H' := H) (e := e)|].
  - lia.
  - by rewrite list_lookup_insert_eq.
  - by rewrite Hq.
  - intros []. by rewrite list_insert_insert_eq.
Qed.
Lemma acc_open {A} w g T H i e (m : M (node X) A) Q :
  T !! Z.to_nat i = Some e ->
  returns (acc w g (<[Z.to_nat i := e]> T) H) m Q -> returns (acc w g T H) m Q.
Proof. intros He. by rewrite list_insert_id. Qed.

(** The changes to the entry found. *)
Lemma live_claim w g T H i ip nif :
  table_ok g T -> ready g nif -> 0 <= i < ARP_TABLE_SIZE ->
  returns (acc w g T H)
    (upd_entry i (set_ipaddr ip);; upd_entry i (set_ctime 0);; upd_entry i (set_e_netif (Some nif));; mret (Some i))
    (fun r s => in_range r /\ live w g H s).
Proof.
  intros Ht Hr Hi. destruct (table_lookup g T i Ht Hi) as [e He]. apply (acc_open _ _ _ _ i e); [done|].
  do 3 (apply acc_edit; [done|done|done|]). apply total_ret. intros s Hs. split; [by intros j [= <-]|].
  eapply live_intro; [|exact Hs]. apply table_insert; [done|simpl; by eapply table_addr|simpl; eauto].
Qed.

Lemma live_find_entry w g H ip flags nif :
  ready g nif ->
  returns (live w g H) (etharp_find_entry (Some ip) flags (Some nif)) (fun r s => in_range r /\ live w g H s).
Proof.
  intros Hr. apply live_elim. intros T Ht. unfold etharp_find_entry.
  eapply total_step; [apply raw_get|]. intros a [Ha _]. rewrite Ha.
  pose proof (search_range T (Some ip) (Some nif) 0 no_candidates ltac:(lia) ltac:(by vm_compute)) as Hs.
  destruct (search _ _ _ _ _) as [i|c].
  { apply total_ret. intros s. split; [|by eapply live_intro]. intros j [= <-]. rewrite (table_length _ _ Ht) in Hs.
    unfold ARP_TABLE_SIZE. lia. }
  destruct (choose flags c) as [[i recycle]|] eqn:Ec; [|by apply total_ret; intros s; split; [|by eapply live_intro]].
  pose proof (choose_range _ _ _ _ Hs Ec) as Hi. destruct (table_lookup g T i Ht Hi) as [e He].
  destruct recycle; [|by apply live_claim].
  eapply total_skip; [apply acc_free_entry with (e := e); [lia|done]|]. intros _.
  apply live_claim; [|done|done]. by apply table_insert.
Qed.

(** *** Packets for a resolved entry *)

Lemma live_send_queue w g nif eth H i fuel : ready g nif -> length eth = 6%nat -> 0 <= i ->
  forall T e, T !! Z.to_nat i = Some e -> (length (q e) <= fuel)%nat ->
  returns (acc w g T H) (send_queue fuel i nif eth) (fun _ => acc w g (<[Z.to_nat i := set_q [] e]> T) H).
Proof.
  intros Hr Heth Hi. pose proof Hr as (n & Hn & Hl).
  induction fuel as [|fuel IH]; intros T e He Hf; cbn [send_queue];
    (eapply total_step; [by apply raw_get_entry|]; intros r ->);
    destruct (q e) as [|p qs] eqn:Hq; simpl in Hf; try lia;
    try (apply total_ret; intros s; rewrite <- Hq; by rewrite list_insert_id by (by destruct e)).
  assert (Z.to_nat i < length T)%nat as Hlt by (by eapply lookup_lt_Some).
  eapply total_skip; [apply acc_upd_entry with (H' := p :: H) (e := e); [lia|done|rewrite Hq; simpl; apply Permutation_middle]|].
  intros _. eapply total_skip; [apply raw_free_arpq|]. intros _.
  eapply total_step; [by apply acc_get_netif|]. intros r ->.
  eapply total_skip; [apply acc_ethernet_output; [done|apply elem_of_cons; by left|done|done]|]. intros _.
  eapply total_skip; [apply acc_free|]. intros _.
  eapply total_post; [apply (IH _ (set_q qs e)); [by rewrite list_lookup_insert_eq|simpl; lia]|].
  intros r s. by rewrite list_insert_insert_eq.
Qed.

Lemma live_update w g H nif ip eth flags :
  ready g nif -> length eth = 6%nat ->
  returns (live w g H) (etharp_update_arp_entry nif ip eth flags) (fun _ => live w g H).
Proof.
  intros Hr Heth. pose proof Hr as (n & Hn & Hl). unfold etharp_update_arp_entry.
  eapply total_step; [by apply live_get_netif|]. intros r ->.
  destruct (_ || _); [by apply total_ret|].
  eapply total_step; [by apply live_find_entry|].
  intros [i|] Hi; [|by apply total_ret]. specialize (Hi i eq_refl).
  apply live_elim. intros T Ht. destruct (table_lookup g T i Ht Hi) as [e He].
  apply (acc_open _ _ _ _ i e); [done|]. do 4 (apply acc_edit; [done|done|done|]).
  set (e' := set_ctime 0 _).
  assert (<[Z.to_nat i := e']> T !! Z.to_nat i = Some e') as He' by (apply list_lookup_insert_eq; by eapply lookup_lt_Some).
  eapply total_step; [apply raw_get_entry; [lia|exact He']|]. intros r ->.
  eapply total_skip; [eapply live_send_queue; [done|done|lia|exact He'|done]|]. intros _.
  apply total_ret. intros s. rewrite list_insert_insert_eq. apply live_intro. by apply table_insert.
Qed.

(** *** Packets that wait *)

Lemma live_queue_packet w g T H i p :
  table_ok g T -> 0 <= i < ARP_TABLE_SIZE ->
  returns (acc w g T (p :: H)) (queue_packet i p) (fun _ => live w g H).
Proof.
  intros Ht Hi. destruct (table_lookup g T i Ht Hi) as [e He]. unfold queue_packet.
  eapply total_skip; [apply raw_malloc_arpq|]. intros [|]; cbn [negb].
  2:{ eapply total_skip; [apply acc_free|]. intros _. apply total_ret. intros s. by apply live_intro. }
  eapply total_step; [apply raw_get_entry; [lia|exact He]|]. intros r ->. cbv zeta.
  eapply total_skip; [apply acc_upd_entry with (H' := H) (e := e); [lia|done|simpl; by rewrite <- app_assoc]|]. intros _.
  assert (Z.to_nat i < length T)%nat as Hlt by (by eapply lookup_lt_Some).
  assert (table_ok g (<[Z.to_nat i := set_q (q e ++ [p]) e]> T)) as Ht1.
  { by eapply table_same. }
  eapply total_skip; [|intros; by apply total_ret].
  destruct (ARP_QUEUE_LEN <=? lenZ (q e)); [|apply total_ret; intros s; by apply live_intro].
  eapply total_step; [apply raw_get_entry; [lia|by rewrite list_lookup_insert_eq]|]. intros r ->. simpl.
  destruct (q e ++ [p]) as [|old qs] eqn:Hq; [by destruct (q e)|].
  eapply total_skip; [apply acc_upd_entry with (H' := old :: H) (e := set_q (old :: qs) e);
    [lia|by rewrite list_lookup_insert_eq|apply Permutation_middle]|]. intros _.
  rewrite list_insert_insert_eq. eapply total_skip; [apply acc_free|]. intros _.
  eapply total_post; [apply raw_free_arpq|]. intros r s. apply live_intro.
  by eapply table_same.
Qed.

(** No pbuf with memory of its own has to be copied. *)
Lemma sane_needs_copy n w R h p :
  sane n w R h -> p ∈ R -> needs_copy (chain_fuel h) (Some p) h = Some (false, h).
Proof.
  intros Hs Hp. destruct (sane_chain _ _ _ _ _ Hs Hp) as (l & Hl & Hown).
  pose proof (chain_fuel_enough _ _ _ Hl) as Hf. revert Hf Hown. generalize (chain_fuel h) as fuel. revert Hl.
  generalize (Some p) as o. clear Hp. induction l as [|[i b] l IH]; intros o Hc fuel Hf Hown.
  - apply (fun H => H) in Hc. inversion Hc; subst. by destruct fuel.
  - apply chain_inv' in Hc as (-> & Hi & Hc). destruct fuel as [|fuel]; [simpl in Hf; lia|].
    apply Forall_cons in Hown as [[_ Hst _ _] Hown]. simpl in Hst. cbn [needs_copy].
    mrun (get_pbuf_run _ _ _ Hi). rewrite Hst. simpl. apply IH; [done|simpl in Hf; lia|done].
Qed.

Lemma live_query w g H nif ip p :
  ready g nif -> (forall i, p = Some i -> i ∈ H /\ w = Some i) ->
  returns (live w g H) (etharp_query nif ip p) (fun _ => live None g H).
Proof.
  intros Hr Hp. pose proof Hr as (n & Hn & Hl). unfold etharp_query.
  eapply total_step; [by apply live_get_netif|]. intros r ->.
  destruct (_ || _ || _); [apply total_ret, live_weaken|].
  eapply total_step; [by apply live_find_entry|].
  intros [i|] Hi; [|apply total_ret, live_weaken]. specialize (Hi i eq_refl).
  apply live_elim. intros T Ht. destruct (table_lookup g T i Ht Hi) as [e He].
  eapply total_step; [apply raw_get_entry; [lia|exact He]|]. intros r ->. cbv zeta.
  (* a fresh entry becomes pending *)
  eapply total_bind with (R := fun _ => live w g H).
  { case_bool_decide; [|apply total_ret; intros s; by apply live_intro].
    apply (acc_open _ _ _ _ i e); [done|]. apply acc_edit; [done|done|done|].
    eapply total_post; [apply acc_upd_entry with (H' := H) (e := set_state ETHARP_STATE_PENDING e);
      [lia|apply list_lookup_insert_eq; by eapply lookup_lt_Some|done]|].
    intros r s. rewrite list_insert_insert_eq. apply live_intro.
    apply table_insert; [done|simpl; by eapply table_addr|simpl; eauto]. }
  intros _. eapply total_bind with (R := fun _ => live w g H).
  { destruct (_ || _); [|by apply total_ret]. apply live_elim. intros T1 Ht1.
    eapply total_post; [by apply acc_request|]. intros r s. by apply live_intro. }
  intros result. destruct p as [p|]; [|apply total_ret, live_weaken]. destruct (Hp p eq_refl) as [Hin ->].
  clear T Ht He e. apply live_elim. intros T Ht. destruct (table_lookup g T i Ht Hi) as [e He].
  eapply total_step; [apply raw_get_entry; [lia|exact He]|]. intros r ->.
  destruct (stable (e_state e)).
  { eapply total_skip; [by apply raw_set_cached|]. intros _. eapply total_step; [by apply acc_get_netif|]. intros r ->.
    eapply total_post; [apply acc_ethernet_output; [done|done|done|by eapply table_addr]|].
    intros r s Hs. eapply live_weaken, live_intro; [done|exact Hs]. }
  case_bool_decide; [|apply total_ret; intros s Hs; eapply live_weaken, live_intro; [done|exact Hs]].
  intros s Hs. set (h := n_heap s). assert (zoom (P := heap) get s = Some (h, s)) as Hget by by destruct s.
  pose proof (sane_needs_copy _ _ _ _ p (raw_heap _ _ _ _ _ Hs) ltac:(apply elem_of_app; by right)) as Hnc.
  assert (onheap (needs_copy (chain_fuel h) (Some p)) s = Some (false, s)) as Hnc' by (destruct s; by apply heap_run).
  rewrite (bind_run _ _ _ _ _ Hget). cbv beta. rewrite (bind_run _ _ _ _ _ Hnc'). cbv beta iota.
  enough (returns (acc (Some p) g T H)
    (p' ← (onheap (pbuf_ref (Some p));; mret (Some p));
     match p' with None => mret ERR_MEM | Some p' => queue_packet i p' end) (fun _ => live None g H)) as Hm by (by apply Hm).
  eapply total_bind with (R := fun r s => r = Some p /\ acc None g T (p :: H) s).
  { eapply total_skip; [by apply acc_ref|]. intros _. by apply total_ret. }
  intros r. apply total_fact. intros ->. by apply live_queue_packet.
Qed.

(** *** Sending an IP packet *)

Lemma live_request w g H i ip :
  ready g i -> returns (live w g H) (etharp_request i ip) (fun _ => live w g H).
Proof.
  intros Hi. apply live_elim. intros T Ht. eapply total_post; [by apply acc_request|].
  intros r s. by apply live_intro.
Qed.

Lemma live_output_to_arp_index w g H nif p i :
  ready g nif -> p ∈ H -> 0 <= i < ARP_TABLE_SIZE ->
  returns (live w g H) (etharp_output_to_arp_index nif p i) (fun _ => live w g H).
Proof.
  intros Hr Hp Hi. pose proof Hr as (n & Hn & Hl). unfold etharp_output_to_arp_index.
  apply live_elim. intros T Ht. destruct (table_lookup g T i Ht Hi) as [e He].
  eapply total_step; [apply raw_get_entry; [lia|exact He]|]. intros r ->.
  assert (forall T e, table_ok g T -> T !! Z.to_nat i = Some e ->
    returns (acc w g T H) (upd_entry i (set_state ETHARP_STATE_STABLE_REREQUESTING_1)) (fun _ => live w g H)) as Hset.
  { intros T1 e1 Ht1 He1. eapply total_post; [by apply acc_upd_entry with (H' := H) (e := e1); [lia|..]|].
    intros r s. apply live_intro. by eapply table_same. }
  eapply total_bind with (R := fun _ => live w g H).
  - assert (forall T, table_ok g T -> returns (acc w g T H) (mret tt) (fun _ => live w g H)) as Hret
      by (intros T1 Ht1; apply total_ret; intros s; by apply live_intro).
    case_bool_decide; [|by apply Hret]. destruct (_ <=? _).
    + eapply total_skip; [by apply acc_request|]. intros r. case_bool_decide; [by eapply Hset|by apply Hret].
    + destruct (_ <=? _); [|by apply Hret]. eapply total_skip; [apply acc_request_dst; [done|by eapply table_addr]|].
      intros r. case_bool_decide; [by eapply Hset|by apply Hret].
  - intros _. clear T Ht He e Hset. eapply total_step; [by apply live_get_netif|]. intros r ->.
    apply live_elim. intros T Ht. destruct (table_lookup g T i Ht Hi) as [e He].
    eapply total_step; [apply raw_get_entry; [lia|exact He]|]. intros r ->.
    eapply total_post; [apply acc_ethernet_output; [done|done|done|by eapply table_addr]|].
    intros r s. by apply live_intro.
Qed.

Lemma live_ethernet_output w g H i p src dst ty :
  ready g i -> p ∈ H -> length src = 6%nat -> length dst = 6%nat ->
  returns (live w g H) (ethernet_output i p src dst ty) (fun _ => live w g H).
Proof.
  intros. apply live_elim. intros T Ht. eapply total_post; [by apply acc_ethernet_output|].
  intros r s. by apply live_intro.
Qed.

(** etharp_output on a packet the caller holds, with room for a reference. *)
Lemma live_output g H nif p ip :
  ready g nif -> p ∈ H ->
  returns (live (Some p) g H) (etharp_output nif p ip) (fun _ => live None g H).
Proof.
  intros Hr Hp. pose proof Hr as (n & Hn & Hl). unfold etharp_output.
  eapply total_step; [by apply live_get_netif|]. intros r ->.
  destruct (ip4_addr_isbroadcast_u32 ip n).
  { eapply total_post; [by apply live_ethernet_output|]. intros r s. apply live_weaken. }
  destruct (ip4_addr_ismulticast ip).
  { eapply total_post; [by apply live_ethernet_output|]. intros r s. apply live_weaken. }
  cbv zeta. destruct (_ && _); [apply total_ret, live_weaken|].
  apply live_elim. intros T Ht. eapply total_step; [apply raw_get|]. intros a [Ha Hc].
  destruct (table_lookup g T _ Ht Hc) as [e He].
  eapply total_step; [apply raw_get_entry; [lia|exact He]|]. intros r ->. rewrite Ha.
  destruct (_ && _ && _).
  { eapply total_conseq; [by apply live_output_to_arp_index|intros s; by apply live_intro|].
    intros r s. apply live_weaken. }
  destruct (find_stable _ _ _ _) as [i|] eqn:Hf.
  - apply find_stable_range in Hf as (k & e1 & -> & Hk & _). apply lookup_lt_Some in Hk.
    rewrite (table_length _ _ Ht) in Hk.
    eapply total_skip; [apply raw_set_cached; unfold ARP_TABLE_SIZE; lia|]. intros _.
    eapply total_conseq; [apply live_output_to_arp_index; [done|done|unfold ARP_TABLE_SIZE; lia]|intros s; by apply live_intro|].
    intros r s. apply live_weaken.
  - eapply total_pre; [apply live_query; [done|by intros i [= <-]]|]. intros s. by apply live_intro.
Qed.

(** *** Receiving *)

(** etharp_input reads the header wherever the packet ends; a pbuf whose block
    has 28 bytes there is what it needs. *)
Lemma live_input w g H p nif :
  ready g nif ->
  returns (fun s => live w g (p :: H) s /\ readable (n_heap s) p SIZEOF_ETHARP_HDR) (etharp_input p nif)
    (fun _ => live w g H).
Proof.
  intros Hr. pose proof Hr as (n & Hn & Hl). unfold etharp_input, SIZEOF_ETHARP_HDR.
  intros s [(T & Ht & Hs) Hrd]. revert s Hs Hrd.
  enough (returns (fun s => acc w g T (p :: H) s /\ readable (n_heap s) p 28) (etharp_input p nif) (fun _ => live w g H)) as Hm
    by (intros s Hs Hrd; by apply Hm).
  unfold etharp_input, SIZEOF_ETHARP_HDR. apply at_pbuf_intro. intros b.
  eapply total_step; [apply acc_get_pbuf|]. intros r ->.
  eapply total_bind with (R := fun r s => lenZ r = 28 /\ acc w g T (p :: H) s).
  { intros s Hs. destruct (acc_load w g T (p :: H) p b 28 ltac:(lia) s Hs) as (d & s' & Hd & Hs').
    exists d, s'. split; [done|]. split; [|by eapply at_pbuf_acc].
    apply zoom_inv in Hd as (h' & Hd & _). by apply load_length in Hd. }
  intros hdr. apply total_fact. intros Hhdr.
  assert (forall r : unit, returns (live w g (p :: H)) (onheap (pbuf_free (Some p));; mret r) (fun _ => live w g H)) as Hfree.
  { intros r. apply live_elim. intros T1 Ht1. eapply total_skip; [apply acc_free|]. intros _.
    apply total_ret. intros s. by apply live_intro. }
  apply total_pre with (live w g (p :: H)); [|intros s; by apply live_intro].
  destruct (_ || _ || _ || _); [apply Hfree|]. cbv zeta.
  assert (length (slice hdr 8 6) = 6%nat) as Hsl by (pose proof (length_slice hdr 8 6 ltac:(lia) ltac:(lia)); lia).
  eapply total_step; [by apply live_get_netif|]. intros r ->.
  eapply total_skip; [by apply live_update|]. intros _.
  eapply total_bind with (R := fun _ => live w g (p :: H)); [|intros _; apply Hfree].
  destruct (_ =? _); [|by apply total_ret]. destruct (if _ : bool then _ else _); [|by apply total_ret].
  eapply total_step; [by apply live_get_netif|]. intros r ->.
  apply live_elim. intros T1 Ht1. eapply total_skip; [by apply acc_raw|]. intros _.
  apply total_ret. intros s. by apply live_intro.
Qed.

(** ** The timer and the interface that goes away *)

Lemma live_for_entries w g H f :
  (forall i, 0 <= i < ARP_TABLE_SIZE -> returns (live w g H) (f i) (fun _ => live w g H)) ->
  forall k i, 0 <= i -> i + Z.of_nat k <= ARP_TABLE_SIZE ->
  returns (live w g H) (for_entries k i f) (fun _ => live w g H).
Proof.
  intros Hf. induction k as [|k IH]; intros i Hi Hk; [by apply total_ret|]. cbn [for_entries].
  eapply total_skip; [apply Hf; lia|]. intros _. apply IH; lia.
Qed.

Lemma live_free_entry w g T H i e :
  table_ok g T -> 0 <= i -> T !! Z.to_nat i = Some e ->
  returns (acc w g T H) (etharp_free_entry i) (fun _ => live w g H).
Proof.
  intros Ht Hi He. eapply total_post; [by eapply acc_free_entry|]. intros r s. apply live_intro.
  by apply table_insert.
Qed.

Lemma live_tmr_entry w g H i :
  0 <= i < ARP_TABLE_SIZE -> returns (live w g H) (etharp_tmr_entry i) (fun _ => live w g H).
Proof.
  intros Hi. apply live_elim. intros T Ht. destruct (table_lookup g T i Ht Hi) as [e He].
  unfold etharp_tmr_entry. eapply total_step; [apply raw_get_entry; [lia|exact He]|]. intros r ->.
  case_bool_decide; [apply total_ret; intros s; by apply live_intro|].
  apply (acc_open _ _ _ _ i e); [done|]. apply acc_edit; [done|done|done|].
  set (e1 := set_ctime _ e). set (T1 := <[Z.to_nat i := e1]> T).
  assert (T1 !! Z.to_nat i = Some e1) as He1 by (apply list_lookup_insert_eq; by eapply lookup_lt_Some).
  assert (table_ok g T1) as Ht1 by (by eapply table_same).
  eapply total_step; [apply raw_get_entry; [lia|exact He1]|]. intros r ->.
  destruct (_ || _); [eapply live_free_entry; [done|lia|exact He1]|].
  assert (forall st, st <> ETHARP_STATE_PENDING ->
    returns (acc w g T1 H) (upd_entry i (set_state st)) (fun _ => live w g H)) as Hset.
  { intros st Hst. eapply total_post; [by apply acc_upd_entry with (H' := H) (e := e1); [lia|..]|].
    intros r s. apply live_intro. by eapply table_same. }
  destruct (e_state e1) eqn:Est; try (by apply Hset); try (apply total_ret; intros s; by apply live_intro).
  destruct (table_netif _ _ Ht1 _ _ He1 Est) as (j & -> & Hj).
  eapply total_skip; [by apply acc_request|]. intros _. apply total_ret. intros s. by apply live_intro.
Qed.

Lemma live_tmr w g H : returns (live w g H) etharp_tmr (fun _ => live w g H).
Proof. apply live_for_entries; [intros; by apply live_tmr_entry|done|done]. Qed.

Lemma live_cleanup w g H nif : returns (live w g H) (etharp_cleanup_netif nif) (fun _ => live w g H).
Proof.
  apply live_for_entries; [|done|done]. intros i Hi. apply live_elim. intros T Ht.
  destruct (table_lookup g T i Ht Hi) as [e He].
  eapply total_step; [apply raw_get_entry; [lia|exact He]|]. intros r ->.
  destruct (_ && _); [eapply live_free_entry; [done|lia|done]|]. apply total_ret. intros s. by apply live_intro.
Qed.

End Budget.

(** ** Looking at a live state *)

(** [total] for the one state at hand. *)
Lemma total_run {A} (P : node X -> Prop) (m : M (node X) A) Q s :
  total (fun s => s) P m Q -> P s -> exists r s', m s = Some (r, s') /\ Q r s'.
Proof. intros Hm. apply Hm. Qed.

(** The count of [p] has room for one more reference. *)
Definition countable (h : heap) (p : positive) : Prop := forall b, h_pbufs h !! p = Some b -> ref b < 255.

Lemma live_watch N g H s p : live N None g H s -> countable (n_heap s) p -> live N (Some p) g H s.
Proof.
  intros (T & Ht & [? ? ? ? Hs]) Hp. exists T. split; [done|]. split; try done. by eapply sane_watch.
Qed.
Lemma live_perm N w g H H' s : H ≡ₚ H' -> live N w g H s -> live N w g H' s.
Proof. intros Hp (T & Ht & Hs). exists T. split; [done|]. eapply raw_perm; [|exact Hs]. by rewrite Hp. Qed.
Lemma live_netifs N w g H s : live N w g H s -> n_netifs s = g.
Proof. by intros (T & _ & [? _ _ _ _]). Qed.


(** ** Frames for IP *)

(** The references [H], with those the layers above keep at the moment. *)
Definition alive (N : budget) (w : option positive) (g : netifs) (H : list positive) (s : node X) : Prop :=
  exists U, live (with_others U N) w g H s.

Lemma live_alive N w g H s : live N w g H s -> alive N w g H s.
Proof. exists (others N). by rewrite with_others_id. Qed.

(** IP consumes the packet it is given. *)
Class LiveIp {IL : IpLayer X} := live_ip4_input N g H i p :
  wired g -> ready g i -> p ∉ kept N ->
  returns (fun s => live N None g (p :: H) s /\ inbound (n_heap s) p 28) (ip4_input_call p i) (fun _ => alive N None g H).

(** A frame: ethernet_input hands it to ARP or IP, or drops it. *)
Lemma live_ethernet_input {LK : forall N, LiveLink N} {IL : IpLayer X} {LI : LiveIp} N g H p nif :
  wired g -> ready g nif -> p ∉ kept N ->
  returns (fun s => live N None g (p :: H) s /\ inbound (n_heap s) p FRAME_HEADERS)
    (ethernet_input etharp_input p nif) (fun _ => alive N None g H).
Proof.
  intros Hw Hr Hnk. pose proof Hr as (n & Hn & Hl).
  intros s [(T & Ht & Hs) [Hrd Hun]]. revert s Hs Hrd Hun. unfold FRAME_HEADERS.
  enough (returns (fun s => acc N None g T (p :: H) s /\ inbound (n_heap s) p (14 + 28)) (ethernet_input etharp_input p nif)
    (fun _ => alive N None g H)) as Hm by (intros s Hs Hrd Hun; by apply Hm).
  unfold ethernet_input, SIZEOF_ETH_HDR.
  intros s [Hs [Hrd Hun]]. pose proof Hrd as (b & _ & _ & Hb & _). specialize (Hun b Hb). revert s Hs Hrd Hb.
  enough (returns (at_pbuf N None g T (p :: H) p b (14 + 28)) (ethernet_input etharp_input p nif) (fun _ => alive N None g H)) as Hm
    by (intros s Hs Hrd Hb; by apply Hm).
  unfold ethernet_input, SIZEOF_ETH_HDR.
  eapply total_step; [apply acc_get_pbuf|]. intros r ->.
  assert (returns (acc N None g T (p :: H)) (onheap (pbuf_free (Some p));; mret ERR_OK) (fun _ => alive N None g H)) as Hfree.
  { eapply total_skip; [apply acc_free|]. intros _. apply total_ret. intros s Hs. by eapply live_alive, live_intro. }
  destruct (len b <=? 14); [eapply total_pre; [apply Hfree|apply at_pbuf_acc]|].
  apply total_pre with (seen N None g T (p :: H) p (payload b) (14 + 28)); [|intros s Hat; by exists b].
  eapply total_step; [by apply seen_get_netif|]. intros r ->.
  eapply total_skip with (R := seen N None g T (p :: H) p (payload b) (14 + 28)).
  { destruct (_ =? _); [by apply seen_upd|by apply total_ret]. }
  intros _. eapply total_skip; [apply seen_load; lia|]. intros hdr. cbv zeta.
  eapply total_skip; [apply seen_upd; intros c; split; [unfold same_refs; split_and!; try done; apply ll_flags_custom|done]|]. intros _.
  assert (returns (seen N None g T (p :: H) p (payload b) (14 + 28)) (onheap (pbuf_free (Some p));; mret ERR_OK)
    (fun _ => alive N None g H)) as Hfree' by (eapply total_pre; [apply Hfree|apply seen_acc]).
  assert (forall {A} (m : M (node X) A), returns (fun s => live N None g (p :: H) s /\ inbound (n_heap s) p 28) m (fun _ => alive N None g H) ->
    returns (seen N None g T (p :: H) p (payload b) (14 + 28))
      (r ← onheap (pbuf_remove_header (Some p) 14);
       (if (r : bool) then (onheap (pbuf_free (Some p));; mret ERR_OK) else (m;; mret ERR_OK)) : M (node X) err_t) (fun _ => alive N None g H)) as Hup.
  { intros A m Hm. eapply total_bind; [apply seen_remove_header; [apply elem_of_cons; by left|done|lia]|].
    intros [|]; [eapply total_pre; [apply Hfree|by intros s [? _]]|].
    eapply total_skip; [eapply total_pre; [exact Hm|]|intros _; by apply total_ret].
    intros s [Hs Hin]. split; [by eapply live_intro|by apply Hin]. }
  destruct (_ =? PP_HTONS ETHTYPE_IP).
  { destruct (negb _); [exact Hfree'|]. by apply Hup, live_ip4_input. }
  destruct (_ =? PP_HTONS ETHTYPE_ARP); [|exact Hfree'].
  destruct (negb _); [exact Hfree'|]. apply Hup.
  eapply total_conseq; [by apply live_input|by intros s [? [? _]]|]. intros r s. apply live_alive.
Qed.

End Live.
