(* ===== verification/Ip4Live.v ===== *)
(** * IPv4: no operation of it goes wrong, output

    As EtharpLive, for core/ipv4/ip4.c's output functions: on a heap of the
    stack's own pbufs they return, and leave such a heap and the references
    where they were. *)
From S2P Require Import Prelude Triple Def Pbuf PbufFacts PbufWrite PbufAlloc PbufPool PbufChain PbufRef PbufOwn PbufEdit.
From S2P Require Import Netif Node Ip4Addr InetChksum Ethernet EthernetFacts Etharp EtharpFacts EtharpInv EtharpLive Ip4 Ip4Facts.

(** IP's variables are neither the cache nor references. *)
Class IpApart (X : Type) `{AP : part X arp} `{UP : !Upper X} `{IP : part X ip_state} := {
  ip_keeps_arp_part (i : ip_state) (x : X) : (get_part (set_part i x) : arp) = get_part x;
  ip_keeps_held (i : ip_state) (x : X) : held (set_part i x) = held x;
  ip_keeps_order (i : ip_state) (x : X) : in_order x -> in_order (set_part i x);
}.

Section Steps.
Context {E : PbufEnv} {X : Type} {LL : LinkLayer X} {AP : part X arp} {UP : Upper X} {IP : part X ip_state} {IA : IpApart X}.

Notation returns P m Q := (total (fun s : node X => s) P m Q).

(** A live state with the heap in [F] and IP's variables [i]. *)
Definition here (N : budget) (w : option positive) (g : netifs) (H : list positive) (i : ip_state) (F : heap -> Prop) (s : node X) : Prop :=
  live N w g H s /\ F (n_heap s) /\ ip_of s = i.

Section Here.
Context (N : budget) (w : option positive) (g : netifs) (H : list positive) (i : ip_state).

Lemma here_live F s : here N w g H i F s -> live N w g H s.
Proof. by intros [? _]. Qed.
Lemma here_open {A} (F : heap -> Prop) (m : M (node X) A) Q :
  (forall h0 R, F h0 -> sane N w (R ++ H) h0 -> returns (here N w g H i (shape h0)) m Q) -> returns (here N w g H i F) m Q.
Proof.
  intros Hm s (Hl & HF & Hi). pose proof Hl as (T & _ & Hs). apply (Hm (n_heap s) (queue_refs T)); [done|by apply (raw_heap _ _ _ _ _ _ Hs)|].
  split; [done|]. split; [apply shape_refl|done].
Qed.
Lemma here_intro {A} (P : node X -> Prop) (m : M (node X) A) Q :
  (forall i h0 R, sane N w (R ++ H) h0 -> returns (here N w g H i (shape h0)) m Q) -> returns (live N w g H) m Q.
Proof.
  intros Hm s Hl. pose proof Hl as (T & _ & Hs). eapply (Hm (ip_of s)); [apply (raw_heap _ _ _ _ _ _ Hs)|].
  split; [done|]. split; [apply shape_refl|done].
Qed.

(** A function on the heap, which may move references. *)
Lemma here_onheap {A} w' (H' : A -> list positive) F F' (m : M heap A) :
  (forall h R, sane N w (R ++ H) h -> F h -> exists r h', m h = Some (r, h') /\ sane N w' (R ++ H' r) h' /\ F' r h') ->
  returns (here N w g H i F) (onheap m) (fun r => here N w' g (H' r) i (F' r)).
Proof.
  intros Hm [h g0 x] ((T & Ht & [Hg HT Hc Hh Hs]) & HF & Hi). destruct (Hm _ _ Hs HF) as (r & h' & Hr & Hs' & HF').
  exists r, (Node h' g0 x). split; [by apply heap_run|]. split; [|done]. exists T. split; [done|]. by split.
Qed.

Lemma here_get_netif F k n : nif g !! k = Some n -> returns (here N w g H i F) (get_netif k) (fun r s => r = n /\ here N w g H i F s).
Proof.
  intros Hn s (Hl & HF & Hi). destruct (live_get_netif N w g H k n Hn s Hl) as (r & s' & Hr & -> & Hl').
  assert (s' = s) as ->; [|by exists n, s]. pose proof (live_netifs _ _ _ _ _ Hl) as <-. destruct s as [h g0 x]. simpl in Hn.
  rewrite (get_netif_run h g0 x k n Hn) in Hr. by injection Hr.
Qed.
Lemma here_ip_get F : returns (here N w g H i F) (onip get) (fun r s => r = i /\ here N w g H i F s).
Proof.
  intros [h g0 x] Hs. exists (get_part x), (Node h g0 x). split; [apply onip_get_run|]. split; [|done]. by destruct Hs as (_ & _ & ?).
Qed.

(** Reading and writing in a heap of a known shape. *)
Section Shape.
Context (h0 : heap) (p : positive) (b : pbuf) (k : Z).
Hypothesis Hb : h_pbufs h0 !! p = Some b.
Hypothesis Hk : readable h0 p k.

Lemma here_get_pbuf : returns (here N w g H i (shape h0)) (onheap (get_pbuf p)) (fun r s => r = b /\ here N w g H i (shape h0) s).
Proof.
  intros [h g0 x] Hs. pose proof Hs as (_ & [Ep _] & _). simpl in Ep. exists b, (Node h g0 x). split; [|done].
  apply heap_run, get_pbuf_run. by rewrite Ep.
Qed.
Lemma here_store o v :
  0 <= o -> o + lenZ v <= k ->
  returns (here N w g H i (shape h0)) (onheap (store (payload b) o v)) (fun _ => here N w g H i (shape h0)).
Proof.
  intros Ho Hv. apply (here_onheap w (fun _ => H) _ (fun _ => shape h0)). intros h R Hs Hsh.
  destruct (shape_store N w (R ++ H) h0 h p b k o v Hs Hsh Hb Hk Ho Hv) as (h2 & ? & ? & ?). by exists tt, h2.
Qed.
Lemma here_load o m :
  0 <= o -> 0 <= m -> o + m <= k ->
  returns (here N w g H i (shape h0)) (onheap (load (payload b) o m)) (fun r s => lenZ r = m /\ here N w g H i (shape h0) s).
Proof.
  intros Ho Hm Hv [h g0 x] Hs. pose proof Hs as (_ & Hsh & _). simpl in Hsh.
  destruct (shape_load h0 h p b k o m Hsh Hb Hk Ho Hm Hv) as (d & Hd & Hl). exists d, (Node h g0 x).
  split; [by apply heap_run|done].
Qed.
Lemma here_load16 o :
  0 <= o -> o + 2 <= k -> returns (here N w g H i (shape h0)) (onheap (load16 (payload b) o)) (fun _ => here N w g H i (shape h0)).
Proof.
  intros Ho Hv [h g0 x] Hs. pose proof Hs as (_ & Hsh & _). simpl in Hsh.
  destruct (shape_load h0 h p b k o 2 Hsh Hb Hk Ho ltac:(done) Hv) as (d & Hd & Hl). exists (ld16 d 0), (Node h g0 x).
  split; [|done]. apply heap_run. unfold load16. by mrun Hd.
Qed.
Lemma here_load32 o :
  0 <= o -> o + 4 <= k -> returns (here N w g H i (shape h0)) (onheap (load32 (payload b) o)) (fun _ => here N w g H i (shape h0)).
Proof.
  intros Ho Hv [h g0 x] Hs. pose proof Hs as (_ & Hsh & _). simpl in Hsh.
  destruct (shape_load h0 h p b k o 4 Hsh Hb Hk Ho ltac:(done) Hv) as (d & Hd & Hl). exists (ld32 d 0), (Node h g0 x).
  split; [|done]. apply heap_run. unfold load32. by mrun Hd.
Qed.
End Shape.
End Here.

(** Writing IP's variables. *)
Lemma live_set_ip N w g H v h x : live N w g H (Node h g x) -> live N w g H (Node h g (set_part (v : ip_state) x)).
Proof.
  intros (T & Ht & [Hg HT Hc Hh Hs]). exists T. split; [done|]. unfold arp_of in *. simpl in *.
  split; unfold arp_of; simpl; rewrite ?ip_keeps_arp_part, ?ip_keeps_held; try done. split; [apply Hh|apply ip_keeps_order, Hh].
Qed.
Lemma here_ip_put N w g H i v F : returns (here N w g H i F) (onip (put v)) (fun _ => here N w g H v F).
Proof.
  intros [h g0 x] (Hl & HF & Hi). pose proof (live_netifs _ _ _ _ _ Hl) as Eg. simpl in Eg. subst g0.
  eexists tt, (Node h g _). split; [done|]. split; [by apply live_set_ip|]. split; [done|]. unfold ip_of. simpl. apply get_set_part.
Qed.

(** ** The references above change hands *)
Lemma with_others_twice U U' N : with_others U (with_others U' N) = with_others U N.
Proof. done. Qed.
Lemma alive_elim {A} N w g H (m : M (node X) A) Q :
  (forall U, returns (live (with_others U N) w g H) m Q) -> returns (alive N w g H) m Q.
Proof. intros Hm s [U Hs]. by apply (Hm U). Qed.
Lemma alive_others U N w g H s : alive (with_others U N) w g H s -> alive N w g H s.
Proof. intros [U' Hs]. by exists U'. Qed.
Lemma live_free N w g H p : returns (live N w g (p :: H)) (onheap (pbuf_free (Some p))) (fun _ => live N w g H).
Proof. apply live_elim. intros T Ht. eapply total_post; [apply acc_free|]. intros r s Hs. by eapply live_intro. Qed.
Lemma alive_free N w g H p : returns (alive N w g (p :: H)) (onheap (pbuf_free (Some p))) (fun _ => alive N w g H).
Proof. apply alive_elim. intros U. eapply total_post; [apply live_free|]. intros r s Hs. by exists U. Qed.

End Steps.

(** What is asked of core/ipv4/ip4_frag.c: ip4_frag leaves the packet to its
    caller, ip4_reass consumes it and may give back a whole packet, that nothing
    else refers to, with a header of 20 bytes in its first pbuf. *)
Definition whole (h : heap) (p : positive) : Prop :=
  exists b o bs, h_pbufs h !! p = Some b /\ payload b = Some (Ptr p o) /\ h_mem h !! p = Some bs /\
    ref b = 1 /\ 20 <= len b /\ len b <= tot_len b < 65536 /\ 0 <= o /\ o + 28 <= lenZ bs /\ IPH_HL_BYTES (byte_at (from bs o) 0) = 20.

Class LiveFragments (X : Type) `{AP : part X arp} `{UP : !Upper X} `{FR : IpFragments X} := {
  live_ip4_frag N g H p i dest : wired g -> ready g i -> p ∈ H ->
    total (fun s : node X => s) (live N (Some p) g H) (ip4_frag p i dest) (fun _ => alive N None g H);
  live_ip4_reass N g H p : p ∉ kept N ->
    total (fun s : node X => s) (fun s => live N None g (p :: H) s /\ inbound (n_heap s) p 28) (ip4_reass p)
      (fun r s => alive N None g (option_list r ++ H) s /\ forall p', r = Some p' -> p' ∉ kept N /\ whole (n_heap s) p');
}.

Section Output.
Context {E : PbufEnv} {X : Type} {LL : LinkLayer X} {AP : part X arp} {UP : Upper X} {IP : part X ip_state} {IA : IpApart X}.
Context {FR : IpFragments X} {LF : LiveFragments X} {LK : forall N, LiveLink N}.

Notation returns P m Q := (total (fun s : node X => s) P m Q).

Lemma find_netif_ready g f l i : Forall (ready g) l -> find_netif f (nif g) l = Some i -> ready g i.
Proof.
  induction 1 as [|j l Hj Hl IH]; [done|]. cbn [find_netif]. destruct (nif g !! j) as [n|]; [|done].
  destruct (f n); [by intros [= <-]|done].
Qed.

Lemma live_route N w g H dest :
  wired g -> returns (live N w g H) (ip4_route dest) (fun r s => (forall i, r = Some i -> ready g i) /\ live N w g H s).
Proof.
  intros Hw. unfold ip4_route. eapply total_step with (F := fun r => r = g) (R := live N w g H).
  { intros [h g0 x] Hs. pose proof (live_netifs _ _ _ _ _ Hs) as Eg. by exists g0, (Node h g0 x). }
  intros r ->. destruct (find_netif _ _ _) as [i|] eqn:Hf.
  { apply total_ret. intros s Hs. split; [|done]. intros j [= <-]. eapply find_netif_ready; [apply Hw|exact Hf]. }
  destruct (netif_default g) as [d|] eqn:Hd; [|by apply total_ret].
  pose proof (wired_default _ Hw d Hd) as Hr. pose proof Hr as (n & Hn & _).
  eapply total_step; [by apply live_get_netif|]. intros r ->.
  destruct (_ || _ || _ || _); apply total_ret; (intros s Hs; split; [|done]); [done|]. by intros i [= <-].
Qed.

Lemma live_netif_output N g H i p ip :
  ready g i -> p ∈ H -> returns (live N (Some p) g H) (netif_output i p ip) (fun _ => live N None g H).
Proof.
  intros Hr Hp. pose proof Hr as (n & Hn & _). unfold netif_output. eapply total_step; [by apply live_get_netif|]. intros r ->.
  destruct (output n); [apply total_ret, live_weaken|by apply live_output].
Qed.

Lemma live_transmit N g H p dest i :
  wired g -> ready g i -> p ∈ H -> returns (live N (Some p) g H) (ip4_transmit p dest i) (fun _ => alive N None g H).
Proof.
  intros Hw Hr Hp. apply (here_intro _ _ _ _ (live N (Some p) g H)). intros ips h0 R Hs.
  destruct (sane_live _ _ _ _ p Hs ltac:(apply elem_of_app; by right)) as (b & Hb & Hown).
  pose proof Hr as (n & Hn & _). unfold ip4_transmit. eapply total_step; [by apply here_get_netif|]. intros r ->.
  eapply total_step; [by apply here_get_pbuf|]. intros r ->.
  destruct (_ && _); (eapply total_pre; [|apply here_live]).
  - by apply live_ip4_frag.
  - eapply total_post; [by apply live_netif_output|]. intros r s. apply live_alive.
Qed.

Lemma lenZ_st32 v : lenZ (st32 v) = 4. Proof. done. Qed.

Lemma live_output_if_src N g H p src dest ttl tos proto i :
  wired g -> ready g i -> p ∈ H ->
  returns (live N (Some p) g H) (ip4_output_if_src p src dest ttl tos proto i) (fun _ => alive N None g H).
Proof.
  intros Hw Hr Hp. apply (here_intro _ _ _ _ (live N (Some p) g H)). intros ips h0 R Hs. unfold ip4_output_if_src.
  destruct dest as [dest|].
  - eapply total_bind; [eapply (here_onheap _ _ _ _ _ (Some p) (fun _ => H) _ (fun (r : bool) h => r = false -> readable h p IP_HLEN))|].
    { intros h R' Hs' _. apply (sane_add_header N (Some p) (R' ++ H) h p IP_HLEN Hs'); [apply elem_of_app; by right|by vm_compute]. }
    intros [|]; [apply total_ret; intros s Hs'; by eapply live_alive, live_weaken, here_live|].
    apply here_open. intros h1 R1 Hrd Hs1. specialize (Hrd eq_refl). unfold IP_HLEN in *.
    destruct (sane_live _ _ _ _ p Hs1 ltac:(apply elem_of_app; by right)) as (b & Hb & _).
    eapply total_step; [by apply here_get_pbuf|]. intros r ->. cbv zeta.
    do 7 (eapply total_skip; [eapply here_store; [exact Hb|exact Hrd|lia|simpl; lia]|]; intros _).
    eapply total_step; [apply here_ip_get|]. intros r ->.
    eapply total_skip; [eapply here_store; [exact Hb|exact Hrd|lia|simpl; lia]|]. intros _.
    eapply total_skip; [apply here_ip_put|]. intros _.
    do 2 (eapply total_skip; [eapply here_store; [exact Hb|exact Hrd|lia|simpl; lia]|]; intros _).
    eapply total_pre; [by apply live_transmit|apply here_live].
  - destruct (sane_live _ _ _ _ p Hs ltac:(apply elem_of_app; by right)) as (b & Hb & Hown).
    eapply total_step; [by apply here_get_pbuf|]. intros r ->. unfold IP_HLEN. destruct (len b <? 20) eqn:Hl; b2p.
    { apply total_ret. intros s Hs'. by eapply live_alive, live_weaken, here_live. }
    eapply total_skip; [eapply here_load32; [exact Hb|by apply own_readable|lia|lia]|]. intros d.
    eapply total_pre; [by apply live_transmit|apply here_live].
Qed.

Lemma live_output_if N g H p src dest ttl tos proto i :
  wired g -> ready g i -> p ∈ H ->
  returns (live N (Some p) g H) (ip4_output_if p src dest ttl tos proto i) (fun _ => alive N None g H).
Proof.
  intros Hw Hr Hp. pose proof Hr as (n & Hn & _). unfold ip4_output_if. eapply total_step; [by apply live_get_netif|].
  intros r ->. by apply live_output_if_src.
Qed.

Lemma live_ip4_output N g H p src dest ttl tos proto :
  wired g -> p ∈ H ->
  returns (live N (Some p) g H) (ip4_output p src dest ttl tos proto) (fun _ => alive N None g H).
Proof.
  intros Hw Hp. unfold ip4_output. eapply total_step; [by apply live_route|]. intros [i|] Hi.
  - apply live_output_if; [done|by apply Hi|done].
  - apply total_ret. intros s Hs. by eapply live_alive, live_weaken.
Qed.

End Output.
