(* ===== verification/IcmpLive.v ===== *)
(** * ICMP: no operation of core/ipv4/icmp.c goes wrong *)
From S2P Require Import Prelude Triple Def Pbuf PbufFacts PbufWrite PbufAlloc PbufPool PbufChain PbufRef PbufOwn PbufEdit.
From S2P Require Import Netif Node Ip4Addr InetChksum Ethernet EthernetFacts Etharp EtharpFacts EtharpInv EtharpLive Ip4 Icmp Ip4Facts Ip4Live.

Section Heap.
Context {E : PbufEnv} {AD : Addresses}.

(** The checksum of a packet can be computed. *)
Lemma chksum_loop_total h l : forall fuel p acc sw,
  chain h p l -> Forall (fun ib => own_ok h ib.1 ib.2) l -> (length l <= fuel)%nat ->
  exists r, chksum_pbuf_loop addr_of fuel p acc sw h = Some (r, h).
Proof.
  induction l as [|[i b] l IH]; intros fuel p acc sw Hc Ho Hf.
  - rewrite (chain_nil_inv _ _ Hc). destruct fuel; by eexists.
  - apply chain_inv' in Hc as (-> & Hi & Hc). apply Forall_cons in Ho as [Hb Ho].
    destruct fuel as [|fuel]; simpl in Hf; [lia|]. cbn [chksum_pbuf_loop].
    mrun (get_pbuf_run _ _ _ Hi). mrun (load_all h b (own_payload_ok _ _ _ Hb) (proj1 (own_len _ _ _ Hb))). cbv zeta.
    destruct (negb _); apply IH; (done || lia).
Qed.

Lemma sane_chksum n w R h p : sane n w R h -> p ∈ R -> exists c, inet_chksum_pbuf addr_of (Some p) h = Some (c, h).
Proof.
  intros Hs Hp. destruct (sane_chain _ _ _ _ _ Hs Hp) as (l & Hc & Ho). unfold inet_chksum_pbuf. rewrite bind_get.
  destruct (chksum_loop_total h l (chain_fuel h) (Some p) 0 false Hc Ho) as [[acc sw] Hr]; [pose proof (chain_fuel_enough _ _ _ Hc); lia|].
  mrun Hr. by eexists.
Qed.

(** ** The pbuf of an answer *)

(** A packet handed up: its header is [hlen] bytes before the payload. *)
Record handed (hlen : Z) (q : option ptr) (p : positive) (h : heap) : Prop := {
  handed_at : exists b o bs, h_pbufs h !! p = Some b /\ payload b = Some (Ptr p (o + hlen)) /\ q = Some (Ptr p o) /\
    h_mem h !! p = Some bs /\ ref b = 1 /\ 0 <= o /\ o + hlen + 8 <= lenZ bs;
}.
(** An answer: the pbuf is the caller's alone, with room for the ICMP header. *)
Definition answer (q : positive) (h : heap) : Prop :=
  exists b, h_pbufs h !! q = Some b /\ ref b = 1 /\ readable h q 8.

(** The layout of a new pbuf of the heap. *)
Lemma ram_pbuf_readable h layer k :
  0 <= k -> readable (with_new h (ram_size layer k) (ram_pbuf (h_next h) layer k) 0 0) (h_next h) k.
Proof.
  intros Hk. pose proof (layer_offset_bound layer). pose proof (LWIP_MEM_ALIGN_SIZE_bound k).
  pose proof (LWIP_MEM_ALIGN_SIZE_bound (layer_offset layer)).
  eexists _, _, _. simpl. rewrite !lookup_insert_eq. split; [done|]. split; [done|]. split; [done|].
  rewrite length_junk_block; unfold ram_size, SIZEOF_STRUCT_PBUF; lia.
Qed.

(** Giving up one pbuf leaves the struct of another one alone. *)
Lemma sane_free_other n w R h p q b :
  sane n w (p :: q :: R) h -> h_pbufs h !! q = Some b -> ref b = 1 ->
  exists c h', pbuf_free (Some p) h = Some (c, h') /\ sane n w (q :: R) h' /\ h_pbufs h' !! q = Some b.
Proof.
  intros Hs Hb Href. destruct (sane_free n w (q :: R) h p Hs) as (c & h' & Hr & Hs'). exists c, h'. split; [done|]. split; [done|].
  destruct (pbuf_free_counted h ((q :: R) ++ backing n) p (good_counted _ _ _ (sane_good _ _ _ _ Hs))) as (c1 & h1 & Hr1 & Hc1 & (_ & _ & Hsv) & _).
  rewrite Hr in Hr1. injection Hr1 as <- <-.
  destruct (sane_live _ _ _ _ q Hs' ltac:(apply elem_of_cons; by left)) as (b' & Hb' & _).
  destruct (Hsv q b' Hb') as (_ & b0 & Hb0 & Eb & Hle). assert (b0 = b) as -> by congruence.
  pose proof (counted_ref _ _ Hc1 q b' Hb') as [Hr1 _]. rewrite holds_app in Hr1.
  pose proof (holds_elem (q :: R) q ltac:(apply elem_of_cons; by left)).
  assert (ref b' = ref b) as Er by lia. rewrite Hb', Eb, Er. by destruct b.
Qed.

(** The header and the packet go to a new pbuf. *)
Lemma sane_echo_fill n w R h p o bs hlen q :
  sane n w (q :: p :: R) h -> q ∉ kept n -> h_mem h !! p = Some bs -> 0 <= o -> o + hlen <= lenZ bs -> 0 < hlen < 65536 ->
  forall b layer k, b = ram_pbuf q layer k -> h_pbufs h !! q = Some b -> readable h q k -> hlen + 8 <= k < 65536 ->
  exists d h3 h4 e h5, load (Some (Ptr p o)) 0 hlen h = Some (d, h) /\ store (payload b) 0 d h = Some (tt, h3) /\
    pbuf_remove_header (Some q) hlen h3 = Some (false, h4) /\ pbuf_copy (Some q) (Some p) h4 = Some (e, h5) /\
    sane n w (q :: p :: R) h5 /\ exists b', h_pbufs h5 !! q = Some b' /\ ref b' = 1 /\ 8 <= len b'.
Proof.
  intros Hs Hqk Hbs Ho Hl Hh b layer k -> Hq Hrd Hk. set (bq := ram_pbuf q layer k) in *.
  eexists _. destruct (shape_store n w (q :: p :: R) h h q bq k 0 (slice bs (o + 0) hlen) Hs (shape_refl _) Hq Hrd ltac:(lia)) as (h3 & Hst & Hs3 & [Ep3 _]).
  { rewrite length_slice by lia. lia. }
  assert (h_pbufs h3 !! q = Some bq) as Hq3 by by rewrite Ep3.
  destruct (sane_removed n w (q :: p :: R) h3 q bq _ hlen Hs3 Hqk Hq3 eq_refl ltac:(lia)) as (x & h4 & Hrm & Hs4 & Hmv & Hok).
  assert (x = false) as -> by (apply Hok; simpl; lia). destruct (Hmv eq_refl) as [_ ->]. clear Hmv Hok.
  set (b4 := move_payload _ _ _ _) in *. set (h4 := patch q b4 h3) in *.
  destruct (sane_copy n w (q :: p :: R) h4 q p Hs4) as (e & h5 & Hcp & Hs5 & Ep5); [apply elem_of_cons; by left|by apply elem_of_cons; right; apply elem_of_cons; left|].
  exists h3, h4, e, h5. split; [apply load_run; (done || lia)|]. do 4 (split; [done|]).
  exists b4. rewrite Ep5. split; [apply lookup_insert_eq|]. split; [done|]. change (len b4) with (u16 (k + - hlen)). rewrite u16_small by lia. lia.
Qed.

(** A pbuf the caller alone refers to. *)
Lemma answer_of n w R h q b : sane n w (q :: R) h -> h_pbufs h !! q = Some b -> ref b = 1 -> 8 <= len b -> answer q h.
Proof.
  intros Hs Hb Hr Hl. exists b. split; [done|]. split; [done|].
  destruct (own_readable h q b (sane_own _ _ _ _ Hs q b Hb) Hb) as (b' & o & bs & ? & ? & ? & ? & ?).
  exists b', o, bs. split_and!; (done || lia).
Qed.

(** A new pbuf is none of the frames kept. *)
Lemma sane_new_kept n w R h : sane n w R h -> h_next h ∉ kept n.
Proof.
  intros Hs Hin. pose proof (sane_kept _ _ _ _ Hs) as HK. rewrite Forall_forall in HK. destruct (HK _ Hin) as [(c & _ & _ & Hc & _) _].
  destruct (good_wf _ _ _ (sane_good _ _ _ _ Hs) (h_next h) ltac:(lia)). congruence.
Qed.

Lemma sane_echo_pbuf n w R h p q hlen :
  sane n w (p :: R) h -> p ∉ kept n -> handed hlen q p h -> 20 <= hlen <= 60 ->
  exists r h', icmp_echo_pbuf p q hlen h = Some (r, h') /\ sane n w (option_list r ++ R) h' /\
    (forall p', r = Some p' -> p' ∉ kept n /\ answer p' h').
Proof.
  intros Hs Hnk [(b & o & bs & Hb & Hpl & -> & Hbs & Href & Ho & Hl)] Hh.
  assert (p ∈ p :: R) as Hp by (apply elem_of_cons; by left). unfold icmp_echo_pbuf. cbv zeta. change (hlen + PBUF_LINK_HLEN) with (hlen + 16).
  assert (forall h', sane n w (p :: R) h' -> exists r h2, ((pbuf_free (Some p);; mret None) : M heap (option positive)) h' = Some (r, h2) /\
    sane n w (option_list r ++ R) h2 /\ (forall p', r = Some p' -> p' ∉ kept n /\ answer p' h2)) as Herr.
  { intros h' Hs'. destruct (sane_free _ _ _ _ _ Hs') as (c & h2 & Hr & Hs2). exists None, h2. by mrun Hr. }
  assert (forall q h', sane n w (q :: p :: R) h' -> exists r h2, ((pbuf_free (Some q);; pbuf_free (Some p);; mret None) : M heap (option positive)) h' = Some (r, h2) /\
    sane n w (option_list r ++ R) h2 /\ (forall p', r = Some p' -> p' ∉ kept n /\ answer p' h2)) as Herr2.
  { intros q h' Hs'. destruct (sane_free _ _ _ _ _ Hs') as (c & h2 & Hr & Hs2). mrun Hr. by apply Herr. }
  destruct (sane_added n w (p :: R) h p b (o + hlen) (hlen + 16) Hs Hp Hb Hpl ltac:(lia)) as ([|] & h1 & Hadd & Hs1 & Hsame & Hmoved & _);
    mrun Hadd; clear Hadd.
  - rewrite (Hsame eq_refl) in *. clear Hsame Hmoved. mrun (get_pbuf_run _ _ _ Hb). destruct (_ <? tot_len b); [by apply Herr|].
    destruct (sane_alloc_ram n w (p :: R) h PBUF_LINK (u16 (tot_len b + hlen)) Hs (u16_bound _)) as ([q|] & h2 & Hal & Hs2 & Heq); mrun Hal; [|by apply Herr].
    destruct Heq as [-> ->]. set (k := u16 _) in *. pose proof (u16_bound (tot_len b + hlen)) as Hk. fold k in Hk. cbn [option_list app] in Hs2.
    set (h2 := with_new _ _ _ _ _) in *. set (q := h_next h) in *.
    assert (p <> q) as Hpq. { intros ->. destruct (good_wf _ _ _ (sane_good _ _ _ _ Hs) q ltac:(unfold q; lia)). congruence. }
    assert (h_pbufs h2 !! q = Some (ram_pbuf q PBUF_LINK k)) as Hq by apply lookup_insert_eq. mrun (get_pbuf_run _ _ _ Hq).
    change (len (ram_pbuf q PBUF_LINK k)) with k. unfold SIZEOF_ICMP_ECHO_HDR. destruct (k <? hlen + 8) eqn:Ek; b2p; [by apply Herr2|].
    destruct (sane_echo_fill n w R h2 p o bs hlen q Hs2) with (b := ram_pbuf q PBUF_LINK k) (layer := PBUF_LINK) (k := k)
      as (d & h3 & h4 & e & h5 & Hld & Hst & Hrm & Hcp & Hs5 & b5 & Hq5 & Hr5 & Hl5); try done; [by eapply sane_new_kept|by simpl; rewrite lookup_insert_ne|lia..|by apply ram_pbuf_readable; lia|lia|].
    mrun Hld. mrun Hst. mrun Hrm. mrun Hcp. destruct (bool_decide (e = ERR_OK)); cbn [negb]; [|by apply Herr2].
    destruct (sane_free_other n w R h5 p q b5) as (c & h6 & Hfr & Hs6 & Hq6); [by eapply sane_proper; [apply perm_swap|done|done]|done|done|].
    mrun Hfr. exists (Some q), h6. split; [done|]. split; [done|]. intros p' [= <-]. split; [by eapply sane_new_kept|by eapply answer_of].
  - destruct (Hmoved eq_refl) as [_ ->]. clear Hsame Hmoved.
    set (b1 := move_payload _ _ _ _) in *. set (h1 := patch p b1 h) in *.
    assert (h_pbufs h1 !! p = Some b1) as Hb1 by apply lookup_insert_eq.
    destruct (sane_removed n w (p :: R) h1 p b1 _ (hlen + 16) Hs1 Hnk Hb1 eq_refl ltac:(lia)) as ([|] & h2 & Hrm & Hs2 & Hmv & _); mrun Hrm; [by apply Herr|].
    destruct (Hmv eq_refl) as [_ ->]. eexists (Some p), _. split; [done|]. split; [exact Hs2|]. intros p' [= <-]. split; [done|].
    eexists. split; [apply lookup_insert_eq|]. split; [done|].
    eexists _, _, bs. split; [apply lookup_insert_eq|]. split; [done|]. split; [done|]. lia.
Qed.

End Heap.

(** A packet on its way to the transport layers: IP's variables describe it. *)
Definition delivered (g : netifs) (i : ip_state) (p : positive) (h : heap) : Prop :=
  ((exists j, current_netif (ip_data i) = Some j /\ ready g j) /\ (exists j, current_input_netif (ip_data i) = Some j /\ ready g j) /\
    current_ip_header_tot_len (ip_data i) = 20) /\
  exists b o bs, h_pbufs h !! p = Some b /\ payload b = Some (Ptr p (o + 20)) /\ h_mem h !! p = Some bs /\
    current_ip4_header (ip_data i) = Some (Ptr p o) /\ ref b = 1 /\ 0 <= o /\ o + 28 <= lenZ bs /\
    IPH_HL_BYTES (byte_at (from bs o) 0) = 20 /\ SIZEOF_STRUCT_PBUF <= o /\ len b <= tot_len b /\ tot_len b + 20 < 65536.

Section Icmp.
Context {E : PbufEnv} {X : Type} {LL : LinkLayer X} {AP : part X arp} {UP : Upper X} {IP : part X ip_state} {IA : IpApart X}.
Context {FR : IpFragments X} {LF : LiveFragments X} {LK : forall N, LiveLink N} {AD : Addresses}.

Notation returns P m Q := (total (fun s : node X => s) P m Q).

(** The same access through another pointer into the block. *)
Lemma store_shift q o d i v h : store (Some (Ptr q (o + d))) i v h = store (Some (Ptr q o)) (d + i) v h.
Proof. unfold store. cbn [p_off p_blk]. by rewrite Z.add_assoc. Qed.
Lemma load_shift q o d i n h : load (Some (Ptr q (o + d))) i n h = load (Some (Ptr q o)) (d + i) n h.
Proof. unfold load. cbn [p_off p_blk]. by rewrite Z.add_assoc. Qed.
Lemma returns_ext {A} P (m m' : M (node X) A) Q : (forall s, m s = m' s) -> returns P m' Q -> returns P m Q.
Proof. intros He Hm s Hs. rewrite He. by apply Hm. Qed.
Lemma onheap_ext {A} (m m' : M heap A) (s : node X) : (forall h, m h = m' h) -> onheap m s = onheap m' s.
Proof. intros He. unfold zoom. by rewrite He. Qed.

Section Shift.
Context (N : budget) (g : netifs) (H : list positive) (i : ip_state) (h0 : heap) (p : positive) (b : pbuf) (k o d : Z).
Hypothesis Hb : h_pbufs h0 !! p = Some b.
Hypothesis Hk : readable h0 p k.
Hypothesis Hpl : payload b = Some (Ptr p o).

Lemma here_store_shift j v :
  0 <= d + j -> d + j + lenZ v <= k ->
  returns (here N None g H i (shape h0)) (onheap (store (Some (Ptr p (o + d))) j v)) (fun _ => here N None g H i (shape h0)).
Proof.
  intros Hj Hv. eapply returns_ext; [intros s; apply onheap_ext; intros h; apply store_shift|]. rewrite <- Hpl.
  by apply here_store with (p := p) (k := k).
Qed.
Lemma here_load16_shift j :
  0 <= d + j -> d + j + 2 <= k ->
  returns (here N None g H i (shape h0)) (onheap (load16 (Some (Ptr p (o + d))) j)) (fun _ => here N None g H i (shape h0)).
Proof.
  intros Hj Hv. eapply returns_ext.
  { intros s. apply onheap_ext. intros h. unfold load16, mbind, M_bind. rewrite load_shift, <- Hpl. reflexivity. }
  by apply here_load16 with (p := p) (k := k).
Qed.
End Shift.

Lemma here_chksum_at N g H i h0 p b k m :
  h_pbufs h0 !! p = Some b -> readable h0 p k -> 0 <= m <= k ->
  returns (here N None g H i (shape h0)) (onheap (chksum_at (payload b) m)) (fun _ => here N None g H i (shape h0)).
Proof.
  intros Hb Hk Hm [h g0 x] Hs. pose proof Hs as (_ & Hsh & _). simpl in Hsh.
  destruct (shape_load h0 h p b k 0 m Hsh Hb Hk ltac:(done) ltac:(lia) ltac:(lia)) as (d & Hd & _).
  eexists _, (Node h g0 x). split; [apply heap_run; unfold chksum_at; by mrun Hd|done].
Qed.

(** Nobody else refers to [p]: the ARP queue may. *)
Lemma here_watch N g H i h0 p b s :
  h_pbufs h0 !! p = Some b -> ref b = 1 -> here N None g H i (shape h0) s -> live N (Some p) g H s.
Proof.
  intros Hb Hr (Hl & [Ep _] & _). apply live_watch; [done|]. intros c. rewrite Ep. intros Hc. assert (c = b) as -> by congruence. lia.
Qed.

(** ** The answer to an echo request *)
Lemma live_echo_reply N g H i p inp src dest :
  wired g -> ready g inp -> p ∈ H ->
  returns (here N None g H i (answer p)) (icmp_echo_reply p inp src dest 20) (fun _ => alive N None g H).
Proof.
  intros Hw Hr Hp. apply here_open. intros h0 R (b & Hb & Href & (b' & o & bs & Hb' & Hpl & Hbs & Ho & Hl)) Hs.
  assert (b' = b) as -> by congruence. clear Hb'. unfold icmp_echo_reply.
  eapply total_step; [by apply here_get_pbuf|]. intros r ->. cbv zeta. rewrite Hpl.
  eapply total_bind; [eapply (here_onheap _ _ _ _ _ None (fun _ => H) _ (fun (r : bool) h => r = false -> exists b1,
    h_pbufs h !! p = Some b1 /\ ref b1 = 1 /\ payload b1 = Some (Ptr p (o - 20)) /\ readable h p 28))|].
  { intros h R' Hs' Hsh. destruct (sane_added N None (R' ++ H) h p b o 20 Hs') as (r & h' & Hrun & Hs2 & _ & Hmv & _);
      [apply elem_of_app; by right|by rewrite (proj1 Hsh)|done|done|]. exists r, h'. split; [done|]. split; [done|]. intros ->.
    destruct (Hmv eq_refl) as [Hroom ->]. pose proof (proj2 Hsh p) as Hm. rewrite Hbs in Hm. destruct (h_mem h !! p) as [bs'|] eqn:Hbs'; [|done].
    injection Hm as Hm. eexists. split; [apply lookup_insert_eq|]. split; [done|]. split; [done|].
    eexists _, _, bs'. unfold SIZEOF_STRUCT_PBUF in Hroom. split; [apply lookup_insert_eq|]. split; [done|]. split; [done|]. lia. }
  intros [|]; [apply total_ret; intros s Hs'; by eapply live_alive, here_live|].
  apply here_open. intros h1 R1 HF Hs1. destruct (HF eq_refl) as (b1 & Hb1 & Hr1 & Hpl1 & Hrd). clear HF.
  eapply total_step; [by apply here_get_pbuf|]. intros r ->. cbv zeta. replace o with (o - 20 + 20) by lia.
  do 2 (eapply total_skip; [eapply here_store; [exact Hb1|exact Hrd|lia|simpl; lia]|]; intros _).
  eapply total_skip; [eapply here_store_shift; [exact Hb1|exact Hrd|exact Hpl1|lia|simpl; lia]|]. intros _.
  eapply total_skip; [eapply here_load16_shift; [exact Hb1|exact Hrd|exact Hpl1|lia|lia]|]. intros c.
  eapply total_skip; [eapply here_store_shift; [exact Hb1|exact Hrd|exact Hpl1|lia|simpl; lia]|]. intros _.
  do 2 (eapply total_skip; [eapply here_store; [exact Hb1|exact Hrd|lia|simpl; lia]|]; intros _).
  eapply total_skip; [eapply here_chksum_at; [exact Hb1|exact Hrd|lia]|]. intros c2.
  eapply total_skip; [eapply here_store; [exact Hb1|exact Hrd|lia|simpl; lia]|]. intros _.
  eapply total_skip; [eapply total_pre; [by apply live_output_if|intros s; by apply here_watch with (b := b1)]|].
  intros _. by apply total_ret.
Qed.

(** ** icmp_input *)
Lemma live_icmp_input N g H i p inp :
  wired g -> ready g inp -> p ∉ kept N ->
  returns (here N None g (p :: H) i (delivered g i p)) (icmp_input p inp) (fun _ => alive N None g H).
Proof.
  intros Hw Hr Hnk [h g0 x] Hs. pose proof Hs as ((T & Ht & Hraw) & (((j & Hcn & n & Hn & Hln) & _) & b & o & bs & Hb & Hpl & Hbs & Hhd & Href & Ho & Hl & Hhl & _) & Hi).
  pose proof (raw_netifs _ _ _ _ _ _ Hraw) as Eg. simpl in Eg, Hb, Hbs. subst g0.
  pose proof (raw_heap _ _ _ _ _ _ Hraw) as Hsane. simpl in Hsane.
  assert (p ∈ queue_refs T ++ p :: H) as Hp by (apply elem_of_app; right; apply elem_of_cons; by left).
  assert (forall s, live N None g (p :: H) s -> exists r s', (onheap (pbuf_free (Some p));; mret tt) s = Some (r, s') /\ alive N None g H s') as Hback.
  { intros s Hs'. enough (returns (live N None g (p :: H)) (onheap (pbuf_free (Some p));; mret tt) (fun _ => alive N None g H)) as Hm by by apply Hm.
    eapply total_skip; [apply live_free|]. intros _. apply total_ret. intros s2. apply live_alive. }
  assert (readable h p 8) as Hrd8.
  { exists b. eexists _, bs. split; [done|]. split; [done|]. split; [done|]. lia. }
  unfold icmp_input. rewrite (bind_run _ _ _ _ _ (onip_get_run h g x)). cbv beta zeta.
  unfold ip_of in Hi. simpl in Hi. rewrite Hi, Hhd.
  mrun (heap_run _ _ g x _ _ (load8_run h p o bs Hbs Ho 0 ltac:(lia) ltac:(lia))). rewrite Hhl. unfold IP_HLEN.
  change (20 <? 20) with false. cbv iota. mrun (heap_run _ _ g x _ _ (get_pbuf_run _ _ _ Hb)).
  destruct (len b <? 4); [by apply Hback, Hs|]. rewrite Hpl.
  mrun (heap_run _ _ g x _ _ (load8_run h p (o + 20) bs Hbs ltac:(lia) 0 ltac:(lia) ltac:(lia))). set (type := byte_at _ 0).
  mrun (heap_run _ _ g x _ _ (load8_run h p (o + 20) bs Hbs ltac:(lia) 1 ltac:(lia) ltac:(lia))).
  destruct (type =? ICMP_ER); [by apply Hback, Hs|]. destruct (type =? ICMP_ECHO); [|by apply Hback, Hs].
  destruct (ip4_addr_ismulticast _); [by apply Hback, Hs|]. rewrite Hcn.
  rewrite (bind_run (lift (Some j)) _ (Node h g x) j (Node h g x) eq_refl). cbv beta.
  mrun (get_netif_run h g x j n Hn). destruct (ip4_addr_isbroadcast_u32 _ _); [by apply Hback, Hs|].
  destruct (tot_len b <? _); [by apply Hback, Hs|].
  destruct (sane_chksum N None _ h p Hsane Hp) as [c Hc]. mrun (heap_run _ _ g x _ _ Hc).
  destruct (negb (c =? 0)); [by apply Hback, Hs|].
  assert (sane N None (p :: queue_refs T ++ H) h) as Hsane' by (eapply sane_proper; [apply Permutation_middle|done|done]).
  destruct (sane_echo_pbuf N None (queue_refs T ++ H) h p (Some (Ptr p o)) 20 Hsane' Hnk) as (r & h' & Hrun & Hs' & Hans).
  { split. exists b, o, bs. split_and!; (done || lia). } { lia. }
  mrun (heap_run _ _ g x _ _ Hrun).
  assert (here N None g (option_list r ++ H) i (fun h => forall q, r = Some q -> answer q h) (Node h' g x)) as Hl'.
  { split; [|split; [|done]].
    - exists T. split; [done|]. destruct Hraw. split; try done. eapply sane_proper; [|done|exact Hs']. by rewrite !app_assoc, (Permutation_app_comm (queue_refs T)).
    - intros q Hq. by apply Hans. }
  destruct r as [q|].
  - revert Hl'. generalize (Node h' g x). intros s (Hl' & HF & Hi').
    enough (returns (here N None g (q :: H) i (answer q))
      (icmp_echo_reply q inp (current_iphdr_dest (ip_data i)) (current_iphdr_src (ip_data i)) 20;; onheap (pbuf_free (Some q));; mret tt) (fun _ => alive N None g H)) as Hm
      by (apply Hm; split; [done|]; split; [by apply HF|done]).
    eapply total_skip; [apply live_echo_reply; [done|done|apply elem_of_cons; by left]|]. intros _.
    eapply total_skip; [apply alive_free|]. intros _. by apply total_ret.
  - eexists tt, _. split; [done|]. eapply live_alive, here_live, Hl'.
Qed.

(** ** icmp_send_response *)

(** The packet's header and the 8 bytes behind it are copied. *)
Lemma sane_alloc_response N R h p :
  sane N None R h -> readable h p 28 ->
  exists r h', pbuf_alloc PBUF_IP 36 PBUF_RAM h = Some (r, h') /\ sane N None (option_list r ++ R) h' /\
    (forall q, r = Some q -> h_pbufs h' !! q = Some (ram_pbuf q PBUF_IP 36) /\ readable h' q 36 /\ readable h' p 28).
Proof.
  intros Hs (b & o & bs & Hb & Hpl & Hbs & Ho & Hl). destruct (sane_alloc_ram N None R h PBUF_IP 36 Hs ltac:(lia)) as (r & h' & Hr & Hs' & He).
  exists r, h'. split; [done|]. split; [done|]. intros q ->. destruct He as [-> ->].
  split; [apply lookup_insert_eq|]. split; [by apply ram_pbuf_readable|].
  assert (p <> h_next h). { intros ->. destruct (good_wf _ _ _ (sane_good _ _ _ _ Hs) (h_next h) ltac:(lia)). congruence. }
  exists b, o, bs. simpl. rewrite !lookup_insert_ne by done. by split_and!.
Qed.

Lemma live_send_response N g H p type code :
  wired g ->
  returns (fun s => live N None g H s /\ readable (n_heap s) p 28) (icmp_send_response p type code) (fun _ => alive N None g H).
Proof.
  intros Hw s0 [Hl0 Hrd0]. set (i := ip_of s0).
  enough (returns (here N None g H i (fun h => readable h p 28)) (icmp_send_response p type code) (fun _ => alive N None g H)) as Hm by by apply Hm.
  clearbody i. clear s0 Hl0 Hrd0. unfold icmp_send_response, SIZEOF_ICMP_ECHO_HDR, IP_HLEN, ICMP_DEST_UNREACH_DATASIZE.
  change (8 + 20 + 8) with 36. change (20 + 8) with 28.
  eapply total_bind; [eapply (here_onheap _ _ _ _ _ None (fun r => option_list r ++ H) _ (fun r h => forall q, r = Some q ->
    h_pbufs h !! q = Some (ram_pbuf q PBUF_IP 36) /\ readable h q 36 /\ readable h p 28))|].
  { intros h R Hs Hrd. destruct (sane_alloc_response N (R ++ H) h p Hs Hrd) as (r & h' & Hr & Hs' & HF). exists r, h'. split; [done|].
    split; [|done]. eapply sane_proper; [|done|exact Hs']. by rewrite !app_assoc, (Permutation_app_comm R). }
  intros [q|]; [|apply total_ret; intros s Hs; by eapply live_alive, here_live].
  apply here_open. intros h0 R HF Hs. destruct (HF q eq_refl) as (Hq & Hrq & Hrp). clear HF. simpl option_list in *. cbn [app] in *.
  set (bq := ram_pbuf q PBUF_IP 36) in *. pose proof Hrp as (b & _ & _ & Hb & _).
  eapply total_step; [by apply here_get_pbuf|]. intros r ->.
  eapply total_step; [by apply here_get_pbuf|]. intros r ->. cbv zeta.
  do 4 (eapply total_skip; [eapply here_store; [exact Hq|exact Hrq|lia|simpl; lia]|]; intros _).
  eapply total_step; [eapply here_load; [exact Hb|exact Hrp|lia..]|]. intros d Hd. cbv beta in Hd.
  eapply total_skip; [eapply here_store; [exact Hq|exact Hrq|lia|lia]|]. intros _.
  eapply total_skip; [eapply here_load32; [exact Hb|exact Hrp|lia|lia]|]. intros src.
  eapply total_bind with (R := fun r s => (forall k, r = Some k -> ready g k) /\ here N None g (q :: H) i (shape h0) s).
  { intros s (Hl & Hsh & Hi). destruct (live_route N None g (q :: H) src Hw s Hl) as (r & s' & Hr & Hrdy & Hl').
    exists r, s'. split; [done|]. split; [done|]. by rewrite (ip4_route_state _ _ _ _ Hr). }
  intros r. apply total_fact. intros Hrdy.
  eapply total_skip with (R := alive N None g (q :: H)); [|intros _; eapply total_skip; [apply alive_free|]; intros _; by apply total_ret].
  destruct r as [k|]; [|apply total_ret; intros s Hs'; by eapply live_alive, here_live].
  eapply total_skip; [eapply here_store; [exact Hq|exact Hrq|lia|simpl; lia]|]. intros _.
  eapply total_skip; [eapply here_chksum_at; [exact Hq|exact Hrq|simpl; lia]|]. intros c.
  eapply total_skip; [eapply here_store; [exact Hq|exact Hrq|lia|simpl; lia]|]. intros _.
  eapply total_skip; [eapply total_pre; [apply live_output_if; [done|by apply Hrdy|apply elem_of_cons; by left]|intros s; by apply here_watch with (b := bq)]|].
  intros _. by apply total_ret.
Qed.

End Icmp.
