(* ===== verification/IcmpReply.v ===== *)
(** * ICMP: the answer to an echo request, byte by byte *)
From S2P Require Import Prelude Triple Def Pbuf PbufFacts PbufWrite PbufAlloc PbufPool PbufChain PbufRef PbufOwn PbufEdit.
From S2P Require Import Netif Node Ip4Addr InetChksum Ethernet Etharp Ip4 Icmp Ip4Facts Ip4Header IcmpLive.

(** A packet in one pbuf that nobody else refers to: the bytes [d], with [pre]
    and [post] around them in the block. *)
Record single (h : heap) (p : positive) (b : pbuf) (pre d post : list Z) : Prop := {
  single_at : h_pbufs h !! p = Some b;
  single_payload : payload b = Some (Ptr p (lenZ pre));
  single_mem : h_mem h !! p = Some (pre ++ d ++ post);
  single_next : next b = None;
  single_len : len b = lenZ d;
  single_tot : tot_len b = lenZ d;
  single_ref : ref b = 1;
  single_plain : plain b;
  single_cont : Z.land (type_internal b) PBUF_TYPE_FLAG_STRUCT_DATA_CONTIGUOUS <> 0;
}.

Section Echo.
Context {E : PbufEnv}.

Lemma single_pdata h p b pre d post : single h p b pre d post -> pdata h b = d.
Proof.
  intros [? Hpl Hm _ Hl _ _ _ _]. unfold pdata. rewrite Hpl. cbv beta iota. rewrite Hm. simpl. by apply slice_mid.
Qed.
Lemma single_packet h p b pre d post : lenZ d < 65536 -> single h p b pre d post -> packet h (Some p) [(p, b)].
Proof.
  intros Hd [Hb Hpl Hm Hn Hl Ht _ _ _]. split.
  - constructor; [done|]. rewrite Hn. constructor.
  - simpl. repeat split; lia.
  - simpl. lia.
  - constructor; [|done]. right. eexists p, _, _. simpl. split; [exact Hpl|]. split; [exact Hm|]. rewrite !length_app. lia.
Qed.

(** pbuf_copy between two packets of one pbuf each. *)
Lemma copy_single h q p bq bp preq dq postq prep d postp :
  single h q bq preq dq postq -> single h p bp prep d postp -> length dq = length d -> 0 < lenZ d < 65536 ->
  pbuf_copy (Some q) (Some p) h = Some (ERR_OK, with_block q (preq ++ d ++ postq) h).
Proof.
  intros [Hq Hplq Hmq Hnq Hlq Htq _ _ _] Hp Hl Hd. pose proof Hp as [Hpb Hplp Hmp Hnp Hlp Htp _ _ _].
  unfold pbuf_copy. mrun (get_pbuf_run _ _ _ Hq). mrun (get_pbuf_run _ _ _ Hpb). rewrite (proj2 (Z.ltb_ge _ _)) by lia.
  rewrite bind_get. unfold chain_fuel. cbn [Nat.add pbuf_copy_loop]. mrun (deref_run _ _ _ Hq). mrun (deref_run _ _ _ Hpb). cbv zeta.
  rewrite !Z.sub_0_r, (u32_small (len bp)), (u32_small (len bq)) by lia. rewrite (proj2 (Z.leb_le (len bp) (len bq))) by lia.
  assert (load (payload bp) 0 (len bp) h = Some (d, h)) as Hld.
  { rewrite Hplp, Hlp, (load_run h p (lenZ prep) _ 0 (lenZ d) Hmp) by (rewrite ?length_app; lia). by rewrite Z.add_0_r, slice_mid. }
  mrun Hld. assert (store (payload bq) 0 d h = Some (tt, with_block q (preq ++ d ++ postq) h)) as Hst.
  { rewrite Hplq. rewrite <- (with_block_id _ _ _ Hmq) at 1. fold (window q preq postq h dq). rewrite window_store by lia.
    unfold window. do 3 f_equal. rewrite <- (app_nil_l dq), <- (app_nil_r dq) at 1. rewrite (overwrite_mid [] dq []) by done. by rewrite app_nil_r. }
  mrun Hst. rewrite !Z.add_0_l, (u32_small (len bp)) by lia. rewrite (proj2 (Z.leb_le (len bp) (len bp))), (proj2 (Z.eqb_eq (len bp) (len bq))) by lia.
  rewrite Hnq, Hnp. cbn [bool_decide andb negb]. reflexivity.
Qed.


Lemma single_ext h h' p b pre d post :
  h_pbufs h' !! p = h_pbufs h !! p -> h_mem h' !! p = h_mem h !! p -> single h p b pre d post -> single h' p b pre d post.
Proof. intros Ep Em [? ? ? ? ? ? ? ? ?]. split; congruence. Qed.

(** Moving the start of the packet by [k] bytes. *)
Lemma single_drop h p b pre hd d post :
  single h p b pre (hd ++ d) post -> 0 < lenZ hd -> lenZ (hd ++ d) < 65536 ->
  pbuf_remove_header (Some p) (lenZ hd) h = Some (false, patch p (move_payload b p (lenZ pre) (- lenZ hd)) h) /\
  single (patch p (move_payload b p (lenZ pre) (- lenZ hd)) h) p (move_payload b p (lenZ pre) (- lenZ hd)) (pre ++ hd) d post.
Proof.
  intros [Hb Hpl Hm Hn Hl Ht Hr Hp Hc] H0 H1. rewrite length_app in *. split; [by apply pbuf_remove_header_run; [..|lia|lia|lia]|].
  unfold move_payload. split; simpl; try done.
  - apply lookup_insert_eq.
  - rewrite length_app. do 2 f_equal. lia.
  - by rewrite Hm, <- !app_assoc.
  - rewrite u16_small; lia.
  - rewrite u16_small; lia.
Qed.
Lemma single_grow h p b pre hd d post :
  single h p b (pre ++ hd) d post -> 0 < lenZ hd -> lenZ (hd ++ d) < 65536 -> SIZEOF_STRUCT_PBUF <= lenZ pre ->
  pbuf_add_header (Some p) (lenZ hd) h = Some (false, patch p (move_payload b p (lenZ (pre ++ hd)) (lenZ hd)) h) /\
  single (patch p (move_payload b p (lenZ (pre ++ hd)) (lenZ hd)) h) p (move_payload b p (lenZ (pre ++ hd)) (lenZ hd)) pre (hd ++ d) post.
Proof.
  intros [Hb Hpl Hm Hn Hl Ht Hr Hp Hc] H0 H1 Hs. rewrite !length_app in *.
  split; [by apply pbuf_add_header_run; [..|lia|lia|lia]|].
  unfold move_payload. split; simpl; try done.
  - apply lookup_insert_eq.
  - do 2 f_equal. lia.
  - by rewrite Hm, <- !app_assoc.
  - rewrite length_app, u16_small; lia.
  - rewrite length_app, u16_small; lia.
Qed.

(** A new pbuf of the heap. *)
Lemma single_new h layer k :
  heap_wf h -> 0 <= k < 65536 ->
  exists pre d post, single (with_new h (ram_size layer k) (ram_pbuf (h_next h) layer k) 0 0) (h_next h) (ram_pbuf (h_next h) layer k) pre d post /\
    lenZ d = k /\ lenZ pre = SIZEOF_STRUCT_PBUF + LWIP_MEM_ALIGN_SIZE (layer_offset layer).
Proof.
  intros Hw Hk. set (q := h_next h). set (bs := junk_block q (ram_size layer k)). set (o := SIZEOF_STRUCT_PBUF + LWIP_MEM_ALIGN_SIZE (layer_offset layer)).
  pose proof (layer_offset_bound layer). pose proof (LWIP_MEM_ALIGN_SIZE_bound k). pose proof (LWIP_MEM_ALIGN_SIZE_bound (layer_offset layer)).
  assert (lenZ bs = ram_size layer k) as Hbs by (apply length_junk_block; unfold ram_size, SIZEOF_STRUCT_PBUF; lia).
  assert (0 <= o /\ o + k <= lenZ bs) as Ho by (rewrite Hbs; unfold o, ram_size, SIZEOF_STRUCT_PBUF; lia).
  destruct (window_split (with_new h (ram_size layer k) (ram_pbuf q layer k) 0 0) q bs o k) as (pre & post & Eb & Hpre & _); [apply lookup_insert_eq|lia..|].
  pose proof (length_slice bs o k ltac:(lia) ltac:(lia) ltac:(lia)) as Hd.
  exists pre, (slice bs o k), post. split; [|done]. split; simpl; try done.
  - apply lookup_insert_eq.
  - rewrite Hpre. done.
  - rewrite lookup_insert_eq. fold q bs. by rewrite <- Eb.
Qed.

(** Header and packet are copied to a new pbuf [q] of that size. *)
Lemma echo_copy_run h p b pre hd d post q bq preq mid post' :
  single h p b (pre ++ hd) d post -> single h q bq preq mid post' -> q <> p ->
  lenZ hd = 20 -> 0 < lenZ d <= 65000 -> lenZ mid = lenZ d + 20 ->
  exists h3 b4 h4, load (Some (Ptr p (lenZ pre))) 0 20 h = Some (hd, h) /\
    store (payload bq) 0 hd h = Some (tt, h3) /\ pbuf_remove_header (Some q) 20 h3 = Some (false, h4) /\
    pbuf_copy (Some q) (Some p) h4 = Some (ERR_OK, with_block q ((preq ++ hd) ++ d ++ post') h4) /\
    single (with_block q ((preq ++ hd) ++ d ++ post') h4) q b4 (preq ++ hd) d post' /\
    single (with_block q ((preq ++ hd) ++ d ++ post') h4) p b (pre ++ hd) d post.
Proof.
  intros Hs Hq Hqp Hhd Hd Hmid. assert (exists m2, overwrite mid 0 hd = hd ++ m2 /\ length m2 = length d) as (m2 & Em & Hm2).
  { exists (drop (length hd) mid). split; [by unfold overwrite|]. rewrite length_drop. lia. }
  set (h3 := window q preq post' h (hd ++ m2)).
  assert (single h3 q bq preq (hd ++ m2) post') as Hq3.
  { destruct Hq as [? ? ? ? Hlq Htq ? ? ?]. split; try done; [apply with_block_mem|rewrite length_app; lia|rewrite length_app; lia]. }
  destruct (single_drop _ _ _ _ _ _ _ Hq3 ltac:(lia) ltac:(rewrite length_app; lia)) as [Hrm Hq4]. rewrite Hhd in Hrm, Hq4.
  set (b4 := move_payload _ _ _ _) in *. set (h4 := patch q b4 h3) in *.
  assert (single h4 p b (pre ++ hd) d post) as Hs4 by (eapply single_ext; [..|exact Hs]; simpl; by rewrite lookup_insert_ne).
  exists h3, b4, h4. split; [|split; [|split; [exact Hrm|split; [|split]]]].
  - pose proof (single_mem _ _ _ _ _ _ Hs) as Hm. rewrite <- app_assoc in Hm. rewrite (load_run h p (lenZ pre) _ 0 20 Hm) by (rewrite ?length_app; lia).
    rewrite Z.add_0_r. by rewrite slice_mid.
  - rewrite (single_payload _ _ _ _ _ _ Hq). rewrite <- (with_block_id _ _ _ (single_mem _ _ _ _ _ _ Hq)) at 1. fold (window q preq post' h mid).
    rewrite window_store by lia. by rewrite Em.
  - by apply (copy_single _ _ _ _ _ _ _ _ _ _ _ Hq4 Hs4 Hm2); lia.
  - destruct Hq4 as [Hat Hpl4 Hm4 Hn4 Hl4 Ht4 Hr4 Hp4 Hc4]. split; [exact Hat|exact Hpl4|apply with_block_mem|done|simpl in *; lia|simpl in *; lia|done|done|done].
  - eapply single_ext; [..|exact Hs4]; [done|]. simpl. by rewrite lookup_insert_ne.
Qed.

(** The answer's pbuf has the packet's header and bytes, with room in front. *)
Lemma echo_pbuf_run h p b pre hd d post :
  single h p b (pre ++ hd) d post -> lenZ hd = 20 -> 8 <= lenZ d <= 65000 -> heap_wf h ->
  heap_admits (h_mem h) (ram_size PBUF_LINK (lenZ d + 20)) = true ->
  exists q h' bq pre' post', icmp_echo_pbuf p (Some (Ptr p (lenZ pre))) 20 h = Some (Some q, h') /\
    single h' q bq (pre' ++ hd) d post' /\ SIZEOF_STRUCT_PBUF <= lenZ pre'.
Proof.
  intros Hs Hhd Hd Hwf Hadm. pose proof Hs as [Hb Hpl Hm Hn Hl Ht Hr Hp Hc]. unfold icmp_echo_pbuf. cbv zeta. change (20 + PBUF_LINK_HLEN) with 36.
  rewrite length_app in Hpl. set (o := Z.of_nat (length pre + length hd)) in *. assert (o = lenZ pre + 20) as Eo by (unfold o; lia).
  destruct (decide (SIZEOF_STRUCT_PBUF + 36 <= o)) as [Hin|Hout].
  - mrun (pbuf_add_header_run h p b o 36 Hb Hpl Hc ltac:(done) Hin ltac:(lia) ltac:(lia)). set (b1 := move_payload b p o 36).
    assert (len b1 = lenZ d + 36) as Hl1 by (unfold b1, move_payload; simpl; rewrite u16_small; lia).
    mrun (pbuf_remove_header_run (patch p b1 h) p b1 p (o - 36) 36 (lookup_insert_eq _ _ _) eq_refl ltac:(done) ltac:(lia) ltac:(lia)).
    exists p, (patch p (move_payload b1 p (o - 36) (- 36)) (patch p b1 h)), b, pre, post. split; [done|]. split; [|unfold SIZEOF_STRUCT_PBUF in *; lia].
    rewrite patch_patch.
    assert (move_payload b1 p (o - 36) (- 36) = b) as ->; [|by rewrite patch_id].
    clear - Hpl Hl Ht Hd. unfold b1, move_payload. simpl. destruct b; simpl in *. subst. f_equal; [do 2 f_equal; lia|ulia|ulia].
  - mrun (add_header_full h p b o 36 Hb Hpl Hc ltac:(done) ltac:(lia)). mrun (get_pbuf_run _ _ _ Hb). rewrite Ht.
    set (k := lenZ d + 20). rewrite (u16_small k), (proj2 (Z.ltb_ge _ _)) by lia.
    assert (pbuf_alloc PBUF_LINK k PBUF_RAM h = Some (Some (h_next h), with_new h (ram_size PBUF_LINK k) (ram_pbuf (h_next h) PBUF_LINK k) 0 0)) as Hal.
    { rewrite pbuf_alloc_ram_run by lia. rewrite decide_True; [by unfold k; rewrite Hadm|].
      change (LWIP_MEM_ALIGN_SIZE (layer_offset PBUF_LINK)) with 64. pose proof (LWIP_MEM_ALIGN_SIZE_bound k). lia. }
    mrun Hal. destruct (single_new h PBUF_LINK k Hwf ltac:(lia)) as (preq & mid & post' & Hq & Hmid & Hpreq).
    assert (h_next h <> p) as Hqp. { intros E1. destruct (Hwf (h_next h) ltac:(lia)). congruence. }
    set (q := h_next h) in *. set (h2 := with_new _ _ _ _ _) in *.
    assert (single h2 p b (pre ++ hd) d post) as Hs2 by (eapply single_ext; [..|exact Hs]; simpl; by rewrite lookup_insert_ne).
    mrun (get_pbuf_run _ _ _ (single_at _ _ _ _ _ _ Hq)). unfold SIZEOF_ICMP_ECHO_HDR.
    rewrite (single_len _ _ _ _ _ _ Hq), (proj2 (Z.ltb_ge _ _)) by lia.
    destruct (echo_copy_run h2 p b pre hd d post q _ preq mid post' Hs2 Hq Hqp Hhd ltac:(lia) ltac:(lia)) as (h3 & b4 & h4 & Hld & Hst & Hrm & Hcp & Hq5 & Hs5).
    mrun Hld. mrun Hst. mrun Hrm. mrun Hcp. rewrite bool_decide_eq_true_2 by done. cbn [negb].
    set (h5 := with_block _ _ _) in *. assert (chain h5 (Some p) ([(p, b)] ++ [])) as Hc5.
    { constructor; [by destruct Hs5|]. rewrite Hn. constructor. }
    assert (last_ref h5 (p, b)) as Hlr.
    { split; [done|]. split; [done|]. eexists. apply (single_mem _ _ _ _ _ _ Hs5). }
    mrun (pbuf_free_run h5 p [(p, b)] [] Hc5 ltac:(by constructor) I).
    eexists q, _, b4, preq, post'. split; [done|]. split; [|rewrite Hpreq; unfold SIZEOF_STRUCT_PBUF; change (LWIP_MEM_ALIGN_SIZE (layer_offset PBUF_LINK)) with 64; lia].
    eapply single_ext; [..|exact Hq5]; simpl; by rewrite lookup_delete_ne.
Qed.

End Echo.

(** ** The checksums of the answer *)

Lemma osum_head a b c e d : osum (a :: b :: c :: e :: d) = a + 256 * b + (c + 256 * e) + osum d.
Proof. cbn [osum]. lia. Qed.

(** The type goes from 8 to 0, and the checksum makes up for it. *)
Definition echo_reply_data (d : list Z) : list Z := [ICMP_ER; byte_at d 1] ++ st16 (adjust_chksum (ld16 d 2)) ++ drop 4 d.

Lemma adjust_chksum_spec c : 0 <= c < 65536 -> 0 < adjust_chksum c < 65536 /\ exists k, adjust_chksum c = c + 8 + k * 65535.
Proof.
  intros Hc. unfold adjust_chksum. change (PP_HTONS (Z.shiftl ICMP_ECHO 8)) with 8. change (PP_HTONS (0xffff - Z.shiftl ICMP_ECHO 8)) with 65527.
  destruct (65527 <? c) eqn:E1; b2p.
  - replace (u16 (c + 8 + 1)) with (c + 9 - 65536) by ulia. split; [lia|]. exists (-1). lia.
  - rewrite u16_small by lia. split; [lia|]. exists 0. lia.
Qed.

Lemma st16_sum v : 0 <= v < 65536 -> v mod 256 + 256 * ((v / 256) mod 256) = v.
Proof. intros. ulia. Qed.

Lemma echo_reply_verifies addr addr' d :
  bytes_ok d -> 8 <= lenZ d <= 65536 -> byte_at d 0 = ICMP_ECHO -> inet_chksum addr d = 0 ->
  bytes_ok (echo_reply_data d) /\ inet_chksum addr' (echo_reply_data d) = 0.
Proof.
  intros Hd Hl Ht Hc. apply inet_chksum_zero in Hc as [Hc _]; [|done|lia].
  do 4 (destruct d as [|? d]; [simpl in Hl; lia|]). rename z into t, z0 into c, z1 into x, z2 into y.
  change (byte_at (t :: c :: x :: y :: d) 0) with t in Ht. unfold echo_reply_data.
  change (byte_at (t :: c :: x :: y :: d) 1) with c. change (ld16 (t :: c :: x :: y :: d) 2) with (x + 256 * y). change (drop 4 (t :: c :: x :: y :: d)) with d.
  apply Forall_cons in Hd as [_ Hd]. apply Forall_cons in Hd as [Hbc Hd]. apply Forall_cons in Hd as [Hx Hd]. apply Forall_cons in Hd as [Hy Hd].
  unfold is_byte in *. destruct (adjust_chksum_spec (x + 256 * y) ltac:(lia)) as [Hb [k Hk]]. set (v := adjust_chksum _) in *.
  assert (bytes_ok ([ICMP_ER; c] ++ st16 v ++ d)) as Hok.
  { apply bytes_ok_app. split; [repeat apply Forall_cons_2; unfold is_byte; (done || lia)|]. apply bytes_ok_app. split; [apply st16_ok|done]. }
  split; [done|]. apply inet_chksum_zero; [done|rewrite !length_app; simpl in *; lia|].
  rewrite osum_head in Hc. unfold st16. cbn [app]. rewrite osum_head, st16_sum by lia. pose proof (osum_nonneg d Hd). subst t. unfold ICMP_ECHO, ICMP_ER in *.
  split; [|lia]. rewrite Hk. replace (0 + 256 * c + (x + 256 * y + 8 + k * 65535) + osum d) with (8 + 256 * c + (x + 256 * y) + osum d + k * 65535) by lia.
  by rewrite Z.mod_add.
Qed.

(** The header with the addresses exchanged. *)
Definition echo_reply_header (hd : list Z) (src dest c : Z) : list Z :=
  take 8 hd ++ [ICMP_TTL; byte_at hd 9] ++ st16 c ++ st32 src ++ st32 dest.

Lemma echo_reply_header_verifies addr addr' hd src dest :
  bytes_ok hd -> lenZ hd = 20 -> 0 <= src < 4294967296 -> 0 <= dest < 4294967296 ->
  inet_chksum addr' (echo_reply_header hd src dest (inet_chksum addr (echo_reply_header hd src dest 0))) = 0.
Proof.
  intros Hok Hl Hs Hd. set (a := take 8 hd ++ [ICMP_TTL; byte_at hd 9]). set (b := st32 src ++ st32 dest).
  assert (forall c, echo_reply_header hd src dest c = a ++ st16 c ++ b) as E by (intros c; unfold echo_reply_header, a; by rewrite <- app_assoc).
  assert (lenZ a = 10) as Ha by (unfold a; rewrite length_app, length_take, Nat.min_l by lia; done).
  rewrite !E. change (st16 0) with [0; 0]. apply inserted_verifies; [| |by rewrite Ha|rewrite Ha; done].
  - apply bytes_ok_app. split; [by apply bytes_ok_take|]. repeat apply Forall_cons_2; [done|by apply byte_at_ok|done].
  - apply bytes_ok_app. by split; apply st32_ok.
Qed.

Section Reply.
Context {E : PbufEnv} {X : Type} {LL : LinkLayer X} {AP : part X arp} {IP : part X ip_state} {FR : IpFragments X}.
Context {AD : Addresses}.

(** The stores, on the bytes of header and packet. *)
Lemma reply_stores hd d src dest :
  lenZ hd = 20 -> 4 <= lenZ d ->
  let M := overwrite (overwrite (overwrite (hd ++ d) 12 (st32 src)) 16 (st32 dest)) 20 [ICMP_ER] in
  ld16 M 22 = ld16 d 2 /\
  let M := overwrite (overwrite (overwrite M 22 (st16 (adjust_chksum (ld16 d 2)))) 8 [ICMP_TTL]) 10 (st16 0) in
  slice M 0 20 = echo_reply_header hd src dest 0 /\
  forall c, overwrite M 10 (st16 c) = echo_reply_header hd src dest c ++ echo_reply_data d.
Proof.
  intros Hm Hd. do 20 (destruct hd as [|? hd]; [done|]). destruct hd; [|simpl in Hm; lia]. clear Hm.
  do 4 (destruct d as [|? d]; [simpl in Hd; lia|]). done.
Qed.

Lemma echo_reply_run h g x p b pre hd d post src dest inp n :
  single h p b (pre ++ hd) d post -> lenZ hd = 20 -> SIZEOF_STRUCT_PBUF <= lenZ pre -> 8 <= lenZ d <= 65000 ->
  nif g !! inp = Some n -> 0 <= dest < 4294967296 ->
  let c := inet_chksum (addr_of (Ptr p (lenZ pre))) (echo_reply_header hd src dest 0) in
  exists h' b', single h' p b' pre (echo_reply_header hd src dest c ++ echo_reply_data d) post /\
    icmp_echo_reply p inp src dest 20 (Node h g x) = (ip4_transmit p dest inp;; mret tt) (Node h' g x).
Proof.
  intros Hs Hhd Hpre Hd Hn Hdest c. unfold icmp_echo_reply.
  mrun (heap_run _ _ g x _ _ (get_pbuf_run _ _ _ (single_at _ _ _ _ _ _ Hs))). cbv zeta. rewrite (single_payload _ _ _ _ _ _ Hs).
  destruct (single_grow _ _ _ _ _ _ _ Hs ltac:(lia) ltac:(rewrite length_app; lia) Hpre) as [Hadd Hs1]. rewrite Hhd in Hadd, Hs1.
  mrun (heap_run _ _ g x _ _ Hadd). set (b1 := move_payload _ _ _ _) in *. set (h1 := patch p b1 h) in *.
  mrun (heap_run _ _ g x _ _ (get_pbuf_run _ _ _ (single_at _ _ _ _ _ _ Hs1))). cbv zeta. rewrite (single_payload _ _ _ _ _ _ Hs1).
  destruct (reply_stores hd d src dest Hhd ltac:(lia)) as [Hld Hrest]. cbv zeta in Hrest. destruct Hrest as [Hsl Hfin].
  set (W := window p pre post h1). assert (h1 = W (hd ++ d)) as E1 by (symmetry; apply with_block_id, (single_mem _ _ _ _ _ _ Hs1)). replace (Node h1 g x) with (Node (W (hd ++ d)) g x) by (f_equal; by symmetry).
  assert (forall m j v, lenZ m = 20 + lenZ d -> 0 <= j -> j + lenZ v <= 24 ->
    (onheap (store (Some (Ptr p (lenZ pre))) j v) : M (node X) unit) (Node (W m) g x) = Some (tt, Node (W (overwrite m j v)) g x) /\
    lenZ (overwrite m j v) = 20 + lenZ d) as Hst.
  { intros m j v Hm Hj Hv. split; [|rewrite length_overwrite; lia]. apply heap_run. apply window_store; lia. }
  assert (forall m j v, lenZ m = 20 + lenZ d -> 0 <= j -> j + lenZ v <= 4 ->
    (onheap (store (Some (Ptr p (lenZ (pre ++ hd)))) j v) : M (node X) unit) (Node (W m) g x) = Some (tt, Node (W (overwrite m (20 + j) v)) g x) /\
    lenZ (overwrite m (20 + j) v) = 20 + lenZ d) as Hst2.
  { intros m j v Hm Hj Hv. destruct (Hst m (20 + j) v Hm ltac:(lia) ltac:(lia)) as [Hr Hl]. split; [|done]. rewrite <- Hr.
    apply onheap_ext. intros h0. rewrite length_app, Nat2Z.inj_add, Hhd. apply store_shift. }
  assert (lenZ (hd ++ d) = 20 + lenZ d) as H0 by (rewrite length_app; lia).
  destruct (Hst _ 12 (st32 src) H0 ltac:(lia) ltac:(simpl; lia)) as [R1 H1]. mrun R1.
  destruct (Hst _ 16 (st32 dest) H1 ltac:(lia) ltac:(simpl; lia)) as [R2 H2]. mrun R2.
  destruct (Hst2 _ 0 [ICMP_ER] H2 ltac:(lia) ltac:(simpl; lia)) as [R3 H3]. mrun R3. change (20 + 0) with 20 in *.
  set (m3 := overwrite _ 20 _) in *.
  assert ((onheap (load16 (Some (Ptr p (lenZ (pre ++ hd)))) 2) : M (node X) Z) (Node (W m3) g x) = Some (ld16 d 2, Node (W m3) g x)) as R4.
  { apply heap_run. unfold load16. rewrite length_app, Nat2Z.inj_add, Hhd. unfold mbind, M_bind. rewrite load_shift.
    unfold W. rewrite window_load by lia. rewrite ld16_slice by lia. by rewrite <- Hld. }
  mrun R4. destruct (Hst2 m3 2 (st16 (adjust_chksum (ld16 d 2))) H3 ltac:(lia) ltac:(simpl; lia)) as [R5 H5]. mrun R5. change (20 + 2) with 22 in *.
  destruct (Hst _ 8 [ICMP_TTL] H5 ltac:(lia) ltac:(simpl; lia)) as [R6 H6]. mrun R6.
  destruct (Hst _ 10 (st16 0) H6 ltac:(lia) ltac:(simpl; lia)) as [R7 H7]. mrun R7. set (m7 := overwrite _ 10 (st16 0)) in *.
  assert ((onheap (chksum_at (Some (Ptr p (lenZ pre))) 20) : M (node X) Z) (Node (W m7) g x) = Some (c, Node (W m7) g x)) as R8.
  { apply heap_run. unfold chksum_at. mrun (window_load p pre post h1 m7 (lenZ pre) 0 20 eq_refl ltac:(lia) ltac:(lia) ltac:(lia)).
    by rewrite Hsl. }
  mrun R8. destruct (Hst m7 10 (st16 c) H7 ltac:(lia) ltac:(simpl; lia)) as [R9 H9]. mrun R9. rewrite Hfin in *.
  set (m9 := echo_reply_header hd src dest c ++ echo_reply_data d) in *.
  assert (single (W m9) p b1 pre m9 post) as Hs9.
  { destruct Hs1 as [? ? ? ? Hl Ht ? ? ?]. split; try done; [apply with_block_mem|lia..]. }
  exists (W m9), b1. split; [done|]. unfold ip4_output_if. rewrite bind_assoc. mrun (get_netif_run (W m9) g x inp n Hn).
  unfold ip4_output_if_src. rewrite bind_assoc. mrun (heap_run _ _ g x _ _ (get_pbuf_run _ _ _ (single_at _ _ _ _ _ _ Hs9))).
  rewrite (single_len _ _ _ _ _ _ Hs9), (proj2 (Z.ltb_ge _ _)) by (unfold IP_HLEN; lia). rewrite (single_payload _ _ _ _ _ _ Hs9), bind_assoc.
  assert ((onheap (load32 (Some (Ptr p (lenZ pre))) 16) : M (node X) Z) (Node (W m9) g x) = Some (dest, Node (W m9) g x)) as R10.
  { apply heap_run. unfold load32. mrun (window_load p pre post h1 m9 (lenZ pre) 16 4 eq_refl ltac:(lia) ltac:(lia) ltac:(lia)).
    assert (slice m9 16 4 = st32 dest) as ->; [|by rewrite word_bytes].
    assert (m9 = (take 8 hd ++ [ICMP_TTL; byte_at hd 9] ++ st16 c ++ st32 src) ++ st32 dest ++ echo_reply_data d) as ->.
    { unfold m9, echo_reply_header. by rewrite <- !app_assoc. }
    apply slice_mid; [|done]. rewrite !length_app, length_take, Nat.min_l by lia. done. }
  by mrun R10.
Qed.
End Reply.
