(* ===== verification/Ip4InputLive.v ===== *)
(** * IPv4: no operation of it goes wrong, input

    ip4_input keeps the promise Ethernet relies on, [LiveIp], when the layers
    above and the reassembly keep theirs. *)
From S2P Require Import Prelude Triple Def Pbuf PbufFacts PbufWrite PbufAlloc PbufPool PbufChain PbufRef PbufOwn PbufEdit.
From S2P Require Import Netif Node Ip4Addr InetChksum Ethernet EthernetFacts Etharp EtharpFacts EtharpInv EtharpLive Ip4 Icmp Ip4Input Ip4Facts Ip4Live IcmpLive.

(** ** What the decision says about a packet that goes on *)
Lemma fate_inv g inp n hd l i f :
  ip4_fate_of g inp n hd l = f -> f = Fragment i \/ f = Delivered i ->
  accepting_netif g inp n (ld32 hd 16) = Some i /\ IPH_V (byte_at hd 0) = 4 /\ lwip_htons (ld16 hd 2) <= l /\
  20 <= IPH_HL_BYTES (byte_at hd 0) <= lwip_htons (ld16 hd 2) /\ (f = Delivered i -> IPH_HL_BYTES (byte_at hd 0) = 20).
Proof.
  unfold ip4_fate_of. cbv zeta. unfold IP_HLEN. destruct (IPH_V _ =? 4) eqn:Ev; cbn [negb]; [|by intros <- [?|?]].
  destruct (_ || _ || _) eqn:El; [by intros <- [?|?]|]. destruct (_ || ip4_addr_ismulticast _); [by intros <- [?|?]|]. b2p.
  destruct (accepting_netif _ _ _ _) as [j|]; [|by intros <- [?|?]].
  destruct (negb _); [intros <- [[= ->]|?]; [|done]; split_and!; (done || lia)|].
  destruct (20 <? _) eqn:Eh; [by intros <- [?|?]|]. b2p. intros <- [?|[= ->]]; [done|]. split_and!; (done || lia).
Qed.

Lemma find_netif_in f tab l i : find_netif f tab l = Some i -> i ∈ l.
Proof.
  induction l as [|j l IH]; [done|]. cbn [find_netif]. destruct (tab !! j) as [n|]; [|done].
  destruct (f n); [intros [= <-]; apply elem_of_cons; by left|]. intros Hi. apply elem_of_cons. right. by apply IH.
Qed.

Lemma accepting_ready g inp n dest i :
  wired g -> ready g inp -> accepting_netif g inp n dest = Some i -> ready g i.
Proof.
  intros Hw Hr. unfold accepting_netif. destruct (ip4_addr_ismulticast dest); [destruct (_ && _); [by intros [= <-]|done]|].
  destruct (ip4_input_accept dest n); [by intros [= <-]|]. destruct (ip4_addr_isloopback dest); [done|].
  intros Hf%find_netif_in. apply list_elem_of_filter in Hf as [_ Hf]. pose proof (wired_list _ Hw) as Hl. rewrite Forall_forall in Hl. by apply Hl.
Qed.

(** ** The layers above *)
Class LiveTransport (X : Type) `{AP : part X arp} `{UP : !Upper X} `{IP : part X ip_state} `{TR : Transport X} := {
  live_udp_input N g H i p inp : wired g -> ready g inp -> p ∉ kept N ->
    total (fun s : node X => s) (here N None g (p :: H) i (delivered g i p)) (udp_input_call p inp) (fun _ => alive N None g H);
  live_tcp_input N g H i p inp : wired g -> ready g inp -> p ∉ kept N ->
    total (fun s : node X => s) (here N None g (p :: H) i (delivered g i p)) (tcp_input_call p inp) (fun _ => alive N None g H);
}.

Section Input.
Context {E : PbufEnv} {X : Type} {LL : LinkLayer X} {AP : part X arp} {UP : Upper X} {IP : part X ip_state} {IA : IpApart X}.
Context {FR : IpFragments X} {LF : LiveFragments X} {LK : forall N, LiveLink N} {AD : Addresses} {TR : Transport X} {LT : LiveTransport X}.

Notation returns P m Q := (total (fun s : node X => s) P m Q).

Lemma alive_modify_ip N w g H f : returns (alive N w g H) (modify_ip_data f) (fun _ => alive N w g H).
Proof.
  intros [h g0 x] [U Hs]. pose proof (live_netifs _ _ _ _ _ Hs) as Eg. simpl in Eg. subst g0.
  eexists tt, _. split; [apply modify_ip_data_run|]. exists U. by apply live_set_ip.
Qed.

Lemma live_drop N g H p : returns (live N None g (p :: H)) (drop_packet p) (fun _ => alive N None g H).
Proof. eapply total_skip; [apply live_free|]. intros _. apply total_ret. intros s. apply live_alive. Qed.

(** A datagram nobody takes; its headers, [k] bytes, are uncovered again. *)
Lemma live_unreachable N g H i p b o bs k code :
  wired g -> payload b = Some (Ptr p (o + k)) -> 0 < k -> 0 <= o -> o + 28 <= lenZ bs -> SIZEOF_STRUCT_PBUF <= o ->
  0 <= tot_len b -> tot_len b + k < 65536 ->
  returns (here N None g (p :: H) i (fun h => h_pbufs h !! p = Some b /\ h_mem h !! p = Some bs))
    (onheap (pbuf_header_force (Some p) k);; icmp_dest_unreach p code) (fun _ => alive N None g (p :: H)).
Proof.
  intros Hw Hpl Hk Ho Hl Hs Ht Htk. eapply total_bind; [eapply (here_onheap _ _ _ _ _ None (fun _ => p :: H) _ (fun _ h => readable h p 28))|].
  2:{ intros r. eapply total_pre; [by apply live_send_response|]. intros s (? & ? & ?). done. }
  intros h R Hsane [Hp Hbs]. assert (p ∈ R ++ p :: H) as Hin by (apply elem_of_app; right; apply elem_of_cons; by left).
  rewrite (header_force_own _ _ _ _ _ k Hsane Hin) by lia.
  destruct (sane_added N None (R ++ p :: H) h p b (o + k) k Hsane Hin Hp Hpl ltac:(lia)) as (r & h' & Hr & Hs' & _ & Hmv & Hok).
  exists r, h'. split; [done|]. split; [done|].
  destruct (Hmv (Hok ltac:(lia) ltac:(lia) ltac:(lia))) as [_ ->].
  eexists _, _, bs. split; [apply lookup_insert_eq|]. split; [done|]. split; [done|]. lia.
Qed.

(** ** ip4_deliver *)

(** The packet goes to the protocol it names. *)
Definition dispatch (proto : Z) (p inp netif : positive) : M (node X) unit :=
  if proto =? IP_PROTO_UDP then udp_input_call p inp
  else if proto =? IP_PROTO_TCP then tcp_input_call p inp
  else if proto =? IP_PROTO_ICMP then icmp_input p inp
  else
    s ← onip get;
    let dest := current_iphdr_dest (ip_data s) in
    n ← get_netif netif;
    (if negb (ip4_addr_isbroadcast_u32 dest n) && negb (ip4_addr_ismulticast dest) then
       onheap (pbuf_header_force (Some p) 20);; icmp_dest_unreach p ICMP_DUR_PROTO
     else mret tt);;
    onheap (pbuf_free (Some p));; mret tt.

Lemma live_dispatch N g H i p inp netif b o bs proto :
  wired g -> ready g inp -> ready g netif -> p ∉ kept N ->
  payload b = Some (Ptr p o) -> 0 <= o -> o + 28 <= lenZ bs -> SIZEOF_STRUCT_PBUF <= o -> 20 <= tot_len b < 65536 ->
  returns (here N None g (p :: H) i (fun h => delivered g i p h /\ h_pbufs h !! p = Some (move_payload b p o (- 20)) /\ h_mem h !! p = Some bs))
    (dispatch proto p inp netif) (fun _ => alive N None g H).
Proof.
  intros Hw Hr Hrn Hnk Hpl Ho Hob Hso Htl. unfold dispatch. pose proof Hrn as (n & Hn & _).
  assert (forall s, here N None g (p :: H) i (fun h => delivered g i p h /\ h_pbufs h !! p = Some (move_payload b p o (- 20)) /\ h_mem h !! p = Some bs) s ->
    here N None g (p :: H) i (delivered g i p) s) as Hdel by (intros s (? & [? _] & ?); by split).
  destruct (proto =? IP_PROTO_UDP); [by eapply total_pre; [apply (live_udp_input N g H i)|]|].
  destruct (proto =? IP_PROTO_TCP); [by eapply total_pre; [apply (live_tcp_input N g H i)|]|].
  destruct (proto =? IP_PROTO_ICMP); [by eapply total_pre; [apply (live_icmp_input N g H i)|]|].
  eapply total_step; [apply here_ip_get|]. intros r0 ->. cbv zeta. eapply total_step; [by apply here_get_netif|]. intros r0 ->.
  eapply total_skip with (R := alive N None g (p :: H)); [|intros _; eapply total_skip; [apply alive_free|]; intros _; by apply total_ret].
  destruct (_ && _); [|apply total_ret; intros s Hs; by eapply live_alive, here_live].
  eapply total_pre; [apply (live_unreachable N g H i p (move_payload b p o (- 20)) o bs 20)|intros s (? & [_ ?] & ?); by split];
    simpl; rewrite ?u16_small; (done || lia || (do 2 f_equal; lia)).
Qed.

Lemma deliver_run h g x p inp netif b o bs :
  h_pbufs h !! p = Some b -> payload b = Some (Ptr p o) -> h_mem h !! p = Some bs -> 0 <= o -> o + 28 <= lenZ bs -> 20 <= len b < 65536 ->
  let hd := from bs o in
  ip4_deliver p inp netif (Some (Ptr p o)) 20 (Node h g x) =
    (dispatch (byte_at hd 9) p inp netif;; modify_ip_data (fun _ => ip_data_init);; mret ERR_OK)
      (Node (patch p (move_payload b p o (- 20)) h) g
        (upd_ip (fun d => IpData (Some netif) (Some inp) (Some (Ptr p o)) (IPH_HL_BYTES (byte_at hd 0)) (current_iphdr_src d) (current_iphdr_dest d)) x)).
Proof.
  intros Hb Hpl Hbs Ho Hob Hlb hd. unfold ip4_deliver. mrun (heap_run _ _ g x _ _ (load8_run h p o bs Hbs Ho 0 ltac:(lia) ltac:(lia))).
  rewrite (bind_run _ _ _ _ _ (modify_ip_data_run _ h g x)). cbv beta. set (x' := upd_ip _ x).
  pose proof (pbuf_remove_header_run h p b p o 20 Hb Hpl ltac:(lia) ltac:(lia) ltac:(lia)) as Hrm. fold (patch p (move_payload b p o (- 20)) h) in Hrm.
  mrun (heap_run _ _ g x' _ _ Hrm).
  by mrun (heap_run _ _ g x' _ _ (load8_run (patch p (move_payload b p o (- 20)) h) p o bs Hbs Ho 9 ltac:(lia) ltac:(lia))).
Qed.

Lemma live_ip4_deliver N g H i p inp netif iphdr :
  wired g -> ready g inp -> ready g netif -> p ∉ kept N ->
  returns (here N None g (p :: H) i (fun h => whole h p /\ (payload <$> h_pbufs h !! p) = Some iphdr))
    (ip4_deliver p inp netif iphdr 20) (fun _ => alive N None g H).
Proof.
  intros Hw Hr Hrn Hnk [h g0 x] (Hl & ((b & o & bs & Hb & Hpl & Hbs & Href & H20 & Htl & Ho & Hob & Hhl) & Hhd) & Hi). simpl in *.
  pose proof (live_netifs _ _ _ _ _ Hl) as Eg. simpl in Eg. subst g0. rewrite Hb in Hhd. simpl in Hhd. injection Hhd as <-. rewrite Hpl.
  rewrite (deliver_run h g x p inp netif b o bs) by (done || lia). unfold upd_ip at 1. unfold ip_of in Hi. simpl in Hi. rewrite Hi.
  set (i' := set_ip_data _ i). pose proof (live_set_ip N None g (p :: H) i' h x Hl) as Hl'. set (x' := set_part i' x) in *.
  pose proof Hl' as (T & Ht & Hraw). pose proof (raw_heap _ _ _ _ _ _ Hraw) as Hsane. simpl in Hsane.
  destruct (sane_own _ _ _ _ Hsane p b Hb) as [_ _ Hlb (o2 & bs2 & Hpl2 & Hbs2 & Hso & _)].
  assert (o2 = o) as -> by congruence. clear bs2 Hbs2 Hpl2.
  destruct (sane_removed N None _ h p b o 20 Hsane Hnk Hb Hpl ltac:(lia)) as (r & h1 & Hrm & Hs1 & Hmv & Hok).
  destruct (Hmv (Hok ltac:(lia))) as [_ ->].
  eapply (total_skip (fun s => s)); [apply (live_dispatch N g H i' p inp netif b o bs); (done || lia)| |].
  - intros _. eapply total_skip; [apply alive_modify_ip|]. intros _. by apply total_ret.
  - split; [|split; [split; [|split; [apply lookup_insert_eq|done]]|apply get_set_part]].
    + exists T. split; [done|]. destruct Hraw. by split.
    + split; [split; [by exists netif|split; [by exists inp|exact Hhl]]|]. eexists _, o, bs. split; [apply lookup_insert_eq|].
      split; [simpl; do 2 f_equal; lia|]. simpl. rewrite !u16_small by lia. split_and!; (done || lia).
Qed.

(** ** ip4_input *)
Lemma live_reass_deliver N g H p inp netif hlen :
  wired g -> ready g inp -> ready g netif -> p ∉ kept N -> 20 <= hlen ->
  returns (fun s => live N None g (p :: H) s /\ inbound (n_heap s) p 28) (reass_deliver p inp netif hlen) (fun _ => alive N None g H).
Proof.
  intros Hw Hr Hrn Hnk Hh. unfold reass_deliver. eapply total_bind; [by apply live_ip4_reass|]. intros [q|]; [|by apply total_ret; intros s [? _]].
  intros [h g0 x] [[U Hl] Hq]. destruct (Hq q eq_refl) as [Hqk Hwh]. pose proof (live_netifs _ _ _ _ _ Hl) as Eg. simpl in Eg, Hwh. subst g0.
  pose proof Hwh as (b & o & bs & Hb & Hpl & _). mrun (heap_run _ _ g x _ _ (get_pbuf_run _ _ _ Hb)). unfold IP_HLEN.
  destruct (20 <? hlen) eqn:E20; b2p.
  - destruct (live_drop (with_others U N) g H q _ Hl) as (r & s' & Hrun & Hs'). exists r, s'. split; [done|]. by apply alive_others in Hs'.
  - assert (hlen = 20) as -> by lia.
    destruct (live_ip4_deliver (with_others U N) g H (ip_of (Node h g x)) q inp netif (payload b) Hw Hr Hrn Hqk (Node h g x)) as (r & s' & Hrun & Hs').
    { split; [exact Hl|]. split; [|done]. split; [done|]. simpl. by rewrite Hb. }
    exists r, s'. split; [done|]. by apply alive_others in Hs'.
Qed.

#[export] Instance ip4_live : @LiveIp X AP UP (ip4_input : IpLayer X).
Proof.
  intros N g H i p Hw Hr Hnk [h g0 x] [Hl [(b & o & bs & Hb & Hpl & Hbs & Ho & Hob) Hun]]. simpl in *.
  pose proof (live_netifs _ _ _ _ _ Hl) as Eg. simpl in Eg. subst g0. pose proof Hl as (T & Ht & Hraw). pose proof Hr as (n & Hn & _).
  pose proof (raw_heap _ _ _ _ _ _ Hraw) as Hsane. simpl in Hsane. pose proof (Hun b Hb) as Hub.
  assert (p ∈ queue_refs T ++ p :: H) as Hp by (apply elem_of_app; right; apply elem_of_cons; by left).
  destruct (ip4_input_run N None _ h g x p i b o bs n Hsane Hp Hnk Hb Hpl Hbs Ho ltac:(lia) Hub Hn) as (h1 & x1 & Hs1 & Hb1 & Hbs1 & Hrun & Hx & _).
  change (ip4_input_call p i (Node h g x)) with (ip4_input p i (Node h g x)). rewrite Hrun.
  assert (live N None g (p :: H) (Node h1 g x1)) as Hl1.
  { assert (live N None g (p :: H) (Node h1 g x)) as Hl1 by (exists T; split; [done|]; destruct Hraw; by split).
    destruct Hx as [-> | ->]; [done|]. by do 2 apply live_set_ip. }
  destruct (ip4_fate_of _ _ _ _ _) as [|j|j] eqn:Hf.
  - by apply live_drop.
  - destruct (fate_inv _ _ _ _ _ j _ Hf ltac:(by left)) as (Hacc & Hv & Hil & Hhl & _).
    apply live_reass_deliver; [done|done|by eapply accepting_ready|done|lia|]. split; [done|].
    assert (payload (trimmed (from bs o) b) = Some (Ptr p o)) as Hpl1 by (unfold trimmed; by destruct (_ && _)).
    split; [by eexists _, o, bs|]. intros c. simpl. rewrite Hb1. intros [= <-]. unfold trimmed. destruct (_ && _); [|done]. destruct Hub as (? & ? & _). by split_and!.
  - destruct (fate_inv _ _ _ _ _ j _ Hf ltac:(by right)) as (Hacc & Hv & Hil & Hhl & Hex). rewrite (Hex eq_refl).
    apply (live_ip4_deliver N g H (ip_of (Node h1 g x1))); [done|done|by eapply accepting_ready|done|]. split; [done|]. split; [|done].
    assert (payload (trimmed (from bs o) b) = Some (Ptr p o)) as Hpl1 by (unfold trimmed; by destruct (_ && _)).
    split; [|simpl; by rewrite Hb1, <- Hpl1]. eexists _, o, bs. split; [exact Hb1|]. split; [done|]. split; [done|].
    destruct Hub as (Href & _ & Htl). pose proof (own_len _ _ _ (sane_own _ _ _ _ Hsane p b Hb)).
    pose proof (lwip_htons_bound (ld16 (from bs o) 2)). specialize (Hex eq_refl).
    unfold trimmed. destruct (_ && _); simpl; split_and!; (done || lia).
Qed.

End Input.
