(* ===== verification/UdpLive.v ===== *)
(** * UDP: no operation of core/udp.c goes wrong

    As Ip4Live and Ip4InputLive: udp_input, which keeps its part of the promise
    IP relies on, and the functions that send. *)
From S2P Require Import Prelude Triple Def Pbuf PbufFacts PbufWrite PbufAlloc PbufPool PbufChain PbufRef PbufOwn PbufEdit.
From S2P Require Import Netif Node Ip4Addr InetChksum Ethernet EthernetFacts Etharp EtharpFacts EtharpInv EtharpLive Ip4 Icmp Ip4Input Ip4Facts Ip4Live IcmpLive Ip4InputLive.
From S2P Require Import Udp UdpFacts UdpDemux UdpHeader.

(** UDP's variables are neither the cache nor IP's nor references; that they are
    in order is part of what the layers above ask. *)
Class UdpApart (X : Type) `{AP : part X arp} `{UP : !Upper X} `{IP : part X ip_state} `{UD : part X udp_state} := {
  udp_keeps_arp_part (u : udp_state) (x : X) : (get_part (set_part u x) : arp) = get_part x;
  udp_keeps_ip_part (u : udp_state) (x : X) : (get_part (set_part u x) : ip_state) = get_part x;
  udp_keeps_held (u : udp_state) (x : X) : held (set_part u x) = held x;
  order_udp (x : X) : in_order x -> udp_ok (get_part x);
  udp_keeps_order (u : udp_state) (x : X) : in_order x -> udp_ok u -> in_order (set_part u x);
}.

(** A receive function takes over the packet, which can take another reference. *)
Class LiveUser (X : Type) `{AP : part X arp} `{UP : !Upper X} `{UD : part X udp_state} `{UU : UdpUser X} :=
  live_recv N g H f arg i p src sport : wired g -> p ∉ kept N ->
    total (fun s : node X => s) (fun s => live N (Some p) g (p :: H) s /\ is_Some (udp_tab (udp_of s) !! i))
      (udp_recv_call f arg i p src sport) (fun _ => alive N None g H).

Section Live.
Context {E : PbufEnv} {X : Type} {LL : LinkLayer X} {AP : part X arp} {UP : Upper X} {IP : part X ip_state} {IA : IpApart X}.
Context {UD : part X udp_state} {UA : UdpApart X} {UU : UdpUser X} {LU : LiveUser X}.
Context {FR : IpFragments X} {LF : LiveFragments X} {LK : forall N, LiveLink N} {AD : Addresses}.

Notation returns P m Q := (total (fun s : node X => s) P m Q).

Lemma live_udp_ok N w g H s : live N w g H s -> udp_ok (udp_of s).
Proof. intros (T & _ & Hr). by apply order_udp, (raw_held _ _ _ _ _ _ Hr). Qed.
Lemma live_set_udp N w g H u h x : udp_ok u -> live N w g H (Node h g x) -> live N w g H (Node h g (set_part u x)).
Proof.
  intros Hu (T & Ht & [Hg HT Hc Hh Hs]). exists T. split; [done|]. unfold arp_of in *. simpl in *.
  split; unfold arp_of; simpl; rewrite ?udp_keeps_arp_part, ?udp_keeps_held; try done. split; [apply Hh|apply udp_keeps_order; [apply Hh|done]].
Qed.

(** A function on UDP's variables. *)
Lemma live_onudp {A} (m : M udp_state A) N w g H s :
  (forall u, udp_ok u -> exists r u', m u = Some (r, u') /\ udp_ok u') -> live N w g H s ->
  exists r s', onudp m s = Some (r, s') /\ live N w g H s'.
Proof.
  intros Hm Hl. destruct s as [h g0 x]. pose proof (live_netifs _ _ _ _ _ Hl) as Eg. simpl in Eg. subst g0.
  destruct (Hm _ (live_udp_ok _ _ _ _ _ Hl)) as (r & u' & Hr & Hu'). exists r. eexists.
  split; [by apply onudp_run|]. by apply live_set_udp.
Qed.

(** What a user may call. *)
Lemma live_udp_call c N w g H s :
  valid_call (udp_of s) c -> live N w g H s -> exists s', onudp (make_udp_call c) s = Some (tt, s') /\ live N w g H s'.
Proof.
  intros Hc Hl. destruct s as [h g0 x]. pose proof (live_netifs _ _ _ _ _ Hl) as Eg. simpl in Eg. subst g0.
  destruct (udp_call_total (get_part x) c (live_udp_ok _ _ _ _ _ Hl) Hc) as (u' & Hr & Hu' & _). eexists.
  split; [by apply onudp_run|]. by apply live_set_udp.
Qed.

(** ** Input *)
Lemma live_drop_datagram N g H p : returns (live N None g (p :: H)) (drop_datagram p) (fun _ => alive N None g H).
Proof. eapply total_skip; [apply live_free|]. intros _. apply total_ret. intros s. apply live_alive. Qed.

Lemma live_to_user N g H u i p d :
  wired g -> p ∉ kept N ->
  returns (fun s => live N (Some p) g (p :: H) s /\ udp_of s = u) (to_user u i p d) (fun _ => alive N None g H).
Proof.
  intros Hw Hp. unfold to_user. destruct (udp_tab u !! i) as [c|] eqn:Hc; simpl.
  - destruct (recv c) as [f|]; simpl; [|eapply total_pre; [apply live_drop_datagram|intros s [? _]; by eapply live_weaken]].
    eapply total_pre; [by apply live_recv|]. intros s [? E1]. split; [done|]. rewrite E1. by eexists.
  - eapply total_pre; [apply live_drop_datagram|]. intros s [? _]. by eapply live_weaken.
Qed.

Lemma live_no_user N g H i p b o bs d :
  wired g -> payload b = Some (Ptr p (o + 28)) -> 0 <= o -> o + 28 <= lenZ bs -> SIZEOF_STRUCT_PBUF <= o ->
  0 <= tot_len b -> tot_len b + 28 < 65536 ->
  returns (here N None g (p :: H) i (fun h => h_pbufs h !! p = Some b /\ h_mem h !! p = Some bs)) (no_user 20 p d) (fun _ => alive N None g H).
Proof.
  intros Hw Hpl Ho Hl Hs Ht Htl. unfold no_user. eapply total_skip with (R := alive N None g (p :: H)).
  - destruct (_ && _); [by eapply live_unreachable|]. apply total_ret. intros s Hh. by eapply live_alive, here_live.
  - intros _. apply alive_elim. intros U. eapply total_post; [apply live_drop_datagram|]. intros r s. apply alive_others.
Qed.

Lemma live_udp N g H i p inp :
  wired g -> ready g inp -> p ∉ kept N ->
  returns (here N None g (p :: H) i (delivered g i p)) (udp_input p inp) (fun _ => alive N None g H).
Proof.
  intros Hw Hr Hnk [h g0 x] (Hl & (((j & Hcur & n & Hn & _) & (k & Hin & nk & Hk & _) & Hh) & b & o & bs & Hb & Hpl & Hbs & _ & Href & Ho & Hob & _ & Hso & Ht0 & Ht) & Hi).
  pose proof (live_netifs _ _ _ _ _ Hl) as Eg. simpl in Eg, Hb, Hbs. subst g0. pose proof Hl as (T & _ & Hraw). pose proof Hr as (ni & Hni & _).
  pose proof (raw_heap _ _ _ _ _ _ Hraw) as Hsane. simpl in Hsane. pose proof (own_len _ _ _ (sane_own _ _ _ _ Hsane p b Hb)) as Hlb.
  destruct (decide (len b < UDP_HLEN)) as [Hsh|Hge].
  { rewrite (udp_input_short h g x p inp b Hb Hsh). by apply live_drop_datagram. }
  unfold UDP_HLEN in *. unfold ip_of in Hi. simpl in Hi. rewrite <- Hi in *.
  destruct (udp_input_run h g x p inp b (o + 20) bs j n k nk ni Hb Hpl Hbs ltac:(lia) ltac:(lia) ltac:(unfold UDP_HLEN; lia) ltac:(unfold UDP_HLEN; lia)
    (live_udp_ok _ _ _ _ _ Hl) Hcur Hn Hin Hk Hni) as (r & u & _ & (l & Hlp & Hu) & Hrun).
  rewrite Hrun. clear Hrun. set (d := datagram_of _ _ _).
  assert (udp_ok u) as Huok by (rewrite Hu; apply reordered_ok; [done|exact (live_udp_ok _ _ _ _ _ Hl)]).
  destruct (sane_removed N None _ h p b (o + 20) 8 Hsane Hnk Hb Hpl ltac:(lia)) as (r1 & h1 & _ & Hs1 & Hmv & Hok).
  destruct (Hmv (Hok ltac:(lia))) as [_ ->]. change (- UDP_HLEN) with (-8). set (h1 := patch p _ h) in *.
  assert (live N None g (p :: H) (Node h1 g (set_part u x))) as Hl1.
  { apply live_set_udp; [done|]. destruct Hl as (T1 & Ht1 & Hr1). exists T. destruct Hraw. split; [|by split].
    assert (T1 = T) as <-; [|done]. rewrite <- raw_table. symmetry. apply Hr1. }
  destruct (pick r) as [q|].
  { apply live_to_user; [done|done|]. split; [|apply get_set_part]. apply live_watch; [done|].
    intros c. simpl. rewrite lookup_insert_eq. intros [= <-]. simpl. lia. }
   destruct (ip_addr ni =? _); [|by apply live_drop_datagram, live_set_udp].
  rewrite Hh. apply (live_no_user N g H (get_part x) p (move_payload b p (o + 20) (-8)) o bs); simpl; rewrite ?u16_small by lia; try done; try lia.
  - do 2 f_equal. lia.
  - split; [done|]. split; [split; [apply lookup_insert_eq|done]|]. unfold ip_of. simpl. apply udp_keeps_ip_part.
Qed.

(** ** Output *)

Lemma sane_chksum_pseudo n w R h p proto l src dest :
  sane n w R h -> p ∈ R -> exists c, ip_chksum_pseudo addr_of (Some p) proto l src dest h = Some (c, h).
Proof.
  intros Hs Hp. destruct (sane_chain _ _ _ _ _ Hs Hp) as (c & Hc & Ho). unfold ip_chksum_pseudo, inet_chksum_pseudo, inet_cksum_pseudo_base. rewrite bind_get.
  destruct (chksum_loop_total h c (chain_fuel h) (Some p) (pseudo_acc src dest) false Hc Ho) as [[acc sw] Hr]; [pose proof (chain_fuel_enough _ _ _ Hc); lia|].
  mrun Hr. by eexists.
Qed.
Lemma here_chksum_pseudo N w g H i h0 p proto l src dest :
  p ∈ H -> returns (here N w g H i (shape h0)) (onheap (ip_chksum_pseudo addr_of (Some p) proto l src dest)) (fun _ => here N w g H i (shape h0)).
Proof.
  intros Hp. apply (here_onheap _ _ _ _ _ w (fun _ => H) _ (fun _ => shape h0)). intros h R Hs Hsh.
  destruct (sane_chksum_pseudo _ _ _ _ p proto l src dest Hs ltac:(apply elem_of_app; by right)) as [c Hc]. by exists c, h.
Qed.

(** The header written, and the packet handed to IP. *)
Lemma live_send_header {A} N g H i h0 q b dst port netif src (c : udp_pcb) (k : err_t -> M (node X) A) Q :
  wired g -> ready g netif -> q ∈ H -> h_pbufs h0 !! q = Some b -> readable h0 q 8 ->
  (forall e, returns (alive N None g H) (k e) Q) ->
  returns (here N (Some q) g H i (shape h0))
    (onheap (store (payload b) 0 (st16 (lwip_htons (local_port c))));;
     onheap (store (payload b) 2 (st16 (lwip_htons port)));;
     onheap (store (payload b) 6 (st16 0));;
     onheap (store (payload b) 4 (st16 (lwip_htons (tot_len b))));;
     (if Z.land (udp_flags c) UDP_FLAGS_NOCHKSUM =? 0 then
        k ← onheap (ip_chksum_pseudo addr_of (Some q) IP_PROTO_UDP (tot_len b) src dst);
        onheap (store (payload b) 6 (st16 (if k =? 0 then 0xffff else k)))
      else mret tt);;
     err ← ip4_output_if_src q (Some src) (Some dst) (ttl c) (tos c) IP_PROTO_UDP netif;
     k err) Q.
Proof.
  intros Hw Hr Hq Hb Hrd Hk.
  do 4 (eapply total_skip; [eapply here_store; [exact Hb|exact Hrd|lia|simpl; lia]|]; intros _).
  eapply total_skip with (R := here N (Some q) g H i (shape h0)).
  - destruct (_ =? 0); [|by apply total_ret]. eapply total_skip; [by apply here_chksum_pseudo|]. intros v.
    eapply here_store; [exact Hb|exact Hrd|lia|simpl; lia].
  - intros _. eapply total_skip; [eapply total_pre; [by apply live_output_if_src|apply here_live]|exact Hk].
Qed.

Lemma live_sendto_if_src N g H pcb p dst port netif src :
  wired g -> ready g netif -> p ∈ H ->
  returns (fun s => live N (Some p) g H s /\ is_Some (udp_tab (udp_of s) !! pcb)) (udp_sendto_if_src pcb p dst port netif src) (fun _ => alive N None g H).
Proof.
  intros Hw Hr Hp [h g0 x] [Hl [c Hc]]. pose proof (live_netifs _ _ _ _ _ Hl) as Eg. simpl in Eg. subst g0.
  assert (forall s, live N (Some p) g H s -> alive N None g H s) as Hgive by (intros s Hs; apply live_alive; by eapply live_weaken).
  unfold udp_sendto_if_src. rewrite (bind_run _ _ _ _ _ (onudp_pcb_run pcb c _ Hc)).
  assert (exists r x1, (if local_port c =? 0 then onudp (udp_bind (Some pcb) (Some (local_ip c)) (local_port c)) else mret ERR_OK) (Node h g x) = Some (r, Node h g x1) /\
    live N (Some p) g H (Node h g x1) /\ is_Some (udp_tab (get_part x1) !! pcb)) as (r & x1 & Hrun & Hl1 & [c1 Hc1]).
  { destruct (local_port c =? 0); [|exists ERR_OK, x; split_and!; [done..|by eexists]].
    destruct (bind_total (get_part x) pcb c (Some (local_ip c)) (local_port c) (live_udp_ok _ _ _ _ _ Hl) Hc) as (r & u & Hb & Hu & _ & Hd & _).
    exists r, (set_part u x). split; [by apply onudp_run|]. split; [by apply live_set_udp|]. rewrite get_set_part.
    apply elem_of_dom. rewrite Hd. by apply elem_of_dom_2 in Hc. }
  mrun Hrun. clear Hrun Hl Hc c. destruct (negb _); [eexists _, _; split; [done|by apply Hgive]|].
  pose proof Hl1 as (T & Ht & Hraw). pose proof (raw_heap _ _ _ _ _ _ Hraw) as Hsane. simpl in Hsane.
  assert (p ∈ queue_refs T ++ H) as HpR by (apply elem_of_app; by right).
  destruct (sane_live _ _ _ _ p Hsane HpR) as (b & Hb & _). mrun (heap_run _ _ g x1 _ _ (get_pbuf_run _ _ _ Hb)).
  destruct (_ <? tot_len b); [eexists _, _; split; [done|by apply Hgive]|].
  destruct (sane_header_pbuf N (queue_refs T ++ H) h p Hsane HpR) as (q & h1 & Hrun & Hq). mrun (heap_run _ _ g x1 _ _ Hrun).
  destruct q as [q|]; [|eexists _, _; split; [done|]; apply live_alive; exists T; split; [done|]; by destruct Hraw].
  destruct Hq as [Hs1 Hrd]. pose proof Hrd as (bq & _ & _ & Hbq & _).
  assert (live N (Some q) g (header_ref q p ++ H) (Node h1 g x1)) as Hl2.
  { exists T. split; [done|]. destruct Hraw. split; try done. simpl. by rewrite Permutation_app_swap_app. }
  mrun (heap_run _ _ g x1 _ _ (get_pbuf_run _ _ _ Hbq)). cbv zeta.
  rewrite (bind_run _ _ _ _ _ (onudp_pcb_run pcb c1 (Node h1 g x1) Hc1)).
  eapply (live_send_header N g (header_ref q p ++ H) (ip_of (Node h1 g x1)) h1 q bq dst port netif src c1); [done..| |exact Hbq|exact Hrd| |].
  - unfold header_ref. case_decide; [by subst|by left].
  - intros e. unfold header_ref. case_decide as Hqp.
    + rewrite bool_decide_eq_false_2 by tauto. by eapply total_skip; [by apply total_ret|intros r0; apply total_ret].
    + rewrite bool_decide_eq_true_2 by done. eapply total_skip with (R := alive N None g H); [|intros r0; by apply total_ret].
      eapply total_skip; [apply alive_free|]. intros f. by apply total_ret.
  - split; [exact Hl2|]. split; [apply shape_refl|done].
Qed.

Lemma live_sendto_if N g H pcb p dst port netif :
  wired g -> ready g netif -> p ∈ H ->
  returns (fun s => live N (Some p) g H s /\ is_Some (udp_tab (udp_of s) !! pcb)) (udp_sendto_if pcb p dst port netif) (fun _ => alive N None g H).
Proof.
  intros Hw Hr Hp [h g0 x] [Hl Hpcb]. pose proof Hpcb as [c Hc]. pose proof (live_netifs _ _ _ _ _ Hl) as Eg. simpl in Eg. subst g0.
  unfold udp_sendto_if. rewrite (bind_run _ _ _ _ _ (onudp_pcb_run pcb c _ Hc)).
  pose proof Hr as (n & Hn & _). mrun (get_netif_run h g x netif n Hn).
  destruct (_ || _); [by apply live_sendto_if_src|]. destruct (negb _); [|by apply live_sendto_if_src].
  eexists _, _. split; [done|]. apply live_alive. by eapply live_weaken.
Qed.

Lemma live_sendto N g H pcb p dst port :
  wired g -> p ∈ H ->
  returns (fun s => live N (Some p) g H s /\ is_Some (udp_tab (udp_of s) !! pcb)) (udp_sendto (Some pcb) (Some p) (Some dst) port) (fun _ => alive N None g H).
Proof.
  intros Hw Hp [h g0 x] [Hl Hpcb]. pose proof Hpcb as [c Hc]. pose proof (live_netifs _ _ _ _ _ Hl) as Eg. simpl in Eg. subst g0.
  unfold udp_sendto. rewrite (bind_run _ _ _ _ _ (onudp_pcb_run pcb c _ Hc)).
  assert (exists r, (if negb (netif_idx c =? NETIF_NO_INDEX) then netif_get_by_index (netif_idx c) else ip4_route dst) (Node h g x) = Some (r, Node h g x) /\
    forall i, r = Some i -> ready g i) as (r & Hrun & Hr).
  { destruct (negb (netif_idx c =? NETIF_NO_INDEX)) eqn:Ei.
    - unfold netif_get_by_index. rewrite Ei. eexists. split; [by unfold zoom|]. intros i. apply find_netif_ready, Hw.
    - destruct (live_route N (Some p) g H dst Hw _ Hl) as (r & s' & Hr & Hi & _). exists r. split; [|done].
      by rewrite (ip4_route_state _ _ _ _ Hr) in Hr. }
  mrun Hrun. destruct r as [i|]; [apply live_sendto_if; [done|by apply Hr|done|done]|].
  eexists _, _. split; [done|]. apply live_alive. by eapply live_weaken.
Qed.

Lemma live_send N g H pcb p :
  wired g -> p ∈ H ->
  returns (fun s => live N (Some p) g H s /\ is_Some (udp_tab (udp_of s) !! pcb)) (udp_send (Some pcb) (Some p)) (fun _ => alive N None g H).
Proof.
  intros Hw Hp [h g0 x] [Hl Hpcb]. pose proof Hpcb as [c Hc].
  unfold udp_send. rewrite (bind_run _ _ _ _ _ (onudp_pcb_run pcb c _ Hc)).
  by apply live_sendto.
Qed.

End Live.
