(* ===== verification/Stack.v ===== *)
(** * The stack on the FreeRTOS side, put together

    The driver (freertos/rpmsg_eth.c), the tcpip thread with its mailbox and its
    timers, Ethernet, ARP, IP, ICMP and UDP share one store, [node (world O Y V)]:
    [O] is FreeRTOS, [Y] the other end of the RPMsg channel, [V] the state of the
    rest.  This is a parameter ([Above]): TCP, fragments, and what the users of the
    stack do in their callbacks. *)
From S2P Require Import Prelude Triple Def Pbuf Netif Node SysArch Timeouts Tcpip RpmsgFreeRTOS Ethernet Etharp Ip4 Icmp Ip4Input Udp.

Record world (O Y V : Type) := World {
  w_arp : arp;
  w_ip : ip_state;
  w_udp : udp_state;
  w_up : V;
  w_timers : timers;
  w_pools : msg_pools;
  w_os : O;
  w_link : Y;
}.
Arguments World {O Y V}.
Arguments w_arp {O Y V}.
Arguments w_ip {O Y V}.
Arguments w_udp {O Y V}.
Arguments w_up {O Y V}.
Arguments w_timers {O Y V}.
Arguments w_pools {O Y V}.
Arguments w_os {O Y V}.
Arguments w_link {O Y V}.

(** OpenAMP's part of the interface, on the channel's own state. *)
Class Channel (Y : Type) := {
  ch_send : list Z -> Y -> Z * Y;
  ch_create_ept : list Z -> Y -> Z * Y;
  ch_malloc : Y -> bool * Y;
}.

(** The rest: TCP, fragments, the timers of IP and TCP, and the functions users
    pass to udp_recv, as timeouts and as callbacks. *)
Class Above (X : Type) := {
  #[global] above_fragments :: IpFragments X;
  #[global] above_udp_user :: UdpUser X;
  up_tcp_input : positive -> positive -> M (node X) unit;
  up_lwip_init : M (node X) unit;
  up_ip_reass_tmr : M (node X) unit;
  up_tcp_tmr : M (node X) unit;
  up_tcp_busy : M (node X) bool;
  up_timer : Z -> Z -> M (node X) unit;
  up_callback : Z -> Z -> M (node X) unit;
  up_mem_free : Z -> M (node X) unit;
}.

Section Parts.
Context {O Y V : Type}.

#[export] Program Instance arp_part : part (world O Y V) arp := {
  get_part := w_arp;
  set_part a w := World a (w_ip w) (w_udp w) (w_up w) (w_timers w) (w_pools w) (w_os w) (w_link w);
}.
Solve Obligations with done.
Next Obligation. by intros []. Qed.

#[export] Program Instance ip_part : part (world O Y V) ip_state := {
  get_part := w_ip;
  set_part i w := World (w_arp w) i (w_udp w) (w_up w) (w_timers w) (w_pools w) (w_os w) (w_link w);
}.
Solve Obligations with done.
Next Obligation. by intros []. Qed.

#[export] Program Instance udp_part : part (world O Y V) udp_state := {
  get_part := w_udp;
  set_part u w := World (w_arp w) (w_ip w) u (w_up w) (w_timers w) (w_pools w) (w_os w) (w_link w);
}.
Solve Obligations with done.
Next Obligation. by intros []. Qed.

#[export] Program Instance up_part : part (world O Y V) V := {
  get_part := w_up;
  set_part u w := World (w_arp w) (w_ip w) (w_udp w) u (w_timers w) (w_pools w) (w_os w) (w_link w);
}.
Solve Obligations with done.
Next Obligation. by intros []. Qed.

#[export] Program Instance pools_part : part (world O Y V) msg_pools := {
  get_part := w_pools;
  set_part m w := World (w_arp w) (w_ip w) (w_udp w) (w_up w) (w_timers w) m (w_os w) (w_link w);
}.
Solve Obligations with done.
Next Obligation. by intros []. Qed.

#[export] Program Instance os_part : part (world O Y V) O := {
  get_part := w_os;
  set_part o w := World (w_arp w) (w_ip w) (w_udp w) (w_up w) (w_timers w) (w_pools w) o (w_link w);
}.
Solve Obligations with done.
Next Obligation. by intros []. Qed.

#[export] Program Instance timers_part : part (node (world O Y V)) timers := {
  get_part s := w_timers (n_ext s);
  set_part t s := let w := n_ext s in
    Node (n_heap s) (n_netifs s) (World (w_arp w) (w_ip w) (w_udp w) (w_up w) t (w_pools w) (w_os w) (w_link w));
}.
Solve Obligations with done.
Next Obligation. by intros [? ? []]. Qed.

Definition set_link (y : Y) (w : world O Y V) : world O Y V :=
  World (w_arp w) (w_ip w) (w_udp w) (w_up w) (w_timers w) (w_pools w) (w_os w) y.
Definition onlink {A} (f : Y -> A * Y) (w : world O Y V) : A * world O Y V :=
  let '(a, y) := f (w_link w) in (a, set_link y w).

End Parts.

(** ** The wiring *)
Section Wiring.
Context {E : PbufEnv} {O Y V : Type} {F : FreeRTOS O tcpip_msg} {C : Channel Y} {U : Above (world O Y V)} {AD : Addresses}.

(** The driver's input function is tcpip_input, its linkoutput
    low_level_output. *)
#[export] Instance stack_amp : OpenAmp (world O Y V) := {
  rpmsg_send d := onlink (ch_send d);
  rpmsg_create_ept n := onlink (ch_create_ept n);
  mem_malloc_priv := onlink ch_malloc;
  RpmsgFreeRTOS.tcpip_input := Tcpip.tcpip_input;
  lwip_init := up_lwip_init;
}.

#[export] Instance stack_link : LinkLayer (world O Y V) := fun _ p => low_level_output (Some p).

#[export] Instance stack_transport : Transport (world O Y V) := {
  udp_input_call := udp_input;
  tcp_input_call := up_tcp_input;
}.

#[export] Instance stack_ip : IpLayer (world O Y V) := ip4_input.

#[export] Instance stack_timers : TimerEnv (node (world O Y V)) := {
  read_now := onos sys_now;
  call_cyclic c := match c with
    | Tcp_tmr => up_tcp_tmr
    | Ip_reass_tmr => up_ip_reass_tmr
    | Etharp_tmr => etharp_tmr
    end;
  call_user := up_timer;
  tcp_busy := up_tcp_busy;
}.

#[export] Instance stack_tcpip : TcpipEnv (world O Y V) := {
  call_input f p i := match f with
    | Ethernet_input => ethernet_input etharp_input p i
    | Ip_input => ip4_input p i
    end;
  call_mem_free := up_mem_free;
  call_callback := up_callback;
}.

End Wiring.
