(* ===== verification/EtharpProps.v ===== *)
(** * The ARP cache: the properties of core/ipv4/etharp.c *)
From S2P Require Import Prelude Triple Def Pbuf PbufFacts PbufWrite PbufAlloc PbufPool PbufChain PbufRef PbufOwn.
From S2P Require Import Netif Node Ip4Addr Ethernet EthernetFacts Etharp EtharpFacts EtharpInv EtharpSend EtharpLive Examples.

(** ** Clients of the ARP module

    What the rest of the program may do between two ticks of the timer: hand in
    received frames and ARP packets, send and queue packets, announce an
    address, take an interface down, and allocate, share and give up pbufs. *)
Inductive arp_call :=
  | CallFrame (p i : positive)
  | CallInput (p i : positive)
  | CallOutput (i p : positive) (ip : Z)
  | CallQuery (i : positive) (ip : Z) (p : option positive)
  | CallAnnounce (i : positive)
  | CallTmr
  | CallCleanup (i : positive)
  | CallAlloc (layer : pbuf_layer) (k : Z) (type : pbuf_type)
  | CallRef (p : positive)
  | CallFree (p : positive).

Section Clients.
Context {E : PbufEnv} {X : Type} {LL : LinkLayer X} {IL : IpLayer X} {AP : part X arp} {UP : Upper X}.

(** One call, with the references the caller holds before and after. *)
Definition call (c : arp_call) (H : list positive) : M (node X) (list positive) :=
  match c with
  | CallFrame p i => ethernet_input etharp_input p i;; mret (yields p H)
  | CallInput p i => etharp_input p i;; mret (yields p H)
  | CallOutput i p ip => etharp_output i p ip;; mret H
  | CallQuery i ip p => etharp_query i ip p;; mret H
  | CallAnnounce i => etharp_gratuitous i;; mret H
  | CallTmr => etharp_tmr;; mret H
  | CallCleanup i => etharp_cleanup_netif i;; mret H
  | CallAlloc layer k type => r ← onheap (pbuf_alloc layer k type); mret (option_list r ++ H)
  | CallRef p => onheap (pbuf_ref (Some p));; mret (p :: H)
  | CallFree p => onheap (pbuf_free (Some p));; mret (yields p H)
  end.

(** What a caller has to see to: the interface exists, the packets are its own,
    and a received one is at least as long as the headers read from it; a frame
    comes in a pbuf of the pool that is the caller's alone. *)
Definition callable (c : arp_call) (H : list positive) (s : node X) : Prop :=
  match c with
  | CallFrame p i => wired (n_netifs s) /\ ready (n_netifs s) i /\ p ∈ H /\ inbound (n_heap s) p FRAME_HEADERS
  | CallInput p i => ready (n_netifs s) i /\ p ∈ H /\ readable (n_heap s) p SIZEOF_ETHARP_HDR
  | CallOutput i p _ | CallQuery i _ (Some p) => ready (n_netifs s) i /\ p ∈ H /\ countable (n_heap s) p
  | CallQuery i _ None | CallAnnounce i => ready (n_netifs s) i
  | CallTmr | CallCleanup _ => True
  | CallAlloc _ k type => 0 <= k < 65536 /\ (type = PBUF_RAM \/ type = PBUF_POOL)
  | CallRef p => p ∈ H /\ countable (n_heap s) p
  | CallFree p => p ∈ H
  end.

Definition call_step (s s' : list positive * node X) : Prop :=
  exists c, callable c s.1 s.2 /\ call c s.1 s.2 = Some (s'.1, s'.2).

(** IP may send packets of its own, as long as it keeps the cache in order. *)
Class IpKeepsArp := ip_keeps_arp p i : triple arp_ok (ip4_input_call p i) (fun _ => arp_ok).

Lemma triple_mret {A B} (m : M (node X) A) (b : A -> B) :
  triple arp_ok m (fun _ => arp_ok) -> triple arp_ok (r ← m; mret (b r)) (fun _ => arp_ok).
Proof. intros Hm. eapply triple_bind; [exact Hm|]. intros a. by apply (triple_ret arp_of (b a) (fun _ => arp_ok)). Qed.

Context {QL : QuietLink} {IK : IpKeepsArp}.

Lemma triple_ethernet_input p i :
  triple arp_ok (ethernet_input etharp_input p i) (fun _ => arp_ok).
Proof.
  unfold ethernet_input. pose proof (triple_input p i) as Hin.
  assert (forall e : err_t, triple arp_ok (onheap (pbuf_free (Some p));; mret e) (fun _ => arp_ok)) as Hfree
    by (intros e; apply (triple_mret _ (fun _ => e)), triple_quiet, quiet_heap).
  apply triple_quiet_bind; [apply quiet_heap|]. intros b. case_match; [apply Hfree|].
  apply triple_quiet_bind; [apply quiet_netif|]. intros n.
  apply triple_quiet_bind; [quiet_tac|]. intros _. apply triple_quiet_bind; [apply quiet_heap|]. intros hdr.
  cbv zeta. apply triple_quiet_bind; [apply quiet_heap|]. intros _.
  repeat (case_match; [|try apply Hfree]); try apply Hfree; (apply triple_quiet_bind; [apply quiet_heap|]);
    intros [|]; try apply Hfree; apply (triple_mret _ (fun _ => ERR_OK)); [apply ip_keeps_arp|exact Hin].
Qed.

(** ** What the calls keep *)

Lemma call_keeps_cache c H : triple arp_ok (call c H) (fun _ => arp_ok).
Proof.
  destruct c; cbn [call].
  1: exact (triple_mret _ (fun _ => yields p H) (triple_ethernet_input p i)).
  1: exact (triple_mret _ (fun _ => yields p H) (triple_input p i)).
  1: exact (triple_mret _ (fun _ => H) (triple_output i p ip)).
  1: exact (triple_mret _ (fun _ => H) (triple_query i ip p)).
  1: { apply (triple_mret _ (fun _ => H)), triple_quiet. unfold etharp_gratuitous.
       apply quiet_bind; [apply quiet_netif|]. intros n. apply quiet_request. }
  1,2: apply (triple_mret _ (fun _ => H)), triple_pure; intros a0 Ho;
    (eapply triple_conseq; [first [by apply triple_tmr|by apply triple_cleanup]|done|by intros ? ? []]).
  - apply (triple_mret _ (fun r => option_list r ++ H)), triple_quiet, quiet_heap.
  - apply (triple_mret _ (fun _ => p :: H)), triple_quiet, quiet_heap.
  - apply (triple_mret _ (fun _ => yields p H)), triple_quiet, quiet_heap.
Qed.

Context {LK : forall N, LiveLink N} {LI : LiveIp}.

Section Run.
Context (N : budget).

Lemma live_heap_op {A} w g H (H' : A -> list positive) (m : M heap A) s :
  (forall h R, sane N w (R ++ H) h -> exists r h', m h = Some (r, h') /\ sane N None (R ++ H' r) h') ->
  live N w g H s -> exists r s', onheap m s = Some (r, s') /\ live N None g (H' r) s'.
Proof.
  intros Hm (T & Ht & [Hg HT Hc Hh Hs]). destruct (Hm _ _ Hs) as (r & h' & Hr & Hs').
  exists r, (Node h' (n_netifs s) (n_ext s)). split; [destruct s; by apply heap_run|].
  exists T. split; [done|]. by split.
Qed.

Lemma yields_middle p (D H : list positive) : p ∈ H -> D ++ H ≡ₚ p :: D ++ yields p H.
Proof. intros Hp. rewrite Permutation_middle. f_equiv. by apply give_up_Permutation. Qed.

(** A frame that is still to be handled is not handed in twice. *)
Definition not_kept (c : arp_call) : Prop :=
  match c with CallFrame p _ => p ∉ kept N | _ => True end.

(** Every allowed call returns, and the references are accounted for again;
    [D] are references of others. *)
Lemma call_live_at g c D H s :
  live N None g (D ++ H) s -> callable c H s -> not_kept c ->
  exists H' s', call c H s = Some (H', s') /\ alive N None g (D ++ H') s'.
Proof.
  intros Hs. pose proof (live_netifs _ _ _ _ _ Hs) as Hg.
  assert (forall {A} (m : M (node X) A) (f : A -> list positive),
    (exists r s', m s = Some (r, s') /\ alive N None g (D ++ f r) s') ->
    exists H' s', (r ← m; mret (f r)) s = Some (H', s') /\ alive N None g (D ++ H') s') as Hret.
  { intros A m f (r & s' & Hr & Hl). exists (f r), s'. split; [|done]. by rewrite (bind_run _ _ _ _ _ Hr). }
  assert (forall {A} P (m : M (node X) A) (f : A -> list positive),
    total (fun s => s) P m (fun r => live N None g (D ++ f r)) -> P s ->
    exists H' s', (r ← m; mret (f r)) s = Some (H', s') /\ alive N None g (D ++ H') s') as Hrun.
  { intros A P m f Hm HP. apply Hret. destruct (Hm s HP) as (r & s' & Hr & Hl). exists r, s'. split; [done|by apply live_alive]. }
  assert (forall p, p ∈ H -> p ∈ D ++ H) as Hin by (intros p Hp; apply elem_of_app; by right).
  destruct c as [p i|p i|i p ip|i ip [p|]|i| |i|layer k type|p|p]; cbn [callable call not_kept]; rewrite ?Hg.
  - intros (Hw & Hi & Hp & Hrd) Hnk. apply (Hret _ _ (fun _ => yields p H)).
    eapply total_run; [by apply (live_ethernet_input N g (D ++ yields p H) p i Hw Hi)|].
    split; [|done]. by eapply live_perm; [apply yields_middle|].
  - intros (Hi & Hp & Hrd) _. eapply (Hrun _ _ _ (fun _ => yields p H)); [by apply (live_input N None g (D ++ yields p H) p i Hi)|].
    split; [|done]. by eapply live_perm; [apply yields_middle|].
  - intros (Hi & Hp & Hlt) _. eapply (Hrun _ _ _ (fun _ => H)); [by apply (live_output N g (D ++ H) i p ip Hi (Hin p Hp))|]. by apply live_watch.
  - intros (Hi & Hp & Hlt) _. eapply (Hrun _ _ _ (fun _ => H));
      [apply (live_query N (Some p) g (D ++ H) i ip (Some p)); [done|intros q [= <-]; split; [by apply Hin|done]]|]. by apply live_watch.
  - intros Hi _. by eapply (Hrun _ _ _ (fun _ => H)); [by apply (live_query N None g (D ++ H) i ip None)|].
  - intros Hi _. pose proof Hi as (n & Hn & _). unfold etharp_gratuitous. eapply (Hrun _ _ _ (fun _ => H)); [|exact Hs].
    eapply total_step; [by apply live_get_netif|]. intros r ->. by apply live_request.
  - intros _ _. by eapply (Hrun _ _ _ (fun _ => H)); [by apply (live_tmr N None g (D ++ H))|].
  - intros _ _. by eapply (Hrun _ _ _ (fun _ => H)); [by apply (live_cleanup N None g (D ++ H) i)|].
  - intros [Hk Ht] _. apply (Hrun _ (live N None g (D ++ H)) _ (fun r => option_list r ++ H)); [|done]. intros s1.
    apply (live_heap_op None g (D ++ H) (fun r => D ++ option_list r ++ H)).
    intros h R Hsn. destruct (sane_alloc _ _ _ _ layer k type Hsn Hk Ht) as (r & h' & Hr & Hs'). exists r, h'.
    split; [done|]. eapply sane_proper; [|reflexivity|exact Hs']. solve_Permutation.
  - intros [Hp Hlt] _. apply (Hrun _ (live N (Some p) g (D ++ H)) _ (fun _ => p :: H)); [|by apply live_watch]. intros s1.
    apply (live_heap_op (Some p) g (D ++ H) (fun _ => D ++ p :: H)).
    intros h R Hsn. destruct (sane_ref _ _ _ _ Hsn ltac:(apply elem_of_app; right; by apply Hin)) as (h' & Hr & Hs').
    exists tt, h'. split; [done|]. eapply sane_proper; [|reflexivity|exact Hs']. solve_Permutation.
  - intros Hp _. apply (Hrun _ (live N None g (D ++ H)) _ (fun _ => yields p H)); [|done]. intros s1.
    apply (live_heap_op None g (D ++ H) (fun _ => D ++ yields p H)).
    intros h R Hsn. apply sane_free. eapply sane_proper; [|reflexivity|exact Hsn].
    by rewrite Permutation_middle, <- (yields_middle p D H Hp).
Qed.
End Run.

Lemma call_live N g c D H s :
  alive N None g (D ++ H) s -> callable c H s -> not_kept N c ->
  exists H' s', call c H s = Some (H', s') /\ alive N None g (D ++ H') s'.
Proof.
  intros [U Hl] Hc Hn. destruct (call_live_at (with_others U N) g c D H s Hl Hc Hn) as (H' & s' & Hr & V & Hl').
  exists H', s'. split; [done|]. by exists V.
Qed.

(** Before the first call: no pbufs, an empty cache. *)
Record fresh (s : node X) : Prop := {
  fresh_heap : heap_wf (n_heap s);
  fresh_pbufs : h_pbufs (n_heap s) = ∅;
  fresh_arp : arp_of s = arp_init;
  fresh_held : held (n_ext s) = [];
  fresh_order : in_order (n_ext s);
}.

Lemma empty_table g : table_ok g (arp_table arp_init).
Proof.
  split; [done| |]; intros k e Hk; apply list_elem_of_lookup_2, elem_of_replicate in Hk as [-> _]; done.
Qed.
Lemma fresh_live s : fresh s -> live (Budget (h_pool (n_heap s)) [] []) None (n_netifs s) [] s.
Proof.
  intros [Hwf He Ha Hh Ho]. exists (arp_table arp_init). split; [apply empty_table|]. split; [done|by rewrite Ha|by rewrite Ha|done|].
  assert (forall i, h_pbufs (n_heap s) !! i = None) as Hn by (intros i; by rewrite He).
  split; [split| | |constructor]; try done.
  - split; try (intros i b Hi; rewrite Hn in Hi; done). intros i Hi. by apply not_elem_of_nil in Hi.
  - unfold pool_total, pool_used. rewrite He, map_filter_empty, map_size_empty. simpl. lia.
  - intros i b Hi. by rewrite Hn in Hi.
Qed.

(** C4: Whatever frames and ARP packets arrive, whatever is sent, queued, announced
    or taken down, in any order and from an empty cache on: no ARP operation gets
    stuck (no packet is touched after its last reference is gone, none is freed
    twice, no block is left), the cache stays in order, every reference to a pbuf
    is the cache's, the program's or that of the layers above, and no element of
    the pbuf pool is lost. *)
Theorem arp_never_fails (s0 s : node X) (H : list positive) :
  fresh s0 -> rtc call_step ([], s0) (H, s) ->
  arp_ok (arp_of s) /\ counted (n_heap s) (queue_refs (arp_table (arp_of s)) ++ held (n_ext s) ++ H) /\
  pool_total (n_heap s) = h_pool (n_heap s0) /\ n_netifs s = n_netifs s0 /\
  (forall c, callable c H s -> is_Some (call c H s)).
Proof.
  intros Hf Hsteps. set (N := Budget (h_pool (n_heap s0)) [] []).
  assert (forall c, not_kept N c) as Hnk by (intros []; try done; apply not_elem_of_nil).
  assert (arp_ok (arp_of s) /\ alive N None (n_netifs s0) H s) as [Ha Hl].
  { apply (rtc_ind_r (fun s => arp_ok (arp_of s.2) /\ alive N None (n_netifs s0) s.1 s.2)) in Hsteps; [done| |].
    - split; [simpl; rewrite (fresh_arp _ Hf); apply arp_init_ok|by apply live_alive, fresh_live].
    - intros [H1 s1] [H2 s2] _ (c & Hc & Hr) [Ha Hl]. simpl in *. split; [by eapply call_keeps_cache|].
      destruct (call_live N _ c [] H1 s1 Hl Hc (Hnk c)) as (H' & s' & Hr' & Hl'). rewrite Hr in Hr'. by simplify_eq. }
  split; [done|]. split_and!.
  3: by destruct Hl as (U & T & _ & [? _ _ _ _]).
  3: { intros c Hcall. destruct (call_live N _ c [] H s Hl Hcall (Hnk c)) as (H' & s' & Hr & _). by eexists. }
  all: destruct Hl as (U & T & _ & [_ HT _ Hh [[Hc _ Hp] _ _ _]]); try done.
  rewrite HT, (proj1 Hh). eapply counted_proper; [|exact Hc]. unfold backing. simpl. solve_Permutation.
Qed.

(** ** Ageing *)

(** [n] seconds without traffic. *)
Fixpoint tmr_ticks (n : nat) : M (node X) unit :=
  match n with
  | O => mret tt
  | S n => etharp_tmr;; tmr_ticks n
  end.

Lemma tmr_ticks_run N g H n : forall s,
  live N None g H s -> arp_ok (arp_of s) ->
  exists s', tmr_ticks n s = Some (tt, s') /\ live N None g H s' /\ arp_ok (arp_of s') /\
    arp_table (arp_of s') = Nat.iter n (fmap aged) (arp_table (arp_of s)).
Proof.
  induction n as [|n IH]; intros s Hl Ha; cbn [tmr_ticks]; [by exists s|].
  destruct (total_run _ _ _ s (live_tmr N None g H) Hl) as ([] & s1 & Hr1 & Hl1).
  destruct (triple_tmr _ Ha s tt s1 eq_refl Hr1) as [Ha1 Ht1].
  destruct (IH s1 Hl1 Ha1) as (s' & Hr & Hl' & Ha' & Ht'). exists s'. mrun Hr1. split; [done|]. split; [done|].
  split; [done|]. rewrite Ht', Ht1. change (Nat.iter (S n)) with (fun f x => Nat.iter (A := list etharp_entry) (S n) f x).
  cbv beta. by rewrite Nat.iter_succ_r.
Qed.

End Clients.

Lemma iter_fmap {A} (f : A -> A) n (l : list A) : Nat.iter n (fmap f) l = Nat.iter n f <$> l.
Proof.
  induction n as [|n IH]; simpl; [by rewrite list_fmap_id|]. rewrite IH, <- list_fmap_compose. done.
Qed.

(** An entry is empty or older than the ticks it has seen. *)
Lemma aged_cases e :
  e_state (aged e) = ETHARP_STATE_EMPTY \/
  (ctime (aged e) = ctime e + 1 /\ (e_state (aged e) = ETHARP_STATE_PENDING -> ctime (aged e) < ARP_MAXPENDING)).
Proof.
  unfold aged. case_bool_decide as Hs; [by left|]. cbv zeta. case_if; [by left|]. right.
  simpl in *. destruct (e_state e) eqn:He; simpl in *; (split; [done|]; intros ?; b2p; try (lia || congruence)).
Qed.
Lemma aged_empty e : e_state e = ETHARP_STATE_EMPTY -> aged e = e.
Proof. intros Hs. unfold aged. by rewrite bool_decide_eq_true_2. Qed.
Definition entry_ctime_bound (e : etharp_entry) : Prop := 0 <= ctime e < ARP_MAXAGE.
Lemma aged_bound e : entry_ctime_bound e -> entry_ctime_bound (aged e).
Proof.
  unfold entry_ctime_bound, aged. intros Hc. case_bool_decide; [done|]. cbv zeta. case_if; [done|].
  simpl in *. unfold ARP_MAXAGE in *. destruct (e_state e); simpl; lia.
Qed.
Lemma aged_iter n e : 0 <= ctime e ->
  e_state (Nat.iter n aged e) = ETHARP_STATE_EMPTY \/ Z.of_nat n <= ctime (Nat.iter n aged e).
Proof.
  intros Hc. induction n as [|n IH]; [by right|]. change (Nat.iter (S n) aged e) with (aged (Nat.iter n aged e)).
  assert (e_state (Nat.iter n aged e) = ETHARP_STATE_EMPTY -> e_state (aged (Nat.iter n aged e)) = ETHARP_STATE_EMPTY) as He.
  { intros Hs. unfold aged at 1. by rewrite Hs. }
  destruct IH as [IH|IH]; [left; by apply He|]. destruct (aged_cases (Nat.iter n aged e)) as [?|[Hn _]]; [by left|right; rewrite Nat2Z.inj_succ; lia].
Qed.
(** Without traffic every entry expires within [n] seconds: a pending one in
    five, any other in 300. *)
Lemma aged_expired e :
  entry_ok e ->
  e_state (Nat.iter 300 aged e) = ETHARP_STATE_EMPTY /\
  (e_state (Nat.iter 5 aged e) <> ETHARP_STATE_PENDING).
Proof.
  intros [Hc _ _ _].
  assert (forall n, entry_ctime_bound (Nat.iter n aged e)) as Hb.
  { induction n as [|n IH]; [unfold entry_ctime_bound, ARP_MAXAGE in *; simpl; lia|].
    change (Nat.iter (S n) aged e) with (aged (Nat.iter n aged e)). by apply aged_bound. }
  split.
  - destruct (aged_iter 300 e ltac:(lia)) as [?|Hn]; [done|]. specialize (Hb 300%nat). unfold entry_ctime_bound, ARP_MAXAGE in Hb. lia.
  - intros Hp. destruct (aged_iter 4 e ltac:(lia)) as [Hs|Hn].
    + change (Nat.iter 5 aged e) with (aged (Nat.iter 4 aged e)) in Hp. rewrite (aged_empty _ Hs) in Hp. congruence.
    + change (Nat.iter 5 aged e) with (aged (Nat.iter 4 aged e)) in Hp.
      destruct (aged_cases (Nat.iter 4 aged e)) as [Hs|[E HP]]; [congruence|]. specialize (HP Hp).
      rewrite E in HP. unfold ARP_MAXPENDING in HP. lia.
Qed.
Section Expiry.
Context {E : PbufEnv} {X : Type} {LL : LinkLayer X} {AP : part X arp} {UP : Upper X} {QL : QuietLink}.
Context {LK : forall N, LiveLink N} (N : budget).

Lemma queue_refs_nil T : Forall (fun e => q e = []) T -> queue_refs T = [].
Proof. unfold queue_refs. induction 1 as [|e T He _ IH]; [done|]. cbn [fmap list_fmap concat]. by rewrite He. Qed.

(** C25: The cache forgets: without traffic, after five ticks of etharp_tmr nothing is
    pending and every queued packet was given up, and after 300 ticks the cache is
    empty, all its queue elements free again. *)
Theorem arp_entries_expire (g : netifs) (H : list positive) (s : node X) :
  live N None g H s -> arp_ok (arp_of s) ->
  (exists s5, tmr_ticks 5 s = Some (tt, s5) /\ live N None g H s5 /\
    Forall (fun e => e_state e <> ETHARP_STATE_PENDING /\ q e = []) (arp_table (arp_of s5)) /\
    arp_queue_free (arp_of s5) = MEMP_NUM_ARP_QUEUE /\ counted (n_heap s5) (H ++ backing N)) /\
  (exists s300, tmr_ticks 300 s = Some (tt, s300) /\ live N None g H s300 /\
    Forall (fun e => e_state e = ETHARP_STATE_EMPTY) (arp_table (arp_of s300)) /\
    arp_queue_free (arp_of s300) = MEMP_NUM_ARP_QUEUE).
Proof.
  intros Hl Ha. assert (Forall entry_ok (arp_table (arp_of s))) as Hok.
  { apply Forall_lookup. intros k e. apply (ok_entries _ Ha). }
  assert (forall s', arp_ok (arp_of s') -> Forall (fun e => q e = []) (arp_table (arp_of s')) ->
    arp_queue_free (arp_of s') = MEMP_NUM_ARP_QUEUE) as Hfree.
  { intros s' [[_ _ _ _ Hc _] _] Hq. enough (queued (arp_table (arp_of s')) = 0) by lia.
    clear Hc. induction Hq as [|e T He _ IH]; [done|]. simpl. by rewrite He, IH. }
  assert (forall s', arp_ok (arp_of s') -> Forall (fun e => e_state e <> ETHARP_STATE_PENDING) (arp_table (arp_of s')) ->
    Forall (fun e => q e = []) (arp_table (arp_of s'))) as Hq.
  { intros s' Ha' Hp. apply Forall_lookup. intros k e Hk. pose proof (entry_queue _ (ok_entries _ Ha' k e Hk)) as He.
    rewrite Forall_lookup in Hp. by rewrite bool_decide_eq_false_2 in He by by eapply Hp. }
  split.
  - destruct (tmr_ticks_run N g H 5 s Hl Ha) as (s' & Hr & Hl' & Ha' & HT). exists s'. do 2 (split; [done|]).
    assert (Forall (fun e => e_state e <> ETHARP_STATE_PENDING) (arp_table (arp_of s'))) as Hp.
    { rewrite HT, iter_fmap. apply Forall_fmap. eapply Forall_impl; [exact Hok|]. intros e He. by apply aged_expired. }
    pose proof (Hq s' Ha' Hp) as Hqs. split; [by apply Forall_and|]. split; [by apply Hfree|].
    destruct Hl' as (T & _ & [_ HT' _ _ [[Hc _ _] _ _ _]]). rewrite HT' in Hqs. by rewrite (queue_refs_nil _ Hqs) in Hc.
  - destruct (tmr_ticks_run N g H 300 s Hl Ha) as (s' & Hr & Hl' & Ha' & HT). exists s'. do 2 (split; [done|]).
    assert (Forall (fun e => e_state e = ETHARP_STATE_EMPTY) (arp_table (arp_of s'))) as Hp.
    { rewrite HT, iter_fmap. apply Forall_fmap. eapply Forall_impl; [exact Hok|]. intros e He. by apply aged_expired. }
    split; [done|]. apply Hfree; [done|]. apply Hq; [done|]. eapply Forall_impl; [exact Hp|]. by intros e ->.
Qed.

End Expiry.

(** ** Witnesses *)

(** A link that takes every frame, below an IP that wants no packet. *)
#[local] Program Instance arp_self : part arp arp := { get_part a := a; set_part a _ := a }.
Solve Obligations with done.
#[local] Program Instance nothing_held : Upper arp := { held _ := []; in_order _ := True }.
Solve Obligations with done.
#[local] Instance silent_link : LinkLayer arp := fun _ _ => mret ERR_OK.
#[local] Instance silent_ip : IpLayer arp := fun p _ => onheap (pbuf_free (Some p));; mret ERR_OK.
#[local] Instance silent_quiet : QuietLink.
Proof. intros i p. apply quiet_ret. Qed.
#[local] Instance silent_keeps : IpKeepsArp.
Proof. intros p i. apply (triple_mret _ (fun _ => ERR_OK)), triple_quiet, quiet_heap. Qed.
#[local] Instance silent_live N : LiveLink N.
Proof.
  split. intros. by apply total_ret.
Qed.
#[local] Instance silent_ip_live : LiveIp.
Proof.
  intros N g H i p _ _ _. apply total_pre with (live N None g (p :: H)); [|by intros s [? _]]. apply live_elim. intros T HT.
  eapply total_skip; [apply acc_free|]. intros _. apply total_ret. intros s Hs. by eapply live_alive, live_intro.
Qed.

(** One interface, 10.43.0.3, and the calls that ask for 10.43.0.1 with a packet
    of 100 bytes, let five seconds pass, and give the packet up. *)
Definition lab_netif : netif :=
  Netif (IP4_ADDR 10 43 0 3) (IP4_ADDR 255 255 0 0) (IP4_ADDR 10 43 0 1) tcpip_input_fn etharp_output_fn low_level_output_fn
    0 482 [0xAA; 0xBB; 0xCC; 0xDD; 0xEE; 0xFE] 6 (Z.lor NETIF_FLAG_UP (Z.lor NETIF_FLAG_BROADCAST (Z.lor NETIF_FLAG_ETHARP NETIF_FLAG_LINK_UP)))
    (101, 110) 0.
Definition lab_netifs : netifs := Netifs {[1%positive := lab_netif]} [1%positive] (Some 1%positive) 1.
Definition lab_start : node arp := Node empty_heap lab_netifs arp_init.
Definition after (c : arp_call) (H : list positive) (s : node arp) : node arp := final (call c H s) s.

Definition lab1 : node arp := after (CallAlloc PBUF_IP 100 PBUF_RAM) [] lab_start.
Definition lab2 : node arp := after (CallOutput 1 1 (IP4_ADDR 10 43 0 1)) [1%positive] lab1.
Definition lab3 : node arp := after CallTmr [1%positive] lab2.

Lemma lab_ready g : n_netifs g = lab_netifs -> ready (n_netifs (X := arp) g) 1%positive.
Proof. intros ->. by exists lab_netif. Qed.

Lemma arp_never_fails_witness :
  rtc call_step ([], lab_start) ([1%positive], lab3) /\ q <$> take 1 (arp_table (arp_of lab3)) = [[1%positive]] /\
  (forall c, callable c [1%positive] lab3 -> is_Some (call c [1%positive] lab3)).
Proof.
  assert (rtc call_step ([], lab_start) ([1%positive], lab3)) as Hsteps.
  { eapply rtc_l with ([1%positive], lab1).
    { exists (CallAlloc PBUF_IP 100 PBUF_RAM). split; [split; [lia|left; reflexivity]|vm_compute; reflexivity]. }
    eapply rtc_l with ([1%positive], lab2).
    { exists (CallOutput 1 1 (IP4_ADDR 10 43 0 1)). split; [|vm_compute; reflexivity].
      split; [apply lab_ready; vm_compute; reflexivity|]. split; [apply list_elem_of_singleton; reflexivity|].
      intros b Hb. vm_compute in Hb. injection Hb as <-. vm_compute. reflexivity. }
    eapply rtc_l with ([1%positive], lab3); [|apply rtc_refl].
    exists CallTmr. split; [exact I|]. vm_compute. reflexivity. }
  split; [exact Hsteps|]. split; [vm_compute; reflexivity|].
  apply (arp_never_fails lab_start lab3 [1%positive]); [|exact Hsteps].
  split; [exact empty_heap_wf|reflexivity|reflexivity|reflexivity|exact I].
Defined.

(** The packet that waited is freed after five seconds. *)
Lemma lab_live : live (Budget 256 [] []) None lab_netifs [1%positive] lab2 /\ arp_ok (arp_of lab2).
Proof.
  assert (fresh lab_start) as Hf by (split; [exact empty_heap_wf|done..]).
  pose proof (live_alive _ _ _ _ _ (fresh_live _ Hf)) as H0.
  destruct (call_live (Budget 256 [] []) lab_netifs (CallAlloc PBUF_IP 100 PBUF_RAM) [] [] lab_start H0) as (H1 & s1 & Hr1 & Hl1);
    [split; [lia|by left]|done|].
  assert (H1 = [1%positive] /\ s1 = lab1) as [-> ->] by (vm_compute in Hr1; by simplify_eq).
  assert (callable (CallOutput 1 1 (IP4_ADDR 10 43 0 1)) [1%positive] lab1) as Hc.
  { split; [by apply lab_ready|]. split; [by apply list_elem_of_singleton|].
    intros b Hb. vm_compute in Hb. injection Hb as <-. by vm_compute. }
  destruct (call_live (Budget 256 [] []) lab_netifs _ [] [1%positive] lab1 Hl1 Hc I) as (H2 & s2 & Hr2 & Hl2).
  assert (H2 = [1%positive] /\ s2 = lab2) as [-> ->] by (vm_compute in Hr2; by simplify_eq).
  split; [destruct Hl2 as (U & T & Ht & Hr); exists T; split; [exact Ht|]; pose proof (proj1 (raw_held _ _ _ _ _ _ Hr)) as HU;
    simpl in HU; subst U; exact Hr|]. eapply (call_keeps_cache _ _ lab1); [|exact Hr2].
  eapply (call_keeps_cache _ _ lab_start); [apply arp_init_ok|exact Hr1].
Qed.
Lemma arp_entries_expire_witness :
  length (q (default empty_entry (head (arp_table (arp_of lab2))))) = 1%nat /\
  exists s5, tmr_ticks 5 lab2 = Some (tt, s5) /\
    Forall (fun e => e_state e <> ETHARP_STATE_PENDING /\ q e = []) (arp_table (arp_of s5)).
Proof.
  split; [vm_compute; reflexivity|]. destruct lab_live as [Hl Ha].
  destruct (arp_entries_expire (Budget 256 [] []) lab_netifs [1%positive] lab2 Hl Ha) as [(s5 & Hr & _ & Hp & _) _].
  exists s5. split; [exact Hr|exact Hp].
Defined.
