(* ===== verification/Ip4Props.v ===== *)
(** * IPv4: the properties of core/ipv4/ip4.c *)
From S2P Require Import Prelude Triple Def Pbuf PbufFacts PbufWrite PbufAlloc PbufPool PbufChain PbufRef PbufOwn PbufEdit.
From S2P Require Import Netif Node Ip4Addr InetChksum Ethernet EthernetFacts Etharp EtharpFacts EtharpInv EtharpLive Ip4 Icmp Ip4Input Ip4Facts Ip4Header Ip4Live IcmpLive Ip4InputLive.

(** The first listed netif that passes a test. *)
Lemma find_netif_first f tab l i :
  find_netif f tab l = Some i ->
  exists l1 l2 n, l = l1 ++ i :: l2 /\ tab !! i = Some n /\ f n = true /\
    Forall (fun j => exists m, tab !! j = Some m /\ f m = false) l1.
Proof.
  induction l as [|j l IH]; [done|]. cbn [find_netif]. destruct (tab !! j) as [m|] eqn:Hm; [|done].
  destruct (f m) eqn:Hf.
  - intros [= <-]. by exists [], l, m.
  - intros Hi. destruct (IH Hi) as (l1 & l2 & n & -> & Hn & Hfn & Hl1). exists (j :: l1), l2, n. split_and!; try done.
    constructor; [by exists m|done].
Qed.
Lemma find_netif_none f tab l :
  Forall (fun j => is_Some (tab !! j)) l -> find_netif f tab l = None ->
  Forall (fun j => exists m, tab !! j = Some m /\ f m = false) l.
Proof.
  induction 1 as [|j l [m Hm] Hl IH]; [done|]. cbn [find_netif]. rewrite Hm. destruct (f m) eqn:Hf; [done|].
  intros Hi. constructor; [by exists m|by apply IH].
Qed.

(** ** Routing *)

(** The interface works and has an address. *)
Definition usable (n : netif) : Prop :=
  netif_is_up n = true /\ netif_is_link_up n = true /\ ip_addr n <> IPADDR_ANY.
(** [dest] is on the network of the interface, or the other end of its link. *)
Definition on_link (dest : Z) (n : netif) : Prop :=
  Z.land dest (netmask n) = Z.land (ip_addr n) (netmask n) \/
  (has_flag n NETIF_FLAG_BROADCAST = false /\ dest = gw n).

Lemma route_match_iff dest n : route_match dest n = true <-> usable n /\ on_link dest n.
Proof.
  unfold route_match, usable, on_link, ip4_addr_isany_val, ip4_addr_netcmp.
  rewrite !andb_true_iff, orb_true_iff, andb_true_iff, !negb_true_iff, !Z.eqb_eq, Z.eqb_neq. tauto.
Qed.

Inductive routed (g : netifs) (dest : Z) : option positive -> Prop :=
  | Routed_link l1 l2 i n :
      netif_list g = l1 ++ i :: l2 -> nif g !! i = Some n -> usable n -> on_link dest n ->
      Forall (fun j => exists m, nif g !! j = Some m /\ ~ (usable m /\ on_link dest m)) l1 -> routed g dest (Some i)
  | Routed_default d n :
      Forall (fun j => exists m, nif g !! j = Some m /\ ~ (usable m /\ on_link dest m)) (netif_list g) ->
      netif_default g = Some d -> nif g !! d = Some n -> usable n -> ip4_addr_isloopback dest = false -> routed g dest (Some d)
  | Unroutable :
      Forall (fun j => exists m, nif g !! j = Some m /\ ~ (usable m /\ on_link dest m)) (netif_list g) ->
      (forall d n, netif_default g = Some d -> nif g !! d = Some n -> ~ usable n \/ ip4_addr_isloopback dest = true) ->
      routed g dest None.

(** ** Input *)

(** The interface takes packets for [dest]. *)
Definition accepts (dest : Z) (n : netif) : Prop :=
  netif_is_up n = true /\ ip_addr n <> IPADDR_ANY /\ (dest = ip_addr n \/ ip4_addr_isbroadcast_u32 dest n = true).

Lemma accept_iff dest n : ip4_input_accept dest n = true <-> accepts dest n.
Proof.
  unfold ip4_input_accept, accepts, ip4_addr_isany_val. rewrite !andb_true_iff, orb_true_iff, negb_true_iff, Z.eqb_eq, Z.eqb_neq. tauto.
Qed.

(** The interface a packet for [dest] is for that came in on [inp]: that one,
    when it takes it or the packet is for a group, else the first other one. *)
Inductive recipient (g : netifs) (inp : positive) (n : netif) (dest : Z) : positive -> Prop :=
  | For_group : ip4_addr_ismulticast dest = true -> netif_is_up n = true -> ip_addr n <> IPADDR_ANY -> recipient g inp n dest inp
  | For_input : ip4_addr_ismulticast dest = false -> accepts dest n -> recipient g inp n dest inp
  | For_other l1 l2 i m :
      ip4_addr_ismulticast dest = false -> ~ accepts dest n -> ip4_addr_isloopback dest = false ->
      netif_list g = l1 ++ i :: l2 -> i <> inp -> nif g !! i = Some m -> accepts dest m ->
      Forall (fun j => j = inp \/ exists m, nif g !! j = Some m /\ ~ accepts dest m) l1 -> recipient g inp n dest i.

Lemma find_other f (P : netif -> Prop) tab inp l i :
  (forall n, f n = true <-> P n) ->
  find_netif f tab (filter (fun j => j <> inp) l) = Some i <->
  exists l1 l2 m, l = l1 ++ i :: l2 /\ i <> inp /\ tab !! i = Some m /\ P m /\
    Forall (fun j => j = inp \/ exists m, tab !! j = Some m /\ ~ P m) l1.
Proof.
  intros Hf. split.
  - induction l as [|j l IH]; [done|]. rewrite filter_cons. destruct (decide (j <> inp)) as [Hj|Hj].
    2:{ intros Hi. destruct (IH Hi) as (l1 & l2 & m & -> & Hne & Hm & HP & Hl1). exists (j :: l1), l2, m. split_and!; try done.
        constructor; [left; by apply dec_stable|done]. }
    cbn [find_netif]. destruct (tab !! j) as [m|] eqn:Hm; [|done]. destruct (f m) eqn:Em.
    + intros [= <-]. exists [], l, m. split_and!; try done. by apply Hf.
    + intros Hi. destruct (IH Hi) as (l1 & l2 & m' & -> & Hne & Hm' & HP & Hl1). exists (j :: l1), l2, m'. split_and!; try done.
      constructor; [|done]. right. exists m. split; [done|]. intros ?%Hf. congruence.
  - intros (l1 & l2 & m & -> & Hne & Hm & HP & Hl1). induction Hl1 as [|j l1 Hj Hl1 IH]; cbn [app]; rewrite filter_cons.
    + rewrite decide_True by done. cbn [find_netif]. by rewrite Hm, (proj2 (Hf m) HP).
    + destruct (decide (j <> inp)) as [Hji|Hji]; [|exact IH]. destruct Hj as [Hj|(m' & Hm' & Hno)]; [done|].
      cbn [find_netif]. rewrite Hm'. destruct (f m') eqn:Em; [|exact IH]. by apply Hf in Em.
Qed.

Lemma accepting_iff g inp n dest i : accepting_netif g inp n dest = Some i <-> recipient g inp n dest i.
Proof.
  unfold accepting_netif. destruct (ip4_addr_ismulticast dest) eqn:Em.
  { destruct (_ && _) eqn:Eu; rewrite ?andb_true_iff, ?andb_false_iff, ?negb_true_iff, ?negb_false_iff in Eu; unfold ip4_addr_isany_val in Eu; rewrite ?Z.eqb_neq, ?Z.eqb_eq in Eu.
    - split; [intros [= <-]; apply For_group; tauto|inversion 1; congruence].
    - split; [done|]. inversion 1; [|congruence..]. by destruct Eu; congruence. }
  destruct (ip4_input_accept dest n) eqn:Ea.
  { apply accept_iff in Ea. split; [intros [= <-]; by apply For_input|]. inversion 1; congruence. }
  assert (~ accepts dest n) as Hna by (intros ?%accept_iff; congruence).
  destruct (ip4_addr_isloopback dest) eqn:El; [split; [done|by inversion 1; congruence]|].
  rewrite (find_other _ _ _ _ _ _ (accept_iff dest)). split.
  - intros (l1 & l2 & m & ? & ? & ? & ? & ?). by eapply For_other.
  - inversion 1; [congruence|done|]. by eexists _, _, _.
Qed.

(** A header as RFC 791 asks for: version 4, a header and a length that fit in the
    packet of [l] bytes, sent by one host. *)
Record valid_header (n : netif) (hd : list Z) (l : Z) : Prop := {
  valid_version : IPH_V (byte_at hd 0) = 4;
  valid_length : IP_HLEN <= IPH_HL_BYTES (byte_at hd 0) <= lwip_htons (ld16 hd 2) /\ lwip_htons (ld16 hd 2) <= l;
  valid_source : ip4_addr_isbroadcast_u32 (ld32 hd 12) n = false /\ ip4_addr_ismulticast (ld32 hd 12) = false;
}.
(** No offset, and no more fragments. *)
Definition whole_datagram (hd : list Z) : Prop := Z.land (lwip_htons (ld16 hd 6)) (Z.lor IP_OFFMASK IP_MF) = 0.

Inductive verdict (g : netifs) (inp : positive) (n : netif) (hd : list Z) (l : Z) : ip4_fate -> Prop :=
  | Verdict_delivered i :
      valid_header n hd l -> recipient g inp n (ld32 hd 16) i -> whole_datagram hd -> IPH_HL_BYTES (byte_at hd 0) = IP_HLEN ->
      verdict g inp n hd l (Delivered i)
  | Verdict_fragment i :
      valid_header n hd l -> recipient g inp n (ld32 hd 16) i -> ~ whole_datagram hd -> verdict g inp n hd l (Fragment i)
  | Verdict_invalid : ~ valid_header n hd l -> verdict g inp n hd l Dropped
  | Verdict_foreign : (forall i, ~ recipient g inp n (ld32 hd 16) i) -> verdict g inp n hd l Dropped
  | Verdict_options : whole_datagram hd -> IP_HLEN < IPH_HL_BYTES (byte_at hd 0) -> verdict g inp n hd l Dropped.

(** A mask of network order, on a field in network order. *)
Lemma land_shiftl v m k : 0 <= k -> Z.land v (Z.shiftl m k) = Z.shiftl (Z.land (Z.shiftr v k) m) k.
Proof.
  intros Hk. apply Z.bits_inj'. intros i Hi. rewrite Z.land_spec, !Z.shiftl_spec by done. destruct (Z_lt_le_dec i k).
  - rewrite !(Z.testbit_neg_r _ (i - k)) by lia. apply andb_false_r.
  - rewrite Z.land_spec, Z.shiftr_spec by lia. do 2 f_equal. lia.
Qed.
Lemma fragment_mask v : 0 <= v < 65536 ->
  Z.land v (PP_HTONS (Z.lor IP_OFFMASK IP_MF)) = 0 <-> Z.land (lwip_htons v) (Z.lor IP_OFFMASK IP_MF) = 0.
Proof.
  intros Hv. change (PP_HTONS _) with (Z.lor (Z.ones 6) (Z.shiftl (Z.ones 8) 8)). change (Z.lor IP_OFFMASK IP_MF) with (Z.ones 14).
  rewrite Z.land_lor_distr_r, Z.lor_eq_0_iff, land_shiftl, Z.shiftl_mul_pow2, Z.shiftr_div_pow2, !Z.land_ones, lwip_htons_eq by lia.
  change (2 ^ 6) with 64. change (2 ^ 8) with 256. change (2 ^ 14) with 16384. ulia.
Qed.

Lemma fate_verdict g inp n hd l : bytes_ok hd -> verdict g inp n hd l (ip4_fate_of g inp n hd l).
Proof.
  intros Hok. unfold ip4_fate_of. cbv zeta. destruct (IPH_V _ =? 4) eqn:Ev; b2p; cbn [negb]; [|apply Verdict_invalid; by intros []].
  destruct (_ || _ || _) eqn:El; b2p; [apply Verdict_invalid; intros [_ ? _]; lia|].
  destruct (_ || ip4_addr_ismulticast _) eqn:Es; [apply Verdict_invalid; intros [_ _ [E1 E2]]; by rewrite E1, E2 in Es|].
  apply orb_false_iff in Es. destruct (accepting_netif _ _ _ _) as [i|] eqn:Ea.
  2:{ apply Verdict_foreign. intros i ?%accepting_iff. congruence. }
  apply accepting_iff in Ea. pose proof (fragment_mask _ (ld16_bound hd 6 Hok)) as Hm.
  assert (valid_header n hd l) as Hv by (split; [done|lia|done]).
  destruct (Z.land _ _ =? 0) eqn:Ef; b2p; cbn [negb]; [|apply Verdict_fragment; [done..|]; intros ?; tauto].
  apply Hm in Ef. destruct (IP_HLEN <? _) eqn:Eh; b2p; [by apply Verdict_options|]. apply Verdict_delivered; try done. lia.
Qed.

Section Props.
Context {E : PbufEnv} {X : Type} {LL : LinkLayer X} {AP : part X arp} {UP : Upper X} {IP : part X ip_state} {IA : IpApart X} {FR : IpFragments X}.
Context {AD : Addresses} {TR : Transport X}.

(** Ip4_route takes the first interface that works and on whose network the
    destination is, else the default interface if it works and the destination is
    no loopback address, else none; it changes nothing. *)
Theorem ip4_route_choice (s : node X) dest :
  Forall (fun j => is_Some (nif (n_netifs s) !! j)) (netif_list (n_netifs s)) ->
  (forall d, netif_default (n_netifs s) = Some d -> is_Some (nif (n_netifs s) !! d)) ->
  exists r, ip4_route dest s = Some (r, s) /\ routed (n_netifs s) dest r.
Proof.
  intros Hall Hdef. destruct s as [h g x]. simpl in *. unfold ip4_route.
  assert ((zoom get : M (node X) netifs) (Node h g x) = Some (g, Node h g x)) as Hg by done. mrun Hg. clear Hg.
  destruct (find_netif (route_match dest) (nif g) (netif_list g)) as [i|] eqn:Hf.
  - exists (Some i). split; [done|]. destruct (find_netif_first _ _ _ _ Hf) as (l1 & l2 & n & Hl & Hn & Hm & Hl1).
    apply route_match_iff in Hm as [Hu Ho]. eapply Routed_link; [done..|]. eapply Forall_impl; [exact Hl1|].
    intros j (m & Hj & Hm). exists m. split; [done|]. intros Hno. apply route_match_iff in Hno. congruence.
  - assert (Forall (fun j => exists m, nif g !! j = Some m /\ ~ (usable m /\ on_link dest m)) (netif_list g)) as Hno.
    { eapply Forall_impl; [by eapply find_netif_none|]. intros j (m & Hj & Hm). exists m. split; [done|].
      intros Hc. apply route_match_iff in Hc. congruence. }
    destruct (netif_default g) as [d|] eqn:Hd; [|exists None; split; [done|by apply Unroutable; [|congruence]]].
    destruct (Hdef d eq_refl) as [n Hn]. mrun (get_netif_run h g x d n Hn).
    destruct (_ || _ || _ || _) eqn:Eu.
    + exists None. split; [done|]. apply Unroutable; [done|]. rewrite Hd. intros d' n' [= <-] Hn'. assert (n' = n) as -> by congruence.
      unfold usable. rewrite !orb_true_iff, !negb_true_iff in Eu. unfold ip4_addr_isany_val in Eu. rewrite Z.eqb_eq in Eu.
      destruct Eu as [[[Eu|Eu]|Eu]|Eu]; [left; intros [? _]; congruence|left; intros (_ & ? & _); congruence|left; intros (_ & _ & ?); done|by right].
    + exists (Some d). split; [done|]. b2p. eapply Routed_default; [done|done|exact Hn| |done]. repeat split; try done.
      by apply Z.eqb_neq.
Qed.

(** ** A packet received *)


(** ** The header of a packet sent *)

(** C14: ip4_output_if_src puts the header of RFC 791 in front of the packet -
    length, a fresh identification, TTL, protocol and addresses as asked - with a
    checksum that verifies, and hands the packet to the interface, in fragments
    when it is larger than the MTU; without room in front of the packet it
    reports ERR_BUF and changes nothing. *)
Theorem ip4_output_header h g x p b o bs i n ttl tos proto src dest :
  h_pbufs h !! p = Some b -> payload b = Some (Ptr p o) -> h_mem h !! p = Some bs -> nif g !! i = Some n ->
  Z.land (type_internal b) PBUF_TYPE_FLAG_STRUCT_DATA_CONTIGUOUS <> 0 -> 0 <= len b -> o + len b <= lenZ bs ->
  len b <= tot_len b -> tot_len b + 20 < 65536 ->
  let id := ip_id (ip_of (Node h g x)) in
  header_ranges tos (tot_len b + 20) id ttl proto (default IPADDR_ANY src) dest ->
  (o < SIZEOF_STRUCT_PBUF + 20 -> ip4_output_if_src p src (Some dest) ttl tos proto i (Node h g x) = Some (ERR_BUF, Node h g x)) /\
  (SIZEOF_STRUCT_PBUF + 20 <= o -> exists h' x' b' c,
    h_pbufs h' !! p = Some b' /\ pdata h' b' = ip_header tos (tot_len b + 20) id ttl proto c (default IPADDR_ANY src) dest ++ pdata h b /\
    tot_len b' = tot_len b + 20 /\ next b' = next b /\
    (forall a, inet_chksum a (ip_header tos (tot_len b + 20) id ttl proto c (default IPADDR_ANY src) dest) = 0) /\
    ip_of (Node h' g x') = set_ip_id (u16 (id + 1)) (ip_of (Node h g x)) /\
    ip4_output_if_src p src (Some dest) ttl tos proto i (Node h g x) =
      (if negb (mtu n =? 0) && (mtu n <? tot_len b + 20) then ip4_frag p i dest else netif_output i p dest) (Node h' g x')).
Proof.
  intros Hb Hpl Hbs Hn Hc Hl0 Hl Htl Ht id Hr. split; intros Ho.
  - unfold ip4_output_if_src. by mrun (heap_run _ _ g x _ _ (add_header_full h p b o IP_HLEN Hb Hpl Hc ltac:(done) ltac:(unfold IP_HLEN; lia))).
  - pose proof (range_id _ _ _ _ _ _ _ Hr) as Hid.
    pose proof (output_if_src_run h g x p b o bs i ttl tos proto src dest Hb Hpl Hbs Hc ltac:(lia) ltac:(lia) Ht Hid) as Hrun.
    cbv beta zeta in Hrun. fold id in Hrun.
    set (c := header_chksum _ _ _ _ _ _ _) in Hrun. set (hd := ip_header _ _ _ _ _ c _ _) in Hrun. assert (lenZ hd = 20) as Hhd by done.
    set (b' := move_payload b p o 20) in *. set (h' := with_block p _ (patch p b' h)) in Hrun.
    assert (h_pbufs h' !! p = Some b') as Hb' by apply lookup_insert_eq.
    eexists h', _, b', c. split; [exact Hb'|]. split_and!.
    + unfold pdata. change (payload b') with (Some (Ptr p (o - 20))). change (len b') with (u16 (len b + 20)). rewrite Hpl. cbv beta iota.
      rewrite (with_block_mem p _ _ : h_mem h' !! p = _), Hbs. cbn [default]. unfold Datatypes.id. rewrite u16_small by lia.
      assert (lenZ (overwrite bs (o - 20) hd) = lenZ bs) as Hlo by (unfold SIZEOF_STRUCT_PBUF in Ho; rewrite length_overwrite; lia).
      rewrite (Z.add_comm (len b) 20), slice_app by (unfold SIZEOF_STRUCT_PBUF in *; lia).
      change (slice (overwrite bs (o - 20) hd) (o - 20) 20) with (slice (overwrite bs (o - 20) hd) (o - 20) (lenZ hd)). unfold SIZEOF_STRUCT_PBUF in Ho.
      rewrite slice_overwrite by lia. f_equal. replace (o - 20 + 20) with o by lia. by rewrite slice_overwrite_after by lia.
    + unfold b', move_payload. simpl. rewrite u16_small; lia.
    + done.
    + intros a. by apply ip_header_verifies.
    + apply get_set_part.
    + rewrite Hrun, (transmit_run h' g _ p b' dest i n Hn Hb'). unfold b', move_payload. simpl tot_len. by rewrite u16_small by lia.
Qed.

End Props.
