(* ===== verification/IcmpProps.v ===== *)
(** * ICMP: the properties of core/ipv4/icmp.c *)
From S2P Require Import Prelude Triple Def Pbuf PbufFacts PbufWrite PbufAlloc PbufPool PbufChain PbufRef PbufOwn PbufEdit.
From S2P Require Import Netif Node Ip4Addr InetChksum Ethernet Etharp Ip4 Icmp Ip4Facts Ip4Header IcmpLive IcmpReply.

(** An echo request that is answered: whole, undamaged, sent to one host. *)
Record answerable (n : netif) (dest : Z) (d : list Z) : Prop := {
  ans_len : 8 <= lenZ d;
  ans_type : byte_at d 0 = ICMP_ECHO;
  ans_host : ip4_addr_ismulticast dest = false /\ ip4_addr_isbroadcast_u32 dest n = false;
  ans_chksum : inet_chksum 0 d = 0;
}.

Lemma from_app a b : from (a ++ b) (lenZ a) = b.
Proof. unfold from. rewrite Nat2Z.id. apply drop_app_length. Qed.
Lemma byte_at_app_l a b k : 0 <= k < lenZ a -> byte_at (a ++ b) k = byte_at a k.
Proof. intros Hk. unfold byte_at. apply app_nth1. lia. Qed.

Section Props.
Context {E : PbufEnv} {X : Type} {LL : LinkLayer X} {AP : part X arp} {IP : part X ip_state} {FR : IpFragments X}.
Context {AD : Addresses}.

(** The tests of icmp_input, on a packet in one pbuf. *)
Lemma icmp_input_run h g x p inp b pre hd d post j n :
  single h p b (pre ++ hd) d post -> mem_ok h -> lenZ hd = 20 -> IPH_HL_BYTES (byte_at hd 0) = 20 -> lenZ d < 65536 ->
  let ipd := ip_data (ip_of (Node h g x)) in
  current_ip4_header ipd = Some (Ptr p (lenZ pre)) -> current_netif ipd = Some j -> nif g !! j = Some n ->
  let give_back : M (node X) unit := onheap (pbuf_free (Some p));; mret tt in
  let answer : M (node X) unit :=
    r ← onheap (icmp_echo_pbuf p (Some (Ptr p (lenZ pre))) 20);
    match r with
    | None => mret tt
    | Some q => icmp_echo_reply q inp (current_iphdr_dest ipd) (current_iphdr_src ipd) 20;; onheap (pbuf_free (Some q));; mret tt
    end in
  (answerable n (current_iphdr_dest ipd) d -> icmp_input p inp (Node h g x) = answer (Node h g x)) /\
  (~ answerable n (current_iphdr_dest ipd) d -> icmp_input p inp (Node h g x) = give_back (Node h g x)).
Proof.
  intros Hs Hok Hhd Hhl Hd ipd Hh Hj Hn give_back answer. unfold icmp_input.
  rewrite (bind_run _ _ _ _ _ (onip_get_run h g x)). cbv beta zeta. fold (ip_of (Node h g x)). change (get_part x) with (ip_of (Node h g x)). fold ipd. rewrite Hh, Hj.
  pose proof (single_mem _ _ _ _ _ _ Hs) as Hm. pose proof (single_payload _ _ _ _ _ _ Hs) as Hpl. pose proof (single_len _ _ _ _ _ _ Hs) as Hlb.
  pose proof (single_tot _ _ _ _ _ _ Hs) as Htb. set (bs := (pre ++ hd) ++ d ++ post) in *.
  assert (lenZ bs = lenZ pre + 20 + lenZ d + lenZ post) as Hlbs by (unfold bs; rewrite !length_app; lia).
  mrun (heap_run _ _ g x _ _ (load8_run h p (lenZ pre) bs Hm ltac:(lia) 0 ltac:(lia) ltac:(lia))).
  assert (from bs (lenZ pre) = hd ++ d ++ post) as -> by (unfold bs; rewrite <- app_assoc; apply from_app).
  rewrite (byte_at_app_l hd) by lia. rewrite Hhl. unfold IP_HLEN. change (20 <? 20) with false. cbv iota.
  mrun (heap_run _ _ g x _ _ (get_pbuf_run _ _ _ (single_at _ _ _ _ _ _ Hs))). rewrite Hlb.
  destruct (lenZ d <? 4) eqn:E4; b2p; [split; [intros []; lia|done]|]. rewrite Hpl.
  assert (0 <= lenZ (pre ++ hd) /\ lenZ (pre ++ hd) + 4 <= lenZ bs) as [Ho1 Ho2] by (rewrite length_app; lia).
  mrun (heap_run _ _ g x _ _ (load8_run h p (lenZ (pre ++ hd)) bs Hm Ho1 0 ltac:(lia) ltac:(lia))).
  mrun (heap_run _ _ g x _ _ (load8_run h p (lenZ (pre ++ hd)) bs Hm Ho1 1 ltac:(lia) ltac:(lia))).
  assert (from bs (lenZ (pre ++ hd)) = d ++ post) as -> by apply from_app. rewrite (byte_at_app_l d) by lia.
  destruct (byte_at d 0 =? ICMP_ER) eqn:E0; b2p; [split; [intros [_ H8 _ _]; unfold ICMP_ER, ICMP_ECHO in *; lia|done]|].
  destruct (byte_at d 0 =? ICMP_ECHO) eqn:E8; b2p; [|split; [by intros []|done]].
  destruct (ip4_addr_ismulticast (current_iphdr_dest ipd)) eqn:Em; [split; [intros [_ _ [? _] _]; congruence|done]|].
  rewrite (bind_run (lift (Some j)) _ (Node h g x) j (Node h g x) eq_refl). cbv beta.
  mrun (get_netif_run h g x j n Hn). destruct (ip4_addr_isbroadcast_u32 _ n) eqn:Eb; [split; [intros [_ _ [_ ?] _]; congruence|done]|].
  rewrite Htb. unfold SIZEOF_ICMP_ECHO_HDR. destruct (lenZ d <? 8) eqn:E9; b2p; [split; [intros []; lia|done]|].
  mrun (heap_run _ _ g x _ _ (inet_chksum_pbuf_run addr_of h (Some p) _ (single_packet _ _ _ _ _ _ Hd Hs) Hok)).
  assert (bytes_ok d) as Hdok. { rewrite <- (single_pdata _ _ _ _ _ _ Hs). by apply pdata_ok. }
  assert (chain_data h [(p, b)] = d) as Ed by (unfold chain_data; simpl; rewrite app_nil_r; by eapply single_pdata).
  rewrite Ed. rewrite <- (inet_chksum_eq 0 d) by (done || lia).
  destruct (inet_chksum 0 d =? 0) eqn:Ec; b2p; cbn [negb]; (split; [|intros Hno]); try done; [|by intros []].
  destruct Hno. by split.
Qed.

(** C11: icmp_input, on a datagram handed up by ip4_input in one pbuf.  An echo
    request that is whole, undamaged and was sent to one host is answered: the
    pbuf sent back, to the sender, holds the header with the addresses exchanged
    and the TTL 255, then the message with its type 0, both with checksums that
    verify, and the data as they came.  Anything else is freed, and nothing else
    happens. *)
Theorem echo_answered h g x p inp b pre hd d post j n m :
  single h p b (pre ++ hd) d post -> mem_ok h -> heap_wf h -> lenZ hd = 20 -> IPH_HL_BYTES (byte_at hd 0) = 20 -> lenZ d <= 65000 ->
  let ipd := ip_data (ip_of (Node h g x)) in
  let src := current_iphdr_src ipd in
  let dest := current_iphdr_dest ipd in
  current_ip4_header ipd = Some (Ptr p (lenZ pre)) -> current_netif ipd = Some j -> nif g !! j = Some n -> nif g !! inp = Some m ->
  0 <= src < 4294967296 -> 0 <= dest < 4294967296 ->
  (answerable n dest d -> heap_admits (h_mem h) (ram_size PBUF_LINK (lenZ d + 20)) = true ->
    exists q h' b' pre' post' c, single h' q b' pre' (echo_reply_header hd dest src c ++ echo_reply_data d) post' /\
      (forall a, inet_chksum a (echo_reply_header hd dest src c) = 0 /\ inet_chksum a (echo_reply_data d) = 0) /\
      icmp_input p inp (Node h g x) = (ip4_transmit q src inp;; onheap (pbuf_free (Some q));; mret tt) (Node h' g x)) /\
  (~ answerable n dest d -> icmp_input p inp (Node h g x) = (onheap (pbuf_free (Some p));; mret tt) (Node h g x)).
Proof.
  intros Hs Hok Hwf Hhd Hhl Hd ipd src dest Hh Hj Hn Hm Hsrc Hdest.
  destruct (icmp_input_run h g x p inp b pre hd d post j n Hs Hok Hhd Hhl ltac:(lia) Hh Hj Hn) as [Hans Hgive]. fold ipd src dest in Hans, Hgive.
  split; [|exact Hgive]. intros Ha Hadm. rewrite (Hans Ha). pose proof Ha as [H8 Ht _ Hc].
  destruct (echo_pbuf_run h p b pre hd d post Hs Hhd ltac:(lia) Hwf Hadm) as (q & h1 & bq & pre' & post' & Hr1 & Hq & Hroom).
  mrun (heap_run _ _ g x _ _ Hr1). destruct (echo_reply_run h1 g x q bq pre' hd d post' dest src inp m Hq Hhd Hroom ltac:(lia) Hm Hsrc) as (h' & b' & Hs' & Hr2).
  eexists q, h', b', pre', post', _. split; [exact Hs'|].
  assert (bytes_ok d) as Hdok. { rewrite <- (single_pdata _ _ _ _ _ _ Hs). by apply pdata_ok. }
  assert (bytes_ok hd) as Hhok.
  { pose proof (Hok p _ (single_mem _ _ _ _ _ _ Hs)) as Hb. simpl in Hb. rewrite !bytes_ok_app in Hb. tauto. }
  split; [intros a; split|].
  - by apply echo_reply_header_verifies.
  - by apply (echo_reply_verifies 0 a d Hdok ltac:(lia) Ht Hc).
  - unfold mbind at 1, M_bind at 1. rewrite Hr2. rewrite <- bind_assoc. unfold mbind, M_bind. by destruct (ip4_transmit _ _ _ _) as [[? ?]|].
Qed.

End Props.
