(* ===== verification/UdpProps.v ===== *)
(** * UDP: the properties of core/udp.c *)
From S2P Require Import Prelude Triple Def Pbuf PbufFacts PbufWrite PbufAlloc PbufPool PbufChain PbufRef PbufOwn PbufEdit.
From S2P Require Import Netif Node Ip4Addr InetChksum Ethernet EthernetFacts Etharp Ip4 Icmp Ip4Facts Ip4Header Udp UdpFacts UdpDemux UdpHeader UdpSend.

(** ** Pcbs *)

(** C32: udp_bind to a port of the caller's choice takes it exactly when no other
    bound pcb has the port with the same address, or either address is any; with
    port 0 it always finds a port of the local range that no pcb has; the loop over
    the ports ends, and a refusal changes nothing. *)
Theorem udp_bind_exact s i c ip port :
  udp_ok s -> udp_tab s !! i = Some c ->
  let ip' := default IPADDR_ANY ip in
  (port = 0 -> exists p, local_range p /\ ~ port_used s p /\
     udp_bind (Some i) ip port s = Some (ERR_OK, with_bound i c ip' p (set_udp_port p s))) /\
  (port <> 0 -> clash s i ip' port -> udp_bind (Some i) ip port s = Some (ERR_USE, s)) /\
  (port <> 0 -> ~ clash s i ip' port -> udp_bind (Some i) ip port s = Some (ERR_OK, with_bound i c ip' port s)).
Proof.
  intros Hs Hc ip'. split; [intros ->; by apply bind_any_run|].
  split; intros Hp Hcl; destruct (bind_port_run s i c ip port Hs Hc Hp) as [[? ?]|[? ?]]; done.
Qed.


(** When the address of an interface changes, exactly the bound pcbs with the
    old address get the new one; nothing happens when either is the any address. *)
Theorem udp_follows_address s old new :
  udp_ok s -> exists s', udp_netif_ip_addr_changed old new s = Some (tt, s') /\ udp_ok s' /\ udp_pcbs s' = udp_pcbs s /\
    forall i c, udp_tab s !! i = Some c ->
      udp_tab s' !! i = Some (match new with
        | Some a => if decide (local_port c <> 0 /\ local_ip c = old /\ old <> IPADDR_ANY /\ a <> IPADDR_ANY) then set_local_ip a c else c
        | None => c
        end).
Proof.
  intros Hs. unfold udp_netif_ip_addr_changed. destruct new as [a|]; [|by exists s].
  unfold ip4_addr_isany_val. destruct (negb (old =? IPADDR_ANY) && negb (a =? IPADDR_ANY)) eqn:Ea; b2p.
  - rewrite bind_get. destruct (move_all_run (move_bound old a) ltac:(intros c; unfold move_bound; by destruct (_ =? _)) (udp_pcbs s) s Hs (udp_nodup _ Hs) (udp_listed _ Hs))
      as (s' & Hr & Hs' & Hp & Ht). exists s'. split; [done|]. split; [done|]. split; [done|]. intros i c Hc. rewrite Ht, Hc. unfold move_bound.
    pose proof (udp_bound _ Hs i c Hc) as Hb. destruct (decide (i ∈ udp_pcbs s)) as [Hi|Hi]; simpl; f_equal.
    + destruct (Z.eqb_spec (local_ip c) old) as [E|E]; [rewrite decide_True by tauto|rewrite decide_False by tauto]; done.
    + rewrite decide_False by tauto. done.
  - exists s. split; [done|]. split; [done|]. split; [done|]. intros i c Hc. rewrite decide_False; [done|].
    intros (_ & _ & ? & ?). apply andb_false_iff in Ea as [Ea|Ea]; apply negb_false_iff, Z.eqb_eq in Ea; done.
Qed.

(** Then two pcbs can have one address and port, which udp_bind would refuse. *)
Definition moved_clash : option (err_t * udp_state) :=
  (udp_new;; udp_bind (Some 1%positive) (Some (IP4_ADDR 10 0 0 1)) 7;; udp_new;; udp_bind (Some 2%positive) (Some (IP4_ADDR 10 0 0 2)) 7;;
   udp_netif_ip_addr_changed (IP4_ADDR 10 0 0 1) (Some (IP4_ADDR 10 0 0 2));;
   udp_bind (Some 1%positive) (Some (IP4_ADDR 10 0 0 2)) 7) udp_state_init.
Example address_change_clashes :
  exists s c1 c2, moved_clash = Some (ERR_USE, s) /\ udp_tab s !! 1%positive = Some c1 /\ udp_tab s !! 2%positive = Some c2 /\ local_ip c1 = local_ip c2 /\ local_port c1 = local_port c2 /\ udp_pcbs s = [2%positive; 1%positive].
Proof. eexists _, _, _. split; [vm_compute; reflexivity|]. split; [vm_compute; reflexivity|]. split; [vm_compute; reflexivity|]. repeat split. Qed.

Section Props.
Context {E : PbufEnv} {X : Type} {LL : LinkLayer X} {AP : part X arp} {IP : part X ip_state} {FR : IpFragments X}.
Context {AD : Addresses} {UD : part X udp_state} {UU : UdpUser X}.

(** ** A datagram received *)

(** C15: udp_input gives a datagram for one host to the receive function of the one
    pcb that is bound to its port and address - or to any address -, to its
    interface or none, and not connected to somebody else, whatever the order of
    the list; it gets the data behind the header and the sender's address and port.
    Without such a pcb a datagram for the interface's address is answered as
    unreachable, and any other is freed. *)
Theorem udp_input_demultiplexes h g x p inp b o bs cur ncur k nk n :
  h_pbufs h !! p = Some b -> payload b = Some (Ptr p o) -> h_mem h !! p = Some bs -> 0 <= o -> o + len b <= lenZ bs ->
  UDP_HLEN <= len b < 65536 -> len b <= tot_len b < 65536 -> udp_ok (get_part x) -> exclusive (get_part x) ->
  let ips := get_part x : ip_state in
  current_netif (ip_data ips) = Some cur -> nif g !! cur = Some ncur ->
  current_input_netif (ip_data ips) = Some k -> nif g !! k = Some nk -> nif g !! inp = Some n ->
  let d := datagram_of ips (from bs o) ncur in
  d_bcast d = false ->
  exists t u h1 b1, (forall i, t = Some i <-> takes (get_part x) (netif_get_index nk) n d i) /\
    (exists l, l ≡ₚ udp_pcbs (get_part x) /\ u = set_udp_pcbs l (get_part x)) /\
    h_pbufs h1 !! p = Some b1 /\ pdata h1 b1 = drop 8 (pdata h b) /\ tot_len b1 = tot_len b - UDP_HLEN /\
    udp_input p inp (Node h g x) =
      match t with
      | Some i => to_user u i p d (Node h1 g (set_part u x))
      | None =>
          if ip_addr n =? d_dest d then no_user (current_ip_header_tot_len (ip_data ips)) p d (Node h1 g (set_part u x))
          else drop_datagram p (Node h g (set_part u x))
      end.
Proof.
  intros Hb Hpl Hbs Ho Hob Hlb Htl Hu He ips Hcur Hncur Hk Hnk Hn d Hun. unfold UDP_HLEN in *.
  destruct (udp_input_run h g x p inp b o bs cur ncur k nk n Hb Hpl Hbs Ho ltac:(lia) Hlb ltac:(unfold UDP_HLEN; lia) Hu Hcur Hncur Hk Hnk Hn) as (r & u & Hr & Hp & Hrun).
  destruct (pick_takes (get_part x) (netif_get_index nk) n d Hu) as (r' & Hr' & Hsome & Hnone & _).
  fold ips d in Hr, Hrun. rewrite Hr in Hr'. injection Hr' as <-.
  exists (pick r), u, (patch p (move_payload b p o (- 8)) h), (move_payload b p o (- 8)). split_and!; [|done|apply lookup_insert_eq| | |exact Hrun].
  - intros i. split; [apply Hsome|]. intros Hi. destruct (pick r) as [j|] eqn:Ej; [|by destruct (Hnone eq_refl i)].
    f_equal. by apply (unicast_unique (get_part x) (netif_get_index nk) n d j i He Hun (Hsome j eq_refl)).
  - unfold pdata, move_payload. simpl. rewrite Hpl, Hbs. simpl. rewrite u16_small by lia. unfold slice. rewrite skipn_firstn_comm, drop_drop.
    f_equal; [lia|]. f_equal. lia.
  - simpl. rewrite u16_small by lia. lia.
Qed.

(** ** A datagram sent *)

(** C31: udp_sendto_if_src on a bound pcb puts the header of RFC 768 in front of the
    data - the ports, the length, and a checksum that is not 0 and verifies over
    the pseudo header - in front of the packet if there is room, else in a pbuf of
    its own that is freed afterwards, and hands it to IP with the pcb's TTL and
    type of service. *)
Theorem udp_datagram_sent h g x pcb c p b r q dport i src dst :
  udp_tab (get_part x) !! pcb = Some c -> 0 < local_port c < 65536 -> Z.land (udp_flags c) UDP_FLAGS_NOCHKSUM = 0 ->
  packet h (Some p) ((p, b) :: r) -> all_pos ((p, b) :: r) -> NoDup (blks ((p, b) :: r)) -> mem_ok h ->
  sum_len ((p, b) :: r) + UDP_HLEN < 65536 -> header_space h p b q ->
  0 <= src < 4294967296 -> 0 <= dst < 4294967296 -> 0 <= dport < 65536 ->
  let data := chain_data h ((p, b) :: r) in
  let n := lenZ data + UDP_HLEN in
  exists h' l k, packet h' (Some q) l /\ chain_data h' l = udp_header (local_port c) dport n k ++ data /\ 0 < k < 65536 /\
    ocsum (osum (pseudo_header src dst IP_PROTO_UDP n ++ chain_data h' l)) = 65535 /\
    udp_sendto_if_src pcb p dst dport i src (Node h g x) =
      (err ← ip4_output_if_src q (Some src) (Some dst) (ttl c) (tos c) IP_PROTO_UDP i;
       (if bool_decide (q <> p) then onheap (pbuf_free (Some q));; mret tt else mret tt);;
       mret err) (Node h' g x).
Proof.
  intros Hc Hlp Hfl Hp Hpos Hnd Hm Hs Hq Hsrc Hdst Hdp data n.
  destruct (header_packet h p b r q Hp Hpos Hnd Hm Hs Hq) as (h1 & bq & rq & j & Hrun & Hp1 & Hnd1 & Hm1 & Hl1 & Hd1 & Hj & Ht1).
  pose proof (length_chain_data _ _ _ Hp) as Hlen. fold data in Hlen, Hd1. rewrite sum_len_cons in Hs, Hlen.
  pose proof (packet_cons_inv _ _ _ _ _ Hp) as (_ & Hb & _ & _ & Htb & _ & _ & Hsm). unfold UDP_HLEN in *.
  assert (tot_len bq = n) as En by (unfold n; lia).
  set (k := fun err : err_t => (if bool_decide (q <> p) then onheap (pbuf_free (Some q));; mret tt else mret tt);; mret err : M (node X) err_t).
  destruct (fill_run h1 g x q bq rq j data (local_port c) dport src dst (udp_flags c)
    (ip4_output_if_src q (Some src) (Some dst) (ttl c) (tos c) IP_PROTO_UDP i ≫= k) Hp1 Hnd1 Hm1 Hl1 Hd1 Hj Hfl Hsrc Hdst ltac:(lia) Hdp) as (h' & Hp' & Hd' & Hfill).
  rewrite En in Hd'. destruct (udp_chksum_verifies src dst (local_port c) dport n data Hsrc Hdst ltac:(lia) Hdp ltac:(unfold n; lia) (chain_data_ok h _ Hm)) as [Hk Hv].
  exists h', ((q, bq) :: rq), (udp_chksum src dst (local_port c) dport n data). split; [done|]. split; [done|]. split; [done|]. split; [by rewrite Hd'|].
  unfold udp_sendto_if_src. mrun (onudp_pcb_run pcb c (Node h g x) Hc). rewrite (proj2 (Z.eqb_neq _ 0)) by lia. rewrite bind_ret. rewrite bool_decide_eq_true_2 by done. cbn [negb].
  mrun (heap_run _ _ g x _ _ (get_pbuf_run _ _ _ Hb)). unfold UDP_HLEN. rewrite u16_small by lia. rewrite (proj2 (Z.ltb_ge _ _)) by lia.
  mrun (heap_run _ _ g x _ _ Hrun). pose proof (packet_cons_inv _ _ _ _ _ Hp1) as (_ & Hbq & _). mrun (heap_run _ _ g x _ _ (get_pbuf_run _ _ _ Hbq)). cbv zeta. mrun (onudp_pcb_run pcb c (Node h1 g x) Hc).
  exact Hfill.
Qed.

End Props.
