(* ===== verification/EtharpCache.v ===== *)
(** * The ARP cache: lookups, what it learns and what it answers *)
From S2P Require Import Prelude Triple Def Pbuf PbufFacts PbufWrite PbufAlloc PbufPool PbufChain PbufRef PbufOwn.
From S2P Require Import Netif Node Ip4Addr Ethernet EthernetFacts Etharp EtharpFacts EtharpInv EtharpSend EtharpLive EtharpProps Examples.

(** ** The lookup, as a relation on tables *)

Definition empty_for (ip : Z) (nif : positive) (e : etharp_entry) : Prop :=
  e_state e = ETHARP_STATE_EMPTY /\ ipaddr e = ip /\ e_netif e = Some nif /\ ctime e = 0 /\ q e = [].

Inductive looked_up (ip flags : Z) (nif : positive) (T : list etharp_entry) : option Z -> list etharp_entry -> Prop :=
  | Lookup_found i e :
      0 <= i -> T !! Z.to_nat i = Some e -> resolves (Some ip) (Some nif) e -> looked_up ip flags nif T (Some i) T
  | Lookup_taken i e e' :
      0 <= i -> Forall (fun e => ~ resolves (Some ip) (Some nif) e) T -> ~ find_only flags ->
      T !! Z.to_nat i = Some e -> cheapest T e -> (nonempty e -> try_hard flags) ->
      empty_for ip nif e' -> looked_up ip flags nif T (Some i) (<[Z.to_nat i := e']> T)
  | Lookup_refused :
      Forall (fun e => ~ resolves (Some ip) (Some nif) e) T ->
      find_only flags \/ (~ try_hard flags /\ Forall (fun e => nonempty e) T) -> looked_up ip flags nif T None T.


(** The fields of an ARP packet, as etharp_input reads them. *)
Lemma arp_packet_fields op sha spa tha tpa :
  length sha = 6%nat -> length tha = 6%nat -> 0 <= spa < 2 ^ 32 -> 0 <= tpa < 2 ^ 32 ->
  let d := arp_packet op sha spa tha tpa in
  ld16 d 0 = PP_HTONS LWIP_IANA_HWTYPE_ETHERNET /\ byte_at d 4 = ETH_HWADDR_LEN /\ byte_at d 5 = 4 /\
  ld16 d 2 = PP_HTONS ETHTYPE_IP /\ ld16 d 6 = op / 256 + 256 * (op mod 256) /\
  slice d 8 6 = sha /\ ld32 d 14 = spa /\ ld32 d 24 = tpa.
Proof.
  intros Hs Ht Hsp Htp.
  do 6 (destruct sha as [|? sha]; [done|]). destruct sha; [|done].
  do 6 (destruct tha as [|? tha]; [done|]). destruct tha; [|done].
  cbv zeta. do 4 (split; [reflexivity|]). split; [|split; [reflexivity|]].
  - unfold ld16, byte_at. simpl. lia.
  - split; [by rewrite <- (word_bytes spa) at 2|by rewrite <- (word_bytes tpa) at 2].
Qed.

Section Cache.
Context {E : PbufEnv} {X : Type} {LL : LinkLayer X} {AP : part X arp} {UP : Upper X} {QL : QuietLink}.

Lemma triple_lookup a0 ip flags nif :
  arp_ok a0 ->
  triple (eq a0) (etharp_find_entry (Some ip) flags (Some nif))
    (fun r a => looked_up ip flags nif (arp_table a0) r (arp_table a)).
Proof.
  intros Ho. unfold etharp_find_entry. apply triple_get.
  pose proof (search_table a0 (Some ip) (Some nif) Ho) as Hs. pose proof (ok_length _ Ho) as Hl.
  destruct (search _ _ _ _ _) as [i|c].
  - destruct Hs as (Hi & e & He & Hr). apply triple_ret_eq. eapply Lookup_found; [lia|done|done].
  - destruct Hs as [Hn Hno]. pose proof (choose_spec flags (arp_table a0) c ltac:(unfold ARP_TABLE_SIZE; lia) Hn) as Hc.
    destruct (choose flags c) as [[i recycle]|].
    2:{ apply triple_ret_eq. constructor; [done|]. destruct Hc as [?|[? Hc]]; [by left|right; split; [done|]].
        apply Forall_lookup. exact Hc. }
    destruct Hc as (Hf & Hi & e & He & Hch & Hrec & Hth). set (n := Z.to_nat i) in *.
    assert (n < length (arp_table a0))%nat as Hlt by (apply lookup_lt_is_Some_1; by exists e).
    eapply triple_bind with (R := fun _ a => exists e1 free, a = put_entry n e1 free a0 /\ e_state e1 = ETHARP_STATE_EMPTY /\ q e1 = []).
    + destruct recycle.
      * eapply triple_conseq; [apply triple_free_entry|intros a <-; reflexivity|].
        intros [] a (e1 & _ & He1 & ->). fold n. by eexists empty_entry, _.
      * apply triple_ret_eq. exists e, (arp_queue_free a0). split.
        { unfold put_entry. rewrite list_insert_id by done. by destruct a0. }
        symmetry in Hrec. apply negb_false_iff, bool_decide_eq_true in Hrec. split; [done|].
        pose proof (entry_queue _ (ok_entries _ Ho n e He)) as Hq. by rewrite bool_decide_eq_false_2 in Hq by by rewrite Hrec.
    + intros []. apply triple_pure. intros a1 (e1 & free & -> & Hst & Hq). simpl.
      do 3 (apply triple_upd_entry_bind; fold n; intros ? _ Hx; rewrite put_lookup in Hx by done; injection Hx as <-; rewrite put_put).
      apply triple_ret_eq. simpl. apply (Lookup_taken _ _ _ _ i e); [lia|done|done|done|done| |by split].
      intros Hne. apply Hth. rewrite Hrec. by rewrite bool_decide_eq_false_2.
Qed.

Context {LK : forall N, LiveLink N}.

(** C17: etharp_find_entry is a lookup in the cache that never fails without
    need: an address the cache has for the interface is found where it is and
    nothing changes; else, unless only finding was asked for, the entry is used
    whose loss costs least - an empty one; with TRY_HARD the oldest stable one,
    the oldest pending one without packets, the oldest pending one, in this
    order - and only that entry changes; ERR_MEM means there was no empty one
    and recycling was not allowed. *)
Theorem find_entry_least_loss (N : budget) (g : netifs) (H : list positive) (s : node X) (ip flags : Z) (nif : positive) :
  live N None g H s -> arp_ok (arp_of s) -> ready g nif ->
  exists r s', etharp_find_entry (Some ip) flags (Some nif) s = Some (r, s') /\
    live N None g H s' /\ arp_ok (arp_of s') /\ looked_up ip flags nif (arp_table (arp_of s)) r (arp_table (arp_of s')).
Proof.
  intros Hl Ha Hr. destruct (total_run _ _ _ s (live_find_entry N None g H ip flags nif Hr) Hl) as (r & s' & Hrun & _ & Hl').
  exists r, s'. split; [done|]. split; [done|]. pose proof (triple_find_entry ip flags nif _ _ _ Ha Hrun) as Hok. split.
  - destruct r; [apply Hok|done].
  - by apply (triple_lookup _ ip flags nif Ha s r s' eq_refl).
Qed.

(** ** Learning *)

Lemma get_arp_run (s : node X) : onarp get s = Some (arp_of s, s).
Proof. unfold onarp, ext, zoom, arp_of. simpl. rewrite set_get_part. by destruct s. Qed.
Lemma get_entry_run i e (s : node X) :
  0 <= i -> arp_table (arp_of s) !! Z.to_nat i = Some e -> get_entry i s = Some (e, s).
Proof. intros Hi He. unfold get_entry. mrun (get_arp_run s). by rewrite (proj2 (Z.leb_le _ _)), He. Qed.

(** etharp_find_addr finds a stable entry for the address and the interface. *)
Lemma find_addr_run i e ip nif (s : node X) :
  arp_ok (arp_of s) -> 0 <= i -> arp_table (arp_of s) !! Z.to_nat i = Some e ->
  stable (e_state e) = true -> ipaddr e = ip -> e_netif e = Some nif ->
  etharp_find_addr (Some nif) ip s = Some (Some (i, ethaddr e, ip), s).
Proof.
  intros Ho Hi He Hst Hip Hnif. assert (nonempty e) as Hne by (intros Hs; rewrite Hs in Hst; done).
  unfold etharp_find_addr, etharp_find_entry. rewrite bind_assoc. mrun (get_arp_run s).
  pose proof (search_table (arp_of s) (Some ip) (Some nif) Ho) as Hs.
  destruct (search _ _ _ _ _) as [j|c].
  - destruct Hs as (Hj & e' & He' & Hr%resolves_key). destruct Hr as (Hne' & Hip' & Hnif').
    assert (Z.to_nat j = Z.to_nat i) as Eij.
    { eapply (but_unique _ _ (ok_but _ Ho)); [exact He'|exact He|done|done|]. split; congruence. }
    assert (j = i) as -> by lia. rewrite bind_ret. mrun (get_entry_run i e s Hi He). by rewrite Hst, Hip.
  - destruct Hs as [_ Hs]. rewrite Forall_lookup in Hs. exfalso. apply (Hs _ _ He). by apply resolves_key.
Qed.

Definition unusable (ip : Z) (n : netif) : bool :=
  ip4_addr_isany_val ip || ip4_addr_isbroadcast_u32 ip n || ip4_addr_ismulticast ip.

(** C24: etharp_update_arp_entry: an address that cannot be a host's is refused and
    changes nothing.  Any other is entered where the lookup of find_entry_least_loss
    puts it, without its queue (which was sent), and etharp_find_addr gives the
    Ethernet address back; ERR_MEM is only for a lookup that was refused. *)
Theorem arp_learns (N : budget) (g : netifs) (H : list positive) (s : node X) (nif : positive) (n : netif)
    (ip flags : Z) (eth : list Z) :
  live N None g H s -> arp_ok (arp_of s) -> Netif.nif g !! nif = Some n -> length (hwaddr n) = 6%nat -> length eth = 6%nat ->
  exists r s', etharp_update_arp_entry nif ip eth flags s = Some (r, s') /\ live N None g H s' /\ arp_ok (arp_of s') /\
    let T := arp_table (arp_of s) in let T' := arp_table (arp_of s') in
    if unusable ip n then r = ERR_ARG /\ s' = s
    else (r = ERR_MEM /\ looked_up ip flags nif T None T') \/
         (r = ERR_OK /\ exists i T1 e, looked_up ip flags nif T (Some i) T1 /\ T' = <[Z.to_nat i := e]> T1 /\
            learned ip nif eth e /\ etharp_find_addr (Some nif) ip s' = Some (Some (i, eth, ip), s')).
Proof.
  intros Hl Ha Hn Hlen Heth. assert (ready g nif) as Hr by by exists n.
  destruct (total_run _ _ _ s (live_update N None g H nif ip eth flags Hr Heth) Hl) as (r & s' & Hrun & Hl').
  exists r, s'. split; [done|]. split; [done|].
  pose proof (triple_update_arp_entry nif ip eth flags Heth s r s' Ha Hrun) as Ha'. split; [done|]. cbv zeta.
  pose proof (live_netifs N _ _ _ _ Hl) as Hg.
  assert (get_netif nif s = Some (n, s)) as Hget by (destruct s as [h g0 x]; simpl in Hg; subst g0; by apply get_netif_run).
  unfold etharp_update_arp_entry in Hrun. rewrite (bind_run _ _ _ _ _ Hget) in Hrun. fold (unusable ip n) in Hrun.
  destruct (unusable ip n); [by injection Hrun as <- <-|].
  apply bind_Some in Hrun as (x & s1 & Hf & Hrun).
  pose proof (triple_find_entry ip flags nif s x s1 Ha Hf) as Hfound.
  pose proof (triple_lookup _ ip flags nif Ha s x s1 eq_refl Hf) as Hlk.
  destruct x as [i|]; [right|left; by injection Hrun as <- <-].
  destruct Hfound as [Hi Hfound].
  destruct (triple_update_found (arp_of s1) i nif ip eth Heth ltac:(lia) Hfound s1 r s' eq_refl Hrun) as (-> & _ & e & HT & Hle).
  split; [done|]. exists i, (arp_table (arp_of s1)), e. do 3 (split; [done|]).
  pose proof Hle as (Hst & Hip & Hnif & He & _). rewrite <- He. apply find_addr_run; try done; [lia| |by rewrite Hst].
  rewrite HT. apply list_lookup_insert_eq. destruct Hfound as [_ (e1 & He1 & _) _]. by eapply lookup_lt_Some.
Qed.

(** ** Sending *)

(** Where a packet for [ip] goes: to an Ethernet address that follows from it,
    or to a host of the link whose address the cache has to know. *)
Inductive hop := Frame_to (mac : list Z) | Via (dst : Z) | No_route.
Definition next_hop (n : netif) (ip : Z) : hop :=
  if ip4_addr_isbroadcast_u32 ip n then Frame_to ethbroadcast
  else if ip4_addr_ismulticast ip then
    Frame_to [1; 0; 0x5e; (ip / 2 ^ 8) mod 2 ^ 7; (ip / 2 ^ 16) mod 2 ^ 8; (ip / 2 ^ 24) mod 2 ^ 8]
  else if ip4_addr_netcmp ip (ip_addr n) (netmask n) || ip4_addr_islinklocal ip then Via ip
  else if gw n =? 0 then No_route else Via (gw n).

Definition with_cached (i : Z) (s : node X) : node X :=
  Node (n_heap s) (n_netifs s) (set_part (set_cached i (arp_of s)) (n_ext s)).

Lemma find_stable_some nif dst T e k :
  T !! k = Some e -> stable (e_state e) = true -> e_netif e = Some nif -> ipaddr e = dst ->
  forall i, exists j, find_stable T i nif dst = Some j.
Proof.
  intros Hk Hs Hn Hd. revert k Hk. induction T as [|x T IH]; intros [|k] Hk i; simplify_eq/=.
  - rewrite Hs, bool_decide_eq_true_2, Z.eqb_refl by done. by eexists.
  - destruct (_ && _); [by eexists|]. by eapply IH.
Qed.

(** The mapping of RFC 1112: the low 23 bits of the address. *)
Lemma multicast_mac ip :
  0 <= ip < 2 ^ 32 ->
  [LL_IP4_MULTICAST_ADDR_0; LL_IP4_MULTICAST_ADDR_1; LL_IP4_MULTICAST_ADDR_2;
   Z.land (byte_at (st32 ip) 1) 0x7f; byte_at (st32 ip) 2; byte_at (st32 ip) 3] =
  [1; 0; 0x5e; (ip / 2 ^ 8) mod 2 ^ 7; (ip / 2 ^ 16) mod 2 ^ 8; (ip / 2 ^ 24) mod 2 ^ 8].
Proof.
  intros Hip. change (2 ^ 32) with 4294967296 in Hip. change (2 ^ 7) with 128. change (2 ^ 8) with 256.
  change (2 ^ 16) with 65536. change (2 ^ 24) with 16777216. unfold st32, st16, byte_at. simpl nth. rewrite (Z.land_ones _ 7) by done.
  change (2 ^ 7) with 128.
  assert ((ip mod 65536 / 256) mod 256 mod 128 = (ip / 256) mod 128) as -> by ulia.
  assert ((ip / 65536 / 256) mod 256 = (ip / 16777216) mod 256) as -> by (rewrite Z.div_div by lia; done).
  done.
Qed.

Lemma via_cache s nif p dst c :
  arp_ok (arp_of s) -> arp_table (arp_of s) !! Z.to_nat (etharp_cached_entry (arp_of s)) = Some c ->
  (if stable (e_state c) && bool_decide (e_netif c = Some nif) && (dst =? ipaddr c)
   then etharp_output_to_arp_index nif p (etharp_cached_entry (arp_of s))
   else match find_stable (arp_table (arp_of s)) 0 nif dst with
        | Some i => onarp (modify (set_cached i));; etharp_output_to_arp_index nif p i
        | None => etharp_query nif dst (Some p)
        end) s =
  match find_stable (arp_table (arp_of s)) 0 nif dst with
  | Some i => etharp_output_to_arp_index nif p i (with_cached i s)
  | None => etharp_query nif dst (Some p) s
  end.
Proof.
  intros Ho Hc. pose proof (but_cached _ _ (ok_but _ Ho)) as Hr.
  destruct (_ && _ && _) eqn:Hm.
  - apply andb_true_iff in Hm as [[Hst Hn%bool_decide_eq_true]%andb_true_iff Hd%Z.eqb_eq].
    destruct (find_stable_some nif dst _ c _ Hc Hst Hn (eq_sym Hd) 0) as (j & Hj). rewrite Hj.
    apply find_stable_range in Hj as (k & e & -> & Hk & Hse & Hne & Hde).
    assert (k = Z.to_nat (etharp_cached_entry (arp_of s))) as Ek.
    { eapply (but_unique _ _ (ok_but _ Ho)); [exact Hk|exact Hc| | |split; congruence];
        intros Hs; rewrite Hs in *; done. }
    replace (0 + Z.of_nat k) with (etharp_cached_entry (arp_of s)) by lia.
    f_equal. unfold with_cached. replace (set_cached _ _) with (arp_of s) by by destruct (arp_of s).
    unfold arp_of. rewrite set_get_part. by destruct s.
  - destruct (find_stable _ _ _ _); [|done]. unfold onarp, ext, zoom, mbind, M_bind. simpl. by rewrite ?app_nil_r.
Qed.

(** C27: etharp_output sends to the broadcast or the mapped multicast address,
    or to the host itself or the gateway; the index of the entry used last only
    saves the search: with or without it the entry is the one the cache has for
    the next hop, and without one the packet goes to etharp_query. *)
Theorem output_next_hop (s : node X) (nif p : positive) (n : netif) (ip : Z) :
  arp_ok (arp_of s) -> Netif.nif (n_netifs s) !! nif = Some n -> 0 <= ip < 2 ^ 32 ->
  etharp_output nif p ip s =
    match next_hop n ip with
    | Frame_to mac => ethernet_output nif p (hwaddr n) mac ETHTYPE_IP s
    | No_route => Some (ERR_RTE, s)
    | Via dst =>
        match find_stable (arp_table (arp_of s)) 0 nif dst with
        | Some i => etharp_output_to_arp_index nif p i (with_cached i s)
        | None => etharp_query nif dst (Some p) s
        end
    end.
Proof.
  intros Ho Hn Hip. assert (get_netif nif s = Some (n, s)) as Hget by (destruct s; by apply get_netif_run).
  unfold etharp_output, next_hop. mrun Hget. destruct (ip4_addr_isbroadcast_u32 ip n); [done|].
  destruct (ip4_addr_ismulticast ip) eqn:Em.
  { by rewrite (multicast_mac ip Hip). }
  destruct (ip4_addr_netcmp _ _ _), (ip4_addr_islinklocal ip); cbn [negb andb orb];
    try (unfold ip4_addr_isany_val, IPADDR_ANY; destruct (gw n =? 0); [done|]).
  all: mrun (get_arp_run s).
  all: pose proof (but_cached _ _ (ok_but _ Ho)) as Hc.
  all: destruct (lookup_lt_is_Some_2 (arp_table (arp_of s)) (Z.to_nat (etharp_cached_entry (arp_of s)))) as [c Hce];
    [rewrite (ok_length _ Ho); unfold ARP_TABLE_SIZE in Hc; lia|].
  all: mrun (get_entry_run _ c s (proj1 Hc) Hce); by apply via_cache.
Qed.

(** ** Answering *)

Context {FL : FrameLink X}.

Lemma heap_only {A} (m : M heap A) (s s' : node X) r : onheap m s = Some (r, s') -> n_ext s' = n_ext s /\ n_netifs s' = n_netifs s.
Proof. by intros (h & _ & ->)%zoom_inv. Qed.

(** C18: A host that asks for our address is answered: etharp_input enters the
    asking host (etharp_update_arp_entry with TRY_HARD) and then, with memory for
    the packet, sends one frame to it, the ARP reply of RFC 826 with our Ethernet
    address; the request's pbuf is freed. *)
Theorem arp_request_answered (N : budget) (g : netifs) (H : list positive) (s : node X) (p nif : positive) (b : pbuf) (n : netif)
    (sha tha : list Z) (spa : Z) :
  live N None g (p :: H) s -> arp_ok (arp_of s) -> Netif.nif g !! nif = Some n -> length (hwaddr n) = 6%nat ->
  0 < ip_addr n < 2 ^ 32 -> length sha = 6%nat -> length tha = 6%nat -> 0 <= spa < 2 ^ 32 ->
  readable (n_heap s) p SIZEOF_ETHARP_HDR -> h_pbufs (n_heap s) !! p = Some b ->
  load (payload b) 0 SIZEOF_ETHARP_HDR (n_heap s) = Some (arp_packet ARP_REQUEST sha spa tha (ip_addr n), n_heap s) ->
  exists r1 s1 s', etharp_update_arp_entry nif spa sha ETHARP_FLAG_TRY_HARD s = Some (r1, s1) /\
    etharp_input p nif s = Some (tt, s') /\ live N None g H s' /\
    (heap_admits (h_mem (n_heap s1)) (ram_size PBUF_LINK SIZEOF_ETHARP_HDR) = true ->
     n_ext s' = (transmit [eth_header sha (hwaddr n) ETHTYPE_ARP ++
       arp_packet ARP_REPLY (hwaddr n) (ip_addr n) sha spa] (n_ext s1)).2).
Proof.
  intros Hl Ha Hn Hlen Hip Hsha Htha Hspa Hrd Hb Hld. assert (ready g nif) as Hr by by exists n.
  destruct (total_run _ _ _ s (live_update N None g (p :: H) nif spa sha ETHARP_FLAG_TRY_HARD Hr Hsha) Hl) as (r1 & s1 & Hup & Hl1).
  destruct (total_run _ _ _ s (live_input N None g H p nif Hr) (conj Hl Hrd)) as ([] & s' & Hin & Hl').
  exists r1, s1, s'. do 3 (split; [done|]). intros Had.
  pose proof (live_netifs N _ _ _ _ Hl) as Hg. pose proof (live_netifs N _ _ _ _ Hl1) as Hg1.
  destruct (arp_packet_fields ARP_REQUEST sha spa tha (ip_addr n) Hsha Htha Hspa ltac:(lia))
    as (F0 & F4 & F5 & F2 & F6 & Fs & F14 & F24).
  unfold etharp_input in Hin. destruct s as [h g0 x]. simpl in Hg, Hld, Hb. subst g0.
  rewrite (bind_run _ _ _ _ _ (heap_run _ _ g x _ _ (get_pbuf_run _ _ _ Hb))) in Hin.
  rewrite (bind_run _ _ _ _ _ (heap_run _ _ g x _ _ Hld)) in Hin.
  rewrite F0, F4, F5, F2, F6, Fs, F14, F24, !Z.eqb_refl in Hin. cbn [negb orb] in Hin. cbv zeta in Hin.
  rewrite (bind_run _ _ _ _ _ (get_netif_run h g x nif n Hn)) in Hin.
  assert (ip4_addr_isany_val (ip_addr n) = false) as Hany by (unfold ip4_addr_isany_val, IPADDR_ANY; lia).
  rewrite Hany, Z.eqb_refl in Hin. rewrite (bind_run _ _ _ _ _ Hup) in Hin.
  change (_ =? PP_HTONS ARP_REQUEST) with true in Hin. cbv iota in Hin. rewrite bind_assoc in Hin.
  destruct s1 as [h1 g1 x1]. simpl in Hg1, Had. subst g1.
  rewrite (bind_run _ _ _ _ _ (get_netif_run h1 g x1 nif n Hn)), bind_assoc in Hin.
  destruct Hl1 as (T & _ & [_ _ _ _ [[_ Hwf _] _ _ _]]).
  destruct (etharp_raw_sends h1 g x1 nif (hwaddr n) sha (hwaddr n) (ip_addr n) sha spa ARP_REPLY Hwf Had Hlen Hsha Hlen Hsha ltac:(by vm_compute))
    as (h2 & Hraw & _).
  rewrite (bind_run _ _ _ _ _ Hraw), bind_ret in Hin. apply bind_Some in Hin as (c & s2 & Hfree & [= <-]).
  by apply heap_only in Hfree as [-> _].
Qed.

End Cache.
