(* ===== verification/StackLive.v ===== *)
(** * The stack put together: what every part keeps

    The interfaces the parts ask of each other - LiveLink, QuietLink, FrameLink
    and IpKeepsArp of ARP, TimerLaws of the timeouts - hold of the stack's own
    driver, mailbox and timers, given what FreeRTOS documents and what is asked
    of the layers above. *)
From Stdlib Require Import Sorting.Sorted.
From S2P Require Import Prelude Triple Def Pbuf PbufFacts PbufWrite PbufAlloc PbufPool PbufChain PbufRef PbufOwn PbufEdit Netif Node.
From S2P Require Import SysArch Timeouts TimeoutsFacts TimeoutsProps Tcpip RpmsgFreeRTOS Ethernet EthernetFacts Etharp EtharpFacts EtharpFrame.
From S2P Require Import EtharpInv EtharpSend Ip4 Icmp Ip4Input Ip4Facts Ip4Frame EtharpLive Ip4Live IcmpLive Ip4InputLive EtharpProps.
From S2P Require Import Udp UdpFacts UdpDemux UdpFrame UdpLive Stack.

(** The references the rest keeps in its state, and what it asks of it. *)
Class Held (V : Type) := {
  refs_above : V -> list positive;
  order_above : V -> Prop;
}.

#[export] Program Instance stack_upper {O Y V : Type} {HV : Held V} : Upper (world O Y V) := {
  held w := refs_above (w_up w);
  in_order w := udp_ok (w_udp w) /\ order_above (w_up w);
}.
Solve Obligations with done.
#[export] Program Instance stack_apart {O Y V : Type} {HV : Held V} : IpApart (world O Y V).
Solve Obligations with done.
#[export] Instance stack_udp_apart {O Y V : Type} {HV : Held V} : UdpApart (world O Y V).
Proof. split; intros; simpl in *; tauto. Qed.

Section Driver.
Context {E : PbufEnv} {O Y V : Type} {F : FreeRTOS O tcpip_msg} {C : Channel Y} {U : Above (world O Y V)} {AD : Addresses} {HV : Held V}.

(** ** The driver *)

Lemma send_run d h g (w : world O Y V) :
  ext (send d) (Node h g w) = Some ((ch_send d (w_link w)).1, Node h g (set_link (ch_send d (w_link w)).2 w)).
Proof. unfold ext, send. simpl. unfold onlink. by destruct (ch_send d (w_link w)). Qed.

(** A chain of pbufs with memory of their own can be sent. *)
Lemma low_level_output_chain h g l : forall fuel p (w : world O Y V),
  chain h p l -> Forall (fun ib => own_ok h ib.1 ib.2) l -> (length l <= fuel)%nat ->
  exists r y, low_level_output_loop fuel p (Node h g w) = Some (r, Node h g (set_link y w)).
Proof.
  induction l as [|[i b] l IH]; intros fuel p w Hc Hown Hf.
  - rewrite (chain_nil_inv _ _ Hc). exists ERR_OK, (w_link w). destruct fuel; cbn [low_level_output_loop]; by destruct w.
  - apply chain_inv' in Hc as (-> & Hi & Hc). apply Forall_cons in Hown as [Hb Hown].
    destruct fuel as [|fuel]; simpl in Hf; [lia|]. cbn [low_level_output_loop].
    mrun (heap_run _ _ g w _ _ (get_pbuf_run _ _ _ Hi)).
    mrun (heap_run _ _ g w _ _ (load_all h b (own_payload_ok _ _ _ Hb) (proj1 (own_len _ _ _ Hb)))).
    rewrite (bind_run _ _ _ _ _ (send_run (pdata h b) h g w)). cbv beta.
    destruct (_ <? 0); [by eexists _, _|].
    destruct (IH fuel (next b) (set_link (ch_send (pdata h b) (w_link w)).2 w) Hc Hown ltac:(lia)) as (r & y & Hr).
    exists r, y. by rewrite Hr.
Qed.

Lemma sane_output N w R h g (x : world O Y V) p :
  sane N w R h -> p ∈ R -> exists r y, low_level_output (Some p) (Node h g x) = Some (r, Node h g (set_link y x)).
Proof.
  intros Hs Hp. destruct (sane_chain _ _ _ _ _ Hs Hp) as (l & Hc & Ho). unfold low_level_output.
  mrun (heap_run get h g x h h eq_refl). apply (low_level_output_chain h g l); [done|done|].
  pose proof (chain_fuel_enough _ _ _ Hc). lia.
Qed.

(** The interfaces of ARP to the driver. *)
#[export] Instance stack_quiet_link : QuietLink.
Proof.
  intros i p s r s' Hr. change (linkoutput_call i p) with (low_level_output (X := world O Y V) (Some p)) in Hr.
  unfold low_level_output in Hr. apply bind_Some in Hr as (h0 & s0 & [= <- <-] & Hr).
  revert Hr. generalize (chain_fuel (n_heap s)) (Some p : option positive). intros fuel.
  assert (forall f q s r s', low_level_output_loop (X := world O Y V) f q s = Some (r, s') -> arp_of s' = arp_of s) as Hq.
  { clear. induction f as [|f IH]; intros [q|] s r s'; cbn [low_level_output_loop]; try done; try by intros [= <- <-].
    intros (b & s1 & H1 & H2)%bind_Some. apply bind_Some in H2 as (d & s2 & H2 & H3).
    apply bind_Some in H3 as (x & s3 & H3 & H4). apply quiet_heap in H1, H2.
    assert (arp_of s3 = arp_of s2) as H5.
    { destruct s2 as [h g w]. rewrite send_run in H3. by injection H3 as <- <-. }
    assert (arp_of s' = arp_of s3) as H6 by (destruct (x <? 0); [by injection H4 as <- <-|by eapply IH]). congruence. }
  intros q Hr. rewrite (Hq _ _ _ _ _ Hr). by destruct s.
Qed.

#[export] Program Instance stack_frame_link : FrameLink (world O Y V) := {
  transmit l x := send_all l x;
}.
Next Obligation.
  intros i p l h g x Hp. change (linkoutput_call i p) with (low_level_output (X := world O Y V) (Some p)).
  rewrite (low_level_output_run h g x (Some p) l Hp). by destruct (send_all _ x).
Qed.

End Driver.

(** ** What the layers above have to keep *)

(** What the cache, the driver and ARP do not touch. *)
Definition own_view {O Y V} (s : node (world O Y V)) : timers * msg_pools * O :=
  (w_timers (n_ext s), w_pools (n_ext s), w_os (n_ext s)).

(** [m] leaves the cache in order and the rest alone. *)
Definition polite {E : PbufEnv} {O Y V A : Type} (m : M (node (world O Y V)) A) : Prop :=
  Triple.triple arp_of arp_ok m (fun _ => arp_ok) /\ Triple.quiet own_view m.

(** [m] consumes the references [R], with any interfaces [g] and references [H]
    of others around; what the layers above keep may change. *)
Record well_behaved {E : PbufEnv} {O Y V A : Type} {HV : Held V} (m : M (node (world O Y V)) A) : Prop := {
  behaved_live N g H : wired g ->
    total (fun s => s) (live N None g H) m (fun _ => alive N None g H);
  behaved_polite : polite m;
}.

Class AboveLaws {O Y V : Type} {E : PbufEnv} {F : FreeRTOS O tcpip_msg} {C : Channel Y} {HV : Held V} {U : Above (world O Y V)} := {
  #[global] above_live_fragments :: LiveFragments (world O Y V);
  #[global] above_live_user :: LiveUser (world O Y V);
  above_live_tcp N g H i p inp : wired g -> ready g inp -> p ∉ kept N ->
    total (fun s : node (world O Y V) => s) (here N None g (p :: H) i (delivered g i p)) (up_tcp_input p inp) (fun _ => alive N None g H);
  above_frag p i ip : polite (ip4_frag (X := world O Y V) p i ip);
  above_reass p : polite (ip4_reass (X := world O Y V) p);
  above_recv f a i p src sport : polite (udp_recv_call (X := world O Y V) f a i p src sport);
  above_tcp p i : polite (up_tcp_input (X := world O Y V) p i);
  above_ip_reass_tmr : well_behaved up_ip_reass_tmr;
  above_tcp_tmr : well_behaved up_tcp_tmr;
  above_tcp_busy : well_behaved up_tcp_busy;
  above_timer f a : well_behaved (up_timer f a);
  above_callback f c : well_behaved (up_callback f c);
  above_mem_free m : well_behaved (up_mem_free m);
}.

Section Stack.
Context {E : PbufEnv} {O Y V : Type} {F : FreeRTOS O tcpip_msg} {C : Channel Y} {HV : Held V} {U : Above (world O Y V)} {AD : Addresses}.
Context {AL : AboveLaws}.

#[export] Instance stack_live_link N : LiveLink N.
Proof.
  split. intros w g T H i p _ Hp [h g0 x] [Hg HT Hc Hh Hs]. simpl in *.
  destruct (sane_output N w _ h g0 x p Hs) as (r & y & Hr); [apply elem_of_app; by right|].
  exists r, (Node h g0 (set_link y x)). split; [exact Hr|]. by split.
Qed.

#[export] Instance stack_live_transport : LiveTransport (world O Y V).
Proof. split; intros; [by apply live_udp|by apply above_live_tcp]. Qed.
#[export] Instance stack_live_ip : LiveIp := ip4_live.

(** *** Nobody touches the timers, the pools and FreeRTOS *)

Lemma view_heap A (m : M heap A) : Triple.quiet own_view (onheap m : M (node (world O Y V)) A).
Proof. intros s r s' (h & _ & ->)%zoom_inv. done. Qed.
Lemma view_arp A (m : M arp A) : Triple.quiet own_view (onarp m : M (node (world O Y V)) A).
Proof.
  intros s r s'. unfold onarp, ext. destruct (zoom m _) as [[a x]|] eqn:Hz; [|done]. intros [= <- <-].
  apply zoom_inv in Hz as (p & _ & ->). done.
Qed.
Lemma view_netif i : Triple.quiet own_view (get_netif i : M (node (world O Y V)) netif).
Proof.
  intros [h g x] r s'. unfold get_netif, zoom, mbind, M_bind, get, lift. simpl. destruct (_ !! i); [|done].
  by intros [= <- <-].
Qed.
Lemma view_link i p : Triple.quiet own_view (linkoutput_call i p : M (node (world O Y V)) err_t).
Proof.
  change (linkoutput_call i p) with (low_level_output (X := world O Y V) (Some p)). unfold low_level_output.
  apply quiet_bind; [apply view_heap|]. intros h. generalize (chain_fuel h) (Some p : option positive).
  induction n as [|n IH]; intros [q|]; cbn [low_level_output_loop]; try by eauto with quiet.
  apply quiet_bind; [apply view_heap|]. intros b. apply quiet_bind; [apply view_heap|]. intros d.
  apply quiet_bind; [|intros x; destruct (x <? 0); [apply quiet_ret|apply IH]].
  intros [h' g w] r s'. rewrite send_run. by intros [= <- <-].
Qed.
Lemma view_ipvars A (m : M ip_state A) : Triple.quiet own_view (onip m : M (node (world O Y V)) A).
Proof.
  intros s r s'. unfold onip, ext. destruct (zoom m _) as [[a x]|] eqn:Hz; [|done]. intros [= <- <-].
  apply zoom_inv in Hz as (p & _ & ->). done.
Qed.
Lemma view_etharp_output i p ip : Triple.quiet own_view (etharp_output i p ip : M (node (world O Y V)) err_t).
Proof. apply frame_output; auto using view_heap, view_arp, view_netif, view_link. Qed.
Lemma view_udpvars A (m : M udp_state A) : Triple.quiet own_view (onudp m : M (node (world O Y V)) A).
Proof.
  intros s r s'. unfold onudp, ext. destruct (zoom m _) as [[a x]|] eqn:Hz; [|done]. intros [= <- <-].
  apply zoom_inv in Hz as (p & _ & ->). done.
Qed.

(** *** The steps of IP and UDP *)

Lemma polite_quiet {A} (m : M (node (world O Y V)) A) : Triple.quiet arp_of m -> Triple.quiet own_view m -> polite m.
Proof. intros Ha Hv. split; [by apply triple_quiet|done]. Qed.
Lemma polite_ret A (a : A) : polite (mret a : M (node (world O Y V)) A).
Proof. apply polite_quiet; apply quiet_ret. Qed.
Lemma polite_bind A B (m : M (node (world O Y V)) A) (f : A -> M (node (world O Y V)) B) :
  polite m -> (forall a, polite (f a)) -> polite (m ≫= f).
Proof.
  intros [Ha Hv] Hf. split; [eapply triple_bind; [exact Ha|apply Hf]|]. apply quiet_bind; [done|apply Hf].
Qed.
Lemma polite_lift A (o : option A) : polite (lift o : M (node (world O Y V)) A).
Proof. apply polite_quiet; apply quiet_lift. Qed.
Lemma polite_heap A (m : M heap A) : polite (onheap m : M (node (world O Y V)) A).
Proof. apply polite_quiet; [apply quiet_heap|apply view_heap]. Qed.
Lemma polite_ipvars A (m : M ip_state A) : polite (onip m : M (node (world O Y V)) A).
Proof.
  apply polite_quiet; [|apply view_ipvars]. intros s r s'. unfold onip, ext. destruct (zoom m _) as [[a x]|] eqn:Hz; [|done].
  intros [= <- <-]. by apply zoom_inv in Hz as (i & _ & ->).
Qed.
Lemma polite_udpvars A (m : M udp_state A) : polite (onudp m : M (node (world O Y V)) A).
Proof.
  apply polite_quiet; [|apply view_udpvars]. intros s r s'. unfold onudp, ext. destruct (zoom m _) as [[a x]|] eqn:Hz; [|done].
  intros [= <- <-]. by apply zoom_inv in Hz as (i & _ & ->).
Qed.
Lemma polite_netifs : polite (zoom get : M (node (world O Y V)) netifs).
Proof. apply polite_quiet; intros [h g x] r s'; by intros [= _ <-]. Qed.
Lemma polite_etharp_output i p ip : polite (etharp_output i p ip : M (node (world O Y V)) err_t).
Proof. split; [apply triple_output|apply view_etharp_output]. Qed.
#[local] Hint Resolve polite_ret polite_bind polite_lift polite_heap polite_ipvars polite_udpvars polite_netifs polite_etharp_output
  above_frag above_reass above_recv above_tcp : polite.

Lemma polite_udp_input p i : polite (udp_input p i : M (node (world O Y V)) unit).
Proof. apply (closed_udp_input (fun A m => polite m)); eauto with polite. Qed.
Lemma polite_udp_sendto pcb p dst port : polite (udp_sendto pcb p dst port : M (node (world O Y V)) err_t).
Proof. apply (closed_sendto (fun A m => polite m)); eauto with polite. Qed.
#[local] Hint Resolve polite_udp_input : polite.
Lemma polite_ip p i : polite (ip4_input p i : M (node (world O Y V)) err_t).
Proof. apply (closed_ip4_input (fun A m => polite m)); eauto with polite; intros; [apply polite_udp_input|apply above_tcp]. Qed.
#[export] Instance stack_ip_arp : IpKeepsArp.
Proof. intros p i. apply polite_ip. Qed.
Lemma view_ip p i : Triple.quiet own_view (ip4_input p i : M (node (world O Y V)) err_t).
Proof. apply polite_ip. Qed.

Lemma view_etharp_tmr : Triple.quiet own_view (etharp_tmr : M (node (world O Y V)) unit).
Proof. apply frame_tmr; auto using view_heap, view_arp, view_netif, view_link, view_ip. Qed.
Lemma view_ethernet_input p i : Triple.quiet own_view (ethernet_input etharp_input p i : M (node (world O Y V)) err_t).
Proof. apply frame_ethernet_input; auto using view_heap, view_arp, view_netif, view_link. intros. apply view_ip. Qed.
End Stack.

(** ** FreeRTOS's clock

    Time passes while the thread reads the clock or waits, at most [slack] more
    than it asked for.  The laws are those of a system that has been up for less
    than 2^32 / 1000 ticks; what happens then is sys_now_jumps_back. *)
Class UptimeLaws (O : Type) {F : FreeRTOS O tcpip_msg} := {
  ticks : O -> Z;
  uptime := (fun o => ticks o * 1000 / configTICK_RATE_HZ O tcpip_msg);
  tick_rate : 0 < configTICK_RATE_HZ O tcpip_msg <= 1000;
  tick_read o : (xTaskGetTickCount (msg := tcpip_msg) o).1 = ticks o;
  tick_early o : 0 <= ticks o < 4294968;
  tick_pass o : ticks o <= ticks (xTaskGetTickCount (msg := tcpip_msg) o).2 /\
    uptime (xTaskGetTickCount (msg := tcpip_msg) o).2 <= uptime o + slack;
  send_ticks m o : ticks (xQueueSend m o).2 = ticks o;
  send_isr_ticks m o : ticks (xQueueSendFromISR m o).2 = ticks o;
  receive_ticks t o r o' : 0 <= t -> xQueueReceive t o = Some (r, o') ->
    ticks o <= ticks o' /\ uptime o' <= uptime o + t * portTICK_RATE_MS (O := O) (msg := tcpip_msg) + slack;
  receive_isr_ticks o : ticks (xQueueReceiveFromISR o).2 = ticks o;
}.

(** ** The invariant of the whole *)

(** The pbufs a message carries: a frame, or one to be freed. *)
Definition frame_of (m : tcpip_msg) : list positive :=
  match m with TCPIP_MSG_INPKT p _ _ => [p] | _ => [] end.
Definition free_of (m : tcpip_msg) : list positive :=
  match m with TCPIP_MSG_CALLBACK (Pbuf_free_int p) => [p] | _ => [] end.
(** The messages from MEMP_TCPIP_MSG_API. *)
Definition api_of (m : tcpip_msg) : Z := match m with TCPIP_MSG_CALLBACK _ => 1 | _ => 0 end.

Definition frames (ms : list tcpip_msg) : list positive := concat (frame_of <$> ms).
Definition frees (ms : list tcpip_msg) : list positive := concat (free_of <$> ms).
Definition apis (ms : list tcpip_msg) : Z := foldr (fun m n => api_of m + n) 0 ms.

(** A message the thread can handle; static messages free nothing. *)
Definition postable (g : netifs) (m : tcpip_msg) : Prop :=
  match m with
  | TCPIP_MSG_INPKT _ i _ => ready g i
  | TCPIP_MSG_CALLBACK_STATIC (Pbuf_free_int _) => False
  | _ => True
  end.

Lemma frames_app ms ms' : frames (ms ++ ms') = frames ms ++ frames ms'.
Proof. unfold frames. by rewrite fmap_app, concat_app. Qed.
Lemma frees_app ms ms' : frees (ms ++ ms') = frees ms ++ frees ms'.
Proof. unfold frees. by rewrite fmap_app, concat_app. Qed.
Lemma frees_one m : frees [m] = free_of m.
Proof. unfold frees. simpl. apply app_nil_r. Qed.
Lemma apis_app ms ms' : apis (ms ++ ms') = apis ms + apis ms'.
Proof. unfold apis. induction ms as [|m ms IH]; simpl in *; lia. Qed.
Lemma apis_nonneg ms : 0 <= apis ms.
Proof. induction ms as [|m ms IH]; simpl; [done|]. unfold api_of. destruct m; unfold apis in *; lia. Qed.

Section Whole.
Context {E : PbufEnv} {O Y V : Type} {F : FreeRTOS O tcpip_msg} {C : Channel Y} {HV : Held V} {U : Above (world O Y V)} {AD : Addresses}.
Context {AL : AboveLaws} {FL : FreeRTOSLaws O tcpip_msg} {UL : UptimeLaws O}.

Definition mailbox (s : node (world O Y V)) : list tcpip_msg := waiting (w_os (n_ext s)).
Definition pools (s : node (world O Y V)) : msg_pools := w_pools (n_ext s).

(** The references are the packets in the ARP queues, those in the mailbox, what
    the layers above keep, and [H]; [fi] and [fa] message structs are out of the
    mailbox and not free. *)
Record stack_ok (g : netifs) (P : Z) (fi fa : Z) (H : list positive) (s : node (world O Y V)) : Prop := {
  ok_wired : wired g;
  ok_live : live (Budget P (frames (mailbox s)) (held (n_ext s))) None g (frees (mailbox s) ++ H) s;
  ok_arp : arp_ok (arp_of s);
  ok_frames : NoDup (frames (mailbox s));
  ok_posted : Forall (postable g) (mailbox s);
  ok_inpkt : 0 <= inpkt_free (pools s) /\ inpkt_free (pools s) + lenZ (frames (mailbox s)) + fi = MEMP_NUM_TCPIP_MSG_INPKT;
  ok_api : 0 <= api_free (pools s) /\ api_free (pools s) + apis (mailbox s) + fa = MEMP_NUM_TCPIP_MSG_API;
}.

Definition set_os (o : O) (s : node (world O Y V)) : node (world O Y V) :=
  Node (n_heap s) (n_netifs s) (set_part o (n_ext s)).

(** What the invariant looks at. *)
Lemma live_same N w g H (s s' : node (world O Y V)) :
  n_heap s' = n_heap s -> n_netifs s' = n_netifs s -> arp_of s' = arp_of s -> w_up (n_ext s') = w_up (n_ext s) ->
  w_udp (n_ext s') = w_udp (n_ext s) ->
  live N w g H s -> live N w g H s'.
Proof.
  intros Eh Eg Ea Eu Ed (T & Ht & [? ? ? Hh ?]). exists T. split; [done|]. split; try congruence. simpl in *. by rewrite Eu, Ed.
Qed.

Lemma stack_ok_same g P fi fa H (s s' : node (world O Y V)) :
  n_heap s' = n_heap s -> n_netifs s' = n_netifs s -> arp_of s' = arp_of s -> w_up (n_ext s') = w_up (n_ext s) ->
  w_udp (n_ext s') = w_udp (n_ext s) ->
  mailbox s' = mailbox s -> pools s' = pools s ->
  stack_ok g P fi fa H s -> stack_ok g P fi fa H s'.
Proof.
  intros Eh Eg Ea Eu Ed Em Ep [Hw Hl Hao Hn Hp Hi Hapi]. split; rewrite ?Em, ?Ep; try done; [|by rewrite Ea].
  simpl. rewrite Eu. by eapply live_same.
Qed.

Lemma set_os_ok g P fi fa H o s : waiting o = mailbox s -> stack_ok g P fi fa H s -> stack_ok g P fi fa H (set_os o s).
Proof. intros Ho. by apply stack_ok_same. Qed.

(** The references the layers above keep are those of their state. *)
Lemma alive_held n K L w g H (s : node (world O Y V)) :
  alive (Budget n K L) w g H s -> live (Budget n K (held (n_ext s))) w g H s.
Proof. intros [L' Hl]. pose proof Hl as (T & _ & [_ _ _ Hh _]). by rewrite (proj1 Hh). Qed.

(** An operation of the stack's core. *)
Lemma stack_core {A} (m : M (node (world O Y V)) A) g P fi fa H (H' : A -> list positive) s :
  polite m ->
  (forall N D, kept N = frames (mailbox s) -> live N None g (D ++ H) s ->
    exists r s', m s = Some (r, s') /\ alive N None g (D ++ H' r) s') ->
  stack_ok g P fi fa H s ->
  exists r s', m s = Some (r, s') /\ stack_ok g P fi fa (H' r) s' /\ own_view s' = own_view s.
Proof.
  intros [Ha Hq] Hm [Hw Hl Hao Hn Hp Hi Hapi]. destruct (Hm (Budget P (frames (mailbox s)) (held (n_ext s))) _ eq_refl Hl) as (r & s' & Hr & Hl').
  exists r, s'. split; [done|]. pose proof (Hq _ _ _ Hr) as Hv. split; [|done].
  assert (mailbox s' = mailbox s) as Em by (unfold mailbox; unfold own_view in Hv; congruence).
  assert (pools s' = pools s) as Ep by (unfold pools; unfold own_view in Hv; congruence).
  split; rewrite ?Em, ?Ep; try done; [by eapply alive_held|by eapply Ha].
Qed.

Lemma stack_behaved {A} (m : M (node (world O Y V)) A) g P fi fa H s :
  well_behaved m -> stack_ok g P fi fa H s ->
  exists r s', m s = Some (r, s') /\ stack_ok g P fi fa H s' /\ own_view s' = own_view s.
Proof.
  intros [Hl Hp] Hs. apply (stack_core m g P fi fa H (fun _ => H)); [done| |done].
  intros N D HN HL. by apply (Hl N g (D ++ H) (ok_wired _ _ _ _ _ _ Hs)).
Qed.

Lemma stack_etharp_tmr g P fi fa H s :
  stack_ok g P fi fa H s ->
  exists s', etharp_tmr s = Some (tt, s') /\ stack_ok g P fi fa H s' /\ own_view s' = own_view s.
Proof.
  intros Hs. destruct (stack_core etharp_tmr g P fi fa H (fun _ => H) s) as ([] & s' & ?); [split; [|apply view_etharp_tmr]| |done|by exists s'].
  - apply triple_pure. intros a Ha. eapply triple_conseq; [by apply triple_tmr|done|by intros ? ? []].
  - intros N D _ HL. destruct (live_tmr N None g (D ++ H) s HL) as (r & s' & Hr & Hl). exists r, s'. split; [done|by apply live_alive].
Qed.

(** ** Handling a message *)

Lemma live_keep n K L w g H p (s : node (world O Y V)) :
  live (Budget n K L) w g (p :: H) s -> inbound (n_heap s) p FRAME_HEADERS -> live (Budget n (K ++ [p]) L) w g H s.
Proof.
  intros (T & Ht & [Hg HT Hc Hh Hs]) Hr. exists T. split; [destruct Ht; by split|]. split; [done|done|done|done|].
  apply sane_keep; [|done]. eapply sane_proper; [|reflexivity|exact Hs]. by rewrite Permutation_middle.
Qed.
Lemma live_unkeep n K L w g H p (s : node (world O Y V)) : live (Budget n (p :: K) L) w g H s -> live (Budget n K L) w g (p :: H) s.
Proof.
  intros (T & Ht & [Hg HT Hc Hh Hs]). exists T. split; [destruct Ht; by split|]. split; [done|done|done|done|].
  apply sane_unkeep in Hs. eapply sane_proper; [|reflexivity|exact Hs]. by rewrite Permutation_middle.
Qed.
Lemma live_kept N w g H (s : node (world O Y V)) p : live N w g H s -> p ∈ kept N -> inbound (n_heap s) p FRAME_HEADERS.
Proof. intros (T & _ & [_ _ _ _ [_ _ _ Hk]]) Hp. rewrite Forall_forall in Hk. by apply Hk. Qed.

(** The message [m] taken out of the mailbox [m :: ms]: what it carries is the
    thread's now. *)
Lemma stack_pop g P H m ms o (s : node (world O Y V)) :
  mailbox s = m :: ms -> waiting o = ms -> stack_ok g P 0 0 H s ->
  stack_ok g P (lenZ (frame_of m)) (api_of m) (frame_of m ++ free_of m ++ H) (set_os o s) /\ postable g m /\
  (forall p, p ∈ frame_of m -> p ∉ frames ms /\ inbound (n_heap s) p FRAME_HEADERS).
Proof.
  intros Em Eo [Hwi Hl Ha Hn Hp Hi Hapi]. rewrite Em in *.
  assert (forall p, p ∈ frame_of m -> inbound (n_heap s) p FRAME_HEADERS) as Hrd.
  { intros p Hin. eapply live_kept; [exact Hl|]. unfold frames. simpl. apply elem_of_app. by left. }
  change (frames (m :: ms)) with (frame_of m ++ frames ms) in *. change (frees (m :: ms)) with (free_of m ++ frees ms) in *.
  change (apis (m :: ms)) with (api_of m + apis ms) in *. rewrite length_app in Hi.
  apply NoDup_app in Hn as (_ & Hd & Hn). apply Forall_cons in Hp as [Hm Hp].
  split; [|split; [done|]].
  - split; unfold mailbox; simpl; rewrite ?Eo; try done; unfold pools in *; simpl; try lia.
    assert (live (Budget P (frames ms) (held (n_ext s))) None g (frame_of m ++ (free_of m ++ frees ms) ++ H) s) as Hl'.
    { destruct m as [p i f|f|f]; simpl in *; [|done|done]. by apply live_unkeep. }
    eapply live_perm; [|eapply live_same; [..|exact Hl']; done].
    solve_Permutation.
  - intros p Hin. split; [by apply Hd|by apply Hrd].
Qed.

(** ethernet_input always reports success. *)
Lemma returns_ok {A B} (m : M (node (world O Y V)) A) (f : A -> M (node (world O Y V)) B) r0 :
  (forall a s r s', f a s = Some (r, s') -> r = r0) -> forall s r s', (m ≫= f) s = Some (r, s') -> r = r0.
Proof. intros Hf s r s' (a & s1 & _ & Hr)%bind_Some. by eapply Hf. Qed.
Lemma ethernet_input_ok p i (s : node (world O Y V)) r s' :
  ethernet_input etharp_input p i s = Some (r, s') -> r = ERR_OK.
Proof.
  assert (forall s r s', (mret ERR_OK : M (node (world O Y V)) err_t) s = Some (r, s') -> r = ERR_OK) as Hret by (by intros ? ? ? [= <- _]).
  unfold ethernet_input. revert s r s'.
  repeat first [exact Hret | apply returns_ok; intros ? | match goal with |- context [if ?b then _ else _] => destruct b end].
Qed.

Lemma pools_run {A} (f : msg_pools -> A * msg_pools) (s : node (world O Y V)) :
  onpools (fun m => Some (f m)) s = Some ((f (pools s)).1, Node (n_heap s) (n_netifs s) (set_part (f (pools s)).2 (n_ext s))).
Proof. unfold onpools, ext, zoom, pools. simpl. by destruct (f _). Qed.

Lemma put_pools_run v (s : node (world O Y V)) :
  onpools (put v) s = Some (tt, Node (n_heap s) (n_netifs s) (set_part v (n_ext s))).
Proof. done. Qed.
Lemma get_pools_run (s : node (world O Y V)) : onpools get s = Some (pools s, s).
Proof. by destruct s as [? ? []]. Qed.

(** A message struct goes back to its pool. *)
Lemma free_inpkt_ok g P fi fa H (s : node (world O Y V)) :
  stack_ok g P (1 + fi) fa H s ->
  exists s', memp_free_inpkt s = Some (tt, s') /\ stack_ok g P fi fa H s' /\
    w_timers (n_ext s') = w_timers (n_ext s) /\ w_os (n_ext s') = w_os (n_ext s) /\ n_heap s' = n_heap s.
Proof.
  intros [Hwi Hl Ha Hn Hp Hi Hapi]. eexists. split; [apply (pools_run (fun m => (tt, _)))|].
  split; [|done]. split; unfold mailbox, pools in *; simpl in *; try done; [by eapply live_same; [..|exact Hl]|lia].
Qed.
Lemma free_api_ok g P fi fa H (s : node (world O Y V)) :
  stack_ok g P fi (1 + fa) H s ->
  exists s', memp_free_api s = Some (tt, s') /\ stack_ok g P fi fa H s' /\
    w_timers (n_ext s') = w_timers (n_ext s) /\ w_os (n_ext s') = w_os (n_ext s).
Proof.
  intros [Hwi Hl Ha Hn Hp Hi Hapi]. eexists. split; [apply (pools_run (fun m => (tt, _)))|].
  split; [|done]. split; unfold mailbox, pools in *; simpl in *; try done; [by eapply live_same; [..|exact Hl]|lia].
Qed.

Lemma stack_free g P fi fa H p (s : node (world O Y V)) :
  stack_ok g P fi fa (p :: H) s ->
  exists c s', onheap (pbuf_free (Some p)) s = Some (c, s') /\ stack_ok g P fi fa H s' /\ own_view s' = own_view s.
Proof.
  apply (stack_core (onheap (pbuf_free (Some p))) g P fi fa (p :: H) (fun _ => H)); [apply polite_heap|].
  intros N D _ Hs. assert (live N None g (p :: D ++ H) s) as Hs' by (eapply live_perm; [symmetry; apply Permutation_middle|done]).
  destruct (live_free N None g (D ++ H) p s Hs') as (c & s' & Hr & Hl). exists c, s'. split; [done|by apply live_alive].
Qed.

Lemma run_callback_ok g P fi fa H f (s : node (world O Y V)) :
  stack_ok g P fi fa (free_of (TCPIP_MSG_CALLBACK f) ++ H) s ->
  exists s', run_callback f s = Some (tt, s') /\ stack_ok g P fi fa H s' /\ own_view s' = own_view s.
Proof.
  intros Hs. destruct f as [p|m|f c]; cbn [run_callback].
  - destruct (stack_free g P fi fa H p s Hs) as (c & s' & Hr & Hs' & Hv). exists s'. by mrun Hr.
  - destruct (stack_behaved _ g P fi fa H s (above_mem_free m) Hs) as ([] & s' & ?). by exists s'.
  - destruct (stack_behaved _ g P fi fa H s (above_callback f c) Hs) as ([] & s' & ?). by exists s'.
Qed.

Lemma ip4_input_ok p i (s : node (world O Y V)) r s' : ip4_input p i s = Some (r, s') -> r = ERR_OK.
Proof.
  assert (forall s r s', (mret ERR_OK : M (node (world O Y V)) err_t) s = Some (r, s') -> r = ERR_OK) as Hret by (by intros ? ? ? [= <- _]).
  unfold ip4_input, ip4_deliver. revert s r s'.
  repeat first [exact Hret | apply returns_ok; intros ? | match goal with |- context [if ?b then _ else _] => destruct b end
    | match goal with |- context [match ?o with _ => _ end] => destruct o end].
Qed.

Lemma readable_le h p k k' : readable h p k -> k' <= k -> readable h p k'.
Proof. intros (b & o & bs & ? & ? & ? & ? & ?) Hk. exists b, o, bs. split_and!; (done || lia). Qed.

(** The thread handles any message it may get. *)
Lemma stack_input g P fi fa H f p i (s : node (world O Y V)) :
  stack_ok g P fi fa (p :: H) s -> ready g i -> p ∉ frames (mailbox s) -> inbound (n_heap s) p FRAME_HEADERS ->
  exists s', call_input f p i s = Some (ERR_OK, s') /\ stack_ok g P fi fa H s' /\ own_view s' = own_view s.
Proof.
  intros Hs Hi Hp Hrd. pose proof (ok_wired _ _ _ _ _ _ Hs) as Hw. destruct f; simpl call_input.
  - destruct (stack_core (ethernet_input etharp_input p i) g P fi fa (p :: H) (fun _ => H) s) as (r & s' & Hr & ?);
      [split; [apply triple_ethernet_input|apply view_ethernet_input]| |done|].
    + intros N D HN HL. apply (live_ethernet_input N g (D ++ H) p i Hw Hi); [by rewrite HN|].
      split; [|exact Hrd]. eapply live_perm; [|exact HL]. by rewrite <- Permutation_middle.
    + rewrite (ethernet_input_ok _ _ _ _ _ Hr) in Hr. by exists s'.
  - destruct (stack_core (ip4_input p i) g P fi fa (p :: H) (fun _ => H) s) as (r & s' & Hr & ?);
      [split; [exact (stack_ip_arp p i)|apply view_ip]| |done|].
    + intros N D HN HL. apply (stack_live_ip N g (D ++ H) i p Hw Hi); [by rewrite HN|].
      split; [eapply live_perm; [|exact HL]; by rewrite <- Permutation_middle|].
      destruct Hrd as [Hrd Hun]. split; [by eapply readable_le|done].
    + rewrite (ip4_input_ok _ _ _ _ _ Hr) in Hr. by exists s'.
Qed.

Lemma handle_msg_ok g P H m ms o (s : node (world O Y V)) :
  mailbox s = m :: ms -> waiting o = ms -> stack_ok g P 0 0 H s ->
  exists s', tcpip_thread_handle_msg m (set_os o s) = Some (tt, s') /\ stack_ok g P 0 0 H s' /\
    w_timers (n_ext s') = w_timers (n_ext s) /\ w_os (n_ext s') = o.
Proof.
  intros Em Eo Hs. destruct (stack_pop g P H m ms o s Em Eo Hs) as (Hpop & Hpost & Hfr).
  destruct m as [p i f|f|f]; cbn [tcpip_thread_handle_msg].
  - destruct (Hfr p ltac:(by apply list_elem_of_singleton)) as [Hp Hrd].
    destruct (stack_input g P 1 0 H f p i (set_os o s) Hpop Hpost) as (s1 & Hr1 & Hs1 & Hv1); [|done|].
    { unfold mailbox. simpl. by rewrite Eo. }
    mrun Hr1. rewrite bool_decide_eq_true_2 by done. cbn [negb]. rewrite bind_ret. destruct (free_inpkt_ok g P 0 0 H s1 Hs1) as (s' & Hr & Hs' & Ht & Ho & _).
    exists s'. split; [done|]. split; [done|]. injection Hv1 as Hv1 _ Hv2. split; congruence.
  - destruct (run_callback_ok g P 0 1 H f (set_os o s) Hpop) as (s1 & Hr1 & Hs1 & Hv1). mrun Hr1.
    destruct (free_api_ok g P 0 0 H s1 Hs1) as (s' & Hr & Hs' & Ht & Ho).
    exists s'. split; [done|]. split; [done|]. injection Hv1 as Hv1 _ Hv2. split; congruence.
  - destruct (run_callback_ok g P 0 0 H f (set_os o s)) as (s1 & Hr1 & Hs1 & Hv1); [by destruct f|].
    exists s1. split; [done|]. split; [done|]. injection Hv1 as Hv1 _ Hv2. split; congruence.
Qed.

(** ** Posting a message *)

(** What a posting call leaves alone. *)
Definition undisturbed (s s' : node (world O Y V)) : Prop :=
  w_timers (n_ext s') = w_timers (n_ext s) /\ ticks (w_os (n_ext s')) = ticks (w_os (n_ext s)).

Lemma trypost_run m (s : node (world O Y V)) :
  exists b o, onos (sys_mbox_trypost m) s = Some (if b : bool then ERR_OK else ERR_MEM, set_os o s) /\
    waiting o = (if b then mailbox s ++ [m] else mailbox s) /\ ticks o = ticks (w_os (n_ext s)) /\
    b = bool_decide (length (mailbox s) < q_length)%nat.
Proof.
  unfold mailbox. set (o := w_os (n_ext s)).
  enough (exists b o', sys_mbox_trypost m o = Some (if b : bool then ERR_OK else ERR_MEM, o') /\
    waiting o' = (if b then waiting o ++ [m] else waiting o) /\ ticks o' = ticks o /\
    b = bool_decide (length (waiting o) < q_length)%nat) as (b & o' & Hr & ?).
  { exists b, o'. split; [|done]. unfold onos, ext, zoom. simpl. fold o. by rewrite Hr. }
  unfold sys_mbox_trypost. rewrite bind_get. unfold os.
  destruct (xInsideISR o).
  - pose proof (send_isr_waiting m o) as Hw. pose proof (send_isr_ticks m o) as Ht. pose proof (send_isr_room m o) as Hb.
    unfold mbind, M_bind. destruct (xQueueSendFromISR m o) as [b o']. exists b, o'. by split_and!.
  - pose proof (send_waiting m o) as Hw. pose proof (send_ticks m o) as Ht. pose proof (send_room m o) as Hb.
    unfold mbind, M_bind. destruct (xQueueSend m o) as [b o']. exists b, o'. by split_and!.
Qed.

(** A packet the caller owns is in the mailbox or still the caller's. *)
Lemma tcpip_inpkt_ok g P H p i f (s : node (world O Y V)) :
  stack_ok g P 0 0 (p :: H) s -> ready g i -> p ∉ frames (mailbox s) -> inbound (n_heap s) p FRAME_HEADERS ->
  exists r s', tcpip_inpkt p i f s = Some (r, s') /\ undisturbed s s' /\ n_heap s' = n_heap s /\
    (r = ERR_OK /\ stack_ok g P 0 0 H s' /\ mailbox s' = mailbox s ++ [TCPIP_MSG_INPKT p i f] \/
     r = ERR_MEM /\ stack_ok g P 0 0 (p :: H) s' /\ mailbox s' = mailbox s).
Proof.
  intros Hs Hi Hp Hrd. pose proof Hs as [Hwi Hl Ha Hn Hpo Hin Hapi]. unfold tcpip_inpkt, memp_malloc_inpkt.
  rewrite bind_assoc. rewrite (bind_run _ _ _ _ _ (get_pools_run s)). cbv beta.
  destruct (inpkt_free (pools s) =? 0) eqn:Hz; b2p.
  { rewrite bind_ret. exists ERR_MEM, s. split; [done|]. split; [done|]. split; [done|]. by right. }
  rewrite bind_assoc. rewrite (bind_run _ _ _ _ _ (put_pools_run _ s)). rewrite bind_ret. cbn [negb].
  set (s1 := Node (n_heap s) (n_netifs s) _).
  assert (stack_ok g P 1 0 (p :: H) s1) as Hs1.
  { split; unfold mailbox, pools in *; simpl in *; try done; [by eapply live_same; [..|exact Hl]|lia]. }
  destruct (trypost_run (TCPIP_MSG_INPKT p i f) s1) as (b & o & Hr & Hw & Ht & _). mrun Hr.
  assert (mailbox s1 = mailbox s) as Em by done. rewrite Em in Hw.
  destruct b.
  - rewrite bool_decide_eq_true_2 by done. exists ERR_OK, (set_os o s1). split; [done|]. split; [done|]. split; [done|]. left.
    split; [done|]. split; [|done]. destruct Hs1 as [Hw1 Hl1 Ha1 Hn1 Hpo1 Hin1 Hapi1]. rewrite Em in *.
    split; unfold mailbox; simpl; rewrite ?Hw, ?frames_app, ?frees_app, ?apis_app; try done.
    + apply live_keep; [|done]. eapply live_perm; [|eapply live_same; [..|exact Hl1]; done].
      simpl. rewrite app_nil_r. by rewrite Permutation_middle.
    + apply NoDup_app. split; [done|]. split; [|apply NoDup_singleton]. by intros q Hq ->%list_elem_of_singleton.
    + apply Forall_app. split; [done|]. by constructor.
    + rewrite length_app. unfold pools in *. simpl in *. lia.
    + unfold pools in *. simpl in *. lia.
  - rewrite bool_decide_eq_false_2 by done. cbn [negb].
    destruct (free_inpkt_ok g P 0 0 (p :: H) (set_os o s1)) as (s' & Hr' & Hs' & Ht' & Ho' & Hh'); [by apply set_os_ok|].
    mrun Hr'. exists ERR_MEM, s'. split; [done|]. split; [split; [done|by rewrite Ho']|].
    split; [exact Hh'|].
    right. split; [done|]. split; [done|]. unfold mailbox. by rewrite Ho'.
Qed.

(** ** The driver's callback *)

Lemma sane_writes n w R ks h h' : writes ks h h' -> sane n w R h -> sane n w R h'.
Proof.
  intros [Wp Wn Wo Wr Wl Wm] Hs. assert (forall i, h_mem h !! i = None -> h_mem h' !! i = None) as Hm.
  { intros i Hi. specialize (Wl i). rewrite Hi in Wl. by destruct (h_mem h' !! i). }
  eapply sane_relabel; [exact Hs| |done|done|done| |].
  - intros i. rewrite Wp. destruct (h_pbufs h !! i); [|done]. split; [done|]. intros [x Hx]. specialize (Wl i).
    rewrite Hx in Wl. destruct (h_mem h' !! i) as [y|]; [by exists y|done].
  - intros i b. rewrite Wp. intros Hi. eapply own_ok_eq; [by apply (sane_own _ _ _ _ Hs)|done|done|done|apply Wl].
  - intros HK. eapply Forall_impl; [exact HK|]. intros p. by apply inbound_same.
Qed.

Lemma alloc_empty_pool h n :
  h_pool h = 0 -> 0 <= n -> exists h', pbuf_alloc PBUF_RAW n PBUF_POOL h = Some (None, h').
Proof.
  intros H0 Hn. unfold pbuf_alloc. cbn [pbuf_alloc_pool_loop]. unfold memp_malloc_pool. unfold mbind at 1, M_bind at 1.
  rewrite H0. cbn [Z.eqb]. destruct (pool_is_empty_run h) as (h1 & Hr & _). mrun Hr. by exists h1.
Qed.

(** The pbuf of a received message can be read up to its end, and is nobody
    else's. *)
Lemma received_inbound h data h2 :
  lenZ data <= 1728 -> received h data h2 -> inbound h2 (h_next h) 1728.
Proof.
  intros Hn [Hw Hp _]. pose proof (packet_cons_inv _ _ _ _ _ Hp) as (_ & Hi & _).
  pose proof (writes_len _ _ _ Hw (h_next h)) as Hl. simpl in Hl. rewrite lookup_insert_eq in Hl.
  destruct (h_mem h2 !! h_next h) as [bs|] eqn:Hb; [|done]. injection Hl as Hl. split.
  - eexists _, 64, bs. split; [exact Hi|]. split; [done|]. split; [done|]. split; [done|]. by rewrite Hl.
  - intros b. rewrite Hi. intros [= <-]. split; [done|]. split; [done|]. unfold rx_pbuf, pool_pbuf. simpl tot_len. simpl len. change (pool_cap 0) with 1728. lia.
Qed.

(** The frame on the heap: a pbuf of its own for the message. *)
Lemma receive_frame g P H data (s : node (world O Y V)) :
  stack_ok g P 0 0 H s -> 0 <= lenZ data <= 1728 -> h_pool (n_heap s) <> 0 ->
  let p := h_next (n_heap s) in
  let u := u16 (lenZ data) in
  exists h2, pbuf_alloc PBUF_RAW u PBUF_POOL (n_heap s) = Some (Some p, rx_heap (n_heap s) u) /\
    pbuf_take (Some p) (Some data) u (rx_heap (n_heap s) u) = Some (ERR_OK, h2) /\
    received (n_heap s) data h2 /\ p ∉ frames (mailbox s) /\
    stack_ok g P 0 0 (p :: H) (Node h2 (n_netifs s) (n_ext s)).
Proof.
  intros Hs Hn Hp p u. assert (u = lenZ data) as Eu by (unfold u; rewrite u16_small by lia; done).
  pose proof (alloc_one (n_heap s) u Hp ltac:(lia)) as Hal. rewrite Eu in *.
  destruct (rx_take (n_heap s) data ltac:(lia)) as (h2 & Htk & Hrcv). exists h2.
  do 3 (split; [done|]). destruct Hs as [Hwi Hl Ha Hnd Hpo Hin Hapi]. split.
  - intros Hin'. destruct (live_kept _ _ _ _ _ p Hl Hin') as [(b & _ & _ & Hb & _) _].
    destruct Hl as (T & _ & [_ _ _ _ [[_ Hw _] _ _ _]]). destruct (Hw p ltac:(unfold p; lia)). congruence.
  - split; try done. destruct Hl as (T & Ht & [Hg HT Hc Hh Hs]). exists T. split; [done|]. split; [done|done|done|done|]. simpl.
    eapply sane_writes; [apply (rcv_writes _ _ _ Hrcv)|].
    destruct (sane_alloc _ _ _ _ PBUF_RAW (lenZ data) PBUF_POOL Hs ltac:(lia) (or_intror eq_refl)) as (r & h' & Hr & Hs').
    rewrite Hal in Hr. simplify_eq. eapply sane_proper; [|reflexivity|exact Hs']. simpl.
    rewrite <- !Permutation_middle. done.
Qed.

(** rpmsg_endpoint_cb on any message that fits into a pbuf and holds a type. *)
Lemma endpoint_ok g P H data i (s : node (world O Y V)) :
  stack_ok g P 0 0 H s -> ready g i -> 14 <= lenZ data <= 1728 ->
  exists r s', rpmsg_endpoint_cb data i s = Some (r, s') /\ stack_ok g P 0 0 H s' /\ undisturbed s s'.
Proof.
  intros Hs Hi Hn. unfold rpmsg_endpoint_cb. cbv zeta.
  destruct (decide (h_pool (n_heap s) = 0)) as [H0|H0].
  { destruct (stack_core (onheap (pbuf_alloc PBUF_RAW (u16 (lenZ data)) PBUF_POOL)) g P 0 0 H (fun r => option_list r ++ H) s)
      as (r & s' & Hr & Hs' & Hv); [apply polite_heap| |done|].
    { intros N D _ HL. destruct (live_heap_op N None g (D ++ H) (fun r => D ++ option_list r ++ H) (pbuf_alloc PBUF_RAW (u16 (lenZ data)) PBUF_POOL) s)
        as (r & s' & Hr & Hl); [|exact HL|exists r, s'; split; [done|by apply live_alive]].
      intros h R Hsn. destruct (sane_alloc _ _ _ _ PBUF_RAW (u16 (lenZ data)) PBUF_POOL Hsn ltac:(apply u16_bound) (or_intror eq_refl)) as (r & h' & Hr & Hs').
      exists r, h'. split; [done|]. eapply sane_proper; [|reflexivity|exact Hs']. solve_Permutation. }
    destruct (alloc_empty_pool (n_heap s) (u16 (lenZ data)) H0 ltac:(apply u16_bound)) as (h' & Ha).
    assert (r = None) as ->.
    { apply zoom_inv in Hr as (h1 & Hr & _). change (get_part s) with (n_heap s) in Hr. rewrite Ha in Hr. by injection Hr as <- _. }
    mrun Hr. exists ERR_MEM_value, s'. split; [done|]. split; [done|]. injection Hv as Ht _ Ho. split; [done|by rewrite Ho]. }
  destruct (receive_frame g P H data s Hs ltac:(lia) H0) as (h2 & Hal & Htk & Hrcv & Hnk & Hs2).
  destruct s as [h g0 x]. cbn [n_heap n_netifs n_ext] in *. set (p := h_next h) in *.
  mrun (heap_run _ _ g0 x _ _ Hal). mrun (heap_run _ _ g0 x _ _ Htk).
  pose proof (packet_cons_inv _ _ _ _ _ (rcv_packet _ _ _ Hrcv)) as (_ & Hpb & _).
  mrun (heap_run _ _ g0 x _ _ (get_pbuf_run _ _ _ Hpb)).
  destruct (rx_type h data h2 ltac:(lia) Hrcv) as (ty & Hld & _). mrun (heap_run _ _ g0 x _ _ Hld).
  assert (inbound h2 p FRAME_HEADERS) as Hrd
    by (destruct (received_inbound h data h2 ltac:(lia) Hrcv) as [Hrd Hun]; split; [by eapply readable_le|done]).
  set (s2 := Node h2 g0 x) in *.
  assert (forall sb, stack_ok g P 0 0 (p :: H) sb -> undisturbed s2 sb -> exists r s',
    ((onheap (pbuf_free (Some p));; mret tt) ≫= (fun _ => mret RPMSG_SUCCESS)) sb = Some (r, s') /\
    stack_ok g P 0 0 H s' /\ undisturbed s2 s') as Hdrop.
  { intros sb Hsb [Hu1 Hu2]. destruct (stack_free g P 0 0 H p sb Hsb) as (c & s' & Hr & Hs' & Hv).
    exists RPMSG_SUCCESS, s'. rewrite bind_assoc. mrun Hr. split; [done|]. split; [done|].
    injection Hv as Hv1 _ Hv2. split; congruence. }
  destruct ((_ =? _) || _); [|by apply Hdrop].
  rewrite bind_assoc. simpl RpmsgFreeRTOS.tcpip_input. unfold Tcpip.tcpip_input. rewrite bind_assoc.
  assert (n_netifs s2 = g) as Eg by (destruct (ok_live _ _ _ _ _ _ Hs2) as (T & _ & [? _ _ _ _]); done).
  destruct Hi as (nf & Hnf & Hlen). simpl in Eg. subst g0.
  mrun (get_netif_run h2 g x i nf Hnf). fold s2.
  assert (forall f, exists r s', (tcpip_inpkt p i f ≫= (fun r => (if negb (bool_decide (r = ERR_OK)) then onheap (pbuf_free (Some p));; mret tt else mret tt) ≫= (fun _ => mret RPMSG_SUCCESS))) s2 = Some (r, s') /\
    stack_ok g P 0 0 H s' /\ undisturbed s2 s') as Hpost.
  { intros f. destruct (tcpip_inpkt_ok g P H p i f s2 Hs2 ltac:(by exists nf) Hnk Hrd)
      as (r & s' & Hr & Hu & _ & [(-> & Hs' & _)|(-> & Hs' & _)]); mrun Hr.
    - rewrite bool_decide_eq_true_2 by done. by eexists _, s'.
    - rewrite bool_decide_eq_false_2 by done. by apply Hdrop. }
  destruct (negb _); apply Hpost.
Qed.

(** ** Calls of the rest of the program, which holds the core lock *)

(** Frames reach the stack through the mailbox, and the timer is the thread's. *)
Definition local (c : arp_call) : Prop :=
  match c with CallFrame _ _ | CallInput _ _ | CallTmr => False | _ => True end.

Lemma view_call c H : local c -> Triple.quiet own_view (call (X := world O Y V) c H).
Proof.
  assert (forall A B (m : M (node (world O Y V)) A) (f : A -> B), Triple.quiet own_view m -> Triple.quiet own_view (r ← m; mret (f r))) as Hret.
  { intros A B m f Hm. apply quiet_bind; [done|]. intros a. apply quiet_ret. }
  destruct c; try done; intros _; cbn [call].
  - apply (Hret _ _ _ (fun _ => H)), view_etharp_output.
  - apply (Hret _ _ _ (fun _ => H)), (frame_query own_view view_heap view_arp view_netif view_link).
  - apply (Hret _ _ _ (fun _ => H)). unfold etharp_gratuitous. apply quiet_bind; [apply view_netif|]. intros n.
    apply (frame_request own_view view_heap view_netif view_link).
  - apply (Hret _ _ _ (fun _ => H)), (frame_cleanup own_view view_heap view_arp).
  - apply (Hret _ _ _ (fun r => option_list r ++ H)), view_heap.
  - apply (Hret _ _ _ (fun _ => p :: H)), view_heap.
  - apply (Hret _ _ _ (fun _ => yields p H)), view_heap.
Qed.

Lemma call_ok g P c H (s : node (world O Y V)) :
  stack_ok g P 0 0 H s -> callable c H s -> local c ->
  exists H' s', call c H s = Some (H', s') /\ stack_ok g P 0 0 H' s' /\ own_view s' = own_view s.
Proof.
  intros Hs Hc Hl. destruct (stack_core (call c H) g P 0 0 H (fun r => r) s) as (H' & s' & ?); [split; [apply call_keeps_cache|by apply view_call]| |done|by exists H', s'].
  intros N D _ HL. apply (call_live N g c D H s (live_alive _ _ _ _ _ HL) Hc). by destruct c.
Qed.

(** The UDP functions. *)
Lemma socket_ok g P c H (s : node (world O Y V)) :
  stack_ok g P 0 0 H s -> valid_call (udp_of s) c ->
  exists s', onudp (make_udp_call c) s = Some (tt, s') /\ stack_ok g P 0 0 H s' /\ own_view s' = own_view s.
Proof.
  intros Hs Hc. destruct (stack_core (onudp (make_udp_call c)) g P 0 0 H (fun _ => H) s) as ([] & s' & ?); [apply polite_udpvars| |done|by exists s'].
  intros N D _ HL. destruct (live_udp_call c N None g (D ++ H) s Hc HL) as (s' & Hr & Hl). exists tt, s'. split; [done|by apply live_alive].
Qed.
Lemma sendto_ok g P pcb p dst port H (s : node (world O Y V)) :
  stack_ok g P 0 0 H s -> p ∈ H -> countable (n_heap s) p -> is_Some (udp_tab (udp_of s) !! pcb) ->
  exists e s', udp_sendto (Some pcb) (Some p) (Some dst) port s = Some (e, s') /\ stack_ok g P 0 0 H s' /\ own_view s' = own_view s.
Proof.
  intros Hs Hp Hc Hpcb. apply (stack_core (udp_sendto (Some pcb) (Some p) (Some dst) port) g P 0 0 H (fun _ => H) s); [apply polite_udp_sendto| |done].
  intros N D _ HL. apply (live_sendto N g (D ++ H) pcb p dst port (ok_wired _ _ _ _ _ _ Hs)); [apply elem_of_app; by right|].
  split; [by apply live_watch|done].
Qed.

(** Callbacks: the thread gets what the message carries. *)
Definition carried (f : callback_fn) : list positive := free_of (TCPIP_MSG_CALLBACK f).

Lemma try_callback_ok g P H f (s : node (world O Y V)) :
  stack_ok g P 0 0 (carried f ++ H) s ->
  exists r s', tcpip_try_callback f s = Some (r, s') /\ undisturbed s s' /\
    (r = ERR_OK /\ stack_ok g P 0 0 H s' /\ mailbox s' = mailbox s ++ [TCPIP_MSG_CALLBACK f] \/
     r = ERR_MEM /\ stack_ok g P 0 0 (carried f ++ H) s' /\ mailbox s' = mailbox s).
Proof.
  intros Hs. pose proof Hs as [Hwi Hl Ha Hn Hpo Hin Hapi]. unfold tcpip_try_callback, memp_malloc_api.
  rewrite bind_assoc. rewrite (bind_run _ _ _ _ _ (get_pools_run s)). cbv beta.
  destruct (api_free (pools s) =? 0) eqn:Hz; b2p.
  { rewrite bind_ret. exists ERR_MEM, s. split; [done|]. split; [done|]. by right. }
  rewrite bind_assoc. rewrite (bind_run _ _ _ _ _ (put_pools_run _ s)). rewrite bind_ret. cbn [negb].
  set (s1 := Node (n_heap s) (n_netifs s) _).
  assert (stack_ok g P 0 1 (carried f ++ H) s1) as Hs1.
  { split; unfold mailbox, pools in *; simpl in *; try done; [by eapply live_same; [..|exact Hl]|lia]. }
  destruct (trypost_run (TCPIP_MSG_CALLBACK f) s1) as (b & o & Hr & Hw & Ht & _). mrun Hr.
  assert (mailbox s1 = mailbox s) as Em by done. rewrite Em in Hw.
  destruct b.
  - rewrite bool_decide_eq_true_2 by done. exists ERR_OK, (set_os o s1). split; [done|]. split; [done|]. left.
    split; [done|]. split; [|done]. destruct Hs1 as [Hw1 Hl1 Ha1 Hn1 Hpo1 Hin1 Hapi1]. rewrite Em in *.
    split; unfold mailbox; simpl; rewrite ?Hw, ?frames_app, ?frees_app, ?apis_app; try done.
    + rewrite frees_one. simpl. rewrite app_nil_r. eapply live_perm; [|eapply live_same; [..|exact Hl1]; done].
      by rewrite <- app_assoc.
    + simpl. by rewrite app_nil_r.
    + apply Forall_app. split; [done|]. by constructor.
    + rewrite length_app. unfold pools in *. simpl in *. lia.
    + unfold pools in *. simpl in *. lia.
  - rewrite bool_decide_eq_false_2 by done. cbn [negb].
    destruct (free_api_ok g P 0 0 (carried f ++ H) (set_os o s1)) as (s' & Hr' & Hs' & Ht' & Ho'); [by apply set_os_ok|].
    mrun Hr'. exists ERR_MEM, s'. split; [done|]. split; [split; [done|by rewrite Ho']|].
    right. split; [done|]. split; [done|]. unfold mailbox. by rewrite Ho'.
Qed.

(** ** Waiting for a message *)

Definition now_of (s : node (world O Y V)) : Z := uptime (w_os (n_ext s)).

Lemma onos_run {A} (m : M O A) r o s :
  m (w_os (n_ext s)) = Some (r, o) -> onos m s = Some (r, set_os o s).
Proof. intros Hm. unfold onos, ext, zoom. simpl. by rewrite Hm. Qed.

Lemma uptime_mono o o' : ticks o <= ticks o' -> uptime o <= uptime o'.
Proof. intros H. apply Z.div_le_mono; [pose proof tick_rate; lia|lia]. Qed.
Lemma uptime_word o : u32 ((xTaskGetTickCount (msg := tcpip_msg) o).1 * 1000) / configTICK_RATE_HZ O tcpip_msg = u32 (uptime o).
Proof.
  pose proof (tick_early o). pose proof tick_rate. rewrite tick_read, u32_small by lia. unfold uptime.
  rewrite u32_small; [done|]. split; [apply Z.div_pos; lia|]. apply Z.div_lt_upper_bound; lia.
Qed.

Lemma sys_now_run (s : node (world O Y V)) :
  exists o, onos sys_now s = Some (u32 (now_of s), set_os o s) /\ waiting o = mailbox s /\
    now_of s <= uptime o <= now_of s + slack.
Proof.
  set (o := w_os (n_ext s)). exists (xTaskGetTickCount (msg := tcpip_msg) o).2. split; [|split].
  - apply onos_run. fold o. unfold sys_now, os, mbind, M_bind. unfold now_of. fold o. rewrite <- uptime_word.
    by destruct (xTaskGetTickCount o).
  - by rewrite ticks_waiting.
  - unfold now_of. fold o. pose proof (tick_pass o) as [Ht Hs]. pose proof (uptime_mono _ _ Ht). lia.
Qed.

Lemma rate_bound : 0 < portTICK_RATE_MS (O := O) (msg := tcpip_msg) <= 1000.
Proof.
  pose proof tick_rate. unfold portTICK_RATE_MS. split; [apply Z.div_str_pos; lia|]. apply Z.div_le_upper_bound; nia.
Qed.

(** Receiving, from a task or an interrupt. *)
Lemma receive_run d (o : O) :
  0 < d <= W ->
  exists r o', (if xInsideISR o then os xQueueReceiveFromISR else xQueueReceive (d / portTICK_RATE_MS (O := O) (msg := tcpip_msg))) o = Some (r, o') /\
    ticks o <= ticks o' /\ uptime o' <= uptime o + d + slack /\
    match waiting o with [] => r = None /\ waiting o' = [] | m :: ms => r = Some m /\ waiting o' = ms end.
Proof.
  intros Hd. pose proof rate_bound as Hr. destruct (xInsideISR o).
  - exists (xQueueReceiveFromISR o).1, (xQueueReceiveFromISR o).2. split; [unfold os; by destruct (xQueueReceiveFromISR o)|].
    pose proof (receive_isr_ticks o) as Ht. unfold uptime. rewrite Ht. split; [lia|]. split; [unfold slack; lia|].
    destruct (receive_isr_waiting o) as [-> ->]. by destruct (waiting o).
  - set (t := d / portTICK_RATE_MS). assert (0 <= t * portTICK_RATE_MS (O := O) (msg := tcpip_msg) <= d) as Ht.
    { unfold t. split; [apply Z.mul_nonneg_nonneg; [apply Z.div_pos; lia|lia]|]. rewrite Z.mul_comm. apply Z.mul_div_le. lia. }
    assert (t <= W) by (unfold t; apply Z.div_le_upper_bound; nia).
    assert (0 <= t) as Ht0 by (unfold t; apply Z.div_pos; lia).
    pose proof (receive_waiting t o) as Hw. destruct (waiting o) as [|m ms].
    + destruct Hw as [Hw|(o' & Hrun & Hw)]; [unfold portMAX_DELAY, W in *; lia|].
      pose proof (receive_ticks _ _ _ _ Ht0 Hrun) as [? ?]. exists None, o'. split; [done|]. split; [done|]. split; [lia|done].
    + destruct Hw as (o' & Hrun & Hw). pose proof (receive_ticks _ _ _ _ Ht0 Hrun) as [? ?].
      exists (Some m), o'. split; [done|]. split; [done|]. split; [lia|done].
Qed.

Lemma fetch_run d (s : node (world O Y V)) :
  0 < d <= W ->
  exists r o, onos (sys_arch_mbox_fetch d) s = Some (r, set_os o s) /\ now_of s <= uptime o <= now_of s + d + 3 * slack /\
    match mailbox s with
    | [] => r = (None, SYS_ARCH_TIMEOUT) /\ waiting o = []
    | m :: ms => r.1 = Some m /\ r.2 <> SYS_ARCH_TIMEOUT /\ waiting o = ms
    end.
Proof.
  intros Hd. unfold now_of, mailbox. set (o := w_os (n_ext s)).
  enough (exists r o', sys_arch_mbox_fetch d o = Some (r, o') /\ uptime o <= uptime o' <= uptime o + d + 3 * slack /\
    match waiting o with
    | [] => r = (None, SYS_ARCH_TIMEOUT) /\ waiting o' = []
    | m :: ms => r.1 = Some m /\ r.2 <> SYS_ARCH_TIMEOUT /\ waiting o' = ms
    end) as (r & o' & Hr & ?) by (exists r, o'; split; [by apply onos_run|done]).
  assert (0 < slack) as Hsl by done.
  unfold sys_arch_mbox_fetch, os. unfold mbind at 1, M_bind at 1.
  pose proof (tick_pass o) as [T1 U1]. pose proof (tick_read o) as R1. pose proof (ticks_waiting (msg := tcpip_msg) o) as W1.
  destruct (xTaskGetTickCount o) as [start o1]. simpl in T1, U1, R1, W1. subst start.
  rewrite bind_get, (proj2 (Z.eqb_neq d 0)) by lia. cbn [negb].
  destruct (receive_run d o1 Hd) as (r & o2 & Hrun & T2 & U2 & Hw). fold (@os O) in *. unfold os in Hrun. mrun Hrun. rewrite W1 in Hw.
  pose proof (uptime_mono _ _ T1). pose proof (uptime_mono _ _ T2).
  destruct (waiting o) as [|m ms].
  - destruct Hw as [-> Hw]. eexists _, o2. split; [done|]. split; [lia|done].
  - destruct Hw as [-> Hw]. unfold mbind at 1, M_bind at 1.
    pose proof (tick_pass o2) as [T3 U3]. pose proof (tick_read o2) as R3. pose proof (ticks_waiting (msg := tcpip_msg) o2) as W3.
    destruct (xTaskGetTickCount o2) as [stop o3]. simpl in T3, U3, R3, W3. subst stop.
    pose proof (uptime_mono _ _ T3). eexists _, o3. split; [done|]. split; [lia|]. split; [done|]. split; [|congruence].
    pose proof (tick_early o). pose proof (tick_early o2). pose proof rate_bound. simpl.
    rewrite (u32_small (ticks o2 - ticks o)) by lia. unfold SYS_ARCH_TIMEOUT. rewrite u32_small by nia. nia.
Qed.


(** ** The timers of the stack *)


Section Timers.
Context (g : netifs) (P : Z) (H : list positive).

(** The invariant of TimerLaws is that of the stack; what the handlers do is
    not followed here. *)
Local Instance stack_world : TimerWorld (node (world O Y V)) := {
  stack_inv := stack_ok g P 0 0 H;
  clock := now_of;
  effects _ _ _ := True;
}.

Lemma stack_later {A} (m : M (node (world O Y V)) A) cs s :
  well_behaved m -> stack_ok g P 0 0 H s ->
  exists r s', m s = Some (r, s') /\ later cs s s'.
Proof.
  intros Hw Hs. destruct (stack_behaved m g P 0 0 H s Hw Hs) as (r & s' & Hr & Hs' & Hv).
  exists r, s'. split; [done|]. injection Hv as Ht _ Ho. split; [done|]. split; [done|]. simpl. unfold now_of. rewrite Ho.
  unfold slack. split; [lia|done].
Qed.

Local Instance stack_timer_laws : TimerLaws (node (world O Y V)).
Proof.
  split; try done.
  - intros t s. simpl. by apply stack_ok_same.
  - intros s Hs. destruct (sys_now_run s) as (o & Hr & Hw & Hc). exists (set_os o s). split; [exact Hr|].
    split; [by apply set_os_ok|]. split; [done|]. split; [exact Hc|done].
  - intros c s Hs. destruct c.
    + destruct (stack_later _ [Tcp_tmr] s above_tcp_tmr Hs) as ([] & s' & ?). by exists s'.
    + destruct (stack_later _ [Ip_reass_tmr] s above_ip_reass_tmr Hs) as ([] & s' & ?). by exists s'.
    + destruct (stack_etharp_tmr g P 0 0 H s Hs) as (s' & Hr & Hs' & Hv). exists s'. split; [done|].
      injection Hv as Ht _ Ho. split; [done|]. split; [done|]. simpl. unfold now_of. rewrite Ho. unfold slack. split; [lia|done].
  - intros f a s Hs. destruct (stack_later _ [] s (above_timer f a) Hs) as ([] & s' & ?). by exists s'.
  - intros s Hs. destruct (stack_later _ [] s above_tcp_busy Hs) as (b & s' & ?). by exists b, s'.
Qed.

(** The timers are in order: the times of the pending ones are within [W] of the
    clock, and ARP's timer is one of them. *)
Record on_schedule (s : node (world O Y V)) : Prop := {
  sched_queue : exists A, repr (now_of s) A (w_timers (n_ext s)) /\ all_regular A /\
    Forall (fun e => now_of s - 60 * slack < due e) A /\
    length (of_handler (Lwip_cyclic_timer arp_timer) A) = 1%nat;
}.
Definition system_ok (s : node (world O Y V)) : Prop := stack_ok g P 0 0 H s /\ on_schedule s.

(** Looking at the timers later. *)
Lemma repr_rebase b b' A t :
  repr b A t -> b <= b' -> Forall (fun e => b' - W < due e) A -> repr b' A t.
Proof.
  intros [Hl Hf Ho H0 Hc] Hb Hd. split; try done. apply Forall_forall. intros e He.
  unfold fits in Hf. rewrite Forall_forall in Hf, Hd. specialize (Hf e He). specialize (Hd e He). lia.
Qed.

(** sys_check_timeouts when nothing is more than [61 slack] late. *)
Lemma system_check A s :
  stack_ok g P 0 0 H s -> repr (now_of s) A (w_timers (n_ext s)) -> all_regular A ->
  length (of_handler (Lwip_cyclic_timer arp_timer) A) = 1%nat ->
  exists s', sys_check_timeouts max_checks s = Some (tt, s') /\ system_ok s'.
Proof.
  intros Hs Hr Hreg Hone.
  destruct (sys_check_timeouts_refines A s ltac:(by split) Hreg) as (hs & A' & s' & Hrun & Hch & Hc & _ & [Hs' Hr'] & Hreg').
  exists s'. split; [exact Hrun|]. split; [exact Hs'|]. split. exists A'.
  pose proof (check_nothing_due _ _ _ _ _ Hch) as Hn.
  split; [|split; [exact Hreg'|split; [|by rewrite (check_keeps_cyclic _ _ _ _ _ _ Hch)]]].
  - eapply repr_rebase; [exact Hr'|apply Hc|]. eapply Forall_impl; [exact Hn|]. simpl in *. unfold slack, W in *. intros e. simpl in *. lia.
  - eapply Forall_impl; [exact Hn|]. simpl in *. unfold slack in *. intros e. simpl in *. lia.
Qed.

Lemma on_schedule_same s s' :
  w_timers (n_ext s') = w_timers (n_ext s) -> now_of s' = now_of s -> on_schedule s -> on_schedule s'.
Proof. intros Et En [HA]. split. by rewrite Et, En. Qed.

(** One turn of the thread returns and keeps the invariant. *)
Lemma thread_turn_ok s :
  system_ok s -> exists s', tcpip_thread_turn max_checks s = Some (tt, s') /\ system_ok s'.
Proof.
  intros [Hs [(A & Hr & Hreg & Hlate & Hone)]]. pose proof Hr as [_ Hfit _ _ _].
  unfold tcpip_thread_turn, mbox_fetch_turn. rewrite bind_assoc.
  destruct (sys_timeouts_sleeptime_refines A s ltac:(by split)) as (s1 & Hsl & Hc1 & _ & [Hs1 Hr1]). simpl in *.
  rewrite (bind_run _ _ _ _ _ Hsl). cbv beta. clear Hsl.
  destruct A as [|e A]; [done|]. apply Forall_cons in Hfit as [He _].
  rewrite (proj2 (Z.eqb_neq (_ `max` _) _)) by (unfold SYS_TIMEOUTS_SLEEPTIME_INFINITE, W in *; lia).
  assert (Forall (fun x => now_of s1 - 61 * slack < due x) (e :: A)) as Hlate1.
  { eapply Forall_impl; [exact Hlate|]. simpl. intros x. lia. }
  assert (forall s2, now_of s1 <= now_of s2 -> Forall (fun x => now_of s2 - 61 * slack < due x) (e :: A) ->
    w_timers (n_ext s2) = w_timers (n_ext s1) -> repr (now_of s2) (e :: A) (w_timers (n_ext s2))) as Hreb.
  { intros s2 H2 Hl2 ->. eapply repr_rebase; [exact Hr1|lia|].
    eapply Forall_impl; [exact Hl2|]. unfold slack, W. intros x. simpl. lia. }
  assert (forall s2, stack_ok g P 0 0 H s2 -> now_of s1 <= now_of s2 ->
    Forall (fun x => now_of s2 - 61 * slack < due x) (e :: A) -> w_timers (n_ext s2) = w_timers (n_ext s1) ->
    exists s', ((sys_check_timeouts max_checks;; mret None) ≫= (fun msg : option tcpip_msg =>
      match msg with Some msg => tcpip_thread_handle_msg msg | None => mret tt end)) s2 = Some (tt, s') /\ system_ok s') as Hchk.
  { intros s2 Hs2 H2 Hl2 Ht2. destruct (system_check (e :: A) s2 Hs2 (Hreb s2 H2 Hl2 Ht2) Hreg Hone) as (s' & Hr' & Hok).
    exists s'. split; [|done]. rewrite bind_assoc. by mrun Hr'. }
  destruct (Z.max 0 (due e - now_of s) =? 0) eqn:Hd; b2p.
  - apply (Hchk s1 Hs1); [lia|done|done].
  - assert (Forall (fun x => due e <= due x) (e :: A)) as Hfirst.
    { destruct Hr as [_ _ Ho _ _]. apply StronglySorted_inv in Ho as [_ Ho]. constructor; [lia|exact Ho]. }
    rewrite bind_assoc. destruct (fetch_run (Z.max 0 (due e - now_of s)) s1 ltac:(unfold W in *; lia)) as (r & o & Hf & Hc2 & Hw).
    rewrite (bind_run _ _ _ _ _ Hf). cbv beta.
    assert (now_of (set_os o s1) = uptime o) as En by done.
    assert (Forall (fun x => now_of (set_os o s1) - 61 * slack < due x) (e :: A)) as Hl2.
    { eapply Forall_impl; [exact Hfirst|]. rewrite En. unfold slack in *. intros x. simpl. lia. }
    destruct (mailbox s1) as [|m ms] eqn:Em.
    + destruct Hw as [-> Hw]. cbn [fst snd]. rewrite Z.eqb_refl.
      apply (Hchk (set_os o s1)); [|lia|done|done]. apply set_os_ok; [congruence|done].
    + destruct Hw as (Hm & Hne & Hw). rewrite (proj2 (Z.eqb_neq _ _) Hne), Hm, bind_ret.
      destruct (handle_msg_ok g P H m ms o s1 Em Hw Hs1) as (s' & Hrun & Hs' & Ht & Ho).
      exists s'. split; [exact Hrun|]. split; [done|]. split. exists (e :: A).
      assert (now_of s' = uptime o) as En' by (unfold now_of; by rewrite Ho).
      split; [|split; [done|split; [|done]]].
      * rewrite En', <- En, Ht. apply (Hreb (set_os o s1)); [lia|done|done].
      * eapply Forall_impl; [exact Hfirst|]. rewrite En'. unfold slack in *. intros x. simpl. lia.
Qed.

(** sys_timeouts_init, from no timeouts. *)
Lemma timeouts_init_ok s :
  stack_ok g P 0 0 H s -> w_timers (n_ext s) = timers_init ->
  exists s', sys_timeouts_init s = Some (tt, s') /\ system_ok s'.
Proof.
  intros Hs Ht. unfold sys_timeouts_init. simpl drop. cbn [start_timers].
  assert (at_queue (now_of s) [] s) as Hq.
  { split; [done|]. simpl. rewrite Ht. split; try done; constructor. }
  destruct (sys_timeout_refines (now_of s) [] IP_TMR_INTERVAL (Some (Lwip_cyclic_timer ip_timer)) s Hq) as (s1 & Hr1 & Hc1 & _ & Hq1);
    [unfold IP_TMR_INTERVAL, W; simpl; lia|].
  simpl in Hc1, Hq1. unfold ip_timer in Hr1. rewrite (bind_run _ _ _ _ _ Hr1). cbv beta.
  destruct (sys_timeout_refines (now_of s) _ ARP_TMR_INTERVAL (Some (Lwip_cyclic_timer arp_timer)) s1 Hq1) as (s2 & Hr2 & Hc2 & _ & Hq2);
    [unfold ARP_TMR_INTERVAL, slack, W in *; simpl; lia|].
  unfold arp_timer in Hr2. rewrite (bind_run _ _ _ _ _ Hr2). cbv beta. exists s2. split; [done|].
  destruct Hq2 as [Hs2 Hr]. split; [exact Hs2|]. split. simpl in Hc2.
  rewrite (proj2 (Z.eqb_neq _ _)) in Hr by done.
  set (A := a_insert _ _) in Hr. exists A.
  assert (A ≡ₚ [Alarm (now_of s1 + ARP_TMR_INTERVAL) (Some (Lwip_cyclic_timer arp_timer));
                Alarm (now_of s + IP_TMR_INTERVAL) (Some (Lwip_cyclic_timer ip_timer))]) as HA by apply a_insert_perm.
  assert (Forall (fun e => now_of s2 - 60 * slack < due e) A) as Hlate.
  { rewrite HA. unfold ARP_TMR_INTERVAL, IP_TMR_INTERVAL, slack in *. simpl in *. repeat constructor; simpl; lia. }
  split; [|split; [|split; [done|by rewrite HA]]].
  - eapply repr_rebase; [exact Hr|simpl in *; lia|]. eapply Forall_impl; [exact Hlate|]. unfold slack, W. intros e. simpl. lia.
  - unfold all_regular. rewrite HA. apply Forall_cons; split; [|apply Forall_cons; split; [|done]];
      intros c [= <-]; unfold arp_timer, ip_timer, IP_TMR_INTERVAL, ARP_TMR_INTERVAL; simpl; lia.
Qed.

End Timers.
End Whole.
