(* ===== verification/StackProps.v ===== *)
(** * The stack put together: the properties of the running system *)
From S2P Require Import Prelude Triple Def Pbuf PbufFacts PbufWrite PbufAlloc PbufPool PbufChain PbufRef PbufOwn Netif Node Ip4Addr.
From S2P Require Import SysArch Timeouts TimeoutsFacts TimeoutsProps Tcpip RpmsgFreeRTOS Ethernet EthernetFacts Etharp EtharpFacts EtharpFrame.
From S2P Require Import EtharpInv EtharpSend Ip4 Icmp Ip4Input Ip4Facts EtharpLive Ip4Live IcmpLive Ip4InputLive EtharpProps EtharpCache Examples.
From S2P Require Import Udp UdpFacts UdpDemux UdpLive Stack StackLive.

(** ** Runs

    What happens to the stack: the thread takes a turn, OpenAMP hands the driver
    a message, the rest of the program - holding the core lock - calls ARP, pbuf
    or UDP functions, or asks the thread to call a function. *)
Inductive event :=
  | Turn
  | Message (data : list Z) (i : positive)
  | Client (c : arp_call)
  | Socket (c : udp_call)
  | Send (pcb p : positive) (dst port : Z)
  | Later (f : callback_fn).

Section Runs.
Context {E : PbufEnv} {O Y V : Type} {F : FreeRTOS O tcpip_msg} {C : Channel Y} {HV : Held V} {U : Above (world O Y V)} {AD : Addresses}.

(** An event, with the references the rest of the program holds before and
    after: a packet handed to pbuf_free_callback is given up. *)
Definition occur (e : event) (H : list positive) : M (node (world O Y V)) (list positive) :=
  match e with
  | Turn => tcpip_thread_turn max_checks;; mret H
  | Message data i => rpmsg_endpoint_cb data i;; mret H
  | Client c => call c H
  | Socket c => onudp (make_udp_call c);; mret H
  | Send pcb p dst port => udp_sendto (Some pcb) (Some p) (Some dst) port;; mret H
  | Later f =>
      r ← tcpip_try_callback f;
      mret (match f with
        | Pbuf_free_int p => if bool_decide (r = ERR_OK) then yields p H else H
        | _ => H
        end)
  end.

(** A message fits into a pbuf of the pool and holds an Ethernet header. *)
Definition allowed (e : event) (H : list positive) (s : node (world O Y V)) : Prop :=
  match e with
  | Turn => True
  | Message data i => ready (n_netifs s) i /\ 14 <= lenZ data <= 1728
  | Client c => callable c H s /\ local c
  | Socket c => valid_call (udp_of s) c
  | Send pcb p _ _ => p ∈ H /\ countable (n_heap s) p /\ is_Some (udp_tab (udp_of s) !! pcb)
  | Later (Pbuf_free_int p) => p ∈ H
  | Later _ => True
  end.

Definition event_step (s s' : list positive * node (world O Y V)) : Prop :=
  exists e, allowed e s.1 s.2 /\ occur e s.1 s.2 = Some (s'.1, s'.2).

Context {FL : FreeRTOSLaws O tcpip_msg}.

(** The state sys_timeouts_init finds. *)
Record boot (s : node (world O Y V)) : Prop := {
  boot_wired : wired (n_netifs s);
  boot_fresh : fresh s;
  boot_timers : w_timers (n_ext s) = timers_init;
  boot_pools : pools s = pools_init;
  boot_mailbox : mailbox s = [];
}.

Context {AL : AboveLaws} {UL : UptimeLaws O}.

Lemma boot_ok (s : node (world O Y V)) : boot s -> stack_ok (n_netifs s) (h_pool (n_heap s)) 0 0 [] s.
Proof.
  intros [Hwi Hf _ Hp Hm]. split; rewrite ?Hp, ?Hm; try done.
  - rewrite (fresh_held _ Hf). by apply fresh_live.
  - rewrite (fresh_arp _ Hf). apply arp_init_ok.
  - constructor.
Qed.

Lemma stack_perm g P H H' (s : node (world O Y V)) : H ≡ₚ H' -> stack_ok g P 0 0 H s -> stack_ok g P 0 0 H' s.
Proof. intros Hp [Hw Hl Ha Hn Hpo Hi Hapi]. split; try done. eapply live_perm; [by rewrite <- Hp|done]. Qed.

Lemma schedule_kept g P H H' (s s' : node (world O Y V)) :
  undisturbed s s' -> system_ok g P H s -> stack_ok g P 0 0 H' s' -> system_ok g P H' s'.
Proof.
  intros [Et Eo] [_ Hsch] Hs'. split; [done|]. eapply on_schedule_same; [done| |exact Hsch].
  unfold now_of, uptime. by rewrite Eo.
Qed.

Lemma own_undisturbed (s s' : node (world O Y V)) : own_view s' = own_view s -> undisturbed s s'.
Proof. intros Hv. injection Hv as Ht _ Ho. split; [done|by rewrite Ho]. Qed.

Lemma later_ok g P H f (s : node (world O Y V)) :
  system_ok g P H s -> allowed (Later f) H s ->
  exists H' s', occur (Later f) H s = Some (H', s') /\ system_ok g P H' s'.
Proof.
  intros Hok Hal. pose proof Hok as [Hs _]. cbn [occur].
  set (H1 := match f with Pbuf_free_int p => yields p H | _ => H end).
  assert (H ≡ₚ carried f ++ H1) as Hp by (destruct f; try done; by apply give_up_Permutation).
  destruct (try_callback_ok g P H1 f s (stack_perm g P H _ s Hp Hs)) as (r & s' & Hr & Hu & [(-> & Hs' & _)|(-> & Hs' & _)]);
    eexists _, s'; mrun Hr; (split; [reflexivity|]); eapply schedule_kept; try done.
  destruct f; (eapply stack_perm; [symmetry; exact Hp|done]).
Qed.

(** Every allowed event takes place, and the system is in order after it. *)
Lemma event_ok g P e H (s : node (world O Y V)) :
  system_ok g P H s -> n_netifs s = g -> allowed e H s ->
  exists H' s', occur e H s = Some (H', s') /\ system_ok g P H' s'.
Proof.
  intros Hok Eg. pose proof Hok as [Hs _]. destruct e as [|data i|c|c|pcb p dst port|f]; [| | | | |by apply later_ok]; cbn [allowed occur]; rewrite ?Eg.
  - intros _. destruct (thread_turn_ok g P H s Hok) as (s' & Hr & Hs'). exists H, s'. by mrun Hr.
  - intros [Hi Hn]. destruct (endpoint_ok g P H data i s Hs Hi Hn) as (r & s' & Hr & Hs' & Hu). exists H, s'. mrun Hr.
    split; [done|]. by eapply schedule_kept.
  - intros [Hc Hl]. destruct (call_ok g P c H s Hs Hc Hl) as (H' & s' & Hr & Hs' & Hv). exists H', s'.
    split; [done|]. eapply schedule_kept; [by apply own_undisturbed|done|done].
  - intros Hc. destruct (socket_ok g P c H s Hs Hc) as (s' & Hr & Hs' & Hv). exists H, s'. mrun Hr.
    split; [done|]. eapply schedule_kept; [by apply own_undisturbed|done|done].
  - intros (Hp & Hco & Hpcb). destruct (sendto_ok g P pcb p dst port H s Hs Hp Hco Hpcb) as (e & s' & Hr & Hs' & Hv). exists H, s'. mrun Hr.
    split; [done|]. eapply schedule_kept; [by apply own_undisturbed|done|done].
Qed.


(** A packet received with nothing in the mailbox. *)
Lemma receive_alone g P H data (s : node (world O Y V)) :
  stack_ok g P 0 0 H s -> mailbox s = [] -> (lenZ data <=? 1728) = true -> (h_pool (n_heap s) =? 0) = false ->
  let n := u16 (lenZ data) in
  exists h2, pbuf_take (Some (h_next (n_heap s))) (Some data) n (rx_heap (n_heap s) n) = Some (ERR_OK, h2) /\
    live (Budget P [] (held (n_ext s))) None g (h_next (n_heap s) :: H) (Node h2 (n_netifs s) (n_ext s)).
Proof.
  intros Hs Hm Hn Hp n. b2p. destruct (receive_frame g P H data s Hs ltac:(lia) Hp) as (h2 & _ & Htk & _ & _ & [_ Hl _ _ _ _ _]).
  exists h2. split; [done|].
  change (mailbox (Node h2 (n_netifs s) (n_ext s))) with (mailbox s) in Hl. by rewrite Hm in Hl.
Qed.

End Runs.

(** ** A system to run

    FreeRTOS at 100 Hz, with a mailbox of 200 and a tick count that only moves
    while a task waits; a channel that takes every message; transport layers that
    want no packet. *)
Record rtos := Rtos { r_queue : list tcpip_msg; r_ticks : Z }.
Definition demo_ticks (o : rtos) : Z := Z.min (Z.max 0 (r_ticks o)) 4294967.
Definition demo_send (m : tcpip_msg) (o : rtos) : bool * rtos :=
  if bool_decide (length (r_queue o) < 200)%nat then (true, Rtos (r_queue o ++ [m]) (r_ticks o)) else (false, o).

#[export] Instance demo_rtos : FreeRTOS rtos tcpip_msg := {
  configTICK_RATE_HZ := 100;
  xTaskGetTickCount o := (demo_ticks o, o);
  xInsideISR _ := false;
  xQueueSend := demo_send;
  xQueueSendFromISR := demo_send;
  xQueueSendToBack m o := if (demo_send m o).1 then Some (demo_send m o).2 else None;
  xQueueReceive t o :=
    match r_queue o with
    | m :: ms => Some (Some m, Rtos ms (r_ticks o))
    | [] => if t =? portMAX_DELAY then None else Some (None, Rtos [] (demo_ticks o + t))
    end;
  xQueueReceiveFromISR o := (head (r_queue o), Rtos (tail (r_queue o)) (r_ticks o));
}.

Lemma demo_send_waiting m o : r_queue (demo_send m o).2 = if (demo_send m o).1 then r_queue o ++ [m] else r_queue o.
Proof. unfold demo_send. by case_bool_decide. Qed.
Lemma demo_send_room m o : (demo_send m o).1 = bool_decide (length (r_queue o) < 200)%nat.
Proof. unfold demo_send. by case_bool_decide. Qed.

#[export] Program Instance demo_rtos_laws : FreeRTOSLaws rtos tcpip_msg := {
  waiting := r_queue;
  q_length := 200;
}.
Solve Obligations with (done || (intros; apply demo_send_waiting) || (intros; apply demo_send_room)).
Next Obligation.
  intros m o o' Hr. simpl in Hr. pose proof (demo_send_waiting m o) as Hw. destruct (demo_send m o) as [[|] o1]; by simplify_eq/=.
Qed.
Next Obligation.
  intros t o. simpl. destruct (r_queue o) as [|m ms]; [|by eexists].
  destruct (t =? portMAX_DELAY) eqn:Ht; b2p; [by left|right; by eexists].
Qed.

#[export] Program Instance demo_uptime : UptimeLaws rtos := { ticks := demo_ticks }.
Solve Obligations with (done || (intros; simpl; unfold demo_send; by case_bool_decide)).
Next Obligation. unfold demo_ticks. lia. Qed.
Next Obligation. intros o. simpl. unfold slack. lia. Qed.
Next Obligation.
  intros t o r o' Ht Hr. simpl in *. change portTICK_RATE_MS with 10. unfold slack.
  assert (forall x y, demo_ticks x <= demo_ticks y -> demo_ticks y <= demo_ticks x + t ->
    demo_ticks x <= demo_ticks y /\ demo_ticks y * 1000 / 100 <= demo_ticks x * 1000 / 100 + t * 10 + 2 ^ 24) as Hle by (intros; ulia).
  destruct (r_queue o); [destruct (t =? portMAX_DELAY)|]; simplify_eq/=; apply Hle; unfold demo_ticks; simpl; lia.
Qed.

#[export] Instance demo_channel : Channel (list (list Z)) := {
  ch_send d y := (lenZ d, y ++ [d]);
  ch_create_ept _ y := (0, y);
  ch_malloc y := (true, y);
}.
Notation demo_world := (world rtos (list (list Z)) unit).
#[export] Instance demo_addresses : Addresses := p_off.
#[export] Instance demo_held : Held unit := { refs_above _ := []; order_above _ := True }.
#[export] Instance demo_fragments : IpFragments demo_world := {
  ip4_frag _ _ _ := mret ERR_OK;
  ip4_reass p := onheap (pbuf_free (Some p));; mret None;
}.
(** The receive functions of the users: function 0 gives the datagram up, function
    1 sends it back. *)
Definition demo_rest (user : UdpUser demo_world) : Above demo_world := {|
  above_udp_user := user;
  up_tcp_input p _ := onheap (pbuf_free (Some p));; mret tt;
  up_lwip_init := mret tt;
  up_ip_reass_tmr := mret tt;
  up_tcp_tmr := mret tt;
  up_tcp_busy := mret false;
  up_timer _ _ := mret tt;
  up_callback _ _ := mret tt;
  up_mem_free _ := mret tt;
|}.
Definition demo_sink : UdpUser demo_world := fun _ _ _ p _ _ => onheap (pbuf_free (Some p));; mret tt.
Definition demo_echo : UdpUser demo_world := fun f arg i p src sport =>
  (if f =? 1 then udp_sendto (LL := stack_link (U := demo_rest demo_sink)) (Some i) (Some p) (Some src) sport;; mret tt else mret tt);;
  onheap (pbuf_free (Some p));; mret tt.
#[export] Instance demo_above : Above demo_world := demo_rest demo_echo.

Lemma idle_polite {A} (a : A) : polite (mret a : M (node demo_world) A).
Proof. split; [by intros s r s' Hs [= _ <-]|apply quiet_ret]. Qed.
Lemma idle_behaved {A} (a : A) : well_behaved (mret a : M (node demo_world) A).
Proof. split; [|apply idle_polite]. intros N g H _. apply total_ret. intros s. apply live_alive. Qed.

(** A layer that gives up the packet. *)
Lemma sink_polite {A} p (a : A) : polite (onheap (pbuf_free (Some p));; mret a : M (node demo_world) A).
Proof.
  split; [|apply quiet_bind; [apply view_heap|intros c; apply quiet_ret]].
  apply (triple_mret _ (fun _ => a)), triple_quiet, quiet_heap.
Qed.
Lemma sink_live {A} N g H p (a : A) :
  total (fun s : node demo_world => s) (live N None g (p :: H)) (onheap (pbuf_free (Some p));; mret a) (fun _ => alive N None g H).
Proof. eapply total_skip; [apply live_free|]. intros c. apply total_ret. intros s. apply live_alive. Qed.

#[export] Instance demo_live_fragments : LiveFragments demo_world.
Proof.
  split.
  - intros. apply total_ret. intros s Hs. by eapply live_alive, live_weaken.
  - intros N g H p _. eapply total_pre with (live N None g (p :: H)); [|by intros s [? _]].
    eapply total_skip; [apply live_free|]. intros c. apply total_ret. intros s Hs. split; [by apply live_alive|done].
Qed.
Section Echo.
#[local] Instance demo_rest_laws : AboveLaws (U := demo_rest demo_sink).
Proof.
  split; intros; first [exact _ | apply idle_behaved | apply idle_polite | apply sink_polite | idtac].
  - intros N g H f a i p src sport _ _. eapply total_pre; [apply sink_live|]. intros s [? _]. by eapply live_weaken.
  - eapply total_pre; [apply sink_live|apply here_live].
Qed.
Lemma echo_polite f a i p src sport : polite (demo_echo f a i p src sport).
Proof.
  unfold demo_echo. apply polite_bind; [|intros; apply sink_polite]. destruct (f =? 1); [|apply idle_polite].
  apply polite_bind; [apply (polite_udp_sendto (U := demo_rest demo_sink))|intros; apply idle_polite].
Qed.
Lemma echo_live : LiveUser (UU := demo_echo) demo_world.
Proof.
  intros N g H f a i p src sport Hw Hp. unfold udp_recv_call, demo_echo.
  eapply total_skip with (R := alive N None g (p :: H)).
  - destruct (f =? 1).
    + eapply total_skip; [apply (live_sendto (LL := stack_link (U := demo_rest demo_sink))); [done|by left]|]. intros e. by apply total_ret.
    + apply total_ret. intros s [Hs _]. eapply live_alive, live_weaken, Hs.
  - intros []. apply alive_elim. intros U. eapply total_post; [apply sink_live|]. intros r s. apply alive_others.
Qed.
End Echo.
#[export] Instance demo_above_laws : AboveLaws.
Proof.
  split; intros; first [exact _ | exact echo_live | apply idle_behaved | apply idle_polite | apply sink_polite | apply echo_polite | idtac].
  eapply total_pre; [apply sink_live|apply here_live].
Qed.

(** A host asks for our address; a message, and the turn that answers it. *)
Definition host_mac : list Z := [2; 0; 0; 0; 0; 1].
Definition our_mac : list Z := [0xAA; 0xBB; 0xCC; 0xDD; 0xEE; 0xFE].
Definition demo_request : list Z :=
  eth_header ethbroadcast host_mac ETHTYPE_ARP ++
  arp_packet ARP_REQUEST host_mac (IP4_ADDR 10 43 0 1) ethzero (IP4_ADDR 10 43 0 3).
Definition demo_reply : list Z :=
  eth_header host_mac our_mac ETHTYPE_ARP ++
  arp_packet ARP_REPLY our_mac (IP4_ADDR 10 43 0 3) host_mac (IP4_ADDR 10 43 0 1).

Definition demo_boot : node demo_world := Node empty_heap lab_netifs (World arp_init (IpState 0 ip_data_init) udp_state_init tt timers_init pools_init (Rtos [] 0) []).
Lemma lab_wired : wired lab_netifs.
Proof. split; [by repeat constructor; exists lab_netif|]. intros i [= <-]. by exists lab_netif. Qed.
Lemma demo_booted : boot demo_boot.
Proof. split; [exact lab_wired|split; [exact empty_heap_wf|reflexivity|reflexivity|reflexivity|split; [apply udp_init_ok|exact I]]|reflexivity..]. Qed.
Definition happens (e : event) (H : list positive) (s : node demo_world) : node demo_world := final (occur e H s) s.
Definition demo1 : node demo_world := final (sys_timeouts_init demo_boot) demo_boot.
Definition demo2 : node demo_world := happens (Message demo_request 1) [] demo1.
Definition demo3 : node demo_world := happens Turn [] demo2.


(** ** The ARP properties, in this system *)

Definition demo_system (H : list positive) (s : node demo_world) : Prop := system_ok lab_netifs 256 H s.

Lemma demo_ok : demo_system [] demo1 /\ demo_system [] demo3.
Proof.
  destruct (timeouts_init_ok lab_netifs 256 [] demo_boot) as (s1 & Hr1 & Hok1).
  { apply (boot_ok demo_boot), demo_booted. }
  { done. }
  assert (s1 = demo1) as -> by (unfold demo1; by rewrite Hr1).
  destruct (event_ok _ _ (Message demo_request 1) [] demo1 Hok1 eq_refl) as (H2 & s2 & Hr2 & Hok2).
  { split; [by exists lab_netif|by vm_compute]. }
  assert (H2 = [] /\ s2 = demo2) as [-> ->] by (vm_compute in Hr2; by simplify_eq).
  destruct (event_ok _ _ Turn [] demo2 Hok2 eq_refl I) as (H3 & s3 & Hr3 & Hok3).
  assert (H3 = [] /\ s3 = demo3) as [-> ->] by (vm_compute in Hr3; by simplify_eq).
  split; [exact Hok1|exact Hok3].
Qed.
Lemma demo_live : live (Budget 256 [] []) None lab_netifs [] demo3 /\ arp_ok (arp_of demo3).
Proof. destruct demo_ok as [_ [[_ Hl Ha _ _ _ _] _]]. split; [exact Hl|exact Ha]. Qed.

Definition host_ip : Z := IP4_ADDR 10 43 0 1.

(** The host that was answered is in the cache, as entry 0. *)
Lemma find_entry_least_loss_witness :
  exists r s', etharp_find_entry (Some host_ip) ETHARP_FLAG_TRY_HARD (Some 1%positive) demo3 = Some (r, s') /\
    looked_up host_ip ETHARP_FLAG_TRY_HARD 1 (arp_table (arp_of demo3)) r (arp_table (arp_of s')) /\ r = Some 0.
Proof.
  destruct (find_entry_least_loss (Budget 256 [] []) lab_netifs [] demo3 host_ip ETHARP_FLAG_TRY_HARD 1) as (r & s' & Hr & _ & _ & Hl).
  { exact (proj1 demo_live). } { exact (proj2 demo_live). } { exists lab_netif. split; reflexivity. }
  exists r, s'. split; [exact Hr|]. split; [exact Hl|]. vm_compute in Hr. congruence.
Defined.

(** A second host is learned next to it. *)
Definition host2_ip : Z := IP4_ADDR 10 43 0 7.
Lemma arp_learns_witness :
  exists r s', etharp_update_arp_entry 1 host2_ip [2; 0; 0; 0; 0; 7] ETHARP_FLAG_TRY_HARD demo3 = Some (r, s') /\ r = ERR_OK /\
    etharp_find_addr (Some 1%positive) host2_ip s' = Some (Some (1, [2; 0; 0; 0; 0; 7], host2_ip), s').
Proof.
  destruct (arp_learns (Budget 256 [] []) lab_netifs [] demo3 1 lab_netif host2_ip ETHARP_FLAG_TRY_HARD [2; 0; 0; 0; 0; 7])
    as (r & s' & Hr & _ & _ & Hl).
  { exact (proj1 demo_live). } { exact (proj2 demo_live). } { reflexivity. } { reflexivity. } { reflexivity. }
  exists r, s'. split; [exact Hr|]. change (unusable host2_ip lab_netif) with false in Hl. cbv zeta iota in Hl.
  assert (r = ERR_OK) as -> by (vm_compute in Hr; congruence).
  destruct Hl as [[He _]|(_ & i & T1 & e & _ & _ & _ & Hf)]; [discriminate He|]. split; [reflexivity|].
  assert (i = 1) as ->; [|exact Hf]. revert Hf. vm_compute in Hr. injection Hr as <-. vm_compute. congruence.
Defined.

Lemma output_next_hop_witness :
  find_stable (arp_table (arp_of demo3)) 0 1 host_ip = Some 0 /\
  etharp_output 1 1 host_ip demo3 = etharp_output_to_arp_index 1 1 0 (with_cached 0 demo3).
Proof.
  split; [vm_compute; reflexivity|]. rewrite (output_next_hop demo3 1 1 lab_netif host_ip).
  - change (next_hop lab_netif host_ip) with (Via host_ip). cbv iota.
    change (find_stable _ 0 1 host_ip) with (Some 0). reflexivity.
  - exact (proj2 demo_live).
  - reflexivity.
  - vm_compute. split; [discriminate|reflexivity].
Defined.

(** The request once more, its Ethernet header removed. *)
Definition demo_arp : list Z := arp_packet ARP_REQUEST host_mac host_ip ethzero (IP4_ADDR 10 43 0 3).
Definition demo_asked : node demo_world :=
  Node (final (pbuf_take (Some (h_next (n_heap demo3))) (Some demo_arp) 28 (rx_heap (n_heap demo3) 28)) (n_heap demo3)) (n_netifs demo3) (n_ext demo3).
Lemma demo_asked_ok : live (Budget 256 [] []) None lab_netifs [h_next (n_heap demo3)] demo_asked.
Proof.
  destruct demo_ok as [_ [Hs _]].
  destruct (receive_alone lab_netifs 256 [] demo_arp demo3 Hs) as (h2 & Htk & Hl); [by vm_compute..|].
  unfold demo_asked. change (u16 _) with 28 in Htk. rewrite Htk. exact Hl.
Qed.
Lemma demo_asked_arp : arp_ok (arp_of demo_asked).
Proof. pose proof (proj2 demo_live) as Ha. unfold arp_of, demo_asked in *. cbn [n_ext]. exact Ha. Qed.
Lemma arp_request_answered_witness :
  exists s', etharp_input (h_next (n_heap demo3)) 1 demo_asked = Some (tt, s') /\
    w_link (n_ext s') = [demo_reply; demo_reply].
Proof.
  set (b := rx_pbuf (n_heap demo3) 28).
  destruct (arp_request_answered (Budget 256 [] []) lab_netifs [] demo_asked (h_next (n_heap demo3)) 1 b lab_netif host_mac ethzero host_ip)
    as (r1 & s1 & s' & Hup & Hr & _ & Hsent).
  { exact demo_asked_ok. } { exact demo_asked_arp. } { reflexivity. } { reflexivity. } { vm_compute. split; reflexivity. }
  { reflexivity. } { reflexivity. } { vm_compute. split; [discriminate|reflexivity]. }
  { eexists b, _, _. split; [vm_compute; reflexivity|]. split; [reflexivity|]. split; [vm_compute; reflexivity|].
    vm_compute. split; discriminate. }
  { vm_compute. reflexivity. } { vm_compute. reflexivity. }
  exists s'. split; [exact Hr|]. vm_compute in Hup. injection Hup as _ <-. rewrite Hsent by (vm_compute; reflexivity).
  vm_compute. reflexivity.
Defined.
