(* ===== verification/Ping.v ===== *)
(** * A ping in the system of StackProps, and the theorems about IP and ICMP there *)
From S2P Require Import Prelude Triple Def Pbuf PbufFacts PbufWrite PbufAlloc PbufPool PbufChain PbufRef PbufOwn PbufEdit Netif Node Ip4Addr InetChksum.
From S2P Require Import SysArch Timeouts Tcpip RpmsgFreeRTOS Ethernet EthernetFacts Etharp EtharpFacts EtharpSend EtharpLive EtharpProps EtharpCache Ip4 Icmp Ip4Input Ip4Facts.
From S2P Require Import Ip4Header Ip4Live Ip4InputLive IcmpLive IcmpReply Ip4Props IcmpProps Examples Stack StackLive StackProps.

Definition our_ip : Z := IP4_ADDR 10 43 0 3.
Definition ping_header : list Z :=
  ip_header 0 32 7 64 IP_PROTO_ICMP (header_chksum 32 64 0 IP_PROTO_ICMP 7 host_ip our_ip) host_ip our_ip.
Definition ping_message : list Z := [ICMP_ECHO; 0; 162; 107; 0; 1; 0; 1; 84; 144; 1; 2].
Definition demo_ping : list Z := eth_header our_mac host_mac ETHTYPE_IP ++ ping_header ++ ping_message.
Definition demo_pong : list Z :=
  eth_header host_mac our_mac ETHTYPE_IP ++
  (take 8 ping_header ++ [255; IP_PROTO_ICMP; 167; 124] ++ st32 our_ip ++ st32 host_ip) ++ [ICMP_ER; 0; 170; 107; 0; 1; 0; 1; 84; 144; 1; 2].

(** The host, known to ARP, pings us; one turn of the thread answers. *)
Definition demo4 : node demo_world := happens (Message demo_ping 1) [] demo3.
Definition demo5 : node demo_world := happens Turn [] demo4.
Example ping_pong : mailbox demo4 = [TCPIP_MSG_INPKT 3 1 Ethernet_input] /\ w_link (n_ext demo5) = [demo_reply; demo_pong].
Proof. split; vm_compute; reflexivity. Qed.

(** The packet as ip4_input gets it: the Ethernet header is removed. *)
Definition ping_pbuf : positive := h_next (n_heap demo3).
Definition pinged_heap : heap :=
  final (pbuf_take (Some ping_pbuf) (Some (ping_header ++ ping_message)) 32 (rx_heap (n_heap demo3) 32)) (n_heap demo3).
Definition demo_pinged : node demo_world := Node pinged_heap lab_netifs (n_ext demo3).
Definition ping_block : list Z := default [] (h_mem pinged_heap !! ping_pbuf).

Lemma demo_pinged_ok : live (Budget 256 [] []) None lab_netifs [ping_pbuf] demo_pinged.
Proof.
  destruct demo_ok as [_ [Hs _]].
  destruct (receive_alone lab_netifs 256 [] (ping_header ++ ping_message) demo3 Hs) as (h2 & Htk & Hl); [by vm_compute..|].
  assert (n_netifs demo3 = lab_netifs) as E by (vm_compute; reflexivity). rewrite E in Hl.
  unfold demo_pinged, pinged_heap. change (u16 _) with 32 in Htk. unfold ping_pbuf. rewrite Htk. exact Hl.
Qed.

Lemma all_bytes h : bool_decide (map_Forall (fun _ bs => forallb (fun b => (0 <=? b) && (b <? 256)) bs = true) (h_mem h)) = true -> mem_ok h.
Proof. intros Hb%bool_decide_eq_true i bs Hi. apply bytes_ok_dec. exact (Hb i bs Hi). Qed.
Lemma demo_pinged_bytes : mem_ok pinged_heap.
Proof. apply all_bytes. vm_compute. reflexivity. Qed.


Lemma ip4_route_choice_witness :
  ip4_route host_ip demo3 = Some (Some 1%positive, demo3) /\ routed lab_netifs host_ip (Some 1%positive).
Proof.
  assert (n_netifs demo3 = lab_netifs) as E by (vm_compute; reflexivity).
  destruct (ip4_route_choice demo3 host_ip) as (r & Hr & Hc); rewrite ?E in *.
  { apply (proj2 (Forall_singleton _ _)). exists lab_netif. vm_compute. reflexivity. }
  { intros d Hd. exists lab_netif. injection Hd as <-. reflexivity. }
  assert (r = Some 1%positive) as ->; [|split; [exact Hr|exact Hc]].
  assert (ip4_route host_ip demo3 = Some (Some 1%positive, demo3)) as Hv by (vm_compute; reflexivity). congruence.
Defined.

(** A datagram to send: 12 bytes, with room for the headers. *)
Definition send_heap : heap := final (pbuf_alloc PBUF_IP 12 PBUF_RAM (n_heap demo3)) (n_heap demo3).
Definition send_pbuf : pbuf := ram_pbuf ping_pbuf PBUF_IP 12.
Definition send_block : list Z := default [] (h_mem send_heap !! ping_pbuf).
Lemma ip4_output_header_witness :
  exists h' x' b' c,
    ip4_output_if_src ping_pbuf (Some our_ip) (Some host_ip) 255 0 IP_PROTO_ICMP 1 (Node send_heap lab_netifs (n_ext demo3)) =
      netif_output 1 ping_pbuf host_ip (Node h' lab_netifs x') /\
    pdata h' b' = ip_header 0 32 0 255 IP_PROTO_ICMP c our_ip host_ip ++ pdata send_heap send_pbuf /\
    inet_chksum 0 (ip_header 0 32 0 255 IP_PROTO_ICMP c our_ip host_ip) = 0.
Proof.
  destruct (ip4_output_header send_heap lab_netifs (n_ext demo3) ping_pbuf send_pbuf 128 send_block 1 lab_netif 255 0 IP_PROTO_ICMP (Some our_ip) host_ip)
    as [_ Hs].
  { vm_compute. reflexivity. } { vm_compute. reflexivity. } { vm_compute. reflexivity. } { reflexivity. }
  { vm_compute. discriminate. } { vm_compute. discriminate. } { vm_compute. discriminate. } { vm_compute. discriminate. }
  { vm_compute. reflexivity. } { split; vm_compute; split; (discriminate || reflexivity). }
  destruct Hs as (h' & x' & b' & c & _ & Hd & _ & _ & Hc & _ & Hr); [vm_compute; discriminate|].
  exists h', x', b', c. split; [exact Hr|]. split; [exact Hd|exact (Hc 0)].
Defined.

(** The echo request as icmp_input gets it. *)
Definition echo_heap : heap := patch ping_pbuf (move_payload (rx_pbuf (n_heap demo3) 32) ping_pbuf 64 (- 20)) pinged_heap.
Definition echo_pbuf : pbuf := move_payload (rx_pbuf (n_heap demo3) 32) ping_pbuf 64 (- 20).
Definition echo_world : demo_world :=
  upd_ip (fun _ => IpData (Some 1%positive) (Some 1%positive) (Some (Ptr ping_pbuf 64)) 20 host_ip our_ip) (n_ext demo3).
Definition echo_before : list Z := take 64 ping_block.
Definition echo_after : list Z := drop 96 ping_block.

Lemma echo_single : single echo_heap ping_pbuf echo_pbuf (echo_before ++ ping_header) ping_message echo_after.
Proof. split; vm_compute; first [reflexivity | discriminate | split; [reflexivity|split; discriminate]]. Qed.

Lemma patch_wf p b h : heap_wf h -> is_Some (h_pbufs h !! p) -> heap_wf (patch p b h).
Proof.
  intros Hw [c Hp] i Hi. destruct (Hw i Hi) as [Hn Hm]. split; [|done]. simpl. rewrite lookup_insert_ne; [done|]. intros ->. congruence.
Qed.
Lemma live_wf N w g H (s : node demo_world) : live N w g H s -> heap_wf (n_heap s).
Proof. intros (T & _ & Hraw). by destruct (sane_good _ _ _ _ (raw_heap _ _ _ _ _ _ Hraw)). Qed.
Lemma echo_wf : heap_wf echo_heap.
Proof.
  apply patch_wf; [exact (live_wf _ _ _ _ _ demo_pinged_ok)|].
  exists (rx_pbuf (n_heap demo3) 32). vm_compute. reflexivity.
Qed.

Lemma echo_answered_witness :
  exists q h' b' pre' post' c,
    single h' q b' pre' (echo_reply_header ping_header our_ip host_ip c ++ echo_reply_data ping_message) post' /\
    icmp_input ping_pbuf 1 (Node echo_heap lab_netifs echo_world) =
      (ip4_transmit q host_ip 1;; onheap (pbuf_free (Some q));; mret tt) (Node h' lab_netifs echo_world).
Proof.
  destruct (echo_answered echo_heap lab_netifs echo_world ping_pbuf 1 echo_pbuf echo_before ping_header ping_message echo_after 1 lab_netif lab_netif) as [Ha _].
  { exact echo_single. } { apply all_bytes. vm_compute. reflexivity. } { exact echo_wf. } { reflexivity. } { vm_compute. reflexivity. }
  { vm_compute. discriminate. } { vm_compute. reflexivity. } { reflexivity. } { reflexivity. } { reflexivity. }
  { vm_compute. split; (discriminate || reflexivity). } { vm_compute. split; (discriminate || reflexivity). }
  destruct Ha as (q & h' & b' & pre' & post' & c & Hs & _ & Hr); [split; vm_compute; (reflexivity || discriminate || (split; reflexivity))|vm_compute; reflexivity|].
  exists q, h', b', pre', post', c. split; [exact Hs|exact Hr].
Defined.
