(* ===== verification/UdpEcho.v ===== *)
(** * An echo service in the system of StackProps, and the theorems about UDP there *)
From S2P Require Import Prelude Triple Def Pbuf PbufFacts PbufWrite PbufAlloc PbufPool PbufChain PbufRef PbufOwn PbufEdit Netif Node Ip4Addr InetChksum.
From S2P Require Import SysArch Timeouts Tcpip RpmsgFreeRTOS Ethernet EthernetFacts Etharp EtharpFacts EtharpSend EtharpLive EtharpProps EtharpCache Ip4 Icmp Ip4Input Ip4Facts.
From S2P Require Import Ip4Header Ip4Live Ip4InputLive IcmpLive IcmpReply Udp UdpFacts UdpDemux UdpHeader UdpSend UdpLive UdpProps Examples Stack StackLive StackProps Ping.

(** ** A datagram comes in and goes back *)
Definition echo_data : list Z := [1; 2; 3; 4].
Definition echo_in : list Z :=
  eth_header our_mac host_mac ETHTYPE_IP ++
  ip_header 0 32 9 64 IP_PROTO_UDP (header_chksum 32 64 0 IP_PROTO_UDP 9 host_ip our_ip) host_ip our_ip ++
  udp_header 5000 7 12 0 ++ echo_data.
Definition echo_out : list Z :=
  eth_header host_mac our_mac ETHTYPE_IP ++
  ip_header 0 32 0 255 IP_PROTO_UDP (header_chksum 32 255 0 IP_PROTO_UDP 0 our_ip host_ip) our_ip host_ip ++
  udp_header 7 5000 12 (udp_chksum our_ip host_ip 7 5000 12 echo_data) ++ echo_data.

(** The host is known to ARP; a socket on port 7 sends back what it gets. *)
Definition echo1 : node demo_world := happens (Socket New) [] demo3.
Definition echo2 : node demo_world := happens (Socket (Bind 1 None 7)) [] echo1.
Definition echo3 : node demo_world := happens (Socket (Recv 1 (Some 1) 0)) [] echo2.
Definition echo4 : node demo_world := happens (Message echo_in 1) [] echo3.
Definition echo5 : node demo_world := happens Turn [] echo4.
Example echo_service : w_link (n_ext echo5) = [demo_reply; echo_out] /\ frames (mailbox echo5) = [] /\ pool_total (n_heap echo5) = 256.
Proof. split; [|split]; vm_compute; reflexivity. Qed.
(** Nobody listens on port 9: the answer is ICMP's. *)
Definition echo_closed : list Z := take 36 echo_in ++ [0; 9] ++ drop 38 echo_in.
Definition echo6 : node demo_world := happens Turn [] (happens (Message echo_closed 1) [] echo3).
Example port_unreachable : slice (default [] (last (w_link (n_ext echo6)))) 34 2 = [ICMP_DUR; ICMP_DUR_PORT].
Proof. vm_compute. reflexivity. Qed.

(** ** UDP's pcbs after some calls *)
Definition after_call (c : udp_call) (s : udp_state) : udp_state := final (make_udp_call c s) s.
Lemma step_kept s s' : udp_ok s /\ exclusive s -> udp_step s s' -> udp_ok s' /\ exclusive s'.
Proof.
  intros [Hs He] (c & Hc & Hr). destruct (udp_call_total s c Hs Hc) as (s2 & Hr2 & Hs2 & He2). rewrite Hr in Hr2. injection Hr2 as <-. auto.
Qed.
Definition udp1 : udp_state := after_call New udp_state_init.
Definition udp2 : udp_state := after_call (Bind 1 None 7) udp1.
Definition udp3 : udp_state := after_call (Recv 1 (Some 1) 0) udp2.
Definition udp4 : udp_state := after_call New udp3.
Lemma udp3_reached : rtc udp_step udp_state_init udp3.
Proof.
  eapply rtc_l with udp1; [|eapply rtc_l with udp2; [|eapply rtc_l with udp3; [|apply rtc_refl]]].
  - exists New. split; [by intros i|]. vm_compute. reflexivity.
  - exists (Bind 1 None 7). split; [|vm_compute; reflexivity]. intros i [= <-]. eexists. vm_compute. reflexivity.
  - exists (Recv 1 (Some 1) 0). split; [|vm_compute; reflexivity]. intros i [= <-]. eexists. vm_compute. reflexivity.
Qed.
Lemma udp3_ok : udp_ok udp3 /\ exclusive udp3.
Proof.
  pose proof udp3_reached as Hr. apply (rtc_ind_r (fun s => udp_ok s /\ exclusive s)) in Hr; [exact Hr|exact udp_init_ok|].
  intros t1 t2 _ Hst Ht. by eapply step_kept.
Qed.
Lemma udp4_ok : udp_ok udp4 /\ exclusive udp4.
Proof. eapply step_kept; [exact udp3_ok|]. exists New. split; [by intros i|]. vm_compute. reflexivity. Qed.
Lemma echo3_udp : udp_of echo3 = udp3.
Proof. vm_compute. reflexivity. Qed.

Lemma udp_bind_exact_witness :
  udp_bind (Some 2%positive) (Some our_ip) 7 udp4 = Some (ERR_USE, udp4) /\
  exists p, local_range p /\ result (udp_bind (Some 2%positive) (Some our_ip) 0 udp4) = Some ERR_OK.
Proof.
  assert (udp_tab udp4 !! 2%positive = Some (UdpPcb 0 0 0 0 0 UDP_TTL 0 0 0 None 0)) as H2 by (vm_compute; reflexivity).
  split.
  - destruct (udp_bind_exact udp4 2 _ (Some our_ip) 7 (proj1 udp4_ok) H2) as (_ & Huse & _). apply Huse; [discriminate|].
    exists 1%positive. eexists. split; [vm_compute; left|]. split; [vm_compute; reflexivity|]. split; [discriminate|].
    split; [reflexivity|]. right. right. reflexivity.
  - destruct (udp_bind_exact udp4 2 _ (Some our_ip) 0 (proj1 udp4_ok) H2) as (Hany & _). destruct (Hany eq_refl) as (p & Hp & _ & Hr).
    exists p. split; [exact Hp|]. rewrite Hr. reflexivity.
Defined.


(** ** The datagram as udp_input gets it *)
Definition dgram : list Z := drop 14 echo_in.
Definition dgram_pbuf : positive := h_next (n_heap echo3).
Definition dgram_heap0 : heap := final (pbuf_take (Some dgram_pbuf) (Some dgram) 32 (rx_heap (n_heap echo3) 32)) (n_heap echo3).
Definition dgram_b : pbuf := move_payload (rx_pbuf (n_heap echo3) 32) dgram_pbuf 64 (- 20).
Definition dgram_heap : heap := patch dgram_pbuf dgram_b dgram_heap0.
Definition dgram_block : list Z := default [] (h_mem dgram_heap !! dgram_pbuf).
Definition dgram_world : demo_world :=
  upd_ip (fun _ => IpData (Some 1%positive) (Some 1%positive) (Some (Ptr dgram_pbuf 64)) 20 host_ip our_ip) (n_ext echo3).

Lemma dgram_udp : (get_part dgram_world : udp_state) = udp3.
Proof. vm_compute. reflexivity. Qed.
Lemma udp_input_demultiplexes_witness :
  exists (u : udp_state) h1 b1, pdata h1 b1 = echo_data /\ h_pbufs h1 !! dgram_pbuf = Some b1 /\
    udp_input dgram_pbuf 1%positive (Node dgram_heap lab_netifs dgram_world) =
      demo_echo 1 0 1%positive dgram_pbuf host_ip 5000 (Node h1 lab_netifs (set_part u dgram_world)).
Proof.
  destruct (udp_input_demultiplexes dgram_heap lab_netifs dgram_world dgram_pbuf 1 dgram_b 84 dgram_block 1 lab_netif 1 lab_netif lab_netif)
    as (t & u & h1 & b1 & Ht & (l & Hl & Hu) & Hb1 & Hd & _ & Hr).
  { vm_compute. reflexivity. } { vm_compute. reflexivity. } { vm_compute. reflexivity. } { vm_compute. discriminate. }
  { vm_compute. discriminate. } { vm_compute. split; [discriminate|reflexivity]. } { vm_compute. split; [discriminate|reflexivity]. }
  { rewrite dgram_udp. exact (proj1 udp3_ok). } { rewrite dgram_udp. exact (proj2 udp3_ok). }
  { reflexivity. } { reflexivity. } { reflexivity. } { reflexivity. } { reflexivity. } { vm_compute. reflexivity. }
  exists u, h1, b1. split; [rewrite Hd; vm_compute; reflexivity|]. split; [exact Hb1|]. rewrite Hr.
  assert (t = Some 1%positive) as ->.
  { apply Ht. eexists. split; [rewrite dgram_udp; vm_compute; left|]. split; [rewrite dgram_udp; vm_compute; reflexivity|].
    split; [split; vm_compute; reflexivity|]. left. vm_compute. reflexivity. }
  assert (udp_tab u !! 1%positive = udp_tab udp3 !! 1%positive) as Hu1 by (rewrite Hu, dgram_udp; reflexivity).
  unfold to_user. rewrite Hu1. reflexivity.
Defined.

(** ** A datagram of 12 bytes to send *)
Lemma send_single : single send_heap ping_pbuf send_pbuf (take 128 send_block) (slice send_block 128 12) (drop 140 send_block).
Proof. split; vm_compute; first [reflexivity | discriminate | split; [reflexivity|split; discriminate]]. Qed.
Lemma udp_datagram_sent_witness :
  exists h' l k, packet h' (Some ping_pbuf) l /\ chain_data h' l = udp_header 7 5000 20 k ++ slice send_block 128 12 /\
    ocsum (osum (pseudo_header our_ip host_ip IP_PROTO_UDP 20 ++ chain_data h' l)) = 65535 /\
    udp_sendto_if_src 1%positive ping_pbuf host_ip 5000 1%positive our_ip (Node send_heap lab_netifs (n_ext echo3)) =
      (err ← ip4_output_if_src ping_pbuf (Some our_ip) (Some host_ip) UDP_TTL 0 IP_PROTO_UDP 1%positive; mret tt;; mret err) (Node h' lab_netifs (n_ext echo3)).
Proof.
  assert (chain_data send_heap [(ping_pbuf, send_pbuf)] = slice send_block 128 12) as Ed.
  { rewrite chain_data_cons, (single_pdata _ _ _ _ _ _ send_single). apply app_nil_r. }
  destruct (udp_datagram_sent send_heap lab_netifs (n_ext echo3) 1 (UdpPcb 0 0 0 0 0 UDP_TTL 0 7 0 (Some 1) 0) ping_pbuf send_pbuf [] ping_pbuf 5000 1 our_ip host_ip)
    as (h' & l & k & Hp & Hd & _ & Hv & Hr).
  { change (get_part (n_ext echo3)) with (udp_of echo3). rewrite echo3_udp. vm_compute. reflexivity. }
  { split; reflexivity. } { reflexivity. }
  { apply (single_packet _ _ _ (take 128 send_block) (slice send_block 128 12) (drop 140 send_block)); [vm_compute; reflexivity|exact send_single]. }
  { apply Forall_cons_2; [reflexivity|apply Forall_nil_2]. }
  { vm_compute. apply NoDup_singleton. } { apply all_bytes. vm_compute. reflexivity. } { reflexivity. }
  { apply Space_before. split; [vm_compute; discriminate|]. exists 128, send_block.
    split; [reflexivity|]. split; [vm_compute; reflexivity|]. split; vm_compute; discriminate. }
  { vm_compute. split; [discriminate|reflexivity]. } { vm_compute. split; [discriminate|reflexivity]. } { split; [discriminate|reflexivity]. }
  rewrite Ed in *. exists h', l, k. split; [exact Hp|]. split; [exact Hd|]. split; [exact Hv|]. exact Hr.
Defined.
